(* ===== verification/_CoqProject ===== *)
-Q . S2P
Prelude.v
Mem.v
Layout.v
Kalloc.v
Buddy.v
KallocInv.v
KallocAlloc.v
KallocFree.v
KallocSpec.v
KallocThm.v
Kmalloc.v
KmallocInv.v
KmallocProof.v
KmallocSpec.v
KmallocFree.v
KmallocThm.v
Vm.v
VmInv.v
VmWalk.v
VmMap.v
VmThm.v
Vma.v
VmaProof.v
MemBoot.v
VmaThm.v
UserMem.v
UserCopy.v
UserStr.v
Sbrk.v
SbrkThm.v
ForkMem.v
ForkThm.v
Exec.v
ExecProof.v
ExecThm.v
ListH.v
Hash.v
ListThm.v
Proc.v
ProcInv.v
ProcMoves.v
ProcOps.v
ProcSched.v
ProcLife.v
ProcWait.v
ProcFork.v
ProcExec.v
ProcStep.v
ProcThm.v
LifeThm.v
FamilyThm.v
SpawnThm.v
SleepThm.v
HazardThm.v
Virtio.v
VirtioInv.v
VirtioThm.v
Bio.v
BioInv.v
BioThm.v
Uart.v
Kprintf.v
ConsoleThm.v
Syscall.v
SyscallProof.v
SyscallThm.v
Plic.v
Trap.v
TrapProof.v
TrapThm.v
Asm.v
AsmProof.v
AsmThm.v
Boot.v
BootThm.v
UserProg.v
UserOs.v
UserTest.v
UserProgThm.v
