(* ===== verification/Prelude.v ===== *)
(** * bobchouOS: a verification of the kernel

    bobchouOS is a teaching kernel for one RISC-V hart (Sv39, QEMU virt).  This
    library translates the C code and the assembly under src/kernel, and the programs under
    src/user, into executable Rocq definitions and proves what makes each part correct.
    Every C function of the kernel is a state-passing computation
    [M S A] with four outcomes: a result, a panic of the kernel, an access C leaves
    undefined, or the end of the fuel of a bounded loop.  A theorem that a call returns
    [Ok] excludes the other three, so it is also a theorem on memory safety and
    termination.  Machine integers are [Z] with the wrap-around written out ([u64],
    [u32], [u16], [u8]).

    ** The parts of the program and where they are

    The kernel stacks up as follows; each layer is proved against what the layer below
    promises (the classes [PageAllocator], [BlockDevice], [Console], [Uart16550] and
    [PlicDevice] are such promises).

    - Mem, Layout: memory as bytes, src/kernel/lib/string.c, the address map
      (riscv.h, mem_layout.h).
    - Kalloc (kalloc.c): the buddy allocator of pages.  Buddy holds the geometry of
      blocks, KallocInv the invariant, KallocAlloc, KallocFree and KallocSpec the
      operations, KallocThm the theorems.
    - Kmalloc (kmalloc.c): the slab allocator on top of it; KmallocInv, KmallocProof,
      KmallocSpec, KmallocFree, KmallocThm (which also says what an allocation does to the
      pages of others).
    - Vm (vm.c): page tables, with the hardware's translation [Sv39] as reference;
      VmInv, VmWalk, VmMap, VmThm.
    - Vma (vma.c, vm_fault.c, the copies of vm.c): address spaces, demand paging and
      copy-on-write; VmaProof, VmaThm.  UserMem, UserCopy and UserStr define what
      a process sees at its addresses ([uview]) and prove faults and copies against it;
      Sbrk and SbrkThm do the same for proc_sbrk of proc.c, and ForkMem and ForkThm for
      vma_dup_all, over the page allocator and the heap together.
    - Exec (exec.c, elf_defs.h): the loader and the argument block; ExecProof, ExecThm.
    - ListH, Hash (list.h, hashtable.h): the intrusive lists on a store of next and prev
      pointers, and the hash tables; ListThm.  Elsewhere lists are the sequences these
      theorems say they are.
    - Proc (proc.c, wait_queue.c, spinlock.c, sleeplock.c, sys_sleep of syscall.c, the
      timer and return paths of trap.c): processes, scheduler, wait queues, locks.
      [kst] is the state of the subsystem, [run_op] one operation of the running process
      or of an interrupt, [step] what the hart can do next.  ProcInv states the
      invariant, ProcMoves the changes of state that keep it, ProcOps, ProcSched,
      ProcLife, ProcWait, ProcFork, ProcExec the operations, ProcStep the steps and the
      start.  The theorems are in ProcThm, LifeThm, FamilyThm, SpawnThm and SleepThm;
      HazardThm shows three runs in which the code goes wrong.
    - Virtio (drivers/virtio_blk.c, virtio.h): descriptors, request ring, completion
      interrupt and handshake, with the device as a relation; VirtioInv, VirtioThm.
    - Bio (bio.c, buf.h): the buffer cache over a [BlockDevice]; BioInv, BioThm.
    - Uart, Kprintf (drivers/uart.c, lib/kprintf.c): the console, over the registers of a
      16550, and formatted output over any [Console]; ConsoleThm.
    - Syscall (syscall.c): the handlers and the dispatcher, over the process subsystem,
      the memory with the address space of each process, and a console ([sysst]);
      SyscallProof, SyscallThm.
    - Plic, Trap (drivers/plic.c, trap.c, the control registers of riscv.h): interrupt
      controller and trap dispatcher on the machine of all components ([mach]);
      TrapProof, TrapThm.
    - Asm (arch/entry.S, m_vec.S, sbi.S, swtch.S, kernel_vec.S, trampoline.S): each routine
      is the list of its instructions, run on a [hart] with registers, control registers,
      privilege mode and memory; every fetch, load and store is translated by the page
      table satp names.  AsmProof, AsmThm.
    - Boot (main.c): kmain over the state of all components ([kernel]); MemBoot says what
      the kernel's page table needs and maps and brings up the three layers of memory,
      BootThm the rest.
    - UserProg (user/init.c, utest.c, usys.S, start.S): programs as trees of requests.
      UserOs is what the system calls promise to them, as a transition system of
      processes; UserTest and UserProgThm follow the programs through it.

    ** What the theorems show

    - C1: kmain, from zeroed memory, reaches the scheduler with every component in the
      state its theorems start from.
    - C2 to C4: the allocators give out fresh, zeroed, aligned, disjoint blocks and
      objects of the right size, take them back, and reject every wrong free; free memory
      stays tiled by coalesced blocks.  (Lemmas beside them: the state of the page
      allocator is determined by what is allocated, and freeing undoes allocating.)
    - C5, C6: walk and map_pages agree with the hardware's translation; tables are
      built and freed exactly.
    - C7, C8: page faults are resolved exactly when they should be; the list of VMAs is
      sorted and searched exactly.
    - C9 to C11: copies between kernel and user memory, strings included, transfer exactly
      what the process sees, and never write a shared page; sbrk adds zeroes and takes
      away pages, and nothing else; fork gives the child the memory of its parent, shared
      until one of them writes, or is undone.
    - C12, C13: exec puts the bytes of the file and the arguments where the program finds
      them.
    - C14, C15: lists and hash tables refine sequences and finite maps.
    - C16, C17: boot establishes the invariant of the process subsystem, every reachable
      state keeps it and no operation panics, uses freed memory or spins for ever (unless
      idle or init is killed), and waiting in the run queue is bounded.
    - C18 to C23: wake-ups, timed sleep, exit, kill, fork, exec and sleep-locks do what
      they promise, on every branch.
    - C24: the driver never shares or loses a descriptor, in every interleaving with
      device and interrupts; the request it posts is exactly what the code says (the
      direction flag included, which is the wrong way round).
    - C25: the cache holds one copy of each block, with one user at a time.
    - C26, C27: numbers are printed as their numerals, formatted output is what the
      format string stands for when it fits its arguments, and the UART sends it.
    - C28 to C31: write, exec, wait and the system calls as a whole, against what the
      process sees.
    - C32 to C35: traps from user mode and from the kernel: every cause has its effect, all
      components stay sound, and the hart goes back with the right registers.
    - C36 to C38: the trampoline, the context switch, the kernel trap vector and the
      machine-mode code, instruction by instruction: what is saved, restored and switched.
    - C39, C40: init and utest end with every test passed under any schedule, given what
      the system calls promise; the stubs reach the handler of the call they name.

    ** Bounds and fuel

    The fuel of a loop is always the number of its iterations or a bound the invariant
    gives: orders up to MAX_ORDER, list lengths up to the number of pages, pages of a
    range, entries of a table, descriptors of a chain, the distance of the ring counters
    modulo 2^16, the length of the list walked.  An assembly routine gets the number of
    instructions it executes (for entry.S four per word of the BSS, and 32).  That it
    suffices is part of each theorem.  Boot needs 90 free pages: at most 76 tables for the
    kernel's mappings, a slab for each of the seven kinds of objects it allocates, and
    seven pages of stacks and rings.

    ** What is not modelled

    The wrappers that include a program's image in the kernel (user_bin_*.S), the tests
    under src/kernel/test, and the course material under src/lectures, whose exercises
    are programs of their own.  Fences of the TLB have no effect in the model: a
    translation always reads the tables.  There is one hart, as in the code:
    interleaving is that of preemption and interrupts, and a spinlock that is taken when
    held is a loop that does not end.  Inside Proc the results of the allocators are
    arguments with their effect on the set of owned resources; their own behaviour is
    proved in the components above.  The bodies of the idle thread and of init_start are
    the operations of Proc they consist of.  UserOs is a statement of what programs rely
    on, not a layer proved from Syscall: it leaves out failures for want of memory.
    Devices are what their documentation says, as the laws of a class with an instance
    that satisfies them. *)
From stdpp Require Export base list numbers strings option tactics sets.
From Stdlib Require Export ZArith Lia.
From Stdlib Require Import Btauto.

#[global] Open Scope Z_scope.

(** * Outcomes of kernel code

    A C function of the kernel returns a value, stops in [panic], performs an
    access the C program has no right to (a NULL or out-of-array dereference, a
    wild pointer), or, in a bounded model of a loop, runs out of fuel.  The last
    two are kept apart from [Panic]: a theorem that an operation returns [Ok]
    excludes all three. *)
Inductive outcome (A : Type) : Type :=
| Ok (a : A)
| Panic (msg : string)
| Undefined
| OutOfFuel.
Arguments Ok {A} a.
Arguments Panic {A} msg.
Arguments Undefined {A}.
Arguments OutOfFuel {A}.

(** State-passing computations with outcomes. *)
Definition M (S A : Type) : Type := S -> outcome (A * S).

Definition panic {S A} (msg : string) : M S A := fun _ => Panic msg.
Definition undefined {S A} : M S A := fun _ => Undefined.
Definition out_of_fuel {S A} : M S A := fun _ => OutOfFuel.
Definition get {S} : M S S := fun s => Ok (s, s).
Definition gets {S A} (f : S -> A) : M S A := fun s => Ok (f s, s).
Definition modify {S} (f : S -> S) : M S unit := fun s => Ok (tt, f s).
(** [require b] is the right to go on: undefined behaviour unless [b]. *)
Definition require {S} (b : bool) : M S unit :=
  fun s => if b then Ok (tt, s) else Undefined.

#[global] Instance M_ret {S} : MRet (M S) := fun A a s => Ok (a, s).
#[global] Instance M_bind {S} : MBind (M S) := fun A B f m s =>
  match m s with
  | Ok (a, s') => f a s'
  | Panic e => Panic e
  | Undefined => Undefined
  | OutOfFuel => OutOfFuel
  end.

(** [for_range n i body] is [for (; i < i + n; i++) body(i)]. *)
Fixpoint for_range {S} (n : nat) (i : Z) (body : Z -> M S unit) : M S unit :=
  match n with
  | O => mret tt
  | Datatypes.S n' => body i ;; for_range n' (i + 1) body
  end.

(** A computation of one component of a larger state. *)
Definition zoom {S T A} (proj : S -> T) (put : T -> S -> S) (m : M T A) : M S A := fun s =>
  match m (proj s) with
  | Ok (a, t) => Ok (a, put t s)
  | Panic e => Panic e
  | Undefined => Undefined
  | OutOfFuel => OutOfFuel
  end.

(** ** Total-correctness weakest preconditions *)
Definition wp {S A} (m : M S A) (Q : A -> S -> Prop) (s : S) : Prop :=
  match m s with
  | Ok (a, s') => Q a s'
  | _ => False
  end.

Section wp_rules.
Context {S : Type}.
Implicit Types s : S.

Lemma wp_elim {A} (m : M S A) Q s :
  wp m Q s -> exists a s', m s = Ok (a, s') /\ Q a s'.
Proof. unfold wp. destruct (m s) as [[a s']| | |]; naive_solver. Qed.

Lemma wp_intro {A} (m : M S A) (Q : A -> S -> Prop) s a s' :
  m s = Ok (a, s') -> Q a s' -> wp m Q s.
Proof. unfold wp. by intros ->. Qed.

Lemma wp_mono {A} (m : M S A) (Q Q' : A -> S -> Prop) s :
  wp m Q s -> (forall a s', Q a s' -> Q' a s') -> wp m Q' s.
Proof. unfold wp. destruct (m s) as [[a s']| | |]; naive_solver. Qed.

Lemma wp_conj {A} (m : M S A) (Q Q' : A -> S -> Prop) s : wp m Q s -> wp m Q' s -> wp m (fun a s' => Q a s' /\ Q' a s') s.
Proof. unfold wp. destruct (m s) as [[a s']| | |]; naive_solver. Qed.

Lemma wp_result {A} (m : M S A) (Q : A -> S -> Prop) s : wp m Q s -> wp m (fun a s' => Q a s' /\ m s = Ok (a, s')) s.
Proof. unfold wp. by destruct (m s) as [[a s']| | |]. Qed.

Lemma wp_zoom {T A} (proj : S -> T) put (m : M T A) (Q : A -> S -> Prop) s : wp m (fun a t => Q a (put t s)) (proj s) -> wp (zoom proj put m) Q s.
Proof. unfold wp, zoom. by destruct (m (proj s)) as [[a t]| | |]. Qed.

Lemma wp_ret {A} (a : A) (Q : A -> S -> Prop) s : Q a s -> wp (mret a) Q s.
Proof. done. Qed.

Lemma wp_bind {A B} (m : M S A) (f : A -> M S B) (Q : B -> S -> Prop) s :
  wp m (fun a s' => wp (f a) Q s') s -> wp (m ≫= f) Q s.
Proof. unfold wp, mbind, M_bind. by destruct (m s) as [[a s']| | |]. Qed.

Lemma wp_get (Q : S -> S -> Prop) s : Q s s -> wp get Q s.
Proof. done. Qed.

Lemma wp_gets {A} (f : S -> A) (Q : A -> S -> Prop) s : Q (f s) s -> wp (gets f) Q s.
Proof. done. Qed.

Lemma wp_modify (f : S -> S) (Q : unit -> S -> Prop) s : Q tt (f s) -> wp (modify f) Q s.
Proof. done. Qed.

Lemma wp_require b (Q : unit -> S -> Prop) s : b = true -> Q tt s -> wp (require b) Q s.
Proof. by intros ->. Qed.

(** The loop rule: an invariant indexed by the loop counter. *)
Lemma wp_for_range (Inv : Z -> S -> Prop) n i body (Q : unit -> S -> Prop) s :
  Inv i s ->
  (forall j s', i <= j < i + Z.of_nat n -> Inv j s' ->
    wp (body j) (fun _ s'' => Inv (j + 1) s'') s') ->
  (forall s', Inv (i + Z.of_nat n) s' -> Q tt s') ->
  wp (for_range n i body) Q s.
Proof.
  revert i s. induction n as [|n IH]; intros i s HI Hstep HQ; cbn [for_range].
  - apply wp_ret, HQ. by rewrite Nat2Z.inj_0, Z.add_0_r.
  - apply wp_bind. eapply wp_mono; [apply Hstep; [lia|done]|].
    intros ? s' HI'. apply IH; [done| |].
    + intros j s'' Hj. apply Hstep. lia.
    + intros s'' H. apply HQ. by replace (i + Z.of_nat (Datatypes.S n)) with (i + 1 + Z.of_nat n) by lia.
Qed.
End wp_rules.

(** Weakest preconditions up to panics: the computation meets [Q] or stops in
    [panic], but neither loops nor does anything undefined. *)
Definition wpp {S A} (m : M S A) (Q : A -> S -> Prop) (s : S) : Prop :=
  match m s with
  | Ok (a, s') => Q a s'
  | Panic _ => True
  | _ => False
  end.

Section wpp_rules.
Context {S : Type}.
Implicit Types s : S.

Lemma wpp_elim {A} (m : M S A) (Q : A -> S -> Prop) s : wpp m Q s ->
  (exists msg, m s = Panic msg) \/ (exists a s', m s = Ok (a, s') /\ Q a s').
Proof. unfold wpp. destruct (m s) as [[a s']|msg| |]; [right|left|done|done]; eauto. Qed.

Lemma wp_wpp {A} (m : M S A) (Q : A -> S -> Prop) s : wp m Q s -> wpp m Q s.
Proof. unfold wp, wpp. by destruct (m s) as [[a s']| | |]. Qed.

Lemma wpp_mono {A} (m : M S A) (Q Q' : A -> S -> Prop) s :
  wpp m Q s -> (forall a s', Q a s' -> Q' a s') -> wpp m Q' s.
Proof. unfold wpp. destruct (m s) as [[a s']| | |]; naive_solver. Qed.

Lemma wpp_bind {A B} (m : M S A) (f : A -> M S B) (Q : B -> S -> Prop) s :
  wpp m (fun a s' => wpp (f a) Q s') s -> wpp (m ≫= f) Q s.
Proof. unfold wpp, mbind, M_bind. by destruct (m s) as [[a s']| | |]. Qed.

Lemma wpp_wp_bind {A B} (m : M S A) (f : A -> M S B) (Q : B -> S -> Prop) s :
  wp m (fun a s' => wpp (f a) Q s') s -> wpp (m ≫= f) Q s.
Proof. intros. by apply wpp_bind, wp_wpp. Qed.

Lemma wpp_panic {A} msg (Q : A -> S -> Prop) s : wpp (panic msg) Q s.
Proof. done. Qed.
End wpp_rules.

Create HintDb kernel.
#[export] Hint Resolve wp_ret wp_get wp_gets wp_modify : kernel.

(** [wp_steps] runs the straight-line part of a computation symbolically. *)
Ltac wp_step :=
  lazymatch goal with
  | |- wp (mbind _ _) _ _ => apply wp_bind
  | |- wp (mret _) _ _ => apply wp_ret
  | |- wp get _ _ => apply wp_get
  | |- wp (gets _) _ _ => apply wp_gets
  | |- wp (modify _) _ _ => apply wp_modify
  end.
Ltac wp_steps := repeat (wp_step; cbv beta).

(** [lia] with division and remainder by constants. *)
Ltac mlia := Z.to_euclidean_division_equations; lia.

(** * Fixed-width integers *)
Definition u8 (x : Z) : Z := x mod 2 ^ 8.
Definition u16 (x : Z) : Z := x mod 2 ^ 16.
Definition u32 (x : Z) : Z := x mod 2 ^ 32.
Definition u64 (x : Z) : Z := x mod 2 ^ 64.
(** Conversion of a 64-bit pattern to [int] and [int64] (two's complement). *)
Definition i32 (x : Z) : Z :=
  let y := x mod 2 ^ 32 in if y <? 2 ^ 31 then y else y - 2 ^ 32.
Definition i64 (x : Z) : Z :=
  let y := x mod 2 ^ 64 in if y <? 2 ^ 63 then y else y - 2 ^ 64.

Lemma u64_small x : 0 <= x < 2 ^ 64 -> u64 x = x.
Proof. apply Z.mod_small. Qed.
Lemma u64_range x : 0 <= u64 x < 2 ^ 64.
Proof. apply Z.mod_pos_bound. lia. Qed.
Lemma u16_small x : 0 <= x < 2 ^ 16 -> u16 x = x.
Proof. apply Z.mod_small. Qed.
Lemma u8_small x : 0 <= x < 2 ^ 8 -> u8 x = x.
Proof. apply Z.mod_small. Qed.

(** * Bits of aligned addresses *)
Lemma pow2_succ k : 0 <= k -> 2 ^ (k + 1) = 2 * 2 ^ k.
Proof. intros. rewrite Z.pow_add_r by lia. lia. Qed.

Lemma pow2_pos k : 0 <= k -> 0 < 2 ^ k.
Proof. intros. by apply Z.pow_pos_nonneg. Qed.

(** An address aligned to 2^k is the even or the odd buddy of its pair. *)
Lemma aligned_cases a k : 0 <= k -> a mod 2 ^ k = 0 ->
  a mod 2 ^ (k + 1) = 0 \/ a mod 2 ^ (k + 1) = 2 ^ k.
Proof.
  intros Hk Ha. rewrite pow2_succ by done. pose proof (pow2_pos k Hk).
  rewrite (Z.mul_comm 2), Z.rem_mul_r, Ha by lia.
  pose proof (Z.mod_pos_bound (a / 2 ^ k) 2 ltac:(lia)).
  assert ((a / 2 ^ k) mod 2 = 0 \/ (a / 2 ^ k) mod 2 = 1) as [-> | ->] by lia; lia.
Qed.

Lemma aligned_weaken a j k : 0 <= j <= k -> a mod 2 ^ k = 0 -> a mod 2 ^ j = 0.
Proof.
  intros Hj Ha. replace k with (j + (k - j)) in Ha by lia.
  rewrite Z.pow_add_r in Ha by lia.
  apply Z.mod_divide in Ha; [|nia]. destruct Ha as [q ->].
  rewrite (Z.mul_comm (2 ^ j)), Z.mul_assoc. apply Z.mod_mul. lia.
Qed.

Lemma testbit_of_mod a k : 0 <= k ->
  Z.testbit a k = (2 ^ k <=? a mod 2 ^ (k + 1)).
Proof.
  intros Hk. pose proof (pow2_pos k Hk).
  rewrite <- (Z.mod_pow2_bits_low a (k + 1) k) by lia.
  pose proof (Z.mod_pos_bound a (2 ^ (k + 1))) as Hb.
  rewrite pow2_succ in * by done.
  set (r := a mod _) in *. destruct (Z.leb_spec (2 ^ k) r).
  - apply Z.testbit_true; [done|]. replace r with (r - 2 ^ k + 1 * 2 ^ k) by lia.
    rewrite Z.div_add, Z.div_small by lia. done.
  - apply Z.testbit_false; [done|]. by rewrite Z.div_small by lia.
Qed.

Lemma land_pow2_clear a k : 0 <= k -> Z.testbit a k = false -> Z.land a (2 ^ k) = 0.
Proof.
  intros Hk Ht. apply Z.bits_inj'. intros n Hn.
  rewrite Z.land_spec, Z.pow2_bits_eqb, Z.bits_0 by done.
  destruct (Z.eqb_spec k n); subst; rewrite ?Ht; btauto.
Qed.

Lemma lxor_pow2_even a k : 0 <= k -> a mod 2 ^ (k + 1) = 0 -> Z.lxor a (2 ^ k) = a + 2 ^ k.
Proof.
  intros Hk Ha. symmetry. apply Z.add_nocarry_lxor, land_pow2_clear; [done|].
  rewrite testbit_of_mod, Ha by done. pose proof (pow2_pos k Hk). by apply Z.leb_gt.
Qed.

Lemma lxor_pow2_odd a k : 0 <= k -> a mod 2 ^ (k + 1) = 2 ^ k -> Z.lxor a (2 ^ k) = a - 2 ^ k.
Proof.
  intros Hk Ha. pose proof (pow2_pos k Hk).
  assert ((a - 2 ^ k) mod 2 ^ (k + 1) = 0) as He.
  { rewrite Zminus_mod, Ha, (Z.mod_small (2 ^ k)) by (rewrite pow2_succ; lia).
    by rewrite Z.sub_diag, Z.mod_0_l by (rewrite pow2_succ; lia). }
  replace a with (Z.lxor (a - 2 ^ k) (2 ^ k)) at 1.
  - by rewrite Z.lxor_assoc, Z.lxor_nilpotent, Z.lxor_0_r.
  - rewrite lxor_pow2_even by done. lia.
Qed.

Lemma clear_pow2_even a k : 0 <= k -> a mod 2 ^ (k + 1) = 0 -> Z.land a (Z.lnot (2 ^ k)) = a.
Proof.
  intros Hk Ha. rewrite <- Z.ldiff_land. pose proof (pow2_pos k Hk).
  assert (Z.testbit a k = false) as Ht.
  { rewrite testbit_of_mod, Ha by done. by apply Z.leb_gt. }
  apply Z.bits_inj'. intros n Hn. rewrite Z.ldiff_spec, Z.pow2_bits_eqb by done.
  destruct (Z.eqb_spec k n); subst; rewrite ?Ht; btauto.
Qed.

Lemma clear_pow2_odd a k : 0 <= k -> a mod 2 ^ (k + 1) = 2 ^ k -> Z.land a (Z.lnot (2 ^ k)) = a - 2 ^ k.
Proof.
  intros Hk Ha. pose proof (pow2_pos k Hk). rewrite <- Z.ldiff_land.
  rewrite <- lxor_pow2_odd by done.
  assert (Z.testbit a k = true) as Ht.
  { rewrite testbit_of_mod, Ha by done. by apply Z.leb_le. }
  apply Z.bits_inj'. intros n Hn. rewrite Z.ldiff_spec, Z.lxor_spec, Z.pow2_bits_eqb by done.
  destruct (Z.eqb_spec k n); subst; rewrite ?Ht; btauto.
Qed.

(** Masking with [~(2^k - 1)] rounds down. *)
Lemma land_lnot_ones a k : 0 <= k -> Z.land a (Z.lnot (2 ^ k - 1)) = a - a mod 2 ^ k.
Proof.
  intros Hk. rewrite <- Z.ldiff_land.
  replace (2 ^ k - 1) with (Z.ones k) by (rewrite Z.ones_equiv; lia).
  rewrite Z.ldiff_ones_r, Z.shiftr_div_pow2, Z.shiftl_mul_pow2 by done.
  pose proof (Z.div_mod a (2 ^ k)). pose proof (pow2_pos k Hk). lia.
Qed.

Lemma land_ones_mod a k : 0 <= k -> Z.land a (2 ^ k - 1) = a mod 2 ^ k.
Proof.
  intros Hk. rewrite <- (Z.land_ones a k) by done. by rewrite Z.ones_equiv.
Qed.

(** * Finite updates of total functions (arrays of structs) *)
Definition upd {A} (f : Z -> A) (i : Z) (v : A) : Z -> A :=
  fun j => if i =? j then v else f j.

Lemma upd_eq {A} (f : Z -> A) i v : upd f i v i = v.
Proof. unfold upd. by rewrite Z.eqb_refl. Qed.
Lemma upd_ne {A} (f : Z -> A) i j v : i <> j -> upd f i v j = f j.
Proof. unfold upd. by intros ->%Z.eqb_neq. Qed.
Lemma upd_case {A} (f : Z -> A) i j v : upd f i v j = if decide (i = j) then v else f j.
Proof. unfold upd. case_decide; subst; [by rewrite Z.eqb_refl|]. by apply upd_ne. Qed.
