(* ===== verification/Mem.v ===== *)
(** Byte-addressed memory and [kernel/lib/string.c].

    [mem] is the contents of memory, one byte per address; a load of [n] bytes is
    little-endian.  [Module KString] translates the four routines of string.c as
    the byte loops they are; [memset] and [memcpy] are their closed forms, which
    the rest of the development uses, and [memset_loop_correct] and
    [memcpy_loop_correct] show that the loops compute them. *)
From S2P Require Import Prelude.

Definition mem : Type := Z -> Z.

(** * Loads and stores *)
Definition ld8 (m : mem) (a : Z) : Z := u8 (m a).
Definition st8 (m : mem) (a v : Z) : mem := fun x => if x =? a then u8 v else m x.

Fixpoint ld (n : nat) (m : mem) (a : Z) : Z :=
  match n with
  | O => 0
  | S n' => ld8 m a + 2 ^ 8 * ld n' m (a + 1)
  end.

Definition in_range (x a n : Z) : bool := (a <=? x) && (x <? a + n).

Definition st (n : nat) (m : mem) (a v : Z) : mem := fun x =>
  if in_range x a (Z.of_nat n) then u8 (Z.shiftr v (8 * (x - a))) else m x.

Definition ld64 : mem -> Z -> Z := ld 8.
Definition st64 : mem -> Z -> Z -> mem := st 8.
Definition ld32 : mem -> Z -> Z := ld 4.

(** Block fill and block copy, as functions of the memory before. *)
Definition memset (m : mem) (dst val n : Z) : mem := fun x =>
  if in_range x dst n then u8 val else m x.
Definition memcpy (m : mem) (dst src n : Z) : mem := fun x =>
  if in_range x dst n then u8 (m (src + (x - dst))) else m x.

Lemma in_range_spec x a n : reflect (a <= x < a + n) (in_range x a n).
Proof. unfold in_range. apply iff_reflect. lia. Qed.

Lemma in_range_true x a n : a <= x < a + n -> in_range x a n = true.
Proof. intros. by destruct (in_range_spec x a n). Qed.
Lemma in_range_false x a n : ~ a <= x < a + n -> in_range x a n = false.
Proof. intros. by destruct (in_range_spec x a n). Qed.

(** Case analysis on every range test of the goal. *)
Ltac range_cases :=
  repeat match goal with
  | |- context [in_range ?x ?a ?n] => destruct (in_range_spec x a n)
  end.

Lemma ld8_range m a : 0 <= ld8 m a < 2 ^ 8.
Proof. apply Z.mod_pos_bound. lia. Qed.

Lemma u8_idem x : u8 (u8 x) = u8 x.
Proof. apply Z.mod_mod. lia. Qed.

Lemma ld_range n m a : 0 <= ld n m a < 2 ^ (8 * Z.of_nat n).
Proof.
  revert a. induction n as [|n IH]; intros a; [cbn; lia|]. cbn [ld].
  pose proof (ld8_range m a). pose proof (IH (a + 1)).
  replace (8 * Z.of_nat (S n)) with (8 + 8 * Z.of_nat n) by lia.
  rewrite Z.pow_add_r by lia. lia.
Qed.

Lemma ld64_range m a : 0 <= ld64 m a < 2 ^ 64.
Proof. apply (ld_range 8). Qed.

Lemma ld_ext n m m' a :
  (forall x, a <= x < a + Z.of_nat n -> m' x = m x) -> ld n m' a = ld n m a.
Proof.
  revert a. induction n as [|n IH]; intros a H; [done|]. cbn [ld]. unfold ld8.
  rewrite H by lia. rewrite IH; [done|]. intros. apply H. lia.
Qed.

Lemma ld64_ext m m' a : (forall x, a <= x < a + 8 -> m' x = m x) -> ld64 m' a = ld64 m a.
Proof. apply (ld_ext 8). Qed.

Lemma ld_bytes n m a v :
  (forall i, 0 <= i < Z.of_nat n -> m (a + i) = u8 (Z.shiftr v (8 * i))) ->
  ld n m a = v mod 2 ^ (8 * Z.of_nat n).
Proof.
  revert a v. induction n as [|n IH]; intros a v H; [cbn; by rewrite Z.mod_1_r|].
  cbn [ld]. rewrite (IH (a + 1) (Z.shiftr v 8)).
  - unfold ld8. specialize (H 0 ltac:(lia)). rewrite Z.add_0_r in H.
    rewrite H, u8_idem. replace (8 * 0) with 0 by lia. rewrite Z.shiftr_0_r.
    replace (8 * Z.of_nat (S n)) with (8 + 8 * Z.of_nat n) by lia.
    rewrite Z.pow_add_r by lia. unfold u8. rewrite (Z.rem_mul_r v (2 ^ 8)) by lia.
    by rewrite Z.shiftr_div_pow2 by lia.
  - intros i Hi. replace (a + 1 + i) with (a + (i + 1)) by lia.
    rewrite H, Z.shiftr_shiftr by lia. do 2 f_equal. lia.
Qed.

Lemma ld_st_eq n m a v : ld n (st n m a v) a = v mod 2 ^ (8 * Z.of_nat n).
Proof.
  apply ld_bytes. intros i Hi. unfold st. rewrite in_range_true by lia.
  do 3 f_equal. lia.
Qed.

Lemma ld64_st64_eq m a v : 0 <= v < 2 ^ 64 -> ld64 (st64 m a v) a = v.
Proof. intros. unfold ld64, st64. rewrite ld_st_eq. by apply Z.mod_small. Qed.

Lemma st64_out m a v x : ~ a <= x < a + 8 -> st64 m a v x = m x.
Proof. intros. unfold st64, st. by rewrite in_range_false by done. Qed.

Lemma ld64_st64_ne m a b v : b + 8 <= a \/ a + 8 <= b -> ld64 (st64 m a v) b = ld64 m b.
Proof. intros. apply ld64_ext. intros. apply st64_out. lia. Qed.

Lemma ld_memset_zero n m a dst len :
  dst <= a -> a + Z.of_nat n <= dst + len -> ld n (memset m dst 0 len) a = 0.
Proof.
  intros. rewrite (ld_bytes n _ a 0), Z.mod_0_l; [done|by apply Z.pow_nonzero; lia|].
  intros i Hi. unfold memset. rewrite in_range_true by lia. by rewrite Z.shiftr_0_l.
Qed.

Lemma memset_out m dst v n x : ~ dst <= x < dst + n -> memset m dst v n x = m x.
Proof. intros. unfold memset. by rewrite in_range_false. Qed.
Lemma memset_in m dst v n x : dst <= x < dst + n -> memset m dst v n x = u8 v.
Proof. intros. unfold memset. by rewrite in_range_true. Qed.
Lemma memcpy_out m dst src n x : ~ dst <= x < dst + n -> memcpy m dst src n x = m x.
Proof. intros. unfold memcpy. by rewrite in_range_false. Qed.

#[global] Arguments ld64 : simpl never.
#[global] Arguments st64 : simpl never.
#[global] Arguments ld32 : simpl never.
#[global] Arguments memset : simpl never.
#[global] Arguments memcpy : simpl never.

(** * kernel/lib/string.c *)
Module KString.

(** [while (n--) *p++ = (uint8)val;] *)
Fixpoint memset_loop (n : nat) (m : mem) (p val : Z) : mem :=
  match n with
  | O => m
  | S n' => memset_loop n' (st8 m p val) (p + 1) val
  end.

(** [while (n--) *d++ = *s++;], front to back, so it reads what it wrote when
    the regions overlap. *)
Fixpoint memcpy_loop (n : nat) (m : mem) (d s : Z) : mem :=
  match n with
  | O => m
  | S n' => memcpy_loop n' (st8 m d (ld8 m s)) (d + 1) (s + 1)
  end.

(** [while ( *a && *a == *b) { a++; b++; } return (uint8)*a - (uint8)*b;] *)
Fixpoint strcmp (fuel : nat) (m : mem) (a b : Z) : option Z :=
  match fuel with
  | O => None
  | S fuel' =>
      if negb (ld8 m a =? 0) && (ld8 m a =? ld8 m b)
      then strcmp fuel' m (a + 1) (b + 1)
      else Some (ld8 m a - ld8 m b)
  end.

(** [while (s[n]) n++; return n;] *)
Fixpoint strlen_from (fuel : nat) (m : mem) (s n : Z) : option Z :=
  match fuel with
  | O => None
  | S fuel' => if ld8 m (s + n) =? 0 then Some n else strlen_from fuel' m s (n + 1)
  end.
Definition strlen (fuel : nat) (m : mem) (s : Z) : option Z := strlen_from fuel m s 0.

(** ** The loops compute the block operations *)
Lemma memset_loop_at n m p v x :
  memset_loop n m p v x = memset m p v (Z.of_nat n) x.
Proof.
  revert m p. induction n as [|n IH]; intros m p; cbn [memset_loop].
  - unfold memset. by rewrite in_range_false by lia.
  - rewrite IH. unfold memset, st8. range_cases; try lia; try done;
      destruct (Z.eqb_spec x p); try lia; done.
Qed.

(** The bytes of [src] stay as they were while the copy runs: the regions are
    disjoint, or the destination lies below the source. *)
Lemma memcpy_loop_at n m d s x :
  d + Z.of_nat n <= s \/ s + Z.of_nat n <= d \/ d <= s ->
  memcpy_loop n m d s x = memcpy m d s (Z.of_nat n) x.
Proof.
  revert m d s. induction n as [|n IH]; intros m d s H; cbn [memcpy_loop].
  - unfold memcpy. by rewrite in_range_false by lia.
  - rewrite IH by lia. unfold memcpy, st8, ld8. range_cases; try lia.
    + destruct (Z.eqb_spec (s + 1 + (x - (d + 1))) d); [lia|]. do 2 f_equal. lia.
    + destruct (Z.eqb_spec x d); [|lia]. subst. rewrite u8_idem. do 2 f_equal. lia.
    + destruct (Z.eqb_spec x d); [lia|done].
Qed.

(** A NUL-terminated string of [m] at [a] with contents [l]. *)
Definition cstr (m : mem) (a : Z) (l : list Z) : Prop :=
  (forall i c, l !! i = Some c -> c <> 0 /\ ld8 m (a + Z.of_nat i) = c) /\
  ld8 m (a + Z.of_nat (length l)) = 0.

Lemma cstr_cons m a c l : cstr m a (c :: l) <-> c <> 0 /\ ld8 m a = c /\ cstr m (a + 1) l.
Proof.
  unfold cstr. split.
  - intros [H H0]. destruct (H O c eq_refl) as [Hc Hl]. rewrite Z.add_0_r in Hl.
    split_and!; [done..| |].
    + intros i c' Hi. destruct (H (S i) c' Hi) as [? <-]. split; [done|].
      f_equal. lia.
    + rewrite <- H0. f_equal. cbn [length]. lia.
  - intros (Hc & Hl & H & H0). split.
    + intros [|i] c' Hi; [simplify_eq/=; by rewrite Z.add_0_r|].
      destruct (H i c' Hi) as [? <-]. split; [done|]. f_equal. lia.
    + rewrite <- H0. f_equal. cbn [length]. lia.
Qed.

Lemma cstr_nil m a : cstr m a [] <-> ld8 m a = 0.
Proof. unfold cstr. cbn. rewrite Z.add_0_r. split; [by intros []|]. by split. Qed.

Lemma strlen_from_correct m l : forall fuel s n,
  cstr m (s + n) l -> (length l < fuel)%nat ->
  strlen_from fuel m s n = Some (n + Z.of_nat (length l)).
Proof.
  induction l as [|c l IH]; intros [|fuel] s n Hs Hf; cbn [length] in *; try lia; cbn [strlen_from].
  - apply cstr_nil in Hs. by rewrite Hs, Z.add_0_r.
  - apply cstr_cons in Hs as (Hc & Hl & Hs). rewrite Hl.
    destruct (Z.eqb_spec c 0); [done|].
    rewrite <- Z.add_assoc in Hs. rewrite (IH fuel) by (done || lia). f_equal. lia.
Qed.

(** The order strcmp decides: the first difference, the shorter string first. *)
Fixpoint lex_diff (l1 l2 : list Z) : Z :=
  match l1, l2 with
  | c1 :: l1', c2 :: l2' => if c1 =? c2 then lex_diff l1' l2' else c1 - c2
  | c1 :: _, [] => c1
  | [], c2 :: _ => - c2
  | [], [] => 0
  end.

Lemma lex_diff_zero l1 l2 :
  Forall (fun c => c <> 0) l1 -> Forall (fun c => c <> 0) l2 ->
  lex_diff l1 l2 = 0 <-> l1 = l2.
Proof.
  revert l2. induction l1 as [|c1 l1 IH]; intros [|c2 l2] H1 H2; cbn [lex_diff];
    rewrite ?Forall_cons_iff in *; cbv beta in *; destruct_and?; [done|split; [intros; lia|done]..|].
  destruct (Z.eqb_spec c1 c2); subst.
  - rewrite IH by done. split; [by intros ->|congruence].
  - split; [intros; lia|congruence].
Qed.

Lemma cstr_nonzero m a l : cstr m a l -> Forall (fun c => c <> 0) l.
Proof. intros [H _]. apply Forall_lookup. intros i c Hc. by destruct (H i c Hc). Qed.

Lemma strcmp_lex m l1 : forall l2 fuel a b,
  cstr m a l1 -> cstr m b l2 -> (length l1 < fuel)%nat ->
  strcmp fuel m a b = Some (lex_diff l1 l2).
Proof.
  induction l1 as [|c1 l1 IH]; intros l2 [|fuel] a b H1 H2 Hf; cbn [length] in *; try lia;
    cbn [strcmp lex_diff].
  - apply cstr_nil in H1. rewrite H1. cbn. destruct l2 as [|c2 l2].
    + apply cstr_nil in H2. by rewrite H2.
    + apply cstr_cons in H2 as (? & -> & _). done.
  - apply cstr_cons in H1 as (Hc1 & -> & H1). destruct (Z.eqb_spec c1 0) as [|_]; [done|]. cbn [negb andb].
    destruct l2 as [|c2 l2].
    + apply cstr_nil in H2. rewrite H2. destruct (Z.eqb_spec c1 0); [done|]. f_equal. lia.
    + apply cstr_cons in H2 as (Hc2 & -> & H2). destruct (Z.eqb_spec c1 c2); [|done].
      apply IH; [done..|lia].
Qed.

End KString.
