(* ===== verification/Layout.v ===== *)
(** Address-space constants and page rounding: [kernel/include/riscv.h],
    [kernel/include/mem_layout.h] and the constants of [kernel/include/vm.h]. *)
From S2P Require Import Prelude.

Definition PG_SHIFT : Z := 12.
Definition PG_SIZE : Z := Z.shiftl 1 12.
Definition PG_ROUND_UP (a : Z) : Z := Z.land (u64 (a + PG_SIZE - 1)) (Z.lnot (PG_SIZE - 1)).
Definition PG_ROUND_DOWN (a : Z) : Z := Z.land a (Z.lnot (PG_SIZE - 1)).

Definition KERN_BASE : Z := 0x80000000.
Definition PHYS_STOP : Z := 0x88000000.
Definition UART0_BASE : Z := 0x10000000.
Definition PLIC_BASE : Z := 0x0C000000.
Definition PLIC_SIZE : Z := 0x400000.
Definition VIRTIO0_BASE : Z := 0x10001000.
Definition CLINT_BASE : Z := 0x2000000.
Definition QEMU_SHUTDOWN : Z := 0x100000.

(** Sv39, lower half: [vm.h], [MAX_VA]. *)
Definition MAX_VA : Z := Z.shiftl 1 38.
Definition TRAMPOLINE : Z := MAX_VA - PG_SIZE.
Definition TRAPFRAME : Z := TRAMPOLINE - PG_SIZE.
Definition USER_STACK_TOP : Z := TRAPFRAME - PG_SIZE.
Definition STACK_MAX_PAGES : Z := 16.
Definition USER_STACK_BOT : Z := USER_STACK_TOP - STACK_MAX_PAGES * PG_SIZE.
Definition HEAP_MAX : Z := USER_STACK_BOT - PG_SIZE.
Definition USER_TEXT_START : Z := 0x1000.

Lemma PG_SIZE_val : PG_SIZE = 4096.
Proof. reflexivity. Qed.

Lemma PG_ROUND_DOWN_mod a : PG_ROUND_DOWN a = a - a mod 4096.
Proof. apply (land_lnot_ones a 12). lia. Qed.

Lemma PG_ROUND_DOWN_range a : PG_ROUND_DOWN a <= a < PG_ROUND_DOWN a + 4096.
Proof. rewrite PG_ROUND_DOWN_mod. pose proof (Z.mod_pos_bound a 4096). lia. Qed.

Lemma PG_ROUND_DOWN_aligned a : PG_ROUND_DOWN a mod 4096 = 0.
Proof. rewrite PG_ROUND_DOWN_mod. mlia. Qed.

Lemma PG_ROUND_UP_mod a : 0 <= a -> a + 4095 < 2 ^ 64 ->
  PG_ROUND_UP a = a + 4095 - (a + 4095) mod 4096.
Proof.
  intros. unfold PG_ROUND_UP. replace (a + PG_SIZE - 1) with (a + 4095) by (rewrite PG_SIZE_val; lia).
  rewrite u64_small by lia. apply (land_lnot_ones (a + 4095) 12). lia.
Qed.

Lemma PG_ROUND_UP_range a : 0 <= a -> a + 4095 < 2 ^ 64 ->
  a <= PG_ROUND_UP a < a + 4096 /\ PG_ROUND_UP a mod 4096 = 0.
Proof. intros. rewrite PG_ROUND_UP_mod by done. mlia. Qed.

Lemma PG_ROUND_UP_id a : 0 <= a -> a + 4095 < 2 ^ 64 -> a mod 4096 = 0 -> PG_ROUND_UP a = a.
Proof. intros. rewrite PG_ROUND_UP_mod by done. mlia. Qed.
