(* ===== verification/Kalloc.v ===== *)
(** [kernel/kalloc.c]: the buddy allocator of physical pages.

    [kmem] is the memory state the allocators share: the bytes of dynamic RAM
    (everything from [free_start] to [PHYS_STOP]), the [struct page] table, the
    per-order free areas and the slab size classes of [kernel/kmalloc.c].  Free
    lists are threaded through the free blocks themselves, as in the C code:
    [b->next] is the 64-bit word at address [b] of RAM. *)
From S2P Require Import Prelude Mem Layout.

Definition MAX_ORDER : Z := 10.
Definition PG_SLAB : Z := Z.shiftl 1 0.
Definition PG_BIG : Z := Z.shiftl 1 1.
(** [sizeof(struct page)] on the LP64 ABI: four bytes of header, the union at
    offset 8 with two pointers. *)
Definition SIZEOF_PAGE : Z := 32.
Definition NULL : Z := 0.

(** A [struct page]; a [struct page *] is an index of the table ([option Z] where
    it can be NULL). *)
Record page := mk_page {
  refcount : Z;
  order : Z;
  flags : Z;
  class_idx : Z;
  nr_alloc : Z;
  slab_free_list : Z;
  next_slab : option Z
}.
Definition zero_page : page := mk_page 0 0 0 0 0 0 None.

Record free_area := mk_free_area { free_list : Z; nr_free : Z }.
Record size_class := mk_size_class { slot_size : Z; slabs : option Z }.

Record kmem := mk_kmem {
  ram : mem;
  pages : Z -> page;
  free_areas : Z -> free_area;
  free_start : Z;
  size_classes : Z -> size_class
}.

Definition set_ram (m : mem) (s : kmem) : kmem :=
  mk_kmem m (pages s) (free_areas s) (free_start s) (size_classes s).
Definition set_pages (p : Z -> page) (s : kmem) : kmem :=
  mk_kmem (ram s) p (free_areas s) (free_start s) (size_classes s).
Definition set_free_areas (f : Z -> free_area) (s : kmem) : kmem :=
  mk_kmem (ram s) (pages s) f (free_start s) (size_classes s).
Definition set_free_start (a : Z) (s : kmem) : kmem :=
  mk_kmem (ram s) (pages s) (free_areas s) a (size_classes s).
Definition set_size_classes (c : Z -> size_class) (s : kmem) : kmem :=
  mk_kmem (ram s) (pages s) (free_areas s) (free_start s) c.

Definition page_set_refcount (v : Z) (p : page) : page :=
  mk_page (u16 v) (order p) (flags p) (class_idx p) (nr_alloc p) (slab_free_list p) (next_slab p).
Definition page_set_order (v : Z) (p : page) : page :=
  mk_page (refcount p) (u8 v) (flags p) (class_idx p) (nr_alloc p) (slab_free_list p) (next_slab p).
Definition page_set_flags (v : Z) (p : page) : page :=
  mk_page (refcount p) (order p) (u8 v) (class_idx p) (nr_alloc p) (slab_free_list p) (next_slab p).

(** * Guarded accesses

    RAM below [free_start] holds the kernel image and the page table array,
    which are modelled as typed state: a raw access there is out of bounds, as
    is one beyond [PHYS_STOP]. *)
Definition ram_ok (s : kmem) (a n : Z) : bool := (free_start s <=? a) && (a + n <=? PHYS_STOP).

Definition load64 (a : Z) : M kmem Z :=
  s ← get; require (ram_ok s a 8);; mret (ld64 (ram s) a).
Definition store64 (a v : Z) : M kmem unit :=
  s ← get; require (ram_ok s a 8);; modify (set_ram (st64 (ram s) a v)).
Definition mem_set (a v n : Z) : M kmem unit :=
  s ← get; require (ram_ok s a n);; modify (set_ram (memset (ram s) a v n)).

Definition NR_PAGES : Z := Z.shiftr (PHYS_STOP - KERN_BASE) PG_SHIFT.

(** [pa_to_page]: the index of the entry; a dereference checks the bounds. *)
Definition pa_to_page (pa : Z) : Z := Z.shiftr (u64 (pa - KERN_BASE)) PG_SHIFT.
Definition page_to_pa (pg : Z) : Z := u64 (KERN_BASE + Z.shiftl pg PG_SHIFT).

Definition get_page (i : Z) : M kmem page :=
  require ((0 <=? i) && (i <? NR_PAGES));; gets (fun s => pages s i).
Definition update_page (i : Z) (f : page -> page) : M kmem unit :=
  require ((0 <=? i) && (i <? NR_PAGES));;
  modify (fun s => set_pages (upd (pages s) i (f (pages s i))) s).

Definition order_ok (k : Z) : bool := (0 <=? k) && (k <=? MAX_ORDER).
Definition get_area (k : Z) : M kmem free_area :=
  require (order_ok k);; gets (fun s => free_areas s k).
Definition set_area (k : Z) (f : free_area) : M kmem unit :=
  require (order_ok k);; modify (fun s => set_free_areas (upd (free_areas s) k f) s).

(** * buddy_alloc *)

(** [while (!(b = free_areas[found_order].free_list))
       if (++found_order > MAX_ORDER) return NULL;] *)
Fixpoint find_block (fuel : nat) (found_order : Z) : M kmem (option (Z * Z)) :=
  match fuel with
  | O => out_of_fuel
  | S fuel' =>
      fa ← get_area found_order;
      if free_list fa =? NULL then
        if MAX_ORDER <? found_order + 1 then mret None else find_block fuel' (found_order + 1)
      else mret (Some (found_order, free_list fa))
  end.

(** One round of the split: the upper half of order [i] goes on its free list. *)
Definition split_step (b i : Z) : M kmem unit :=
  let buddy := Z.lxor b (Z.shiftl PG_SIZE i) in
  update_page (pa_to_page buddy) (page_set_order i);;
  fa ← get_area i;
  store64 buddy (free_list fa);;
  set_area i (mk_free_area buddy (u64 (nr_free fa + 1))).

Definition buddy_alloc (ord : Z) : M kmem Z :=
  if MAX_ORDER <? ord then panic "buddy_alloc: order" else
  found ← find_block 11 ord;
  match found with
  | None => mret NULL
  | Some (found_order, b) =>
      fa ← get_area found_order;
      next ← load64 b;
      set_area found_order (mk_free_area next (u64 (nr_free fa - 1)));;
      for_range (Z.to_nat (found_order - ord)) ord (split_step b);;
      mem_set b 0 (Z.shiftl PG_SIZE ord);;
      update_page (pa_to_page b) (page_set_order ord);;
      update_page (pa_to_page b) (page_set_refcount 1);;
      mret b
  end.

(** * buddy_free *)

(** The [struct block **] cursor of the list search: the head of a free area, or
    the [next] field of a block. *)
Inductive link := LHead (k : Z) | LNext (b : Z).

Definition load_link (l : link) : M kmem Z :=
  match l with
  | LHead k => fa ← get_area k; mret (free_list fa)
  | LNext b => load64 b
  end.
Definition store_link (l : link) (v : Z) : M kmem unit :=
  match l with
  | LHead k => fa ← get_area k; set_area k (mk_free_area v (nr_free fa))
  | LNext b => store64 b v
  end.

(** [while ( *pb && *pb != buddy) pb = &( *pb)->next;] *)
Fixpoint find_link (fuel : nat) (pb : link) (buddy : Z) : M kmem link :=
  match fuel with
  | O => out_of_fuel
  | S fuel' =>
      v ← load_link pb;
      if (v =? NULL) || (v =? buddy) then mret pb else find_link fuel' (LNext v) buddy
  end.

(** One free block per page at most: enough fuel for any free list. *)
Definition list_fuel : nat := S (Z.to_nat NR_PAGES).

(** [*pb = ( *pb)->next; free_areas[order].nr_free--;] where [*pb = v]. *)
Definition remove_link (pb : link) (v ord : Z) : M kmem unit :=
  next ← load64 v;
  store_link pb next;;
  fa ← get_area ord;
  set_area ord (mk_free_area (free_list fa) (u64 (nr_free fa - 1))).

(** The merge loop; returns the address and order of the block to insert. *)
Fixpoint merge_loop (fuel : nat) (addr ord : Z) : M kmem (Z * Z) :=
  match fuel with
  | O => out_of_fuel
  | S fuel' =>
      if MAX_ORDER <=? ord then mret (addr, ord) else
      let buddy := Z.lxor addr (Z.shiftl PG_SIZE ord) in
      fs ← gets free_start;
      if (buddy <? fs) || (PHYS_STOP <=? buddy) then mret (addr, ord) else
      pg ← get_page (pa_to_page buddy);
      if negb (refcount pg =? 0) then mret (addr, ord) else
      pb ← find_link list_fuel (LHead ord) buddy;
      v ← load_link pb;
      if v =? NULL then mret (addr, ord) else
      remove_link pb v ord;;
      merge_loop fuel' (Z.land addr (Z.lnot (Z.shiftl PG_SIZE ord))) (ord + 1)
  end.

Definition buddy_free (pa ord : Z) : M kmem unit :=
  fs ← gets free_start;
  if (MAX_ORDER <? ord) || negb (pa mod Z.shiftl PG_SIZE ord =? 0) || (pa <? fs) || (PHYS_STOP <=? pa)
  then panic "buddy_free: invalid pa" else
  pg ← get_page (pa_to_page pa);
  if negb (refcount pg =? 1) || negb (order pg =? ord) then panic "buddy_free: refcount or order" else
  mem_set pa 1 (Z.shiftl PG_SIZE ord);;
  update_page (pa_to_page pa) (page_set_refcount 0);;
  '(addr, o) ← merge_loop 11 pa ord;
  fa ← get_area o;
  store64 addr (free_list fa);;
  set_area o (mk_free_area addr (u64 (nr_free fa + 1))).

(** * kalloc_init *)

(** The largest order whose block at [addr] is aligned and fits. *)
Fixpoint grow_order (fuel : nat) (addr ord : Z) : Z :=
  match fuel with
  | O => ord
  | S fuel' =>
      if (ord <? MAX_ORDER) && (addr + Z.shiftl PG_SIZE (ord + 1) <=? PHYS_STOP)
         && (addr mod Z.shiftl PG_SIZE (ord + 1) =? 0)
      then grow_order fuel' addr (ord + 1) else ord
  end.

(** The loop over free memory; returns [nr_total_free]. *)
Fixpoint add_blocks (fuel : nat) (addr total : Z) : M kmem Z :=
  match fuel with
  | O => out_of_fuel
  | S fuel' =>
      if addr <? PHYS_STOP then
        let ord := grow_order 10 addr 0 in
        update_page (pa_to_page addr) (page_set_refcount 1);;
        update_page (pa_to_page addr) (page_set_order ord);;
        buddy_free addr ord;;
        add_blocks fuel' (addr + Z.shiftl PG_SIZE ord) (total + Z.shiftl 1 ord)
      else mret total
  end.

(** [kernel_end] is the linker symbol [_kernel_end]. *)
Definition kalloc_init (kernel_end : Z) : M kmem Z :=
  let pages_base := PG_ROUND_UP kernel_end in
  let fs := PG_ROUND_UP (pages_base + NR_PAGES * SIZEOF_PAGE) in
  modify (set_pages (fun _ => zero_page));;
  modify (set_free_start fs);;
  add_blocks list_fuel fs 0.

Definition kalloc : M kmem Z := buddy_alloc 0.
Definition kfree (pa : Z) : M kmem unit := buddy_free pa 0.
Definition kalloc_pages (ord : Z) : M kmem Z := buddy_alloc ord.
Definition kfree_pages (pa ord : Z) : M kmem unit := buddy_free pa ord.
