(* ===== verification/Buddy.v ===== *)
(** The geometry of buddy blocks, independent of the allocator's state.

    A block is an address and an order; [partition lo hi B] says that the blocks
    [B] tile the interval [lo, hi) exactly.  Splitting, carving and merging keep
    a partition a partition. *)
From S2P Require Import Prelude Layout Kalloc.

(** Size in bytes of a block of order [k]: [PG_SIZE << k]. *)
Definition bsz (k : Z) : Z := 2 ^ (k + 12).

Definition blocks : Type := Z -> Z -> Prop.
Definition covers (a k x : Z) : Prop := a <= x < a + bsz k.
Definition buddy_of (a k : Z) : Z := Z.lxor a (Z.shiftl PG_SIZE k).

Record partition (lo hi : Z) (B : blocks) : Prop := {
  pt_ok : forall a k, B a k -> 0 <= k <= MAX_ORDER /\ a mod bsz k = 0 /\ lo <= a /\ a + bsz k <= hi;
  pt_disj : forall a k b j x, B a k -> B b j -> covers a k x -> covers b j x -> a = b /\ k = j;
  pt_cover : forall x, lo <= x < hi -> exists a k, B a k /\ covers a k x
}.
Arguments pt_ok {_ _ _}.
Arguments pt_disj {_ _ _}.
Arguments pt_cover {_ _ _}.

(** Two descriptions of the same set of blocks. *)
Definition blocks_eq (B B' : blocks) : Prop := forall a k, B a k <-> B' a k.

(** Remove one block, add one block. *)
Definition bminus (B : blocks) (a k : Z) : blocks := fun b j => B b j /\ ~ (b = a /\ j = k).
Definition bplus (B : blocks) (a k : Z) : blocks := fun b j => B b j \/ (b = a /\ j = k).
(** Block [a] of order [k+1] replaced by its two halves. *)
Definition bsplit (B : blocks) (a k : Z) : blocks :=
  bplus (bplus (bminus B a (k + 1)) a k) (a + bsz k) k.
(** Two buddies, the lower one at [a], replaced by their union. *)
Definition bmerge (B : blocks) (a k : Z) : blocks :=
  bplus (bminus (bminus B a k) (a + bsz k) k) a (k + 1).
(** Block [a] of order [f] cut down to order [o]: the upper halves stay. *)
Definition bcarve (B : blocks) (a o f : Z) : blocks := fun b j =>
  (bminus B a f b j \/ (b = a /\ j = o)) \/ (o <= j < f /\ b = a + bsz j).

#[export] Instance blocks_eq_equiv : Equivalence blocks_eq.
Proof.
  split; [by intros B a k|by intros B B' H a k; symmetry|].
  intros B1 B2 B3 H1 H2 a k. by rewrite (H1 a k).
Qed.

#[export] Instance partition_proper lo hi : Proper (blocks_eq ==> iff) (partition lo hi).
Proof.
  assert (forall B B', blocks_eq B B' -> partition lo hi B -> partition lo hi B') as Himp.
  { intros B B' H [Hok Hd Hc]. split.
    - intros a k Hb. by apply Hok, H.
    - intros a k b j x Ha Hb. apply Hd; by apply H.
    - intros x Hx. destruct (Hc x Hx) as (a & k & Hb & ?). exists a, k. by rewrite <- (H a k). }
  intros B B' H. split; apply Himp; [done|by symmetry].
Qed.

Lemma shiftl_bsz k : 0 <= k -> Z.shiftl PG_SIZE k = bsz k.
Proof.
  intros. unfold bsz, PG_SIZE. rewrite Z.shiftl_shiftl, Z.shiftl_mul_pow2, Z.mul_1_l by lia.
  f_equal. lia.
Qed.

Lemma bsz_succ k : 0 <= k -> bsz (k + 1) = 2 * bsz k.
Proof. intros. unfold bsz. rewrite <- pow2_succ by lia. f_equal. lia. Qed.

Lemma bsz_ge k : 0 <= k -> 4096 <= bsz k.
Proof. intros. unfold bsz. apply (Z.pow_le_mono_r 2 12). lia. lia. Qed.

Lemma bsz_mono j k : 0 <= j <= k -> bsz j <= bsz k.
Proof. intros. unfold bsz. apply Z.pow_le_mono_r; lia. Qed.

Lemma bsz_mono_lt j k : 0 <= j < k -> 2 * bsz j <= bsz k.
Proof. intros. rewrite <- bsz_succ by lia. apply bsz_mono. lia. Qed.

Lemma bsz_aligned_weaken a j k : 0 <= j <= k -> a mod bsz k = 0 -> a mod bsz j = 0.
Proof. intros. unfold bsz in *. eapply (aligned_weaken a _ (k + 12)); [lia|done]. Qed.

Lemma bsz_aligned_page a k : 0 <= k -> a mod bsz k = 0 -> a mod 4096 = 0.
Proof. intros. apply (bsz_aligned_weaken a 0 k); [lia|done]. Qed.

Lemma bsz_page k : 0 <= k -> bsz k mod 4096 = 0.
Proof. intros. apply (bsz_aligned_page _ k); [done|]. apply Z.mod_same. pose proof (bsz_ge k). lia. Qed.

Lemma aligned_add a k : 0 <= k -> a mod bsz k = 0 -> (a + bsz k) mod bsz k = 0.
Proof.
  intros Hk Ha. pose proof (bsz_ge k Hk). by rewrite Z.add_mod, Ha, Z.mod_same by lia.
Qed.

(** The buddy of the lower half of a pair is the upper half, and conversely. *)
Lemma buddy_even a k : 0 <= k -> a mod bsz (k + 1) = 0 -> buddy_of a k = a + bsz k.
Proof.
  intros Hk Ha. unfold buddy_of. rewrite shiftl_bsz by done. unfold bsz in *.
  apply lxor_pow2_even; [lia|]. by replace (k + 12 + 1) with (k + 1 + 12) by lia.
Qed.

Lemma buddy_odd a k : 0 <= k -> a mod bsz (k + 1) = bsz k -> buddy_of a k = a - bsz k.
Proof.
  intros Hk Ha. unfold buddy_of. rewrite shiftl_bsz by done. unfold bsz in *.
  apply lxor_pow2_odd; [lia|]. by replace (k + 12 + 1) with (k + 1 + 12) by lia.
Qed.

Lemma merge_even a k : 0 <= k -> a mod bsz (k + 1) = 0 ->
  Z.land a (Z.lnot (Z.shiftl PG_SIZE k)) = a.
Proof.
  intros Hk Ha. rewrite shiftl_bsz by done. unfold bsz in *.
  apply clear_pow2_even; [lia|]. by replace (k + 12 + 1) with (k + 1 + 12) by lia.
Qed.

Lemma merge_odd a k : 0 <= k -> a mod bsz (k + 1) = bsz k ->
  Z.land a (Z.lnot (Z.shiftl PG_SIZE k)) = a - bsz k.
Proof.
  intros Hk Ha. rewrite shiftl_bsz by done. unfold bsz in *.
  apply clear_pow2_odd; [lia|]. by replace (k + 12 + 1) with (k + 1 + 12) by lia.
Qed.

Lemma buddy_invol a k : buddy_of (buddy_of a k) k = a.
Proof. unfold buddy_of. by rewrite Z.lxor_assoc, Z.lxor_nilpotent, Z.lxor_0_r. Qed.

Lemma half_cases a k : 0 <= k -> a mod bsz k = 0 ->
  a mod bsz (k + 1) = 0 \/ a mod bsz (k + 1) = bsz k.
Proof.
  intros Hk Ha. unfold bsz in *. replace (k + 1 + 12) with (k + 12 + 1) by lia.
  apply aligned_cases; [lia|done].
Qed.

Lemma odd_lower a k : 0 <= k -> a mod bsz (k + 1) = bsz k -> (a - bsz k) mod bsz (k + 1) = 0.
Proof.
  intros Hk Ha. pose proof (bsz_ge k Hk). pose proof (bsz_succ k Hk).
  rewrite Zminus_mod, Ha, (Z.mod_small (bsz k)) by lia. by rewrite Z.sub_diag, Z.mod_0_l by lia.
Qed.

(** ** Split, merge and carve keep the partition *)
Section partition.
Context (lo hi : Z) (B : blocks) (HB : partition lo hi B).

Lemma partition_split a k : 0 <= k -> B a (k + 1) -> partition lo hi (bsplit B a k).
Proof.
  intros Hk Ha. destruct (pt_ok HB a (k + 1) Ha) as (Ho & Hal & Hlo & Hhi).
  pose proof (bsz_ge k Hk) as Hge. pose proof (bsz_succ k Hk) as Hsucc.
  assert (a mod bsz k = 0) as Hal' by (apply (bsz_aligned_weaken a k (k + 1)); [lia|done]).
  pose proof (aligned_add a k Hk Hal') as Hal2.
  assert (forall b j x, bminus B a (k + 1) b j -> covers b j x ->
    ~ covers a (k + 1) x) as Hsep.
  { intros b j x [Hb Hne] Hx Hx'. by destruct (pt_disj HB b j a (k + 1) x Hb Ha Hx Hx'), Hne. }
  split.
  - intros b j [[[Hb _]|[-> ->]]|[-> ->]]; [by apply (pt_ok HB)|lia..].
  - intros b1 j1 b2 j2 x [[H1|[-> ->]]|[-> ->]] [[H2|[-> ->]]|[-> ->]] Hx1 Hx2;
      try (by destruct H1, H2; apply (pt_disj HB) with x);
      try (exfalso; eapply Hsep; [eassumption..|]; unfold covers in *; lia);
      unfold covers in *; lia.
  - intros x Hx. destruct (pt_cover HB x Hx) as (b & j & Hb & Hc).
    destruct (decide (b = a /\ j = k + 1)) as [[-> ->]|Hne].
    + unfold covers, bsplit, bplus in *. destruct (decide (x < a + bsz k)).
      * exists a, k. split; [tauto|lia].
      * exists (a + bsz k), k. split; [tauto|lia].
    + exists b, j. split; [|done]. by left; left; split.
Qed.

Lemma partition_merge a k : 0 <= k < MAX_ORDER -> a mod bsz (k + 1) = 0 ->
  B a k -> B (a + bsz k) k -> partition lo hi (bmerge B a k).
Proof.
  intros Hk Hal Ha Hb. pose proof (bsz_ge k) as Hge. pose proof (bsz_succ k) as Hsucc.
  destruct (pt_ok HB a k Ha) as (_ & _ & Hlo & _).
  destruct (pt_ok HB (a + bsz k) k Hb) as (_ & _ & _ & Hhi).
  assert (forall b j x, bminus (bminus B a k) (a + bsz k) k b j -> covers b j x ->
    ~ covers a (k + 1) x) as Hsep.
  { intros b j x [[Hb' Hn1] Hn2] Hx Hx'. unfold covers in Hx'.
    destruct (decide (x < a + bsz k)) as [Hlt|Hnlt].
    - apply Hn1, (pt_disj HB b j a k x); unfold covers; (done || lia).
    - apply Hn2, (pt_disj HB b j (a + bsz k) k x); unfold covers; (done || lia). }
  split.
  - intros b j [[[H' _] _]|[-> ->]]; [by apply (pt_ok HB)|]. lia.
  - intros b1 j1 b2 j2 x [H1|[-> ->]] [H2|[-> ->]] Hx1 Hx2; [|exfalso; by eapply Hsep..|done].
    destruct H1 as [[? _] _], H2 as [[? _] _]. by apply (pt_disj HB) with x.
  - intros x Hx. destruct (pt_cover HB x Hx) as (b & j & Hb' & Hc).
    destruct (decide (covers a (k + 1) x)) as [Hin|Hout]; unfold covers in *.
    + exists a, (k + 1). split; [by right|lia].
    + exists b, j. split; [|done]. left. split; [split; [done|]|]; intros [-> ->]; lia.
Qed.

(** A block added at the upper end. *)
Lemma partition_extend k : 0 <= k <= MAX_ORDER -> hi mod bsz k = 0 -> lo <= hi ->
  partition lo (hi + bsz k) (bplus B hi k).
Proof.
  intros Hk Hal Hlo. pose proof (bsz_ge k) as Hge. split.
  - intros b j [Hb|[-> ->]]; [|lia]. destruct (pt_ok HB b j Hb). lia.
  - intros b1 j1 b2 j2 x [H1|[-> ->]] [H2|[-> ->]] Hx1 Hx2; unfold covers in *; [|exfalso..|done].
    + by apply (pt_disj HB) with x.
    + destruct (pt_ok HB b1 j1 H1). lia.
    + destruct (pt_ok HB b2 j2 H2). lia.
  - intros x Hx. destruct (decide (x < hi)).
    + destruct (pt_cover HB x ltac:(lia)) as (b & j & ? & ?). exists b, j. split; [by left|done].
    + exists hi, k. split; [by right|]. unfold covers. lia.
Qed.
End partition.

Lemma covers_self a k : 0 <= k -> covers a k a.
Proof. intros. unfold covers. pose proof (bsz_ge k). lia. Qed.

Lemma bcarve_same B a o : B a o -> blocks_eq (bcarve B a o o) B.
Proof.
  intros Ha b j. unfold bcarve, bminus. split; [|intros Hb].
  - intros [[[? _]|[-> ->]]|[? _]]; [done..|lia].
  - left. destruct (decide (b = a /\ j = o)) as [[-> ->]|]; [by right|by left].
Qed.

Lemma bcarve_succ B a o f : 0 <= o <= f -> ~ B a f ->
  blocks_eq (bcarve B a o (f + 1)) (bcarve (bsplit B a f) a o f).
Proof.
  intros Hof Hnf b j. pose proof (bsz_ge f) as Hge. unfold bcarve, bsplit, bplus, bminus. split.
  - intros [[[Hb Hne]|[-> ->]]|[Hj ->]].
    + left; left. split; [tauto|]. intros [-> ->]. done.
    + tauto.
    + destruct (decide (j = f)) as [->|]; [|right; lia].
      left; left. split; [tauto|]. intros [Heq _]. lia.
  - intros [[[[[[Hb Hne]|[-> ->]]|[-> ->]] Hne2]|[-> ->]]|[Hj ->]]; try tauto.
    + right. split; [lia|done].
    + right. split; [lia|done].
Qed.

(** Cutting a block down: by induction on the number of splits. *)
Lemma partition_carve lo hi n : forall B a o, 0 <= o ->
  partition lo hi B -> B a (o + Z.of_nat n) -> partition lo hi (bcarve B a o (o + Z.of_nat n)).
Proof.
  induction n as [|n IH]; intros B a o Ho HB Ha.
  - rewrite Z.add_0_r in *. by rewrite bcarve_same.
  - replace (o + Z.of_nat (S n)) with (o + Z.of_nat n + 1) in * by lia.
    set (f := o + Z.of_nat n) in *. rewrite bcarve_succ; [|lia|].
    + apply IH; [done|apply partition_split; (done || lia)|].
      unfold bsplit, bplus. tauto.
    + intros Hf. destruct (pt_disj HB a f a (f + 1) a Hf Ha); [by apply covers_self; lia..|lia].
Qed.
