(* ===== verification/KallocInv.v ===== *)
(** The invariant of the buddy allocator and the lemmas on its free lists. *)
From S2P Require Import Prelude Mem Layout Kalloc Buddy.

(** A singly linked list of blocks threaded through RAM. *)
Fixpoint chain (m : mem) (h : Z) (l : list Z) : Prop :=
  match l with
  | [] => h = NULL
  | a :: l' => h = a /\ a <> NULL /\ chain m (ld64 m a) l'
  end.

(** The [struct page] of an address. *)
Definition pg (s : kmem) (a : Z) : page := pages s (pa_to_page a).

(** An allocated block: its first page carries a reference count and its order. *)
Definition live (s : kmem) (a k : Z) : Prop :=
  free_start s <= a < PHYS_STOP /\ a mod 4096 = 0 /\ 0 < refcount (pg s a) /\ order (pg s a) = k.

Definition blk (fl : Z -> list Z) (s : kmem) : blocks := fun a k => a ∈ fl k \/ live s a k.

(** [fl] is what the free areas of [s] hold. *)
Record lists_ok (fl : Z -> list Z) (s : kmem) : Prop := {
  fl_chain : forall k, 0 <= k <= MAX_ORDER -> chain (ram s) (free_list (free_areas s k)) (fl k);
  fl_count : forall k, 0 <= k <= MAX_ORDER -> nr_free (free_areas s k) = Z.of_nat (length (fl k));
  fl_nodup : forall k, NoDup (fl k);
  fl_zero : forall k a, a ∈ fl k -> refcount (pg s a) = 0;
  fl_coal : forall k a, 0 <= k < MAX_ORDER -> a ∈ fl k -> buddy_of a k ∉ fl k;
  fl_u16 : forall p, 0 <= refcount (pages s p) < 2 ^ 16
}.

Definition bounds_ok (hi : Z) (s : kmem) : Prop :=
  KERN_BASE <= free_start s <= hi /\ hi <= PHYS_STOP /\ free_start s mod 4096 = 0.

(** The allocator's invariant up to the frontier [hi] (the whole of memory once
    [kalloc_init] has run): the free lists are well formed and fully coalesced,
    and free and allocated blocks tile the managed memory exactly. *)
Record buddy_inv (hi : Z) (fl : Z -> list Z) (s : kmem) : Prop := {
  bi_bounds : bounds_ok hi s;
  bi_lists : lists_ok fl s;
  bi_part : partition (free_start s) hi (blk fl s)
}.

Definition kalloc_inv (s : kmem) : Prop := exists fl, buddy_inv PHYS_STOP fl s.

(** Number of free pages, from the counters the code keeps. *)
Definition free_pages (s : kmem) : Z :=
  fold_right Z.add 0 ((fun k => nr_free (free_areas s k) * 2 ^ k) <$> seqZ 0 11).

(** Pages on the free lists. *)
Definition weight (fl : Z -> list Z) : Z :=
  fold_right Z.add 0 ((fun k => Z.of_nat (length (fl k)) * 2 ^ k) <$> seqZ 0 11).

Lemma NR_PAGES_val : NR_PAGES = 32768.
Proof. reflexivity. Qed.
Lemma KERN_BASE_val : KERN_BASE = 2147483648.
Proof. reflexivity. Qed.
Lemma PHYS_STOP_val : PHYS_STOP = 2281701376.
Proof. reflexivity. Qed.
Lemma MAX_ORDER_val : MAX_ORDER = 10.
Proof. reflexivity. Qed.
#[global] Opaque NR_PAGES KERN_BASE PHYS_STOP MAX_ORDER.

(** Numerals for the memory map, then [lia]. *)
Ltac klia := rewrite ?NR_PAGES_val, ?KERN_BASE_val, ?PHYS_STOP_val, ?MAX_ORDER_val in *; unfold NULL in *; lia.

(** Reads of an updated state. *)
Ltac ksimpl :=
  cbn [ram pages free_areas free_start size_classes
       set_ram set_pages set_free_areas set_free_start set_size_classes].

(** ** Guarded accesses *)
Section access.
Implicit Types s : kmem.

Lemma ram_ok_true s a n : free_start s <= a -> a + n <= PHYS_STOP -> ram_ok s a n = true.
Proof. unfold ram_ok. lia. Qed.

Lemma wp_load64 a (Q : Z -> kmem -> Prop) s :
  free_start s <= a -> a + 8 <= PHYS_STOP -> Q (ld64 (ram s) a) s -> wp (load64 a) Q s.
Proof. intros. unfold load64. wp_steps. apply wp_require; [by apply ram_ok_true|]. by wp_steps. Qed.

Lemma wp_store64 a v (Q : unit -> kmem -> Prop) s :
  free_start s <= a -> a + 8 <= PHYS_STOP -> Q tt (set_ram (st64 (ram s) a v) s) -> wp (store64 a v) Q s.
Proof. intros. unfold store64. wp_steps. apply wp_require; [by apply ram_ok_true|]. by wp_steps. Qed.

Lemma wp_mem_set a v n (Q : unit -> kmem -> Prop) s :
  free_start s <= a -> a + n <= PHYS_STOP -> Q tt (set_ram (memset (ram s) a v n) s) -> wp (mem_set a v n) Q s.
Proof. intros. unfold mem_set. wp_steps. apply wp_require; [by apply ram_ok_true|]. by wp_steps. Qed.

Lemma wp_get_page i (Q : page -> kmem -> Prop) s :
  0 <= i < NR_PAGES -> Q (pages s i) s -> wp (get_page i) Q s.
Proof. intros. unfold get_page. wp_steps. apply wp_require; [lia|]. by wp_steps. Qed.

Lemma wp_update_page i f (Q : unit -> kmem -> Prop) s :
  0 <= i < NR_PAGES -> Q tt (set_pages (upd (pages s) i (f (pages s i))) s) -> wp (update_page i f) Q s.
Proof. intros. unfold update_page. wp_steps. apply wp_require; [lia|]. by wp_steps. Qed.

Lemma wp_get_area k (Q : free_area -> kmem -> Prop) s :
  0 <= k <= MAX_ORDER -> Q (free_areas s k) s -> wp (get_area k) Q s.
Proof. intros. unfold get_area. wp_steps. apply wp_require; [unfold order_ok; lia|]. by wp_steps. Qed.

Lemma wp_set_area k f (Q : unit -> kmem -> Prop) s :
  0 <= k <= MAX_ORDER -> Q tt (set_free_areas (upd (free_areas s) k f) s) -> wp (set_area k f) Q s.
Proof. intros. unfold set_area. wp_steps. apply wp_require; [unfold order_ok; lia|]. by wp_steps. Qed.
End access.

Lemma pa_to_page_val a : KERN_BASE <= a < PHYS_STOP -> pa_to_page a = (a - KERN_BASE) / 4096.
Proof.
  intros. unfold pa_to_page, PG_SHIFT. rewrite u64_small by klia. by rewrite Z.shiftr_div_pow2 by lia.
Qed.

Lemma pa_to_page_range a : KERN_BASE <= a < PHYS_STOP -> 0 <= pa_to_page a < NR_PAGES.
Proof.
  intros. rewrite pa_to_page_val by done.
  rewrite ?NR_PAGES_val, ?KERN_BASE_val, ?PHYS_STOP_val in *. mlia.
Qed.

Lemma pa_to_page_inj a b : KERN_BASE <= a < PHYS_STOP -> KERN_BASE <= b < PHYS_STOP ->
  a mod 4096 = 0 -> b mod 4096 = 0 -> pa_to_page a = pa_to_page b -> a = b.
Proof.
  intros. rewrite !pa_to_page_val in * by done.
  rewrite ?NR_PAGES_val, ?KERN_BASE_val, ?PHYS_STOP_val in *. mlia.
Qed.

(** ** Chains *)
Lemma chain_null m l : chain m NULL l -> l = [].
Proof. destruct l; [done|]. intros (<- & ? & _). done. Qed.

Lemma chain_head m h l : chain m h l -> h <> NULL ->
  exists l', l = h :: l' /\ chain m (ld64 m h) l'.
Proof. destruct l as [|a l]; [done|]. intros (-> & _ & ?) _. by exists l. Qed.

Lemma chain_cons m h l : chain m h l -> h = default NULL (head l).
Proof. destruct l; [done|]. by intros (-> & _). Qed.

(** A chain depends only on the first words of its blocks. *)
Lemma chain_frame m m' h l :
  (forall a, a ∈ l -> ld64 m' a = ld64 m a) -> chain m h l -> chain m' h l.
Proof.
  revert h. induction l as [|a l IH]; intros h Hm; [done|].
  intros (-> & ? & Hc). split_and!; [done..|]. rewrite Hm by set_solver.
  apply IH; [|done]. intros b Hb. apply Hm. set_solver.
Qed.

(** Pages, one apart, hold disjoint words. *)
Lemma ld64_st64_page m a b v : a mod 4096 = 0 -> b mod 4096 = 0 -> a <> b ->
  ld64 (st64 m a v) b = ld64 m b.
Proof. intros. apply ld64_st64_ne. mlia. Qed.

Lemma chain_store m h l b v : b mod 4096 = 0 -> (forall a, a ∈ l -> a mod 4096 = 0) ->
  b ∉ l -> chain m h l -> chain (st64 m b v) h l.
Proof.
  intros Hb Hl Hn. apply chain_frame. intros a Ha.
  apply ld64_st64_page; [done|by apply Hl|]. intros ->. done.
Qed.

Lemma chain_push m h l b : b mod 4096 = 0 -> (forall a, a ∈ l -> a mod 4096 = 0) ->
  b ∉ l -> b <> NULL -> 0 <= h < 2 ^ 64 -> chain m h l -> chain (st64 m b h) b (b :: l).
Proof.
  intros. split_and!; [done..|]. rewrite ld64_st64_eq by done. by apply chain_store.
Qed.

(** Unlinking [t] from a chain by the word of its predecessor. *)
Lemma chain_unlink m h l1 c t l2 :
  (forall a, a ∈ l1 ++ c :: t :: l2 -> a mod 4096 = 0) -> NoDup (l1 ++ c :: t :: l2) ->
  chain m h (l1 ++ c :: t :: l2) -> chain (st64 m c (ld64 m t)) h (l1 ++ c :: l2).
Proof.
  revert h. induction l1 as [|a l1 IH]; intros h Hal Hnd Hc; cbn in *.
  - destruct Hc as (-> & ? & <- & Ht & Hc). split_and!; [done..|].
    rewrite ld64_st64_eq by apply ld64_range.
    apply NoDup_cons in Hnd as [Hn1 Hnd]. apply NoDup_cons in Hnd as [Hn2 Hnd].
    apply chain_store; [apply Hal; set_solver|intros; apply Hal; set_solver|set_solver|done].
  - destruct Hc as (-> & ? & Hc). split_and!; [done..|].
    apply NoDup_cons in Hnd as [Hn1 Hnd].
    rewrite ld64_st64_page; [|apply Hal; set_solver|apply Hal; set_solver|set_solver].
    apply IH; [|done..]. intros b Hb. apply Hal. set_solver.
Qed.

(** ** Accounting *)
Lemma weight_expand fl : weight fl =
  Z.of_nat (length (fl 0)) * 1 + (Z.of_nat (length (fl 1)) * 2 + (Z.of_nat (length (fl 2)) * 4 +
  (Z.of_nat (length (fl 3)) * 8 + (Z.of_nat (length (fl 4)) * 16 + (Z.of_nat (length (fl 5)) * 32 +
  (Z.of_nat (length (fl 6)) * 64 + (Z.of_nat (length (fl 7)) * 128 + (Z.of_nat (length (fl 8)) * 256 +
  (Z.of_nat (length (fl 9)) * 512 + (Z.of_nat (length (fl 10)) * 1024 + 0)))))))))).
Proof. reflexivity. Qed.

Lemma weight_ext fl fl' : (forall k, 0 <= k <= MAX_ORDER -> length (fl k) = length (fl' k)) -> weight fl = weight fl'.
Proof. intros H. rewrite !weight_expand, !H by klia. done. Qed.

Lemma weight_upd fl k l : 0 <= k <= MAX_ORDER ->
  weight (upd fl k l) = weight fl + (Z.of_nat (length l) - Z.of_nat (length (fl k))) * 2 ^ k.
Proof.
  intros Hk. rewrite !weight_expand.
  assert (k = 0 \/ k = 1 \/ k = 2 \/ k = 3 \/ k = 4 \/ k = 5 \/ k = 6 \/ k = 7 \/ k = 8 \/ k = 9 \/ k = 10)
    as Hcases by klia.
  destruct_or! Hcases; subst k; rewrite upd_eq, !upd_ne by lia; lia.
Qed.

Lemma weight_free_pages hi fl s : buddy_inv hi fl s -> free_pages s = weight fl.
Proof.
  intros Hinv. unfold free_pages, weight. f_equal. apply list_fmap_ext. intros i k Hk.
  apply lookup_seqZ in Hk as [-> ?]. f_equal. apply (fl_count _ _ (bi_lists _ _ _ Hinv)). klia.
Qed.

