(* ===== verification/KallocAlloc.v ===== *)
(** [buddy_alloc] meets its specification. *)
From S2P Require Import Prelude Mem Layout Kalloc Buddy KallocInv.

(** What the allocator never touches. *)
Definition same_env (s s' : kmem) : Prop :=
  free_start s' = free_start s /\ size_classes s' = size_classes s.

(** Allocated blocks keep their contents and their page entries. *)
Definition live_frame (s s' : kmem) : Prop :=
  forall a k, live s a k -> forall x, covers a k x -> ram s' x = ram s x /\ pg s' x = pg s x.

(** The contract of an allocation of order [o]: NULL only when no free block is
    large enough, and then nothing changes; otherwise a fresh, zeroed block. *)
Definition alloc_post (o : Z) (s : kmem) (r : Z) (s' : kmem) : Prop :=
  (r = NULL /\ s' = s /\ forall k, o <= k <= MAX_ORDER -> nr_free (free_areas s k) = 0) \/
  (r <> NULL /\ same_env s s' /\ live_frame s s' /\
   free_start s <= r /\ r + bsz o <= PHYS_STOP /\ r mod bsz o = 0 /\
   (forall x, covers r o x -> ram s' x = 0) /\
   refcount (pg s' r) = 1 /\
   (forall a k x, live s a k -> covers a k x -> ~ covers r o x) /\
   (forall a k, live s' a k <-> live s a k \/ (a = r /\ k = o)) /\
   (forall p, flags (pages s' p) = flags (pages s p))).

(** Free blocks, in any state whose blocks are part of a partition. *)
Section free_blocks.
Context (hi : Z) (fl : Z -> list Z) (s : kmem) (B : blocks).
Context (Hb : bounds_ok hi s) (HB : partition (free_start s) hi B).
Context (Hsub : forall k a, a ∈ fl k -> B a k).

Lemma free_ok k a : a ∈ fl k ->
  0 <= k <= MAX_ORDER /\ a mod bsz k = 0 /\ free_start s <= a /\ a + bsz k <= hi.
Proof using HB Hsub. intros Ha. by apply (pt_ok HB), Hsub. Qed.

Lemma free_page k a : a ∈ fl k -> a mod 4096 = 0.
Proof using HB Hsub. intros Ha. destruct (free_ok k a Ha) as (? & ? & _). apply (bsz_aligned_page a k); [lia|done]. Qed.

Lemma free_dram k a : a ∈ fl k -> KERN_BASE <= a < PHYS_STOP /\ a + 8 <= PHYS_STOP.
Proof using Hb HB Hsub.
  intros Ha. destruct (free_ok k a Ha) as (? & ? & ? & ?). destruct Hb as ([? ?] & ? & ?).
  pose proof (bsz_ge k). lia.
Qed.

Lemma free_disj k j a b x : a ∈ fl k -> b ∈ fl j -> covers a k x -> covers b j x -> a = b /\ k = j.
Proof using HB Hsub. intros. apply (pt_disj HB) with x; auto. Qed.

(** A free list is no longer than memory has pages. *)
Lemma free_length k : NoDup (fl k) -> Z.of_nat (length (fl k)) <= NR_PAGES.
Proof using Hb HB Hsub.
  intros Hnd. assert (NoDup (pa_to_page <$> fl k)) as Hnd'.
  { apply NoDup_fmap_2_strong; [|done]. intros a b Ha Hb'.
    destruct (free_dram k a Ha), (free_dram k b Hb').
    apply pa_to_page_inj; [done..| |]; by eapply free_page. }
  assert (pa_to_page <$> fl k ⊆ seqZ 0 NR_PAGES) as Hs.
  { intros p (a & -> & Ha)%list_elem_of_fmap. apply elem_of_seqZ.
    rewrite Z.add_0_l. apply pa_to_page_range. by eapply free_dram. }
  pose proof (submseteq_length _ _ (NoDup_submseteq _ _ Hnd' Hs)) as Hlen.
  rewrite length_fmap, length_seqZ in Hlen. klia.
Qed.
End free_blocks.

Section facts.
Context (hi : Z) (fl : Z -> list Z) (s : kmem) (Hinv : buddy_inv hi fl s).

Lemma inv_sub k a : a ∈ fl k -> blk fl s a k.
Proof. by left. Qed.

Lemma inv_free_ok k a : a ∈ fl k ->
  0 <= k <= MAX_ORDER /\ a mod bsz k = 0 /\ free_start s <= a /\ a + bsz k <= hi.
Proof using Hinv. apply (free_ok hi fl s (blk fl s)); [apply Hinv|apply inv_sub]. Qed.

Lemma inv_live_ok k a : live s a k ->
  0 <= k <= MAX_ORDER /\ a mod bsz k = 0 /\ free_start s <= a /\ a + bsz k <= hi.
Proof using Hinv. intros Ha. apply (pt_ok (bi_part _ _ _ Hinv)). by right. Qed.

Lemma inv_free_page k a : a ∈ fl k -> a mod 4096 = 0.
Proof using Hinv. apply (free_page hi fl s (blk fl s)); [apply Hinv|apply inv_sub]. Qed.

Lemma inv_free_dram k a : a ∈ fl k -> KERN_BASE <= a < PHYS_STOP /\ a + 8 <= PHYS_STOP.
Proof using Hinv. apply (free_dram hi fl s (blk fl s)); [apply Hinv..|apply inv_sub]. Qed.

Lemma inv_length k : Z.of_nat (length (fl k)) <= NR_PAGES.
Proof using Hinv. apply (free_length hi fl s (blk fl s)); [apply Hinv..|apply inv_sub|apply Hinv]. Qed.

(** Free blocks of different orders never share a page. *)
Lemma inv_free_disj k j a b x : a ∈ fl k -> b ∈ fl j -> covers a k x -> covers b j x -> a = b /\ k = j.
Proof. intros. apply (pt_disj (bi_part _ _ _ Hinv)) with x; (done || by left). Qed.

Lemma inv_free_live k j a b x : a ∈ fl k -> live s b j -> covers a k x -> covers b j x -> False.
Proof.
  intros Ha Hb Hx Hx'.
  destruct (pt_disj (bi_part _ _ _ Hinv) a k b j x (or_introl Ha) (or_intror Hb) Hx Hx') as [-> ->].
  pose proof (fl_zero _ _ (bi_lists _ _ _ Hinv) j b Ha). destruct Hb as (_ & _ & ? & _). lia.
Qed.

(** No page inside a free block carries a reference. *)
Lemma inv_free_refcount k a x : a ∈ fl k -> covers a k x -> x mod 4096 = 0 -> 0 < refcount (pg s x) -> False.
Proof.
  intros Ha Hx Hal Hr.
  assert (live s x (order (pg s x))) as Hl.
  { destruct (inv_free_ok k a Ha) as (? & _ & ? & ?).
    destruct (bi_bounds _ _ _ Hinv) as ([? ?] & ? & ?). unfold covers in Hx. split_and!; (done || lia). }
  eapply inv_free_live; [exact Ha|exact Hl|done|]. apply covers_self.
  by destruct (inv_live_ok _ _ Hl) as [[? _] _].
Qed.
End facts.

(** ** The search for a block *)
Lemma find_block_spec hi fl s : buddy_inv hi fl s -> forall fuel o,
  0 <= o <= MAX_ORDER -> MAX_ORDER - o < Z.of_nat fuel ->
  wp (find_block fuel o) (fun r s' => s' = s /\
    match r with
    | None => forall k, o <= k <= MAX_ORDER -> fl k = []
    | Some (f, b) => o <= f <= MAX_ORDER /\ (forall k, o <= k < f -> fl k = []) /\
        exists rest, fl f = b :: rest
    end) s.
Proof.
  intros Hinv. induction fuel as [|fuel IH]; intros o Ho Hf; [lia|]. cbn [find_block].
  wp_steps. apply wp_get_area; [done|].
  pose proof (fl_chain _ _ (bi_lists _ _ _ Hinv) o Ho) as Hc.
  destruct (Z.eqb_spec (free_list (free_areas s o)) NULL) as [Hn|Hn].
  - rewrite Hn in Hc. apply chain_null in Hc.
    destruct (Z.ltb_spec MAX_ORDER (o + 1)).
    + apply wp_ret. split; [done|]. intros k Hk. by replace k with o by lia.
    + eapply wp_mono; [apply IH; lia|]. intros [[f b]|] s' [-> Hr]; (split; [done|]).
      * destruct Hr as (? & Hk & ?). split_and!; [lia..| |done].
        intros k ?. destruct (decide (k = o)) as [->|]; [done|]. apply Hk. lia.
      * intros k ?. destruct (decide (k = o)) as [->|]; [done|]. apply Hr. lia.
  - destruct (chain_head _ _ _ Hc Hn) as (rest & Hr & _). apply wp_ret.
    split_and!; [done|lia..| |by exists rest]. intros. lia.
Qed.

(** ** The split loop *)
Definition split_fl (fl : Z -> list Z) (b o i : Z) : Z -> list Z := fun k =>
  if (o <=? k) && (k <? i) then (b + bsz k) :: fl k else fl k.

(** State after the rounds [o .. i-1] of the split of block [b] of order [f]:
    only the pages of that block changed, and only their orders. *)
Record split_inv (fl : Z -> list Z) (s0 : kmem) (b o f i : Z) (s : kmem) : Prop := {
  si_chain : forall k, 0 <= k <= MAX_ORDER ->
    chain (ram s) (free_list (free_areas s k)) (split_fl fl b o i k);
  si_count : forall k, 0 <= k <= MAX_ORDER ->
    nr_free (free_areas s k) = Z.of_nat (length (split_fl fl b o i k));
  si_env : same_env s0 s;
  si_ram : forall x, ~ covers b f x -> ram s x = ram s0 x;
  si_pages : forall x, KERN_BASE <= x < PHYS_STOP -> ~ covers b f x -> pg s x = pg s0 x;
  si_fields : forall p, refcount (pages s p) = refcount (pages s0 p) /\ flags (pages s p) = flags (pages s0 p)
}.

(** A page entry update inside a block is invisible outside it. *)
Lemma upd_page_outside s b f y v x :
  0 <= f -> b mod bsz f = 0 -> KERN_BASE <= b -> b + bsz f <= PHYS_STOP ->
  covers b f y -> KERN_BASE <= x < PHYS_STOP -> ~ covers b f x ->
  upd (pages s) (pa_to_page y) v (pa_to_page x) = pg s x.
Proof.
  intros Hf Hal Hb1 Hb2 Hy Hx Hnx. rewrite upd_ne; [done|].
  rewrite !pa_to_page_val by (unfold covers in Hy; lia).
  pose proof (bsz_aligned_page b f Hf Hal). pose proof (bsz_page f Hf). unfold covers in *.
  rewrite KERN_BASE_val. intros Heq.
  mlia.
Qed.

Lemma split_fl_other fl b o i k a : a ∈ split_fl fl b o i k -> a ∈ fl k \/ (o <= k < i /\ a = b + bsz k).
Proof. unfold split_fl. destruct (Z.leb_spec o k), (Z.ltb_spec k i); cbn; rewrite ?elem_of_cons; naive_solver. Qed.

Lemma split_fl_eq fl b o i : o <= i -> split_fl fl b o (i + 1) i = (b + bsz i) :: split_fl fl b o i i.
Proof.
  intros. unfold split_fl. destruct (Z.leb_spec o i), (Z.ltb_spec i (i + 1)), (Z.ltb_spec i i); (done || lia).
Qed.

Lemma split_fl_ne fl b o i k : k <> i -> split_fl fl b o (i + 1) k = split_fl fl b o i k.
Proof. intros. unfold split_fl. destruct (Z.ltb_spec k (i + 1)), (Z.ltb_spec k i); (done || lia). Qed.

Section split.
Context (fl : Z -> list Z) (s0 : kmem) (b o f : Z).
Context (Hof : 0 <= o <= f) (Hf : f <= MAX_ORDER) (Hal : b mod bsz f = 0).
Context (Hlo : KERN_BASE <= free_start s0 <= b) (Hhi : b + bsz f <= PHYS_STOP).
Context (Hpage : forall k a, a ∈ fl k -> a mod 4096 = 0).
Context (Hdram : forall k a, a ∈ fl k -> KERN_BASE <= a < PHYS_STOP).
Context (Hout : forall k a, a ∈ fl k -> ~ covers b f a).

Lemma split_buddy i : o <= i < f ->
  buddy_of b i = b + bsz i /\ (b + bsz i) mod 4096 = 0 /\ b + 2 * bsz i <= b + bsz f /\ 4096 <= bsz i.
Proof using Hof Hf Hal.
  intros Hi. split_and!.
  - apply buddy_even; [lia|]. apply (bsz_aligned_weaken b _ f); [lia|done].
  - assert (b mod 4096 = 0) by (apply (bsz_aligned_page b f); [lia|done]).
    pose proof (bsz_page i). rewrite Z.add_mod by lia. mlia.
  - pose proof (bsz_mono_lt i f). lia.
  - apply bsz_ge. lia.
Qed.

Lemma split_fl_mem i k a : o <= i <= f -> a ∈ split_fl fl b o i k ->
  a mod 4096 = 0 /\ KERN_BASE <= a < PHYS_STOP /\ (i < f -> a <> b + bsz i).
Proof.
  intros Hi [Ha|[Hk ->]]%split_fl_other.
  - split_and!; [by eapply Hpage|by eapply Hdram..|]. intros Hif ->. apply (Hout k _ Ha).
    destruct (split_buddy i) as (_ & _ & ? & ?); [lia|]. unfold covers. lia.
  - destruct (split_buddy k) as (_ & ? & ? & ?); [lia|]. split_and!; [done|lia..|].
    intros. pose proof (bsz_mono_lt k i). lia.
Qed.

Lemma split_step_spec i s : o <= i < f -> split_inv fl s0 b o f i s ->
  Z.of_nat (length (fl i)) < NR_PAGES ->
  wp (split_step b i) (fun _ s' => split_inv fl s0 b o f (i + 1) s') s.
Proof using All.
  intros Hi HI Hlen. destruct (split_buddy i Hi) as (Hbud & Hbal & Hbi & Hge).
  assert (covers b f (b + bsz i)) as Hcov by (unfold covers; lia).
  destruct HI as [Hch Hct [Hfs Hsc] Hram Hpg Hfd].
  unfold split_step. fold (buddy_of b i). rewrite Hbud. wp_steps.
  apply wp_update_page; [apply pa_to_page_range; lia|].
  wp_steps. apply wp_get_area; [lia|]. cbn [free_areas set_pages].
  wp_steps. apply wp_store64; cbn [free_start ram set_pages set_ram]; [lia..|].
  apply wp_set_area; [lia|].
  assert (forall k, b + bsz i ∉ split_fl fl b o i k) as Hfresh.
  { intros k Hk. apply split_fl_mem in Hk as (_ & _ & Hk); [|lia]. by apply Hk; [lia|]. }
  split; cbn [ram free_areas pages set_free_areas set_ram set_pages].
  - intros k Hk. pose proof (Hch k Hk) as Hck. rewrite upd_case. case_decide as Hki.
    + subst k. rewrite split_fl_eq by lia. cbn [free_list].
      apply chain_push; [done|by intros a ?%split_fl_mem; naive_solver lia|done|klia| |done].
      rewrite (chain_cons _ _ _ Hck). destruct (split_fl fl b o i i) as [|a l] eqn:E; cbn; [klia|].
      assert (a ∈ split_fl fl b o i i) as Ha by (rewrite E; set_solver).
      apply split_fl_mem in Ha as (_ & ? & _); [|lia]. klia.
    + rewrite split_fl_ne by done.
      apply chain_store; [done|by intros a ?%split_fl_mem; naive_solver lia|done|done].
  - intros k Hk. rewrite upd_case. case_decide as Hki.
    + subst k. rewrite split_fl_eq by lia. cbn [nr_free length].
      rewrite Hct by lia. replace (split_fl fl b o i i) with (fl i)
        by (unfold split_fl; destruct (Z.leb_spec o i), (Z.ltb_spec i i); (done || lia)).
      rewrite u64_small by klia. lia.
    + rewrite split_fl_ne by done. by apply Hct.
  - done.
  - intros x Hx. rewrite st64_out by (unfold covers in *; lia). by apply Hram.
  - intros x Hx Hnx. unfold pg. ksimpl. rewrite (upd_page_outside s b f); [by apply Hpg|..]; (done || lia).
  - intros p. rewrite upd_case. case_decide; subst; by rewrite <- (proj1 (Hfd _)), <- (proj2 (Hfd _)).
Qed.
End split.

(** ** Accounting of an allocation *)
Lemma weight_split fl b o n : 0 <= o -> o + Z.of_nat n <= MAX_ORDER + 1 ->
  weight (split_fl fl b o (o + Z.of_nat n)) = weight fl + (2 ^ (o + Z.of_nat n) - 2 ^ o).
Proof.
  intros Ho. induction n as [|n IH]; intros Hn.
  - rewrite Z.add_0_r, Z.sub_diag, Z.add_0_r. apply weight_ext. intros k _. unfold split_fl.
    destruct (Z.leb_spec o k), (Z.ltb_spec k o); (done || lia).
  - replace (o + Z.of_nat (S n)) with (o + Z.of_nat n + 1) by lia. set (i := o + Z.of_nat n) in *.
    rewrite (weight_ext _ (upd (split_fl fl b o i) i ((b + bsz i) :: split_fl fl b o i i))).
    + rewrite weight_upd, IH, pow2_succ by lia. cbn [length]. lia.
    + intros k _. rewrite upd_case. case_decide as Hk; [subst k; by rewrite split_fl_eq by lia|].
      by rewrite split_fl_ne by lia.
Qed.

(** ** From a free block to an allocated one *)
Section pop.
Context (hi : Z) (fl : Z -> list Z) (s : kmem) (Hinv : buddy_inv hi fl s).
Context (b f : Z) (rest : list Z) (Hfl : fl f = b :: rest).
Let fl1 := upd fl f rest.

Lemma carve_in : b ∈ fl f.
Proof. rewrite Hfl. by left. Qed.

Lemma carve_ok : 0 <= f <= MAX_ORDER /\ b mod bsz f = 0 /\ free_start s <= b /\ b + bsz f <= hi.
Proof. apply (inv_free_ok hi fl s Hinv), carve_in. Qed.

Lemma carve_dram : KERN_BASE <= free_start s <= b /\ b + bsz f <= PHYS_STOP /\ 4096 <= bsz f /\ b mod 4096 = 0.
Proof.
  destruct carve_ok as (? & ? & ? & ?). destruct (bi_bounds _ _ _ Hinv) as (? & ? & ?).
  pose proof (bsz_ge f). split_and!; try lia. apply (bsz_aligned_page b f); [lia|done].
Qed.

Lemma fl1_spec a k : a ∈ fl1 k <-> a ∈ fl k /\ ~ (a = b /\ k = f).
Proof.
  unfold fl1. rewrite upd_case. case_decide; subst; [|naive_solver].
  pose proof (fl_nodup _ _ (bi_lists _ _ _ Hinv) k) as Hnd. rewrite Hfl in Hnd |- *.
  apply NoDup_cons in Hnd as [? _]. rewrite elem_of_cons. naive_solver.
Qed.

(** The blocks left on the lists lie outside the carved one. *)
Lemma fl1_outside a k : a ∈ fl1 k -> ~ covers b f a.
Proof.
  intros [Ha Hne]%fl1_spec Hc. apply Hne.
  apply (inv_free_disj hi fl s Hinv k f a b a Ha carve_in); [|done].
  apply covers_self. destruct (inv_free_ok hi fl s Hinv k a Ha). lia.
Qed.

End pop.

Section carve.
Context (hi : Z) (fl : Z -> list Z) (s : kmem) (Hinv : buddy_inv hi fl s).
Context (b o f : Z) (rest : list Z) (Hfl : fl f = b :: rest) (Ho : 0 <= o <= f).
Let fl1 := upd fl f rest.
Let fl3 := split_fl fl1 b o f.
#[local] Abbreviation carve_in := (carve_in fl b f rest Hfl).
#[local] Abbreviation carve_ok := (carve_ok hi fl s Hinv b f rest Hfl).
#[local] Abbreviation carve_dram := (carve_dram hi fl s Hinv b f rest Hfl).
#[local] Abbreviation fl1_spec := (fl1_spec hi fl s Hinv b f rest Hfl).
#[local] Abbreviation fl1_outside := (fl1_outside hi fl s Hinv b f rest Hfl).

Lemma carve_half j : o <= j < f -> covers b f (b + bsz j) /\ (b + bsz j) mod 4096 = 0 /\
  b + bsz j <> b /\ buddy_of b j = b + bsz j.
Proof.
  intros Hj. destruct carve_ok as (? & ? & _).
  destruct (split_buddy b o f ltac:(lia) ltac:(lia) ltac:(done) j Hj) as (-> & ? & ? & ?).
  unfold covers. split_and!; (done || lia).
Qed.

Lemma fl3_spec a k : a ∈ fl3 k <-> (a ∈ fl k /\ ~ (a = b /\ k = f)) \/ (o <= k < f /\ a = b + bsz k).
Proof.
  unfold fl3. split.
  - intros [Ha|?]%split_fl_other; [left; by apply fl1_spec|by right].
  - unfold split_fl. intros [Ha%fl1_spec|[Hk ->]]; destruct (Z.leb_spec o k), (Z.ltb_spec k f); cbn; rewrite ?elem_of_cons; (tauto || lia).
Qed.

Lemma fl3_not_b k : b ∉ fl3 k.
Proof.
  intros [[Hb Hne]|[Hk Heq]]%fl3_spec.
  - apply (fl1_outside b k); [by apply fl1_spec|]. apply covers_self. destruct carve_ok. lia.
  - destruct (carve_half k Hk) as (_ & _ & ? & _). done.
Qed.

Lemma fl3_page a k : a ∈ fl3 k -> KERN_BASE <= a < PHYS_STOP /\ a mod 4096 = 0.
Proof.
  intros [[Ha _]|[Hk ->]]%fl3_spec.
  - split; [by apply (inv_free_dram hi fl s Hinv k a)|by eapply inv_free_page].
  - destruct (carve_half k Hk) as (Hc & ? & _). unfold covers in Hc. pose proof carve_dram. lia.
Qed.

Context (s' : kmem) (Henv : same_env s s').
Context (Hchain : forall k, 0 <= k <= MAX_ORDER -> chain (ram s') (free_list (free_areas s' k)) (fl3 k)).
Context (Hcount : forall k, 0 <= k <= MAX_ORDER -> nr_free (free_areas s' k) = Z.of_nat (length (fl3 k))).
Context (Hpages : forall x, KERN_BASE <= x < PHYS_STOP -> ~ covers b f x -> pg s' x = pg s x).
Context (Hrefs : forall p, p <> pa_to_page b -> refcount (pages s' p) = refcount (pages s p)).
Context (Href : refcount (pg s' b) = 1) (Hord : order (pg s' b) = o).

Lemma carve_refs_other a : KERN_BASE <= a < PHYS_STOP -> a mod 4096 = 0 -> a <> b ->
  refcount (pg s' a) = refcount (pg s a).
Proof.
  intros Ha Hal Hne. apply Hrefs. intros Heq. apply Hne.
  destruct carve_dram as (? & ? & ? & ?). apply pa_to_page_inj; (done || lia).
Qed.

Lemma carve_live a k : live s' a k <-> live s a k \/ (a = b /\ k = o).
Proof.
  destruct carve_dram as (? & ? & ? & ?). destruct Henv as [Hfs _]. split.
  - intros (Hr & Hal & Hc & Hk). rewrite Hfs in Hr. destruct (decide (a = b)) as [->|Hne]; [right; by subst|left].
    rewrite carve_refs_other in Hc by (done || lia).
    destruct (decide (covers b f a)) as [Hin|Hout].
    + exfalso. by apply (inv_free_refcount hi fl s Hinv f b a carve_in).
    + rewrite Hpages in Hk by (done || lia). split_and!; (done || lia).
  - intros [Hl|[-> ->]].
    + assert (~ covers b f a) as Hout.
      { intros Hin. eapply (inv_free_live hi fl s Hinv f k b a a carve_in Hl Hin).
        apply covers_self. destruct (inv_live_ok hi fl s Hinv k a Hl). lia. }
      destruct Hl as (? & ? & ? & ?). unfold live. rewrite Hfs, !Hpages by (done || lia). split_and!; (done || lia).
    + unfold live. rewrite Hfs, Href, Hord. split_and!; (done || lia).
Qed.

Lemma carve_part : partition (free_start s') hi (blk fl3 s').
Proof.
  rewrite (proj1 Henv). pose proof carve_ok as (? & ? & ? & ?).
  pose proof (partition_carve (free_start s) hi (Z.to_nat (f - o)) (blk fl s) b o ltac:(lia) (bi_part _ _ _ Hinv)) as Hp.
  replace (o + Z.of_nat (Z.to_nat (f - o))) with f in Hp by lia.
  specialize (Hp (or_introl carve_in)). eapply partition_proper; [|exact Hp].
  intros a k. unfold blk, bcarve, bminus. rewrite fl3_spec, carve_live.
  assert (live s a k -> ~ (a = b /\ k = f)); [|tauto].
  intros (_ & _ & ? & _) [-> ->]. pose proof (fl_zero _ _ (bi_lists _ _ _ Hinv) f b carve_in). lia.
Qed.

Lemma carve_lists : lists_ok fl3 s'.
Proof.
  pose proof (bi_lists _ _ _ Hinv) as HL. split; [done|done|..].
  - intros k. unfold fl3, split_fl. assert (NoDup (fl1 k)) as Hnd.
    { unfold fl1. rewrite upd_case. case_decide; subst; [|apply HL].
      pose proof (fl_nodup _ _ HL k) as Hnd. rewrite Hfl in Hnd. by apply NoDup_cons in Hnd as [_ ?]. }
    destruct (Z.leb_spec o k), (Z.ltb_spec k f); cbn; try done. apply NoDup_cons. split; [|done].
    intros Hin%fl1_outside. by apply Hin, carve_half.
  - intros k a Ha. pose proof (fl3_page a k Ha) as [? ?].
    rewrite carve_refs_other; [|done..|by intros ->; eapply fl3_not_b].
    apply fl3_spec in Ha as [[Ha _]|[Hk ->]]; [by apply (fl_zero _ _ HL k)|].
    destruct (carve_half k Hk) as (Hc & Hal & _).
    pose proof (inv_free_refcount hi fl s Hinv f b _ carve_in Hc Hal).
    pose proof (fl_u16 _ _ HL (pa_to_page (b + bsz k))). unfold pg in *. lia.
  - intros k a Hk Ha Hbud. apply fl3_spec in Ha as [[Ha Hne]|[Hk' ->]].
    + apply fl3_spec in Hbud as [[Hb Hne']|[Hk' Heq]]; [by apply (fl_coal _ _ HL k a)|].
      destruct (carve_half k Hk') as (_ & _ & _ & Hbb).
      rewrite <- Hbb in Heq. assert (a = b) as ->.
      { rewrite <- (buddy_invol a k), Heq. apply buddy_invol. }
      eapply (fl3_not_b k), fl3_spec. by left.
    + destruct (carve_half k Hk') as (_ & _ & _ & Hbb). rewrite <- Hbb, buddy_invol in Hbud.
      by eapply fl3_not_b.
  - intros p. destruct (decide (p = pa_to_page b)) as [->|Hne]; [fold (pg s' b); lia|].
    rewrite Hrefs by done. apply HL.
Qed.

Lemma carve_inv : buddy_inv hi fl3 s'.
Proof.
  split; [|apply carve_lists|apply carve_part].
  unfold bounds_ok. rewrite (proj1 Henv). apply (bi_bounds _ _ _ Hinv).
Qed.
End carve.

(** ** buddy_alloc *)
Section alloc.
Context (hi : Z) (fl : Z -> list Z) (s : kmem) (Hinv : buddy_inv hi fl s).
Context (b o f : Z) (rest : list Z) (Hfl : fl f = b :: rest) (Ho : 0 <= o <= f).
Context (Hempty : forall k, o <= k < f -> fl k = []).

(** The state once the head of list [f] is popped. *)
Definition popped : kmem :=
  set_free_areas (upd (free_areas s) f
    (mk_free_area (ld64 (ram s) b) (u64 (nr_free (free_areas s f) - 1)))) s.

Lemma popped_split : split_inv (upd fl f rest) popped b o f o popped.
Proof.
  pose proof (bi_lists _ _ _ Hinv) as HL.
  assert (forall k, split_fl (upd fl f rest) b o o k = upd fl f rest k) as Heq.
  { intros k. unfold split_fl. destruct (Z.leb_spec o k), (Z.ltb_spec k o); (done || lia). }
  split; [| |done..|done]; intros k Hk; rewrite Heq; unfold popped; ksimpl; rewrite !upd_case; case_decide; subst.
  - pose proof (fl_chain _ _ HL k Hk) as Hc. rewrite Hfl in Hc. by destruct Hc as (_ & _ & ?).
  - by apply HL.
  - cbn [nr_free]. rewrite (fl_count _ _ HL), Hfl by done. cbn [length].
    pose proof (inv_length hi fl s Hinv k) as Hlen. rewrite Hfl in Hlen. cbn [length] in Hlen.
    rewrite u64_small by klia. lia.
  - by apply HL.
Qed.

Lemma popped_loop :
  wp (for_range (Z.to_nat (f - o)) o (split_step b)) (fun _ s2 => split_inv (upd fl f rest) popped b o f f s2) popped.
Proof.
  destruct (carve_ok hi fl s Hinv b f rest Hfl) as (? & ? & ? & ?).
  destruct (carve_dram hi fl s Hinv b f rest Hfl) as (? & ? & ? & ?).
  eapply (wp_for_range (fun i s2 => split_inv (upd fl f rest) popped b o f i s2)).
  - apply popped_split.
  - intros i s2 Hi HI. apply split_step_spec; try done; try lia.
    + intros k a [Ha _]%(fl1_spec hi fl s Hinv b f rest Hfl). by eapply inv_free_page.
    + intros k a [Ha _]%(fl1_spec hi fl s Hinv b f rest Hfl). by eapply inv_free_dram.
    + intros k a Ha. by eapply (fl1_outside hi fl s Hinv b f rest Hfl).
    + rewrite upd_ne by lia. rewrite Hempty by lia. cbn. klia.
  - intros s2. by replace (o + Z.of_nat (Z.to_nat (f - o))) with f by lia.
Qed.

(** The last writes: zero the block, set its order and its reference. *)
Definition finished (s2 : kmem) : kmem :=
  let p := pa_to_page b in
  let pages1 := upd (pages s2) p (page_set_order o (pages s2 p)) in
  set_pages (upd pages1 p (page_set_refcount 1 (pages1 p)))
    (set_ram (memset (ram s2) b 0 (Z.shiftl PG_SIZE o)) s2).

Section finish.
Context (s2 : kmem) (HI : split_inv (upd fl f rest) popped b o f f s2).

Lemma finished_pages_out x : KERN_BASE <= x < PHYS_STOP -> ~ covers b f x -> pg (finished s2) x = pg s x.
Proof.
  destruct (carve_ok hi fl s Hinv b f rest Hfl) as (? & ? & ? & ?).
  destruct (carve_dram hi fl s Hinv b f rest Hfl) as (? & ? & ? & ?).
  intros Hx Hn. transitivity (pg s2 x); [|exact (si_pages _ _ _ _ _ _ _ HI x Hx Hn)].
  assert (pa_to_page b <> pa_to_page x) as Hne.
  { intros Heq. pose proof (upd_page_outside s2 b f b zero_page x) as Hu.
    pose proof (upd_page_outside s2 b f b (page_set_flags 1 zero_page) x) as Hu'.
    rewrite Heq, upd_eq in Hu, Hu'. rewrite <- Hu' in Hu by (done || lia || apply covers_self; lia).
    discriminate Hu; (done || lia || apply covers_self; lia). }
  unfold finished, pg. ksimpl. by rewrite !upd_ne by done.
Qed.

Lemma finished_b : refcount (pg (finished s2) b) = 1 /\ order (pg (finished s2) b) = o.
Proof.
  destruct (carve_ok hi fl s Hinv b f rest Hfl) as (? & _).
  unfold finished, pg. ksimpl. rewrite !upd_eq. cbn. split; [done|]. apply u8_small. klia.
Qed.

Lemma finished_refs p : p <> pa_to_page b -> refcount (pages (finished s2) p) = refcount (pages s p).
Proof.
  intros Hp. unfold finished. ksimpl. rewrite !upd_ne by done. apply (si_fields _ _ _ _ _ _ _ HI).
Qed.

Lemma finished_flags p : flags (pages (finished s2) p) = flags (pages s p).
Proof.
  unfold finished. ksimpl. destruct (decide (p = pa_to_page b)) as [->|].
  - rewrite !upd_eq. cbn. apply (si_fields _ _ _ _ _ _ _ HI).
  - rewrite !upd_ne by done. apply (si_fields _ _ _ _ _ _ _ HI).
Qed.

Lemma finished_env : same_env s (finished s2).
Proof. apply (si_env _ _ _ _ _ _ _ HI). Qed.

Lemma finished_ram x : ~ covers b f x -> ram (finished s2) x = ram s x.
Proof.
  intros Hx. unfold finished. ksimpl. rewrite shiftl_bsz by lia.
  rewrite memset_out; [by apply (si_ram _ _ _ _ _ _ _ HI)|].
  pose proof (bsz_mono o f). unfold covers in *. lia.
Qed.

Lemma finished_chain k : 0 <= k <= MAX_ORDER ->
  chain (ram (finished s2)) (free_list (free_areas (finished s2) k)) (split_fl (upd fl f rest) b o f k).
Proof.
  intros Hk. pose proof (si_chain _ _ _ _ _ _ _ HI k Hk) as Hc.
  unfold finished. ksimpl. eapply chain_frame; [|exact Hc].
  intros a [[Ha Hne]|[Hk' ->]]%(fl3_spec hi fl s Hinv b o f rest Hfl Ho); apply ld64_ext; intros x Hx;
    rewrite shiftl_bsz by lia; apply memset_out.
  - destruct (inv_free_ok hi fl s Hinv k a Ha) as (? & ? & _). pose proof (bsz_ge k). intros Hx'.
    apply Hne, (inv_free_disj hi fl s Hinv k f a b x Ha (carve_in _ _ _ _ Hfl)); unfold covers; [lia|].
    pose proof (bsz_mono o f). lia.
  - pose proof (bsz_mono o k). lia.
Qed.

Lemma finished_count k : 0 <= k <= MAX_ORDER ->
  nr_free (free_areas (finished s2) k) = Z.of_nat (length (split_fl (upd fl f rest) b o f k)).
Proof. apply (si_count _ _ _ _ _ _ _ HI). Qed.

Lemma finish_spec : alloc_post o s b (finished s2) /\
  exists fl', buddy_inv hi fl' (finished s2) /\ weight fl' = weight fl - 2 ^ o.
Proof.
  destruct (carve_ok hi fl s Hinv b f rest Hfl) as (? & Hal & ? & ?).
  destruct (carve_dram hi fl s Hinv b f rest Hfl) as (? & ? & ? & ?).
  pose proof (bsz_mono o f) as Hmono.
  assert (forall a k, live (finished s2) a k <-> live s a k \/ (a = b /\ k = o)) as Hlive.
  { apply (carve_live hi fl s Hinv b o f rest Hfl Ho); try apply finished_b;
      auto using finished_env, finished_chain, finished_count, finished_pages_out, finished_refs. }
  assert (forall a k x, live s a k -> covers a k x -> ~ covers b f x) as Hsep.
  { intros a k x Ha Hx Hb. by eapply (inv_free_live hi fl s Hinv f k b a x (carve_in _ _ _ _ Hfl)). }
  split.
  - right. split_and!; try done; try klia.
    + apply finished_env.
    + intros a k Ha x Hx. pose proof (Hsep a k x Ha Hx) as Hout. split; [by apply finished_ram|].
      apply finished_pages_out; [|done]. destruct (inv_live_ok hi fl s Hinv k a Ha) as (? & _ & ? & ?).
      destruct (bi_bounds _ _ _ Hinv). unfold covers in Hx. lia.
    + by apply (bsz_aligned_weaken b o f); [lia|].
    + intros x Hx. unfold finished. ksimpl. rewrite shiftl_bsz by lia. by rewrite memset_in.
    + apply finished_b.
    + intros a k x Ha Hx Hb. apply (Hsep a k x Ha Hx). unfold covers in *. lia.
    + apply finished_flags.
  - eexists. split.
    + apply (carve_inv hi fl s Hinv b o f rest Hfl Ho); try apply finished_b;
        auto using finished_env, finished_chain, finished_count, finished_pages_out, finished_refs.
    + pose proof (weight_split (upd fl f rest) b o (Z.to_nat (f - o))) as Hw.
      replace (o + Z.of_nat (Z.to_nat (f - o))) with f in Hw by lia.
      rewrite Hw, weight_upd, Hfl by lia. cbn [length]. lia.
Qed.
End finish.
End alloc.

Lemma buddy_alloc_inv hi fl s o : buddy_inv hi fl s -> 0 <= o <= MAX_ORDER ->
  wp (buddy_alloc o) (fun r s' => alloc_post o s r s' /\
    exists fl', buddy_inv hi fl' s' /\ weight fl' = weight fl - (if r =? NULL then 0 else 2 ^ o)) s.
Proof.
  intros Hinv Ho. unfold buddy_alloc. destruct (Z.ltb_spec MAX_ORDER o); [lia|].
  wp_steps. eapply wp_mono; [apply (find_block_spec hi fl s Hinv); klia|].
  intros [[f b]|] s' [-> Hr].
  - destruct Hr as (Hf & Hempty & rest & Hfl).
    destruct (carve_ok hi fl s Hinv b f rest Hfl) as (? & Hal & ? & ?).
    destruct (carve_dram hi fl s Hinv b f rest Hfl) as (? & ? & ? & ?).
    pose proof (bsz_mono o f). wp_steps. apply wp_get_area; [lia|].
    wp_steps. apply wp_load64; [lia..|].
    wp_steps. apply wp_set_area; [lia|]. fold (popped s b f).
    wp_steps. eapply wp_mono; [apply (popped_loop hi fl s Hinv b o f rest Hfl); [lia|done]|].
    intros [] s2 HI. pose proof (si_env _ _ _ _ _ _ _ HI) as [Hfs _]. cbn in Hfs.
    wp_steps. apply wp_mem_set; [lia|rewrite shiftl_bsz by lia; lia|].
    wp_steps. apply wp_update_page; [apply pa_to_page_range; lia|].
    wp_steps. apply wp_update_page; [apply pa_to_page_range; lia|].
    wp_steps. destruct (Z.eqb_spec b NULL); [klia|].
    by apply (finish_spec hi fl s Hinv b o f rest Hfl ltac:(lia)).
  - wp_steps. split; [|exists fl; rewrite Z.eqb_refl; split; [done|lia]]. left. split_and!; [done..|].
    intros k Hk. rewrite (fl_count _ _ (bi_lists _ _ _ Hinv)), Hr by lia. done.
Qed.
