(* ===== verification/KallocFree.v ===== *)
(** [buddy_free] meets its specification: unlinking from a free list, the merge
    loop, and the insertion of the merged block. *)
From S2P Require Import Prelude Mem Layout Kalloc Buddy KallocInv KallocAlloc.

(** A state in the middle of a free: block [addr] of order [o] is neither on a
    list nor allocated. *)
Record merge_inv (hi : Z) (fl : Z -> list Z) (s : kmem) (addr o : Z) : Prop := {
  mi_bounds : bounds_ok hi s;
  mi_lists : lists_ok fl s;
  mi_part : partition (free_start s) hi (bplus (blk fl s) addr o);
  mi_out : addr ∉ fl o;
  mi_ref : refcount (pg s addr) = 0
}.

(** The contract of a free of block [(pa, o)]. *)
Definition free_post (pa o : Z) (s s' : kmem) : Prop :=
  same_env s s' /\
  pages s' = upd (pages s) (pa_to_page pa) (page_set_refcount 0 (pg s pa)) /\
  (forall a k, live s' a k <-> live s a k /\ a <> pa) /\
  (forall a k x, live s a k -> a <> pa -> covers a k x -> ram s' x = ram s x).

(** ** The list search *)
Lemma load_head s k : 0 <= k <= MAX_ORDER -> load_link (LHead k) s = Ok (free_list (free_areas s k), s).
Proof.
  intros. pose proof (wp_get_area k (fun fa s' => fa = free_areas s k /\ s' = s) s) as H'.
  destruct (wp_elim _ _ _ (H' ltac:(lia) ltac:(done))) as (fa & s' & Hg & -> & ->).
  unfold load_link, mbind, M_bind. by rewrite Hg.
Qed.

Lemma load_next s b : free_start s <= b -> b + 8 <= PHYS_STOP ->
  load_link (LNext b) s = Ok (ld64 (ram s) b, s).
Proof.
  intros. pose proof (wp_load64 b (fun v s' => v = ld64 (ram s) b /\ s' = s) s) as H'.
  by destruct (wp_elim _ _ _ (H' ltac:(lia) ltac:(lia) ltac:(done))) as (v & s' & Hg & -> & ->).
Qed.

Definition link_before (pb : link) (l1 : list Z) : link :=
  match last l1 with Some c => LNext c | None => pb end.

Lemma find_link_spec s t l : forall fuel pb v,
  load_link pb s = Ok (v, s) -> chain (ram s) v l ->
  (forall a, a ∈ l -> free_start s <= a /\ a + 8 <= PHYS_STOP) -> (length l < fuel)%nat ->
  wp (find_link fuel pb t) (fun pb' s' => s' = s /\
    (((t ∉ l) /\ load_link pb' s = Ok (NULL, s)) \/
     (exists l1 l2, l = l1 ++ t :: l2 /\ pb' = link_before pb l1 /\ load_link pb' s = Ok (t, s)))) s.
Proof.
  induction l as [|a l IH]; intros [|fuel] pb v Hv Hc Hr Hf; cbn [length] in Hf; try lia; cbn [find_link];
    apply wp_bind; eapply wp_intro; try exact Hv.
  - cbn in Hc. subst v. rewrite Z.eqb_refl. cbn [orb]. wp_steps. split; [done|]. left. split; [set_solver|done].
  - destruct Hc as (-> & Hn & Hc). destruct (Z.eqb_spec a NULL) as [|_]; [done|]. cbn [orb].
    destruct (Z.eqb_spec a t) as [->|Hne].
    + wp_steps. split; [done|]. right. by exists [], l.
    + eapply wp_mono; [eapply IH|].
      * apply load_next; apply Hr; by left.
      * done.
      * intros b Hb. apply Hr. by right.
      * lia.
      * intros pb' s' [-> [[Hnt Hl]|(l1 & l2 & -> & -> & Hl)]]; (split; [done|]).
        -- left. split; [set_solver|done].
        -- right. exists (a :: l1), l2. split_and!; [done| |done].
           unfold link_before. rewrite last_cons. by destruct (last l1).
Qed.

(** ** Unlinking one block *)
Section unlink.
Context (hi : Z) (fl : Z -> list Z) (s : kmem) (B : blocks).
Context (Hb : bounds_ok hi s) (HL : lists_ok fl s).
Context (HB : partition (free_start s) hi B) (Hsub : forall k a, a ∈ fl k -> B a k).
Context (o t : Z) (l1 l2 : list Z) (Ho : 0 <= o <= MAX_ORDER) (Hfl : fl o = l1 ++ t :: l2).

Definition unlinked (s' : kmem) : Prop :=
  lists_ok (upd fl o (l1 ++ l2)) s' /\ same_env s s' /\ pages s' = pages s /\
  (forall x, (forall k a, a ∈ fl k -> ~ covers a k x) -> ram s' x = ram s x).

Lemma unlink_member a k : a ∈ upd fl o (l1 ++ l2) k <-> a ∈ fl k /\ ~ (a = t /\ k = o).
Proof using HL Hfl Ho.
  rewrite upd_case. case_decide; subst; [|naive_solver].
  pose proof (fl_nodup _ _ HL k) as Hnd. rewrite Hfl in Hnd |- *.
  apply NoDup_app in Hnd as (_ & Hnd1 & Hnd2). apply NoDup_cons in Hnd2 as [? _].
  rewrite !elem_of_app, elem_of_cons. specialize (Hnd1 a). rewrite elem_of_cons in Hnd1. naive_solver.
Qed.

(** The list properties that do not read memory survive. *)
Lemma unlink_lists s' : pages s' = pages s ->
  (forall k, 0 <= k <= MAX_ORDER -> chain (ram s') (free_list (free_areas s' k)) (upd fl o (l1 ++ l2) k)) ->
  (forall k, 0 <= k <= MAX_ORDER -> nr_free (free_areas s' k) = Z.of_nat (length (upd fl o (l1 ++ l2) k))) ->
  lists_ok (upd fl o (l1 ++ l2)) s'.
Proof using HL Hfl Ho.
  intros Hp Hc Hn. split; [done|done|..].
  - intros k. rewrite upd_case. case_decide; subst; [|apply HL].
    pose proof (fl_nodup _ _ HL k) as Hnd. rewrite Hfl in Hnd.
    apply NoDup_app in Hnd as (? & Hnd1 & Hnd2). apply NoDup_cons in Hnd2 as [? ?].
    apply NoDup_app. split_and!; [done| |done]. intros a Ha Ha2. eapply Hnd1; [done|by right].
  - intros k a [Ha _]%unlink_member. unfold pg. rewrite Hp. by apply (fl_zero _ _ HL k).
  - intros k a Hk [Ha _]%unlink_member [Ha' _]%unlink_member. by apply (fl_coal _ _ HL k a).
  - rewrite Hp. apply HL.
Qed.

Lemma unlink_count k s1 : 0 <= k <= MAX_ORDER -> nr_free (s1 k) = nr_free (free_areas s k) ->
  nr_free (upd s1 o (mk_free_area (free_list (s1 o)) (u64 (nr_free (free_areas s o) - 1))) k) =
  Z.of_nat (length (upd fl o (l1 ++ l2) k)).
Proof using HL HB Hsub Hb Hfl Ho.
  intros Hk Hs1. rewrite !upd_case. case_decide as Hok; subst; cbn [nr_free].
  - rewrite (fl_count _ _ HL) by done. pose proof (free_length hi fl s B Hb HB Hsub k (fl_nodup _ _ HL k)) as Hlen.
    rewrite Hfl, length_app in *. cbn [length] in *. rewrite length_app. rewrite u64_small by klia. lia.
  - rewrite Hs1. by apply HL.
Qed.

Lemma unlink_spec :
  wp (remove_link (link_before (LHead o) l1) t o) (fun _ => unlinked) s.
Proof using HL HB Hsub Hb Hfl Ho.
  pose proof (free_dram hi fl s B Hb HB Hsub) as Hdram. pose proof (free_page hi fl s B HB Hsub) as Hpage.
  pose proof (fl_nodup _ _ HL o) as Hnd. pose proof (fl_chain _ _ HL o Ho) as Hc.
  assert (forall k a, a ∈ upd fl o (l1 ++ l2) k -> k <> o -> a ∈ fl k) as Hother.
  { intros k a [? _]%unlink_member _. done. }
  assert (t ∈ fl o) as Htin by (rewrite Hfl; set_solver).
  destruct (free_ok hi fl s B HB Hsub o t Htin) as (_ & _ & ? & _).
  unfold remove_link. wp_steps. apply wp_load64; [done|by apply (Hdram o)|].
  wp_steps. unfold link_before. destruct (last l1) as [c|] eqn:E.
  - (* behind block c *)
    apply last_Some in E as [l1a Hl1].
    assert (fl o = l1a ++ c :: t :: l2) as Hfo by (rewrite Hfl, Hl1, <- app_assoc; done).
    assert (c ∈ fl o) as Hcin by (rewrite Hfo; set_solver).
    destruct (Hdram o c Hcin) as [? ?]. destruct (free_ok hi fl s B HB Hsub o c Hcin) as (_ & Hcal & ? & ?).
    cbn [store_link]. apply wp_store64; [done..|].
    wp_steps. apply wp_get_area; [done|]. apply wp_set_area; [done|].
    split_and!; try done.
    + apply unlink_lists; [done|..]; ksimpl.
      * intros k Hk. rewrite !upd_case. case_decide as Hok; cbn [free_list].
        -- rewrite Hl1, <- app_assoc. apply chain_unlink; rewrite <- Hfo; eauto.
        -- apply chain_store; [eauto..| |by apply HL].
           intros Hck. destruct (free_ok hi fl s B HB Hsub k c Hck) as (? & _).
           destruct (free_disj hi fl s B HB Hsub k o c c c Hck Hcin); [by apply covers_self; lia..|]. done.
      * intros k Hk. by apply unlink_count.
    + intros x Hx. apply st64_out. intros Hc8. eapply (Hx o c Hcin). unfold covers. pose proof (bsz_ge o). lia.
  - (* first on the list *)
    apply last_None in E.
    cbn [store_link]. wp_steps. apply wp_get_area; [done|].
    apply wp_set_area; [done|]. wp_steps. apply wp_get_area; [done|]. apply wp_set_area; [done|].
    ksimpl. rewrite upd_eq. cbn [free_list nr_free]. split_and!; try done. apply unlink_lists; [done|..]; ksimpl.
    + intros k Hk. rewrite !upd_case. case_decide as Hok; cbn [free_list].
      * rewrite Hfl, E in Hc. rewrite E. by destruct Hc as (_ & _ & ?).
      * by apply HL.
    + intros k Hk. pose proof (unlink_count k (upd (free_areas s) o (mk_free_area (ld64 (ram s) t) (nr_free (free_areas s o))))) as Hct.
      rewrite upd_eq in Hct. cbn [free_list] in Hct. apply Hct; [done|].
      rewrite upd_case. by case_decide; subst.
Qed.
End unlink.

(** ** The merge loop *)
Section merge.
Context (hi : Z) (fl : Z -> list Z) (s : kmem) (addr o : Z).
Context (HM : merge_inv hi fl s addr o) (Ho : 0 <= o < MAX_ORDER).

Lemma mi_sub k a : a ∈ fl k -> bplus (blk fl s) addr o a k.
Proof. by left; left. Qed.

Lemma mi_addr : 0 <= o <= MAX_ORDER /\ addr mod bsz o = 0 /\ free_start s <= addr /\ addr + bsz o <= hi.
Proof using HM. apply (pt_ok (mi_part _ _ _ _ _ HM)). by right. Qed.

(** The pair [addr], buddy: its lower half and its upper half. *)
Lemma merge_pair : exists low, low mod bsz (o + 1) = 0 /\
  Z.land addr (Z.lnot (Z.shiftl PG_SIZE o)) = low /\
  ((addr = low /\ buddy_of addr o = low + bsz o) \/ (buddy_of addr o = low /\ addr = low + bsz o)).
Proof using HM Ho.
  destruct mi_addr as (_ & Hal & _). destruct (half_cases addr o ltac:(lia) Hal) as [He|Hodd].
  - exists addr. split_and!; [done|apply merge_even; [lia|done]|]. left. split; [done|]. apply buddy_even; [lia|done].
  - exists (addr - bsz o). split_and!; [apply odd_lower; [lia|done]|apply merge_odd; [lia|done]|].
    right. split; [|lia]. apply buddy_odd; [lia|done].
Qed.

Lemma merge_step s' l1 l2 : fl o = l1 ++ buddy_of addr o :: l2 ->
  unlinked fl s o l1 l2 s' ->
  merge_inv hi (upd fl o (l1 ++ l2)) s' (Z.land addr (Z.lnot (Z.shiftl PG_SIZE o))) (o + 1).
Proof using HM Ho.
  intros Hfl (HL' & [Hfs Hsc] & Hpg & Hram). destruct merge_pair as (low & Hlow & -> & Hpair).
  pose proof (mi_part _ _ _ _ _ HM) as HP. pose proof (mi_lists _ _ _ _ _ HM) as HL.
  assert (buddy_of addr o ∈ fl o) as Hbin by (rewrite Hfl; set_solver).
  assert (forall a k, live s' a k <-> live s a k) as Hlive.
  { intros a k. unfold live, pg. by rewrite Hfs, Hpg. }
  assert (bplus (blk fl s) addr o low o /\ bplus (blk fl s) addr o (low + bsz o) o) as [Hb1 Hb2].
  { unfold bplus, blk. destruct Hpair as [[-> <-]|[<- <-]]; auto. }
  split.
  - unfold bounds_ok. rewrite Hfs. apply HM.
  - done.
  - rewrite Hfs. eapply partition_proper; [|apply (partition_merge _ _ _ HP low o); (done || lia)].
    intros a k. unfold bplus, bmerge, bplus, bminus, blk.
    rewrite (unlink_member fl s HL o (buddy_of addr o) l1 l2 ltac:(lia) Hfl), Hlive.
    pose proof (mi_out _ _ _ _ _ HM) as Hout.
    assert (live s a k -> a <> addr /\ a <> buddy_of addr o) as Hl.
    { intros (_ & _ & Hr & _). split; intros ->.
      - pose proof (mi_ref _ _ _ _ _ HM). lia.
      - pose proof (fl_zero _ _ HL o _ Hbin). lia. }
    assert (a ∈ fl k -> ~ (a = addr /\ k = o)) by (intros Ha [-> ->]; done).
    destruct Hpair as [[-> <-]|[<- <-]]; tauto.
  - intros [Hin _]%(unlink_member fl s HL o (buddy_of addr o) l1 l2 ltac:(lia) Hfl).
    destruct (pt_disj HP low o low (o + 1) low Hb1 (mi_sub _ _ Hin)); [by apply covers_self; lia..|lia].
  - unfold pg. rewrite Hpg. destruct Hpair as [[-> _]|[<- _]]; [apply (mi_ref _ _ _ _ _ HM)|by apply (fl_zero _ _ HL o)].
Qed.
End merge.

Definition merged (hi : Z) (fl : Z -> list Z) (s : kmem) (o : Z) (r : Z * Z) (s' : kmem) : Prop :=
  exists fl', merge_inv hi fl' s' r.1 r.2 /\ (r.2 < MAX_ORDER -> buddy_of r.1 r.2 ∉ fl' r.2) /\
    same_env s s' /\ pages s' = pages s /\ weight fl' + 2 ^ r.2 = weight fl + 2 ^ o /\
    (forall x, (forall k a, a ∈ fl k -> ~ covers a k x) -> ram s' x = ram s x) /\
    (forall k a, a ∈ fl' k -> a ∈ fl k).

Lemma merged_stop hi fl s addr o : merge_inv hi fl s addr o ->
  (o < MAX_ORDER -> buddy_of addr o ∉ fl o) -> merged hi fl s o (addr, o) s.
Proof. intros. exists fl. cbn. split_and!; done. Qed.

Lemma merge_loop_spec hi : forall fuel fl s addr o, merge_inv hi fl s addr o ->
  MAX_ORDER - o < Z.of_nat fuel -> wp (merge_loop fuel addr o) (merged hi fl s o) s.
Proof.
  induction fuel as [|fuel IH]; intros fl s addr o HM Hf.
  { destruct (mi_addr _ _ _ _ _ HM) as (? & _). lia. }
  destruct (mi_addr _ _ _ _ _ HM) as (Ho & _). cbn [merge_loop].
  destruct (Z.leb_spec MAX_ORDER o) as [Hmax|Hmax].
  { wp_steps. apply merged_stop; [done|lia]. }
  fold (buddy_of addr o). wp_steps.
  pose proof (mi_bounds _ _ _ _ _ HM) as Hb. pose proof (mi_lists _ _ _ _ _ HM) as HL.
  pose proof (mi_part _ _ _ _ _ HM) as HP. pose proof (mi_sub fl s addr o) as Hsub.
  destruct (_ || _) eqn:Hrange.
  { wp_steps. apply merged_stop; [done|]. intros _ Hin.
    destruct (free_ok hi fl s _ HP Hsub o _ Hin) as (_ & _ & ? & ?). destruct Hb as (_ & ? & _).
    pose proof (bsz_ge o). lia. }
  apply orb_false_elim in Hrange as [Hr1 Hr2].
  assert (KERN_BASE <= buddy_of addr o < PHYS_STOP) as Hbr by (destruct Hb; lia).
  wp_steps. apply wp_get_page; [by apply pa_to_page_range|].
  destruct (Z.eqb_spec (refcount (pages s (pa_to_page (buddy_of addr o)))) 0) as [Hz|Hnz]; cbn [negb].
  2: { wp_steps. apply merged_stop; [done|]. intros _ Hin. by apply Hnz, (fl_zero _ _ HL o). }
  wp_steps. eapply wp_mono.
  { eapply (find_link_spec s (buddy_of addr o) (fl o)); [by apply load_head|by apply HL| |].
    - intros a Ha. split; [by apply (free_ok hi fl s _ HP Hsub o a Ha)|by apply (free_dram hi fl s _ Hb HP Hsub o a)].
    - pose proof (free_length hi fl s _ Hb HP Hsub o (fl_nodup _ _ HL o)). unfold list_fuel. klia. }
  cbv beta. intros pb s' [-> [[Hn Hl]|(l1 & l2 & Hfl & -> & Hl)]].
  - wp_steps. eapply wp_intro; [exact Hl|]. rewrite Z.eqb_refl. wp_steps. by apply merged_stop.
  - assert (buddy_of addr o ∈ fl o) as Hbin by (rewrite Hfl; set_solver).
    destruct (free_dram hi fl s _ Hb HP Hsub o _ Hbin) as [? _].
    wp_steps. eapply wp_intro; [exact Hl|]. destruct (Z.eqb_spec (buddy_of addr o) NULL); [klia|].
    wp_steps. eapply wp_mono; [by eapply (unlink_spec hi fl s _ Hb HL HP Hsub o _ l1 l2)|].
    cbv beta. intros [] s1 Hu. pose proof (merge_step hi fl s addr o HM ltac:(lia) s1 l1 l2 Hfl Hu) as HM1.
    eapply wp_mono; [apply (IH _ _ _ _ HM1); lia|].
    destruct Hu as (_ & [Hfs Hsc] & Hpg & Hram).
    intros [a' o'] s2 (fl' & HM2 & Hbud & [Hfs' Hsc'] & Hpg' & Hw & Hram' & Hsub'). cbn [fst snd] in *.
    assert (forall k a, a ∈ fl' k -> a ∈ fl k) as Hsub2.
    { intros k a [? _]%Hsub'%(unlink_member fl s HL o (buddy_of addr o) l1 l2 ltac:(lia) Hfl). done. }
    exists fl'. cbn [fst snd]. split_and!; [done|done|split; congruence|congruence| | |done].
    + rewrite Hw, weight_upd, Hfl, !length_app, pow2_succ by lia. cbn [length]. lia.
    + intros x Hx. rewrite Hram', Hram; [done|done|].
      intros k a [? _]%(unlink_member fl s HL o (buddy_of addr o) l1 l2 ltac:(lia) Hfl). by apply Hx.
Qed.

(** ** Insertion of the merged block *)
Definition insert_block (addr o : Z) : M kmem unit :=
  fa ← get_area o;
  store64 addr (free_list fa);;
  set_area o (mk_free_area addr (u64 (nr_free fa + 1))).

Section insert.
Context (hi : Z) (fl : Z -> list Z) (s : kmem) (addr o : Z).
Context (HM : merge_inv hi fl s addr o) (Hbud : o < MAX_ORDER -> buddy_of addr o ∉ fl o).
#[local] Abbreviation fl' := (upd fl o (addr :: fl o)).

Lemma insert_member a k : a ∈ fl' k <-> a ∈ fl k \/ (a = addr /\ k = o).
Proof. rewrite upd_case. case_decide as Hk; subst; rewrite ?elem_of_cons; naive_solver. Qed.

Lemma insert_lists s' : pages s' = pages s ->
  (forall k, 0 <= k <= MAX_ORDER -> chain (ram s') (free_list (free_areas s' k)) (fl' k)) ->
  (forall k, 0 <= k <= MAX_ORDER -> nr_free (free_areas s' k) = Z.of_nat (length (fl' k))) ->
  lists_ok fl' s'.
Proof using HM Hbud.
  intros Hp Hc Hn. pose proof (mi_lists _ _ _ _ _ HM) as HL. split; [done|done|..].
  - intros k. rewrite upd_case. case_decide as Hk; [|apply HL]. apply NoDup_cons. split; [apply HM|apply HL].
  - intros k a [Ha|[-> ->]]%insert_member; unfold pg; rewrite Hp; [by apply (fl_zero _ _ HL k)|apply (mi_ref _ _ _ _ _ HM)].
  - intros k a Hk [Ha|[-> ->]]%insert_member [Ha'|[Heq Hko]]%insert_member.
    + by apply (fl_coal _ _ HL k a).
    + subst o. apply Hbud; [lia|]. by rewrite <- Heq, buddy_invol.
    + by apply Hbud; [lia|].
    + apply (f_equal (fun x => buddy_of x o)) in Heq as Heq'. rewrite buddy_invol in Heq'.
      destruct (mi_addr _ _ _ _ _ HM) as (? & ? & _). pose proof (bsz_ge o).
      destruct (half_cases addr o) as [He|He]; [lia|done|rewrite buddy_even in Heq by (done || lia)|rewrite buddy_odd in Heq by (done || lia)]; lia.
  - rewrite Hp. apply HL.
Qed.

Lemma insert_spec : wp (insert_block addr o) (fun _ s' => buddy_inv hi fl' s' /\
  same_env s s' /\ pages s' = pages s /\ (forall x, ~ covers addr o x -> ram s' x = ram s x)) s.
Proof using HM Hbud.
  pose proof (mi_lists _ _ _ _ _ HM) as HL. pose proof (mi_part _ _ _ _ _ HM) as HP.
  pose proof (mi_bounds _ _ _ _ _ HM) as Hb. pose proof (mi_sub fl s addr o) as Hsub.
  destruct (mi_addr _ _ _ _ _ HM) as (? & Hal & ? & ?). pose proof (bsz_ge o) as Hge.
  assert (KERN_BASE <= addr /\ addr + 4096 <= PHYS_STOP) as [? ?] by (destruct Hb as (? & ? & _); lia).
  pose proof (free_page hi fl s _ HP Hsub) as Hpage.
  assert (addr mod 4096 = 0) by (apply (bsz_aligned_page addr o); [lia|done]).
  assert (forall k, addr ∉ fl k) as Hout.
  { intros k Hk. destruct (free_ok hi fl s _ HP Hsub k addr Hk) as (? & _).
    destruct (pt_disj HP addr k addr o addr (Hsub _ _ Hk) (or_intror (conj eq_refl eq_refl))) as [_ ->];
      [by apply covers_self; lia..|]. by apply (mi_out _ _ _ _ _ HM). }
  unfold insert_block. wp_steps. apply wp_get_area; [done|]. wp_steps. apply wp_store64; [lia..|].
  apply wp_set_area; [done|]. split; [split|split_and!].
  - apply Hb.
  - apply insert_lists; [done|..]; ksimpl; intros k Hk; rewrite !upd_case; case_decide as Hok; cbn [free_list nr_free].
    + subst k. pose proof (fl_chain _ _ HL o Hk) as Hc. apply chain_push; eauto; [klia|].
      rewrite (chain_cons _ _ _ Hc). destruct (fl o) as [|a l] eqn:E; cbn; [klia|].
      destruct (free_dram hi fl s _ Hb HP Hsub o a) as [? _]; [rewrite E; by left|]. klia.
    + apply chain_store; eauto. by apply HL.
    + subst k. rewrite (fl_count _ _ HL) by done.
      pose proof (free_length hi fl s _ Hb HP Hsub o (fl_nodup _ _ HL o)). cbn [length]. rewrite u64_small by klia. lia.
    + by apply HL.
  - ksimpl. eapply partition_proper; [|exact HP]. intros a k. unfold blk, bplus.
    rewrite insert_member. unfold live, pg. ksimpl. tauto.
  - done.
  - done.
  - intros x Hx. ksimpl. apply st64_out. unfold covers in Hx. lia.
Qed.
End insert.

(** ** buddy_free *)
Section free.
Context (hi : Z) (fl : Z -> list Z) (s : kmem) (pa o : Z).
Context (Hinv : buddy_inv hi fl s) (Hlive : live s pa o) (Href : refcount (pg s pa) = 1).

Definition released : kmem :=
  set_pages (upd (pages s) (pa_to_page pa) (page_set_refcount 0 (pg s pa)))
    (set_ram (memset (ram s) pa 1 (Z.shiftl PG_SIZE o)) s).

Lemma live_dram a k : live s a k -> KERN_BASE <= a < PHYS_STOP /\ a mod 4096 = 0.
Proof using Hinv. intros (? & ? & _). destruct (bi_bounds _ _ _ Hinv). split; [lia|done]. Qed.

Lemma released_pg a : KERN_BASE <= a < PHYS_STOP -> a mod 4096 = 0 -> a <> pa -> pg released a = pg s a.
Proof using Hinv Hlive.
  intros Ha Hal Hne. unfold pg, released. ksimpl. apply upd_ne. intros Heq. apply Hne.
  destruct (live_dram pa o Hlive). by apply pa_to_page_inj.
Qed.

Lemma released_live a k : live released a k <-> live s a k /\ a <> pa.
Proof using Hinv Hlive.
  destruct (bi_bounds _ _ _ Hinv) as (? & ? & ?). split.
  - intros (Hr & Hal & Hc & Hk). change (free_start released) with (free_start s) in Hr. assert (a <> pa) as Hne.
    { intros ->. unfold pg, released in Hc. cbn [pages set_pages] in Hc. rewrite upd_eq in Hc. by change (0 < 0) in Hc. }
    rewrite released_pg in Hc, Hk by (done || lia). unfold live. split_and!; (done || lia).
  - intros [Hl Hne]. destruct (live_dram a k Hl). unfold live in *. by rewrite released_pg by done.
Qed.

Lemma released_ram x : ~ covers pa o x -> ram released x = ram s x.
Proof using Hinv Hlive.
  intros Hx. destruct (inv_live_ok hi fl s Hinv o pa Hlive) as (? & _).
  unfold released. ksimpl. rewrite shiftl_bsz by lia. by apply memset_out.
Qed.

Lemma released_merge : merge_inv hi fl released pa o.
Proof using All.
  pose proof (bi_lists _ _ _ Hinv) as HL. destruct (live_dram pa o Hlive).
  assert (forall k a, a ∈ fl k -> a <> pa) as Hne.
  { intros k a Ha ->. pose proof (fl_zero _ _ HL k pa Ha). lia. }
  split.
  - apply Hinv.
  - split; [|apply HL|apply HL| |apply HL|].
    + intros k Hk. eapply chain_frame; [|by apply (fl_chain _ _ HL)].
      intros a Ha. apply ld64_ext. intros x Hx. apply released_ram. intros Hc.
      eapply (inv_free_live hi fl s Hinv k o a pa x); [done..| |done].
      unfold covers. destruct (inv_free_ok hi fl s Hinv k a Ha) as (? & _). pose proof (bsz_ge k). lia.
    + intros k a Ha. rewrite released_pg; [by apply (fl_zero _ _ HL k)|by eapply inv_free_dram|by eapply inv_free_page|by eapply Hne].
    + intros p. unfold released. ksimpl. rewrite upd_case. case_decide; [by change (0 <= 0 < 2 ^ 16)|apply HL].
  - eapply partition_proper; [|exact (bi_part _ _ _ Hinv)]. intros a k. unfold bplus, blk.
    rewrite released_live. split; [by intros [[Ha|[Ha _]]|[-> ->]]; auto|].
    intros [Ha|Ha]; [by left; left|]. destruct (decide (a = pa)) as [->|]; [|by left; right].
    right. split; [done|]. destruct Ha as (_ & _ & _ & <-). by destruct Hlive as (_ & _ & _ & <-).
  - intros Hin. by apply (Hne o pa).
  - unfold pg, released. ksimpl. by rewrite upd_eq.
Qed.

(** The reading of the two guards of buddy_free. *)
Lemma free_guards : (MAX_ORDER <? o) || negb (pa mod Z.shiftl PG_SIZE o =? 0)
  || (pa <? free_start s) || (PHYS_STOP <=? pa) = false /\
  negb (refcount (pages s (pa_to_page pa)) =? 1) || negb (order (pages s (pa_to_page pa)) =? o) = false.
Proof using All.
  destruct (inv_live_ok hi fl s Hinv o pa Hlive) as (? & Hal & ? & ?). destruct (live_dram pa o Hlive) as [? _].
  unfold pg in Href. destruct Hlive as (_ & _ & _ & Ho). unfold pg in Ho.
  rewrite shiftl_bsz, Hal, Href, Ho, !Z.eqb_refl by lia. split; [|done]. cbn. lia.
Qed.

Lemma buddy_free_inv : wp (buddy_free pa o) (fun _ s' => free_post pa o s s' /\
  exists fl', buddy_inv hi fl' s' /\ weight fl' = weight fl + 2 ^ o) s.
Proof using All.
  destruct (inv_live_ok hi fl s Hinv o pa Hlive) as (? & Hal & ? & ?). destruct (live_dram pa o Hlive) as [? Hpal].
  destruct (bi_bounds _ _ _ Hinv) as (? & ? & _). destruct free_guards as [Hg1 Hg2].
  unfold buddy_free. wp_steps. rewrite Hg1. wp_steps. apply wp_get_page; [by apply pa_to_page_range|]. rewrite Hg2.
  wp_steps. apply wp_mem_set; [done|rewrite shiftl_bsz by lia; lia|].
  wp_steps. apply wp_update_page; [by apply pa_to_page_range|]. ksimpl. fold (pg s pa). fold released.
  wp_steps. eapply wp_mono; [apply (merge_loop_spec hi 11 fl released pa o released_merge); klia|].
  intros [addr o'] s2 (fl2 & HM2 & Hbud & [Hfs Hsc] & Hpg & Hw & Hram & Hsub). cbn [fst snd] in *.
  change (wp (insert_block addr o') (fun _ s' => free_post pa o s s' /\
    exists fl', buddy_inv hi fl' s' /\ weight fl' = weight fl + 2 ^ o) s2).
  destruct (mi_addr _ _ _ _ _ HM2) as (? & _).
  eapply wp_mono; [by apply (insert_spec hi fl2 s2 addr o' HM2 Hbud)|].
  intros [] s' (Hinv' & [Hfs' Hsc'] & Hpg' & Hram').
  assert (forall a k, live s' a k <-> live s a k /\ a <> pa) as Hl.
  { intros a k. rewrite <- released_live. unfold live, pg. by rewrite Hpg', Hpg, Hfs', Hfs. }
  split.
  - split_and!; [split; [by rewrite Hfs', Hfs|by rewrite Hsc', Hsc]|by rewrite Hpg', Hpg|done|]. intros a k x Ha Hne Hx.
    assert (live s' a k) as Ha' by (by apply Hl). rewrite Hram'.
    + rewrite Hram; [apply released_ram|].
      * intros Hc. by destruct (pt_disj (bi_part _ _ _ Hinv) a k pa o x (or_intror Ha) (or_intror Hlive) Hx Hc).
      * intros j b Hb Hc. by apply (inv_free_live hi fl s Hinv j k b a x).
    + intros Hc. eapply (inv_free_live hi _ s' Hinv' o' k addr a x); [|done..]. rewrite upd_eq. by left.
  - eexists. split; [done|]. rewrite weight_upd by done. cbn [length].
    replace (Z.of_nat (S (length (fl2 o'))) - Z.of_nat (length (fl2 o'))) with 1 by lia. lia.
Qed.
End free.

