(* ===== verification/KallocSpec.v ===== *)
(** The contract of [kernel/kalloc.c]: [kalloc_init] establishes the invariant,
    every operation keeps it, and the errors it reports.  [PageAllocator] is the
    interface the rest of the kernel is verified against. *)
From S2P Require Import Prelude Mem Layout Kalloc Buddy KallocInv KallocAlloc KallocFree.

(** * kalloc_init *)
Lemma grow_order_spec addr : addr mod 4096 = 0 -> forall fuel o, 0 <= o <= MAX_ORDER ->
  addr mod bsz o = 0 -> addr + bsz o <= PHYS_STOP ->
  0 <= grow_order fuel addr o <= MAX_ORDER /\ addr mod bsz (grow_order fuel addr o) = 0 /\
  addr + bsz (grow_order fuel addr o) <= PHYS_STOP.
Proof.
  intros Hal. induction fuel as [|fuel IH]; intros o Ho Ha Hs; cbn [grow_order]; [done|].
  destruct (_ && _) eqn:E; [|done].
  apply andb_true_iff in E as [[E1 E2]%andb_true_iff E3]. rewrite !shiftl_bsz in * by lia.
  apply IH; lia.
Qed.

Lemma bsz_pages k : 0 <= k -> bsz k = 4096 * 2 ^ k.
Proof. intros. unfold bsz. rewrite Z.pow_add_r by lia. lia. Qed.

Section init.
(** Marking the block at the frontier as allocated, as the code does before it
    hands the block to [buddy_free]. *)
Definition marked (s : kmem) (addr o : Z) : kmem :=
  let p := pa_to_page addr in
  let pages1 := upd (pages s) p (page_set_refcount 1 (pages s p)) in
  set_pages (upd pages1 p (page_set_order o (pages1 p))) s.

Context (fl : Z -> list Z) (s : kmem) (addr o : Z).
Context (Hinv : buddy_inv addr fl s) (Hz : forall p, refcount (pages s p) = 0).
Context (Ho : 0 <= o <= MAX_ORDER) (Hal : addr mod bsz o = 0) (Hs : addr + bsz o <= PHYS_STOP).

Lemma marked_addr : pg (marked s addr o) addr = page_set_order o (page_set_refcount 1 (pg s addr)).
Proof. unfold pg, marked. ksimpl. by rewrite !upd_eq. Qed.

Lemma marked_other p : p <> pa_to_page addr -> pages (marked s addr o) p = pages s p.
Proof. intros. unfold marked. ksimpl. by rewrite !upd_ne by done. Qed.

Lemma addr_dram : KERN_BASE <= addr < PHYS_STOP /\ addr mod 4096 = 0.
Proof using Hinv Ho Hal Hs.
  destruct (bi_bounds _ _ _ Hinv). pose proof (bsz_ge o). split; [lia|]. apply (bsz_aligned_page addr o); [lia|done].
Qed.

Lemma marked_refcount p : 0 <= refcount (pages (marked s addr o) p) <= 1.
Proof using Hz Ho.
  destruct (decide (p = pa_to_page addr)) as [->|]; [fold (pg (marked s addr o) addr); rewrite marked_addr; cbn; vm_compute; naive_solver|].
  rewrite marked_other, Hz by done. lia.
Qed.

Lemma marked_live a k : live (marked s addr o) a k <-> a = addr /\ k = o.
Proof using All.
  destruct addr_dram as [? ?]. destruct (bi_bounds _ _ _ Hinv) as (? & ? & ?). split.
  - intros (Hr & Hpal & Hc & Hk). change (free_start (marked s addr o)) with (free_start s) in Hr.
    destruct (decide (pa_to_page a = pa_to_page addr)) as [Heq|Hne].
    + apply pa_to_page_inj in Heq as ->; [|lia|done..]. rewrite marked_addr in Hk. cbn in Hk.
      rewrite u8_small in Hk by klia. done.
    + unfold pg in Hc. rewrite marked_other, Hz in Hc by done. lia.
  - intros [-> ->]. unfold live. rewrite marked_addr. cbn. rewrite u8_small by klia. split_and!; try done; lia.
Qed.

Lemma marked_inv : buddy_inv (addr + bsz o) fl (marked s addr o).
Proof using All.
  destruct addr_dram as [? ?]. pose proof (bi_lists _ _ _ Hinv) as HL. pose proof (bsz_ge o) as Hge. split.
  - destruct (bi_bounds _ _ _ Hinv) as (? & ? & ?).
    unfold bounds_ok. change (free_start (marked s addr o)) with (free_start s). lia.
  - split; [apply HL..| |apply HL|].
    + intros k a Ha. unfold pg. rewrite marked_other; [apply Hz|]. intros Heq.
      apply pa_to_page_inj in Heq as ->; [|by eapply inv_free_dram|done|by eapply inv_free_page|done].
      destruct (inv_free_ok addr fl s Hinv k addr Ha) as (? & _ & _ & ?). pose proof (bsz_ge k). lia.
    + intros p. pose proof (marked_refcount p). lia.
  - change (free_start (marked s addr o)) with (free_start s).
    eapply partition_proper; [|apply (partition_extend _ _ _ (bi_part _ _ _ Hinv) o); [done..|destruct (bi_bounds _ _ _ Hinv); lia]].
    intros a k. unfold bplus, blk. rewrite marked_live.
    assert (live s a k -> False); [|tauto]. intros (_ & _ & Hc & _). unfold pg in Hc. rewrite Hz in Hc. lia.
Qed.
End init.

Lemma add_blocks_spec : forall fuel fl s addr total,
  buddy_inv addr fl s -> (forall p, refcount (pages s p) = 0) -> addr mod 4096 = 0 ->
  PHYS_STOP - addr < 4096 * Z.of_nat fuel -> total = weight fl -> 4096 * total = addr - free_start s ->
  wp (add_blocks fuel addr total) (fun r s' => exists fl', buddy_inv PHYS_STOP fl' s' /\
    (forall p, refcount (pages s' p) = 0) /\ (forall p, flags (pages s' p) = flags (pages s p)) /\ free_start s' = free_start s /\
    r = weight fl' /\ 4096 * r = PHYS_STOP - free_start s') s.
Proof.
  induction fuel as [|fuel IH]; intros fl s addr total Hinv Hz Hal Hf Ht Hsum; cbn [add_blocks].
  { destruct (bi_bounds _ _ _ Hinv). lia. }
  destruct (Z.ltb_spec addr PHYS_STOP) as [Hlt|Hge].
  2: { destruct (bi_bounds _ _ _ Hinv) as (? & ? & _). assert (addr = PHYS_STOP) as -> by lia.
       wp_steps. exists fl. split_and!; (done || lia). }
  destruct (grow_order_spec addr Hal 10 0) as (Ho & Hoal & Hs); [klia|done|rewrite PHYS_STOP_val in *; change (bsz 0) with 4096; mlia|].
  set (o := grow_order 10 addr 0) in *.
  assert (KERN_BASE <= addr < PHYS_STOP) as Hr by (destruct (bi_bounds _ _ _ Hinv); lia).
  wp_steps. apply wp_update_page; [by apply pa_to_page_range|].
  wp_steps. apply wp_update_page; [by apply pa_to_page_range|]. ksimpl. fold (marked s addr o).
  pose proof (marked_inv fl s addr o Hinv Hz Ho Hoal Hs) as Hinv1.
  wp_steps. eapply wp_mono; [apply (buddy_free_inv _ fl _ addr o Hinv1)|].
  - by apply (marked_live fl s addr o Hinv Hz Ho Hoal Hs).
  - by rewrite marked_addr.
  - intros [] s2 ((Henv & Hpg & _ & _) & fl2 & Hinv2 & Hw). rewrite shiftl_bsz by lia.
    change (free_start (marked s addr o)) with (free_start s) in *. destruct Henv as [Hfs _].
    change (free_start s2 = free_start s) in Hfs. rewrite Z.shiftl_mul_pow2, Z.mul_1_l by lia.
    pose proof (bsz_pages o ltac:(lia)). pose proof (bsz_ge o ltac:(lia)).
    eapply wp_mono; [apply (IH fl2)|].
    + done.
    + intros p. rewrite Hpg, upd_case. case_decide as Hp; [done|].
      rewrite marked_other by done. apply Hz.
    + pose proof (bsz_page o). rewrite Z.add_mod by lia. rewrite Hal. mlia.
    + lia.
    + lia.
    + lia.
    + intros r s' (fl' & ? & ? & Hfl & ? & ? & ?). exists fl'. split_and!; try (done || congruence).
      intros p. rewrite Hfl, Hpg, upd_case. case_decide as Hp; [rewrite <- Hp|]; [|by rewrite marked_other].
      unfold pg, marked. ksimpl. by rewrite !upd_eq.
Qed.

(** Where the allocator starts, from the linker symbol [_kernel_end]. *)
Definition first_free (kernel_end : Z) : Z := PG_ROUND_UP (PG_ROUND_UP kernel_end + NR_PAGES * SIZEOF_PAGE).

Lemma kalloc_init_full s kernel_end :
  (forall k, 0 <= k <= MAX_ORDER -> free_areas s k = mk_free_area NULL 0) ->
  KERN_BASE <= kernel_end -> first_free kernel_end <= PHYS_STOP -> kernel_end <= PHYS_STOP ->
  wp (kalloc_init kernel_end) (fun n s' => (kalloc_inv s' /\ n = free_pages s' /\
    free_start s' = first_free kernel_end /\ 4096 * n = PHYS_STOP - first_free kernel_end /\
    forall a k, ~ live s' a k) /\ forall p, flags (pages s' p) = 0) s.
Proof.
  intros Hbss Hke Hff Hle. unfold kalloc_init. fold (first_free kernel_end). wp_steps.
  destruct (PG_ROUND_UP_range kernel_end) as [? _]; [klia..|].
  destruct (PG_ROUND_UP_range (PG_ROUND_UP kernel_end + NR_PAGES * SIZEOF_PAGE)) as [? ?]; [unfold SIZEOF_PAGE; klia..|].
  fold (first_free kernel_end) in *. eapply wp_mono; [apply (add_blocks_spec _ (fun _ => []))|].
  - split.
    + unfold bounds_ok. ksimpl. split_and!; [|lia..|done]. unfold SIZEOF_PAGE in *. klia.
    + split; ksimpl.
      * intros k Hk. by rewrite Hbss.
      * intros k Hk. by rewrite Hbss.
      * intros. constructor.
      * intros. by cbn.
      * intros k a _ Ha. by apply elem_of_nil in Ha.
      * intros. by cbn.
    + ksimpl. split; [|intros a k b j x [Ha|(_ & _ & Ha & _)]; [set_solver|by cbn in Ha]|lia].
      intros a k [Ha|(_ & _ & Ha & _)]; [set_solver|by cbn in Ha].
  - done.
  - done.
  - unfold list_fuel. unfold SIZEOF_PAGE in *. klia.
  - done.
  - ksimpl. lia.
  - intros n s' (fl' & Hinv & Hz & Hfl & Hfs & -> & Hn). split; [|exact Hfl]. split_and!.
    + by exists fl'.
    + symmetry. by eapply weight_free_pages.
    + done.
    + rewrite Hn, Hfs. done.
    + intros a k (_ & _ & Hc & _). unfold pg in Hc. rewrite Hz in Hc. lia.
Qed.

Lemma kalloc_init_spec s kernel_end :
  (forall k, 0 <= k <= MAX_ORDER -> free_areas s k = mk_free_area NULL 0) ->
  KERN_BASE <= kernel_end -> first_free kernel_end <= PHYS_STOP -> kernel_end <= PHYS_STOP ->
  wp (kalloc_init kernel_end) (fun n s' => kalloc_inv s' /\ n = free_pages s' /\
    free_start s' = first_free kernel_end /\ 4096 * n = PHYS_STOP - first_free kernel_end /\
    forall a k, ~ live s' a k) s.
Proof. intros. eapply wp_mono; [by apply kalloc_init_full|]. by intros n s' [? _]. Qed.

(** * Canonical form: the live blocks determine the free lists *)

(** Buddy blocks are nested or disjoint. *)
Lemma nested a k b j x : 0 <= k <= j -> a mod bsz k = 0 -> b mod bsz j = 0 ->
  covers a k x -> covers b j x -> b <= a /\ a + bsz k <= b + bsz j.
Proof.
  intros Hkj Ha Hb Hx Hx'. pose proof (bsz_ge k) as Hge.
  assert (exists q, bsz j = bsz k * q /\ 0 < q) as (q & Hq & Hq0).
  { exists (2 ^ (j - k)). unfold bsz. split; [|apply pow2_pos; lia]. rewrite <- Z.pow_add_r by lia. f_equal. lia. }
  apply Z.mod_divide in Ha as [u ->]; [|lia]. apply Z.mod_divide in Hb as [v ->]; [|lia].
  unfold covers in *. rewrite Hq in *. set (z := bsz k) in *.
  assert (v * q <= u < v * q + q) by nia. nia.
Qed.

Section canonical.
Context (lo hi : Z) (F1 F2 L : blocks).
Context (H1 : partition lo hi (fun a k => F1 a k \/ L a k)) (H2 : partition lo hi (fun a k => F2 a k \/ L a k)).
Context (D1 : forall a k, F1 a k -> ~ L a k) (D2 : forall a k, F2 a k -> ~ L a k).
Context (C1 : forall a k, k < MAX_ORDER -> F1 a k -> ~ F1 (buddy_of a k) k).

(** Every point of a free block of one state lies in a free block of the other. *)
Lemma free_cover a k x : F2 a k -> covers a k x -> exists b j, F1 b j /\ covers b j x.
Proof using H1 H2 D2.
  intros Ha Hx. destruct (pt_ok H2 a k (or_introl Ha)) as (? & _ & ? & ?).
  destruct (pt_cover H1 x) as (b & j & [Hb|Hb] & Hc); [unfold covers in Hx; lia|by exists b, j|].
  exfalso. destruct (pt_disj H2 a k b j x (or_introl Ha) (or_intror Hb) Hx Hc) as [-> ->]. by eapply D2.
Qed.

(** No free block lies strictly inside a free block of the other state. *)
Lemma not_inside n : forall k a b j, 0 <= k < Z.of_nat n -> F1 a k -> F2 b j -> k < j -> covers b j a -> False.
Proof using All.
  induction n as [|n IH]; intros k a b j Hk Ha Hb Hkj Hc; [lia|].
  destruct (pt_ok H1 a k (or_introl Ha)) as (Hok & Hal & _). destruct (pt_ok H2 b j (or_introl Hb)) as (Hoj & Hbl & _).
  assert (exists low, low mod bsz (k + 1) = 0 /\
    ((a = low /\ buddy_of a k = low + bsz k) \/ (buddy_of a k = low /\ a = low + bsz k))) as (low & Hlow & Hpair).
  { destruct (half_cases a k ltac:(lia) Hal) as [He|He].
    - exists a. split; [done|]. left. split; [done|]. by apply buddy_even; [lia|].
    - exists (a - bsz k). split; [by apply odd_lower; [lia|]|]. right. split; [by apply buddy_odd; [lia|]|lia]. }
  pose proof (bsz_ge k ltac:(lia)) as Hge. pose proof (bsz_succ k ltac:(lia)) as Hsucc.
  destruct (nested low (k + 1) b j a) as [? ?]; [lia|done|done|unfold covers; lia|done|].
  destruct (free_cover b j (buddy_of a k) Hb) as (d & m & Hd & Hdc); [unfold covers; lia|].
  destruct (pt_ok H1 d m (or_introl Hd)) as (Hom & Hdl & _).
  destruct (Z.lt_trichotomy m k) as [Hm|[->|Hm]].
  - destruct (nested d m (buddy_of a k) k (buddy_of a k)) as [? ?]; [lia|done| |done|by apply covers_self; lia|].
    + destruct Hpair as [[_ ->]|[-> _]]; [apply aligned_add; [lia|]|]; apply (bsz_aligned_weaken low k (k + 1)); (done || lia).
    + pose proof (bsz_ge m). apply (IH m d b j); [lia|done|done|lia|unfold covers; lia].
  - assert (d = buddy_of a k) as ->.
    { assert (buddy_of a k mod bsz k = 0) as Hbl'.
      { destruct Hpair as [[_ ->]|[-> _]]; [apply aligned_add; [lia|]|]; apply (bsz_aligned_weaken low k (k + 1)); (done || lia). }
      destruct (nested d k (buddy_of a k) k (buddy_of a k)); [lia|done..|by apply covers_self; lia|].
      destruct (nested (buddy_of a k) k d k (buddy_of a k)); [lia|done..|by apply covers_self; lia|done|]. lia. }
    by apply (C1 a k); [lia|..].
  - destruct (nested low (k + 1) d m (buddy_of a k)) as [? ?]; [lia|done|done|unfold covers; lia|done|].
    destruct (pt_disj H1 a k d m a (or_introl Ha) (or_introl Hd)); [by apply covers_self; lia|unfold covers; lia|lia].
Qed.
End canonical.

Lemma canonical_sub lo hi F1 F2 L :
  partition lo hi (fun a k => F1 a k \/ L a k) -> partition lo hi (fun a k => F2 a k \/ L a k) ->
  (forall a k, F1 a k -> ~ L a k) -> (forall a k, F2 a k -> ~ L a k) ->
  (forall a k, k < MAX_ORDER -> F1 a k -> ~ F1 (buddy_of a k) k) ->
  (forall a k, k < MAX_ORDER -> F2 a k -> ~ F2 (buddy_of a k) k) ->
  forall a k, F1 a k -> F2 a k.
Proof.
  intros H1 H2 D1 D2 C1 C2 a k Ha. destruct (pt_ok H1 a k (or_introl Ha)) as (Hk & Hal & _).
  pose proof (bsz_ge k ltac:(lia)).
  destruct (free_cover lo hi F2 F1 L H2 H1 D1 a k a Ha) as (b & j & Hb & Hc); [by apply covers_self; lia|].
  destruct (pt_ok H2 b j (or_introl Hb)) as (Hj & Hbl & _). pose proof (bsz_ge j ltac:(lia)).
  destruct (Z.lt_trichotomy k j) as [Hlt|[->|Hgt]].
  - exfalso. by apply (not_inside lo hi F1 F2 L H1 H2 D1 D2 C1 (Z.to_nat (k + 1)) k a b j); [lia|..].
  - replace a with b; [done|].
    destruct (nested a j b j a); [lia|done..|by apply covers_self; lia|done|].
    destruct (nested b j a j a); [lia|done..|by apply covers_self; lia|]. lia.
  - exfalso. destruct (nested b j a k a) as [? ?]; [lia|done..|by apply covers_self; lia|].
    apply (not_inside lo hi F2 F1 L H2 H1 D2 D1 C2 (Z.to_nat (j + 1)) j b a k); [lia|done..|lia|unfold covers; lia].
Qed.

Lemma lists_free_not_live fl s : lists_ok fl s -> forall a k, a ∈ fl k -> ~ live s a k.
Proof. intros HL a k Ha (_ & _ & Hc & _). rewrite (fl_zero _ _ HL k a Ha) in Hc. lia. Qed.

Lemma canonical_lists s1 s2 fl1 fl2 :
  buddy_inv PHYS_STOP fl1 s1 -> buddy_inv PHYS_STOP fl2 s2 -> free_start s1 = free_start s2 ->
  (forall a k, live s1 a k <-> live s2 a k) -> forall k, fl1 k ≡ₚ fl2 k.
Proof.
  intros Hi1 Hi2 Hfs Hl k.
  assert (blocks_eq (blk fl2 s2) (fun a j => a ∈ fl2 j \/ live s1 a j)) as Heq.
  { intros a j. unfold blk. by rewrite Hl. }
  assert (partition (free_start s1) PHYS_STOP (fun a j => a ∈ fl2 j \/ live s1 a j)) as HP2.
  { rewrite <- Heq, Hfs. apply Hi2. }
  pose proof (bi_part _ _ _ Hi1) as HP1. pose proof (lists_free_not_live _ _ (bi_lists _ _ _ Hi1)) as D1.
  assert (forall a j, a ∈ fl2 j -> ~ live s1 a j) as D2.
  { intros a j Ha. rewrite Hl. by apply (lists_free_not_live _ _ (bi_lists _ _ _ Hi2)). }
  assert (forall fl s, buddy_inv PHYS_STOP fl s -> forall a j, j < MAX_ORDER -> a ∈ fl j -> ~ buddy_of a j ∈ fl j) as HC.
  { intros fl s Hi a j Hj Ha. apply (fl_coal _ _ (bi_lists _ _ _ Hi)); [|done].
    destruct (inv_free_ok _ _ _ Hi j a Ha) as [? _]. lia. }
  apply NoDup_Permutation; [apply Hi1|apply Hi2|]. intros a. split.
  - apply (canonical_sub _ _ (fun a j => a ∈ fl1 j) (fun a j => a ∈ fl2 j) (live s1) HP1 HP2 D1 D2); by eapply HC.
  - apply (canonical_sub _ _ (fun a j => a ∈ fl2 j) (fun a j => a ∈ fl1 j) (live s1) HP2 HP1 D2 D1); by eapply HC.
Qed.

(** * Writes that leave the allocator alone

    A client may write to the memory of its blocks, to the flags and slab fields
    of page entries, and move a reference count between positive values. *)
Definition client_step (s s' : kmem) : Prop :=
  free_areas s' = free_areas s /\ free_start s' = free_start s /\
  (forall p, order (pages s' p) = order (pages s p) /\ 0 <= refcount (pages s' p) < 2 ^ 16 /\
    (refcount (pages s' p) = 0 <-> refcount (pages s p) = 0)) /\
  (forall x, (forall a k, live s a k -> ~ covers a k x) -> ram s' x = ram s x).

Lemma client_step_live s s' : kalloc_inv s -> client_step s s' -> forall a k, live s' a k <-> live s a k.
Proof.
  intros [fl Hinv] (_ & Hfs & Hpg & _) a k. unfold live, pg. rewrite Hfs.
  destruct (Hpg (pa_to_page a)) as (-> & ? & ?). pose proof (fl_u16 _ _ (bi_lists _ _ _ Hinv) (pa_to_page a)). naive_solver lia.
Qed.

Lemma client_step_inv s s' : kalloc_inv s -> client_step s s' -> kalloc_inv s'.
Proof.
  intros Hk Hc. pose proof (client_step_live s s' Hk Hc) as Hl. destruct Hk as [fl Hinv].
  destruct Hc as (Hfa & Hfs & Hpg & Hram). pose proof (bi_lists _ _ _ Hinv) as HL. exists fl. split.
  - unfold bounds_ok. rewrite Hfs. apply Hinv.
  - split; [| |apply HL| |apply HL|apply Hpg].
    + intros k Hk. rewrite Hfa. eapply chain_frame; [|by apply HL]. intros a Ha. apply ld64_ext. intros x Hx.
      apply Hram. intros b j Hb Hcov. eapply (inv_free_live _ _ _ Hinv k j a b x); [done..| |done].
      destruct (inv_free_ok _ _ _ Hinv k a Ha) as [? _]. pose proof (bsz_ge k). unfold covers. lia.
    + intros k Hk. rewrite Hfa. by apply HL.
    + intros k a Ha. apply (Hpg (pa_to_page a)). by apply (fl_zero _ _ HL k).
  - rewrite Hfs. eapply partition_proper; [|apply Hinv]. intros a k. unfold blk. by rewrite Hl.
Qed.

(** * The interface *)

(** What a physical page allocator promises to its clients: an invariant, kept by
    allocation, release and the clients' own writes, under which allocation
    returns fresh zeroed blocks and release gives exactly one block back. *)
Class PageAllocator (inv : kmem -> Prop) (alloc : Z -> M kmem Z) (release : Z -> Z -> M kmem unit) : Prop := {
  pal_alloc : forall o s, inv s -> 0 <= o <= MAX_ORDER ->
    wp (alloc o) (fun r s' => alloc_post o s r s' /\ inv s') s;
  pal_free : forall pa o s, inv s -> live s pa o -> refcount (pg s pa) = 1 ->
    wp (release pa o) (fun _ s' => free_post pa o s s' /\ inv s') s;
  pal_client : forall s s', inv s -> client_step s s' -> inv s';
  pal_block : forall s a k, inv s -> live s a k ->
    0 <= k <= MAX_ORDER /\ a mod bsz k = 0 /\ KERN_BASE <= free_start s <= a /\ a + bsz k <= PHYS_STOP;
  pal_disj : forall s a k b j x, inv s -> live s a k -> live s b j -> covers a k x -> covers b j x -> a = b /\ k = j;
  pal_u16 : forall s p, inv s -> 0 <= refcount (pages s p) < 2 ^ 16
}.

#[export] Instance buddy_allocator : PageAllocator kalloc_inv kalloc_pages kfree_pages.
Proof.
  split.
  - intros o s [fl Hinv] Ho. eapply wp_mono; [by apply (buddy_alloc_inv PHYS_STOP fl)|].
    intros r s' (? & fl' & ? & _). split; [done|]. by exists fl'.
  - intros pa o s [fl Hinv] Hl Hr. eapply wp_mono; [by apply (buddy_free_inv PHYS_STOP fl)|].
    intros [] s' (? & fl' & ? & _). split; [done|]. by exists fl'.
  - apply client_step_inv.
  - intros s a k [fl Hinv] Hl. destruct (inv_live_ok _ _ _ Hinv k a Hl) as (? & ? & ? & ?).
    destruct (bi_bounds _ _ _ Hinv) as (? & _). split_and!; (done || lia).
  - intros s a k b j x [fl Hinv] Ha Hb. apply (pt_disj (bi_part _ _ _ Hinv)); by right.
  - intros s p [fl Hinv]. apply (bi_lists _ _ _ Hinv).
Qed.
