(* ===== verification/KallocThm.v ===== *)
(** The theorems on the buddy allocator ([kernel/kalloc.c]) with their instances
    at a small booted memory. *)
From S2P Require Import Prelude Mem Layout Kalloc Buddy KallocInv KallocAlloc KallocFree KallocSpec.

(** The free list of order [k], read back from memory. *)
Fixpoint read_chain (fuel : nat) (m : mem) (h : Z) : list Z :=
  match fuel with
  | O => []
  | S fuel' => if h =? NULL then [] else h :: read_chain fuel' m (ld64 m h)
  end.
Definition free_blocks (s : kmem) (k : Z) : list Z :=
  read_chain list_fuel (ram s) (free_list (free_areas s k)).

(** A machine just before [kalloc_init]: zeroed BSS, RAM of any contents, and a
    kernel image that leaves eleven pages. *)
Definition demo_bss : kmem :=
  mk_kmem (fun x => x) (fun _ => zero_page) (fun _ => mk_free_area NULL 0) 0 (fun _ => mk_size_class 0 None).
Definition demo_kernel_end : Z := PHYS_STOP - NR_PAGES * SIZEOF_PAGE - 11 * PG_SIZE.
Definition state_of {A} (o : outcome (A * kmem)) : kmem :=
  match o with Ok (_, s) => s | _ => demo_bss end.
Definition value_of {A} (o : outcome (A * kmem)) : option A :=
  match o with Ok (a, _) => Some a | _ => None end.
Definition demo : kmem := state_of (kalloc_init demo_kernel_end demo_bss).
(** The same machine after one allocation of order 1, at [demo_block]. *)
Definition demo1 : kmem := state_of (kalloc_pages 1 demo).
Definition demo_block : Z := PHYS_STOP - 10 * PG_SIZE.

Lemma read_chain_spec m l : forall fuel h, chain m h l -> (length l < fuel)%nat -> read_chain fuel m h = l.
Proof.
  induction l as [|a l IH]; intros [|fuel] h Hc Hf; cbn [length] in Hf; try lia; cbn [read_chain].
  - cbn in Hc. subst. by rewrite Z.eqb_refl.
  - destruct Hc as (-> & Hn & Hc). destruct (Z.eqb_spec a NULL); [done|]. f_equal. apply IH; [done|lia].
Qed.

Lemma free_blocks_spec fl s k : buddy_inv PHYS_STOP fl s -> 0 <= k <= MAX_ORDER -> free_blocks s k = fl k.
Proof.
  intros Hinv Hk. apply read_chain_spec; [by apply Hinv|].
  pose proof (inv_length _ _ _ Hinv k). unfold list_fuel. klia.
Qed.

Lemma demo_spec : exists n, kalloc_init demo_kernel_end demo_bss = Ok (n, demo) /\
  kalloc_inv demo /\ n = free_pages demo /\ 4096 * n = PHYS_STOP - first_free demo_kernel_end.
Proof.
  destruct (wp_elim _ _ _ (kalloc_init_spec demo_bss demo_kernel_end ltac:(done) ltac:(done) ltac:(done) ltac:(done)))
    as (n & s' & Heq & ? & ? & ? & ? & ?).
  exists n. unfold demo. rewrite Heq. by split_and!.
Qed.

Lemma demo_inv : kalloc_inv demo.
Proof. by destruct demo_spec as (n & _ & ? & _). Qed.

#[global] Opaque demo demo1.

Lemma ok_inj {A B} (a a' : A) (b b' : B) : Ok (a, b) = Ok (a', b') -> a = a' /\ b = b'.
Proof. intros H. by injection H. Qed.

Lemma value_state {A} (o : outcome (A * kmem)) (v : A) :
  value_of o = Some v -> o = Ok (v, state_of o).
Proof. destruct o as [[a s]| | |]; cbn; congruence. Qed.

Lemma demo1_value : kalloc_pages 1 demo = Ok (demo_block, demo1).
Proof. apply value_state. vm_compute. reflexivity. Qed.

Lemma demo1_spec : kalloc_inv demo1 /\ live demo1 demo_block 1 /\ refcount (pg demo1 demo_block) = 1.
Proof.
  destruct (wp_elim _ _ _ (pal_alloc (PageAllocator:=buddy_allocator) 1 demo demo_inv ltac:(klia)))
    as (r & s' & Heq & Hpost & Hinv).
  destruct (ok_inj _ _ _ _ (eq_trans (eq_sym Heq) demo1_value)) as [-> ->]. clear Heq.
  destruct Hpost as [[Hn _]|Hpost]; [discriminate Hn|].
  destruct Hpost as (_ & _ & _ & _ & _ & _ & _ & ? & _ & Hl & _). split_and!; [assumption| |assumption].
  apply Hl. right. split; reflexivity.
Qed.

(** * Theorems *)

(** [kalloc_init] returns without panicking and establishes the allocator's
    invariant: free and allocated blocks tile the memory from the first page
    behind the [struct page] array to the end of DRAM, every free list is well
    formed and fully coalesced; no block is allocated, and the number of free
    pages it reports is the number of pages of that memory. *)
Lemma kalloc_init_establishes s kernel_end :
  (forall k, 0 <= k <= MAX_ORDER -> free_areas s k = mk_free_area NULL 0) ->
  KERN_BASE <= kernel_end <= PHYS_STOP -> first_free kernel_end <= PHYS_STOP ->
  exists n s', kalloc_init kernel_end s = Ok (n, s') /\ kalloc_inv s' /\ (forall a k, ~ live s' a k) /\
    n = free_pages s' /\ PG_SIZE * n = PHYS_STOP - first_free kernel_end.
Proof.
  intros Hbss [? ?] ?.
  destruct (wp_elim _ _ _ (kalloc_init_spec s kernel_end ltac:(done) ltac:(done) ltac:(done) ltac:(done)))
    as (n & s' & ? & ? & ? & ? & ? & ?).
  exists n, s'. by split_and!.
Qed.


(** C2: [kalloc_pages] always returns, keeps the invariant, and either returns
    NULL with the state unchanged, when no free area of that order or a larger
    one has a block, or returns a zeroed block, aligned to its size, inside
    managed memory and disjoint from every allocated block, whose contents and
    page entries it leaves alone; exactly [2^order] pages leave the free lists. *)
Theorem kalloc_pages_correct s o : kalloc_inv s -> 0 <= o <= MAX_ORDER ->
  exists r s', kalloc_pages o s = Ok (r, s') /\ kalloc_inv s' /\ alloc_post o s r s' /\
    free_pages s' = free_pages s - (if r =? NULL then 0 else 2 ^ o).
Proof.
  intros [fl Hinv] Ho.
  destruct (wp_elim _ _ _ (buddy_alloc_inv _ fl s o Hinv Ho)) as (r & s' & Heq & Hp & fl' & Hinv' & Hw).
  exists r, s'. split_and!; [done|by exists fl'|done|].
  by rewrite (weight_free_pages _ _ _ Hinv), (weight_free_pages _ _ _ Hinv').
Qed.

Lemma kalloc_pages_correct_witness :
  exists r s', kalloc_pages 1 demo = Ok (r, s') /\ kalloc_inv s' /\ alloc_post 1 demo r s' /\
    free_pages s' = free_pages demo - (if r =? NULL then 0 else 2 ^ 1).
Proof. apply (kalloc_pages_correct demo 1 demo_inv). split; vm_compute; discriminate. Defined.

(** [kfree_pages] of an allocated block with a single reference returns,
    keeps the invariant (the block is merged with its free buddies as far as
    possible), removes exactly that block from the allocated ones, keeps the
    contents of all the others, and puts its [2^order] pages back. *)
Lemma kfree_pages_frees s pa o : kalloc_inv s -> live s pa o -> refcount (pg s pa) = 1 ->
  exists s', kfree_pages pa o s = Ok (tt, s') /\ kalloc_inv s' /\ free_post pa o s s' /\
    free_pages s' = free_pages s + 2 ^ o.
Proof.
  intros [fl Hinv] Hl Hr.
  destruct (wp_elim _ _ _ (buddy_free_inv _ fl s pa o Hinv Hl Hr)) as ([] & s' & Heq & Hp & fl' & Hinv' & Hw).
  exists s'. split_and!; [done|by exists fl'|done|].
  by rewrite (weight_free_pages _ _ _ Hinv), (weight_free_pages _ _ _ Hinv').
Qed.


(** Every other call of [kfree_pages] stops in a panic before anything is
    written: a double free, a block never allocated, a block still shared, a
    wrong order, or a misaligned or foreign address. *)
Lemma kfree_pages_rejects s pa o : kalloc_inv s -> 0 <= o -> 0 <= pa ->
  ~ (live s pa o /\ refcount (pg s pa) = 1) -> exists msg, kfree_pages pa o s = Panic msg.
Proof.
  intros [fl Hinv] Ho Hpa Hbad. unfold kfree_pages, buddy_free, gets, mbind, M_bind.
  destruct (_ || (PHYS_STOP <=? pa)) eqn:Hg; [by eexists|].
  apply orb_false_elim in Hg as [[[Hg1 Hg2]%orb_false_elim Hg3]%orb_false_elim Hg4].
  rewrite shiftl_bsz in Hg2 by done. apply negb_false_iff, Z.eqb_eq in Hg2.
  destruct (bi_bounds _ _ _ Hinv) as (? & _ & _).
  assert (get_page (pa_to_page pa) s = Ok (pg s pa, s)) as ->.
  { pose proof (pa_to_page_range pa ltac:(lia)) as Hr. unfold get_page, require, mbind, M_bind.
    by replace ((0 <=? pa_to_page pa) && (pa_to_page pa <? NR_PAGES)) with true by lia. }
  destruct (_ || negb (order _ =? o)) eqn:Hg5; [by eexists|]. exfalso. apply Hbad.
  apply orb_false_elim in Hg5 as [H1%negb_false_iff%Z.eqb_eq H2%negb_false_iff%Z.eqb_eq].
  split; [|done]. unfold live. rewrite H1. split_and!; [lia..| |lia|done].
  by apply (bsz_aligned_page pa o).
Qed.


(** C3: [kfree_pages] of an allocated block with a single reference returns,
    keeps the invariant (the block is merged with its free buddies as far as
    possible), removes exactly that block from the allocated ones, keeps the
    contents of all the others, and puts its [2^order] pages back.  Every other
    call (a double free, a block never allocated or still shared, a wrong order, a
    misaligned or foreign address) panics before anything is written. *)
Theorem kfree_pages_correct s pa o : kalloc_inv s -> 0 <= o -> 0 <= pa ->
  (live s pa o /\ refcount (pg s pa) = 1 -> exists s', kfree_pages pa o s = Ok (tt, s') /\ kalloc_inv s' /\ free_post pa o s s' /\ free_pages s' = free_pages s + 2 ^ o) /\
  (~ (live s pa o /\ refcount (pg s pa) = 1) -> exists msg, kfree_pages pa o s = Panic msg).
Proof. intros Hi Ho Hp. split; [intros [? ?]; by apply kfree_pages_frees|by apply kfree_pages_rejects]. Qed.

Lemma kfree_pages_correct_witness :
  (exists s', kfree_pages demo_block 1 demo1 = Ok (tt, s') /\ kalloc_inv s') /\ exists msg, kfree_pages demo_block 0 demo1 = Panic msg.
Proof.
  destruct demo1_spec as (Hi & Hl & Hr). split.
  - destruct (kfree_pages_correct demo1 demo_block 1 Hi) as [H _]; [vm_compute; discriminate..|]. destruct (H (conj Hl Hr)) as (s' & E & Hi' & _). exists s'. exact (conj E Hi').
  - apply (kfree_pages_correct demo1 demo_block 0 Hi); [vm_compute; discriminate..|]. intros [(_ & _ & _ & Ho) _]. destruct Hl as (_ & _ & _ & Ho'). congruence.
Defined.

(** The allocator's state is canonical: two states of the same memory with
    the same allocated blocks have, order by order, the same free blocks.  So
    the free lists never fragment beyond what the allocated blocks force. *)
Lemma buddy_canonical s1 s2 : kalloc_inv s1 -> kalloc_inv s2 -> free_start s1 = free_start s2 ->
  (forall a k, live s1 a k <-> live s2 a k) ->
  forall k, 0 <= k <= MAX_ORDER ->
    free_blocks s1 k ≡ₚ free_blocks s2 k /\ nr_free (free_areas s1 k) = nr_free (free_areas s2 k).
Proof.
  intros [fl1 Hi1] [fl2 Hi2] Hfs Hl k Hk. pose proof (canonical_lists s1 s2 fl1 fl2 Hi1 Hi2 Hfs Hl k) as Hp.
  rewrite (free_blocks_spec fl1 s1), (free_blocks_spec fl2 s2) by done. split; [done|].
  rewrite (fl_count _ _ (bi_lists _ _ _ Hi1)), (fl_count _ _ (bi_lists _ _ _ Hi2)) by done. by rewrite Hp.
Qed.

(** The block handed back: the same memory as [demo], reached another way. *)
Definition demo2 : kmem := state_of (kfree_pages demo_block 1 demo1).

Lemma alloc_free_live s o r s1 s2 : alloc_post o s r s1 -> r <> NULL -> free_post r o s1 s2 ->
  (forall k, ~ live s r k) ->
  free_start s2 = free_start s /\ forall a k, live s2 a k <-> live s a k.
Proof.
  intros [[? _]|Hp] Hr (Hf1 & _ & Hl2 & _) Hn; [done|].
  destruct Hp as (_ & [Hfs _] & _ & _ & _ & _ & _ & _ & _ & Hl1 & _). split; [by destruct Hf1 as [-> _]|].
  intros a k. rewrite Hl2, Hl1. split; [tauto|]. intros Ha. split; [by left|]. intros ->. by eapply Hn.
Qed.

(** A fresh block was not allocated before. *)
Lemma alloc_fresh s o r s1 : 0 <= o -> kalloc_inv s -> alloc_post o s r s1 -> r <> NULL -> forall k, ~ live s r k.
Proof.
  intros Ho Hinv [[? _]|Hp] Hr k Hl; [done|]. destruct Hp as (_ & _ & _ & _ & _ & _ & _ & _ & Hd & _).
  apply (Hd r k r Hl); apply covers_self; [|done]. destruct (pal_block s r k Hinv Hl) as [? _]. lia.
Qed.

Lemma free_after_alloc s o r s1 : kalloc_inv s -> 0 <= o <= MAX_ORDER ->
  kalloc_pages o s = Ok (r, s1) -> r <> NULL ->
  exists s2, kfree_pages r o s1 = Ok (tt, s2) /\ kalloc_inv s2 /\ free_start s2 = free_start s /\
    forall a k, live s2 a k <-> live s a k.
Proof.
  intros Hinv Ho Heq Hr.
  destruct (wp_elim _ _ _ (pal_alloc (PageAllocator:=buddy_allocator) o s Hinv Ho)) as (r' & s' & Heq' & Hpost & Hinv1).
  rewrite Heq in Heq'. injection Heq' as <- <-.
  assert (live s1 r o /\ refcount (pg s1 r) = 1) as [Hl Hc].
  { destruct Hpost as [[? _]|(_ & _ & _ & _ & _ & _ & _ & ? & _ & Hl & _)]; [done|]. split; [|done]. apply Hl. by right. }
  destruct (wp_elim _ _ _ (pal_free (PageAllocator:=buddy_allocator) r o s1 Hinv1 Hl Hc)) as ([] & s2 & Hf & Hfp & Hinv2).
  exists s2. split; [done|]. split; [done|]. eapply alloc_free_live; [done..|].
  eapply alloc_fresh; [|done..]. lia.
Qed.

Lemma demo2_spec : kalloc_inv demo2 /\ free_start demo2 = free_start demo /\
  forall a k, live demo2 a k <-> live demo a k.
Proof.
  destruct (free_after_alloc demo 1 demo_block demo1 demo_inv ltac:(klia) demo1_value ltac:(discriminate)) as (s2 & Heq & Hs).
  unfold demo2. rewrite Heq. exact Hs.
Qed.


(** Freeing a block that was just allocated undoes the allocation: the
    allocator again has the same allocated blocks and, order by order, the same
    free blocks and counters as before. *)
Lemma alloc_free_roundtrip s o r s1 : kalloc_inv s -> 0 <= o <= MAX_ORDER ->
  kalloc_pages o s = Ok (r, s1) -> r <> NULL ->
  exists s2, kfree_pages r o s1 = Ok (tt, s2) /\ kalloc_inv s2 /\ (forall a k, live s2 a k <-> live s a k) /\
    forall k, 0 <= k <= MAX_ORDER ->
      free_blocks s2 k ≡ₚ free_blocks s k /\ nr_free (free_areas s2 k) = nr_free (free_areas s k).
Proof.
  intros Hinv Ho Heq Hr. destruct (free_after_alloc s o r s1 Hinv Ho Heq Hr) as (s2 & ? & Hinv2 & Hfs & Hl).
  exists s2. split_and!; [done..|]. destruct Hinv as [fl Hi], Hinv2 as [fl2 Hi2]. intros k Hk.
  pose proof (canonical_lists s2 s fl2 fl Hi2 Hi Hfs Hl k) as Hp.
  rewrite (free_blocks_spec fl s), (free_blocks_spec fl2 s2) by done. split; [done|].
  rewrite (fl_count _ _ (bi_lists _ _ _ Hi)), (fl_count _ _ (bi_lists _ _ _ Hi2)) by done. by rewrite Hp.
Qed.

