(* ===== verification/Kmalloc.v ===== *)
(** [kernel/kmalloc.c]: the slab allocator.

    Seven size classes; each has a singly linked list of slab pages (through
    [page->slab.next_slab]), each slab a list of free slots threaded through the
    slots.  Larger requests go to the buddy allocator. *)
From S2P Require Import Prelude Mem Layout Kalloc.

Definition NR_SIZE_CLASSES : Z := 7.
Definition MAX_SLAB_SIZE : Z := 2048.

Definition page_set_class_idx (v : Z) (p : page) : page :=
  mk_page (refcount p) (order p) (flags p) (u8 v) (nr_alloc p) (slab_free_list p) (next_slab p).
Definition page_set_nr_alloc (v : Z) (p : page) : page :=
  mk_page (refcount p) (order p) (flags p) (class_idx p) (u16 v) (slab_free_list p) (next_slab p).
Definition page_set_free_list (v : Z) (p : page) : page :=
  mk_page (refcount p) (order p) (flags p) (class_idx p) (nr_alloc p) v (next_slab p).
Definition page_set_next_slab (v : option Z) (p : page) : page :=
  mk_page (refcount p) (order p) (flags p) (class_idx p) (nr_alloc p) (slab_free_list p) v.

(** Guarded accesses to [size_classes[i]]. *)
Definition class_ok (i : Z) : bool := (0 <=? i) && (i <? NR_SIZE_CLASSES).
Definition get_class (i : Z) : M kmem size_class :=
  require (class_ok i);; gets (fun s => size_classes s i).
Definition set_class (i : Z) (c : size_class) : M kmem unit :=
  require (class_ok i);; modify (fun s => set_size_classes (upd (size_classes s) i c) s).

(** [for (i = 0; i < NR_SIZE_CLASSES; i++) if (size <= size_classes[i].slot_size) return i;] *)
Fixpoint size_to_class_from (n : nat) (i size : Z) : M kmem Z :=
  match n with
  | O => mret (-1)
  | S n' =>
      c ← get_class i;
      if size <=? slot_size c then mret i else size_to_class_from n' (i + 1) size
  end.
Definition size_to_class (size : Z) : M kmem Z := size_to_class_from 7 0 size.

(** Thread the free list through a page: [n] links of stride [slot], then NULL. *)
Fixpoint thread_slots (n : nat) (s slot : Z) : M kmem unit :=
  match n with
  | O => store64 s NULL
  | S n' => store64 s (s + slot);; thread_slots n' (s + slot) slot
  end.

Definition slab_create (cls : Z) : M kmem (option Z) :=
  if (cls <? 0) || (NR_SIZE_CLASSES <=? cls) then panic "slab_create: class_idx" else
  s ← kalloc;
  if s =? NULL then mret None else
  let pg := pa_to_page s in
  update_page pg (page_set_flags PG_SLAB);;
  update_page pg (page_set_class_idx cls);;
  update_page pg (page_set_nr_alloc 0);;
  update_page pg (page_set_free_list s);;
  update_page pg (page_set_next_slab None);;
  c ← get_class cls;
  require (negb (slot_size c =? 0));;
  thread_slots (Z.to_nat (PG_SIZE / slot_size c - 1)) s (slot_size c);;
  mret (Some pg).

(** The [struct page **] cursor of slab_destroy. *)
Inductive slink := SHead (c : Z) | SNext (p : Z).
Definition load_slink (l : slink) : M kmem (option Z) :=
  match l with
  | SHead c => cl ← get_class c; mret (slabs cl)
  | SNext p => pg ← get_page p; mret (next_slab pg)
  end.
Definition store_slink (l : slink) (v : option Z) : M kmem unit :=
  match l with
  | SHead c => cl ← get_class c; set_class c (mk_size_class (slot_size cl) v)
  | SNext p => update_page p (page_set_next_slab v)
  end.

(** [while ( *ps && *ps != slab) ps = &( *ps)->slab.next_slab;] *)
Fixpoint find_slink (fuel : nat) (ps : slink) (slab : Z) : M kmem (slink * option Z) :=
  match fuel with
  | O => out_of_fuel
  | S fuel' =>
      v ← load_slink ps;
      match v with
      | None => mret (ps, None)
      | Some p => if p =? slab then mret (ps, Some p) else find_slink fuel' (SNext p) slab
      end
  end.

Definition slab_destroy (slab cls : Z) : M kmem unit :=
  if (cls <? 0) || (NR_SIZE_CLASSES <=? cls) then panic "slab_destroy: class_idx" else
  '(ps, v) ← find_slink list_fuel (SHead cls) slab;
  match v with
  | None => panic "slab_destroy: slab not found"
  | Some _ =>
      c ← get_class cls;
      match slabs c with
      | None => undefined
      | Some first =>
          fp ← get_page first;
          match next_slab fp with
          | None => mret tt
          | Some _ =>
              sp ← get_page slab;
              store_slink ps (next_slab sp);;
              update_page slab (page_set_flags 0);;
              kfree (page_to_pa slab)
          end
      end
  end.

(** [while (order <= MAX_ORDER && (PG_SIZE << order) < size) order++;] *)
Fixpoint order_for (fuel : nat) (ord size : Z) : Z :=
  match fuel with
  | O => ord
  | S fuel' =>
      if (ord <=? MAX_ORDER) && (Z.shiftl PG_SIZE ord <? size) then order_for fuel' (ord + 1) size else ord
  end.

(** [while (slab && slab->slab.free_list == NULL) slab = slab->slab.next_slab;] *)
Fixpoint find_slab (fuel : nat) (slab : option Z) : M kmem (option Z) :=
  match fuel with
  | O => out_of_fuel
  | S fuel' =>
      match slab with
      | None => mret None
      | Some p =>
          pg ← get_page p;
          if slab_free_list pg =? NULL then find_slab fuel' (next_slab pg) else mret (Some p)
      end
  end.

(** [slab->slab.nr_alloc++; s = slab->slab.free_list; slab->slab.free_list = s->next;] *)
Definition pop_slot (slab : Z) : M kmem Z :=
  pg ← get_page slab;
  update_page slab (page_set_nr_alloc (nr_alloc pg + 1));;
  let s := slab_free_list pg in
  next ← load64 s;
  update_page slab (page_set_free_list next);;
  mret s.

Definition kmalloc (size : Z) : M kmem Z :=
  if size =? 0 then mret NULL else
  if MAX_SLAB_SIZE <? size then
    let ord := order_for 12 0 size in
    if MAX_ORDER <? ord then panic "kmalloc: size exceeds limit" else
    pa ← kalloc_pages ord;
    if pa =? NULL then mret NULL else
    update_page (pa_to_page pa) (page_set_flags PG_BIG);;
    mret pa
  else
    idx ← size_to_class size;
    c ← get_class idx;
    slab ← find_slab list_fuel (slabs c);
    match slab with
    | Some p => pop_slot p
    | None =>
        new ← slab_create idx;
        match new with
        | None => mret NULL
        | Some p =>
            c' ← get_class idx;
            update_page p (page_set_next_slab (slabs c'));;
            set_class idx (mk_size_class (slot_size c') (Some p));;
            pop_slot p
        end
    end.

Definition kmfree (ptr : Z) : M kmem unit :=
  let p := pa_to_page ptr in
  pg ← get_page p;
  if negb (Z.land (flags pg) PG_BIG =? 0) then
    update_page p (page_set_flags 0);;
    kfree_pages ptr (order pg)
  else if Z.land (flags pg) PG_SLAB =? 0 then panic "kmfree: not from kmalloc" else
  let idx := class_idx pg in
  c ← get_class idx;
  mem_set ptr 0xAB (slot_size c);;
  store64 ptr (slab_free_list pg);;
  update_page p (page_set_free_list ptr);;
  update_page p (page_set_nr_alloc (nr_alloc pg - 1));;
  if u16 (nr_alloc pg - 1) =? 0 then slab_destroy p idx else mret tt.

(** [for (i = 0; i < NR_SIZE_CLASSES; i++) { slot_size = 32 << i; slabs = slab_create(i); }] *)
Definition kmalloc_init : M kmem unit :=
  for_range 7 0 (fun i =>
    c ← get_class i;
    set_class i (mk_size_class (u32 (Z.shiftl 32 i)) (slabs c));;
    sl ← slab_create i;
    c' ← get_class i;
    set_class i (mk_size_class (slot_size c') sl)).
