(* ===== verification/KmallocInv.v ===== *)
(** The invariant of the slab allocator and its preservation lemmas, proved
    against the [PageAllocator] interface. *)
From S2P Require Import Prelude Mem Layout Kalloc Buddy KallocInv KallocAlloc KallocFree KallocSpec Kmalloc.

(** Slot size of class [c] ([32 << c]) and slots per slab page. *)
Definition ssz (c : Z) : Z := 2 ^ (c + 5).
Definition nslots (c : Z) : Z := 2 ^ (7 - c).

(** A slot of the slab page at [pa]. *)
Definition slot_at (pa c x : Z) : Prop := pa <= x /\ x + ssz c <= pa + 4096 /\ (x - pa) mod ssz c = 0.

(** The slab list of a class, linked through page entries. *)
Fixpoint schain (pgs : Z -> page) (h : option Z) (l : list Z) : Prop :=
  match l with
  | [] => h = None
  | p :: l' => h = Some p /\ schain pgs (next_slab (pgs p)) l'
  end.

(** Page [p] is a slab of class [c] whose free slots are [fs]. *)
Record slab_ok (s : kmem) (c p : Z) (fs : list Z) : Prop := {
  so_page : 0 <= p < NR_PAGES;
  so_live : live s (page_to_pa p) 0;
  so_ref : refcount (pages s p) = 1;
  so_flags : flags (pages s p) = PG_SLAB;
  so_class : class_idx (pages s p) = c;
  so_count : nr_alloc (pages s p) = nslots c - Z.of_nat (length fs);
  so_chain : chain (ram s) (slab_free_list (pages s p)) fs;
  so_nodup : NoDup fs;
  so_slots : forall x, x ∈ fs -> slot_at (page_to_pa p) c x
}.

Record slab_inv (sl fr : Z -> list Z) (s : kmem) : Prop := {
  ki_class : forall c, 0 <= c < NR_SIZE_CLASSES -> slot_size (size_classes s c) = ssz c;
  ki_slabs : forall c, 0 <= c < NR_SIZE_CLASSES -> schain (pages s) (slabs (size_classes s c)) (sl c);
  ki_nodup : forall c, 0 <= c < NR_SIZE_CLASSES -> NoDup (sl c);
  ki_slab : forall c p, 0 <= c < NR_SIZE_CLASSES -> p ∈ sl c -> slab_ok s c p (fr p)
}.

(** Objects handed out: a used slot of a slab, or a block of the buddy allocator. *)
Definition slab_page (s : kmem) (c p : Z) : Prop :=
  0 <= c < NR_SIZE_CLASSES /\ exists l, schain (pages s) (slabs (size_classes s c)) l /\ p ∈ l.
Definition slot_free (s : kmem) (p x : Z) : Prop :=
  exists l, chain (ram s) (slab_free_list (pages s p)) l /\ x ∈ l.
Definition slab_obj (s : kmem) (x n : Z) : Prop :=
  exists c p, slab_page s c p /\ slot_at (page_to_pa p) c x /\ ~ slot_free s p x /\ n = ssz c.
Definition big_obj (s : kmem) (x n : Z) : Prop :=
  exists k, live s x k /\ flags (pg s x) = PG_BIG /\ n = bsz k.
Definition obj (s : kmem) (x n : Z) : Prop := slab_obj s x n \/ big_obj s x n.

(** Allocated blocks that do not belong to kmalloc (page tables, stacks, ...). *)
Definition foreign (s : kmem) (a k : Z) : Prop :=
  live s a k /\ flags (pg s a) <> PG_SLAB /\ flags (pg s a) <> PG_BIG.

(** ** Arithmetic of slots *)
Lemma class_cases c : 0 <= c < NR_SIZE_CLASSES -> c = 0 \/ c = 1 \/ c = 2 \/ c = 3 \/ c = 4 \/ c = 5 \/ c = 6.
Proof. unfold NR_SIZE_CLASSES. lia. Qed.

Lemma ssz_facts c : 0 <= c < NR_SIZE_CLASSES ->
  32 <= ssz c <= 2048 /\ ssz c * nslots c = 4096 /\ 2 <= nslots c <= 128 /\ 4096 / ssz c = nslots c /\
  u32 (Z.shiftl 32 c) = ssz c.
Proof. intros Hc. pose proof (class_cases c Hc) as Hcs. destruct_or! Hcs; subst; vm_compute; intuition discriminate. Qed.

(** Slots of one page are apart. *)
Lemma slot_apart pa c x y : 0 <= c < NR_SIZE_CLASSES -> slot_at pa c x -> slot_at pa c y -> x <> y ->
  x + ssz c <= y \/ y + ssz c <= x.
Proof.
  intros Hc (? & ? & Hx) (? & ? & Hy) Hne. destruct (ssz_facts c Hc) as (? & _).
  apply Z.mod_divide in Hx as [u Hu]; [|lia]. apply Z.mod_divide in Hy as [v Hv]; [|lia].
  assert (u <> v) by (intros ->; lia). nia.
Qed.

Lemma page_to_pa_val p : 0 <= p < NR_PAGES -> page_to_pa p = KERN_BASE + 4096 * p.
Proof.
  intros. unfold page_to_pa, PG_SHIFT. rewrite Z.shiftl_mul_pow2 by lia. rewrite u64_small by klia. lia.
Qed.

Lemma pa_to_page_to_pa p x : 0 <= p < NR_PAGES -> page_to_pa p <= x < page_to_pa p + 4096 -> pa_to_page x = p.
Proof.
  intros Hp Hx. rewrite page_to_pa_val in Hx by done. rewrite pa_to_page_val by klia.
  rewrite KERN_BASE_val in *. mlia.
Qed.

Lemma page_to_pa_to_page a : KERN_BASE <= a < PHYS_STOP -> a mod 4096 = 0 -> page_to_pa (pa_to_page a) = a.
Proof.
  intros Ha Hal. rewrite page_to_pa_val by (by apply pa_to_page_range). rewrite pa_to_page_val by done.
  rewrite KERN_BASE_val, PHYS_STOP_val in *. mlia.
Qed.

(** ** Chains are functions of the state *)
Lemma chain_fun m : forall l l' h, chain m h l -> chain m h l' -> l = l'.
Proof.
  induction l as [|a l IH]; intros [|b l'] h; cbn.
  - done.
  - by intros -> (<- & ? & _).
  - by intros (-> & ? & _) ->.
  - intros (-> & ? & Hc) (<- & ? & Hc'). f_equal. by eapply IH.
Qed.

Lemma schain_fun g : forall l l' h, schain g h l -> schain g h l' -> l = l'.
Proof.
  induction l as [|a l IH]; intros [|b l'] h; cbn.
  - done.
  - by intros -> (? & _).
  - by intros (-> & _) ?.
  - intros (-> & Hc) (Heq & Hc'). injection Heq as <-. f_equal. by eapply IH.
Qed.

Lemma schain_frame g g' h l : (forall p, p ∈ l -> next_slab (g' p) = next_slab (g p)) -> schain g h l -> schain g' h l.
Proof.
  revert h. induction l as [|a l IH]; intros h Hg; [done|]. intros (-> & Hc). split; [done|].
  rewrite Hg by (by left). apply IH; [|done]. intros p Hp. apply Hg. by right.
Qed.

Section invariant.
Context (sl fr : Z -> list Z) (s : kmem) (HK : slab_inv sl fr s).

Lemma slab_page_spec c p : slab_page s c p <-> 0 <= c < NR_SIZE_CLASSES /\ p ∈ sl c.
Proof using HK.
  split.
  - intros (Hc & l & Hl & Hp). split; [done|]. by rewrite (schain_fun _ _ _ _ (ki_slabs _ _ _ HK c Hc) Hl).
  - intros (Hc & Hp). split; [done|]. exists (sl c). split; [by apply HK|done].
Qed.

Lemma slot_free_spec c p x : 0 <= c < NR_SIZE_CLASSES -> p ∈ sl c -> slot_free s p x <-> x ∈ fr p.
Proof using HK.
  intros Hc Hp. pose proof (so_chain _ _ _ _ (ki_slab _ _ _ HK c p Hc Hp)) as Hch. split.
  - intros (l & Hl & Hx). by rewrite (chain_fun _ _ _ _ Hch Hl).
  - intros Hx. by exists (fr p).
Qed.

Lemma slab_obj_spec x n : slab_obj s x n <->
  exists c p, 0 <= c < NR_SIZE_CLASSES /\ p ∈ sl c /\ slot_at (page_to_pa p) c x /\ x ∉ fr p /\ n = ssz c.
Proof using HK.
  split.
  - intros (c & p & [Hc Hp]%slab_page_spec & Hs & Hf & ->). exists c, p. split_and!; try done; try lia.
    by rewrite <- (slot_free_spec c p x).
  - intros (c & p & Hc & Hp & Hs & Hf & ->). exists c, p. split_and!; try done.
    + by apply slab_page_spec.
    + by rewrite (slot_free_spec c p x).
Qed.

(** The slabs of different classes are different pages. *)
Lemma slab_class_unique c c' p : 0 <= c < NR_SIZE_CLASSES -> 0 <= c' < NR_SIZE_CLASSES ->
  p ∈ sl c -> p ∈ sl c' -> c = c'.
Proof using HK.
  intros Hc Hc' Hp Hp'. rewrite <- (so_class _ _ _ _ (ki_slab _ _ _ HK c p Hc Hp)).
  apply (so_class _ _ _ _ (ki_slab _ _ _ HK c' p Hc' Hp')).
Qed.

Lemma slab_dram c p : 0 <= c < NR_SIZE_CLASSES -> p ∈ sl c ->
  0 <= p < NR_PAGES /\ KERN_BASE <= page_to_pa p /\ page_to_pa p + 4096 <= PHYS_STOP /\ page_to_pa p mod 4096 = 0 /\
  free_start s <= page_to_pa p.
Proof using HK.
  intros Hc Hp. pose proof (ki_slab _ _ _ HK c p Hc Hp) as Ho. pose proof (so_page _ _ _ _ Ho) as Hr.
  destruct (so_live _ _ _ _ Ho) as (? & ? & _). rewrite page_to_pa_val in * by done.
  split_and!; try done; klia.
Qed.

Lemma slab_length c : 0 <= c < NR_SIZE_CLASSES -> Z.of_nat (length (sl c)) <= NR_PAGES.
Proof using HK.
  intros Hc. assert (sl c ⊆ seqZ 0 NR_PAGES) as Hs.
  { intros p Hp. apply elem_of_seqZ. destruct (slab_dram c p Hc Hp) as [? _]. lia. }
  pose proof (submseteq_length _ _ (NoDup_submseteq _ _ (ki_nodup _ _ _ HK c Hc) Hs)) as Hlen.
  rewrite length_seqZ in Hlen. klia.
Qed.
End invariant.

(** The slab invariant reads only the classes, and the entries and contents of
    slab pages. *)
Lemma slab_ok_frame s s' c p fs : slab_ok s c p fs -> 0 <= c < NR_SIZE_CLASSES -> pages s' p = pages s p ->
  live s' (page_to_pa p) 0 ->
  (forall x, page_to_pa p <= x < page_to_pa p + 4096 -> ram s' x = ram s x) -> slab_ok s' c p fs.
Proof.
  intros [? Hl ? ? ? ? Hc ? Hs] Hcl Hp Hl' Hram. split; rewrite ?Hp; try done.
  eapply chain_frame; [|exact Hc]. intros x Hx. apply ld64_ext. intros y Hy. apply Hram.
  destruct (Hs x Hx) as (? & ? & _). destruct (ssz_facts c Hcl) as (? & _). lia.
Qed.

Lemma slab_inv_frame sl fr s s' : slab_inv sl fr s -> size_classes s' = size_classes s ->
  (forall c p, 0 <= c < NR_SIZE_CLASSES -> p ∈ sl c -> pages s' p = pages s p /\ live s' (page_to_pa p) 0 /\
     forall x, page_to_pa p <= x < page_to_pa p + 4096 -> ram s' x = ram s x) ->
  slab_inv sl fr s'.
Proof.
  intros HK Hsc Hf. split.
  - intros c Hc. rewrite Hsc. by apply HK.
  - intros c Hc. rewrite Hsc. eapply schain_frame; [|by apply HK]. intros p Hp. by destruct (Hf c p Hc Hp) as [-> _].
  - apply HK.
  - intros c p Hc Hp. destruct (Hf c p Hc Hp) as (? & ? & ?). eapply slab_ok_frame; try done. by apply HK.
Qed.
