(* ===== verification/KmallocProof.v ===== *)
(** [kernel/kmalloc.c] against the [PageAllocator] interface: the operations on
    slabs keep the slab invariant. *)
From S2P Require Import Prelude Mem Layout Kalloc Buddy KallocInv KallocAlloc KallocFree KallocSpec Kmalloc KmallocInv.

(** ** Accesses to the size classes *)
Lemma wp_get_class c (Q : size_class -> kmem -> Prop) s :
  0 <= c < NR_SIZE_CLASSES -> Q (size_classes s c) s -> wp (get_class c) Q s.
Proof. intros. unfold get_class. wp_steps. apply wp_require; [unfold class_ok; lia|]. by wp_steps. Qed.

Lemma wp_set_class c v (Q : unit -> kmem -> Prop) s :
  0 <= c < NR_SIZE_CLASSES -> Q tt (set_size_classes (upd (size_classes s) c v) s) -> wp (set_class c v) Q s.
Proof. intros. unfold set_class. wp_steps. apply wp_require; [unfold class_ok; lia|]. by wp_steps. Qed.

(** ** size_to_class *)
Lemma size_to_class_from_spec s size : (forall c, 0 <= c < NR_SIZE_CLASSES -> slot_size (size_classes s c) = ssz c) ->
  size <= MAX_SLAB_SIZE -> forall n i, 0 <= i -> i + Z.of_nat n = NR_SIZE_CLASSES -> (forall j, 0 <= j < i -> ssz j < size) ->
  wp (size_to_class_from n i size) (fun r s' => s' = s /\ 0 <= r < NR_SIZE_CLASSES /\ size <= ssz r /\
    forall j, 0 <= j < r -> ssz j < size) s.
Proof.
  intros Hc Hs. induction n as [|n IH]; intros i Hi Hn Hlt; cbn [size_to_class_from].
  - exfalso. specialize (Hlt 6 ltac:(unfold NR_SIZE_CLASSES in *; lia)). change (ssz 6) with 2048 in Hlt.
    unfold MAX_SLAB_SIZE in *. lia.
  - wp_steps. apply wp_get_class; [lia|]. rewrite Hc by lia. destruct (Z.leb_spec size (ssz i)).
    + wp_steps. split_and!; (done || lia).
    + apply IH; [lia..|]. intros j Hj. destruct (decide (j = i)) as [->|]; [done|]. apply Hlt. lia.
Qed.

(** ** find_slab *)
Lemma find_slab_spec s : forall l fuel h, schain (pages s) h l -> (forall p, p ∈ l -> 0 <= p < NR_PAGES) ->
  (length l < fuel)%nat ->
  wp (find_slab fuel h) (fun r s' => s' = s /\
    match r with
    | None => forall p, p ∈ l -> slab_free_list (pages s p) = NULL
    | Some p => p ∈ l /\ slab_free_list (pages s p) <> NULL
    end) s.
Proof.
  induction l as [|p l IH]; intros [|fuel] h Hch Hr Hf; cbn [length] in Hf; try lia; cbn [find_slab].
  - cbn in Hch. subst. wp_steps. split; [done|]. intros p Hp. by apply elem_of_nil in Hp.
  - destruct Hch as (-> & Hch). wp_steps. apply wp_get_page; [apply Hr; by left|].
    destruct (Z.eqb_spec (slab_free_list (pages s p)) NULL) as [He|He].
    + eapply wp_mono; [apply IH; [done| |lia]; intros q Hq; apply Hr; by right|].
      intros [q|] s' [-> HQ]; split; try done.
      * destruct HQ. split; [by right|done].
      * intros q [->|Hq]%elem_of_cons; [done|by apply HQ].
    + wp_steps. split_and!; try done. by left.
Qed.

(** ** thread_slots: the free list of a fresh slab *)
Fixpoint slots (n : nat) (a z : Z) : list Z :=
  match n with O => [a] | S n' => a :: slots n' (a + z) z end.

Lemma length_slots n a z : length (slots n a z) = S n.
Proof. revert a. induction n as [|n IH]; intros a; [done|]. cbn [slots length]. by rewrite IH. Qed.

Lemma elem_slots n z x : forall a, x ∈ slots n a z <-> exists i, 0 <= i <= Z.of_nat n /\ x = a + i * z.
Proof.
  induction n as [|n IH]; intros a; cbn [slots].
  - rewrite list_elem_of_singleton. split.
    + intros ->. exists 0. lia.
    + intros (i & ? & ->). assert (i = 0) as -> by lia. lia.
  - rewrite elem_of_cons, IH. split.
    + intros [->|(i & ? & ->)]; [exists 0|exists (i + 1)]; lia.
    + intros (i & ? & ->). destruct (decide (i = 0)) as [->|]; [left; lia|right; exists (i - 1); lia].
Qed.

Lemma NoDup_slots n z : 0 < z -> forall a, NoDup (slots n a z).
Proof.
  intros Hz. induction n as [|n IH]; intros a; cbn [slots]; [apply NoDup_singleton|].
  apply NoDup_cons. split; [|apply IH]. rewrite elem_slots. intros (i & ? & ?). nia.
Qed.

Lemma thread_slots_spec z : 8 <= z -> forall n a s, free_start s <= a -> a + (Z.of_nat n + 1) * z <= PHYS_STOP -> 0 < a ->
  wp (thread_slots n a z) (fun _ s' => exists m', s' = set_ram m' s /\ chain m' a (slots n a z) /\
    forall x, ~ a <= x < a + (Z.of_nat n + 1) * z -> m' x = ram s x) s.
Proof.
  intros Hz. induction n as [|n IH]; intros a s Hlo Hhi Ha; cbn [thread_slots].
  - apply wp_store64; [lia..|]. eexists. split; [done|]. split.
    + cbn. split_and!; [done|unfold NULL; lia|]. by apply ld64_st64_eq.
    + intros x Hx. apply st64_out. lia.
  - wp_steps. apply wp_store64; [nia..|]. eapply wp_mono; [apply IH; ksimpl; nia|].
    intros [] s' (m' & -> & Hch & Hm). ksimpl. exists m'. split; [done|]. cbn [ram set_ram] in Hm. split.
    + cbn [slots chain]. split_and!; [done|unfold NULL; lia|].
      replace (ld64 m' a) with (a + z); [done|]. symmetry.
      erewrite ld64_ext by (intros x Hx; apply Hm; lia). apply ld64_st64_eq. klia.
    + intros x Hx. rewrite Hm by nia. apply st64_out. nia.
Qed.

(** The free list of an empty slab at [pa]: every slot of the page. *)
Definition page_slots (pa c : Z) : list Z := slots (Z.to_nat (nslots c - 1)) pa (ssz c).

Lemma page_slots_facts pa c : 0 <= c < NR_SIZE_CLASSES ->
  NoDup (page_slots pa c) /\ Z.of_nat (length (page_slots pa c)) = nslots c /\
  (forall x, x ∈ page_slots pa c <-> slot_at pa c x).
Proof.
  intros Hc. destruct (ssz_facts c Hc) as (? & Hmul & ? & _). unfold page_slots. split_and!.
  - apply NoDup_slots. lia.
  - rewrite length_slots. lia.
  - intros x. rewrite elem_slots. unfold slot_at. split.
    + intros (i & ? & ->). split_and!; [nia..|]. replace (pa + i * ssz c - pa) with (i * ssz c) by lia. apply Z.mod_mul. lia.
    + intros (? & ? & Hm). apply Z.mod_divide in Hm as [i Hi]; [|lia]. exists i. nia.
Qed.

(** A page of slots holds no more than [nslots] of them. *)
Lemma slots_bound pa c l : 0 <= c < NR_SIZE_CLASSES -> NoDup l -> (forall x, x ∈ l -> slot_at pa c x) ->
  Z.of_nat (length l) <= nslots c.
Proof.
  intros Hc Hnd Hl. destruct (page_slots_facts pa c Hc) as (? & Hlen & Hm). rewrite <- Hlen. apply inj_le, submseteq_length.
  apply NoDup_submseteq; [done|]. intros x Hx. by apply Hm, Hl.
Qed.

(** The entry of a fresh slab page. *)
Definition slab_entry (c pa : Z) (e : page) : page :=
  mk_page (refcount e) (order e) PG_SLAB c 0 pa None.

Section ops.
Context {inv : kmem -> Prop} {PA : PageAllocator inv kalloc_pages kfree_pages}.
Implicit Types s : kmem.

(** Contract of [slab_create]: no memory, or a fresh page whose slots are free. *)
Definition create_post (c : Z) (s : kmem) (r : option Z) (s' : kmem) : Prop :=
  (r = None /\ s' = s /\ forall k, 0 <= k <= MAX_ORDER -> nr_free (free_areas s k) = 0) \/
  (exists p, r = Some p /\ inv s' /\ same_env s s' /\ live_frame s s' /\
    slab_ok s' c p (page_slots (page_to_pa p) c) /\ next_slab (pages s' p) = None /\
    (forall a k x, live s a k -> covers a k x -> ~ covers (page_to_pa p) 0 x) /\
    (forall a k, live s' a k <-> live s a k \/ (a = page_to_pa p /\ k = 0)) /\
    (forall q, q <> p -> flags (pages s' q) = flags (pages s q))).

Lemma covers_page pa x : covers pa 0 x <-> pa <= x < pa + 4096.
Proof. unfold covers. by change (bsz 0) with 4096. Qed.

(** The page of an address, in a page-aligned block or out of it. *)
Lemma page_of_addr p x : 0 <= p < NR_PAGES -> KERN_BASE <= x < PHYS_STOP ->
  pa_to_page x = p <-> covers (page_to_pa p) 0 x.
Proof.
  intros Hp Hx. rewrite covers_page, page_to_pa_val, pa_to_page_val by done. rewrite KERN_BASE_val in *. mlia.
Qed.

Lemma block_dram s a k x : inv s -> live s a k -> covers a k x -> KERN_BASE <= x < PHYS_STOP.
Proof using PA. intros Hi Hl Hx. destruct (pal_block s a k Hi Hl) as (? & ? & ? & ?). unfold covers in Hx. lia. Qed.

(** Rewriting the slab fields of one page and the bytes of the same page, when it
    is allocated, is a client's right. *)
Lemma client_page s p e m : inv s -> 0 <= p < NR_PAGES -> live s (page_to_pa p) 0 ->
  refcount e = refcount (pages s p) -> order e = order (pages s p) ->
  (forall x, ~ covers (page_to_pa p) 0 x -> m x = ram s x) ->
  inv (set_ram m (set_pages (upd (pages s) p e) s)).
Proof using PA.
  intros Hi Hp Hl Hrc Hor Hm. eapply pal_client; [exact Hi|]. split_and!; try done; ksimpl.
  - intros q. rewrite upd_case. pose proof (pal_u16 s q Hi). case_decide; subst; [|done]. by rewrite Hrc, Hor.
  - intros x Hx. apply Hm. intros Hc. by eapply Hx.
Qed.

Lemma slab_create_spec c s : inv s -> 0 <= c < NR_SIZE_CLASSES -> slot_size (size_classes s c) = ssz c ->
  wp (slab_create c) (create_post c s) s.
Proof using PA.
  intros Hi Hc Hsz. destruct (ssz_facts c Hc) as (? & Hmul & ? & Hdiv & _). unfold slab_create.
  destruct (_ || _) eqn:E; [unfold NR_SIZE_CLASSES in *; lia|clear E].
  wp_steps. eapply wp_mono; [apply (pal_alloc 0 s Hi); klia|].
  intros r s1 [[(-> & -> & Hn)|Hpost] Hi1]; [rewrite Z.eqb_refl; wp_steps; by left|].
  destruct Hpost as (Hr & Henv & Hfr & Hlo & Hhi & Hal & _ & Hrc & Hdisj & Hl & Hfl).
  assert (live s1 r 0) as Hlr by (apply Hl; by right).
  destruct (pal_block s1 r 0 Hi1 Hlr) as (_ & _ & Hb1 & Hb2). change (bsz 0) with 4096 in *.
  destruct (Z.eqb_spec r NULL) as [|_]; [done|].
  pose proof (pa_to_page_range r ltac:(lia)) as Hp. set (p := pa_to_page r) in *.
  assert (page_to_pa p = r) as Hpr by (apply page_to_pa_to_page; [lia|done]).
  do 5 (wp_steps; apply wp_update_page; [done|]; ksimpl; rewrite ?upd_eq).
  wp_steps. apply wp_get_class; [done|]. ksimpl. destruct Henv as [Hfs Hsc]. rewrite Hsc, Hsz.
  wp_steps. apply wp_require; [lia|]. wp_steps. change PG_SIZE with 4096. rewrite Hdiv.
  eapply wp_mono; [apply thread_slots_spec; ksimpl; [lia|lia|nia|klia]|].
  intros [] s' (m' & -> & Hch & Hm). wp_steps. right. exists p. cbn [ram set_ram set_pages] in Hm.
  set (s' := set_ram m' _). set (e := slab_entry c r (pages s1 p)).
  assert (forall q, pages s' q = upd (pages s1) p e q) as Hpg.
  { intros q. unfold s'. ksimpl. rewrite !upd_case. case_decide; [|done]. subst q.
    unfold page_set_next_slab, page_set_free_list, page_set_nr_alloc, page_set_class_idx, page_set_flags.
    cbn [refcount order flags class_idx nr_alloc slab_free_list next_slab].
    rewrite (u8_small c) by (unfold NR_SIZE_CLASSES in *; lia). done. }
  assert (forall x, ~ covers r 0 x -> ram s' x = ram s1 x) as Hram.
  { intros x Hx. apply Hm. rewrite covers_page in Hx. nia. }
  assert (forall a k, live s' a k <-> live s1 a k) as Hl'.
  { intros a k. unfold live, pg. rewrite Hpg, upd_case. case_decide as Hq; [|done]. by rewrite <- Hq. }
  rewrite Hpr. split_and!.
  - done.
  - eapply pal_client; [exact Hi1|]. split_and!; try done.
    + intros q. rewrite Hpg, upd_case. pose proof (pal_u16 s1 q Hi1). case_decide as Hq; [by rewrite <- Hq in *|done].
    + intros x Hx. apply Hram. intros Hcx. by eapply Hx.
  - done.
  - intros a k Ha x Hx. destruct (Hfr a k Ha x Hx) as [Hx1 Hx2].
    assert (~ covers r 0 x) as Hnc by by eapply Hdisj. rewrite Hram, Hx1 by done. split; [done|].
    rewrite <- Hx2. unfold pg. rewrite Hpg, upd_ne; [done|]. intros Heq. apply Hnc. rewrite <- Hpr.
    apply page_of_addr; [done|exact (block_dram s a k x Hi Ha Hx)|done].
  - destruct (page_slots_facts r c Hc) as (Hnd & Hlen & Hel).
    split; rewrite ?Hpr, ?Hpg, ?upd_eq; unfold e; cbn; try done.
    + by apply Hl'.
    + lia.
    + intros x. by rewrite Hel.
  - by rewrite Hpg, upd_eq.
  - done.
  - intros a k. by rewrite Hl', Hl.
  - intros q Hq. rewrite Hpg, upd_ne by done. apply Hfl.
Qed.

(** ** Keeping the slab invariant *)
Lemma slab_page_covered sl fr s c p x : slab_inv sl fr s -> 0 <= c < NR_SIZE_CLASSES -> p ∈ sl c ->
  page_to_pa p <= x < page_to_pa p + 4096 -> covers (page_to_pa p) 0 x /\ pa_to_page x = p.
Proof.
  intros HK Hc Hp Hx. destruct (slab_dram sl fr s HK c p Hc Hp) as (? & _). rewrite covers_page. split; [done|].
  by apply pa_to_page_to_pa.
Qed.

Lemma slab_inv_step sl fr s s' : slab_inv sl fr s -> same_env s s' -> live_frame s s' ->
  (forall a k, live s a k -> live s' a k) -> slab_inv sl fr s'.
Proof.
  intros HK [_ Hsc] Hfr Hl. eapply slab_inv_frame; [done|done|]. intros c p Hc Hp.
  pose proof (so_live _ _ _ _ (ki_slab _ _ _ HK c p Hc Hp)) as Hlp.
  assert (forall x, page_to_pa p <= x < page_to_pa p + 4096 -> ram s' x = ram s x /\ pages s' p = pages s p) as Hx.
  { intros x Hx. destruct (slab_page_covered sl fr s c p x HK Hc Hp Hx) as [Hcov Hpx].
    destruct (Hfr _ _ Hlp x Hcov) as [? Hpg]. unfold pg in Hpg. by rewrite Hpx in Hpg. }
  split_and!; [by apply (Hx (page_to_pa p)); lia|by apply Hl|]. intros x Hx'. by apply Hx.
Qed.

(** Changing one slab: its entry, its free slots and the bytes of its page. *)
Lemma slab_inv_update sl fr fr' s s' c p : slab_inv sl fr s -> 0 <= c < NR_SIZE_CLASSES -> p ∈ sl c ->
  size_classes s' = size_classes s -> next_slab (pages s' p) = next_slab (pages s p) ->
  slab_ok s' c p (fr' p) -> (forall q, q <> p -> fr' q = fr q /\ pages s' q = pages s q) ->
  (forall a k, live s a k -> live s' a k) ->
  (forall x, ~ covers (page_to_pa p) 0 x -> ram s' x = ram s x) -> slab_inv sl fr' s'.
Proof.
  intros HK Hc Hp Hsc Hnx Hok Hfr Hl Hram. split; rewrite ?Hsc; try apply HK.
  - intros c' Hc'. eapply schain_frame; [|by apply HK]. intros q _.
    destruct (decide (q = p)) as [->|Hq]; [done|]. by destruct (Hfr q Hq) as [_ ->].
  - intros c' q Hc' Hq. destruct (decide (q = p)) as [->|Hne].
    + by rewrite (slab_class_unique sl fr s HK c' c p).
    + destruct (Hfr q Hne) as [-> Hpq]. pose proof (ki_slab _ _ _ HK c' q Hc' Hq) as Ho.
      eapply slab_ok_frame; [done..|by apply Hl, Ho|]. intros x Hx. apply Hram. rewrite covers_page.
      rewrite (page_to_pa_val p (proj1 (slab_dram sl fr s HK c p Hc Hp))).
      rewrite (page_to_pa_val q (proj1 (slab_dram sl fr s HK c' q Hc' Hq))) in Hx. lia.
Qed.

Lemma schain_none g h l : schain g h l -> h = None -> l = [].
Proof. destruct l; [done|]. by intros (-> & _) ?. Qed.

(** Prepending a fresh slab to its class. *)
Lemma slab_inv_link sl fr s c p fs : slab_inv sl fr s -> 0 <= c < NR_SIZE_CLASSES ->
  (forall c', 0 <= c' < NR_SIZE_CLASSES -> p ∉ sl c') -> slab_ok s c p fs ->
  slab_inv (upd sl c (p :: sl c)) (upd fr p fs)
    (set_size_classes (upd (size_classes s) c (mk_size_class (slot_size (size_classes s c)) (Some p)))
      (set_pages (upd (pages s) p (page_set_next_slab (slabs (size_classes s c)) (pages s p))) s)).
Proof.
  intros HK Hc Hn Hok.
  assert (forall l, p ∉ l -> forall h, schain (pages s) h l ->
    schain (upd (pages s) p (page_set_next_slab (slabs (size_classes s c)) (pages s p))) h l) as Hsf.
  { intros l Hl h. apply schain_frame. intros q Hq. rewrite upd_ne; [done|]. by intros ->. }
  assert (forall q fs' c', slab_ok s c' q fs' -> slab_ok
     (set_size_classes (upd (size_classes s) c (mk_size_class (slot_size (size_classes s c)) (Some p)))
      (set_pages (upd (pages s) p (page_set_next_slab (slabs (size_classes s c)) (pages s p))) s)) c' q fs') as Hkeep.
  { intros q fs' c' [? Hlv ? ? ? ? ? ? ?]. split; try done; try (ksimpl; rewrite upd_case; by case_decide; subst).
    revert Hlv. unfold live, pg. ksimpl. rewrite upd_case. case_decide as Heq; [by rewrite <- Heq|done]. }
  split; ksimpl.
  - intros c' Hc'. rewrite upd_case. case_decide; subst; cbn; by apply HK.
  - intros c' Hc'. rewrite !upd_case. case_decide; subst; cbn.
    + split; [done|]. rewrite upd_eq. apply Hsf; [by apply Hn|]. by apply HK.
    + apply Hsf; [by apply Hn|]. by apply HK.
  - intros c' Hc'. rewrite upd_case. case_decide; subst; [|by apply HK]. apply NoDup_cons. split; [by apply Hn|by apply HK].
  - intros c' q Hc' Hq. apply Hkeep. destruct (decide (c = c')) as [<-|Hne].
    + rewrite upd_eq in Hq. destruct (decide (p = q)) as [<-|Hpq]; [by rewrite upd_eq|]. rewrite upd_ne by done.
      apply HK; [done|]. apply elem_of_cons in Hq as [->|]; done.
    + rewrite upd_ne in Hq by done. rewrite upd_ne by (intros ->; by apply (Hn c')). by apply HK.
Qed.

(** A step on one page: its slab fields and its bytes. *)
Definition entry_step (p : Z) (s s' : kmem) : Prop :=
  same_env s s' /\ free_areas s' = free_areas s /\ (forall q, q <> p -> pages s' q = pages s q) /\
  (refcount (pages s' p) = refcount (pages s p) /\ order (pages s' p) = order (pages s p) /\
   flags (pages s' p) = flags (pages s p)) /\
  (forall x, ~ covers (page_to_pa p) 0 x -> ram s' x = ram s x).

Lemma entry_step_page p s s' q : entry_step p s s' ->
  refcount (pages s' q) = refcount (pages s q) /\ order (pages s' q) = order (pages s q) /\ flags (pages s' q) = flags (pages s q).
Proof. intros (_ & _ & Hq & Hp & _). destruct (decide (q = p)) as [->|Hne]; [done|]. by rewrite Hq. Qed.

Lemma entry_step_live p s s' a k : entry_step p s s' -> live s' a k <-> live s a k.
Proof.
  intros He. unfold live, pg. destruct (entry_step_page p s s' (pa_to_page a) He) as (-> & -> & _).
  by destruct He as ([-> _] & _).
Qed.

Lemma entry_step_inv p s s' : entry_step p s s' -> inv s -> live s (page_to_pa p) 0 -> inv s'.
Proof using PA.
  intros He Hi Hl. eapply pal_client; [exact Hi|]. pose proof (fun q => entry_step_page p s s' q He) as Hq.
  destruct He as ([? _] & ? & _ & _ & Hram). split_and!; try done.
  - intros q. destruct (Hq q) as (-> & -> & _). by pose proof (pal_u16 s q Hi).
  - intros x Hx. apply Hram. intros Hc. by eapply Hx.
Qed.

(** Taking the first free slot. *)
Lemma pop_slot_spec sl fr s c p x fs : slab_inv sl fr s -> 0 <= c < NR_SIZE_CLASSES -> p ∈ sl c -> fr p = x :: fs ->
  wp (pop_slot p) (fun r s' => r = x /\ slab_inv sl (upd fr p fs) s' /\
    ram s' = ram s /\ entry_step p s s') s.
Proof.
  intros HK Hc Hp Hfr. pose proof (ki_slab _ _ _ HK c p Hc Hp) as Ho. rewrite Hfr in Ho.
  destruct (slab_dram sl fr s HK c p Hc Hp) as (Hr & ? & ? & _ & ?). destruct (ssz_facts c Hc) as (? & _ & ? & _).
  destruct (so_chain _ _ _ _ Ho) as (Hx & Hx0 & Hch).
  destruct (so_slots _ _ _ _ Ho x (list_elem_of_here _ _)) as (? & ? & _).
  unfold pop_slot. wp_steps. apply wp_get_page; [done|]. wp_steps. apply wp_update_page; [done|]. ksimpl.
  wp_steps. rewrite Hx. apply wp_load64; ksimpl; [lia..|]. wp_steps. apply wp_update_page; [done|]. ksimpl. wp_steps.
  split; [done|]. rewrite upd_eq.
  set (e := page_set_free_list _ _). set (s' := set_pages _ _).
  assert (forall q, pages s' q = upd (pages s) p e q) as Hpg.
  { intros q. unfold s'. ksimpl. rewrite !upd_case. by case_decide. }
  assert (forall a k, live s a k -> live s' a k) as Hl.
  { intros a k. unfold live, pg. rewrite Hpg, upd_case. case_decide as Hq; [by rewrite <- Hq|done]. }
  split.
  - apply (slab_inv_update sl fr _ s s' c p); try done.
    + by rewrite Hpg, upd_eq.
    + rewrite upd_eq. pose proof (so_count _ _ _ _ Ho) as Hcnt. cbn [length] in Hcnt.
      pose proof (slots_bound (page_to_pa p) c (x :: fs) Hc (so_nodup _ _ _ _ Ho) (so_slots _ _ _ _ Ho)) as Hbd. cbn [length] in Hbd.
      destruct Ho as [? ? ? ? ? ? ? Hnd Hs]. apply NoDup_cons in Hnd as [? ?].
      split; rewrite ?Hpg, ?upd_eq; try done; cbn; try (by apply Hl).
      * rewrite u16_small by lia. lia.
      * intros y Hy. apply Hs. by right.
    + intros q Hq. rewrite Hpg, !upd_ne by done. done.
  - split; [done|]. split_and!; try done.
    + intros q Hq. rewrite Hpg. by rewrite upd_ne by done.
    + by rewrite Hpg, upd_eq.
    + by rewrite Hpg, upd_eq.
    + by rewrite Hpg, upd_eq.
Qed.
(** ** Objects *)

(** Taking slot [x] of slab [p] adds one object. *)
Lemma slab_obj_take sl fr1 fr2 s1 s2 c p x fs : slab_inv sl fr1 s1 -> slab_inv sl fr2 s2 ->
  0 <= c < NR_SIZE_CLASSES -> p ∈ sl c -> fr1 p = x :: fs -> fr2 p = fs -> (forall q, q <> p -> fr2 q = fr1 q) ->
  (forall y n, slab_obj s2 y n <-> slab_obj s1 y n \/ (y = x /\ n = ssz c)) /\ forall n, ~ slab_obj s1 x n.
Proof.
  intros H1 H2 Hc Hp E1 E2 Eq. pose proof (ki_slab _ _ _ H1 c p Hc Hp) as Ho. rewrite E1 in Ho.
  destruct Ho as [_ _ _ _ _ _ _ Hnd Hs]. apply NoDup_cons in Hnd as [Hxn _]. pose proof (Hs x (list_elem_of_here _ _)) as Hx.
  split.
  - intros y n. rewrite (slab_obj_spec sl fr1 s1 H1), (slab_obj_spec sl fr2 s2 H2). split.
    + intros (c' & q & Hc' & Hq & Hat & Hy & ->). destruct (decide (q = p)) as [->|Hne].
      * assert (c' = c) as -> by by apply (slab_class_unique sl fr1 s1 H1 c' c p). rewrite E2 in Hy.
        destruct (decide (y = x)) as [->|Hyx]; [by right|]. left. exists c, p. split_and!; try done; try lia.
        rewrite E1. by intros [->|?]%elem_of_cons.
      * left. exists c', q. rewrite <- Eq by done. split_and!; (done || lia).
    + intros [(c' & q & Hc' & Hq & Hat & Hy & ->)|[-> ->]].
      * exists c', q. split_and!; try done; try lia. destruct (decide (q = p)) as [->|Hne]; [|by rewrite Eq].
        rewrite E2. rewrite E1 in Hy. intros ?. apply Hy. by right.
      * exists c, p. rewrite E2. split_and!; (done || lia).
  - intros n (c' & q & Hc' & Hq & Hat & Hy & ->)%(slab_obj_spec sl fr1 s1 H1).
    destruct (slab_page_covered sl fr1 s1 c' q x H1 Hc' Hq) as [_ Hpq].
    { destruct Hat as (? & ? & _). destruct (ssz_facts c' Hc'). lia. }
    destruct (slab_page_covered sl fr1 s1 c p x H1 Hc Hp) as [_ Hpp].
    { destruct Hx as (? & ? & _). destruct (ssz_facts c Hc). lia. }
    apply Hy. rewrite <- Hpq, Hpp, E1. by left.
Qed.

(** Big objects and foreign blocks are allocated blocks told apart by their flags. *)
Lemma flagged_same (P : Z -> Prop) s s' : (forall a k, live s' a k <-> live s a k) ->
  (forall q, flags (pages s' q) = flags (pages s q)) ->
  forall a k, live s' a k /\ P (flags (pg s' a)) <-> live s a k /\ P (flags (pg s a)).
Proof. intros Hl Hf a k. unfold pg. by rewrite Hl, Hf. Qed.

Lemma big_obj_same s s' : (forall a k, live s' a k <-> live s a k) ->
  (forall q, flags (pages s' q) = flags (pages s q)) -> forall y n, big_obj s' y n <-> big_obj s y n.
Proof.
  intros Hl Hf y n. unfold big_obj. split; intros (k & H & H' & ->); exists k; unfold pg in *;
    [rewrite Hl, Hf in *|rewrite Hl, Hf]; done.
Qed.

Lemma foreign_same s s' : (forall a k, live s' a k <-> live s a k) ->
  (forall q, flags (pages s' q) = flags (pages s q)) -> forall a k, foreign s' a k <-> foreign s a k.
Proof. intros Hl Hf a k. unfold foreign, pg. by rewrite Hl, Hf. Qed.

(** A new allocated block at [r], flagged [v]. *)
Section fresh.
Context (s s' : kmem) (r o v : Z).
Context (Hl : forall a k, live s' a k <-> live s a k \/ (a = r /\ k = o)).
Context (Hi : inv s) (Hr : KERN_BASE <= r < PHYS_STOP) (Hal : r mod 4096 = 0) (Hn : forall k, ~ live s r k).
Context (Hf : forall q, q <> pa_to_page r -> flags (pages s' q) = flags (pages s q)).
Context (Hv : flags (pg s' r) = v).

Lemma fresh_flags a k : live s a k -> flags (pg s' a) = flags (pg s a).
Proof using PA Hi Hr Hal Hn Hf.
  intros Ha. unfold pg. apply Hf. intros Heq. destruct (pal_block s a k Hi Ha) as (? & ? & ? & ?).
  pose proof (bsz_ge k ltac:(lia)). apply pa_to_page_inj in Heq as ->; [by eapply Hn|lia|done| |done].
  apply (bsz_aligned_page a k); [lia|done].
Qed.

Lemma fresh_slab : v = PG_SLAB -> (forall y n, big_obj s' y n <-> big_obj s y n) /\ forall a k, foreign s' a k <-> foreign s a k.
Proof using All.
  intros Ev. split; intros a k.
  - split; intros (j & Ha & Hfl & ->); exists j.
    + apply Hl in Ha as [Ha|[-> ->]]; [|by rewrite Hv, Ev in Hfl]. by rewrite <- (fresh_flags a j).
    + split_and!; [apply Hl; by left| |done]. by rewrite (fresh_flags a j).
  - split; intros (Ha & Hfl & Hfl').
    + apply Hl in Ha as [Ha|[-> ->]]; [|by rewrite Hv, Ev in Hfl]. by rewrite (fresh_flags a k) in *.
    + unfold foreign. rewrite (fresh_flags a k) by done. split_and!; try done. apply Hl. by left.
Qed.

Lemma fresh_big : v = PG_BIG -> (forall y n, big_obj s' y n <-> big_obj s y n \/ (y = r /\ n = bsz o)) /\
  (forall a k, foreign s' a k <-> foreign s a k) /\ forall n, ~ big_obj s r n.
Proof using All.
  intros Ev. split_and!.
  - intros a n. split.
    + intros (j & Ha & Hfl & ->). apply Hl in Ha as [Ha|[-> ->]]; [|by right]. left. exists j. by rewrite <- (fresh_flags a j).
    + intros [(j & Ha & Hfl & ->)|[-> ->]].
      * exists j. split_and!; [apply Hl; by left| |done]. by rewrite (fresh_flags a j).
      * exists o. split_and!; try done; [apply Hl; by right|congruence].
  - intros a k. split; intros (Ha & Hfl & Hfl').
    + apply Hl in Ha as [Ha|[-> ->]]; [|by rewrite Hv, Ev in Hfl']. by rewrite (fresh_flags a k) in *.
    + unfold foreign. rewrite (fresh_flags a k) by done. split_and!; try done. apply Hl. by left.
  - intros n (j & Ha & _). by eapply Hn.
Qed.
End fresh.
End ops.
