(* ===== verification/KmallocSpec.v ===== *)
(** The contracts of [kmalloc], [kmfree] and [kmalloc_init], proved against the
    [PageAllocator] interface. *)
From S2P Require Import Prelude Mem Layout Kalloc Buddy KallocInv KallocAlloc KallocFree KallocSpec Kmalloc KmallocInv KmallocProof.

(** The buddy order kmalloc rounds a large request up to. *)
Lemma order_for_spec size : forall fuel o, 0 <= o -> 12 <= o + Z.of_nat fuel ->
  (forall j, 0 <= j < o -> bsz j < size) -> o <= 11 ->
  let r := order_for fuel o size in
  0 <= r <= 11 /\ (forall j, 0 <= j < r -> bsz j < size) /\ (r <= MAX_ORDER -> size <= bsz r).
Proof.
  induction fuel as [|fuel IH]; intros o Ho Hf Hlt Ho'; cbn [order_for]; [lia|].
  rewrite shiftl_bsz by done. destruct ((o <=? MAX_ORDER) && (bsz o <? size)) eqn:E; cbv zeta.
  - apply andb_true_iff in E as [?%Z.leb_le ?%Z.ltb_lt]. apply IH; [lia|lia| |klia].
    intros j Hj. destruct (decide (j = o)) as [->|]; [done|]. apply Hlt. lia.
  - split_and!; [done..|]. apply andb_false_iff in E as [?%Z.leb_gt|?%Z.ltb_ge]; [klia|done].
Qed.

(** Usable size of the object kmalloc returns, and the buddy order it may need. *)
Definition rounded (size n o : Z) : Prop :=
  (size <= MAX_SLAB_SIZE /\ o = 0 /\ exists c, 0 <= c < NR_SIZE_CLASSES /\ n = ssz c /\ size <= ssz c /\
     forall j, 0 <= j < c -> ssz j < size) \/
  (MAX_SLAB_SIZE < size /\ 0 <= o <= MAX_ORDER /\ n = bsz o /\ size <= bsz o /\ forall j, 0 <= j < o -> bsz j < size).

(** Objects and foreign blocks keep their contents. *)
Definition contents_kept (s s' : kmem) : Prop :=
  (forall x n y, obj s x n -> x <= y < x + n -> ram s' y = ram s y) /\
  (forall a k y, foreign s a k -> covers a k y -> ram s' y = ram s y).

(** Contract of kmalloc: NULL only when the page allocator is exhausted, with
    nothing changed, or one new object of [n] bytes. *)
Definition kmalloc_post (n o : Z) (s : kmem) (r : Z) (s' : kmem) : Prop :=
  (r = NULL /\ s' = s /\ forall k, o <= k <= MAX_ORDER -> nr_free (free_areas s k) = 0) \/
  (r <> NULL /\ (forall x m, obj s' x m <-> obj s x m \/ (x = r /\ m = n)) /\ (forall m, ~ obj s r m) /\
   (forall a k, foreign s' a k <-> foreign s a k) /\ contents_kept s s' /\ refcount (pg s' r) = 1).

(** Contract of kmfree: exactly one object goes. *)
Definition kmfree_post (x n : Z) (s s' : kmem) : Prop :=
  (forall y m, obj s' y m <-> obj s y m /\ y <> x) /\ (forall a k, foreign s' a k <-> foreign s a k) /\
  (forall y m z, obj s y m -> y <> x -> y <= z < y + m -> ram s' z = ram s z) /\
  (forall a k z, foreign s a k -> covers a k z -> ram s' z = ram s z).

Section spec.
Context {inv : kmem -> Prop} {PA : PageAllocator inv kalloc_pages kfree_pages}.
Implicit Types s : kmem.

Definition heap_inv (s : kmem) : Prop := inv s /\ exists sl fr, slab_inv sl fr s.

(** An object lies in an allocated block, which its flags identify. *)
Lemma obj_block s x n : heap_inv s -> obj s x n -> exists a k, live s a k /\
  (flags (pg s a) = PG_SLAB \/ flags (pg s a) = PG_BIG) /\ (forall y, x <= y < x + n -> covers a k y) /\ 0 < n.
Proof using PA.
  intros [Hi (sl & fr & HK)] [Ho|(k & Hl & Hf & ->)].
  - apply (slab_obj_spec sl fr s HK) in Ho as (c & p & Hc & Hp & (? & ? & _) & _ & ->).
    pose proof (ki_slab _ _ _ HK c p Hc Hp) as Ho. exists (page_to_pa p), 0. destruct (ssz_facts c Hc).
    destruct (slab_dram sl fr s HK c p Hc Hp) as (Hr & _). split_and!.
    + apply Ho.
    + left. unfold pg. rewrite pa_to_page_to_pa with (p := p) by (done || lia). apply Ho.
    + intros y Hy. rewrite covers_page. lia.
    + lia.
  - exists x, k. destruct (pal_block s x k Hi Hl) as [? _]. split_and!; try done; [by right|].
    pose proof (bsz_ge k). lia.
Qed.

Lemma slab_obj_page s sl fr x n : slab_inv sl fr s -> slab_obj s x n -> exists c p, 0 <= c < NR_SIZE_CLASSES /\ p ∈ sl c /\
  slot_at (page_to_pa p) c x /\ n = ssz c /\ (x ∉ fr p) /\ flags (pg s (page_to_pa p)) = PG_SLAB /\ live s (page_to_pa p) 0.
Proof.
  intros HK (c & p & Hc & Hp & Hat & Hx & ->)%(slab_obj_spec sl fr s HK). exists c, p.
  pose proof (ki_slab _ _ _ HK c p Hc Hp) as Ho. split_and!; try done; try lia; try apply Ho.
  destruct (slab_dram sl fr s HK c p Hc Hp) as (Hr & _).
  unfold pg. rewrite pa_to_page_to_pa with (p := p) by (done || lia). apply Ho.
Qed.

(** Objects are pairwise disjoint. *)
Lemma obj_disjoint s x n y m z : heap_inv s -> obj s x n -> obj s y m ->
  x <= z < x + n -> y <= z < y + m -> x = y /\ n = m.
Proof using PA.
  intros [Hi (sl & fr & HK)] Hx Hy Hzx Hzy.
  assert (forall x n y m, slab_obj s x n -> big_obj s y m -> x <= z < x + n -> y <= z < y + m -> False) as Hsb.
  { clear x n y m Hx Hy Hzx Hzy. intros x n y m (c & p & Hc & Hp & (? & ? & _) & -> & _ & Hfl & Hlp)%(slab_obj_page s sl fr x n HK) (k & Hl & Hf & ->) ? ?.
    destruct (pal_disj s (page_to_pa p) 0 y k z Hi Hlp Hl) as [<- _]; [rewrite covers_page; lia|unfold covers; lia|by rewrite Hfl in Hf]. }
  destruct Hx as [Hx|Hx], Hy as [Hy|Hy]; [|by destruct (Hsb x n y m)|by destruct (Hsb y m x n)|].
  - apply (slab_obj_page s sl fr x n HK) in Hx as (c & p & Hc & Hp & Hat & -> & _ & _ & Hlp).
    apply (slab_obj_page s sl fr y m HK) in Hy as (d & q & Hd & Hq & Hbt & -> & _ & _ & Hlq).
    assert (p = q) as <-.
    { destruct (slab_page_covered sl fr s c p z HK Hc Hp) as [_ <-]; [destruct Hat as (? & ? & _); lia|].
      destruct (slab_page_covered sl fr s d q z HK Hd Hq) as [_ <-]; [destruct Hbt as (? & ? & _); lia|done]. }
    assert (c = d) as <- by by apply (slab_class_unique sl fr s HK c d p).
    destruct (decide (x = y)) as [->|Hne]; [done|]. destruct (slot_apart (page_to_pa p) c x y Hc Hat Hbt Hne); lia.
  - destruct Hx as (k & Hl & _ & ->), Hy as (j & Hl' & _ & ->).
    destruct (pal_disj s x k y j z Hi Hl Hl') as [-> ->]; unfold covers; (done || lia).
Qed.

Lemma obj_foreign s x n a k z : heap_inv s -> obj s x n -> foreign s a k -> x <= z < x + n -> ~ covers a k z.
Proof using PA.
  intros Hh Ho (Hl & Hf1 & Hf2) Hz Hc. destruct (obj_block s x n Hh Ho) as (b & j & Hb & Hf & Hcov & _).
  destruct Hh as [Hi _]. destruct (pal_disj s b j a k z Hi Hb Hl (Hcov z Hz) Hc) as [-> _]. tauto.
Qed.

(** ** kmalloc *)

(** Taking a slot of a slab that has one. *)
Lemma kmalloc_pop sl fr s c p : heap_inv s -> slab_inv sl fr s -> 0 <= c < NR_SIZE_CLASSES -> p ∈ sl c ->
  slab_free_list (pages s p) <> NULL ->
  wp (pop_slot p) (fun r s' => heap_inv s' /\ r <> NULL /\ (forall x m, obj s' x m <-> obj s x m \/ (x = r /\ m = ssz c)) /\
    (forall m, ~ obj s r m) /\ (forall a k, foreign s' a k <-> foreign s a k) /\ ram s' = ram s /\ refcount (pg s' r) = 1) s.
Proof using PA.
  intros Hh HK Hc Hp Hne. pose proof (ki_slab _ _ _ HK c p Hc Hp) as Ho.
  destruct (chain_head _ _ _ (so_chain _ _ _ _ Ho) Hne) as (fs & Hfs & _). set (x := slab_free_list (pages s p)) in *.
  eapply wp_mono; [by apply (pop_slot_spec sl fr s c p x fs)|]. intros r s' (-> & HK' & Hram & Hst).
  assert (forall a k, live s' a k <-> live s a k) as Hl by (intros; by eapply entry_step_live).
  assert (forall q, flags (pages s' q) = flags (pages s q)) as Hf by (intros q; by apply (entry_step_page p s s' q)).
  destruct (slab_obj_take sl fr (upd fr p fs) s s' c p x fs) as [Hso Hnx]; try done;
    [by rewrite upd_eq|by intros q Hq; rewrite upd_ne|].
  split_and!; try done.
  - split; [|by exists sl, (upd fr p fs)]. eapply entry_step_inv; [done|apply Hh|apply Ho].
  - intros y m. unfold obj. rewrite Hso, (big_obj_same s s' Hl Hf). tauto.
  - intros m [Hm|(k & Hm & Hm' & ->)]; [by eapply Hnx|].
    destruct (so_slots _ _ _ _ Ho x ltac:(rewrite Hfs; by left)) as (? & ? & _). destruct (ssz_facts c Hc).
    destruct Hh as [Hi _]. destruct (slab_dram sl fr s HK c p Hc Hp) as (Hr & _).
    destruct (pal_block s x k Hi Hm) as (? & _). pose proof (bsz_ge k).
    destruct (pal_disj s (page_to_pa p) 0 x k x Hi (so_live _ _ _ _ Ho) Hm) as [Heq _];
      [rewrite covers_page; lia|apply covers_self; lia|].
    rewrite <- Heq in Hm'. unfold pg in Hm'. rewrite pa_to_page_to_pa with (p := p) in Hm' by (done || lia).
    by rewrite (so_flags _ _ _ _ Ho) in Hm'.
  - intros a k. by apply foreign_same.
  - destruct (so_slots _ _ _ _ Ho x ltac:(rewrite Hfs; by left)) as (? & ? & _). destruct (ssz_facts c Hc).
    destruct (slab_dram sl fr s HK c p Hc Hp) as (Hr & _). unfold pg.
    rewrite (pa_to_page_to_pa p) by (done || lia). destruct (entry_step_page p s s' p Hst) as (-> & _). apply Ho.
Qed.

(** A fresh slab, prepended to its class, holds no object. *)
Definition linked (c p : Z) (s : kmem) : kmem :=
  set_size_classes (upd (size_classes s) c (mk_size_class (slot_size (size_classes s c)) (Some p)))
    (set_pages (upd (pages s) p (page_set_next_slab (slabs (size_classes s c)) (pages s p))) s).

Lemma linked_step c p s : (forall a k, live (linked c p s) a k <-> live s a k) /\
  (forall q, flags (pages (linked c p s) q) = flags (pages s q)) /\ (inv s -> inv (linked c p s)).
Proof using PA.
  assert (forall q, refcount (pages (linked c p s) q) = refcount (pages s q) /\ order (pages (linked c p s) q) = order (pages s q)
    /\ flags (pages (linked c p s) q) = flags (pages s q)) as Hq.
  { intros q. unfold linked. ksimpl. rewrite upd_case. by case_decide; subst. }
  split_and!.
  - intros a k. unfold live, pg. by destruct (Hq (pa_to_page a)) as (-> & -> & _).
  - intros q. by destruct (Hq q) as (_ & _ & ?).
  - intros Hi. eapply pal_client; [exact Hi|]. split_and!; try done. intros q.
    destruct (Hq q) as (-> & -> & _). by pose proof (pal_u16 s q Hi).
Qed.

(** What a new empty slab means for the clients: nothing. *)
Lemma slab_fresh sl fr s s1 c p : heap_inv s -> slab_inv sl fr s -> 0 <= c < NR_SIZE_CLASSES -> create_post (inv:=inv) c s (Some p) s1 ->
  let s2 := linked c p s1 in
  heap_inv s2 /\ slab_inv (upd sl c (p :: sl c)) (upd fr p (page_slots (page_to_pa p) c)) s2 /\
  slab_free_list (pages s2 p) <> NULL /\ (forall x m, slab_obj s2 x m <-> slab_obj s x m) /\
  (forall x m, big_obj s2 x m <-> big_obj s x m) /\
  (forall a k, foreign s2 a k <-> foreign s a k) /\ live_frame s s1 /\ ram s2 = ram s1.
Proof using PA.
  intros [Hi _] HK Hc [(? & _)|(p' & [= <-] & Hi1 & Henv & Hfr & Hok & Hnx & Hdj & Hl & Hfl)] s2; [done|].
  assert (slab_inv sl fr s1) as HK1 by (eapply slab_inv_step; [done..|]; intros a k Ha; apply Hl; by left).
  assert (forall c', 0 <= c' < NR_SIZE_CLASSES -> p ∉ sl c') as Hnew.
  { intros c' Hc' Hp. pose proof (so_live _ _ _ _ (ki_slab _ _ _ HK c' p Hc' Hp)) as Hlp.
    apply (Hdj _ _ (page_to_pa p) Hlp); rewrite covers_page; lia. }
  pose proof (slab_inv_link sl fr s1 c p _ HK1 Hc Hnew Hok) as HK2. fold (linked c p s1) in HK2. fold s2 in HK2.
  destruct (linked_step c p s1) as (Hl2 & Hf2 & Hi2). fold s2 in Hl2, Hf2, Hi2.
  pose proof (so_page _ _ _ _ Hok) as Hp. pose proof (page_to_pa_val p Hp) as Hpv.
  assert (pa_to_page (page_to_pa p) = p) as Hpp by (apply pa_to_page_to_pa; [done|lia]).
  assert (forall a k, live s2 a k <-> live s a k \/ (a = page_to_pa p /\ k = 0)) as Hl' by (intros; by rewrite Hl2).
  assert (forall k, ~ live s (page_to_pa p) k) as Hnl.
  { intros k Hk. destruct (pal_block s _ k Hi Hk) as [? _]. apply (Hdj _ k (page_to_pa p) Hk); apply covers_self; lia. }
  destruct (fresh_slab s s2 (page_to_pa p) 0 PG_SLAB Hl' Hi) as [Hbig Hfor]; try done.
  { klia. }
  { rewrite Hpv, KERN_BASE_val. mlia. }
  { intros q. rewrite Hpp, Hf2. apply Hfl. }
  { unfold pg. rewrite Hpp, Hf2. apply Hok. }
  split_and!; try done.
  - split; [by apply Hi2|by eexists _, _].
  - unfold s2, linked. ksimpl. rewrite upd_eq. cbn.
    pose proof (so_chain _ _ _ _ Hok) as Hch. intros Hz. rewrite Hz in Hch. apply chain_null in Hch.
    destruct (page_slots_facts (page_to_pa p) c Hc) as (_ & Hlen & _). rewrite Hch in Hlen. cbn in Hlen. destruct (ssz_facts c Hc). lia.
  - intros x m. rewrite (slab_obj_spec _ _ _ HK2), (slab_obj_spec sl fr s HK). split.
    + intros (c' & q & Hc' & Hq & Hat & Hx & ->). destruct (decide (p = q)) as [<-|Hpq].
      * exfalso. rewrite upd_eq in Hx. assert (c' = c) as ->.
        { destruct (decide (c = c')) as [|Hcc]; [done|]. rewrite upd_ne in Hq by done. by destruct (Hnew c'). }
        apply Hx. by apply page_slots_facts.
      * rewrite upd_ne in Hx by done. exists c', q. split_and!; try (done || lia).
        rewrite upd_case in Hq. case_decide; subst; [|done]. by apply elem_of_cons in Hq as [->|].
    + intros (c' & q & Hc' & Hq & Hat & Hx & ->). exists c', q. split_and!; try (done || lia).
      * rewrite upd_case. case_decide; subst; [by right|done].
      * rewrite upd_ne; [done|]. intros ->. by apply (Hnew c').
Qed.

Lemma contents_frame s s' : heap_inv s -> live_frame s s' -> contents_kept s s'.
Proof using PA.
  intros Hh Hfr. split.
  - intros x n y Ho Hy. destruct (obj_block s x n Hh Ho) as (a & k & Ha & _ & Hcov & _). by destruct (Hfr a k Ha y (Hcov y Hy)).
  - intros a k y (Ha & _) Hy. by destruct (Hfr a k Ha y Hy).
Qed.

Lemma kmalloc_big s size o : heap_inv s -> MAX_SLAB_SIZE < size -> o = order_for 12 0 size -> o <= MAX_ORDER ->
  wp (kmalloc size) (fun r s' => heap_inv s' /\ kmalloc_post (bsz o) o s r s') s.
Proof using PA.
  intros Hh Hs Heq Ho. pose proof Hh as [Hi (sl & fr & HK)].
  destruct (order_for_spec size 12 0) as (Ho' & _ & _); [lia..|]. rewrite <- Heq in Ho'.
  unfold kmalloc. destruct (Z.eqb_spec size 0) as [->|_]; [by cbn in Hs|].
  destruct (Z.ltb_spec MAX_SLAB_SIZE size); [|lia]. rewrite <- Heq. cbv zeta.
  destruct (Z.ltb_spec MAX_ORDER o); [lia|].
  wp_steps. eapply wp_mono; [apply (pal_alloc o s Hi); lia|].
  intros r s1 [[(-> & -> & Hn)|Hpost] Hi1]; [rewrite Z.eqb_refl; wp_steps; split; [done|by left]|].
  destruct Hpost as (Hr & Henv & Hfr & Hlo & Hhi & Hal & _ & Hrc & Hdisj & Hl & Hfl).
  assert (live s1 r o) as Hlr by (apply Hl; by right).
  destruct (pal_block s1 r o Hi1 Hlr) as (_ & _ & Hb1 & Hb2). pose proof (bsz_ge o ltac:(lia)) as Hge.
  pose proof (bsz_aligned_page r o ltac:(lia) Hal) as Hpal.
  destruct (Z.eqb_spec r NULL) as [|_]; [done|].
  pose proof (pa_to_page_range r ltac:(lia)) as Hp.
  wp_steps. apply wp_update_page; [done|]. wp_steps. set (s' := set_pages _ _).
  assert (forall q, refcount (pages s' q) = refcount (pages s1 q) /\ order (pages s' q) = order (pages s1 q)) as Hq.
  { intros q. unfold s'. ksimpl. rewrite upd_case. case_decide as Hq; [by rewrite <- Hq|done]. }
  assert (forall a k, live s' a k <-> live s1 a k) as Hl1.
  { intros a k. unfold live, pg. by destruct (Hq (pa_to_page a)) as [-> ->]. }
  assert (forall k, ~ live s r k) as Hnl.
  { intros k Hk. destruct (pal_block s r k Hi Hk) as [? _]. apply (Hdisj r k r Hk); apply covers_self; lia. }
  destruct (fresh_big s s' r o PG_BIG) as (Hbig & Hfor & Hnb); try done.
  { intros a k. by rewrite Hl1. }
  { lia. }
  { intros q Hne. unfold s'. ksimpl. rewrite upd_ne by congruence. apply Hfl. }
  { unfold s', pg. ksimpl. by rewrite upd_eq. }
  assert (live_frame s s') as Hfr'.
  { intros a k Ha x Hx. destruct (Hfr a k Ha x Hx) as [Hx1 Hx2]. split; [done|]. rewrite <- Hx2. unfold pg, s'. ksimpl.
    rewrite upd_ne; [done|]. intros Heqp. apply (Hdisj a k x Ha Hx).
    pose proof (block_dram s a k x Hi Ha Hx). rewrite !pa_to_page_val, KERN_BASE_val in Heqp by lia. rewrite KERN_BASE_val in *. unfold covers. mlia. }
  assert (slab_inv sl fr s') as HK'.
  { eapply slab_inv_step; [exact HK|done|done|]. intros a k Ha. apply Hl1, Hl. by left. }
  assert (forall x m, slab_obj s' x m <-> slab_obj s x m) as Hso.
  { intros x m. by rewrite (slab_obj_spec sl fr s' HK'), (slab_obj_spec sl fr s HK). }
  split.
  - split; [|by exists sl, fr]. eapply pal_client; [exact Hi1|]. split_and!; try done.
    intros q. destruct (Hq q) as [-> ->]. by pose proof (pal_u16 s1 q Hi1).
  - right. split_and!; try done; [| |by apply contents_frame|by unfold pg; destruct (Hq (pa_to_page r)) as [-> _]].
    + intros x m. unfold obj. rewrite Hso, Hbig. tauto.
    + intros m [Hm|Hm]; [|by eapply Hnb].
      apply (slab_obj_page s sl fr r m HK) in Hm as (c & p & Hc & Hpc & (? & ? & _) & -> & _ & _ & Hlp).
      destruct (ssz_facts c Hc). apply (Hdisj _ _ r Hlp); [rewrite covers_page; lia|apply covers_self; lia].
Qed.

Lemma kmalloc_small s size : heap_inv s -> 0 < size <= MAX_SLAB_SIZE ->
  wp (kmalloc size) (fun r s' => heap_inv s' /\ exists n, rounded size n 0 /\ kmalloc_post n 0 s r s') s.
Proof using PA.
  intros Hh Hs. pose proof Hh as [Hi (sl & fr & HK)]. unfold kmalloc.
  destruct (Z.eqb_spec size 0) as [->|_]; [lia|]. destruct (Z.ltb_spec MAX_SLAB_SIZE size) as [|_]; [lia|].
  wp_steps. eapply wp_mono; [apply size_to_class_from_spec; [apply HK|unfold MAX_SLAB_SIZE in *; lia|done|done|]; intros; lia|].
  intros c s1 (-> & Hc & Hfit & Hmin).
  assert (rounded size (ssz c) 0) as Hrd by (left; split_and!; [lia|done|]; by exists c).
  wp_steps. apply wp_get_class; [done|]. wp_steps.
  eapply wp_mono; [apply (find_slab_spec s (sl c)); [by apply HK|intros p Hp; by apply (slab_dram sl fr s HK c p)|]|].
  { pose proof (slab_length sl fr s HK c Hc). unfold list_fuel. klia. }
  intros [p|] s1 (-> & Hres).
  - destruct Hres as [Hp Hne]. eapply wp_mono; [by apply (kmalloc_pop sl fr s c p)|].
    intros r s' (Hh' & Hr & Hobj & Hnew & Hfor & Hram & Hrc). split; [done|]. exists (ssz c). split; [done|]. right.
    split_and!; try done. split; intros; by rewrite Hram.
  - clear Hres. wp_steps. eapply wp_mono; [apply (slab_create_spec c s Hi Hc); by apply HK|].
    intros new s1 Hcr. destruct new as [p|].
    + pose proof (slab_fresh sl fr s s1 c p Hh HK Hc Hcr) as (Hh2 & HK2 & Hne & Hso2 & Hbo2 & Hfor2 & Hfr & Hram2).
      assert (forall x m, obj (linked c p s1) x m <-> obj s x m) as Hobj2 by (intros; unfold obj; by rewrite Hso2, Hbo2).
      destruct Hcr as [(? & _)|(p' & [= <-] & _ & _ & _ & Hok & _)]; [done|].
      wp_steps. apply wp_get_class; [done|]. wp_steps. apply wp_update_page; [apply Hok|]. wp_steps.
      apply wp_set_class; [done|]. ksimpl. fold (linked c p s1).
      eapply wp_mono; [apply (kmalloc_pop _ _ _ c p Hh2 HK2 Hc); [rewrite upd_eq; by left|done]|].
      intros r s' (Hh' & Hr & Hobj & Hnew & Hfor & Hram & Hrc). split; [done|]. exists (ssz c). split; [done|]. right.
      pose proof (contents_frame s s1 Hh Hfr) as [Hc1 Hc2]. split_and!; try done.
      * intros x m. by rewrite Hobj, Hobj2.
      * intros m. rewrite <- Hobj2. apply Hnew.
      * intros a k. by rewrite Hfor, Hfor2.
      * split; intros; rewrite Hram, Hram2; [by eapply Hc1|by eapply Hc2].
    + destruct Hcr as [(_ & -> & Hn)|(p' & ? & _)]; [|done]. wp_steps. split; [done|]. exists (ssz c). split; [done|]. by left.
Qed.
End spec.
