(* ===== verification/KmallocFree.v ===== *)
(** [kmfree] and [slab_destroy] meet their contracts. *)
From S2P Require Import Prelude Mem Layout Kalloc Buddy KallocInv KallocAlloc KallocFree KallocSpec Kmalloc KmallocInv KmallocProof KmallocSpec.

(** ** Searching and unlinking in a slab list *)
Definition slink_before (ps : slink) (l1 : list Z) : slink :=
  match last l1 with Some q => SNext q | None => ps end.

Lemma load_shead s c : 0 <= c < NR_SIZE_CLASSES -> load_slink (SHead c) s = Ok (slabs (size_classes s c), s).
Proof.
  intros. pose proof (wp_get_class c (fun v s' => v = size_classes s c /\ s' = s) s) as H'.
  destruct (wp_elim _ _ _ (H' ltac:(lia) ltac:(done))) as (v & s' & Hg & -> & ->).
  unfold load_slink, mbind, M_bind. by rewrite Hg.
Qed.

Lemma load_snext s p : 0 <= p < NR_PAGES -> load_slink (SNext p) s = Ok (next_slab (pages s p), s).
Proof.
  intros. pose proof (wp_get_page p (fun v s' => v = pages s p /\ s' = s) s) as H'.
  destruct (wp_elim _ _ _ (H' ltac:(lia) ltac:(done))) as (v & s' & Hg & -> & ->).
  unfold load_slink, mbind, M_bind. by rewrite Hg.
Qed.

Lemma find_slink_spec s t l2 : forall l1 fuel ps h,
  load_slink ps s = Ok (h, s) -> schain (pages s) h (l1 ++ t :: l2) -> t ∉ l1 ->
  (forall q, q ∈ l1 -> 0 <= q < NR_PAGES) -> (length l1 < fuel)%nat ->
  wp (find_slink fuel ps t) (fun r s' => s' = s /\ r = (slink_before ps l1, Some t)) s.
Proof.
  induction l1 as [|a l1 IH]; intros [|fuel] ps h Hh Hc Ht Hr Hf; cbn [length] in Hf; try lia; cbn [find_slink];
    apply wp_bind; eapply wp_intro; try exact Hh; destruct Hc as (-> & Hc).
  - rewrite Z.eqb_refl. by wp_steps.
  - apply not_elem_of_cons in Ht as [Hne Ht]. destruct (Z.eqb_spec a t) as [|_]; [done|].
    eapply wp_mono; [eapply IH; [apply load_snext; apply Hr; by left|done|done| |lia]; intros q Hq; apply Hr; by right|].
    intros r s' [-> ->]. split; [done|]. unfold slink_before. rewrite last_cons. by destruct (last l1).
Qed.

(** Unlinking behind a predecessor. *)
Lemma schain_unlink g q t l2 : forall l1 h, NoDup (l1 ++ q :: t :: l2) -> schain g h (l1 ++ q :: t :: l2) ->
  schain (upd g q (page_set_next_slab (next_slab (g t)) (g q))) h (l1 ++ q :: l2).
Proof.
  induction l1 as [|a l1 IH]; intros h Hnd Hc; cbn [app] in *; destruct Hc as (-> & Hc); (split; [done|]).
  - destruct Hc as (_ & Hc). apply NoDup_cons in Hnd as [Hq Hnd]. rewrite upd_eq. cbn.
    eapply schain_frame; [|exact Hc]. intros p Hp. rewrite upd_ne; [done|]. intros ->. apply Hq. by right.
  - apply NoDup_cons in Hnd as [Ha Hnd]. rewrite upd_ne; [by apply IH|]. intros ->. apply Ha. set_solver.
Qed.

Section free.
Context {inv : kmem -> Prop} {PA : PageAllocator inv kalloc_pages kfree_pages}.
Implicit Types s : kmem.

(** ** slab_destroy *)

(** The state behind the unlinking of slab [p] from class [c]. *)
Record detached (sl : Z -> list Z) (c p : Z) (l' : list Z) (s s' : kmem) : Prop := {
  dt_step : (forall a k, live s' a k <-> live s a k) /\ (forall q, flags (pages s' q) = flags (pages s q)) /\
    (forall q, refcount (pages s' q) = refcount (pages s q) /\ order (pages s' q) = order (pages s q));
  dt_ram : ram s' = ram s;
  dt_env : free_start s' = free_start s /\ free_areas s' = free_areas s;
  dt_entry : forall q, exists v, pages s' q = page_set_next_slab v (pages s q);
  dt_size : forall d, slot_size (size_classes s' d) = slot_size (size_classes s d);
  dt_chain : schain (pages s') (slabs (size_classes s' c)) l';
  dt_other : forall d, d <> c -> slabs (size_classes s' d) = slabs (size_classes s d);
  dt_next : forall q, q ∉ sl c -> pages s' q = pages s q
}.

Lemma detach_spec sl fr s c p l1 l2 : slab_inv sl fr s -> 0 <= c < NR_SIZE_CLASSES -> sl c = l1 ++ p :: l2 ->
  wp (store_slink (slink_before (SHead c) l1) (next_slab (pages s p))) (fun _ => detached sl c p (l1 ++ l2) s) s.
Proof.
  intros HK Hc Hsl. pose proof (ki_slabs _ _ _ HK c Hc) as Hch. pose proof (ki_nodup _ _ _ HK c Hc) as Hnd. rewrite Hsl in *.
  unfold slink_before. destruct (last l1) as [q|] eqn:E; cbn [store_slink].
  - apply last_Some in E as [l0 ->]. rewrite <- app_assoc in Hch, Hnd. cbn [app] in Hch, Hnd.
    assert (q ∈ sl c) as Hq by (rewrite Hsl; set_solver).
    apply wp_update_page; [by apply (slab_dram sl fr s HK c q)|].
    pose proof (schain_unlink _ _ _ _ _ _ Hnd Hch) as Hch'. rewrite <- app_assoc. cbn [app].
    assert (forall r, exists v, upd (pages s) q (page_set_next_slab (next_slab (pages s p)) (pages s q)) r = page_set_next_slab v (pages s r)) as He.
    { intros r. rewrite upd_case. case_decide as Hr; [rewrite <- Hr; by eexists|exists (next_slab (pages s r)); by destruct (pages s r)]. }
    split; ksimpl; try done.
    + assert (forall r, refcount (upd (pages s) q (page_set_next_slab (next_slab (pages s p)) (pages s q)) r) = refcount (pages s r) /\
        order (upd (pages s) q (page_set_next_slab (next_slab (pages s p)) (pages s q)) r) = order (pages s r) /\
        flags (upd (pages s) q (page_set_next_slab (next_slab (pages s p)) (pages s q)) r) = flags (pages s r)) as Hr.
      { intros r. by destruct (He r) as [v ->]. }
      split_and!; [|intros r; by apply Hr|intros r; by split; apply Hr].
      intros a k. unfold live, pg. ksimpl. by destruct (Hr (pa_to_page a)) as (-> & -> & _).
    + intros r Hr. rewrite upd_ne; [done|]. by intros ->.
  - apply last_None in E as ->. cbn [app] in *. destruct Hch as (Hh & Hch).
    wp_steps. apply wp_get_class; [done|]. apply wp_set_class; [done|].
    split; ksimpl; try done.
    + intros q. exists (next_slab (pages s q)). by destruct (pages s q).
    + intros d. rewrite upd_case. by case_decide; subst.
    + by rewrite upd_eq.
    + intros d Hd. by rewrite upd_ne.
Qed.

Lemma detached_inv sl fr s s' c p l1 l2 : slab_inv sl fr s -> 0 <= c < NR_SIZE_CLASSES -> sl c = l1 ++ p :: l2 ->
  detached sl c p (l1 ++ l2) s s' -> slab_inv (upd sl c (l1 ++ l2)) fr s'.
Proof.
  intros HK Hc Hsl [(Hl & Hf & Hro) Hram _ He Hsz Hch Hoth Hnx].
  pose proof (ki_nodup _ _ _ HK c Hc) as Hnd. rewrite Hsl in Hnd.
  assert (forall q, q ∈ l1 ++ l2 -> q ∈ sl c) as Hsub by (intros q; rewrite Hsl; set_solver).
  split.
  - intros d Hd. rewrite Hsz. by apply HK.
  - intros d Hd. rewrite upd_case. case_decide as Hcd; [by subst|]. rewrite Hoth by done.
    eapply schain_frame; [|by apply HK]. intros q Hq. rewrite Hnx; [done|]. intros Hq'. apply Hcd.
    by apply (slab_class_unique sl fr s HK c d q).
  - intros d Hd. rewrite upd_case. case_decide; [subst|by apply HK].
    apply NoDup_app in Hnd as (? & Hd1 & Hnd2). apply NoDup_cons in Hnd2 as [? ?]. apply NoDup_app. split_and!; try done.
    intros q Hq1 Hq2. eapply Hd1; [done|by right].
  - intros d q Hd Hq. assert (q ∈ sl d) as Hqd by (rewrite upd_case in Hq; case_decide; subst; [by apply Hsub|done]).
    destruct (ki_slab _ _ _ HK d q Hd Hqd). destruct (He q) as [v Hv].
    split; rewrite ?Hv, ?Hram; try done. by apply Hl.
Qed.

(** Releasing an object: pages that are no slabs stay as they are. *)
Definition no_slab (s : kmem) (a : Z) : Prop := forall c p, slab_page s c p -> page_to_pa p <> a.
Record page_given (s s' : kmem) : Prop := {
  gv_start : free_start s' = free_start s;
  gv_live : forall a k, live s' a k -> live s a k;
  gv_kept : forall a k, live s a k -> no_slab s a -> live s' a k /\ refcount (pg s' a) = refcount (pg s a) /\ forall x, covers a k x -> ram s' x = ram s x;
  gv_slabs : forall c p, slab_page s' c p -> slab_page s c p;
  gv_still : forall c p k, slab_page s c p -> live s' (page_to_pa p) k -> slab_page s' c p
}.
Lemma page_given_refl s : page_given s s.
Proof using Type. by split. Qed.
Lemma page_given_trans s1 s2 s3 : page_given s1 s2 -> page_given s2 s3 -> page_given s1 s3.
Proof using Type.
  intros [F1 L1 K1 S1 T1] [F2 L2 K2 S2 T2]. split; [congruence|auto| |auto|eauto]. intros a k Ha Hn. destruct (K1 a k Ha Hn) as (Ha2 & Hr & Hm).
  destruct (K2 a k Ha2) as (Ha3 & Hr' & Hm'); [intros c p Hp; by apply (Hn c p), S1|]. split_and!; [done|congruence|]. intros x Hx. rewrite Hm', Hm; done.
Qed.

(** Releasing a block leaves every other block as it is. *)
Section gone.
Context (s s' : kmem) (pa o : Z) (Hi : inv s) (Hlp : live s pa o).
Context (Hl : forall a k, live s' a k <-> live s a k /\ a <> pa).
Context (Hf : forall q, q <> pa_to_page pa -> flags (pages s' q) = flags (pages s q)).

Lemma gone_flags a k : live s a k -> a <> pa -> flags (pg s' a) = flags (pg s a).
Proof using PA Hi Hlp Hf.
  intros Ha Hne. apply Hf. intros Heq. apply Hne. destruct (pal_block s a k Hi Ha) as (? & ? & ? & ?).
  destruct (pal_block s pa o Hi Hlp) as (? & ? & ? & ?). pose proof (bsz_ge k ltac:(lia)). pose proof (bsz_ge o ltac:(lia)).
  apply pa_to_page_inj; [lia|lia| | |done]; [apply (bsz_aligned_page a k)|apply (bsz_aligned_page pa o)]; (done || lia).
Qed.

Lemma gone_big y n : big_obj s' y n <-> big_obj s y n /\ y <> pa.
Proof using PA Hi Hlp Hl Hf.
  split.
  - intros (k & [Ha Hne]%Hl & Hfl & ->). split; [|done]. exists k. by rewrite <- (gone_flags y k).
  - intros [(k & Ha & Hfl & ->) Hne]. exists k. rewrite (gone_flags y k) by done. split_and!; try done. by apply Hl.
Qed.

Lemma gone_foreign a k : foreign s' a k <-> foreign s a k /\ a <> pa.
Proof using PA Hi Hlp Hl Hf.
  split.
  - intros ([Ha Hne]%Hl & Hfl). split; [|done]. rewrite (gone_flags a k) in Hfl by done. by split.
  - intros [(Ha & Hfl) Hne]. split; [by apply Hl|]. by rewrite (gone_flags a k) by done.
Qed.
End gone.

(** A slab whose slots are all free holds no object. *)
Lemma full_slab_free s c p fs x : slab_ok s c p fs -> 0 <= c < NR_SIZE_CLASSES -> Z.of_nat (length fs) = nslots c ->
  slot_at (page_to_pa p) c x -> x ∈ fs.
Proof.
  intros Ho Hc Hfull Hx. pose proof (page_slots_facts (page_to_pa p) c Hc) as (Hnds & Hls & Hels).
  assert (fs ≡ₚ page_slots (page_to_pa p) c) as ->; [|by apply Hels].
  apply submseteq_length_Permutation; [|lia]. apply NoDup_submseteq; [apply Ho|].
  intros z Hz. by apply Hels, (so_slots _ _ _ _ Ho).
Qed.

Section release.
Context (sl fr : Z -> list Z) (s s1 : kmem) (c p : Z) (l1 l2 : list Z).
Context (Hh : heap_inv (inv:=inv) s) (HK : slab_inv sl fr s) (Hc : 0 <= c < NR_SIZE_CLASSES).
Context (Hsl : sl c = l1 ++ p :: l2) (Hfull : Z.of_nat (length (fr p)) = nslots c).
Context (Hdt : detached sl c p (l1 ++ l2) s s1).

Lemma rel_slab : p ∈ sl c /\ slab_ok s c p (fr p) /\ 0 <= p < NR_PAGES /\ pa_to_page (page_to_pa p) = p.
Proof using HK Hc Hsl.
  clear Hdt Hfull Hh PA s1 inv.
  assert (p ∈ sl c) as Hp by (rewrite Hsl; set_solver). pose proof (ki_slab _ _ _ HK c p Hc Hp) as Ho.
  pose proof (so_page _ _ _ _ Ho). split_and!; try done; try lia. apply pa_to_page_to_pa; [done|lia].
Qed.

Lemma rel_not_in d : 0 <= d < NR_SIZE_CLASSES -> p ∉ upd sl c (l1 ++ l2) d.
Proof using HK Hc Hsl.
  clear Hdt Hfull Hh PA s1 inv.
  intros Hd. pose proof (ki_nodup _ _ _ HK c Hc) as Hnd. rewrite Hsl in Hnd.
  apply NoDup_app in Hnd as (_ & Hd1 & Hnd2). apply NoDup_cons in Hnd2 as [? _]. rewrite upd_case. case_decide as Hcd.
  - intros [Hin|Hin]%elem_of_app; [|done]. eapply Hd1; [done|by left].
  - intros Hpd. apply Hcd. apply (slab_class_unique sl fr s HK c d p); try done. apply rel_slab.
Qed.

(** The objects of the remaining slabs are the objects of all the slabs. *)
Lemma rel_slab_obj s3 : slab_inv (upd sl c (l1 ++ l2)) fr s3 -> forall y m, slab_obj s3 y m <-> slab_obj s y m.
Proof using HK Hc Hsl Hfull.
  clear Hdt Hh PA s1 inv.
  intros HK3 y m. rewrite (slab_obj_spec _ _ _ HK3), (slab_obj_spec _ _ _ HK).
  split; intros (d & q & Hd & Hq & Hat & Hx & ->); exists d, q; split_and!; try (done || lia).
  - rewrite upd_case in Hq. case_decide as Hcd; [|done]. rewrite <- Hcd, Hsl. set_solver.
  - rewrite upd_case. case_decide as Hcd; [|done]. subst d.
    rewrite Hsl in Hq. assert (q <> p); [|set_solver]. intros ->. apply Hx.
    apply (full_slab_free s c p); try done. apply rel_slab.
Qed.

Lemma release_spec :
  wp (update_page p (page_set_flags 0);; kfree (page_to_pa p)) (fun _ s3 =>
    inv s3 /\ slab_inv (upd sl c (l1 ++ l2)) fr s3 /\
    (forall a k, live s3 a k <-> live s a k /\ a <> page_to_pa p) /\
    (forall q, q <> p -> flags (pages s3 q) = flags (pages s q)) /\
    (forall a k x, live s a k -> a <> page_to_pa p -> covers a k x -> ram s3 x = ram s x) /\
    free_start s3 = free_start s /\ (forall q, q <> p -> refcount (pages s3 q) = refcount (pages s q))) s1.
Proof using All.
  destruct Hh as [Hi _]. destruct rel_slab as (Hp & Ho & Hr & Hpp).
  pose proof (detached_inv sl fr s s1 c p l1 l2 HK Hc Hsl Hdt) as HK1.
  destruct Hdt as [(Hl1 & Hf1 & Hro1) Hram1 (Hfs1 & Hfa1) _ _ _ _ _].
  wp_steps. apply wp_update_page; [done|]. set (s2 := set_pages _ _).
  assert (forall q, refcount (pages s2 q) = refcount (pages s q) /\ order (pages s2 q) = order (pages s q)) as Hro2.
  { intros q. unfold s2. ksimpl. destruct (Hro1 q) as [<- <-]. rewrite upd_case. case_decide as Hq; [by rewrite <- Hq|done]. }
  assert (forall a k, live s2 a k <-> live s a k) as Hl2.
  { intros a k. unfold live, pg. destruct (Hro2 (pa_to_page a)) as [-> ->]. change (free_start s2) with (free_start s1). by rewrite Hfs1. }
  assert (inv s2) as Hi2.
  { eapply pal_client; [exact Hi|]. split_and!; try done.
    - intros q. destruct (Hro2 q) as [-> ->]. by pose proof (pal_u16 s q Hi).
    - intros x _. change (ram s2) with (ram s1). by rewrite Hram1. }
  eapply wp_mono; [apply (pal_free (page_to_pa p) 0 s2 Hi2); [apply Hl2, Ho|]|].
  { unfold pg. rewrite Hpp. destruct (Hro2 p) as [-> _]. apply Ho. }
  intros [] s3 ((Henv & Hpg3 & Hl3 & Hram3) & Hi3). rewrite Hpp in Hpg3. split_and!; try done.
  - eapply slab_inv_frame; [exact HK1|by destruct Henv as [_ ->]|]. intros d q Hd Hq.
    pose proof (ki_slab _ _ _ HK1 d q Hd Hq) as Hoq.
    assert (q <> p) as Hqp by (intros ->; by eapply rel_not_in).
    assert (page_to_pa q <> page_to_pa p) as Hqp'.
    { pose proof (so_page _ _ _ _ Hoq). rewrite !page_to_pa_val by done. lia. }
    assert (live s2 (page_to_pa q) 0) as Hlq by (apply Hl2, Hl1, Hoq). split_and!.
    + rewrite Hpg3, upd_ne by done. unfold s2. ksimpl. by rewrite upd_ne.
    + by apply Hl3.
    + intros x Hx. by apply (Hram3 (page_to_pa q) 0 x); [|done|rewrite covers_page].
  - intros a k. by rewrite Hl3, Hl2.
  - intros q Hq. rewrite Hpg3, upd_ne by congruence. unfold s2. ksimpl. by rewrite upd_ne by congruence.
  - intros a k x Ha Hne Hx. rewrite (Hram3 a k x); [|by apply Hl2|done|done]. change (ram s2) with (ram s1). by rewrite Hram1.
  - destruct Henv as [-> _]. exact Hfs1.
  - intros q Hq. rewrite Hpg3, upd_ne by congruence. apply Hro2.
Qed.

Lemma release_given s3 : slab_inv (upd sl c (l1 ++ l2)) fr s3 ->
  (forall a k, live s3 a k <-> live s a k /\ a <> page_to_pa p) ->
  (forall a k x, live s a k -> a <> page_to_pa p -> covers a k x -> ram s3 x = ram s x) ->
  free_start s3 = free_start s -> (forall q, q <> p -> refcount (pages s3 q) = refcount (pages s q)) -> page_given s s3.
Proof using Hh HK Hc Hsl PA.
  clear Hdt Hfull s1.
  intros HK3 Hl3 Hram Hfs Hrc. destruct Hh as [Hi _]. destruct rel_slab as (Hp & Ho & Hr & Hpp). split; [done|intros a k Ha; by apply Hl3| | |].
  - intros a k Ha Hn. assert (a <> page_to_pa p) as Hne by (intros ->; apply (Hn c p); [by apply (slab_page_spec sl fr s HK)|done]). destruct (pal_block s a k Hi Ha) as (? & ? & ? & ?). pose proof (bsz_ge k ltac:(lia)).
    split_and!; [by apply Hl3| |intros x Hx; by apply (Hram a k)]. apply Hrc. intros Heq. apply Hne. rewrite <- Heq. symmetry. apply page_to_pa_to_page; [lia|]. by apply (bsz_aligned_page a k); [lia|].
  - intros d q [Hd Hq]%(slab_page_spec _ _ _ HK3). apply (slab_page_spec sl fr s HK). split; [done|]. rewrite upd_case in Hq. case_decide as Hcd; [|done]. rewrite <- Hcd, Hsl. set_solver.
  - intros d q k [Hd Hq]%(slab_page_spec sl fr s HK) Hl. apply (slab_page_spec _ _ _ HK3). split; [done|]. rewrite upd_case. case_decide as Hcd; [|done]. rewrite <- Hcd, Hsl in Hq. apply Hl3 in Hl as [_ Hne]. assert (q <> p) by congruence. set_solver.
Qed.

(** What clients see of the release: nothing. *)
Lemma release_post s3 : inv s3 -> slab_inv (upd sl c (l1 ++ l2)) fr s3 ->
  (forall a k, live s3 a k <-> live s a k /\ a <> page_to_pa p) ->
  (forall q, q <> p -> flags (pages s3 q) = flags (pages s q)) ->
  (forall a k x, live s a k -> a <> page_to_pa p -> covers a k x -> ram s3 x = ram s x) ->
  heap_inv (inv:=inv) s3 /\ (forall y m, obj s3 y m <-> obj s y m) /\ (forall a k, foreign s3 a k <-> foreign s a k) /\ contents_kept s s3.
Proof using All.
  intros Hi3 HK3 Hl3 Hf3 Hram. destruct Hh as [Hi _]. destruct rel_slab as (Hp & Ho & Hr & Hpp).
  pose proof (so_live _ _ _ _ Ho) as Hlp.
  assert (flags (pg s (page_to_pa p)) = PG_SLAB) as Hflp by (unfold pg; rewrite Hpp; apply Ho).
  assert (forall a k, foreign s a k -> a <> page_to_pa p) as Hfne by (intros a k (_ & Hfa & _) ->; done).
  assert (forall q, q <> pa_to_page (page_to_pa p) -> flags (pages s3 q) = flags (pages s q)) as Hf3' by (by rewrite Hpp).
  assert (heap_inv (inv:=inv) s3) as Hh3 by (split; [done|by eexists _, _]).
  assert (forall y m, obj s3 y m <-> obj s y m) as Hobj.
  { intros y m. unfold obj. rewrite (gone_big s s3 (page_to_pa p) 0 Hi Hlp Hl3 Hf3'), (rel_slab_obj s3 HK3).
    assert (big_obj s y m -> y <> page_to_pa p) as Hbn by (intros (k & _ & Hb & _) ->; by rewrite Hflp in Hb). tauto. }
  split_and!; try done.
  - intros a k. rewrite (gone_foreign s s3 (page_to_pa p) 0 Hi Hlp Hl3 Hf3'). naive_solver.
  - split; [|intros a k x Hfo Hx; apply (Hram a k); [apply Hfo|by eapply Hfne|done]].
    intros y m z Hy Hz. destruct (obj_block s3 y m Hh3) as (a & k & [Ha Hne]%Hl3 & _ & Hcov & _); [by apply Hobj|].
    apply (Hram a k z Ha Hne). by apply Hcov.
Qed.
End release.

Lemma slab_destroy_spec sl fr s c p : heap_inv (inv:=inv) s -> slab_inv sl fr s -> 0 <= c < NR_SIZE_CLASSES -> p ∈ sl c ->
  Z.of_nat (length (fr p)) = nslots c ->
  wp (slab_destroy p c) (fun _ s' => heap_inv (inv:=inv) s' /\ (forall y m, obj s' y m <-> obj s y m) /\
    (forall a k, foreign s' a k <-> foreign s a k) /\ contents_kept s s' /\ page_given s s') s.
Proof using PA.
  intros Hh HK Hc Hp Hfull. destruct (list_elem_of_split _ _ Hp) as (l1 & l2 & Hsl).
  pose proof (ki_slabs _ _ _ HK c Hc) as Hch. pose proof (fun q Hq => proj1 (slab_dram sl fr s HK c q Hc Hq)) as Hrng.
  pose proof (slab_length sl fr s HK c Hc) as Hlen.
  pose proof (ki_nodup _ _ _ HK c Hc) as Hnd. rewrite Hsl in Hnd, Hlen. apply NoDup_app in Hnd as (_ & Hnd & _).
  unfold slab_destroy. destruct (_ || _) eqn:E; [unfold NR_SIZE_CLASSES in *; lia|clear E].
  wp_steps. eapply wp_mono; [apply (find_slink_spec s p l2 l1 list_fuel (SHead c) (slabs (size_classes s c)))|].
  { by apply load_shead. }
  { by rewrite <- Hsl. }
  { intros Hin. eapply Hnd; [done|by left]. }
  { intros q Hq. apply Hrng. rewrite Hsl. set_solver. }
  { rewrite length_app in Hlen. cbn [length] in Hlen. unfold list_fuel. klia. }
  intros [ps v] s0 [-> [= -> ->]]. wp_steps. apply wp_get_class; [done|].
  destruct (slabs (size_classes s c)) as [first|] eqn:Efirst.
  2: { apply schain_none in Hch; [|done]. by rewrite Hch in Hp; apply elem_of_nil in Hp. }
  assert (first ∈ sl c) as Hfst. { destruct (sl c) as [|b l]; [by destruct l1|]. destruct Hch as ([= ->] & _). by left. }
  wp_steps. apply wp_get_page; [by apply Hrng|]. destruct (next_slab (pages s first)) as [second|]; [|wp_steps; by split_and!].
  wp_steps. apply wp_get_page; [by apply Hrng|]. wp_steps.
  eapply wp_mono; [by apply (detach_spec sl fr s c p l1 l2)|]. intros [] s1 Hdt.
  eapply wp_mono; [by apply (release_spec sl fr s s1 c p l1 l2)|]. intros [] s3 (? & ? & ? & ? & ? & ? & ?).
  destruct (release_post sl fr s s1 c p l1 l2 Hh HK Hc Hsl Hfull Hdt s3) as (? & ? & ? & ?); [done..|]. split_and!; try done. by apply (release_given sl fr s c p l1 l2).
Qed.

(** ** kmfree *)

(** The slot goes back on the free list of its slab. *)
Definition pushed (c p x : Z) (s : kmem) : kmem :=
  let m := st64 (memset (ram s) x 0xAB (ssz c)) x (slab_free_list (pages s p)) in
  let g := upd (pages s) p (page_set_free_list x (pages s p)) in
  set_pages (upd g p (page_set_nr_alloc (nr_alloc (pages s p) - 1) (g p))) (set_ram m s).

Section push.
Context (sl fr : Z -> list Z) (s : kmem) (c p x : Z).
Context (Hh : heap_inv (inv:=inv) s) (HK : slab_inv sl fr s) (Hc : 0 <= c < NR_SIZE_CLASSES) (Hp : p ∈ sl c).
Context (Hat : slot_at (page_to_pa p) c x) (Hx : x ∉ fr p).

Lemma pushed_page q : pages (pushed c p x s) q = upd (pages s) p (page_set_nr_alloc (nr_alloc (pages s p) - 1) (page_set_free_list x (pages s p))) q.
Proof using Type. unfold pushed. ksimpl. rewrite !upd_case. case_decide; [|done]. by rewrite decide_True. Qed.

Lemma pushed_ram z : ~ x <= z < x + ssz c -> ram (pushed c p x s) z = ram s z.
Proof using Hc.
  clear Hat Hx Hp. destruct (ssz_facts c Hc). intros Hz. unfold pushed. ksimpl. rewrite st64_out, memset_out by lia. done.
Qed.

Lemma pushed_step : entry_step p s (pushed c p x s).
Proof using Hc Hat.
  split_and!; try done.
  - intros q Hq. by rewrite pushed_page, upd_ne.
  - by rewrite pushed_page, upd_eq.
  - by rewrite pushed_page, upd_eq.
  - by rewrite pushed_page, upd_eq.
  - intros z Hz. apply pushed_ram. destruct Hat as (? & ? & _). rewrite covers_page in Hz. lia.
Qed.

Lemma free_room : Z.of_nat (length (fr p)) + 1 <= nslots c.
Proof using HK Hc Hp Hat Hx.
  pose proof (ki_slab _ _ _ HK c p Hc Hp) as Ho.
  pose proof (slots_bound (page_to_pa p) c (x :: fr p) Hc) as Hbd. cbn [length] in Hbd.
  assert (Z.of_nat (S (length (fr p))) <= nslots c); [|lia]. apply Hbd.
  - apply NoDup_cons. split; [done|apply Ho].
  - intros y [->|Hy]%elem_of_cons; [done|]. by apply (so_slots _ _ _ _ Ho).
Qed.

Lemma pushed_inv : slab_inv sl (upd fr p (x :: fr p)) (pushed c p x s).
Proof using HK Hc Hp Hat Hx.
  pose proof (ki_slab _ _ _ HK c p Hc Hp) as Ho. pose proof free_room as Hroom. destruct (ssz_facts c Hc) as (? & _ & ? & _).
  destruct (slab_dram sl fr s HK c p Hc Hp) as (Hr & ? & ? & _). destruct Hat as (? & ? & _).
  apply (slab_inv_update sl fr _ s _ c p); try done.
  - by rewrite pushed_page, upd_eq.
  - rewrite upd_eq. destruct Ho as [? Hlv ? ? ? Hcnt Hch Hnd Hs].
    split; rewrite ?pushed_page, ?upd_eq; cbn [refcount order flags class_idx nr_alloc slab_free_list
      page_set_free_list page_set_nr_alloc]; try done.
    + by apply (entry_step_live p s), Hlv; apply pushed_step.
    + rewrite Hcnt, u16_small by lia. cbn [length]. lia.
    + cbn [chain]. split_and!; [done|klia|]. unfold pushed. ksimpl. rewrite ld64_st64_eq.
      * eapply chain_frame; [|exact Hch]. intros y Hy. destruct (slot_apart (page_to_pa p) c x y Hc Hat (Hs y Hy)) as [?|?]; [by intros ->|..].
        -- rewrite ld64_st64_ne by lia. apply ld64_ext. intros z Hz. apply memset_out. lia.
        -- rewrite ld64_st64_ne by lia. apply ld64_ext. intros z Hz. apply memset_out. lia.
      * destruct (fr p) as [|y fs]; [by cbn in Hch; rewrite Hch|]. destruct Hch as (-> & _).
        destruct (Hs y (list_elem_of_here _ _)) as (? & ? & _). klia.
    + apply NoDup_cons. by split.
    + intros y [->|Hy]%elem_of_cons; [done|by apply Hs].
  - intros q Hq. by rewrite pushed_page, !upd_ne by done.
  - intros a k Ha. by apply (entry_step_live p s); [apply pushed_step|].
  - apply pushed_step.
Qed.

Lemma pushed_given : page_given s (pushed c p x s).
Proof using HK Hc Hp Hat Hx Hh PA.
  pose proof pushed_step as Hst. pose proof pushed_inv as HK'. destruct Hh as [Hi _]. pose proof (ki_slab _ _ _ HK c p Hc Hp) as Ho. split; [done|intros a k; by rewrite (entry_step_live p s)| | |].
  - intros a k Ha Hn. split_and!; [by rewrite (entry_step_live p s)|by apply (entry_step_page p s (pushed c p x s))|]. intros y Hy. destruct Hst as (_ & _ & _ & _ & Hram). apply Hram. intros Hy'.
    destruct (pal_disj s a k (page_to_pa p) 0 y Hi Ha (so_live _ _ _ _ Ho) Hy Hy') as [-> _]. apply (Hn c p); [by apply (slab_page_spec sl fr s HK)|done].
  - intros d q Hq. apply (slab_page_spec _ _ _ HK), (slab_page_spec _ _ _ HK'), Hq.
  - intros d q k Hq _. apply (slab_page_spec _ _ _ HK'), (slab_page_spec _ _ _ HK), Hq.
Qed.

Lemma pushed_post : heap_inv (inv:=inv) (pushed c p x s) /\ kmfree_post x (ssz c) s (pushed c p x s).
Proof using All.
  pose proof (ki_slab _ _ _ HK c p Hc Hp) as Ho. pose proof pushed_step as Hst. pose proof pushed_inv as HK'.
  assert (forall a k, live (pushed c p x s) a k <-> live s a k) as Hl by (intros; by eapply entry_step_live).
  assert (forall q, flags (pages (pushed c p x s) q) = flags (pages s q)) as Hf by (intros q; by apply (entry_step_page p s _ q)).
  destruct (slab_obj_take sl (upd fr p (x :: fr p)) fr (pushed c p x s) s c p x (fr p)) as [Hso Hnx]; try done;
    [by rewrite upd_eq|by intros q Hq; rewrite upd_ne|].
  assert (slab_obj s x (ssz c)) as Hox by (apply Hso; by right).
  assert (forall k, ~ big_obj s x k) as Hnb.
  { intros m Hm. pose proof Hm as (k & Hl' & Hfl & ->). destruct (ssz_facts c Hc). destruct Hh as [Hi _].
    destruct (pal_block s x k Hi Hl') as (? & _). pose proof (bsz_ge k).
    destruct (slab_dram sl fr s HK c p Hc Hp) as (Hr & _). destruct Hat as (? & ? & _).
    destruct (pal_disj s (page_to_pa p) 0 x k x Hi (so_live _ _ _ _ Ho) Hl') as [Heq _]; [rewrite covers_page; lia|apply covers_self; lia|].
    rewrite <- Heq in Hfl. unfold pg in Hfl. rewrite pa_to_page_to_pa with (p := p) in Hfl by (done || lia).
    by rewrite (so_flags _ _ _ _ Ho) in Hfl. }
  split; [split; [|by eexists _, _]; eapply entry_step_inv; [done|apply Hh|apply Ho]|]. split_and!.
  - intros y m. unfold obj. rewrite (big_obj_same s (pushed c p x s) Hl Hf), (Hso y m). split.
    + intros [Hy|Hy]; (split; [tauto|]); intros ->; [by eapply Hnx|by eapply Hnb].
    + tauto.
  - by apply foreign_same.
  - intros y m z Hy Hne Hz. apply pushed_ram. intros Hzx. apply Hne.
    by destruct (obj_disjoint s y m x (ssz c) z Hh Hy (or_introl Hox)).
  - intros a k z Hfo Hz. apply pushed_ram. intros Hzx. by apply (obj_foreign s x (ssz c) a k z Hh (or_introl Hox) Hfo).
Qed.
End push.

Lemma kmfree_slab s x n : heap_inv (inv:=inv) s -> slab_obj s x n ->
  wp (kmfree x) (fun _ s' => heap_inv (inv:=inv) s' /\ kmfree_post x n s s' /\ page_given s s') s.
Proof using PA.
  intros Hh Hox. pose proof Hh as [Hi (sl & fr & HK)].
  apply (slab_obj_page s sl fr x n HK) in Hox as (c & p & Hc & Hp & Hat & -> & Hx & _ & _).
  pose proof (ki_slab _ _ _ HK c p Hc Hp) as Ho. destruct (slab_dram sl fr s HK c p Hc Hp) as (Hr & ? & ? & _ & ?).
  pose proof Hat as (? & ? & _). destruct (ssz_facts c Hc) as (? & _ & ? & _).
  assert (pa_to_page x = p) as Hpx by (apply pa_to_page_to_pa; [done|lia]).
  unfold kmfree. rewrite Hpx. wp_steps. apply wp_get_page; [done|]. rewrite (so_flags _ _ _ _ Ho). cbn [negb].
  change (Z.land PG_SLAB PG_BIG =? 0) with true. change (Z.land PG_SLAB PG_SLAB =? 0) with false. cbn [negb].
  rewrite (so_class _ _ _ _ Ho). wp_steps. apply wp_get_class; [done|]. rewrite (ki_class _ _ _ HK c Hc).
  wp_steps. apply wp_mem_set; [lia..|]. wp_steps. apply wp_store64; ksimpl; [lia..|].
  do 2 (wp_steps; apply wp_update_page; [done|]; ksimpl).
  match goal with |- wp _ _ ?t => change t with (pushed c p x s) end.
  destruct (pushed_post sl fr s c p x Hh HK Hc Hp Hat Hx) as [Hh' Hpost]. pose proof (pushed_given sl fr s c p x Hh HK Hc Hp Hat Hx) as Hpg.
  pose proof (pushed_inv sl fr s c p x HK Hc Hp Hat Hx) as HK'.
  pose proof (free_room sl fr s c p x HK Hc Hp Hat Hx) as Hroom.
  rewrite (so_count _ _ _ _ Ho), u16_small by lia. destruct (Z.eqb_spec (nslots c - Z.of_nat (length (fr p)) - 1) 0) as [Hz|Hz]; [|wp_steps; split_and!; try done; apply Hpost].
  eapply wp_mono; [apply (slab_destroy_spec sl _ _ c p Hh' HK' Hc Hp); rewrite upd_eq; cbn [length]; lia|].
  intros [] s' (Hh2 & Hobj & Hfor & [Hk1 Hk2] & Hgv). destruct Hpost as (P1 & P2 & P3 & P4).
  split; [done|]. split; [|by eapply page_given_trans]. split_and!.
  - intros y m. by rewrite Hobj, P1.
  - intros a k. by rewrite Hfor, P2.
  - intros y m z Hy Hne Hz'. rewrite (Hk1 y m z); [by eapply P3|by apply P1|done].
  - intros a k z Hfo Hz'. rewrite (Hk2 a k z); [by eapply P4|by apply P2|done].
Qed.

Lemma kmfree_big s x n : heap_inv (inv:=inv) s -> big_obj s x n -> refcount (pg s x) = 1 ->
  wp (kmfree x) (fun _ s' => heap_inv (inv:=inv) s' /\ kmfree_post x n s s') s.
Proof using PA.
  intros Hh (k & Hl & Hfl & ->) Hrc. pose proof Hh as [Hi (sl & fr & HK)].
  destruct (pal_block s x k Hi Hl) as (? & ? & ? & ?). pose proof (bsz_ge k ltac:(lia)).
  pose proof (pa_to_page_range x ltac:(lia)) as Hr. unfold kmfree. wp_steps. apply wp_get_page; [done|].
  change (pages s (pa_to_page x)) with (pg s x). rewrite Hfl. change (Z.land PG_BIG PG_BIG =? 0) with false. cbn [negb].
  wp_steps. apply wp_update_page; [done|]. set (s1 := set_pages _ _). pose proof Hl as (_ & _ & _ & ->).
  assert (forall q, refcount (pages s1 q) = refcount (pages s q) /\ order (pages s1 q) = order (pages s q)) as Hro.
  { intros q. unfold s1. ksimpl. rewrite upd_case. case_decide as Hq; [by rewrite <- Hq|done]. }
  assert (forall a j, live s1 a j <-> live s a j) as Hl1.
  { intros a j. unfold live, pg. by destruct (Hro (pa_to_page a)) as [-> ->]. }
  assert (inv s1) as Hi1.
  { eapply pal_client; [exact Hi|]. split_and!; try done. intros q. destruct (Hro q) as [-> ->]. by pose proof (pal_u16 s q Hi). }
  eapply wp_mono; [apply (pal_free x k s1 Hi1); [by apply Hl1|]|].
  { unfold pg. by destruct (Hro (pa_to_page x)) as [-> _]. }
  intros [] s2 (([Hfs Hsc] & Hpg & Hl2 & Hram) & Hi2).
  assert (forall a j, live s2 a j <-> live s a j /\ a <> x) as Hl2' by (intros; by rewrite Hl2, Hl1).
  assert (forall q, q <> pa_to_page x -> pages s2 q = pages s q) as Hp2.
  { intros q Hq. rewrite Hpg, upd_ne by congruence. unfold s1. ksimpl. by rewrite upd_ne by congruence. }
  assert (forall q, q <> pa_to_page x -> flags (pages s2 q) = flags (pages s q)) as Hf2 by (intros q Hq; by rewrite Hp2).
  assert (slab_inv sl fr s2) as HK2.
  { eapply slab_inv_frame; [exact HK|done|]. intros c p Hc Hp. pose proof (ki_slab _ _ _ HK c p Hc Hp) as Ho.
    destruct (slab_dram sl fr s HK c p Hc Hp) as (Hrp & _).
    assert (pa_to_page (page_to_pa p) = p) as Hpp by (apply pa_to_page_to_pa; [done|lia]).
    assert (p <> pa_to_page x) as Hpx. { intros ->. unfold pg in Hfl. by rewrite (so_flags _ _ _ _ Ho) in Hfl. }
    assert (page_to_pa p <> x) as Hne. { intros Heq. by rewrite Heq in Hpp. }
    split_and!; [by apply Hp2|apply Hl2'; split; [apply Ho|done]|].
    intros z Hz. by apply (Hram (page_to_pa p) 0 z); [apply Hl1, Ho|done|rewrite covers_page]. }
  assert (forall a j z, live s a j -> a <> x -> covers a j z -> ram s2 z = ram s z) as Hram'.
  { intros a j z Ha Hne Hz. by apply (Hram a j z); [apply Hl1|..]. }
  assert (heap_inv (inv:=inv) s2) as Hh2 by (split; [done|by exists sl, fr]).
  assert (forall m, ~ slab_obj s x m) as Hns.
  { intros m Hm. destruct (obj_disjoint s x m x (bsz k) x Hh (or_introl Hm)) as [_ ->]; [right; by exists k|..].
    - destruct (obj_block s x m Hh (or_introl Hm)) as (? & ? & _ & _ & _ & ?). lia.
    - lia.
    - destruct (slab_obj_page s sl fr x (bsz k) HK Hm) as (c & p & Hc & Hp & _ & Hsz & _). destruct (ssz_facts c Hc). lia. }
  assert (forall y m, obj s2 y m <-> obj s y m /\ y <> x) as Hobj.
  { intros y m. unfold obj. rewrite (gone_big s s2 x k Hi Hl Hl2' Hf2), (slab_obj_spec sl fr s2 HK2), <- (slab_obj_spec sl fr s HK).
    split; [|tauto]. intros [Hy|Hy]; [|tauto]. split; [by left|]. intros ->. by eapply Hns. }
  split; [done|]. split_and!; try done.
  - intros a j. rewrite (gone_foreign s s2 x k Hi Hl Hl2' Hf2). split; [tauto|]. intros Hfo. split; [done|].
    intros ->. by destruct Hfo as (_ & _ & ?).
  - intros y m z Hy Hne Hz. destruct (obj_block s2 y m Hh2) as (a & j & [Ha Hax]%Hl2' & _ & Hcov & _); [by apply Hobj|].
    apply (Hram' a j z Ha Hax). by apply Hcov.
  - intros a j z (Ha & _ & Hfo) Hz. apply (Hram' a j z Ha); [|done]. by intros ->.
Qed.
End free.
