(* ===== verification/KmallocThm.v ===== *)
(** The theorems on the slab allocator ([kernel/kmalloc.c]), over any page allocator
    that meets [PageAllocator] and with instances at a booted memory.

    What an allocation from the heap does to the pages: all allocated blocks keep their
    contents and their page entries but for the slab fields, and at most one page is
    taken from the page allocator. *)
From stdpp Require Import relations.
From S2P Require Import KallocThm Prelude Mem Layout Kalloc Buddy KallocInv KallocAlloc KallocFree KallocSpec Kmalloc KmallocInv KmallocProof KmallocSpec KmallocFree.

(** ** kmalloc_init *)

(** States that agree on everything the slab invariant reads. *)
Record same_slabs (s s' : kmem) : Prop := {
  ss_ram : ram s' = ram s;
  ss_pages : forall q, pages s' q = pages s q;
  ss_start : free_start s' = free_start s;
  ss_areas : free_areas s' = free_areas s;
  ss_class : forall c, 0 <= c < NR_SIZE_CLASSES -> size_classes s' c = size_classes s c
}.

Lemma same_slabs_live s s' : same_slabs s s' -> forall a k, live s' a k <-> live s a k.
Proof. intros [_ Hp Hf _ _] a k. unfold live, pg. by rewrite Hp, Hf. Qed.

Lemma same_slabs_inv sl fr s s' : same_slabs s s' -> slab_inv sl fr s -> slab_inv sl fr s'.
Proof.
  intros Hs HK. pose proof (same_slabs_live s s' Hs) as Hl. destruct Hs as [Hr Hp Hf _ Hc]. split.
  - intros c Hc'. rewrite Hc by done. by apply HK.
  - intros c Hc'. rewrite Hc by done. eapply schain_frame; [|by apply HK]. intros q _. by rewrite Hp.
  - apply HK.
  - intros c p Hc' Hp'. pose proof (ki_slab _ _ _ HK c p Hc' Hp') as Ho. eapply slab_ok_frame; [done..|by apply Hl, Ho|]. intros. by rewrite Hr.
Qed.

(** The state in the middle of [kmalloc_init]: the classes from [i] on still empty. *)
Definition classes_from (i : Z) (s : kmem) : kmem :=
  set_size_classes (fun c => if c <? i then size_classes s c else mk_size_class (ssz c) None) s.

Section init.
Context {inv : kmem -> Prop} {PA : PageAllocator inv kalloc_pages kfree_pages}.

Lemma inv_classes f s : inv s <-> inv (set_size_classes f s).
Proof using PA.
  split; intros Hi; (eapply pal_client; [exact Hi|]); split_and!; try done; intros q;
    [pose proof (pal_u16 s q Hi)|pose proof (pal_u16 (set_size_classes f s) q Hi)]; done.
Qed.

(** What holds of the state before class [i] is set up. *)
Record init_inv (s0 : kmem) (i : Z) (s : kmem) : Prop := {
  ii_heap : heap_inv (inv:=inv) (classes_from i s);
  ii_none : forall y m, ~ slab_obj (classes_from i s) y m;
  ii_big : forall y m, big_obj s y m <-> big_obj s0 y m;
  ii_foreign : forall a k, foreign s a k <-> foreign s0 a k
}.

Lemma create_classes i s s1 r : create_post (inv:=inv) i s r s1 -> create_post (inv:=inv) i (classes_from i s) r (classes_from i s1).
Proof using PA.
  intros [(-> & -> & Hn)|(p & -> & Hi1 & [Hfs Hsc] & Hfr & Hok & Hnx & Hdj & Hl & Hfl)]; [by left|]. right. exists p.
  split_and!; try done.
  - by apply inv_classes.
  - unfold same_env, classes_from. ksimpl. by rewrite Hsc.
  - by destruct Hok.
Qed.

Lemma init_step s0 i s : 0 <= i < NR_SIZE_CLASSES -> init_inv s0 i s ->
  wp (c ← get_class i;
    set_class i (mk_size_class (u32 (Z.shiftl 32 i)) (slabs c));;
    sl ← slab_create i;
    c' ← get_class i;
    set_class i (mk_size_class (slot_size c') sl)) (fun _ => init_inv s0 (i + 1)) s.
Proof using PA.
  intros Hr [Hh Hn Hb Hf]. destruct (ssz_facts i Hr) as (_ & _ & _ & _ & Hsz).
  wp_steps. apply wp_get_class; [done|]. wp_steps. apply wp_set_class; [done|]. rewrite Hsz. set (s1 := set_size_classes _ s).
  pose proof Hh as [Hi (sl & fr & HK)]. assert (inv s1) as Hi1 by (unfold s1; rewrite <- inv_classes; unfold classes_from in Hi; by rewrite <- inv_classes in Hi).
  assert (same_slabs (classes_from i s) (classes_from i s1)) as Hss.
  { split; try done. intros c Hc. unfold classes_from, s1. ksimpl. destruct (Z.ltb_spec c i); [|done]. by rewrite upd_ne by lia. }
  pose proof (same_slabs_inv sl fr _ _ Hss HK) as HK1.
  assert (heap_inv (inv:=inv) (classes_from i s1)) as Hh1 by (split; [by apply inv_classes|by exists sl, fr]).
  assert (forall y m, ~ slab_obj (classes_from i s1) y m) as Hn1.
  { intros y m Hy. apply (Hn y m). by rewrite (slab_obj_spec sl fr _ HK), <- (slab_obj_spec sl fr _ HK1). }
  wp_steps. eapply wp_mono; [apply (slab_create_spec i s1 Hi1 Hr); unfold s1; ksimpl; by rewrite upd_eq|].
  intros r s2 Hcr. pose proof (create_classes i s1 s2 r Hcr) as Hcr'.
  wp_steps. apply wp_get_class; [done|]. apply wp_set_class; [done|]. set (s3 := set_size_classes _ s2).
  assert (slot_size (size_classes s2 i) = ssz i) as Hz.
  { assert (size_classes s2 = size_classes s1) as ->; [|unfold s1; ksimpl; by rewrite upd_eq].
    by destruct Hcr as [(_ & -> & _)|(p & _ & _ & [_ ->] & _)]. }
  destruct r as [p|].
  - pose proof (slab_fresh sl fr _ _ i p Hh1 HK1 Hr Hcr') as (Hh2 & HK2 & _ & Hso & Hbo & Hfor & _).
    destruct Hcr as [(? & _)|(p' & [= <-] & Hi2 & _ & _ & _ & Hnx & _)]; [done|].
    assert (same_slabs (linked i p (classes_from i s2)) (classes_from (i + 1) s3)) as Hs3.
    { split; try done.
      - intros q. unfold linked, classes_from, s3. ksimpl. rewrite upd_case. case_decide as Hq; [|done]. rewrite <- Hq.
        rewrite Z.ltb_irrefl. cbn. rewrite <- Hnx. by destruct (pages s2 p).
      - intros c Hc. unfold linked, classes_from, s3. ksimpl. rewrite Z.ltb_irrefl, !upd_case. cbn.
        destruct (Z.ltb_spec c (i + 1)), (Z.ltb_spec c i); case_decide; try lia; try done. by rewrite Hz. }
    pose proof (same_slabs_live _ _ Hs3) as Hl3.
    assert (forall q, flags (pages (classes_from (i + 1) s3) q) = flags (pages (linked i p (classes_from i s2)) q)) as Hf3.
    { intros q. by rewrite (ss_pages _ _ Hs3). }
    pose proof (same_slabs_inv _ _ _ _ Hs3 HK2) as HK3. split.
    + split; [by unfold classes_from, s3; rewrite <- !inv_classes|by eexists _, _].
    + intros y m Hy. apply (Hn1 y m), Hso. by rewrite (slab_obj_spec _ _ _ HK2), <- (slab_obj_spec _ _ _ HK3).
    + intros y m. rewrite <- Hb. rewrite <- (Hbo y m : _ <-> big_obj s y m). apply (big_obj_same _ _ Hl3 Hf3).
    + intros a k. rewrite <- Hf, <- (Hfor a k : _ <-> foreign s a k). apply (foreign_same _ _ Hl3 Hf3).
  - destruct Hcr as [(_ & Heq & _)|(p' & ? & _)]; [|done]. subst s2.
    assert (same_slabs (classes_from i s1) (classes_from (i + 1) s3)) as Hs3.
    { split; try done. intros c Hc. unfold classes_from, s3. ksimpl.
      destruct (Z.ltb_spec c (i + 1)), (Z.ltb_spec c i); try lia; try done.
      - by rewrite upd_ne by lia.
      - assert (c = i) as -> by lia. by rewrite upd_eq, Hz. }
    pose proof (same_slabs_inv _ _ _ _ Hs3 HK1) as HK3. split; try done.
    + split; [by unfold classes_from, s3; rewrite <- !inv_classes|by eexists _, _].
    + intros y m Hy. apply (Hn1 y m). by rewrite (slab_obj_spec _ _ _ HK1), <- (slab_obj_spec _ _ _ HK3).
Qed.

Lemma kmalloc_init_spec s : inv s ->
  wp kmalloc_init (fun _ s' => heap_inv (inv:=inv) s' /\ (forall y m, obj s' y m <-> big_obj s y m) /\
    (forall a k, foreign s' a k <-> foreign s a k)) s.
Proof using PA.
  intros Hi. unfold kmalloc_init. apply (wp_for_range (init_inv s)).
  - assert (slab_inv (fun _ => []) (fun _ => []) (classes_from 0 s)) as HK.
    { split; try done.
      - intros c Hc. unfold classes_from. ksimpl. destruct (Z.ltb_spec c 0); [lia|done].
      - intros c Hc. unfold classes_from. ksimpl. destruct (Z.ltb_spec c 0); [lia|done].
      - intros. constructor.
      - intros c p _ Hp. by apply elem_of_nil in Hp. }
    split; try done.
    + split; [by apply inv_classes|by eexists _, _].
    + intros y m (c & p & _ & Hp & _)%(slab_obj_spec _ _ _ HK). by apply elem_of_nil in Hp.
  - intros j s' Hj. apply init_step. unfold NR_SIZE_CLASSES. lia.
  - intros s' [[Hi' (sl & fr & HK)] Hn Hb Hf].
    assert (same_slabs (classes_from 7 s') s') as Hs.
    { split; try done. intros c Hc. unfold classes_from. ksimpl. unfold NR_SIZE_CLASSES in *. by destruct (Z.ltb_spec c 7); [|lia]. }
    pose proof (same_slabs_inv _ _ _ _ Hs HK) as HK'.
    split; [split; [|by eexists _, _]|split; [|done]].
    + unfold classes_from in Hi'. by rewrite <- inv_classes in Hi'.
    + intros y m. rewrite <- Hb. unfold obj. split; [|by right]. intros [Hy|]; [|done]. exfalso.
      apply (Hn y m). by rewrite (slab_obj_spec _ _ _ HK), <- (slab_obj_spec _ _ _ HK').
Qed.
End init.

(** * Theorems, at the buddy allocator *)
Definition kheap_inv : kmem -> Prop := heap_inv (inv:=kalloc_inv).

(** A booted heap, and the same heap with one object of class 128. *)
Definition kdemo : kmem := state_of (kmalloc_init demo).
Definition kdemo1 : kmem := state_of (kmalloc 100 kdemo).
Definition demo_obj : Z := match value_of (kmalloc 100 kdemo) with Some r => r | None => NULL end.

Lemma demo_empty a k : ~ live demo a k.
Proof.
  destruct (wp_elim _ _ _ (kalloc_init_spec demo_bss demo_kernel_end ltac:(done) ltac:(done) ltac:(done) ltac:(done)))
    as (n & s' & Heq & _ & _ & _ & _ & Hl).
  destruct demo_spec as (n' & Heq' & _). destruct (ok_inj _ _ _ _ (eq_trans (eq_sym Heq) Heq')) as [_ <-]. apply Hl.
Qed.

Lemma kdemo_spec : kheap_inv kdemo /\ forall x n, ~ obj kdemo x n.
Proof.
  destruct (wp_elim _ _ _ (kmalloc_init_spec demo demo_inv)) as ([] & s' & Heq & Hh & Hobj & _).
  unfold kdemo. rewrite Heq. cbn [state_of]. split; [exact Hh|].
  intros x n (k & Hl & _)%Hobj. exact (demo_empty x k Hl).
Qed.

(** [kmalloc_init] on a freshly initialised page allocator returns, keeps the
    page allocator's invariant and establishes the slab allocator's: every class
    has its slot size and a well-formed list of slabs whose slots are all free;
    there is no object yet. *)
Lemma kmalloc_init_establishes s : kalloc_inv s -> (forall a k, ~ live s a k) ->
  exists s', kmalloc_init s = Ok (tt, s') /\ kheap_inv s' /\ forall x n, ~ obj s' x n.
Proof.
  intros Hi Hn. destruct (wp_elim _ _ _ (kmalloc_init_spec s Hi)) as ([] & s' & Heq & Hh & Hobj & _).
  exists s'. split_and!; [done|apply Hh..|]. intros x n (k & Hl & _)%Hobj. by eapply Hn.
Qed.

(** The memory allocators start: [kalloc_init] returns, establishes the
    invariant of the page allocator (free and allocated blocks tile the memory from
    the first page behind the [struct page] array to the end of DRAM, every free list
    is well formed and fully coalesced) with no block allocated, and reports the
    number of pages of that memory; [kmalloc_init] then returns and establishes the
    invariant of the heap, with no object. *)
Lemma allocators_init s kernel_end : (forall k, 0 <= k <= MAX_ORDER -> free_areas s k = mk_free_area NULL 0) ->
  KERN_BASE <= kernel_end <= PHYS_STOP -> first_free kernel_end <= PHYS_STOP ->
  exists n s1, kalloc_init kernel_end s = Ok (n, s1) /\ kalloc_inv s1 /\ (forall a k, ~ live s1 a k) /\ n = free_pages s1 /\ PG_SIZE * n = PHYS_STOP - first_free kernel_end /\
    exists s2, kmalloc_init s1 = Ok (tt, s2) /\ kheap_inv s2 /\ forall x m, ~ obj s2 x m.
Proof.
  intros Hb Hk Hf. destruct (kalloc_init_establishes s kernel_end Hb Hk Hf) as (n & s1 & E & Hi & Hl & Hn & Hp). exists n, s1. split_and!; try done. by apply kmalloc_init_establishes.
Qed.


(** The requests [kmalloc] refuses: zero bytes give NULL and change nothing;
    more than the largest block (4 MB) stops in a panic. *)
Lemma kmalloc_limits s size : 0 <= size ->
  (size = 0 -> kmalloc size s = Ok (NULL, s)) /\
  (bsz MAX_ORDER < size -> exists msg, kmalloc size s = Panic msg).
Proof.
  intros Hs. split; [by intros ->|]. intros Hbig.
  assert (4194304 < size) as Hb by (rewrite MAX_ORDER_val in Hbig; exact Hbig).
  destruct (order_for_spec size 12 0) as (Ho & _ & Hfit); [lia..|].
  unfold kmalloc. destruct (Z.eqb_spec size 0); [lia|]. destruct (Z.ltb_spec MAX_SLAB_SIZE size); [|unfold MAX_SLAB_SIZE in *; lia].
  cbv zeta. destruct (Z.ltb_spec MAX_ORDER (order_for 12 0 size)) as [|Hle]; [by eexists|]. specialize (Hfit Hle).
  assert (bsz (order_for 12 0 size) <= bsz MAX_ORDER); [|lia]. unfold bsz. apply Z.pow_le_mono_r; klia.
Qed.

(** [kmalloc] of up to 4 MB returns and keeps both allocators' invariants.
    It returns NULL, with nothing changed, only when the page allocator has no
    block of the order it would need; otherwise exactly one object is added, at
    the returned address, of the smallest slot or block size that fits, which
    was no object before; objects and the blocks other parts of the kernel hold
    keep their contents.  Zero bytes give NULL and change nothing; more than the
    largest block stops in a panic. *)
Lemma kmalloc_gives s size : kheap_inv s -> 0 <= size ->
  (size = 0 -> kmalloc size s = Ok (NULL, s)) /\
  (0 < size <= bsz MAX_ORDER -> exists r s' n o, kmalloc size s = Ok (r, s') /\ kheap_inv s' /\ rounded size n o /\ kmalloc_post n o s r s') /\
  (bsz MAX_ORDER < size -> exists msg, kmalloc size s = Panic msg).
Proof.
  intros Hh Hs0. destruct (kmalloc_limits s size Hs0) as [Hz Hbig]. split; [exact Hz|]. split; [|exact Hbig]. intros Hs. destruct (Z.le_gt_cases size MAX_SLAB_SIZE) as [Hle|Hgt].
  - destruct (wp_elim _ _ _ (kmalloc_small s size Hh ltac:(lia))) as (r & s' & Heq & Hh' & n & Hrd & Hp).
    by exists r, s', n, 0.
  - destruct (order_for_spec size 12 0) as (Ho & Hlt & Hfit); [lia..|]. set (o := order_for 12 0 size) in *.
    assert (o <= MAX_ORDER) as Hom.
    { destruct (Z.le_gt_cases o MAX_ORDER) as [|Hx]; [done|]. specialize (Hlt MAX_ORDER ltac:(klia)). lia. }
    destruct (wp_elim _ _ _ (kmalloc_big s size o Hh Hgt eq_refl Hom)) as (r & s' & Heq & Hh' & Hp).
    exists r, s', (bsz o), o. split_and!; try done; [apply Hh'..|]. right. split_and!; (done || lia || by apply Hfit).
Qed.


Lemma rounded_100 n : rounded 100 n 0 -> n = 128.
Proof.
  intros [(_ & _ & c & Hc & -> & Hfit & Hmin)|[? _]]; [|done].
  pose proof (class_cases c Hc) as Hcs. pose proof (Hmin 2) as H2. clear Hmin. unfold ssz in *.
  destruct_or! Hcs; subst; cbn in *; lia.
Qed.

Lemma kdemo1_spec : kheap_inv kdemo1 /\ obj kdemo1 demo_obj 128 /\ refcount (pg kdemo1 demo_obj) = 1.
Proof.
  destruct (wp_elim _ _ _ (kmalloc_small kdemo 100 (proj1 kdemo_spec) ltac:(unfold MAX_SLAB_SIZE; lia))) as (r & s' & Heq & Hh' & n & Hrd & Hp).
  unfold kdemo1, demo_obj. assert (value_of (kmalloc 100 kdemo) = Some r) as Hv by by rewrite Heq.
  assert (r <> NULL) as Hr.
  { intros ->. assert (value_of (kmalloc 100 kdemo) <> Some NULL) as Hne by (vm_compute; discriminate). by apply Hne. }
  rewrite Heq. cbn [state_of value_of]. pose proof (rounded_100 n Hrd) as ->.
  clear Heq Hv. destruct Hp as [(He & _)|(_ & Hobj & _ & _ & _ & Hrc)]; [contradiction|].
  split; [exact Hh'|]. split; [apply Hobj; right; split; reflexivity|exact Hrc].
Qed.

(** [kmfree] of an object returns, keeps both invariants, removes exactly
    that object and keeps the contents of every other object and of every block
    held by other parts of the kernel; an emptied slab goes back to the page
    allocator without disturbing them. *)
Lemma kmfree_takes s x n : kheap_inv s -> obj s x n -> refcount (pg s x) = 1 ->
  exists s', kmfree x s = Ok (tt, s') /\ kheap_inv s' /\ kmfree_post x n s s'.
Proof.
  intros Hh Ho Hrc. destruct Ho as [Ho|Ho].
  - destruct (wp_elim _ _ _ (kmfree_slab s x n Hh Ho)) as ([] & s' & ? & ? & ? & _). by exists s'.
  - destruct (wp_elim _ _ _ (kmfree_big s x n Hh Ho Hrc)) as ([] & s' & ? & ? & ?). by exists s'.
Qed.


(** Objects never overlap: two objects that share a byte are the same
    object, and no object shares a byte with an allocated block that is not the
    slab allocator's (page tables, stacks, user pages). *)
Lemma heap_isolation s x n : kheap_inv s -> obj s x n ->
  (forall y m z, obj s y m -> x <= z < x + n -> y <= z < y + m -> x = y /\ n = m) /\
  (forall a k z, foreign s a k -> x <= z < x + n -> ~ covers a k z).
Proof.
  intros Hh Ho. split.
  - intros y m z Ho' Hz Hz'. exact (obj_disjoint s x n y m z Hh Ho Ho' Hz Hz').
  - intros a k z Hf Hz. exact (obj_foreign s x n a k z Hh Ho Hf Hz).
Qed.



(** * Allocations and the pages of others *)

(** [n] is the page taken, when there is one. *)
Record page_taken (n : Z) (s s' : kmem) : Prop := {
  tk_start : free_start s' = free_start s;
  tk_live : forall a k, live s a k -> live s' a k;
  tk_new : forall a k, live s' a k -> live s a k \/ (a = n /\ k = 0);
  tk_entry : forall a k x, live s a k -> covers a k x -> refcount (pg s' x) = refcount (pg s x) /\ flags (pg s' x) = flags (pg s x);
  tk_flags : forall q, q <> pa_to_page n -> flags (pages s' q) = flags (pages s q);
  tk_ram : forall a k x, live s a k -> covers a k x -> ram s' x = ram s x
}.
Definition heap_step (s s' : kmem) : Prop := exists n, page_taken n s s'.

Lemma page_taken_refl n s : page_taken n s s.
Proof. split; try done. by left. Qed.

Section live.
Context {inv : kmem -> Prop} {PA : PageAllocator inv kalloc_pages kfree_pages}.

(** After the page is taken, a step that only moves slab fields. *)
Lemma page_taken_entry n p s s1 s2 : page_taken n s s1 -> entry_step p s1 s2 -> ram s2 = ram s1 -> page_taken n s s2.
Proof using Type.
  intros [H1 H2 H3 H4 H5 H6] He Hr. pose proof (fun q => entry_step_page p s1 s2 q He) as Hq. pose proof (fun a k => entry_step_live p s1 s2 a k He) as Hl. split.
  - destruct He as ([-> _] & _). done.
  - intros a k Ha. by apply Hl, H2.
  - intros a k Ha. by apply H3, Hl.
  - intros a k x Ha Hx. unfold pg. destruct (Hq (pa_to_page x)) as (-> & _ & ->). by apply (H4 a k).
  - intros q Hn. destruct (Hq q) as (_ & _ & ->). by apply H5.
  - intros a k x Ha Hx. rewrite Hr. by apply (H6 a k).
Qed.

Lemma created_taken c p s s1 : create_post (inv:=inv) c s (Some p) s1 -> page_taken (page_to_pa p) s s1.
Proof using PA.
  intros [(? & _)|(p' & [= <-] & Hi1 & [Hfs _] & Hfr & Hok & _ & _ & Hl & Hfl)]; [done|]. split; try done.
  - intros a k Ha. apply Hl. by left.
  - intros a k Ha. by apply Hl.
  - intros a k x Ha Hx. by destruct (Hfr a k Ha x Hx) as [_ ->].
  - intros q Hq. apply Hfl. pose proof (so_page _ _ _ _ Hok) as Hp. rewrite (pa_to_page_to_pa p) in Hq by (done || lia). congruence.
  - intros a k x Ha Hx. by destruct (Hfr a k Ha x Hx).
Qed.

Lemma linked_taken n c p s s1 : page_taken n s s1 -> page_taken n s (linked c p s1).
Proof using PA.
  intros [H1 H2 H3 H4 H5 H6]. destruct (linked_step (inv:=inv) c p s1) as (Hl & Hf & _).
  assert (forall q, refcount (pages (linked c p s1) q) = refcount (pages s1 q)) as Hr by (intros q; unfold linked; ksimpl; rewrite upd_case; by case_decide; subst). split.
  - done.
  - intros a k Ha. by apply Hl, H2.
  - intros a k Ha. by apply H3, Hl.
  - intros a k x Ha Hx. unfold pg. rewrite Hf, Hr. by apply (H4 a k).
  - intros q Hq. rewrite Hf. by apply H5.
  - done.
Qed.

Lemma pop_taken n sl fr s0 s c p : page_taken n s0 s -> slab_inv sl fr s -> 0 <= c < NR_SIZE_CLASSES -> p ∈ sl c -> slab_free_list (pages s p) <> NULL ->
  wp (pop_slot p) (fun _ s' => page_taken n s0 s') s.
Proof using Type.
  intros Ht HK Hc Hp Hne. pose proof (ki_slab _ _ _ HK c p Hc Hp) as Ho. destruct (fr p) as [|x fs] eqn:Hfs; [by pose proof (so_chain _ _ _ _ Ho)|].
  eapply wp_mono; [by apply (pop_slot_spec sl fr s c p x fs)|]. intros r s' (_ & _ & Hr & He). by eapply page_taken_entry.
Qed.

(** A new slab is a new page, and the other way round. *)
Record slabs_grow (s s' : kmem) : Prop := {
  sg_old : forall c p, slab_page s c p -> slab_page s' c p;
  sg_new : forall c p, slab_page s' c p -> slab_page s c p \/ forall k, ~ live s (page_to_pa p) k;
  sg_page : forall a k, live s' a k -> live s a k \/ (k = 0 /\ exists c p, slab_page s' c p /\ page_to_pa p = a)
}.
Lemma slabs_grow_refl s : slabs_grow s s.
Proof using Type. split; auto. Qed.

Lemma pop_slabs sl fr s c p : slab_inv sl fr s -> 0 <= c < NR_SIZE_CLASSES -> p ∈ sl c -> slab_free_list (pages s p) <> NULL ->
  wp (pop_slot p) (fun _ s' => (forall d q, slab_page s' d q <-> 0 <= d < NR_SIZE_CLASSES /\ q ∈ sl d) /\ forall a k, live s' a k <-> live s a k) s.
Proof using Type.
  intros HK Hc Hp Hne. pose proof (ki_slab _ _ _ HK c p Hc Hp) as Ho. destruct (fr p) as [|x fs] eqn:Hfs; [by pose proof (so_chain _ _ _ _ Ho)|].
  eapply wp_mono; [by apply (pop_slot_spec sl fr s c p x fs)|]. intros r s' (_ & HK' & _ & He). split; [intros d q; by apply (slab_page_spec _ _ _ HK')|]. intros a k. by apply (entry_step_live p).
Qed.

Lemma kmalloc_step s size : heap_inv (inv:=inv) s -> 0 < size <= MAX_SLAB_SIZE -> wp (kmalloc size) (fun _ s' => heap_step s s' /\ slabs_grow s s') s.
Proof using PA.
  intros Hh Hs. pose proof Hh as [Hi (sl & fr & HK)]. unfold kmalloc.
  destruct (Z.eqb_spec size 0) as [->|_]; [lia|]. destruct (Z.ltb_spec MAX_SLAB_SIZE size) as [|_]; [lia|].
  wp_steps. eapply wp_mono; [apply size_to_class_from_spec; [apply HK|unfold MAX_SLAB_SIZE in *; lia|done|done|]; intros; lia|].
  intros c s1 (-> & Hc & _). wp_steps. apply wp_get_class; [done|]. wp_steps.
  eapply wp_mono; [apply (find_slab_spec s (sl c)); [by apply HK|intros p Hp; by apply (slab_dram sl fr s HK c p)|]|].
  { pose proof (slab_length sl fr s HK c Hc). unfold list_fuel. klia. }
  intros [p|] s1 (-> & Hres).
  - destruct Hres as [Hp Hne]. eapply wp_mono; [apply wp_conj; [by apply (pop_taken 0 sl fr s s c p); [apply page_taken_refl|..]|by apply (pop_slabs sl fr s c p)]|]. intros r s' [Ht [Hsl Hlv]].
    split; [by exists 0|]. split; [intros d q Hq; by apply Hsl, (slab_page_spec _ _ _ HK)|intros d q Hq; left; by apply (slab_page_spec _ _ _ HK), Hsl|intros a k Ha; left; by apply Hlv].
  - clear Hres. wp_steps. eapply wp_mono; [apply (slab_create_spec c s Hi Hc); by apply HK|]. intros [p|] s1 Hcr.
    + pose proof (slab_fresh sl fr s s1 c p Hh HK Hc Hcr) as (_ & HK2 & Hne & _). pose proof (created_taken c p s s1 Hcr) as Ht.
      destruct Hcr as [(? & _)|(p' & [= <-] & _ & _ & _ & Hok & _ & Hdj & _)]; [done|].
      wp_steps. apply wp_get_class; [done|]. wp_steps. apply wp_update_page; [apply Hok|]. wp_steps. apply wp_set_class; [done|]. ksimpl. fold (linked c p s1).
      assert (p ∈ upd sl c (p :: sl c) c) as Hpc by (rewrite upd_eq; by left).
      eapply wp_mono; [apply wp_conj; [by apply (pop_taken (page_to_pa p) _ _ s _ c p (linked_taken _ c p s s1 Ht) HK2 Hc)|by apply (pop_slabs _ _ _ c p HK2 Hc)]|].
      intros r s' [Ht' [Hsl _]]. split; [by exists (page_to_pa p)|]. split.
      * intros d q [Hd Hq]%(slab_page_spec _ _ _ HK). apply Hsl. split; [done|]. rewrite upd_case. case_decide as Hcd; [|done]. rewrite Hcd. by right.
      * intros d q Hq. apply Hsl in Hq as [Hd Hqd]. rewrite upd_case in Hqd.
        assert (q ∈ sl d \/ q = p) as Hor by (case_decide as Hcd; [rewrite Hcd in Hqd; apply elem_of_cons in Hqd; tauto|by left]). destruct Hor as [Hold|Heq]; [left; by apply (slab_page_spec _ _ _ HK)|subst q; right].
        intros k Hk. destruct (pal_block s _ k Hi Hk) as [? _]. apply (Hdj _ k (page_to_pa p) Hk); apply covers_self; lia.
      * intros a k Ha. destruct (tk_new _ _ _ Ht' a k Ha) as [?|[-> ->]]; [by left|right]. split; [done|]. exists c, p. split; [|done]. by apply Hsl.
    + destruct Hcr as [(_ & -> & _)|(p' & ? & _)]; [|done]. wp_steps. split; [exists 0; apply page_taken_refl|apply slabs_grow_refl].
Qed.
End live.

(** * kmalloc_init takes at most one page per class *)
Section init_steps.
Context {inv : kmem -> Prop} {PA : PageAllocator inv kalloc_pages kfree_pages}.

Lemma slab_create_step c s : inv s -> 0 <= c < NR_SIZE_CLASSES -> slot_size (size_classes s c) = ssz c -> wp (slab_create c) (fun _ s' => inv s' /\ heap_step s s') s.
Proof using PA.
  intros Hi Hc Hz. eapply wp_mono; [by apply (slab_create_spec c s Hi Hc)|]. intros [p|] s' Hcr.
  - split; [|exists (page_to_pa p); by eapply created_taken]. by destruct Hcr as [(? & _)|(p' & _ & ? & _)].
  - destruct Hcr as [(_ & -> & _)|(p' & ? & _)]; [|done]. split; [done|]. exists 0. apply page_taken_refl.
Qed.

Lemma kmalloc_init_steps s : inv s -> wp kmalloc_init (fun _ s' => nsteps heap_step 7 s s') s.
Proof using PA.
  intros Hi. unfold kmalloc_init. apply (wp_for_range (fun i s' => inv s' /\ nsteps heap_step (Z.to_nat i) s s')); [split; [done|constructor]| |by intros s' [_ H]].
  intros i s' Hr [Hi' Hn]. assert (0 <= i < NR_SIZE_CLASSES) as Hc by (unfold NR_SIZE_CLASSES; lia). destruct (ssz_facts i Hc) as (_ & _ & _ & _ & Hsz).
  wp_steps. apply wp_get_class; [done|]. wp_steps. apply wp_set_class; [done|]. rewrite Hsz. set (s1 := set_size_classes _ s').
  wp_steps. eapply wp_mono; [apply (slab_create_step i s1); [by apply inv_classes|done|unfold s1; ksimpl; by rewrite upd_eq]|]. intros r s2 [Hi2 (n & Ht)].
  wp_steps. apply wp_get_class; [done|]. apply wp_set_class; [done|]. split; [by apply inv_classes|].
  replace (Z.to_nat (i + 1)) with (S (Z.to_nat i)) by lia. eapply nsteps_r; [exact Hn|]. exists n. by destruct Ht.
Qed.
End init_steps.
