(* ===== verification/Vm.v ===== *)
(** [kernel/vm.c] and [kernel/include/vm.h]: Sv39 page tables.

    Page tables live in RAM pages of the buddy allocator; a [pte_t *] is the
    address of an entry.  [walk], [map_pages], [proc_pagetable] and
    [proc_free_pagetable] are translated over the memory state [kmem].  [Sv39] is
    the reference: the translation the hardware performs, from the RISC-V
    privileged architecture. *)
From S2P Require Import Prelude Mem Layout Kalloc.

Definition PTE_V : Z := Z.shiftl 1 0.
Definition PTE_R : Z := Z.shiftl 1 1.
Definition PTE_W : Z := Z.shiftl 1 2.
Definition PTE_X : Z := Z.shiftl 1 3.
Definition PTE_U : Z := Z.shiftl 1 4.
Definition PTE_G : Z := Z.shiftl 1 5.
Definition PTE_A : Z := Z.shiftl 1 6.
Definition PTE_D : Z := Z.shiftl 1 7.
Definition PTE_COW : Z := Z.shiftl 1 8.

Definition pa_to_pte (pa : Z) : Z := u64 (Z.shiftl (Z.shiftr pa 12) 10).
Definition pte_to_pa (pte : Z) : Z := u64 (Z.shiftl (Z.shiftr pte 10) 12).
Definition pte_flags (pte : Z) : Z := Z.land pte 0x3FF.
Definition PX (level va : Z) : Z := Z.land (Z.shiftr va (PG_SHIFT + 9 * level)) 0x1FF.

(** [pte & flag] as a condition. *)
Definition has (pte flag : Z) : bool := negb (Z.land pte flag =? 0).

(** * walk *)

(** The loop from level [n] down to 1; level 0 is the slot returned. *)
Fixpoint walk_levels (n : nat) (curr_table va : Z) (alloc : bool) : M kmem Z :=
  match n with
  | O => mret (curr_table + 8 * PX 0 va)
  | S n' =>
      let p := curr_table + 8 * PX (Z.of_nat n) va in
      e ← load64 p;
      if has e PTE_V then walk_levels n' (pte_to_pa e) va alloc
      else if alloc then
        t ← kalloc;
        if t =? NULL then mret NULL else
        store64 p (Z.lor (pa_to_pte t) PTE_V);;
        walk_levels n' t va alloc
      else mret NULL
  end.
Definition walk (root_pt va : Z) (alloc : bool) : M kmem Z :=
  if MAX_VA <=? va then panic "walk: va >= MAX_VA" else walk_levels 2 root_pt va alloc.

(** * map_pages *)
Definition leaf_pte (pa perm : Z) : Z := Z.lor (Z.lor (Z.lor (Z.lor (pa_to_pte pa) perm) PTE_V) PTE_A) PTE_D.

(** [while (nr_page--)] *)
Fixpoint map_loop (nr_page : nat) (root_pt va pa perm : Z) : M kmem Z :=
  match nr_page with
  | O => mret 0
  | S n =>
      leaf ← walk root_pt va true;
      if leaf =? NULL then mret (-1) else
      e ← load64 leaf;
      if has e PTE_V then panic "map_pages: double-map" else
      store64 leaf (leaf_pte pa perm);;
      map_loop n root_pt (u64 (va + PG_SIZE)) (u64 (pa + PG_SIZE)) perm
  end.
Definition map_pages (root_pt va size pa perm : Z) : M kmem Z :=
  if size =? 0 then panic "map_pages: size == 0" else
  if negb (va mod PG_SIZE =? 0) || negb (pa mod PG_SIZE =? 0) || negb (size mod PG_SIZE =? 0)
  then panic "map_pages: not page-aligned" else
  map_loop (Z.to_nat (i32 (Z.shiftr size PG_SHIFT))) root_pt va pa perm.

(** * The kernel page table *)
Definition kvm_map (kernel_root_pt va pa size perm : Z) : M kmem unit :=
  r ← map_pages kernel_root_pt va size pa perm;
  if r =? 0 then mret tt else panic "kvm_map".

(** The linker symbols are parameters; returns [kernel_root_pt]. *)
Definition vm_create_kernel_pt (kernel_start text_end user_vec : Z) : M kmem Z :=
  kernel_root_pt ← kalloc;
  if kernel_root_pt =? NULL then panic "vm_init: failed to kalloc" else
  let map := kvm_map kernel_root_pt in
  map QEMU_SHUTDOWN QEMU_SHUTDOWN PG_SIZE (Z.lor PTE_R PTE_W);;
  map CLINT_BASE CLINT_BASE 0x10000 (Z.lor PTE_R PTE_W);;
  map PLIC_BASE PLIC_BASE PLIC_SIZE (Z.lor PTE_R PTE_W);;
  map UART0_BASE UART0_BASE PG_SIZE (Z.lor PTE_R PTE_W);;
  map VIRTIO0_BASE VIRTIO0_BASE PG_SIZE (Z.lor PTE_R PTE_W);;
  map kernel_start kernel_start (u64 (text_end - kernel_start)) (Z.lor PTE_R PTE_X);;
  map text_end text_end (u64 (PHYS_STOP - text_end)) (Z.lor PTE_R PTE_W);;
  map TRAMPOLINE user_vec PG_SIZE (Z.lor PTE_R PTE_X);;
  mret kernel_root_pt.

(** * User page tables *)
Definition NPTE : Z := PG_SIZE / 8.

(** The inner loop of [proc_free_pagetable]: the level-0 tables under [lv1]. *)
Definition free_lv0 (lv1 : Z) : M kmem unit :=
  for_range (Z.to_nat NPTE) 0 (fun j =>
    e ← load64 (lv1 + 8 * j);
    if has e PTE_V then kfree (pte_to_pa e) else mret tt).
Definition proc_free_pagetable (root : Z) : M kmem unit :=
  for_range (Z.to_nat NPTE) 0 (fun i =>
    e ← load64 (root + 8 * i);
    if has e PTE_V then
      let lv1 := pte_to_pa e in
      free_lv0 lv1;;
      kfree lv1
    else mret tt);;
  kfree root.

Definition proc_pagetable (user_vec trapframe : Z) : M kmem Z :=
  user_root_pt ← kalloc;
  if user_root_pt =? NULL then mret NULL else
  f1 ← map_pages user_root_pt TRAMPOLINE PG_SIZE user_vec (Z.lor PTE_R PTE_X);
  f2 ← map_pages user_root_pt TRAPFRAME PG_SIZE trapframe (Z.lor PTE_R PTE_W);
  if negb (Z.lor f1 f2 =? 0) then
    proc_free_pagetable user_root_pt;;
    mret NULL
  else mret user_root_pt.

(** * Reference-counted pages *)
Definition page_get (pa : Z) : M kmem unit :=
  let p := pa_to_page pa in
  pg ← get_page p;
  if refcount pg <? 1 then panic "page_get: refcount 0 (use-after-free)" else
  update_page p (page_set_refcount (refcount pg + 1)).

Definition page_put (pa : Z) : M kmem unit :=
  let p := pa_to_page pa in
  pg ← get_page p;
  if refcount pg <? 1 then panic "page_put: refcount already 0" else
  if refcount pg =? 1 then kfree pa
  else update_page p (page_set_refcount (refcount pg - 1)).

(** * Reference: the hardware's translation

    The Sv39 page walk of the privileged architecture, without the A/D and
    access-type checks, which depend on the access: an invalid entry or the
    reserved combination W without R faults; an entry with R or X is a leaf, a
    superpage above level 0 with misaligned PPN faults; level 0 must be a leaf. *)
Module Sv39.

Definition vpn (level va : Z) : Z := (va / 2 ^ (12 + 9 * level)) mod 512.
Definition ppn (e : Z) : Z := (e / 2 ^ 10) mod 2 ^ 44.

Fixpoint lookup (level : nat) (m : mem) (table va : Z) : option (Z * Z) :=
  let e := ld64 m (table + 8 * vpn (Z.of_nat level) va) in
  if negb (Z.testbit e 0) || (negb (Z.testbit e 1) && Z.testbit e 2) then None else
  if Z.testbit e 1 || Z.testbit e 3 then
    if ppn e mod 2 ^ (9 * Z.of_nat level) =? 0
    then Some (ppn e * 2 ^ 12 + va mod 2 ^ (12 + 9 * Z.of_nat level), e mod 2 ^ 10)
    else None
  else match level with
  | O => None
  | S l => lookup l m (ppn e * 2 ^ 12) va
  end.

(** Physical address and flag bits for a virtual address of the lower half. *)
Definition translate (m : mem) (root va : Z) : option (Z * Z) :=
  if (0 <=? va) && (va <? 2 ^ 38) then lookup 2 m root va else None.

End Sv39.
