(* ===== verification/VmInv.v ===== *)
(** Page-table trees: the tables of a root, what keeps them well formed, and the
    agreement of the software walk with the hardware's translation. *)
From S2P Require Import Prelude Mem Layout Kalloc Buddy KallocInv KallocAlloc KallocFree KallocSpec Vm.

(** ** Entries *)
Lemma pa_to_pte_val a : 0 <= a < 2 ^ 56 -> pa_to_pte a = (a / 4096) * 1024.
Proof.
  intros. unfold pa_to_pte. rewrite Z.shiftr_div_pow2, Z.shiftl_mul_pow2 by lia. change (2 ^ 12) with 4096. change (2 ^ 10) with 1024.
  apply u64_small. mlia.
Qed.

Lemma lor_pte a f : 0 <= a < 2 ^ 56 -> 0 <= f < 1024 -> Z.lor (pa_to_pte a) f = (a / 4096) * 1024 + f.
Proof.
  intros Ha Hf. rewrite pa_to_pte_val by done. symmetry. rewrite Z.add_nocarry_lxor.
  - apply Z.bits_inj'. intros n Hn. rewrite Z.lxor_spec, Z.lor_spec.
    destruct (Z.ltb_spec n 10) as [Hlt|Hge].
    + change 1024 with (2 ^ 10). rewrite Z.mul_pow2_bits_low by lia. by destruct (Z.testbit f n).
    + assert (Z.testbit f n = false) as ->; [|by destruct (Z.testbit _ n)].
      rewrite <- (Z.mod_small f (2 ^ 10)) by lia. by apply Z.mod_pow2_bits_high.
  - apply Z.bits_inj'. intros n Hn. rewrite Z.land_spec, Z.bits_0.
    destruct (Z.ltb_spec n 10) as [Hlt|Hge].
    + change 1024 with (2 ^ 10). by rewrite Z.mul_pow2_bits_low by lia.
    + rewrite <- (Z.mod_small f (2 ^ 10)) by lia. rewrite Z.mod_pow2_bits_high by lia. by rewrite andb_false_r.
Qed.

Lemma pte_to_pa_lor a f : 0 <= a < 2 ^ 56 -> a mod 4096 = 0 -> 0 <= f < 1024 -> pte_to_pa (Z.lor (pa_to_pte a) f) = a.
Proof.
  intros. rewrite lor_pte by done. unfold pte_to_pa. rewrite Z.shiftr_div_pow2, Z.shiftl_mul_pow2 by lia.
  change (2 ^ 12) with 4096. change (2 ^ 10) with 1024. rewrite u64_small; mlia.
Qed.

Lemma pte_flags_lor a f : 0 <= a < 2 ^ 56 -> 0 <= f < 1024 -> pte_flags (Z.lor (pa_to_pte a) f) = f.
Proof. intros. rewrite lor_pte by done. unfold pte_flags. change 0x3FF with (2 ^ 10 - 1). rewrite land_ones_mod by lia. mlia. Qed.

Lemma pte_range_lor a f : 0 <= a < 2 ^ 56 -> 0 <= f < 1024 -> 0 <= Z.lor (pa_to_pte a) f < 2 ^ 54.
Proof. intros. rewrite lor_pte by done. mlia. Qed.

Lemma pte_bit_lor a f k : 0 <= a < 2 ^ 56 -> 0 <= f < 1024 -> 0 <= k < 10 -> Z.testbit (Z.lor (pa_to_pte a) f) k = Z.testbit f k.
Proof.
  intros Ha Hf Hk. rewrite lor_pte by done. rewrite <- (Z.mod_pow2_bits_low _ 10 k) by lia. change (2 ^ 10) with 1024.
  f_equal. mlia.
Qed.

Lemma has_bit e k : 0 <= k -> has e (Z.shiftl 1 k) = Z.testbit e k.
Proof.
  intros Hk. unfold has. rewrite Z.shiftl_mul_pow2, Z.mul_1_l by done. destruct (Z.testbit e k) eqn:E.
  - apply negb_true_iff, Z.eqb_neq. intros H. assert (Z.testbit (Z.land e (2 ^ k)) k = true) as Hb.
    { rewrite Z.land_spec, E, Z.pow2_bits_true by done. done. }
    by rewrite H, Z.bits_0 in Hb.
  - rewrite land_pow2_clear by done. done.
Qed.

Lemma has_V e : has e PTE_V = Z.testbit e 0.
Proof. by apply has_bit. Qed.

(** ** Indices *)
Definition idx_ok (i : Z) : Prop := 0 <= i < 512.

Lemma PX_vpn l va : 0 <= l -> PX l va = Sv39.vpn l va.
Proof.
  intros. unfold PX, Sv39.vpn, PG_SHIFT. rewrite (land_ones_mod _ 9) by lia. by rewrite Z.shiftr_div_pow2 by lia.
Qed.

Lemma PX_range l va : 0 <= l -> idx_ok (PX l va).
Proof. intros. rewrite PX_vpn by done. apply Z.mod_pos_bound. lia. Qed.

(** A page of the lower half is determined by its three indices. *)
Lemma PX_inj va va' : 0 <= va < MAX_VA -> 0 <= va' < MAX_VA ->
  PX 2 va = PX 2 va' -> PX 1 va = PX 1 va' -> PX 0 va = PX 0 va' -> va / 4096 = va' / 4096.
Proof.
  unfold MAX_VA. change (Z.shiftl 1 38) with (4096 * 512 * 512 * 256). intros ? ?. rewrite !PX_vpn by lia. unfold Sv39.vpn.
  change (2 ^ (12 + 9 * 2)) with (4096 * 512 * 512). change (2 ^ (12 + 9 * 1)) with (4096 * 512). change (2 ^ (12 + 9 * 0)) with 4096.
  mlia.
Qed.

Lemma PX_same va va' l : 0 <= l -> va / 4096 = va' / 4096 -> PX l va = PX l va'.
Proof.
  intros Hl H. rewrite !PX_vpn by done. unfold Sv39.vpn. rewrite !Z.pow_add_r by lia. change (2 ^ 12) with 4096.
  pose proof (pow2_pos (9 * l) ltac:(lia)). rewrite <- !Z.div_div, H by lia. done.
Qed.

(** ** The tables of a root, by path *)
Definition entry (m : mem) (t i : Z) : Z := ld64 m (t + 8 * i).

Fixpoint table_at (m : mem) (t : Z) (q : list Z) : option Z :=
  match q with
  | [] => Some t
  | i :: q' => let e := entry m t i in if has e PTE_V then table_at m (pte_to_pa e) q' else None
  end.

Definition path_ok (q : list Z) : Prop := (length q <= 2)%nat /\ Forall idx_ok q.

(** A table page: a page of the allocator's, held once. *)
Definition is_table (s : kmem) (t : Z) : Prop := live s t 0 /\ refcount (pg s t) = 1.

Record pt_ok (s : kmem) (root : Z) : Prop := {
  pt_table : forall q t, path_ok q -> table_at (ram s) root q = Some t -> is_table s t;
  pt_inj : forall q q' t, path_ok q -> path_ok q' ->
    table_at (ram s) root q = Some t -> table_at (ram s) root q' = Some t -> q = q';
  pt_pointer : forall q i t, path_ok (q ++ [i]) -> table_at (ram s) root q = Some t -> has (entry (ram s) t i) PTE_V = true ->
    exists a, entry (ram s) t i = Z.lor (pa_to_pte a) PTE_V /\ KERN_BASE <= a < PHYS_STOP /\ a mod 4096 = 0
}.

Definition path (va : Z) : list Z := [PX 2 va; PX 1 va].

(** The leaf entry of [va], when valid. *)
Definition pte_of (m : mem) (root va : Z) : option Z :=
  match table_at m root (path va) with
  | Some t => let e := entry m t (PX 0 va) in if has e PTE_V then Some e else None
  | None => None
  end.

(** Leaf entries the hardware takes for 4 KB leaves. *)
Definition leaf_ok (e : Z) : Prop :=
  (Z.testbit e 1 = true \/ Z.testbit e 3 = true) /\ (Z.testbit e 2 = true -> Z.testbit e 1 = true) /\ 0 <= e < 2 ^ 54.
Definition leaves_ok (m : mem) (root : Z) : Prop :=
  forall va e, 0 <= va < MAX_VA -> pte_of m root va = Some e -> leaf_ok e.

Lemma path_ok1 i : idx_ok i -> path_ok [i].
Proof. intros. split; [cbn; lia|]. by apply Forall_singleton. Qed.
Lemma path_ok2 i j : idx_ok i -> idx_ok j -> path_ok [i; j].
Proof. intros. split; [cbn; lia|]. by rewrite Forall_cons, Forall_singleton. Qed.
Lemma path_valid va : path_ok (path va).
Proof. apply path_ok2; apply PX_range; lia. Qed.

Lemma path_ok_app q i : path_ok (q ++ [i]) -> path_ok q /\ idx_ok i.
Proof.
  intros [Hl Hf]. rewrite length_app in Hl. cbn in Hl. apply Forall_app in Hf as [? Hi]. inversion_clear Hi.
  split; [split; [lia|done]|done].
Qed.

Lemma table_at_snoc m i q : forall t, table_at m t (q ++ [i]) =
  match table_at m t q with
  | Some t' => if has (entry m t' i) PTE_V then Some (pte_to_pa (entry m t' i)) else None
  | None => None
  end.
Proof.
  induction q as [|j q IH]; intros t; cbn [table_at app]; [done|]. by destruct (has (entry m t j) PTE_V).
Qed.

(** Agreement with the hardware. *)
Lemma Sv39_leaf m t va e : e = ld64 m (t + 8 * PX 0 va) ->
  Sv39.lookup 0 m t va = if has e PTE_V then
    if (negb (Z.testbit e 1) && Z.testbit e 2) then None else
    if Z.testbit e 1 || Z.testbit e 3 then Some (Sv39.ppn e * 4096 + va mod 4096, e mod 1024) else None else None.
Proof.
  intros ->. rewrite PX_vpn, has_V by lia. cbn [Sv39.lookup]. change (Z.of_nat 0) with 0.
  set (e := ld64 _ _). destruct (Z.testbit e 0); [|done]. cbn [negb orb].
  destruct (negb _ && _); [done|]. destruct (_ || _); [|done].
  change (2 ^ (9 * 0)) with 1. by rewrite Z.mod_1_r.
Qed.

Lemma ppn_pte e : 0 <= e < 2 ^ 54 -> Sv39.ppn e * 4096 = pte_to_pa e.
Proof.
  intros He. unfold Sv39.ppn, pte_to_pa. rewrite Z.shiftr_div_pow2, Z.shiftl_mul_pow2 by lia.
  change (2 ^ 10) with 1024. change (2 ^ 12) with 4096. rewrite u64_small, Z.mod_small; mlia.
Qed.

Lemma Sv39_pointer m l t va a : 0 <= a < 2 ^ 56 -> a mod 4096 = 0 -> ld64 m (t + 8 * PX (Z.of_nat (S l)) va) = Z.lor (pa_to_pte a) PTE_V ->
  Sv39.lookup (S l) m t va = Sv39.lookup l m a va.
Proof.
  intros Ha Hal He. cbn [Sv39.lookup]. rewrite <- PX_vpn, He by lia.
  rewrite !pte_bit_lor by (unfold PTE_V; (done || lia)). change (Z.testbit PTE_V 0) with true. change (Z.testbit PTE_V 1) with false.
  change (Z.testbit PTE_V 2) with false. change (Z.testbit PTE_V 3) with false. cbn [negb andb orb].
  change (2 ^ 12) with 4096. rewrite ppn_pte, pte_to_pa_lor; [done..|]. apply pte_range_lor; done.
Qed.

Lemma Sv39_invalid m l t va : has (ld64 m (t + 8 * PX (Z.of_nat l) va)) PTE_V = false -> Sv39.lookup l m t va = None.
Proof.
  intros He. rewrite has_V, PX_vpn in He by lia. destruct l; cbn [Sv39.lookup]; by rewrite He.
Qed.

Lemma translate_pte s root va : pt_ok s root -> leaves_ok (ram s) root -> 0 <= va < MAX_VA ->
  Sv39.translate (ram s) root va =
    match pte_of (ram s) root va with Some e => Some (pte_to_pa e + va mod 4096, pte_flags e) | None => None end.
Proof.
  intros Hpt Hlv Hva. unfold Sv39.translate. change (2 ^ 38) with MAX_VA.
  replace ((0 <=? va) && (va <? MAX_VA)) with true by lia.
  assert (forall q i t, path_ok (q ++ [i]) -> table_at (ram s) root q = Some t -> has (entry (ram s) t i) PTE_V = true ->
    exists a, 0 <= a < 2 ^ 56 /\ a mod 4096 = 0 /\ entry (ram s) t i = Z.lor (pa_to_pte a) PTE_V /\ pte_to_pa (entry (ram s) t i) = a) as Hp.
  { intros q i t Hq Ht Hv. destruct (pt_pointer _ _ Hpt q i t Hq Ht Hv) as (a & He & Hr & Hal). exists a.
    assert (0 <= a < 2 ^ 56) by klia. rewrite He. split_and!; try done; try lia. by apply pte_to_pa_lor. }
  pose proof (PX_range 2 va ltac:(lia)) as H2. pose proof (PX_range 1 va ltac:(lia)) as H1.
  specialize (Hlv va). unfold pte_of, path in *. cbn [table_at] in *.
  destruct (has (entry (ram s) root (PX 2 va)) PTE_V) eqn:E2.
  2: { rewrite Sv39_invalid by done. done. }
  destruct (Hp [] (PX 2 va) root) as (t1 & ? & ? & He2 & Hpa2); [by apply path_ok1|done|done|].
  rewrite (Sv39_pointer _ 1 _ _ t1) by done. rewrite Hpa2 in *.
  destruct (has (entry (ram s) t1 (PX 1 va)) PTE_V) eqn:E1.
  2: { rewrite Sv39_invalid by done. done. }
  destruct (Hp [PX 2 va] (PX 1 va) t1) as (t0 & ? & ? & He1 & Hpa1);
    [by apply path_ok2|cbn; by rewrite E2, Hpa2|done|].
  rewrite (Sv39_pointer _ 0 _ _ t0) by done. rewrite Hpa1 in *.
  rewrite (Sv39_leaf _ _ _ (entry (ram s) t0 (PX 0 va)) eq_refl).
  destruct (has (entry (ram s) t0 (PX 0 va)) PTE_V); [|reflexivity]. specialize (Hlv _ Hva eq_refl) as (Hrx & Hwr & Hr).
  set (e := entry (ram s) t0 (PX 0 va)) in *. unfold pte_flags. change 0x3FF with (2 ^ 10 - 1).
  rewrite (land_ones_mod e 10), ppn_pte by (done || lia).
  destruct (Z.testbit e 1), (Z.testbit e 2), (Z.testbit e 3); cbn [negb andb orb]; try done; naive_solver.
Qed.
