(* ===== verification/VmWalk.v ===== *)
(** [walk] extends a page table without changing what it maps. *)
From S2P Require Import Prelude Mem Layout Kalloc Buddy KallocInv KallocAlloc KallocFree KallocSpec Vm VmInv.

(** [a] is a table page of [root]. *)
Definition table_of (m : mem) (root a : Z) : Prop := exists q, path_ok q /\ table_at m root q = Some a.

Section walk.
Context {inv : kmem -> Prop} {PA : PageAllocator inv kalloc_pages kfree_pages}.
Implicit Types s : kmem.

(** What an operation on the page table [root] may change: its tables, to which
    it may add fresh pages, and nothing else. *)
Record pt_step (root : Z) (s s' : kmem) : Prop := {
  pg_env : same_env s s';
  pg_inv : inv s';
  pg_pt : pt_ok s' root;
  pg_mono : forall q t, path_ok q -> table_at (ram s) root q = Some t -> table_at (ram s') root q = Some t;
  pg_tables : forall t, table_of (ram s') root t -> table_of (ram s) root t \/ forall k, ~ live s t k;
  pg_live : forall a k, live s' a k <-> live s a k \/ (k = 0 /\ table_of (ram s') root a /\ forall j, ~ live s a j);
  pg_entries : forall a k x, live s a k -> covers a k x -> pg s' x = pg s x;
  pg_frame : forall a k x, live s a k -> ~ table_of (ram s) root a -> covers a k x -> ram s' x = ram s x;
  pg_flags : forall p, flags (pages s' p) = flags (pages s p)
}.

(** Growing the table without changing what it maps. *)
Definition pt_grow (root : Z) (s s' : kmem) : Prop :=
  pt_step root s s' /\ forall va, pte_of (ram s') root va = pte_of (ram s) root va.

Lemma pt_step_refl root s : inv s -> pt_ok s root -> pt_step root s s.
Proof.
  intros Hi Hpt. split; try done.
  - by left.
  - intros a k. split; [by left|]. intros [?|(-> & (q & Hq & Ht) & Hn)]; [done|].
    destruct (Hn 0). by apply (pt_table _ _ Hpt q).
Qed.

Lemma pt_step_trans root s1 s2 s3 : pt_step root s1 s2 -> pt_step root s2 s3 -> pt_step root s1 s3.
Proof using PA.
  intros [[E1 E1'] I1 P1 M1 T1 L1 N1 F1 G1] [[E2 E2'] I2 P2 M2 T2 L2 N2 F2 G2]. split; try done.
  - split; congruence.
  - intros q t Hq Ht. by apply M2, M1.
  - intros t Ht. destruct (T2 t Ht) as [Ht'|Hn]; [by apply T1|]. right. intros k Hk. apply (Hn k), L1. by left.
  - intros a k. rewrite L2, L1. split.
    + intros [[?|(-> & (q & Hq & Ht) & Hn)]|(-> & Ht & Hn)]; [by left|right|right].
      * split_and!; try done. exists q. split; [done|]. by apply M2.
      * split_and!; try done. intros j Hj. apply (Hn j), L1. by left.
    + intros [?|(-> & Ht & Hn)]; [by left; left|]. destruct (T2 a Ht) as [Ht'|Hn'].
      * left. right. by split_and!.
      * right. by split_and!.
  - intros a k x Ha Hx. rewrite (N2 a k x), (N1 a k x); try done. apply L1. by left.
  - intros a k x Ha Hn Hx. rewrite (F2 a k x), (F1 a k x); try done; [apply L1; by left|].
    intros Ht. destruct (T1 a Ht) as [Ht'|Hn']; [done|]. by eapply Hn'.
  - intros p. by rewrite G2, G1.
Qed.

Lemma pt_grow_refl root s : inv s -> pt_ok s root -> pt_grow root s s.
Proof. intros. split; [by apply pt_step_refl|done]. Qed.

Lemma pt_grow_trans root s1 s2 s3 : pt_grow root s1 s2 -> pt_grow root s2 s3 -> pt_grow root s1 s3.
Proof using PA. intros [H1 E1] [H2 E2]. split; [by eapply pt_step_trans|]. intros va. by rewrite E2, E1. Qed.

Lemma table_dram s root q t : inv s -> pt_ok s root -> path_ok q -> table_at (ram s) root q = Some t ->
  free_start s <= t /\ t + 4096 <= PHYS_STOP /\ t mod 4096 = 0 /\ KERN_BASE <= t.
Proof using PA.
  intros Hi Hpt Hq Ht. destruct (pt_table _ _ Hpt q t Hq Ht) as [Hl _].
  destruct (pal_block s t 0 Hi Hl) as (_ & Hal & ? & ?). change (bsz 0) with 4096 in *. split_and!; (done || lia).
Qed.

(** ** One new table *)
Section extend.
Context (s s1 : kmem) (root t i n : Z) (q : list Z).
Context (Hi : inv s) (Hpt : pt_ok s root) (Hq : path_ok (q ++ [i])) (Ht : table_at (ram s) root q = Some t).
Context (He : has (entry (ram s) t i) PTE_V = false).
Context (Hi1 : inv s1) (Hn : n <> NULL) (Hpost : alloc_post 0 s n s1).
Definition extended : kmem := set_ram (st64 (ram s1) (t + 8 * i) (Z.lor (pa_to_pte n) PTE_V)) s1.

Lemma ext_facts : same_env s s1 /\ live_frame s s1 /\ KERN_BASE <= n /\ n + 4096 <= PHYS_STOP /\ n mod 4096 = 0 /\
  (forall x, n <= x < n + 4096 -> ram s1 x = 0) /\ refcount (pg s1 n) = 1 /\
  (forall a k x, live s a k -> covers a k x -> ~ n <= x < n + 4096) /\
  (forall a k, live s1 a k <-> live s a k \/ (a = n /\ k = 0)) /\ (forall p, flags (pages s1 p) = flags (pages s p)).
Proof using PA Hi1 Hn Hpost.
  destruct Hpost as [[? _]|(_ & Henv & Hfr & ? & ? & Hal & Hz & Hrc & Hdj & Hl & Hfl)]; [done|].
  assert (live s1 n 0) as Hln by (apply Hl; by right). destruct (pal_block s1 n 0 Hi1 Hln) as (_ & _ & ? & ?).
  change (bsz 0) with 4096 in *. split_and!; try done; lia.
Qed.

Lemma ext_word p t' j : path_ok p -> table_at (ram s) root p = Some t' -> idx_ok j ->
  entry (ram s1) t' j = entry (ram s) t' j /\ (~ (t' = t /\ j = i) -> entry (ram extended) t' j = entry (ram s) t' j).
Proof using PA Hi Hpt Hq Ht Hi1 Hn Hpost.
  intros Hp Ht' Hj. destruct (path_ok_app _ _ Hq) as [Hq' Hi']. unfold idx_ok in *.
  destruct ext_facts as (_ & Hfr & _).
  destruct (table_dram s root p t' Hi Hpt Hp Ht') as (? & ? & ? & ?). destruct (table_dram s root q t Hi Hpt Hq' Ht) as (? & ? & ? & ?).
  destruct (pt_table _ _ Hpt p t' Hp Ht') as [Hl _].
  assert (entry (ram s1) t' j = entry (ram s) t' j) as Heq.
  { apply ld64_ext. intros x Hx. apply (Hfr t' 0 Hl). unfold covers. change (bsz 0) with 4096. lia. }
  split; [done|]. intros Hne. rewrite <- Heq. unfold entry, extended. ksimpl. apply ld64_st64_ne.
  destruct (decide (t' = t)) as [->|]; [lia|]. mlia.
Qed.

Lemma ext_new : entry (ram extended) t i = Z.lor (pa_to_pte n) PTE_V /\ pte_to_pa (Z.lor (pa_to_pte n) PTE_V) = n.
Proof using PA Hi1 Hn Hpost.
  destruct ext_facts as (_ & _ & ? & ? & ? & _). assert (0 <= n < 2 ^ 56) by klia. split.
  - unfold entry, extended. ksimpl. rewrite ld64_st64_eq; [done|].
    pose proof (pte_range_lor n PTE_V ltac:(done) ltac:(done)). lia.
  - by apply pte_to_pa_lor.
Qed.

Lemma ext_fresh p t' : path_ok p -> table_at (ram s) root p = Some t' -> t' <> n.
Proof using PA Hi Hpt Hi1 Hn Hpost.
  intros Hp Ht' ->. destruct (pt_table _ _ Hpt p n Hp Ht') as [Hl _].
  destruct ext_facts as (_ & _ & _ & _ & _ & _ & _ & Hdj & _). apply (Hdj n 0 n Hl); [|lia]. by apply covers_self.
Qed.

Lemma ext_zero j : idx_ok j -> entry (ram extended) n j = 0.
Proof using PA Hi Hpt Hq Ht Hi1 Hn Hpost.
  intros Hj. unfold idx_ok in Hj. destruct (path_ok_app _ _ Hq) as [Hq' Hi']. unfold idx_ok in Hi'.
  destruct ext_facts as (_ & _ & ? & ? & ? & Hz & _). destruct (table_dram s root q t Hi Hpt Hq' Ht) as (? & ? & ? & ?).
  pose proof (ext_fresh q t Hq' Ht). unfold entry, extended. ksimpl. rewrite ld64_st64_ne by mlia.
  unfold ld64. rewrite (ld_bytes 8 _ _ 0); [done|]. intros k Hk. rewrite Hz by lia. by rewrite Z.shiftr_0_l.
Qed.

Lemma ext_mono p t' : path_ok p -> table_at (ram s) root p = Some t' -> table_at (ram extended) root p = Some t'.
Proof using All.
  revert t'. induction p as [|j p IH] using rev_ind; intros t' Hp; [done|].
  destruct (path_ok_app _ _ Hp) as [Hp' Hj]. rewrite !table_at_snoc.
  destruct (table_at (ram s) root p) as [u|] eqn:Eu; [|done]. rewrite (IH u) by done.
  destruct (ext_word p u j Hp' Eu Hj) as [_ Hw]. destruct (decide (u = t /\ j = i)) as [[-> ->]|Hne]; [by rewrite He|].
  by rewrite Hw.
Qed.

Lemma ext_cases p t' : path_ok p -> table_at (ram extended) root p = Some t' ->
  table_at (ram s) root p = Some t' \/ (p = q ++ [i] /\ t' = n).
Proof using All.
  revert t'. induction p as [|j p IH] using rev_ind; intros t' Hp Hx; [by left|].
  destruct (path_ok_app _ _ Hp) as [Hp' Hj]. rewrite table_at_snoc in Hx.
  destruct (table_at (ram extended) root p) as [u|] eqn:Eu; [|done]. destruct (path_ok_app _ _ Hq) as [Hq' Hi'].
  destruct (IH u Hp' eq_refl) as [Hu|[-> ->]].
  - destruct (decide (u = t /\ j = i)) as [[-> ->]|Hne].
    + right. rewrite (pt_inj _ _ Hpt p q t Hp' Hq' Hu Ht). split; [done|].
      destruct ext_new as [Hen Hpa]. rewrite Hen, Hpa in Hx. destruct (has (Z.lor (pa_to_pte n) PTE_V) PTE_V); [congruence|done].
    + left. rewrite table_at_snoc, Hu. destruct (ext_word p u j Hp' Hu Hj) as [_ Hw]. by rewrite <- Hw.
  - rewrite ext_zero in Hx by done. done.
Qed.

Lemma ext_at : table_at (ram extended) root (q ++ [i]) = Some n.
Proof using All.
  destruct (path_ok_app _ _ Hq) as [Hq' _]. rewrite table_at_snoc, (ext_mono q t) by done. destruct ext_new as [-> ->].
  destruct ext_facts as (_ & _ & ? & ? & _). rewrite has_V, pte_bit_lor; [done|klia|done|done].
Qed.

Lemma ext_not_table k : ~ live s n k.
Proof using PA Hi Hi1 Hn Hpost.
  intros Hl. destruct ext_facts as (_ & _ & _ & _ & _ & _ & _ & Hdj & _). destruct (pal_block s n k Hi Hl) as [? _].
  apply (Hdj n k n Hl); [|lia]. apply covers_self. lia.
Qed.

Lemma ext_live a k : live extended a k <-> live s a k \/ (a = n /\ k = 0).
Proof using PA Hi1 Hn Hpost. destruct ext_facts as (_ & _ & _ & _ & _ & _ & _ & _ & Hl & _). exact (Hl a k). Qed.

Lemma ext_is_table p t' : path_ok p -> table_at (ram extended) root p = Some t' -> is_table extended t'.
Proof using All.
  intros Hp Hx. destruct ext_facts as (_ & Hfr & _ & _ & _ & _ & Hrc & _). destruct (ext_cases p t' Hp Hx) as [Ht'|[_ ->]].
  - destruct (pt_table _ _ Hpt p t' Hp Ht') as [Hl Hr]. split; [apply ext_live; by left|].
    change (pg extended t') with (pg s1 t'). destruct (Hfr t' 0 Hl t') as [_ ->]; [by apply covers_self|done].
  - split; [apply ext_live; by right|exact Hrc].
Qed.

Lemma ext_pt_ok : pt_ok extended root.
Proof using All.
  destruct (path_ok_app _ _ Hq) as [Hq' Hi']. split.
  - apply ext_is_table.
  - intros p p' t' Hp Hp' Hx Hx'. destruct (ext_cases p t' Hp Hx) as [Ha|[-> ->]], (ext_cases p' _ Hp' Hx') as [Hb|[-> Hb]].
    + by apply (pt_inj _ _ Hpt p p' t').
    + subst t'. by apply (ext_fresh p n) in Ha.
    + by apply (ext_fresh p' n) in Hb.
    + done.
  - intros p j t' Hp Hx Hv. destruct (path_ok_app _ _ Hp) as [Hp' Hj].
    destruct (ext_cases p t' Hp' Hx) as [Ha|[-> ->]]; [|by rewrite ext_zero in Hv].
    destruct (decide (t' = t /\ j = i)) as [[-> ->]|Hne].
    + exists n. destruct ext_new as [-> _]. destruct ext_facts as (_ & _ & ? & ? & ? & _). split_and!; (done || lia).
    + destruct (ext_word p t' j Hp' Ha Hj) as [_ Hw]. rewrite Hw in * by done. by apply (pt_pointer _ _ Hpt p j t').
Qed.

Lemma ext_pte va : pte_of (ram extended) root va = pte_of (ram s) root va.
Proof using All.
  pose proof (path_valid va) as Hp. pose proof (PX_range 0 va ltac:(lia)) as Hj. unfold pte_of.
  destruct (table_at (ram s) root (path va)) as [u|] eqn:Eu.
  - rewrite (ext_mono (path va) u) by done. destruct (ext_word (path va) u (PX 0 va) Hp Eu Hj) as [_ Hw].
    rewrite Hw; [done|]. intros [-> _]. destruct (path_ok_app _ _ Hq) as [Hq' _].
    pose proof (pt_inj _ _ Hpt (path va) q t Hp Hq' Eu Ht) as <-. destruct Hq as [Hlen _]. cbn in Hlen. lia.
  - destruct (table_at (ram extended) root (path va)) as [u|] eqn:Eu'; [|done].
    destruct (ext_cases (path va) u Hp Eu') as [Ha|[_ ->]]; [congruence|]. by rewrite ext_zero.
Qed.

Lemma ext_table_of a : table_of (ram extended) root a <-> table_of (ram s) root a \/ a = n.
Proof using All.
  split.
  - intros (p & Hp & Hx). destruct (ext_cases p a Hp Hx) as [Ha|[_ ->]]; [left; by exists p|by right].
  - intros [(p & Hp & Hx)| ->]; [exists p; split; [done|by apply ext_mono]|]. exists (q ++ [i]). split; [done|apply ext_at].
Qed.

Lemma ext_frame a k x : live s a k -> ~ table_of (ram s) root a -> covers a k x -> ram extended x = ram s x.
Proof using All.
  intros Ha Hnt Hx. destruct ext_facts as (_ & Hfr & _). destruct (Hfr a k Ha x Hx) as [Hr _]. rewrite <- Hr.
  destruct (path_ok_app _ _ Hq) as [Hq' Hi']. unfold idx_ok in Hi'. destruct (pt_table _ _ Hpt q t Hq' Ht) as [Hl _].
  apply st64_out. intros Hin. apply Hnt. exists q. split; [done|].
  destruct (pal_disj s a k t 0 x Hi Ha Hl Hx) as [-> _]; [unfold covers; change (bsz 0) with 4096; lia|done].
Qed.

Lemma ext_grow : pt_grow root s extended.
Proof using All.
  split; [|apply ext_pte]. destruct ext_facts as (Henv & Hfr & _ & _ & _ & _ & _ & _ & _ & Hfl). split; try done.
  - eapply pal_client; [exact Hi1|]. split_and!; try done.
    + intros p. by pose proof (pal_u16 s1 p Hi1).
    + intros x Hx. apply st64_out. intros Hin. destruct (path_ok_app _ _ Hq) as [Hq' Hi']. unfold idx_ok in Hi'.
      apply (Hx t 0); [|unfold covers; change (bsz 0) with 4096; lia].
      apply (ext_live t 0). left. by apply (pt_table _ _ Hpt q).
  - apply ext_pt_ok.
  - intros p t' Hp Hx. by apply ext_mono.
  - intros a [Ha| ->]%ext_table_of; [by left|]. right. apply ext_not_table.
  - intros a k. rewrite ext_live, ext_table_of. split.
    + intros [?|[-> ->]]; [by left|]. right. split_and!; [done|by right|apply ext_not_table].
    + intros [?|(-> & [(p & Hp & Hx)| ->] & Hnl)]; [by left| |by right].
      destruct (Hnl 0). by apply (pt_table _ _ Hpt p).
  - intros a k x Ha Hx. by destruct (Hfr a k Ha x Hx).
  - apply ext_frame.
Qed.
End extend.

(** ** walk *)

(** No page is left for another table. *)
Definition no_memory (s : kmem) : Prop := forall k, 0 <= k <= MAX_ORDER -> nr_free (free_areas s k) = 0.

Lemma walk_levels_spec root va alloc : forall n s q t, inv s -> pt_ok s root -> (n <= 2)%nat ->
  path va = q ++ drop (2 - n) (path va) -> length q = (2 - n)%nat -> table_at (ram s) root q = Some t ->
  wp (walk_levels n t va alloc) (fun r s' => pt_grow root s s' /\ (alloc = false -> s' = s) /\
    ((r = NULL /\ ((alloc = true /\ no_memory s') \/ (alloc = false /\ table_at (ram s) root (path va) = None))) \/
     (exists u, table_at (ram s') root (path va) = Some u /\ r = u + 8 * PX 0 va /\ r <> NULL))) s.
Proof using PA.
  induction n as [|n IH]; intros s q t Hi Hpt Hn Hpath Hlen Ht; cbn [walk_levels].
  - wp_steps. split; [by apply pt_grow_refl|]. split; [done|]. right. exists t.
    change (drop (2 - 0) (path va)) with (@nil Z) in Hpath. rewrite app_nil_r in Hpath. rewrite Hpath at 1. split_and!; try done.
    destruct (table_dram s root q t Hi Hpt) as (? & ? & ? & ?); [rewrite <- Hpath; apply path_valid|done|].
    pose proof (PX_range 0 va ltac:(lia)) as Hx. unfold idx_ok in Hx. klia.
  - assert (drop (2 - S n) (path va) = PX (Z.of_nat (S n)) va :: drop (2 - n) (path va)) as Hd.
    { assert (n = 0%nat \/ n = 1%nat) as [-> | ->] by lia; done. }
    rewrite Hd in Hpath. set (i := PX (Z.of_nat (S n)) va) in *.
    assert (path_ok (q ++ [i])) as Hqi.
    { pose proof (path_valid va) as [Hpl Hpf]. rewrite Hpath in Hpf. apply Forall_app in Hpf as [Hf1 Hf2].
      inversion_clear Hf2. split; [rewrite length_app; cbn; lia|]. apply Forall_app. by rewrite Forall_singleton. }
    destruct (path_ok_app _ _ Hqi) as [Hq Hidx]. destruct (table_dram s root q t Hi Hpt Hq Ht) as (? & ? & ? & ?).
    unfold idx_ok in Hidx. cbv zeta. wp_steps. apply wp_load64; [lia..|]. fold (entry (ram s) t i).
    assert (path va = (q ++ [i]) ++ drop (2 - n) (path va)) as Hpath' by (by rewrite <- app_assoc).
    assert (length (q ++ [i]) = (2 - n)%nat) as Hlen' by (rewrite length_app; cbn; lia).
    destruct (has (entry (ram s) t i) PTE_V) eqn:He; [|destruct alloc].
    + apply (IH s (q ++ [i])); try done; [lia|]. by rewrite table_at_snoc, Ht, He.
    + wp_steps. eapply wp_mono; [apply (pal_alloc 0 s Hi); klia|]. intros r s1 [Hpost Hi1].
      destruct (Z.eqb_spec r NULL) as [->|Hr].
      * wp_steps. destruct Hpost as [(_ & -> & Hnf)|[? _]]; [|done]. split; [by apply pt_grow_refl|].
        split; [done|]. left. split; [done|]. by left.
      * destruct (ext_facts s s1 r Hi1 Hr Hpost) as ([Hfs _] & _). wp_steps. apply wp_store64; [lia..|].
        fold (extended s1 t i r). pose proof (ext_grow s s1 root t i r q Hi Hpt Hqi Ht He Hi1 Hr Hpost) as Hg.
        eapply wp_mono; [apply (IH (extended s1 t i r) (q ++ [i])); try done; [apply Hg|apply Hg|lia|exact (ext_at s s1 root t i r q Hi Hpt Hqi Ht He Hi1 Hr Hpost)]|].
        intros r' s' (Hg' & _ & Hres). split; [by eapply pt_grow_trans|]. split; [done|].
        destruct Hres as [(-> & [[_ Hnf]|[? _]])|Hu]; [|done|by right]. left. split; [done|]. by left.
    + wp_steps. split; [by apply pt_grow_refl|]. split; [done|]. left. split; [done|]. right. split; [done|].
      rewrite Hpath'. clear -Ht He. generalize (drop (2 - n) (path va)). intros l.
      enough (table_at (ram s) root (q ++ [i]) = None) as Hnone.
      { revert Hnone. generalize (q ++ [i]). intros p. revert root Ht. clear. intros root _. revert root.
        induction p as [|j p IH]; intros root; [done|]. cbn [table_at app]. destruct (has _ _); [apply IH|done]. }
      by rewrite table_at_snoc, Ht, He.
Qed.

Lemma walk_spec s root va alloc : inv s -> pt_ok s root -> 0 <= va < MAX_VA ->
  wp (walk root va alloc) (fun r s' => pt_grow root s s' /\ (alloc = false -> s' = s) /\
    ((r = NULL /\ ((alloc = true /\ no_memory s') \/ (alloc = false /\ table_at (ram s) root (path va) = None))) \/
     (exists u, table_at (ram s') root (path va) = Some u /\ r = u + 8 * PX 0 va /\ r <> NULL))) s.
Proof using PA.
  intros Hi Hpt Hva. unfold walk. destruct (Z.leb_spec MAX_VA va); [lia|].
  by apply (walk_levels_spec root va alloc 2 s [] root).
Qed.
End walk.
