(* ===== verification/VmMap.v ===== *)
(** Writing leaf entries: [map_pages] installs exactly the mappings it is asked for.

    [proc_free_pagetable] frees exactly the table pages of a root. *)
From S2P Require Import Prelude Mem Layout Kalloc Buddy KallocInv KallocAlloc KallocFree KallocSpec Vm VmInv VmWalk.

(** ** The entry map_pages writes *)
Lemma lor_range a b k : 0 <= k -> 0 <= a < 2 ^ k -> 0 <= b < 2 ^ k -> 0 <= Z.lor a b < 2 ^ k.
Proof.
  intros Hk Ha Hb. replace (Z.lor a b) with (Z.lor a b mod 2 ^ k); [apply Z.mod_pos_bound; lia|].
  rewrite <- !Z.land_ones, Z.land_lor_distr_l, !Z.land_ones, !Z.mod_small by done. done.
Qed.

Lemma leaf_pte_eq pa perm : leaf_pte pa perm = Z.lor (pa_to_pte pa) (Z.lor perm 0xC1).
Proof. unfold leaf_pte. by rewrite <- !Z.lor_assoc. Qed.

Lemma leaf_pte_facts pa perm : 0 <= pa < 2 ^ 56 -> 0 <= perm < 1024 ->
  has (leaf_pte pa perm) PTE_V = true /\ 0 <= leaf_pte pa perm < 2 ^ 64.
Proof.
  intros Hpa Hp. rewrite leaf_pte_eq. pose proof (lor_range perm 0xC1 10 ltac:(lia) ltac:(lia) ltac:(lia)) as Hr.
  rewrite has_V, pte_bit_lor by (done || lia). split; [rewrite Z.lor_spec; by destruct (Z.testbit perm 0)|].
  pose proof (pte_range_lor pa (Z.lor perm 0xC1) Hpa Hr). lia.
Qed.

Section map.
Context {inv : kmem -> Prop} {PA : PageAllocator inv kalloc_pages kfree_pages}.
Implicit Types s : kmem.

(** ** Writing the leaf entry of [va] *)
Section leaf.
Context (s : kmem) (root va u v : Z) (Hi : inv s) (Hpt : pt_ok s root) (Hva : 0 <= va < MAX_VA).
Context (Hu : table_at (ram s) root (path va) = Some u) (Hv : 0 <= v < 2 ^ 64).
Definition with_leaf : kmem := set_ram (st64 (ram s) (u + 8 * PX 0 va) v) s.

Lemma leaf_dram : free_start s <= u /\ u + 4096 <= PHYS_STOP /\ u mod 4096 = 0 /\ KERN_BASE <= u /\ idx_ok (PX 0 va).
Proof using PA Hi Hpt Hu.
  destruct (table_dram s root (path va) u Hi Hpt (path_valid va) Hu) as (? & ? & ? & ?).
  split_and!; try done. apply PX_range. lia.
Qed.

Lemma leaf_word q t j : path_ok q -> table_at (ram s) root q = Some t -> idx_ok j -> ~ (t = u /\ j = PX 0 va) ->
  entry (ram with_leaf) t j = entry (ram s) t j.
Proof using All.
  intros Hq Ht Hj Hne. destruct leaf_dram as (? & ? & ? & ? & ?). destruct (table_dram s root q t Hi Hpt Hq Ht) as (? & ? & ? & ?).
  unfold idx_ok in *. unfold entry, with_leaf. ksimpl. apply ld64_st64_ne. destruct (decide (t = u)) as [->|]; [lia|mlia].
Qed.

Lemma leaf_tables q : path_ok q -> table_at (ram with_leaf) root q = table_at (ram s) root q.
Proof using All.
  induction q as [|j q IH] using rev_ind; intros Hp; [done|]. destruct (path_ok_app _ _ Hp) as [Hq Hj].
  rewrite !table_at_snoc, IH by done. destruct (table_at (ram s) root q) as [t|] eqn:Et; [|done].
  rewrite (leaf_word q t j); try done. intros [-> _].
  pose proof (pt_inj _ _ Hpt q (path va) u Hq (path_valid va) Et Hu) as ->. destruct Hp as [Hlen _]. cbn in Hlen. lia.
Qed.

Lemma leaf_table_of a : table_of (ram with_leaf) root a <-> table_of (ram s) root a.
Proof using All. split; intros (q & Hq & Ht); exists q; (split; [done|]); [by rewrite <- leaf_tables|by rewrite leaf_tables]. Qed.

Lemma leaf_pt_ok : pt_ok with_leaf root.
Proof using All.
  split.
  - intros q t Hq Ht. rewrite leaf_tables in Ht by done. by apply (pt_table _ _ Hpt q).
  - intros q q' t Hq Hq' Ht Ht'. rewrite leaf_tables in Ht, Ht' by done. by apply (pt_inj _ _ Hpt q q' t).
  - intros q i t Hq Ht. destruct (path_ok_app _ _ Hq) as [Hq' Hj]. rewrite leaf_tables in Ht by done.
    rewrite (leaf_word q t i); try done; [by apply (pt_pointer _ _ Hpt q i t)|]. intros [-> _].
    pose proof (pt_inj _ _ Hpt q (path va) u Hq' (path_valid va) Ht Hu) as ->. destruct Hq as [Hlen _]. cbn in Hlen. lia.
Qed.

Lemma leaf_pte_of va' : 0 <= va' < MAX_VA -> pte_of (ram with_leaf) root va' =
  if decide (va' / 4096 = va / 4096) then (if has v PTE_V then Some v else None) else pte_of (ram s) root va'.
Proof using All.
  intros Hva'. unfold pte_of. rewrite leaf_tables by apply path_valid. case_decide as Hpage.
  - unfold path. rewrite !(PX_same va' va) by (done || lia). fold (path va). rewrite Hu.
    unfold entry, with_leaf. ksimpl. by rewrite ld64_st64_eq.
  - destruct (table_at (ram s) root (path va')) as [t|] eqn:Et; [|done].
    rewrite (leaf_word (path va') t (PX 0 va')); [done|apply path_valid|done|apply PX_range; lia|].
    intros [-> H0]. apply Hpage. pose proof (pt_inj _ _ Hpt _ _ _ (path_valid va') (path_valid va) Et Hu) as Hpp.
    unfold path in Hpp. injection Hpp as H2 H1. by apply PX_inj.
Qed.

Lemma leaf_step : pt_step (inv:=inv) root s with_leaf.
Proof using All.
  destruct leaf_dram as (? & ? & ? & ? & Hj). unfold idx_ok in Hj.
  destruct (pt_table _ _ Hpt _ _ (path_valid va) Hu) as [Hl _].
  assert (forall x, u + 8 * PX 0 va <= x < u + 8 * PX 0 va + 8 -> covers u 0 x) as Hcov.
  { intros x Hx. unfold covers. change (bsz 0) with 4096. lia. }
  split; try done.
  - eapply pal_client; [exact Hi|]. split_and!; try done.
    + intros p. by pose proof (pal_u16 s p Hi).
    + intros x Hx. apply st64_out. intros Hin. by apply (Hx u 0), Hcov.
  - apply leaf_pt_ok.
  - intros q t Hq Ht. by rewrite leaf_tables.
  - intros a Ha%leaf_table_of. by left.
  - intros a k. change (live with_leaf a k) with (live s a k). split; [by left|]. intros [?|(-> & Ht & Hn)]; [done|].
    apply leaf_table_of in Ht as (q & Hq & Ht). destruct (Hn 0). by apply (pt_table _ _ Hpt q).
  - intros a k x Ha Hn Hx. apply st64_out. intros Hin. apply Hn. exists (path va). split; [apply path_valid|].
    by destruct (pal_disj s a k u 0 x Hi Ha Hl Hx (Hcov x Hin)) as [-> _].
Qed.
End leaf.

(** ** map_pages *)

(** [m'] maps [n] pages from [va] to the pages from [pa], and else what [m] maps. *)
Definition mapped (root va : Z) (n : nat) (pa perm : Z) (m m' : mem) : Prop :=
  forall va', 0 <= va' < MAX_VA -> pte_of m' root va' =
    if decide (va <= va' < va + Z.of_nat n * 4096) then Some (leaf_pte (pa + (va' / 4096 * 4096 - va)) perm) else pte_of m root va'.

Lemma pte_of_page m root va va' : va / 4096 = va' / 4096 -> pte_of m root va = pte_of m root va'.
Proof using Type. intros H. unfold pte_of, path. by rewrite !(PX_same va va') by (done || lia). Qed.

Lemma map_loop_spec root perm : 0 <= perm < 1024 -> forall n s va pa, inv s -> pt_ok s root ->
  va mod 4096 = 0 -> pa mod 4096 = 0 -> 0 <= va -> va + Z.of_nat n * 4096 <= MAX_VA -> 0 <= pa -> pa + Z.of_nat n * 4096 <= 2 ^ 56 ->
  (forall va', va <= va' < va + Z.of_nat n * 4096 -> pte_of (ram s) root va' = None) ->
  wp (map_loop n root va pa perm) (fun r s' => pt_step (inv:=inv) root s s' /\
    exists k, mapped root va k pa perm (ram s) (ram s') /\
      ((r = 0 /\ k = n) \/ (r = -1 /\ (k < n)%nat /\ no_memory s'))) s.
Proof using PA.
  intros Hperm. assert (MAX_VA = 2 ^ 38) as Hmax by done.
  induction n as [|n IH]; intros s va pa Hi Hpt Hva Hpa Hva0 Hva1 Hpa0 Hpa1 Hfree; cbn [map_loop].
  { wp_steps. split; [by apply pt_step_refl|]. exists O. split; [|by left]. intros va' _. by rewrite decide_False by lia. }
  wp_steps. eapply wp_mono; [apply (walk_spec s root va true Hi Hpt); lia|].
  intros r s1 ([Hst Hpte] & _ & [(-> & [[_ Hnm]|[? _]])|(u & Hu & -> & Hnz)]); [|done|].
  { rewrite Z.eqb_refl. wp_steps. split; [done|]. exists O. split; [|right; split_and!; (done || lia)].
    intros va' _. rewrite decide_False by lia. apply Hpte. }
  destruct (Z.eqb_spec (u + 8 * PX 0 va) NULL) as [|_]; [done|].
  assert (0 <= va < MAX_VA) as Hvar by lia. pose proof (pg_inv _ _ _ Hst) as Hi1. pose proof (pg_pt _ _ _ Hst) as Hpt1.
  destruct (leaf_dram s1 root va u Hi1 Hpt1 Hu) as (? & ? & ? & ? & Hidx). unfold idx_ok in Hidx.
  wp_steps. apply wp_load64; [lia..|].
  destruct (has (ld64 (ram s1) (u + 8 * PX 0 va)) PTE_V) eqn:Ev.
  { exfalso. specialize (Hfree va ltac:(lia)). rewrite <- Hpte in Hfree. unfold pte_of, entry in Hfree. by rewrite Hu, Ev in Hfree. }
  wp_steps. apply wp_store64; [lia..|]. fold (with_leaf s1 va u (leaf_pte pa perm)).
  assert (has (leaf_pte pa perm) PTE_V = true /\ 0 <= leaf_pte pa perm < 2 ^ 64) as [HlV Hlr] by (apply leaf_pte_facts; lia).
  pose proof (leaf_step s1 root va u (leaf_pte pa perm) Hi1 Hpt1 Hvar Hu Hlr) as Hst2.
  pose proof (leaf_pte_of s1 root va u (leaf_pte pa perm) Hi1 Hpt1 Hvar Hu Hlr) as Hpte2. rewrite HlV in Hpte2.
  set (s2 := with_leaf _ _ _ _) in *. rewrite PG_SIZE_val, !u64_small by lia.
  eapply wp_mono; [apply (IH s2); try lia|].
  - apply Hst2.
  - apply Hst2.
  - rewrite Z.add_mod, Hva by lia. done.
  - rewrite Z.add_mod, Hpa by lia. done.
  - intros va' Hva'. rewrite Hpte2 by lia. rewrite decide_False by mlia. rewrite Hpte. apply Hfree. lia.
  - intros r' s' (Hst3 & k & Hmap & Hres). split; [eapply pt_step_trans; [done|by eapply pt_step_trans]|].
    exists (S k). split; [|destruct Hres as [[? ?]|(? & ? & ?)]; [left|right]; split_and!; (done || lia)].
    intros va' Hva'. rewrite Hmap by done. case_decide as Hc1; case_decide as Hc2; try lia.
    + do 2 f_equal. lia.
    + rewrite Hpte2 by done. rewrite decide_True by mlia. do 2 f_equal. mlia.
    + rewrite Hpte2 by done. rewrite decide_False by mlia. apply Hpte.
Qed.
End map.

(** * Freeing a page table *)

Section free.
Context {inv : kmem -> Prop} {PA : PageAllocator inv kalloc_pages kfree_pages}.
Context (s0 : kmem) (root : Z) (Hi0 : inv s0) (Hpt : pt_ok s0 root).

(** The tables on the paths [D] are gone; everything else is as in [s0]. *)
Definition gone_at (D : list Z -> Prop) (a : Z) : Prop :=
  exists q, path_ok q /\ D q /\ table_at (ram s0) root q = Some a.

Record pruned (D : list Z -> Prop) (s : kmem) : Prop := {
  pr_inv : inv s;
  pr_env : same_env s0 s;
  pr_live : forall a k, live s a k <-> live s0 a k /\ ~ gone_at D a;
  pr_keep : forall a k x, live s a k -> covers a k x -> ram s x = ram s0 x /\ pg s x = pg s0 x
}.

Lemma pruned_ext D D' s : (forall q, path_ok q -> D q <-> D' q) -> pruned D s -> pruned D' s.
Proof using Type.
  intros HD [? ? Hl ?]. split; try done. intros a k. rewrite Hl.
  assert (gone_at D a <-> gone_at D' a); [|tauto].
  split; intros (q & Hq & Hd & Ht); exists q; (split_and!; [done| |done]); by apply HD.
Qed.

Lemma pruned_start : pruned (fun _ => False) s0.
Proof using Hi0. split; try done. intros a k. split; [|tauto]. intros ?. split; [done|]. by intros (q & _ & [] & _). Qed.

Section table.
Context (D : list Z -> Prop) (s : kmem) (q : list Z) (t : Z).
Context (HD : pruned D s) (Hq : path_ok q) (Hnd : ~ D q) (Ht : table_at (ram s0) root q = Some t).

Lemma kept_table : live s t 0 /\ refcount (pg s t) = 1 /\ free_start s <= t /\ t + 4096 <= PHYS_STOP /\
  forall x, t <= x < t + 4096 -> ram s x = ram s0 x.
Proof using All.
  destruct (pt_table _ _ Hpt q t Hq Ht) as [Hl Hr].
  assert (live s t 0) as Hls.
  { apply (pr_live _ _ HD). split; [done|]. intros (q' & Hq' & Hd & Ht').
    by rewrite (pt_inj _ _ Hpt q' q t Hq' Hq Ht' Ht) in Hd. }
  destruct (pal_block s t 0 (pr_inv _ _ HD) Hls) as (_ & _ & ? & ?). change (bsz 0) with 4096 in *.
  split_and!; try done; try lia.
  - destruct (pr_keep _ _ HD t 0 t Hls) as [_ ->]; [by apply covers_self|done].
  - intros x Hx. apply (pr_keep _ _ HD t 0 x Hls). unfold covers. by change (bsz 0) with 4096.
Qed.

Lemma kept_entry j : idx_ok j -> entry (ram s) t j = entry (ram s0) t j.
Proof using All. intros Hj. unfold idx_ok in Hj. destruct kept_table as (_ & _ & _ & _ & Hk). apply ld64_ext. intros x Hx. apply Hk. lia. Qed.

Lemma kept_load j (Q : Z -> kmem -> Prop) : idx_ok j -> Q (entry (ram s0) t j) s -> wp (load64 (t + 8 * j)) Q s.
Proof using All.
  intros Hj HQ. pose proof (kept_entry j Hj) as He. unfold idx_ok in Hj. destruct kept_table as (_ & _ & ? & ? & _).
  apply wp_load64; [lia..|]. fold (entry (ram s) t j). by rewrite He.
Qed.

Lemma prune_one : wp (kfree t) (fun _ s' => pruned (fun p => D p \/ p = q) s') s.
Proof using All.
  destruct kept_table as (Hl & Hr & _). destruct HD as [Hi [Hf Hc] Hlv Hkp].
  eapply wp_mono; [apply (pal_free t 0 s Hi Hl Hr)|]. intros [] s' (([Hf' Hc'] & Hpg & Hl' & Hram) & Hi').
  assert (forall a, gone_at (fun p => D p \/ p = q) a <-> gone_at D a \/ a = t) as Hg.
  { intros a. split.
    - intros (p & Hp & [Hd| ->] & Hta); [left; by exists p|right; congruence].
    - intros [(p & Hp & Hd & Hta)| ->]; [exists p; split_and!; try done; by left|exists q; split_and!; try done; by right]. }
  split; [done|split; congruence|intros a k; rewrite Hl', Hlv, Hg; tauto|].
  intros a k x [Ha Hne]%Hl' Hx. rewrite (Hram a k x Ha Hne Hx). destruct (Hkp a k x Ha Hx) as [Hr1 Hp1]. split; [done|].
  rewrite <- Hp1. unfold pg. rewrite Hpg, upd_ne; [done|]. intros Heq. apply Hne.
  destruct (pal_block s a k Hi Ha) as (? & ? & ? & ?). destruct (pal_block s t 0 Hi Hl) as (_ & Halt & ? & ?).
  change (bsz 0) with 4096 in *.
  assert (t <= x < t + 4096) as Hxt.
  { unfold covers in Hx. rewrite !pa_to_page_val, KERN_BASE_val in Heq by lia. rewrite KERN_BASE_val in *. mlia. }
  by destruct (pal_disj s a k t 0 x Hi Ha Hl Hx) as [-> _]; [unfold covers; by change (bsz 0) with 4096|].
Qed.
End table.

(** ** The loops *)
Lemma table_child q j t : path_ok (q ++ [j]) -> table_at (ram s0) root q = Some t -> has (entry (ram s0) t j) PTE_V = true ->
  table_at (ram s0) root (q ++ [j]) = Some (pte_to_pa (entry (ram s0) t j)).
Proof using Type. intros _ Ht Hv. by rewrite table_at_snoc, Ht, Hv. Qed.

Lemma no_child q j t : table_at (ram s0) root q = Some t -> has (entry (ram s0) t j) PTE_V = false ->
  table_at (ram s0) root (q ++ [j]) = None.
Proof using Type. intros Ht Hv. by rewrite table_at_snoc, Ht, Hv. Qed.

(** Dropping a path without a table changes nothing. *)
Lemma prune_none D s q : pruned D s -> table_at (ram s0) root q = None -> pruned (fun p => D p \/ p = q) s.
Proof using Type.
  intros [? ? Hl ?] Hn. split; try done. intros a k. rewrite Hl.
  assert (gone_at (fun p => D p \/ p = q) a <-> gone_at D a); [|tauto]. split.
  - intros (p & Hp & [Hd| ->] & Ht); [by exists p|congruence].
  - intros (p & Hp & Hd & Ht). exists p. split_and!; try done. by left.
Qed.

Lemma free_lv0_spec D s i lv1 : pruned D s -> idx_ok i -> table_at (ram s0) root [i] = Some lv1 ->
  ~ D [i] -> (forall j, ~ D [i; j]) ->
  wp (free_lv0 lv1) (fun _ s' => pruned (fun p => D p \/ exists j, idx_ok j /\ p = [i; j]) s') s.
Proof using All.
  intros HD Hi Ht Hni Hnj. unfold free_lv0.
  apply (wp_for_range (fun n s' => pruned (fun p => D p \/ exists j, 0 <= j < n /\ p = [i; j]) s')).
  - eapply pruned_ext; [|exact HD]. intros p _. split; [by left|]. intros [?|(j & ? & _)]; [done|lia].
  - change (Z.of_nat (Z.to_nat NPTE)) with 512. intros j s' Hj HD'. assert (idx_ok j) as Hjo by (unfold idx_ok; lia).
    assert (~ (D [i] \/ exists j', 0 <= j' < j /\ [i] = [i; j'])) as Hnl by (intros [?|(? & _ & ?)]; done).
    assert (~ (D [i; j] \/ exists j', 0 <= j' < j /\ [i; j] = [i; j'])) as Hnl' by (intros [?|(? & ? & [= ->])]; [by eapply Hnj|lia]).
    assert (path_ok [i; j]) as Hp2 by by apply path_ok2.
    wp_steps. apply (kept_load _ s' [i] lv1 HD'); try done; [by apply path_ok1|].
    assert (forall s'', pruned (fun p => (D p \/ exists j', 0 <= j' < j /\ p = [i; j']) \/ p = [i; j]) s'' ->
      pruned (fun p => D p \/ exists j', 0 <= j' < j + 1 /\ p = [i; j']) s'') as Hnext.
    { intros s''. apply pruned_ext. intros p _. split.
      - intros [[?|(j' & ? & ->)]| ->]; [by left|right; exists j'; split; [lia|done]|right; exists j; split; [lia|done]].
      - intros [?|(j' & ? & ->)]; [by left; left|]. destruct (decide (j' = j)) as [->|]; [by right|]. left. right. exists j'. split; [lia|done]. }
    destruct (has (entry (ram s0) lv1 j) PTE_V) eqn:Ev.
    + eapply wp_mono; [apply (prune_one _ s' [i; j] _ HD' Hp2 Hnl'); by apply (table_child [i] j lv1)|]. intros [] s''. apply Hnext.
    + wp_steps. apply Hnext. apply prune_none; [done|]. by apply (no_child [i] j lv1).
  - change (Z.of_nat (Z.to_nat NPTE)) with 512. intros s'. apply pruned_ext. intros p _. unfold idx_ok. done.
Qed.

Lemma proc_free_pagetable_spec : wp (proc_free_pagetable root) (fun _ s' => pruned (fun _ => True) s') s0.
Proof using All.
  unfold proc_free_pagetable. wp_steps.
  apply (wp_for_range (fun n s' => pruned (fun p => exists i p', 0 <= i < n /\ p = i :: p') s')).
  - eapply pruned_ext; [|exact pruned_start]. intros p _. split; [done|]. intros (i & p' & ? & _). lia.
  - change (Z.of_nat (Z.to_nat NPTE)) with 512. intros i s' Hi HD. assert (idx_ok i) as Hio by (unfold idx_ok; lia).
    wp_steps. apply (kept_load _ s' [] root HD); try done; [by split; cbn; [lia|constructor]|by intros (? & ? & _ & ?)|].
    destruct (has (entry (ram s0) root i) PTE_V) eqn:Ev.
    + pose proof (table_child [] i root (path_ok1 i Hio) eq_refl Ev) as Ht1. cbn [app] in Ht1. set (lv1 := pte_to_pa _) in *.
      assert (forall p', ~ (exists i' p'', 0 <= i' < i /\ i :: p' = i' :: p'')) as Hni by (intros p' (i' & p'' & ? & [= -> _]); lia).
      wp_steps. eapply wp_mono; [apply (free_lv0_spec _ s' i lv1 HD Hio Ht1 (Hni []) (fun j => Hni [j]))|].
      intros [] s'' HD'. eapply wp_mono; [apply (prune_one _ s'' [i] lv1 HD' (path_ok1 i Hio)); [|done]|].
      { intros [?|(j & _ & ?)]; [by eapply (Hni [])|done]. }
      intros [] s3. apply pruned_ext. intros p [Hlen Hok]. split.
      * intros [[(i' & p' & ? & ->)|(j & ? & ->)]| ->]; [exists i', p'|exists i, [j]|exists i, []]; (split; [lia|done]).
      * intros (i' & p' & ? & ->). destruct (decide (i' = i)) as [->|]; [|left; left; exists i', p'; split; [lia|done]].
        cbn in Hlen. destruct p' as [|j [|? ?]]; [by right|left; right|cbn in Hlen; lia].
        exists j. split; [|done]. rewrite !Forall_cons in Hok. tauto.
    + wp_steps. pose proof (no_child [] i root eq_refl Ev) as Hn. cbn [app] in Hn.
      destruct HD as [? ? Hl ?]. split; try done. intros a k. rewrite Hl.
      assert (gone_at (fun p => exists i' p', 0 <= i' < i + 1 /\ p = i' :: p') a <-> gone_at (fun p => exists i' p', 0 <= i' < i /\ p = i' :: p') a); [|tauto].
      split; intros (p & Hp & (i' & p' & ? & ->) & Ht); exists (i' :: p'); (split_and!; [done| |done]); exists i', p'; (split; [|done]); [|lia].
      destruct (decide (i' = i)) as [->|]; [|lia]. exfalso. cbn [table_at] in Ht, Hn. destruct (has (entry (ram s0) root i) PTE_V); done.
  - change (Z.of_nat (Z.to_nat NPTE)) with 512. intros s' HD.
    eapply wp_mono; [apply (prune_one _ s' [] root HD); try done; [by split; cbn; [lia|constructor]|by intros (? & ? & _ & ?)]|].
    intros [] s''. apply pruned_ext. intros [|i p'] [Hlen Hok]; [split; [done|by right]|]. split; [done|]. intros _. left.
    apply Forall_cons in Hok as [Hio _]. exists i, p'. by split.
Qed.
End free.
