(* ===== verification/VmThm.v ===== *)
(** Theorems on page tables ([kernel/vm.c]), with instances at a booted memory. *)
From S2P Require Import Prelude Mem Layout Kalloc Buddy KallocInv KallocAlloc KallocFree KallocSpec KallocThm.
From S2P Require Import Vm VmInv VmWalk VmMap.

(** ** A fresh root *)
Section root.
Context {inv : kmem -> Prop} {PA : PageAllocator inv kalloc_pages kfree_pages}.

Lemma fresh_root s s1 r : inv s1 -> r <> NULL -> alloc_post 0 s r s1 ->
  pt_ok s1 r /\ (forall va, pte_of (ram s1) r va = None) /\ (forall t, table_of (ram s1) r t <-> t = r).
Proof using PA.
  intros Hi Hr Hpost. destruct (ext_facts s s1 r Hi Hr Hpost) as (_ & _ & ? & ? & ? & Hz & Hrc & _ & Hl & _).
  assert (forall j, idx_ok j -> entry (ram s1) r j = 0) as He.
  { intros j Hj. unfold idx_ok in Hj. unfold entry, ld64. rewrite (ld_bytes 8 _ _ 0); [done|].
    intros k Hk. rewrite Hz by lia. by rewrite Z.shiftr_0_l. }
  assert (forall q t, path_ok q -> table_at (ram s1) r q = Some t -> q = [] /\ t = r) as Hroot.
  { intros [|i q] t [_ Hok] Ht; cbn [table_at] in Ht; [by simplify_eq|]. apply Forall_cons in Hok as [Hi' _]. by rewrite He in Ht. }
  split_and!.
  - split.
    + intros q t Hq Ht. destruct (Hroot q t Hq Ht) as [_ ->]. split; [|done]. apply Hl. by right.
    + intros q q' t Hq Hq' Ht Ht'. destruct (Hroot q t Hq Ht) as [-> _]. by destruct (Hroot q' t Hq' Ht') as [-> _].
    + intros q i t Hq Ht Hv. destruct (path_ok_app _ _ Hq) as [Hq' Hi']. destruct (Hroot q t Hq' Ht) as [_ ->]. by rewrite He in Hv.
  - intros va. unfold pte_of. destruct (table_at (ram s1) r (path va)) as [t|] eqn:E; [|done].
    by destruct (Hroot _ _ (path_valid va) E).
  - intros t. split; [intros (q & Hq & Ht); by destruct (Hroot q t Hq Ht)|]. intros ->. exists []. split; [by split; cbn; [lia|constructor]|done].
Qed.

(** The number of pages as the code computes it. *)
Lemma pages_of size : 0 < size <= 2 ^ 38 -> i32 (Z.shiftr size PG_SHIFT) = size / 4096.
Proof using Type.
  intros. unfold PG_SHIFT. rewrite Z.shiftr_div_pow2 by lia. change (2 ^ 12) with 4096.
  unfold i32. rewrite Z.mod_small by mlia. destruct (Z.ltb_spec (size / 4096) (2 ^ 31)); [done|mlia].
Qed.

Lemma map_pages_spec s root va size pa perm : inv s -> pt_ok s root -> 0 <= perm < 1024 ->
  0 < size -> size mod 4096 = 0 -> va mod 4096 = 0 -> pa mod 4096 = 0 -> 0 <= va -> va + size <= MAX_VA -> 0 <= pa -> pa + size <= 2 ^ 56 ->
  (forall va', va <= va' < va + size -> pte_of (ram s) root va' = None) ->
  wp (map_pages root va size pa perm) (fun r s' => pt_step (inv:=inv) root s s' /\
    exists k, mapped root va k pa perm (ram s) (ram s') /\
      ((r = 0 /\ Z.of_nat k * 4096 = size) \/ (r = -1 /\ Z.of_nat k * 4096 < size /\ no_memory s'))) s.
Proof using PA.
  intros Hi Hpt Hperm Hs Hsa Hva Hpa Hva0 Hva1 Hpa0 Hpa1 Hfree. assert (MAX_VA = 2 ^ 38) as Hmax by done. unfold map_pages.
  destruct (Z.eqb_spec size 0); [lia|]. rewrite PG_SIZE_val, Hva, Hpa, Hsa. cbn [negb Z.eqb orb].
  rewrite pages_of by lia.
  assert (Z.of_nat (Z.to_nat (size / 4096)) * 4096 = size) as Hn by mlia.
  eapply wp_mono; [apply (map_loop_spec root perm Hperm); try done; rewrite ?Hn; try done; lia|].
  intros r s' (Hst & k & Hm & Hres). split; [done|]. exists k. split; [done|].
  destruct Hres as [[-> ->]|(-> & ? & ?)]; [by left|right; split_and!; (done || lia)].
Qed.

(** A mapped page in the range is found before it is overwritten. *)
Lemma map_loop_double root perm : 0 <= perm < 1024 -> forall n s va pa va', inv s -> pt_ok s root ->
  va mod 4096 = 0 -> pa mod 4096 = 0 -> 0 <= va -> va + Z.of_nat n * 4096 <= MAX_VA -> 0 <= pa -> pa + Z.of_nat n * 4096 <= 2 ^ 56 ->
  va <= va' < va + Z.of_nat n * 4096 -> pte_of (ram s) root va' <> None ->
  wpp (map_loop n root va pa perm) (fun r s' => r = -1 /\ no_memory s') s.
Proof using PA.
  intros Hperm. assert (MAX_VA = 2 ^ 38) as Hmax by done.
  induction n as [|n IH]; intros s va pa va' Hi Hpt Hva Hpa Hva0 Hva1 Hpa0 Hpa1 Hin Hmp; cbn [map_loop]; [lia|].
  apply wpp_wp_bind. eapply wp_mono; [apply (walk_spec s root va true Hi Hpt); lia|].
  intros r s1 ([Hst Hpte] & _ & [(-> & [[_ Hnm]|[? _]])|(u & Hu & -> & Hnz)]); [by rewrite Z.eqb_refl|done|].
  destruct (Z.eqb_spec (u + 8 * PX 0 va) NULL) as [|_]; [done|].
  assert (0 <= va < MAX_VA) as Hvar by lia. pose proof (pg_inv _ _ _ Hst) as Hi1. pose proof (pg_pt _ _ _ Hst) as Hpt1.
  destruct (leaf_dram s1 root va u Hi1 Hpt1 Hu) as (? & ? & ? & ? & Hidx). unfold idx_ok in Hidx.
  apply wpp_wp_bind, wp_load64; [lia..|].
  destruct (has (ld64 (ram s1) (u + 8 * PX 0 va)) PTE_V) eqn:Ev; [apply wpp_panic|].
  apply wpp_wp_bind, wp_store64; [lia..|]. fold (with_leaf s1 va u (leaf_pte pa perm)).
  assert (has (leaf_pte pa perm) PTE_V = true /\ 0 <= leaf_pte pa perm < 2 ^ 64) as [HlV Hlr] by (apply leaf_pte_facts; lia).
  pose proof (leaf_step s1 root va u (leaf_pte pa perm) Hi1 Hpt1 Hvar Hu Hlr) as Hst2.
  pose proof (leaf_pte_of s1 root va u (leaf_pte pa perm) Hi1 Hpt1 Hvar Hu Hlr) as Hpte2.
  assert (va' / 4096 <> va / 4096) as Hother.
  { intros Hsame. apply Hmp. rewrite <- Hpte, (pte_of_page _ _ va' va) by done. unfold pte_of, entry. by rewrite Hu, Ev. }
  rewrite PG_SIZE_val, !u64_small by lia. apply (IH _ _ _ va'); try lia.
  - apply Hst2.
  - apply Hst2.
  - rewrite Z.add_mod, Hva by lia. done.
  - rewrite Z.add_mod, Hpa by lia. done.
  - mlia.
  - rewrite Hpte2 by lia. rewrite decide_False by done. by rewrite Hpte.
Qed.

(** ** proc_pagetable *)
Lemma pte_of_mapped root va k pa perm m m' va' : mapped root va k pa perm m m' -> 0 <= va' < MAX_VA ->
  ~ va <= va' < va + Z.of_nat k * 4096 -> pte_of m' root va' = pte_of m root va'.
Proof using Type. intros Hm Hva Hn. by rewrite Hm, decide_False. Qed.

Definition user_maps (m : mem) (root user_vec trapframe va : Z) : Prop :=
  pte_of m root va = if decide (va / 4096 = TRAMPOLINE / 4096) then Some (leaf_pte user_vec (Z.lor PTE_R PTE_X))
    else if decide (va / 4096 = TRAPFRAME / 4096) then Some (leaf_pte trapframe (Z.lor PTE_R PTE_W)) else None.

(** What proc_pagetable leaves: a page table with two mappings, or, without
    memory, exactly the blocks there were. *)
Definition proc_pagetable_post (user_vec trapframe : Z) (s : kmem) (r : Z) (s' : kmem) : Prop :=
  inv s' /\ (forall a k x, live s a k -> covers a k x -> ram s' x = ram s x) /\
  ((r = NULL /\ (forall a k, live s' a k <-> live s a k)) \/
   (r <> NULL /\ pt_ok s' r /\ (forall va, 0 <= va < MAX_VA -> user_maps (ram s') r user_vec trapframe va) /\
    (forall a k, live s' a k <-> live s a k \/ (k = 0 /\ table_of (ram s') r a)) /\
    (forall a k, live s a k -> ~ table_of (ram s') r a))).

Section pagetable.
Context (s s1 s2 : kmem) (r : Z) (Hi : inv s) (Hi1 : inv s1) (Hr : r <> NULL) (Hpost : alloc_post 0 s r s1).
Context (Hst : pt_step (inv:=inv) r s1 s2).

Lemma pagetable_live : (forall a k, live s2 a k <-> live s a k \/ (k = 0 /\ table_of (ram s2) r a)) /\
  (forall a k, live s a k -> ~ table_of (ram s2) r a) /\
  (forall a k x, live s a k -> covers a k x -> ram s2 x = ram s x).
Proof using All.
  destruct (fresh_root s s1 r Hi1 Hr Hpost) as (Hpt1 & _ & Hto).
  destruct (ext_facts s s1 r Hi1 Hr Hpost) as (_ & Hfr & _ & _ & _ & _ & _ & _ & Hl1 & _).
  pose proof (ext_not_table s s1 r Hi Hi1 Hr Hpost) as Hnr.
  assert (forall a k, live s a k -> ~ table_of (ram s2) r a) as Hnt.
  { intros a k Ha Ht. destruct (pg_tables _ _ _ Hst a Ht) as [->%Hto|Hn]; [by eapply Hnr|].
    apply (Hn k), Hl1. by left. }
  assert (table_of (ram s2) r r) as Hrr by (exists []; split; [by split; cbn; [lia|constructor]|done]).
  split_and!; try done.
  - intros a k. rewrite (pg_live _ _ _ Hst), Hl1. split.
    + intros [[?|[-> ->]]|(-> & Ht & _)]; [by left|by right|by right].
    + intros [?|(-> & Ht)]; [by left; left|]. destruct (decide (a = r)) as [->|Hne]; [left; by right|].
      right. split_and!; try done. destruct (pg_tables _ _ _ Hst a Ht) as [->%Hto|Hn]; done.
  - intros a k x Ha Hx. rewrite (pg_frame _ _ _ Hst a k x); try done.
    + by destruct (Hfr a k Ha x Hx).
    + apply Hl1. by left.
    + intros ->%Hto. by eapply Hnr.
Qed.
End pagetable.

Lemma proc_pagetable_spec s user_vec trapframe : inv s ->
  user_vec mod 4096 = 0 -> 0 <= user_vec < PHYS_STOP -> trapframe mod 4096 = 0 -> 0 <= trapframe < PHYS_STOP ->
  wp (proc_pagetable user_vec trapframe) (proc_pagetable_post user_vec trapframe s) s.
Proof using PA.
  intros Hi Hua Hur Hta Htr. unfold proc_pagetable.
  wp_steps. eapply wp_mono; [apply (pal_alloc 0 s Hi); klia|]. intros r s1 [Hpost Hi1].
  destruct (Z.eqb_spec r NULL) as [->|Hr].
  { wp_steps. destruct Hpost as [(_ & -> & _)|[? _]]; [|done]. split_and!; try done. by left. }
  destruct (fresh_root s s1 r Hi1 Hr Hpost) as (Hpt1 & Hno & Hto).
  assert (MAX_VA = 2 ^ 38) as Hmax by done. assert (TRAMPOLINE = 2 ^ 38 - 4096) as Htp by done. assert (TRAPFRAME = 2 ^ 38 - 8192) as Htf by done.
  wp_steps. eapply wp_mono; [apply (map_pages_spec s1 r TRAMPOLINE PG_SIZE); rewrite ?PG_SIZE_val; try done; try klia|].
  intros f1 s2 (Hst1 & k1 & Hm1 & Hf1). rewrite PG_SIZE_val in Hf1.
  wp_steps. eapply wp_mono; [apply (map_pages_spec s2 r TRAPFRAME PG_SIZE); rewrite ?PG_SIZE_val; try apply Hst1; try done; try klia|].
  { intros va' Hva'. rewrite (pte_of_mapped _ _ _ _ _ _ _ _ Hm1) by lia. apply Hno. }
  intros f2 s3 (Hst2 & k2 & Hm2 & Hf2). rewrite PG_SIZE_val in Hf2.
  assert (pt_step (inv:=inv) r s1 s3) as Hst by (by eapply pt_step_trans).
  destruct (pagetable_live s s1 s3 r Hi Hi1 Hr Hpost Hst) as (Hl & Hnt & Hram).
  assert ((f1 = 0 /\ f2 = 0 /\ k1 = 1%nat /\ k2 = 1%nat) \/ Z.lor f1 f2 <> 0) as [(-> & -> & -> & ->)|Hbad].
  { destruct Hf1 as [[-> ?]|(-> & _)], Hf2 as [[-> ?]|(-> & _)]; [left; split_and!; (done || lia)|right; discriminate..]. }
  - change (Z.lor 0 0) with 0. cbn [negb Z.eqb]. wp_steps. split_and!; try done; [apply Hst|]. right. split_and!; try done; [apply Hst|].
    intros va Hva. unfold user_maps. rewrite Hm2, Hm1, Hno by done. rewrite Htp, Htf in *. repeat case_decide; try mlia; try done.
    + do 2 f_equal. mlia.
    + do 2 f_equal. mlia.
  - destruct (Z.eqb_spec (Z.lor f1 f2) 0); [done|]. cbn [negb].
    wp_steps. eapply wp_mono; [apply (proc_free_pagetable_spec s3 r); apply Hst|]. intros [] s4 [Hi4 _ Hl4 Hk4]. wp_steps.
    assert (forall a, gone_at s3 r (fun _ => True) a <-> table_of (ram s3) r a) as Hg.
    { intros a. split; [intros (q & ? & _ & ?); by exists q|intros (q & ? & ?); by exists q]. }
    assert (forall a k, live s4 a k <-> live s a k) as Hl4'.
    { intros a k. rewrite Hl4, Hl, Hg. split; [tauto|]. intros Ha. split; [by left|by eapply Hnt]. }
    split_and!; try done; [|by left]. intros a k x Ha Hx. destruct (Hk4 a k x) as [-> _]; [by apply Hl4'|done|]. by eapply Hram.
Qed.
End root.

(** ** Leaves *)
Definition perm_ok (perm : Z) : Prop :=
  0 <= perm < 1024 /\ (has perm PTE_R = true \/ has perm PTE_X = true) /\ (has perm PTE_W = true -> has perm PTE_R = true).

Lemma leaf_pte_pa pa perm : 0 <= pa < 2 ^ 56 -> pa mod 4096 = 0 -> 0 <= perm < 1024 ->
  pte_to_pa (leaf_pte pa perm) = pa /\ pte_flags (leaf_pte pa perm) = Z.lor perm (Z.lor PTE_V (Z.lor PTE_A PTE_D)).
Proof.
  intros Hpa Hal Hp. rewrite leaf_pte_eq. pose proof (lor_range perm 0xC1 10 ltac:(lia) ltac:(lia) ltac:(lia)) as Hr.
  by rewrite pte_to_pa_lor, pte_flags_lor by (done || lia).
Qed.

Lemma leaf_pte_ok pa perm : 0 <= pa < 2 ^ 56 -> perm_ok perm -> leaf_ok (leaf_pte pa perm).
Proof.
  intros Hpa (Hp & Hrx & Hwr). rewrite leaf_pte_eq. pose proof (lor_range perm 0xC1 10 ltac:(lia) ltac:(lia) ltac:(lia)) as Hr.
  unfold PTE_R, PTE_X, PTE_W in *. rewrite !has_bit in * by lia. unfold leaf_ok.
  rewrite !pte_bit_lor, !Z.lor_spec by (done || lia). change (Z.testbit 0xC1 1) with false. change (Z.testbit 0xC1 2) with false.
  change (Z.testbit 0xC1 3) with false. rewrite !orb_false_r. split_and!; try done; apply pte_range_lor; (done || lia).
Qed.

Lemma mapped_leaves root va k pa perm m m' : mapped root va k pa perm m m' -> perm_ok perm -> va mod 4096 = 0 -> pa mod 4096 = 0 ->
  0 <= pa -> pa + Z.of_nat k * 4096 <= 2 ^ 56 -> leaves_ok m root -> leaves_ok m' root.
Proof.
  intros Hm Hp Hva Hpa Hpa0 Hpa1 Hlv va' e Hva'. rewrite Hm by done. case_decide; [|by apply Hlv].
  intros [= <-]. apply leaf_pte_ok; [mlia|done].
Qed.

(** The translation after mapping [k] pages. *)
Lemma mapped_translate s s' root va k pa perm : pt_ok s root -> pt_ok s' root -> leaves_ok (ram s) root ->
  mapped root va k pa perm (ram s) (ram s') -> perm_ok perm -> va mod 4096 = 0 -> pa mod 4096 = 0 -> 0 <= pa -> pa + Z.of_nat k * 4096 <= 2 ^ 56 ->
  forall va', 0 <= va' < MAX_VA -> Sv39.translate (ram s') root va' =
    if decide (va <= va' < va + Z.of_nat k * 4096)
    then Some (pa + (va' - va), Z.lor perm (Z.lor PTE_V (Z.lor PTE_A PTE_D))) else Sv39.translate (ram s) root va'.
Proof.
  intros Hpt Hpt' Hlv Hm Hp Hva Hpa Hpa0 Hpa1 va' Hva'.
  pose proof (mapped_leaves _ _ _ _ _ _ _ Hm Hp Hva Hpa Hpa0 Hpa1 Hlv) as Hlv'.
  rewrite (translate_pte s' root va' Hpt' Hlv' Hva'), Hm by done. case_decide; [|by rewrite (translate_pte s root va' Hpt Hlv Hva')].
  destruct (leaf_pte_pa (pa + (va' / 4096 * 4096 - va)) perm) as [-> ->]; [mlia|mlia|apply Hp|]. do 2 f_equal. mlia.
Qed.

(** Blocks that are not tables of [root] keep their contents; blocks that come to
    be allocated are new tables of it. *)
Definition only_tables (root : Z) (s s' : kmem) : Prop :=
  (forall a k x, live s a k -> ~ table_of (ram s) root a -> covers a k x -> ram s' x = ram s x) /\
  (forall a k, live s' a k <-> live s a k \/ (k = 0 /\ table_of (ram s') root a /\ forall j, ~ live s a j)).

(** * A demonstration page table: the one of a process whose trapframe is the
    first page of [demo_block] *)
Definition demo_vec : Z := KERN_BASE + PG_SIZE.
Definition pt_demo : kmem := state_of (proc_pagetable demo_vec demo_block demo1).
Definition pt_root : Z := match value_of (proc_pagetable demo_vec demo_block demo1) with Some r => r | None => NULL end.

Lemma pt_root_ne : pt_root <> NULL.
Proof. vm_compute. discriminate. Qed.

Lemma pt_demo_eq : proc_pagetable demo_vec demo_block demo1 = Ok (pt_root, pt_demo).
Proof.
  assert (value_of (proc_pagetable demo_vec demo_block demo1) = Some pt_root) as H by (vm_compute; reflexivity).
  exact (value_state _ _ H).
Qed.

Lemma pt_demo_spec : proc_pagetable_post (inv:=kalloc_inv) demo_vec demo_block demo1 pt_root pt_demo.
Proof.
  destruct (wp_elim _ _ _ (proc_pagetable_spec demo1 demo_vec demo_block (proj1 demo1_spec)
    ltac:(reflexivity) ltac:(split; vm_compute; congruence) ltac:(reflexivity) ltac:(split; vm_compute; congruence)))
    as (r & s' & Heq & Hpost).
  destruct (ok_inj _ _ _ _ (eq_trans (eq_sym Heq) pt_demo_eq)) as [<- <-]. exact Hpost.
Qed.

#[global] Opaque pt_demo pt_root.

Lemma pt_demo_facts : kalloc_inv pt_demo /\ pt_ok pt_demo pt_root /\ leaves_ok (ram pt_demo) pt_root /\
  forall va, 0 <= va < TRAPFRAME -> pte_of (ram pt_demo) pt_root va = None.
Proof.
  destruct pt_demo_spec as (Hi & _ & [[Hn _]|(_ & Hpt & Hm & _)]); [by destruct pt_root_ne|].
  assert (TRAMPOLINE = 2 ^ 38 - 4096) as Htp by done. assert (TRAPFRAME = 2 ^ 38 - 8192) as Htf by done.
  split; [exact Hi|]. split; [exact Hpt|]. split.
  - intros va e Hva He. rewrite (Hm va Hva) in He. clear Hi Hpt Hm Hva. revert He.
    destruct (decide (va / 4096 = TRAMPOLINE / 4096)); [|destruct (decide (va / 4096 = TRAPFRAME / 4096)); [|discriminate]];
      intros [= <-]; (apply leaf_pte_ok; [split; vm_compute; congruence|]).
    + split_and!; [done|done|by left|done].
    + split_and!; [done|done|by left|done].
  - intros va Hva. rewrite (Hm va) by (change MAX_VA with (2 ^ 38); rewrite Htf in Hva; lia). clear Hi Hpt Hm. rewrite !decide_False; [reflexivity|rewrite Htf in *; mlia|rewrite Htf in Hva; rewrite Htp; mlia].
Qed.

(** * Theorems *)

(** [walk] without allocation returns, changes nothing, and finds the slot
    the hardware reads: it is NULL exactly when a table on the way is missing,
    and the hardware's translation of the address is the one the leaf entry in
    that slot describes (none when it is NULL or invalid). *)
Lemma walk_finds_leaf s root va : kalloc_inv s -> pt_ok s root -> leaves_ok (ram s) root -> 0 <= va < MAX_VA ->
  exists r, walk root va false s = Ok (r, s) /\
    Sv39.translate (ram s) root va =
      (if r =? NULL then None else
       let e := ld64 (ram s) r in
       if has e PTE_V then Some (pte_to_pa e + va mod PG_SIZE, pte_flags e) else None).
Proof.
  intros Hi Hpt Hlv Hva. destruct (wp_elim _ _ _ (walk_spec s root va false Hi Hpt Hva)) as (r & s' & Heq & _ & Hs & Hres).
  rewrite (Hs eq_refl) in Heq. rewrite (Hs eq_refl) in Hres. exists r. split; [exact Heq|]. rewrite (translate_pte s root va Hpt Hlv Hva). unfold pte_of.
  destruct Hres as [(-> & [[? _]|[_ ->]])|(u & -> & -> & Hnz)]; [done|done|].
  destruct (Z.eqb_spec (u + 8 * PX 0 va) NULL); [done|]. fold (entry (ram s) u (PX 0 va)). rewrite PG_SIZE_val.
  by destruct (has (entry (ram s) u (PX 0 va)) PTE_V).
Qed.


(** [map_pages] on an unmapped range returns.  On success the hardware
    translates exactly the addresses of the range as asked, with the permission
    bits plus V, A and D, and every other address as before; it fails (-1) only
    when no page is left for a table, with a prefix of the range mapped.  The
    page table stays well formed, the only blocks written are its tables and the
    only blocks allocated are new tables. *)
Lemma map_pages_maps s root va size pa perm : kalloc_inv s -> pt_ok s root -> leaves_ok (ram s) root -> perm_ok perm ->
  0 < size -> size mod PG_SIZE = 0 -> va mod PG_SIZE = 0 -> pa mod PG_SIZE = 0 ->
  0 <= va -> va + size <= MAX_VA -> 0 <= pa -> pa + size <= 2 ^ 56 ->
  (forall va', va <= va' < va + size -> pte_of (ram s) root va' = None) ->
  exists r s' n, map_pages root va size pa perm s = Ok (r, s') /\ kalloc_inv s' /\ pt_ok s' root /\ leaves_ok (ram s') root /\
    only_tables root s s' /\
    ((r = 0 /\ n = size) \/ (r = -1 /\ 0 <= n < size /\ no_memory s')) /\
    forall va', 0 <= va' < MAX_VA -> Sv39.translate (ram s') root va' =
      if decide (va <= va' < va + n)
      then Some (pa + (va' - va), Z.lor perm (Z.lor PTE_V (Z.lor PTE_A PTE_D))) else Sv39.translate (ram s) root va'.
Proof.
  intros Hi Hpt Hlv Hp Hs Hsa Hva Hpa Hva0 Hva1 Hpa0 Hpa1 Hfree. rewrite PG_SIZE_val in *. pose proof Hp as (Hpr & _).
  destruct (wp_elim _ _ _ (map_pages_spec s root va size pa perm Hi Hpt Hpr Hs Hsa Hva Hpa Hva0 Hva1 Hpa0 Hpa1 Hfree))
    as (r & s' & Heq & Hst & k & Hm & Hres).
  exists r, s', (Z.of_nat k * 4096). split; [done|]. split; [apply Hst|]. split; [apply Hst|].
  assert (Z.of_nat k * 4096 <= size) as Hk by (destruct Hres as [[_ ?]|(_ & ? & _)]; lia).
  split; [exact (mapped_leaves root va k pa perm _ _ Hm Hp Hva Hpa Hpa0 ltac:(lia) Hlv)|]. split; [split; [apply (pg_frame _ _ _ Hst)|apply (pg_live _ _ _ Hst)]|].
  split; [destruct Hres as [[-> ->]|(-> & ? & ?)]; [by left|right; split_and!; (done || lia)]|].
  eapply mapped_translate; try done; [apply Hst|lia].
Qed.


(** [map_pages] never maps a page twice: when a page of the range is already
    mapped it stops in a panic, unless memory for a table runs out first. *)
Lemma map_pages_no_double s root va size pa perm va' : kalloc_inv s -> pt_ok s root -> 0 <= perm < 1024 ->
  0 < size -> size mod PG_SIZE = 0 -> va mod PG_SIZE = 0 -> pa mod PG_SIZE = 0 ->
  0 <= va -> va + size <= MAX_VA -> 0 <= pa -> pa + size <= 2 ^ 56 ->
  va <= va' < va + size -> pte_of (ram s) root va' <> None ->
  (exists msg, map_pages root va size pa perm s = Panic msg) \/
  (exists s', map_pages root va size pa perm s = Ok (-1, s') /\ no_memory s').
Proof.
  intros Hi Hpt Hp Hs Hsa Hva Hpa Hva0 Hva1 Hpa0 Hpa1 Hin Hm. rewrite PG_SIZE_val in *. assert (MAX_VA = 2 ^ 38) as Hmax by done.
  assert (wpp (map_pages root va size pa perm) (fun r s' => r = -1 /\ no_memory s') s) as Hw.
  { unfold map_pages. destruct (Z.eqb_spec size 0); [lia|]. rewrite PG_SIZE_val, Hva, Hpa, Hsa. cbn [negb Z.eqb orb].
    rewrite pages_of by lia. apply (map_loop_double root perm Hp _ s va pa va'); try done; mlia. }
  destruct (wpp_elim _ _ _ Hw) as [?|(r & s' & Heq & -> & ?)]; [by left|right; by exists s'].
Qed.


(** [map_pages] on an unmapped range returns.  On success the hardware
    translates exactly the addresses of the range as asked, with the permission
    bits plus V, A and D, and every other address as before; it fails (-1) only
    when no page is left for a table, with a prefix of the range mapped.  The
    page table stays well formed, the only blocks written are its tables and the
    only blocks allocated are new tables.  When a page of the range is already mapped
    it panics, unless memory for a table runs out first. *)
Lemma map_pages_correct s root va size pa perm : kalloc_inv s -> pt_ok s root -> leaves_ok (ram s) root -> perm_ok perm ->
  0 < size -> size mod PG_SIZE = 0 -> va mod PG_SIZE = 0 -> pa mod PG_SIZE = 0 ->
  0 <= va -> va + size <= MAX_VA -> 0 <= pa -> pa + size <= 2 ^ 56 ->
  ((forall va', va <= va' < va + size -> pte_of (ram s) root va' = None) ->
    exists r s' n, map_pages root va size pa perm s = Ok (r, s') /\ kalloc_inv s' /\ pt_ok s' root /\ leaves_ok (ram s') root /\
      only_tables root s s' /\
      ((r = 0 /\ n = size) \/ (r = -1 /\ 0 <= n < size /\ no_memory s')) /\
      forall va', 0 <= va' < MAX_VA -> Sv39.translate (ram s') root va' =
        if decide (va <= va' < va + n)
        then Some (pa + (va' - va), Z.lor perm (Z.lor PTE_V (Z.lor PTE_A PTE_D))) else Sv39.translate (ram s) root va') /\
  (forall va', va <= va' < va + size -> pte_of (ram s) root va' <> None ->
    (exists msg, map_pages root va size pa perm s = Panic msg) \/ (exists s', map_pages root va size pa perm s = Ok (-1, s') /\ no_memory s')).
Proof. intros Hi Hpt Hlv Hp. intros. split; [intros; by apply map_pages_maps|]. pose proof Hp as (Hpr & _). intros va' Hva' Hm. by eapply map_pages_no_double. Qed.

(** C5: [walk] without allocation returns, changes nothing, and finds the slot
    the hardware reads: it is NULL exactly when a table on the way is missing,
    and the hardware's translation of the address is the one the leaf entry in
    that slot describes (none when it is NULL or invalid).  [map_pages] on an unmapped
    range returns.  On success the hardware translates exactly the addresses of the range
    as asked, with the permission bits plus V, A and D, and every other address as before;
    it fails (-1) only when no page is left for a table, with a prefix of the range mapped.
    The page table stays well formed, the only blocks written are its tables and the
    only blocks allocated are new tables.  When a page of the range is already mapped
    it panics, unless memory for a table runs out first. *)
Theorem page_table_correct s root : kalloc_inv s -> pt_ok s root -> leaves_ok (ram s) root ->
  (forall va, 0 <= va < MAX_VA ->
  exists r, walk root va false s = Ok (r, s) /\
    Sv39.translate (ram s) root va =
      (if r =? NULL then None else
       let e := ld64 (ram s) r in
       if has e PTE_V then Some (pte_to_pa e + va mod PG_SIZE, pte_flags e) else None)) /\
  (forall va size pa perm, perm_ok perm ->
  0 < size -> size mod PG_SIZE = 0 -> va mod PG_SIZE = 0 -> pa mod PG_SIZE = 0 ->
  0 <= va -> va + size <= MAX_VA -> 0 <= pa -> pa + size <= 2 ^ 56 ->
  ((forall va', va <= va' < va + size -> pte_of (ram s) root va' = None) ->
    exists r s' n, map_pages root va size pa perm s = Ok (r, s') /\ kalloc_inv s' /\ pt_ok s' root /\ leaves_ok (ram s') root /\
      only_tables root s s' /\
      ((r = 0 /\ n = size) \/ (r = -1 /\ 0 <= n < size /\ no_memory s')) /\
      forall va', 0 <= va' < MAX_VA -> Sv39.translate (ram s') root va' =
        if decide (va <= va' < va + n)
        then Some (pa + (va' - va), Z.lor perm (Z.lor PTE_V (Z.lor PTE_A PTE_D))) else Sv39.translate (ram s) root va') /\
  (forall va', va <= va' < va + size -> pte_of (ram s) root va' <> None ->
    (exists msg, map_pages root va size pa perm s = Panic msg) \/ (exists s', map_pages root va size pa perm s = Ok (-1, s') /\ no_memory s'))).
Proof. intros Hi Hpt Hlv. split; intros *; [by apply walk_finds_leaf|by apply map_pages_correct]. Qed.

Lemma page_table_correct_witness : (exists r, walk pt_root TRAPFRAME false pt_demo = Ok (r, pt_demo)) /\
  (exists r s', map_pages pt_root 0x1000 0x2000 demo_block 0x1E pt_demo = Ok (r, s') /\ kalloc_inv s') /\
  ((exists msg, map_pages pt_root TRAPFRAME PG_SIZE demo_block 6 pt_demo = Panic msg) \/ (exists s', map_pages pt_root TRAPFRAME PG_SIZE demo_block 6 pt_demo = Ok (-1, s') /\ no_memory s')).
Proof.
  destruct pt_demo_facts as (Hi & Hpt & Hlv & Hno). destruct (page_table_correct pt_demo pt_root Hi Hpt Hlv) as [H1 H2]. split; [|split].
  - destruct (H1 TRAPFRAME) as (r & E & _); [split; vm_compute; congruence|]. exists r. exact E.
  - destruct (H2 0x1000 0x2000 demo_block 0x1E) as [H _]; [|vm_compute; reflexivity|reflexivity|reflexivity|reflexivity|vm_compute; congruence..|].
    + split; [split; vm_compute; congruence|]. split; [left; reflexivity|reflexivity].
    + destruct H as (r & s' & n & E & Hi' & _); [intros va' Hva'; apply Hno; change TRAPFRAME with 274877898752; lia|]. exists r, s'. exact (conj E Hi').
  - apply (H2 TRAPFRAME PG_SIZE demo_block 6) with TRAPFRAME;
      [|reflexivity|reflexivity|reflexivity|reflexivity|vm_compute; congruence|vm_compute; congruence|vm_compute; congruence|vm_compute; congruence|..].
    + split; [split; vm_compute; congruence|]. split; [left; reflexivity|reflexivity].
    + split; vm_compute; congruence.
    + destruct pt_demo_spec as (_ & _ & [[Hn _]|(_ & _ & Hm & _)]); [by destruct pt_root_ne|].
      rewrite (Hm TRAPFRAME); [vm_compute; congruence|split; vm_compute; congruence].
Defined.

(** [proc_free_pagetable] of a well-formed page table returns and frees
    exactly its table pages: every other allocated block, in particular the
    pages the table maps, stays allocated with its contents. *)
Lemma proc_free_pagetable_exact s root : kalloc_inv s -> pt_ok s root ->
  exists s', proc_free_pagetable root s = Ok (tt, s') /\ kalloc_inv s' /\
    (forall a k, live s' a k <-> live s a k /\ ~ table_of (ram s) root a) /\
    (forall a k x, live s' a k -> covers a k x -> ram s' x = ram s x /\ pg s' x = pg s x).
Proof.
  intros Hi Hpt. destruct (wp_elim _ _ _ (proc_free_pagetable_spec s root Hi Hpt)) as ([] & s' & Heq & [Hi' _ Hl Hk]).
  exists s'. split_and!; try done. intros a k. rewrite Hl.
  assert (gone_at s root (fun _ => True) a <-> table_of (ram s) root a); [|tauto].
  split; [intros (q & ? & _ & ?); by exists q|intros (q & ? & ?); by exists q].
Qed.

(** C6: [proc_pagetable] returns.  With memory it returns a well-formed page
    table that maps the trampoline (R-X) and the trapframe (RW), neither for the
    user, and nothing else, and whose tables are the only new blocks; without
    memory it returns NULL and gives every page it took back.  In both cases all
    blocks there were keep their contents.  [proc_free_pagetable] of a well-formed
    page table returns and frees exactly its table pages: every other allocated
    block, in particular the pages the table maps, stays with its contents. *)
Theorem proc_pagetable_correct s user_vec trapframe : kalloc_inv s ->
  user_vec mod PG_SIZE = 0 -> 0 <= user_vec < PHYS_STOP -> trapframe mod PG_SIZE = 0 -> 0 <= trapframe < PHYS_STOP ->
  (exists r s', proc_pagetable user_vec trapframe s = Ok (r, s') /\ proc_pagetable_post (inv:=kalloc_inv) user_vec trapframe s r s') /\
  (forall root, pt_ok s root -> exists s', proc_free_pagetable root s = Ok (tt, s') /\ kalloc_inv s' /\
    (forall a k, live s' a k <-> live s a k /\ ~ table_of (ram s) root a) /\
    (forall a k x, live s' a k -> covers a k x -> ram s' x = ram s x /\ pg s' x = pg s x)).
Proof.
  intros. split; [exact (wp_elim _ _ _ (proc_pagetable_spec s user_vec trapframe ltac:(done) ltac:(done) ltac:(done) ltac:(done) ltac:(done)))|]. intros root Hpt. by apply proc_free_pagetable_exact.
Qed.

Lemma proc_pagetable_correct_witness : (exists r s', proc_pagetable demo_vec demo_block demo1 = Ok (r, s') /\ proc_pagetable_post (inv:=kalloc_inv) demo_vec demo_block demo1 r s') /\
  exists s', proc_free_pagetable pt_root pt_demo = Ok (tt, s') /\ kalloc_inv s'.
Proof.
  split.
  - apply (proc_pagetable_correct demo1 demo_vec demo_block (proj1 demo1_spec)); try reflexivity; split; vm_compute; congruence.
  - destruct pt_demo_facts as (Hi & Hpt & _). destruct (proc_pagetable_correct pt_demo demo_vec demo_block Hi) as [_ H]; [reflexivity|split; vm_compute; congruence|reflexivity|split; vm_compute; congruence|].
    destruct (H pt_root Hpt) as (s' & E & Hi' & _). exists s'. exact (conj E Hi').
Defined.
