(* ===== verification/Vma.v ===== *)
(** [kernel/vma.c], [kernel/vm_fault.c] and the user-memory access of
    [kernel/vm.c] ([copyin], [copyout], [copyinstr]).

    An address space is the part of [struct proc] these files read and write:
    the root page table and the list of VMAs.  A [struct vma] is a kmalloc
    object; its fields are kept as a record with the object's address. *)
From S2P Require Import Prelude Mem Layout Kalloc Kmalloc Vm.

Definition ENOMEM : Z := 12.
Definition EFAULT : Z := 14.
Definition ENAMETOOLONG : Z := 36.
Definition EXC_LOAD_PAGE : Z := 13.
Definition EXC_STORE_PAGE : Z := 15.
Definition VMA_HEAP : Z := Z.shiftl 1 0.
Definition VMA_STACK : Z := Z.shiftl 1 1.

Record vma := mk_vma { vma_ptr : Z; start : Z; end_ : Z; perm : Z; vflags : Z }.
Definition SIZEOF_VMA : Z := 40.
Record aspace := mk_aspace { pagetable : Z; vma_list : list vma }.

(** * vma.c *)
Definition vma_create (start' end' perm' flags' : Z) : M kmem (option vma) :=
  v ← kmalloc SIZEOF_VMA;
  if v =? NULL then mret None else mret (Some (mk_vma v start' end' perm' flags')).

(** Insert before the first VMA that starts after [v], at the end otherwise. *)
Fixpoint vma_insert (v : vma) (l : list vma) : list vma :=
  match l with
  | [] => [v]
  | pos :: l' => if start v <? start pos then v :: pos :: l' else pos :: vma_insert v l'
  end.
Definition vma_add (p : aspace) (v : vma) : aspace := mk_aspace (pagetable p) (vma_insert v (vma_list p)).

Fixpoint vma_find_in (l : list vma) (addr : Z) : option vma :=
  match l with
  | [] => None
  | pos :: l' => if (start pos <=? addr) && (addr <? end_ pos) then Some pos else vma_find_in l' addr
  end.
Definition vma_find (p : aspace) (addr : Z) : option vma := vma_find_in (vma_list p) addr.

Fixpoint vma_by_flags (l : list vma) (flags' : Z) : option vma :=
  match l with
  | [] => None
  | pos :: l' => if negb (Z.land (vflags pos) flags' =? 0) then Some pos else vma_by_flags l' flags'
  end.
Definition vma_find_by_flags (p : aspace) (flags' : Z) : option vma := vma_by_flags (vma_list p) flags'.

(** [for (uint64 va = start; va < end; va += PG_SIZE)]; the body says whether to
    go on or [goto fail]. *)
Fixpoint for_pages (n : nat) (va end' : Z) (body : Z -> M kmem bool) : M kmem bool :=
  if va <? end' then
    match n with
    | O => out_of_fuel
    | S n' =>
        ok ← body va;
        if (ok : bool) then for_pages n' (u64 (va + PG_SIZE)) end' body else mret false
    end
  else mret true.
Definition page_count (start' end' : Z) : nat := Z.to_nat ((end' - start' + PG_SIZE - 1) / PG_SIZE).

(** One page of [vma_dup_all]. *)
Definition dup_page (dst_pt src_pt va : Z) : M kmem bool :=
  pte ← walk src_pt va false;
  if pte =? NULL then mret true else
  e ← load64 pte;
  if negb (has e PTE_V) then mret true else
  let pa := pte_to_pa e in
  (if has e PTE_W then store64 pte (Z.lor (Z.land e (Z.lnot PTE_W)) PTE_COW) else mret tt);;
  e' ← load64 pte;
  r ← map_pages dst_pt va PG_SIZE pa (i32 (pte_flags e'));
  if r <? 0 then mret false else
  page_get pa;;
  mret true.

(** One page of [vma_free_all]. *)
Definition free_page_at (pt va : Z) : M kmem bool :=
  pte ← walk pt va false;
  if pte =? NULL then mret true else
  e ← load64 pte;
  if negb (has e PTE_V) then mret true else
  page_put (pte_to_pa e);;
  store64 pte 0;;
  mret true.

Fixpoint free_vmas (pt : Z) (l : list vma) : M kmem unit :=
  match l with
  | [] => mret tt
  | pos :: l' =>
      for_pages (page_count (start pos) (end_ pos)) (start pos) (end_ pos) (free_page_at pt);;
      kmfree (vma_ptr pos);;
      free_vmas pt l'
  end.
Definition vma_free_all (p : aspace) : M kmem aspace :=
  free_vmas (pagetable p) (vma_list p);;
  mret (mk_aspace (pagetable p) []).

(** The loop of [vma_dup_all] over the VMAs of the source; [false] is [goto fail]. *)
Fixpoint dup_vmas (dst : aspace) (src_pt : Z) (l : list vma) : M kmem (bool * aspace) :=
  match l with
  | [] => mret (true, dst)
  | pos :: l' =>
      nv ← vma_create (start pos) (end_ pos) (perm pos) (vflags pos);
      match nv with
      | None => mret (false, dst)
      | Some v =>
          let dst' := vma_add dst v in
          ok ← for_pages (page_count (start pos) (end_ pos)) (start pos) (end_ pos) (dup_page (pagetable dst) src_pt);
          if (ok : bool) then dup_vmas dst' src_pt l' else mret (false, dst')
      end
  end.
Definition vma_dup_all (dst src : aspace) : M kmem (Z * aspace) :=
  '(ok, dst') ← dup_vmas dst (pagetable src) (vma_list src);
  if (ok : bool) then mret (0, dst') else
  dst'' ← vma_free_all dst';
  mret (-1, dst'').

(** * vm_fault.c *)

(** memcpy of regions of RAM, which must not overlap. *)
Definition mem_copy (dst src n : Z) : M kmem unit :=
  s ← get;
  require (ram_ok s dst n && ram_ok s src n && ((dst + n <=? src) || (src + n <=? dst)));;
  modify (set_ram (memcpy (ram s) dst src n)).

Definition lazy_alloc (p : aspace) (va : Z) (v : vma) : M kmem Z :=
  pg ← kalloc;
  if pg =? NULL then mret (-1) else
  r ← map_pages (pagetable p) (PG_ROUND_DOWN va) PG_SIZE pg (perm v);
  if r <? 0 then kfree pg;; mret (-1) else mret 0.

Definition cow_copy (pte : Z) : M kmem Z :=
  e ← load64 pte;
  let pa := pte_to_pa e in
  pg ← get_page (pa_to_page pa);
  if refcount pg =? 1 then
    store64 pte (Z.lor (Z.land e (Z.lnot PTE_COW)) PTE_W);;
    mret 0
  else
    new ← kalloc;
    if new =? NULL then mret (-1) else
    mem_copy new pa PG_SIZE;;
    e' ← load64 pte;
    store64 pte (Z.lor (Z.lor (pa_to_pte new) (Z.land e' (PTE_COW - 1))) PTE_W);;
    page_put pa;;
    mret 0.

Definition handle_page_fault (p : aspace) (cause va : Z) : M kmem Z :=
  match vma_find p va with
  | None => mret (-1)
  | Some v =>
      pte ← walk (pagetable p) va false;
      e ← (if pte =? NULL then mret 0 else load64 pte);
      if (pte =? NULL) || negb (has e PTE_V) then
        if (cause =? EXC_STORE_PAGE) && negb (has (perm v) PTE_W) then mret (-1)
        else lazy_alloc p va v
      else if (cause =? EXC_STORE_PAGE) && has e PTE_COW then cow_copy pte
      else mret (-1)
  end.

(** * User memory access *)

(** One page of a copy: the slot after pre-faulting, or [None] for -EFAULT; [need]
    is the condition on the entry under which the fault handler runs. *)
Definition user_slot (p : aspace) (cause va_page : Z) (need : Z -> bool) : M kmem (option Z) :=
  pte ← walk (pagetable p) va_page false;
  e ← (if pte =? NULL then mret 0 else load64 pte);
  if (pte =? NULL) || need e then
    r ← handle_page_fault p cause va_page;
    if r <? 0 then mret None else
    pte' ← walk (pagetable p) va_page false;
    mret (Some pte')
  else mret (Some pte).

Fixpoint copyin_loop (n : nat) (p : aspace) (dst srcva len : Z) : M kmem Z :=
  if 0 <? len then
    match n with
    | O => out_of_fuel
    | S n' =>
        let va_page := PG_ROUND_DOWN srcva in
        slot ← user_slot p EXC_LOAD_PAGE va_page (fun e => negb (has e PTE_V));
        match slot with
        | None => mret (- EFAULT)
        | Some pte =>
            e ← load64 pte;
            if negb (has e PTE_U) then mret (- EFAULT) else
            let offset := srcva - va_page in
            let pa := u64 (pte_to_pa e + offset) in
            let k := Z.min (PG_SIZE - offset) len in
            mem_copy dst pa k;;
            copyin_loop n' p (u64 (dst + k)) (u64 (srcva + k)) (len - k)
        end
    end
  else mret 0.

Fixpoint copyout_loop (n : nat) (p : aspace) (dstva src len : Z) : M kmem Z :=
  if 0 <? len then
    match n with
    | O => out_of_fuel
    | S n' =>
        let va_page := PG_ROUND_DOWN dstva in
        slot ← user_slot p EXC_STORE_PAGE va_page (fun e => negb (has e PTE_V) || has e PTE_COW);
        match slot with
        | None => mret (- EFAULT)
        | Some pte =>
            e ← load64 pte;
            if negb (has e PTE_U) || negb (has e PTE_W) then mret (- EFAULT) else
            let offset := dstva - va_page in
            let pa := u64 (pte_to_pa e + offset) in
            let k := Z.min (PG_SIZE - offset) len in
            mem_copy pa src k;;
            copyout_loop n' p (u64 (dstva + k)) (u64 (src + k)) (len - k)
        end
    end
  else mret 0.

(** Pages a range of [len] bytes touches, one iteration each. *)
Definition copy_fuel (len : Z) : nat := Z.to_nat (len / PG_SIZE + 2).
Definition copyin (p : aspace) (dst srcva len : Z) : M kmem Z := copyin_loop (copy_fuel len) p dst srcva len.
Definition copyout (p : aspace) (dstva src len : Z) : M kmem Z := copyout_loop (copy_fuel len) p dstva src len.

Definition load8 (a : Z) : M kmem Z := s ← get; require (ram_ok s a 1);; mret (ld8 (ram s) a).
Definition store8 (a v : Z) : M kmem unit := s ← get; require (ram_ok s a 1);; modify (set_ram (st8 (ram s) a v)).

(** [while (n--) { *dst++ = *src; if ( *src == 0) return 0; src++; }]: [Some 0] at
    the terminator, [None] when the page is used up. *)
Fixpoint copystr_page (n : nat) (dst src : Z) : M kmem (option Z) :=
  match n with
  | O => mret None
  | S n' =>
      c ← load8 src;
      store8 dst c;;
      c' ← load8 src;
      if c' =? 0 then mret (Some 0) else copystr_page n' (dst + 1) (src + 1)
  end.

Fixpoint copyinstr_loop (n : nat) (p : aspace) (dst srcva max : Z) : M kmem Z :=
  if 0 <? max then
    match n with
    | O => out_of_fuel
    | S n' =>
        let va_page := PG_ROUND_DOWN srcva in
        slot ← user_slot p EXC_LOAD_PAGE va_page (fun e => negb (has e PTE_V));
        match slot with
        | None => mret (- EFAULT)
        | Some pte =>
            e ← load64 pte;
            if negb (has e PTE_U) then mret (- EFAULT) else
            let offset := srcva - va_page in
            let src := u64 (pte_to_pa e + offset) in
            let k := Z.min (PG_SIZE - offset) max in
            r ← copystr_page (Z.to_nat k) dst src;
            match r with
            | Some v => mret v
            | None => copyinstr_loop n' p (dst + k) (u64 (srcva + k)) (max - k)
            end
        end
    end
  else mret (- ENAMETOOLONG).
Definition copyinstr (p : aspace) (dst srcva max : Z) : M kmem Z := copyinstr_loop (copy_fuel max) p dst srcva max.
