(* ===== verification/VmaProof.v ===== *)
(** Page-fault handling: lazy allocation and copy on write. *)
From Stdlib Require Import Sorted.
From S2P Require Import Prelude Mem Layout Kalloc Buddy KallocInv KallocAlloc KallocFree KallocSpec Kmalloc.
From S2P Require Import Vm VmInv VmWalk VmMap VmThm Vma.

(** ** VMA lists *)
Definition vmas_ok (l : list vma) : Prop :=
  StronglySorted (fun v w => end_ v <= start w) l /\ Forall (fun v => start v <= end_ v) l.

(** No overlap; an empty VMA, as the heap of a new program, needs a start of its own. *)
Definition apart (v w : vma) : Prop := (end_ v <= start w \/ end_ w <= start v) /\ (start v < end_ v \/ start v <> start w).

Lemma vma_insert_perm v l : vma_insert v l ≡ₚ v :: l.
Proof.
  induction l as [|w l IH]; [done|]. cbn [vma_insert]. destruct (start v <? start w); [done|]. rewrite IH. apply Permutation_swap.
Qed.

Lemma vma_insert_ok v l : vmas_ok l -> start v <= end_ v -> Forall (apart v) l -> vmas_ok (vma_insert v l).
Proof.
  intros [Hs Hf] Hv Ha. split.
  - induction Hs as [|w l Hs IH Hw]; cbn [vma_insert]; [by repeat constructor|].
    apply Forall_cons in Ha as [Haw Ha]. apply Forall_cons in Hf as [Hwf Hf]. cbv beta in Hwf. unfold apart in Haw.
    destruct (Z.ltb_spec (start v) (start w)).
    + constructor; [by constructor|]. apply Forall_cons. split; [lia|].
      eapply Forall_impl; [exact Hw|]. intros x Hx. cbv beta in Hx. lia.
    + constructor; [by apply IH|]. rewrite vma_insert_perm. apply Forall_cons. split; [lia|done].
  - rewrite vma_insert_perm. by apply Forall_cons.
Qed.

Lemma vma_find_in_spec l a v : vmas_ok l -> vma_find_in l a = Some v <-> v ∈ l /\ start v <= a < end_ v.
Proof.
  intros [Hs Hf]. induction Hs as [|w l Hs IH Hw]; cbn [vma_find_in]; [split; [done|intros [[]%elem_of_nil _]]|].
  apply Forall_cons in Hf as [Hwf Hf]. cbv beta in Hwf. specialize (IH Hf). rewrite elem_of_cons.
  destruct ((start w <=? a) && (a <? end_ w)) eqn:E.
  - split.
    + intros [= <-]. split; [by left|lia].
    + intros [[->|Hin] Hr]; [done|]. exfalso. rewrite Forall_forall in Hw. pose proof (Hw v Hin) as Hwv. cbv beta in Hwv. lia.
  - rewrite IH. split; [naive_solver|]. intros [[->|Hin] Hr]; [lia|done].
Qed.

(** ** Page tables whose tables are left alone *)
Section keep.
Context (s s' : kmem) (root : Z) (Hpt : pt_ok s root).
Context (Hk : forall t, table_of (ram s) root t -> is_table s' t /\ forall x, t <= x < t + 4096 -> ram s' x = ram s x).

Lemma keep_entry q t j : path_ok q -> table_at (ram s) root q = Some t -> idx_ok j -> entry (ram s') t j = entry (ram s) t j.
Proof using Hk.
  intros Hq Ht Hj. unfold idx_ok in Hj. destruct (Hk t) as [_ Hr]; [by exists q|]. apply ld64_ext. intros x Hx. apply Hr. lia.
Qed.

Lemma keep_tables q : path_ok q -> table_at (ram s') root q = table_at (ram s) root q.
Proof using Hk.
  induction q as [|j q IH] using rev_ind; intros Hp; [done|]. destruct (path_ok_app _ _ Hp) as [Hq Hj].
  rewrite !table_at_snoc, IH by done. destruct (table_at (ram s) root q) as [t|] eqn:Et; [|done]. by rewrite (keep_entry q t j).
Qed.

Lemma keep_table_of a : table_of (ram s') root a <-> table_of (ram s) root a.
Proof using Hk. split; intros (q & Hq & Ht); exists q; (split; [done|]); [by rewrite <- keep_tables|by rewrite keep_tables]. Qed.

Lemma keep_pt_ok : pt_ok s' root.
Proof using Hk Hpt.
  split.
  - intros q t Hq Ht. apply Hk. exists q. split; [done|]. by rewrite <- keep_tables.
  - intros q q' t Hq Hq' Ht Ht'. rewrite keep_tables in Ht, Ht' by done. by apply (pt_inj _ _ Hpt q q' t).
  - intros q i t Hq Ht. destruct (path_ok_app _ _ Hq) as [Hq' Hj]. rewrite keep_tables in Ht by done.
    rewrite (keep_entry q t i) by done. by apply (pt_pointer _ _ Hpt q i t).
Qed.

Lemma keep_pte va : pte_of (ram s') root va = pte_of (ram s) root va.
Proof using Hk.
  unfold pte_of. rewrite keep_tables by apply path_valid. destruct (table_at (ram s) root (path va)) as [t|] eqn:Et; [|done].
  rewrite (keep_entry (path va) t (PX 0 va)); [done|apply path_valid|done|apply PX_range; lia].
Qed.
End keep.

(** ** Entries rewritten by the fault handler *)
Lemma clear_set_bits e k a b : 0 <= k -> 0 <= a -> 0 <= b ->
  Z.testbit (Z.lor (Z.land e (Z.lnot (Z.shiftl 1 a))) (Z.shiftl 1 b)) k =
    if decide (k = b) then true else if decide (k = a) then false else Z.testbit e k.
Proof.
  intros Hk Ha Hb. rewrite Z.lor_spec, Z.land_spec, Z.lnot_spec by done. rewrite !Z.shiftl_mul_pow2, !Z.mul_1_l, !Z.pow2_bits_eqb by done.
  destruct (Z.eqb_spec a k), (Z.eqb_spec b k); repeat case_decide; subst; try lia; by destruct (Z.testbit e _).
Qed.

Lemma pte_to_pa_bits e e' : (forall k, 10 <= k -> Z.testbit e' k = Z.testbit e k) -> pte_to_pa e' = pte_to_pa e.
Proof.
  intros H. unfold pte_to_pa. do 2 f_equal. apply Z.bits_inj'. intros n Hn. rewrite !Z.shiftr_spec by done. apply H. lia.
Qed.

(** ** The contract of handle_page_fault *)

(** Every user mapping leads to an allocated page that is no table. *)
Definition user_ok (s : kmem) (root : Z) : Prop := forall va e, 0 <= va < TRAPFRAME -> pte_of (ram s) root va = Some e ->
  live s (pte_to_pa e) 0 /\ ~ table_of (ram s) root (pte_to_pa e) /\ 0 <= e < 2 ^ 54.

(** A page with a single reference. *)
Definition sole (s : kmem) (a : Z) : Prop := live s a 0 /\ refcount (pg s a) = 1.

(** Only the page of [va] is mapped differently, to [e]. *)
Definition remapped (root va e : Z) (s s' : kmem) : Prop := forall va', 0 <= va' < MAX_VA ->
  pte_of (ram s') root va' = if decide (va' / 4096 = va / 4096) then Some e else pte_of (ram s) root va'.

(** Allocated pages other than tables keep their contents, and, but for [old],
    their references. *)
Definition pages_kept (root : Z) (old : option Z) (s s' : kmem) : Prop :=
  (forall a k x, live s a k -> ~ table_of (ram s) root a -> covers a k x -> ram s' x = ram s x) /\
  (forall a k, live s a k -> Some a <> old -> refcount (pg s' a) = refcount (pg s a)).

(** New tables are new blocks. *)
Definition tables_grow (root : Z) (s s' : kmem) : Prop :=
  forall t, table_of (ram s') root t -> table_of (ram s) root t \/ forall k, ~ live s t k.
Lemma tables_refl root s : tables_grow root s s.
Proof. by left. Qed.
#[export] Hint Resolve tables_refl : core.

(** Newly allocated blocks are [new] and tables of [root]. *)
Definition blocks_grow (root : Z) (new : option Z) (s s' : kmem) : Prop :=
  forall a k, live s' a k <-> live s a k \/ (k = 0 /\ (Some a = new \/ table_of (ram s') root a) /\ forall j, ~ live s a j).

Inductive faulted (p : aspace) (cause va : Z) (s : kmem) : Z -> kmem -> Prop :=
| fault_no_vma : vma_find p va = None -> faulted p cause va s (-1) s
| fault_readonly v : vma_find p va = Some v -> pte_of (ram s) (pagetable p) va = None ->
    cause = EXC_STORE_PAGE -> has (perm v) PTE_W = false -> faulted p cause va s (-1) s
| fault_violation v e : vma_find p va = Some v -> pte_of (ram s) (pagetable p) va = Some e ->
    ~ (cause = EXC_STORE_PAGE /\ has e PTE_COW = true) -> faulted p cause va s (-1) s
| fault_lazy v n s' : vma_find p va = Some v -> pte_of (ram s) (pagetable p) va = None ->
    (cause = EXC_STORE_PAGE -> has (perm v) PTE_W = true) ->
    (forall k, ~ live s n k) -> sole s' n -> (forall x, n <= x < n + 4096 -> ram s' x = 0) ->
    remapped (pagetable p) va (leaf_pte n (perm v)) s s' ->
    pages_kept (pagetable p) None s s' -> blocks_grow (pagetable p) (Some n) s s' -> faulted p cause va s 0 s'
| fault_lazy_oom v s' : vma_find p va = Some v -> pte_of (ram s) (pagetable p) va = None ->
    (forall va', 0 <= va' < MAX_VA -> pte_of (ram s') (pagetable p) va' = pte_of (ram s) (pagetable p) va') ->
    pages_kept (pagetable p) None s s' -> blocks_grow (pagetable p) None s s' -> faulted p cause va s (-1) s'
| fault_cow_owner v e s' : vma_find p va = Some v -> pte_of (ram s) (pagetable p) va = Some e ->
    cause = EXC_STORE_PAGE -> has e PTE_COW = true -> refcount (pg s (pte_to_pa e)) = 1 ->
    remapped (pagetable p) va (Z.lor (Z.land e (Z.lnot PTE_COW)) PTE_W) s s' ->
    pages_kept (pagetable p) None s s' -> blocks_grow (pagetable p) None s s' -> faulted p cause va s 0 s'
| fault_cow_copy v e n s' : vma_find p va = Some v -> pte_of (ram s) (pagetable p) va = Some e ->
    cause = EXC_STORE_PAGE -> has e PTE_COW = true -> 1 < refcount (pg s (pte_to_pa e)) ->
    (forall k, ~ live s n k) -> sole s' n ->
    (forall i, 0 <= i < 4096 -> ld8 (ram s') (n + i) = ld8 (ram s) (pte_to_pa e + i)) ->
    refcount (pg s' (pte_to_pa e)) = refcount (pg s (pte_to_pa e)) - 1 ->
    remapped (pagetable p) va (Z.lor (pa_to_pte n) (Z.lor (Z.land e (PTE_COW - 1)) PTE_W)) s s' ->
    pages_kept (pagetable p) (Some (pte_to_pa e)) s s' -> blocks_grow (pagetable p) (Some n) s s' -> faulted p cause va s 0 s'
| fault_cow_oom v e : vma_find p va = Some v -> pte_of (ram s) (pagetable p) va = Some e ->
    cause = EXC_STORE_PAGE -> has e PTE_COW = true -> 1 < refcount (pg s (pte_to_pa e)) -> no_memory s -> faulted p cause va s (-1) s.

(** [s1] is [s] with one new page [n] that holds the bytes [c]. *)
Definition fresh_page (s s1 : kmem) (n : Z) (c : Z -> Z) : Prop :=
  same_env s s1 /\ live_frame s s1 /\ KERN_BASE <= n /\ n + 4096 <= PHYS_STOP /\ n mod 4096 = 0 /\
  (forall x, n <= x < n + 4096 -> ram s1 x = c (x - n)) /\ refcount (pg s1 n) = 1 /\
  (forall a k x, live s a k -> covers a k x -> ~ n <= x < n + 4096) /\
  (forall a k, live s1 a k <-> live s a k \/ (a = n /\ k = 0)) /\ (forall k, ~ live s n k).

Section fault.
Context {inv : kmem -> Prop} {PA : PageAllocator inv kalloc_pages kfree_pages}.
Implicit Types s : kmem.

Lemma alloc_fresh_page s s1 n : inv s -> inv s1 -> n <> NULL -> alloc_post 0 s n s1 -> fresh_page s s1 n (fun _ => 0).
Proof using PA.
  intros Hi Hi1 Hn Hpost. destruct (ext_facts s s1 n Hi1 Hn Hpost) as (? & ? & ? & ? & ? & ? & ? & ? & ? & _). unfold fresh_page. split_and!; try done.
  intros k. by apply (ext_not_table s s1 n Hi Hi1 Hn Hpost).
Qed.

(** Allocation leaves page tables alone. *)
Lemma alloc_keep s s1 n c root : inv s -> inv s1 -> fresh_page s s1 n c -> pt_ok s root ->
  forall t, table_of (ram s) root t -> is_table s1 t /\ forall x, t <= x < t + 4096 -> ram s1 x = ram s x.
Proof using PA.
  intros Hi Hi1 Hf Hpt t (q & Hq & Ht). destruct (pt_table _ _ Hpt q t Hq Ht) as [Hl Hr].
  destruct Hf as (_ & Hfr & _ & _ & _ & _ & _ & _ & Hl1 & _). split.
  - split; [apply Hl1; by left|]. destruct (Hfr t 0 Hl t) as [_ ->]; [by apply covers_self|done].
  - intros x Hx. apply (Hfr t 0 Hl). unfold covers. by change (bsz 0) with 4096.
Qed.

Lemma page_va va : 0 <= va -> PG_ROUND_DOWN va mod 4096 = 0 /\ 0 <= PG_ROUND_DOWN va <= va /\ va < PG_ROUND_DOWN va + 4096 /\
  PG_ROUND_DOWN va / 4096 = va / 4096.
Proof using Type. intros. pose proof (PG_ROUND_DOWN_range va). pose proof (PG_ROUND_DOWN_aligned va). split_and!; try done; try lia; mlia. Qed.

(** Mapping one fresh page. *)
Section lazy.
Context (s s1 : kmem) (root va n prm : Z) (c : Z -> Z) (Hi : inv s) (Hi1 : inv s1) (Hf : fresh_page s s1 n c).
Context (Hpt : pt_ok s root) (Hva : 0 <= va < TRAPFRAME) (Hnone : pte_of (ram s) root va = None) (Hprm : 0 <= prm < 1024).

Lemma lazy_keep : pt_ok s1 root /\ (forall va', pte_of (ram s1) root va' = pte_of (ram s) root va') /\
  (forall a, table_of (ram s1) root a <-> table_of (ram s) root a).
Proof using PA Hi Hi1 Hf Hpt.
  pose proof (alloc_keep s s1 n c root Hi Hi1 Hf Hpt) as Hk.
  split_and!; [by eapply keep_pt_ok|intros; by eapply keep_pte|intros; by eapply keep_table_of].
Qed.

Lemma lazy_map_spec : wp (map_pages root (PG_ROUND_DOWN va) PG_SIZE n prm) (fun r s2 => pt_step (inv:=inv) root s1 s2 /\
  ((r = 0 /\ remapped root va (leaf_pte n prm) s s2) \/
   (r = -1 /\ (forall va', 0 <= va' < MAX_VA -> pte_of (ram s2) root va' = pte_of (ram s) root va') /\ no_memory s2))) s1.
Proof using All.
  destruct lazy_keep as (Hpt1 & Hpte & _). destruct (page_va va ltac:(lia)) as (Hal & Hlo & Hhi & Hdiv).
  pose proof Hf as (_ & _ & ? & ? & ? & _). assert (MAX_VA = 2 ^ 38) as Hmax by done.
  assert (TRAPFRAME = 2 ^ 38 - 8192) as Htf by done.
  eapply wp_mono; [apply (map_pages_spec s1 root (PG_ROUND_DOWN va) PG_SIZE n prm); rewrite ?PG_SIZE_val; try done; try klia|].
  - intros va' Hva'. rewrite Hpte, <- Hnone. apply pte_of_page. mlia.
  - intros r s2 (Hst & k & Hm & Hres). split; [done|]. rewrite PG_SIZE_val in Hres. destruct Hres as [[-> Hk]|(-> & Hk & Hnm)].
    + left. split; [done|]. intros va' Hva'. rewrite Hm, Hpte by done. assert (k = 1%nat) as -> by lia.
      repeat case_decide; try mlia; [|done]. do 2 f_equal. mlia.
    + right. split_and!; [done| |done]. intros va' Hva'. rewrite Hm, Hpte by done. rewrite decide_False by lia. done.
Qed.

Lemma lazy_fresh : (forall k, ~ live s n k) /\ ~ table_of (ram s) root n.
Proof using PA Hi Hi1 Hf Hpt.
  pose proof Hf as (_ & _ & _ & _ & _ & _ & _ & _ & _ & Hnl). split; [done|].
  intros (q & Hq & Ht). apply (Hnl 0). by apply (pt_table _ _ Hpt q).
Qed.

(** What the step of map_pages leaves of the state before the allocation. *)
Lemma lazy_step s2 : pt_step (inv:=inv) root s1 s2 ->
  sole s2 n /\ (forall x, n <= x < n + 4096 -> ram s2 x = c (x - n)) /\ pages_kept root None s s2 /\ blocks_grow root (Some n) s s2 /\
  ~ table_of (ram s2) root n.
Proof using All.
  intros Hst. destruct lazy_keep as (Hpt1 & Hpte & Hto). destruct lazy_fresh as [Hnl Hnt].
  pose proof Hf as (_ & Hfr & _ & _ & _ & Hz & Hrc & _ & Hl1 & _).
  assert (live s1 n 0) as Hln by (apply Hl1; by right). assert (~ table_of (ram s1) root n) as Hnt1 by by rewrite Hto.
  unfold sole, pages_kept, blocks_grow. split_and!.
  - apply (pg_live _ _ _ Hst). by left.
  - rewrite (pg_entries _ _ _ Hst n 0 n); [done|done|by apply covers_self].
  - intros x Hx. rewrite (pg_frame _ _ _ Hst n 0 x); [by apply Hz|done|done|]. unfold covers. by change (bsz 0) with 4096.
  - intros a k x Ha Hna Hx. rewrite (pg_frame _ _ _ Hst a k x); [by apply (Hfr a k Ha)|apply Hl1; by left|by rewrite Hto|done].
  - intros a k Ha _. destruct (pal_block s a k Hi Ha) as [? _]. assert (covers a k a) by (apply covers_self; lia).
    rewrite (pg_entries _ _ _ Hst a k a); [by destruct (Hfr a k Ha a) as [_ ->]|apply Hl1; by left|done].
  - intros a k. rewrite (pg_live _ _ _ Hst), Hl1. split.
    + intros [[?|[-> ->]]|(-> & Ht & Hn')]; [by left|right; split_and!; [done|by left|done]|].
      right. split_and!; [done|by right|]. intros j Hj. apply (Hn' j), Hl1. by left.
    + intros [?|(-> & [[= ->]|Ht] & Hn')]; [by left; left|left; by right|].
      destruct (decide (a = n)) as [->|Hne]; [left; by right|]. right. split_and!; [done|done|].
      intros j [Hj|[? _]]%Hl1; [by apply (Hn' j)|done].
  - intros Ht. destruct (pg_tables _ _ _ Hst n Ht) as [?|Hnn]; [done|]. by apply (Hnn 0).
Qed.

(** Giving the page back when no table could be allocated. *)
Lemma lazy_undo s2 : pt_step (inv:=inv) root s1 s2 ->
  wp (kfree n) (fun _ s3 => inv s3 /\ pt_ok s3 root /\ (forall va', pte_of (ram s3) root va' = pte_of (ram s2) root va') /\
    pages_kept root None s s3 /\ blocks_grow root None s s3 /\
    (forall t, table_of (ram s3) root t -> table_of (ram s) root t \/ forall k, ~ live s t k)) s2.
Proof using All.
  intros Hst. destruct lazy_fresh as [Hnl Hnt]. destruct (lazy_step s2 Hst) as ([Hl2 Hr2] & _ & [Hk1 Hk2] & Hbg & Hnt2).
  pose proof (pg_inv _ _ _ Hst) as Hi2. pose proof (pg_pt _ _ _ Hst) as Hpt2.
  pose proof Hf as (_ & _ & ? & ? & ? & _ & _ & _ & Hl1 & _). destruct lazy_keep as (_ & _ & Hto1).
  eapply wp_mono; [apply (pal_free n 0 s2 Hi2 Hl2 Hr2)|]. intros [] s3 ((_ & Hpg & Hl3 & Hram) & Hi3).
  assert (forall a k, live s2 a k -> a <> n -> pg s3 a = pg s2 a) as Hpg3.
  { intros a k Ha Hne. unfold pg. rewrite Hpg, upd_ne; [done|]. intros Heq. apply Hne.
    destruct (pal_block s2 a k Hi2 Ha) as (? & ? & ? & ?). pose proof (bsz_ge k ltac:(lia)).
    apply pa_to_page_inj; [lia|lia|by apply (bsz_aligned_page a k); [lia|]|done|done]. }
  assert (forall t, table_of (ram s2) root t -> is_table s3 t /\ forall x, t <= x < t + 4096 -> ram s3 x = ram s2 x) as Hk.
  { intros t (q & Hq & Ht). destruct (pt_table _ _ Hpt2 q t Hq Ht) as [Hlt Hrt].
    assert (t <> n) as Hne by (intros ->; apply Hnt2; by exists q). split.
    - split; [by apply Hl3|]. by rewrite (Hpg3 t 0).
    - intros x Hx. apply (Hram t 0 x Hlt Hne). unfold covers. by change (bsz 0) with 4096. }
  assert (forall t, table_of (ram s3) root t <-> table_of (ram s2) root t) as Hto by (intros; by eapply keep_table_of).
  assert (forall a k, live s a k -> live s2 a k /\ a <> n) as Hmono.
  { intros a k Ha. split; [apply Hbg; by left|]. intros ->. by eapply Hnl. }
  unfold pages_kept, blocks_grow. split_and!.
  - done.
  - by eapply keep_pt_ok.
  - intros. by eapply keep_pte.
  - intros a k x Ha Hna Hx. destruct (Hmono a k Ha). rewrite (Hram a k x) by done. by eapply Hk1.
  - intros a k Ha _. destruct (Hmono a k Ha). rewrite (Hpg3 a k) by done. by apply (Hk2 a k).
  - intros a k. rewrite Hl3, (Hbg a k), Hto. split.
    + intros [[?|(-> & [[= ->]|Ht] & Hn')] Hne]; [by left|done|right; split_and!; [done|by right|done]].
    + intros [Ha|(-> & [?|Ht] & Hn')]; [|done|].
      * destruct (Hmono a k Ha). split; [by left|done].
      * split; [right; split_and!; [done|by right|done]|]. intros ->. done.
  - intros t Ht%Hto. destruct (pg_tables _ _ _ Hst t Ht) as [Ht1%Hto1|Hnn]; [by left|]. right. intros k Hk'.
    apply (Hnn k), Hl1. by left.
Qed.
End lazy.

Lemma user_ok_step s s' root : user_ok s root ->
  (forall va e, 0 <= va < TRAPFRAME -> pte_of (ram s') root va = Some e -> pte_of (ram s) root va = Some e \/
    (live s' (pte_to_pa e) 0 /\ ~ table_of (ram s') root (pte_to_pa e) /\ 0 <= e < 2 ^ 54)) ->
  (forall a k, live s a k -> live s' a k) ->
  (forall t, table_of (ram s') root t -> table_of (ram s) root t \/ forall k, ~ live s t k) -> user_ok s' root.
Proof using Type.
  intros Hu Hm Hl Ht va e Hva He. destruct (Hm va e Hva He) as [He'|?]; [|done].
  destruct (Hu va e Hva He') as (Hlv & Hnt & Hr). split_and!; try lia; [by apply Hl|].
  intros Htt. destruct (Ht _ Htt) as [?|Hn]; [done|]. by apply (Hn 0).
Qed.

(** What is true of the address space after a step that adds the page [new]. *)
Record space_step (root : Z) (new : option Z) (s s' : kmem) : Prop := {
  sp_inv : inv s';
  sp_pt : pt_ok s' root;
  sp_user : user_ok s' root;
  sp_kept : pages_kept root None s s';
  sp_grow : blocks_grow root new s s';
  sp_tables : tables_grow root s s'
}.

(** Mapping a fresh page, or giving it back when there is no memory for a table. *)
Lemma map_fresh_spec s s1 root va n prm c : inv s -> inv s1 -> fresh_page s s1 n c -> pt_ok s root -> user_ok s root -> 0 <= va < TRAPFRAME ->
  pte_of (ram s) root va = None -> 0 <= prm < 1024 ->
  wp (map_pages root (PG_ROUND_DOWN va) PG_SIZE n prm) (fun r s2 =>
    (r = 0 /\ space_step root (Some n) s s2 /\ sole s2 n /\ (forall x, n <= x < n + 4096 -> ram s2 x = c (x - n)) /\ remapped root va (leaf_pte n prm) s s2) \/
    (r = -1 /\ no_memory s2 /\ (forall a k, live s a k -> live s2 a k) /\ wp (kfree n) (fun _ s3 => space_step root None s s3 /\
       forall va', 0 <= va' < MAX_VA -> pte_of (ram s3) root va' = pte_of (ram s) root va') s2)) s1.
Proof using PA.
  intros Hi Hi1 Hf Hpt Hu Hva Hnone Hprm. eapply wp_mono; [by apply (lazy_map_spec s s1 root va n prm c)|]. intros r s2 (Hst & Hres).
  destruct (lazy_step s s1 root va n prm _ Hi Hi1 Hf Hpt Hva Hnone Hprm s2 Hst) as (Hso & Hz & Hkept & Hbg & Hnt).
  destruct (lazy_keep s s1 root n _ Hi Hi1 Hf Hpt) as (_ & _ & Hto1). pose proof Hf as (_ & _ & ? & ? & ? & _ & _ & _ & Hl1 & _).
  assert (MAX_VA = 2 ^ 38) as Hmax by done. assert (TRAPFRAME = 2 ^ 38 - 8192) as Htf by done.
  destruct Hres as [[-> Hmap]|(-> & Hsame & Hnm)]; [left|right].
  - assert (forall t, table_of (ram s2) root t -> table_of (ram s) root t \/ forall k, ~ live s t k) as Htn.
    { intros t Ht. destruct (pg_tables _ _ _ Hst t Ht) as [?%Hto1|Hnn]; [by left|]. right. intros k Hk. apply (Hnn k), Hl1. by left. }
    split_and!; try done. split; try done; [apply Hst|apply Hst|]. eapply user_ok_step; [exact Hu| |intros a k Ha; apply Hbg; by left|exact Htn].
    intros va' e Hva'. rewrite Hmap by lia. case_decide; [|by left]. intros [= <-]. right.
    destruct (leaf_pte_pa n prm) as [-> _]; [klia|done|done|]. split_and!; try done; [apply Hso|..].
    + pose proof (leaf_pte_facts n prm ltac:(klia) Hprm). lia.
    + rewrite leaf_pte_eq. apply pte_range_lor; [klia|]. apply (lor_range _ _ 10); lia.
  - split_and!; try done; [intros a k Ha; apply Hbg; by left|]. eapply wp_mono; [by apply (lazy_undo s s1 root va n prm _ Hi Hi1 Hf Hpt Hva Hnone Hprm)|].
    intros [] s3 (Hi3 & Hpt3 & Hpte3 & Hk3 & Hb3 & Ht3). assert (forall va', 0 <= va' < MAX_VA -> pte_of (ram s3) root va' = pte_of (ram s) root va') as Hsame' by (intros va' Hva'; by rewrite Hpte3, Hsame).
    split; [|done]. split; try done. eapply user_ok_step; [exact Hu| |intros a k Ha; apply Hb3; by left|done].
    intros va' e Hva' He. left. by rewrite Hsame' in He by lia.
Qed.

(** Pages, tables and references of a fault that maps a page differently. *)
Definition fault_ok (p : aspace) (cause va : Z) (s : kmem) (r : Z) (s' : kmem) : Prop :=
  inv s' /\ pt_ok s' (pagetable p) /\ user_ok s' (pagetable p) /\ tables_grow (pagetable p) s s' /\ faulted p cause va s r s'.

Lemma lazy_alloc_spec p cause va v s : inv s -> pt_ok s (pagetable p) -> user_ok s (pagetable p) -> 0 <= va < TRAPFRAME ->
  0 <= perm v < 1024 -> vma_find p va = Some v -> pte_of (ram s) (pagetable p) va = None ->
  (cause = EXC_STORE_PAGE -> has (perm v) PTE_W = true) ->
  wp (lazy_alloc p va v) (fault_ok p cause va s) s.
Proof using PA.
  intros Hi Hpt Hu Hva Hprm Hfind Hnone Hw. set (root := pagetable p) in *. unfold lazy_alloc. fold root.
  wp_steps. eapply wp_mono; [apply (pal_alloc 0 s Hi); klia|]. intros n s1 [Hpost Hi1].
  destruct (Z.eqb_spec n NULL) as [->|Hn].
  { wp_steps. destruct Hpost as [(_ & -> & _)|[? _]]; [|done]. split_and!; try done. eapply fault_lazy_oom; try done.
    intros a k. split; [by left|]. intros [?|(-> & [?|(q & Hq & Ht)] & Hnl)]; [done|done|].
    destruct (Hnl 0). by apply (pt_table _ _ Hpt q). }
  pose proof (alloc_fresh_page s s1 n Hi Hi1 Hn Hpost) as Hf. wp_steps. eapply wp_mono; [by apply (map_fresh_spec s s1 root va n (perm v) (fun _ => 0))|].
  intros r s2 [(-> & Hsp & Hso & Hz & Hmap)|(-> & _ & _ & Hun)].
  - wp_steps. destruct Hsp. split_and!; try done. destruct (lazy_fresh s s1 root n _ Hi Hi1 Hf Hpt) as [Hnl _]. by eapply fault_lazy.
  - destruct (Z.ltb_spec (-1) 0); [|lia]. wp_steps. eapply wp_mono; [exact Hun|]. intros [] s3 [[] Hsame]. wp_steps.
    split_and!; try done. by eapply fault_lazy_oom.
Qed.

(** ** Copy on write *)
Lemma land_range e y k : 0 <= k -> 0 <= e < 2 ^ k -> 0 <= Z.land e y < 2 ^ k.
Proof using Type.
  intros Hk He. replace (Z.land e y) with (Z.land e y mod 2 ^ k); [apply Z.mod_pos_bound; lia|].
  rewrite <- Z.land_ones, <- Z.land_assoc, (Z.land_comm y), Z.land_assoc, Z.land_ones, Z.mod_small by done. done.
Qed.

Section cow.
Context (p : aspace) (va u e : Z) (v : vma) (s : kmem).
Let root := pagetable p.
Context (Hi : inv s) (Hpt : pt_ok s root) (Hu : user_ok s root) (Hva : 0 <= va < TRAPFRAME).
Context (Hfind : vma_find p va = Some v) (Hut : table_at (ram s) root (path va) = Some u).
Context (He : entry (ram s) u (PX 0 va) = e) (HV : has e PTE_V = true) (HC : has e PTE_COW = true).

Lemma cow_pte : pte_of (ram s) root va = Some e.
Proof using Hut He HV. unfold pte_of. by rewrite Hut, He, HV. Qed.

Lemma cow_page : live s (pte_to_pa e) 0 /\ ~ table_of (ram s) root (pte_to_pa e) /\ 0 <= e < 2 ^ 54 /\
  pte_to_pa e mod 4096 = 0 /\ KERN_BASE <= pte_to_pa e /\ free_start s <= pte_to_pa e /\ pte_to_pa e + 4096 <= PHYS_STOP /\ 0 <= va < MAX_VA.
Proof using PA Hi Hu Hva Hut He HV.
  destruct (Hu va e Hva cow_pte) as (Hl & Hnt & Hr). destruct (pal_block s _ 0 Hi Hl) as (_ & Hal & ? & ?).
  change (bsz 0) with 4096 in *. assert (MAX_VA = 2 ^ 38) by done. assert (TRAPFRAME = 2 ^ 38 - 8192) by done. split_and!; (done || lia).
Qed.

Lemma cow_owner_spec : refcount (pg s (pte_to_pa e)) = 1 ->
  fault_ok p EXC_STORE_PAGE va s 0 (with_leaf s va u (Z.lor (Z.land e (Z.lnot PTE_COW)) PTE_W)).
Proof using All.
  intros Hrc. destruct cow_page as (Hl & Hnt & Hr & ? & ? & ? & ? & Hvm). set (e1 := Z.lor _ _).
  assert (0 <= e1 < 2 ^ 54) as Hr1 by (apply lor_range; [lia|by apply land_range|done]).
  assert (forall k, 0 <= k -> Z.testbit e1 k = if decide (k = 2) then true else if decide (k = 8) then false else Z.testbit e k) as Hbits.
  { intros k Hk. unfold e1, PTE_COW, PTE_W. by apply clear_set_bits. }
  assert (has e1 PTE_V = true) as HV1 by (rewrite has_V, Hbits by lia; rewrite has_V in HV; by repeat case_decide).
  assert (pte_to_pa e1 = pte_to_pa e) as Hpa1 by (apply pte_to_pa_bits; intros k Hk; rewrite Hbits by lia; repeat case_decide; (done || lia)).
  assert (0 <= e1 < 2 ^ 64) as Hr64 by lia.
  pose proof (leaf_step s root va u e1 Hi Hpt Hvm Hut Hr64) as Hst. pose proof (leaf_pte_of s root va u e1 Hi Hpt Hvm Hut Hr64) as Hpte.
  rewrite HV1 in Hpte. pose proof (leaf_table_of s root va u e1 Hi Hpt Hvm Hut Hr64) as Hto. set (s' := with_leaf s va u e1) in *.
  split_and!; [apply Hst|apply Hst| |intros t Ht%Hto; by left|].
  - eapply user_ok_step; [exact Hu| |done|intros t Ht%Hto; by left].
    intros va' e' Hva'. fold root. rewrite Hpte by (assert (TRAPFRAME <= MAX_VA) by done; lia). case_decide; [|by left]. intros [= <-]. right.
    rewrite Hpa1. split_and!; try lia; [done|]. by rewrite Hto.
  - eapply (fault_cow_owner _ _ _ _ v e); try done; [apply cow_pte|split; [apply (pg_frame _ _ _ Hst)|done]|].
    intros a k. change (live s' a k) with (live s a k). split; [by left|]. intros [?|(-> & [?|(q & Hq & Ht)%Hto] & Hn)]; [done|done|].
    destruct (Hn 0). by apply (pt_table _ _ Hpt q).
Qed.

(** The state behind the copy: new page, new entry, one reference less. *)
Context (s1 : kmem) (n : Z) (Hi1 : inv s1) (Hn : n <> NULL) (Hpost : alloc_post 0 s n s1).
Definition copied : kmem := set_ram (memcpy (ram s1) n (pte_to_pa e) 4096) s1.

Lemma copied_ram : (forall x, ~ n <= x < n + 4096 -> ram copied x = ram s1 x) /\
  (forall i, 0 <= i < 4096 -> ld8 (ram copied) (n + i) = ld8 (ram s) (pte_to_pa e + i)).
Proof using PA Hi Hu Hva Hut He HV Hi1 Hn Hpost.
  destruct cow_page as (Hl & _). destruct (ext_facts s s1 n Hi1 Hn Hpost) as (_ & Hfr & _). split.
  - intros x Hx. by apply memcpy_out.
  - intros i Hx. unfold copied, ld8. ksimpl. unfold memcpy. rewrite in_range_true by lia. rewrite u8_idem.
    replace (pte_to_pa e + (n + i - n)) with (pte_to_pa e + i) by lia. f_equal.
    apply (Hfr _ 0 Hl). unfold covers. change (bsz 0) with 4096. lia.
Qed.

Lemma copied_keep : inv copied /\ forall t, table_of (ram s) root t -> is_table copied t /\ forall x, t <= x < t + 4096 -> ram copied x = ram s x.
Proof using All.
  destruct (ext_facts s s1 n Hi1 Hn Hpost) as (_ & _ & _ & _ & _ & _ & _ & Hdj & Hl1 & _). destruct copied_ram as [Hout _]. split.
  - eapply pal_client; [exact Hi1|]. split_and!; try done.
    + intros q. by pose proof (pal_u16 s1 q Hi1).
    + intros x Hx. apply Hout. intros Hin. apply (Hx n 0); [apply Hl1; by right|]. unfold covers. by change (bsz 0) with 4096.
  - intros t Ht. destruct (alloc_keep s s1 n _ root Hi Hi1 (alloc_fresh_page s s1 n Hi Hi1 Hn Hpost) Hpt t Ht) as [Hit Hr]. split; [done|].
    intros x Hx. rewrite <- Hr by done. apply Hout. destruct Ht as (q & Hq & Ht). destruct (pt_table _ _ Hpt q t Hq Ht) as [Hlt _].
    apply (Hdj t 0 x Hlt). unfold covers. by change (bsz 0) with 4096.
Qed.

Definition cow_entry : Z := Z.lor (pa_to_pte n) (Z.lor (Z.land e (PTE_COW - 1)) PTE_W).
Definition cow_done : kmem :=
  let s3 := with_leaf copied va u cow_entry in
  set_pages (upd (pages s3) (pa_to_page (pte_to_pa e)) (page_set_refcount (refcount (pg s (pte_to_pa e)) - 1) (pages s3 (pa_to_page (pte_to_pa e))))) s3.

Lemma cow_entry_facts : 0 <= cow_entry < 2 ^ 54 /\ has cow_entry PTE_V = true /\ pte_to_pa cow_entry = n.
Proof using All.
  destruct (ext_facts s s1 n Hi1 Hn Hpost) as (_ & _ & ? & ? & ? & _).
  assert (Z.land e (PTE_COW - 1) = e mod 2 ^ 8) as Hl by (apply (land_ones_mod e 8); lia).
  assert (0 <= Z.lor (Z.land e (PTE_COW - 1)) PTE_W < 1024) as Hf.
  { apply (lor_range _ _ 10); [lia| |done]. rewrite Hl. pose proof (Z.mod_pos_bound e (2 ^ 8) ltac:(lia)). lia. }
  unfold cow_entry. split_and!.
  - apply pte_range_lor; [klia|done].
  - apply pte_range_lor; [klia|done].
  - rewrite has_V, pte_bit_lor, Z.lor_spec, Hl, Z.mod_pow2_bits_low by (done || klia). by rewrite has_V in HV; rewrite HV.
  - apply pte_to_pa_lor; [klia|done|done].
Qed.

Lemma cow_slot : pt_ok copied root /\ table_at (ram copied) root (path va) = Some u /\ entry (ram copied) u (PX 0 va) = e.
Proof using All.
  destruct copied_keep as [_ Hk]. split_and!; [by eapply keep_pt_ok| |].
  - rewrite (keep_tables s copied root Hk); [done|apply path_valid].
  - rewrite (keep_entry s copied root Hk (path va)); [done|apply path_valid|done|apply PX_range; lia].
Qed.

Context (Hrc : 1 < refcount (pg s (pte_to_pa e))).

Lemma cow_pg a : live s1 a 0 \/ (exists k, live s1 a k) -> a <> pte_to_pa e -> pg cow_done a = pg s1 a.
Proof using All.
  intros Ha Hne. assert (exists k, live s1 a k) as [k Hk] by (destruct Ha as [?|?]; [by exists 0|done]).
  unfold pg, cow_done. ksimpl. rewrite upd_ne; [done|]. intros Heq. apply Hne. symmetry.
  destruct cow_page as (_ & _ & _ & ? & ? & ? & ? & _). destruct (pal_block s1 a k Hi1 Hk) as (? & ? & ? & ?). pose proof (bsz_ge k ltac:(lia)).
  apply pa_to_page_inj; [lia|lia|done|by apply (bsz_aligned_page a k); [lia|]|done].
Qed.

Lemma cow_refs : refcount (pg cow_done (pte_to_pa e)) = refcount (pg s (pte_to_pa e)) - 1 /\
  (forall q, order (pages cow_done q) = order (pages s1 q)) /\
  (forall q, q <> pa_to_page (pte_to_pa e) -> pages cow_done q = pages s1 q) /\ refcount (pg s1 (pte_to_pa e)) = refcount (pg s (pte_to_pa e)).
Proof using All.
  pose proof (pal_u16 s (pa_to_page (pte_to_pa e)) Hi) as Hb. fold (pg s (pte_to_pa e)) in Hb.
  destruct cow_page as (Hl & _). destruct (ext_facts s s1 n Hi1 Hn Hpost) as (_ & Hfr & _).
  split_and!.
  - unfold pg at 1, cow_done. ksimpl. rewrite upd_eq. cbn [page_set_refcount refcount]. apply u16_small. lia.
  - intros q. unfold cow_done. ksimpl. rewrite upd_case. case_decide as Hq; [by rewrite <- Hq|done].
  - intros q Hq. unfold cow_done. ksimpl. by rewrite upd_ne.
  - destruct (Hfr _ 0 Hl (pte_to_pa e)) as [_ ->]; [by apply covers_self|done].
Qed.

Lemma cow_live a k : live cow_done a k <-> live s a k \/ (a = n /\ k = 0).
Proof using All.
  destruct (ext_facts s s1 n Hi1 Hn Hpost) as (_ & _ & _ & _ & _ & _ & _ & _ & Hl1 & _). rewrite <- Hl1.
  destruct cow_refs as (Hr & Hor & Hoth & Hr1). unfold live, pg. rewrite Hor. change (free_start cow_done) with (free_start s1).
  destruct (decide (pa_to_page a = pa_to_page (pte_to_pa e))) as [Heq|Hne]; [|by rewrite Hoth].
  rewrite Heq. fold (pg cow_done (pte_to_pa e)) (pg s1 (pte_to_pa e)). rewrite Hr, Hr1. split; intros (? & ? & ? & ?); split_and!; (done || lia).
Qed.

Lemma cow_done_ok : fault_ok p EXC_STORE_PAGE va s 0 cow_done.
Proof using All.
  destruct cow_page as (Hl & Hnt & Hr & Hal & ? & ? & ? & Hvm). destruct cow_slot as (Hpt2 & Hut2 & _). destruct copied_keep as [Hi2 Hk2].
  destruct cow_entry_facts as (Hcr & HcV & Hcp). assert (0 <= cow_entry < 2 ^ 64) as Hc64 by lia.
  pose proof (leaf_step copied root va u cow_entry Hi2 Hpt2 Hvm Hut2 Hc64) as Hst.
  pose proof (leaf_pte_of copied root va u cow_entry Hi2 Hpt2 Hvm Hut2 Hc64) as Hpte. rewrite HcV in Hpte.
  pose proof (leaf_table_of copied root va u cow_entry Hi2 Hpt2 Hvm Hut2 Hc64) as Hto3. set (s3 := with_leaf copied va u cow_entry) in *.
  destruct (ext_facts s s1 n Hi1 Hn Hpost) as (_ & Hfr & ? & ? & ? & _ & Hrn & Hdj & Hl1 & _). destruct cow_refs as (Hrf & Hor & Hoth & Hrf1).
  pose proof (ext_not_table s s1 n Hi Hi1 Hn Hpost) as Hnl. destruct copied_ram as [Hcout Hcin].
  assert (forall t, table_of (ram s3) root t <-> table_of (ram s) root t) as Hto.
  { intros t. rewrite Hto3. by eapply keep_table_of. }
  assert (n <> pte_to_pa e) as Hnpa by (intros Heq; apply (Hnl 0); by rewrite Heq).
  assert (forall t, table_of (ram s3) root t -> is_table cow_done t /\ forall x, t <= x < t + 4096 -> ram cow_done x = ram s3 x) as Hk4.
  { intros t Ht. split; [|done]. destruct (proj1 (Hto t) Ht) as (q & Hq & Hqt). destruct (pt_table _ _ Hpt q t Hq Hqt) as [Hlt Hrt].
    assert (t <> pte_to_pa e) as Hne by (intros ->; apply Hnt; by exists q).
    split; [apply cow_live; by left|]. rewrite cow_pg; [|left; apply Hl1; by left|done].
    destruct (Hfr t 0 Hlt t) as [_ ->]; [by apply covers_self|done]. }
  pose proof (pg_pt _ _ _ Hst) as Hpt3. pose proof (keep_pt_ok s3 cow_done root Hpt3 Hk4) as Hpt4.
  assert (remapped root va cow_entry s cow_done) as Hmap.
  { intros va' Hva'. rewrite (keep_pte s3 cow_done root Hk4), Hpte by done. case_decide; [done|]. by apply (keep_pte s copied root Hk2). }
  assert (forall t, table_of (ram cow_done) root t <-> table_of (ram s) root t) as Hto4.
  { intros t. by rewrite (keep_table_of s3 cow_done root Hk4), Hto. }
  assert (~ table_of (ram s) root n) as Hnn by (intros (q & Hq & Ht); apply (Hnl 0); by apply (pt_table _ _ Hpt q)).
  assert (forall a k x, live s1 a k -> ~ table_of (ram s) root a -> covers a k x -> ram cow_done x = ram copied x) as Hram3.
  { intros a k x Ha Hna Hx. apply (pg_frame _ _ _ Hst a k x); [done| |done]. by rewrite (keep_table_of s copied root Hk2). }
  split_and!.
  - eapply pal_client; [exact (pg_inv _ _ _ Hst)|]. split_and!; try done.
    intros q. pose proof (pal_u16 s1 q Hi1) as Hb. split; [apply Hor|].
    destruct (decide (q = pa_to_page (pte_to_pa e))) as [->|Hq]; [|by rewrite Hoth].
    fold (pg cow_done (pte_to_pa e)) (pg s3 (pte_to_pa e)). change (pg s3 (pte_to_pa e)) with (pg s1 (pte_to_pa e)).
    fold (pg s1 (pte_to_pa e)) in Hb. rewrite Hrf, Hrf1 in *. lia.
  - done.
  - eapply user_ok_step; [exact Hu| |intros a k Ha; apply cow_live; by left|intros t Ht%Hto4; by left].
    intros va' e' Hva'. fold root. rewrite Hmap by (assert (TRAPFRAME <= MAX_VA) by done; lia). case_decide; [|by left]. intros [= <-]. right.
    rewrite Hcp. split_and!; try lia; [apply cow_live; by right|]. by rewrite Hto4.
  - intros t Ht%Hto4. by left.
  - eapply (fault_cow_copy _ _ _ _ v e n); try done.
    + apply cow_pte.
    + split; [apply cow_live; by right|]. rewrite cow_pg; [done|left; apply Hl1; by right|done].
    + intros i Hi'. rewrite <- Hcin by done. unfold ld8. f_equal. apply (Hram3 n 0); [apply Hl1; by right|done|].
      unfold covers. change (bsz 0) with 4096. lia.
    + split.
      * intros a k x Ha Hna Hx. rewrite (Hram3 a k x); [|apply Hl1; by left|done|done].
        rewrite Hcout; [by apply (Hfr a k Ha)|]. by apply (Hdj a k x Ha).
      * intros a k Ha Hne. rewrite cow_pg; [|right; exists k; apply Hl1; by left|congruence].
        destruct (pal_block s a k Hi Ha) as [? _]. destruct (Hfr a k Ha a) as [_ ->]; [apply covers_self; lia|done].
    + intros a k. rewrite cow_live. fold root. rewrite Hto4. split.
      * intros [?|[-> ->]]; [by left|]. right. split_and!; [done|by left|done].
      * intros [?|(-> & [[= ->]|(q & Hq & Ht)] & Hno)]; [by left|by right|]. destruct (Hno 0). by apply (pt_table _ _ Hpt q).
Qed.
End cow.
End fault.
