(* ===== verification/MemBoot.v ===== *)
(** [vm_create_kernel_pt]: which tables a mapping needs, so that the kernel page table
    is built whenever enough pages are free, and what it maps.

    The memory of the kernel at boot: page allocator, kernel page table and heap in the
    order kmain brings them up, with the pages that stay free for what comes after. *)
From stdpp Require Import relations.
From S2P Require Import Prelude Mem Layout Kalloc Buddy KallocInv KallocAlloc KallocFree KallocSpec KallocThm Kmalloc KmallocInv KmallocProof KmallocSpec KmallocFree KmallocThm Vm VmInv VmWalk VmMap.
From S2P Require Import VmThm VmaProof.

(** * The tables a walk adds lie on the path of its address *)
Definition new_paths (root : Z) (R : list Z -> Prop) (s s' : kmem) : Prop :=
  forall q t, path_ok q -> table_at (ram s') root q = Some t -> table_at (ram s) root q = Some t \/ R q.

Lemma new_paths_trans root (R : list Z -> Prop) s1 s2 s3 : new_paths root R s1 s2 -> new_paths root R s2 s3 -> new_paths root R s1 s3.
Proof. intros H1 H2 q t Hq Ht. destruct (H2 q t Hq Ht) as [H|H]; [by apply H1|by right]. Qed.
Lemma new_paths_mono root (R R' : list Z -> Prop) s s' : new_paths root R s s' -> (forall q, R q -> R' q) -> new_paths root R' s s'.
Proof. intros H HR q t Hq Ht. destruct (H q t Hq Ht); [by left|right; by apply HR]. Qed.
Lemma new_paths_refl root R s : new_paths root R s s.
Proof. intros q t _ Ht. by left. Qed.

Section paths.
Context {inv : kmem -> Prop} {PA : PageAllocator inv kalloc_pages kfree_pages}.

Lemma walk_levels_paths root va : forall n s q t, inv s -> pt_ok s root -> (n <= 2)%nat ->
  path va = q ++ drop (2 - n) (path va) -> length q = (2 - n)%nat -> table_at (ram s) root q = Some t ->
  wp (walk_levels n t va true) (fun _ s' => new_paths root (fun q => q `prefix_of` path va) s s') s.
Proof using PA.
  induction n as [|n IH]; intros s q t Hi Hpt Hn Hpath Hlen Ht; cbn [walk_levels]; [wp_steps; apply new_paths_refl|].
  assert (drop (2 - S n) (path va) = PX (Z.of_nat (S n)) va :: drop (2 - n) (path va)) as Hd.
  { assert (n = 0%nat \/ n = 1%nat) as [-> | ->] by lia; done. }
  rewrite Hd in Hpath. set (i := PX (Z.of_nat (S n)) va) in *.
  assert (path va = (q ++ [i]) ++ drop (2 - n) (path va)) as Hpath' by (by rewrite <- app_assoc).
  assert (path_ok (q ++ [i])) as Hqi.
  { pose proof (path_valid va) as [_ Hpf]. rewrite Hpath' in Hpf. apply Forall_app in Hpf as [Hpf _]. split; [rewrite length_app; cbn; lia|done]. }
  destruct (path_ok_app _ _ Hqi) as [Hq Hidx]. destruct (table_dram s root q t Hi Hpt Hq Ht) as (? & ? & ? & ?).
  unfold idx_ok in Hidx. cbv zeta. wp_steps. apply wp_load64; [lia..|]. fold (entry (ram s) t i).
  assert (length (q ++ [i]) = (2 - n)%nat) as Hlen' by (rewrite length_app; cbn; lia).
  destruct (has (entry (ram s) t i) PTE_V) eqn:He; [apply (IH s (q ++ [i])); try done; [lia|]; by rewrite table_at_snoc, Ht, He|].
  wp_steps. eapply wp_mono; [apply (pal_alloc 0 s Hi); klia|]. intros r s1 [Hpost Hi1].
  destruct (Z.eqb_spec r NULL) as [->|Hr]; [wp_steps; destruct Hpost as [(_ & -> & _)|[? _]]; [apply new_paths_refl|done]|].
  destruct (ext_facts s s1 r Hi1 Hr Hpost) as ([Hfs _] & _). wp_steps. apply wp_store64; [lia..|].
  fold (extended s1 t i r). pose proof (ext_grow s s1 root t i r q Hi Hpt Hqi Ht He Hi1 Hr Hpost) as Hg.
  eapply wp_mono; [apply (IH (extended s1 t i r) (q ++ [i])); try done; [apply Hg|apply Hg|lia|exact (ext_at s s1 root t i r q Hi Hpt Hqi Ht He Hi1 Hr Hpost)]|].
  intros r' s' Hp'. eapply new_paths_trans; [|exact Hp']. intros p t' Hp Ht'.
  destruct (ext_cases s s1 root t i r q Hi Hpt Hqi Ht He Hi1 Hr Hpost p t' Hp Ht') as [?|[-> _]]; [by left|right]. rewrite Hpath'. by apply prefix_app_r.
Qed.

Lemma map_loop_paths root perm : 0 <= perm < 1024 -> forall n s va pa, inv s -> pt_ok s root ->
  va mod 4096 = 0 -> pa mod 4096 = 0 -> 0 <= va -> va + Z.of_nat n * 4096 <= MAX_VA -> 0 <= pa -> pa + Z.of_nat n * 4096 <= 2 ^ 56 ->
  (forall va', va <= va' < va + Z.of_nat n * 4096 -> pte_of (ram s) root va' = None) ->
  wp (map_loop n root va pa perm) (fun r s' => new_paths root (fun q => exists va', va <= va' < va + Z.of_nat n * 4096 /\ q `prefix_of` path va') s s') s.
Proof using PA.
  intros Hperm. assert (MAX_VA = 2 ^ 38) as Hmax by done.
  induction n as [|n IH]; intros s va pa Hi Hpt Hva Hpa Hva0 Hva1 Hpa0 Hpa1 Hfree; cbn [map_loop]; [wp_steps; apply new_paths_refl|].
  wp_steps. eapply wp_mono; [apply wp_conj; [apply (walk_spec s root va true Hi Hpt); lia|]|].
  { unfold walk. destruct (Z.leb_spec MAX_VA va); [lia|]. by apply (walk_levels_paths root va 2 s [] root). }
  intros r s1 (([Hst Hpte] & _ & Hres) & Hnp).
  assert (new_paths root (fun q => exists va', va <= va' < va + Z.of_nat (S n) * 4096 /\ q `prefix_of` path va') s s1) as Hnp1.
  { eapply new_paths_mono; [exact Hnp|]. intros q Hq. exists va. split; [lia|done]. }
  destruct Hres as [(-> & _)|(u & Hu & -> & Hnz)]; [by rewrite Z.eqb_refl; wp_steps|].
  destruct (Z.eqb_spec (u + 8 * PX 0 va) NULL) as [|_]; [done|].
  assert (0 <= va < MAX_VA) as Hvar by lia. pose proof (pg_inv _ _ _ Hst) as Hi1. pose proof (pg_pt _ _ _ Hst) as Hpt1.
  destruct (leaf_dram s1 root va u Hi1 Hpt1 Hu) as (? & ? & ? & ? & Hidx). unfold idx_ok in Hidx.
  wp_steps. apply wp_load64; [lia..|].
  destruct (has (ld64 (ram s1) (u + 8 * PX 0 va)) PTE_V) eqn:Ev.
  { exfalso. specialize (Hfree va ltac:(lia)). rewrite <- Hpte in Hfree. unfold pte_of, entry in Hfree. by rewrite Hu, Ev in Hfree. }
  wp_steps. apply wp_store64; [lia..|]. fold (with_leaf s1 va u (leaf_pte pa perm)).
  assert (0 <= leaf_pte pa perm < 2 ^ 64) as Hlr by (apply leaf_pte_facts; lia).
  pose proof (leaf_step s1 root va u (leaf_pte pa perm) Hi1 Hpt1 Hvar Hu Hlr) as Hst2.
  pose proof (leaf_pte_of s1 root va u (leaf_pte pa perm) Hi1 Hpt1 Hvar Hu Hlr) as Hpte2.
  pose proof (leaf_tables s1 root va u (leaf_pte pa perm) Hi1 Hpt1 Hvar Hu Hlr) as Htab.
  set (s2 := with_leaf _ _ _ _) in *. rewrite PG_SIZE_val, !u64_small by lia.
  eapply wp_mono; [apply (IH s2); try lia|].
  - apply Hst2.
  - apply Hst2.
  - rewrite Z.add_mod, Hva by lia. done.
  - rewrite Z.add_mod, Hpa by lia. done.
  - intros va' Hva'. rewrite Hpte2 by lia. rewrite decide_False by mlia. rewrite Hpte. apply Hfree. lia.
  - intros r' s' Hp'. eapply new_paths_trans; [exact Hnp1|]. eapply new_paths_trans.
    + intros q t Hq Ht. left. by rewrite <- Htab.
    + eapply new_paths_mono; [exact Hp'|]. intros q (va' & Hr & Hq). exists va'. split; [lia|done].
Qed.

Lemma map_pages_paths s root va size pa perm : inv s -> pt_ok s root -> 0 <= perm < 1024 ->
  0 < size -> size mod 4096 = 0 -> va mod 4096 = 0 -> pa mod 4096 = 0 -> 0 <= va -> va + size <= MAX_VA -> 0 <= pa -> pa + size <= 2 ^ 56 ->
  (forall va', va <= va' < va + size -> pte_of (ram s) root va' = None) ->
  wp (map_pages root va size pa perm) (fun r s' => new_paths root (fun q => exists va', va <= va' < va + size /\ q `prefix_of` path va') s s') s.
Proof using PA.
  intros Hi Hpt Hperm Hs Hsa Hva Hpa Hva0 Hva1 Hpa0 Hpa1 Hfree. assert (MAX_VA = 2 ^ 38) as Hmax by done. unfold map_pages.
  destruct (Z.eqb_spec size 0); [lia|]. rewrite PG_SIZE_val, Hva, Hpa, Hsa. cbn [negb Z.eqb orb].
  rewrite pages_of by lia. assert (Z.of_nat (Z.to_nat (size / 4096)) * 4096 = size) as Hn by mlia.
  rewrite <- Hn. rewrite Hn at 1. apply (map_loop_paths root perm Hperm); try done; rewrite ?Hn; try done; lia.
Qed.
End paths.

(** * Enough memory *)

(** [l] are pages no block has. *)
Definition spare (s : kmem) (l : list Z) : Prop :=
  NoDup l /\ forall a, a ∈ l -> a mod 4096 = 0 /\ free_start s <= a < PHYS_STOP /\ forall b k, live s b k -> ~ covers b k a.

(** Pages [T] more in use leave all the others. *)
Lemma spare_grow_list s s' T l : free_start s' = free_start s -> (forall a k, live s' a k -> live s a k \/ (a ∈ T /\ k = 0)) -> spare s l ->
  exists l', spare s' l' /\ (length l <= length T + length l')%nat.
Proof.
  intros Hfs Hlv [Hnd Hin]. exists (filter (fun a => a ∉ T) l). split.
  - split; [by apply NoDup_filter|]. intros a [Hne Ha]%list_elem_of_filter. destruct (Hin a Ha) as (Hal & Hrange & Hfree). rewrite Hfs. split_and!; [done|lia|lia|].
    intros b k Hb Hc. destruct (Hlv b k Hb) as [Hb'|[Hr ->]]; [by apply (Hfree b k)|]. destruct Hb as (_ & Hra & _). apply Hne.
    assert (a = b) as ->; [|done]. unfold covers in Hc. change (bsz 0) with 4096 in Hc. mlia.
  - assert (l ⊆+ T ++ filter (fun a => a ∉ T) l) as Hsub%submseteq_length; [|by rewrite length_app in Hsub].
    apply NoDup_submseteq; [done|]. intros a Ha. apply elem_of_app. destruct (decide (a ∈ T)); [by left|right; by apply list_elem_of_filter].
Qed.
Lemma spare_grow s s' r l : free_start s' = free_start s -> (forall a k, live s' a k -> live s a k \/ (a = r /\ k = 0)) -> spare s l ->
  exists l', spare s' l' /\ (length l <= S (length l'))%nat.
Proof. intros Hfs Hlv. apply (spare_grow_list s s' [r]); [done|]. intros a k. rewrite list_elem_of_singleton. apply Hlv. Qed.

Lemma full_memory s x : kalloc_inv s -> no_memory s -> free_start s <= x < PHYS_STOP -> exists a k, live s a k /\ covers a k x.
Proof.
  intros [fl Hinv] Hno Hx. destruct (pt_cover (bi_part _ _ _ Hinv) x Hx) as (a & k & [Ha|Hl] & Hc); [|by exists a, k]. exfalso.
  destruct (Buddy.pt_ok (bi_part _ _ _ Hinv) a k) as (Hk & _); [by left|].
  pose proof (fl_count _ _ (bi_lists _ _ _ Hinv) k Hk) as Hcnt. rewrite Hno in Hcnt by done. destruct (fl k); [by apply elem_of_nil in Ha|done].
Qed.

Lemma omap_length_le {A B} (f : A -> option B) l : (length (omap f l) <= length l)%nat.
Proof. induction l as [|x l IH]; cbn; [lia|]. destruct (f x); cbn; lia. Qed.

(** A table whose paths are among [P] does not use up more than [length P] pages. *)
Lemma tables_fit s s1 root P l : kalloc_inv s1 -> pt_step (inv:=kalloc_inv) root s s1 -> spare s l ->
  (forall q t, path_ok q -> table_at (ram s1) root q = Some t -> q ∈ P) -> (length P < length l)%nat -> ~ no_memory s1.
Proof.
  intros Hi Hst [Hnd Hl] HP Hlen Hno. destruct (pg_env _ _ _ Hst) as [Hfs _].
  assert (l ⊆ omap (table_at (ram s1) root) P) as Hsub.
  { intros a Ha. destruct (Hl a Ha) as (Hal & Hr & Hfree). destruct (full_memory s1 a Hi Hno) as (b & k & Hb & Hc); [by rewrite Hfs|].
    apply (pg_live _ _ _ Hst) in Hb as [Hb|(-> & (q & Hq & Ht) & _)]; [by apply Hfree in Hc|].
    destruct (table_dram s1 root q b Hi (pg_pt _ _ _ Hst) Hq Ht) as (_ & _ & Hbal & _).
    assert (b = a) as -> by (unfold covers in Hc; change (bsz 0) with 4096 in Hc; mlia).
    apply list_elem_of_omap. exists q. split; [by eapply HP|done]. }
  pose proof (submseteq_length _ _ (NoDup_submseteq _ _ Hnd Hsub)) as Hle.
  pose proof (omap_length_le (table_at (ram s1) root) P). lia.
Qed.

(** * The kernel page table under construction

    [m] is the mapping so far, [P] the paths of the tables it may have. *)
Record building (s1 : kmem) (r : Z) (P : list (list Z)) (m : Z -> option Z) (s : kmem) : Prop := {
  bd_step : pt_step (inv:=kalloc_inv) r s1 s;
  bd_map : forall va, 0 <= va < MAX_VA -> pte_of (ram s) r va = m va;
  bd_paths : forall q t, path_ok q -> table_at (ram s) r q = Some t -> q ∈ P
}.

Definition map_range (m : Z -> option Z) (va pa size perm : Z) : Z -> option Z := fun va' =>
  if decide (va <= va' < va + size) then Some (leaf_pte (pa + (va' / 4096 * 4096 - va)) perm) else m va'.

Lemma kvm_map_spec s1 r P m l s va pa size perm : building s1 r P m s -> spare s1 l -> (length P < length l)%nat -> 0 <= perm < 1024 ->
  0 < size -> size mod 4096 = 0 -> va mod 4096 = 0 -> pa mod 4096 = 0 -> 0 <= va -> va + size <= MAX_VA -> 0 <= pa -> pa + size <= 2 ^ 56 ->
  (forall va', va <= va' < va + size -> m va' = None) ->
  (forall va' q, va <= va' < va + size -> q `prefix_of` path va' -> q ∈ P) ->
  wp (kvm_map r va pa size perm) (fun _ s' => building s1 r P (map_range m va pa size perm) s') s.
Proof.
  intros [Hst Hm HP] Hsp Hlen Hp Hs Hsa Hva Hpa Hva0 Hva1 Hpa0 Hpa1 Hfree Hpaths.
  assert (kalloc_inv s /\ VmInv.pt_ok s r) as [Hi Hpt] by (split; apply Hst).
  assert (forall va', va <= va' < va + size -> pte_of (ram s) r va' = None) as Hnone by (intros va' Hva'; rewrite Hm by lia; by apply Hfree).
  unfold kvm_map. wp_steps. eapply wp_mono; [apply wp_conj; [by apply map_pages_spec|by apply map_pages_paths]|].
  intros f s' [(Hst' & k & Hmap & Hres) Hnp]. assert (pt_step (inv:=kalloc_inv) r s1 s') as Hst2 by (by eapply pt_step_trans).
  assert (forall q t, path_ok q -> table_at (ram s') r q = Some t -> q ∈ P) as HP'.
  { intros q t Hq Ht. destruct (Hnp q t Hq Ht) as [H|(va' & H1 & H2)]; [by eapply HP|by eapply Hpaths]. }
  destruct Hres as [[-> Hk]|(_ & _ & Hno)]; [|exfalso; by eapply tables_fit; [apply Hst2|exact Hst2|..]].
  rewrite Z.eqb_refl. wp_steps. split; [done| |done]. intros va' Hva'. unfold map_range. rewrite Hmap, Hk by done. case_decide; [done|by apply Hm].
Qed.

(** ** Paths of the kernel's addresses *)
Definition kernel_paths : list (list Z) :=
  [] :: [0] :: [2] :: [255] :: [255; 511] :: ((fun j => [0; j]) <$> [0; 16; 96; 97; 128]) ++ ((fun j => [2; j]) <$> seqZ 0 64).

Lemma path_block va i j : va / 2 ^ 21 = 512 * i + j -> 0 <= i < 512 -> 0 <= j < 512 -> path va = [i; j].
Proof.
  intros H Hi Hj. unfold path. rewrite !PX_vpn by lia. unfold Sv39.vpn. change (2 ^ (12 + 9 * 1)) with (2 ^ 21). change (2 ^ (12 + 9 * 2)) with (2 ^ 21 * 512).
  rewrite <- Z.div_div, H by lia. f_equal; [|f_equal]; mlia.
Qed.

Lemma prefix_cases (q : list Z) i j : q `prefix_of` [i; j] -> q = [] \/ q = [i] \/ q = [i; j].
Proof. intros [l Hl]. destruct q as [|a [|b q]]; [by left|right; left; by simplify_eq/=|right; right]. simplify_eq/=. by destruct q. Qed.

Lemma kernel_path va i j q : va / 2 ^ 21 = 512 * i + j -> 0 <= i < 512 -> 0 <= j < 512 -> [i] ∈ kernel_paths -> [i; j] ∈ kernel_paths -> q `prefix_of` path va -> q ∈ kernel_paths.
Proof. intros H Hi Hj H1 H2 Hq. rewrite (path_block va i j) in Hq by done. destruct (prefix_cases q i j Hq) as [-> | [-> | ->]]; [left|done|done]. Qed.

Ltac in_list := apply (bool_decide_unpack _); vm_compute; exact I.

Lemma dram_path va q : KERN_BASE <= va < PHYS_STOP -> q `prefix_of` path va -> q ∈ kernel_paths.
Proof.
  intros Hva. assert (0x80000000 <= va < 0x88000000) as Hv by klia. clear Hva. apply (kernel_path va 2 (va / 2 ^ 21 - 1024)); [lia|lia|mlia|in_list|].
  unfold kernel_paths. do 5 right. apply elem_of_app. right. apply (list_elem_of_fmap_2 (fun j => [2; j])), elem_of_seqZ. mlia.
Qed.

Lemma device_path va j q : va / 2 ^ 21 = j -> j ∈ [0; 16; 96; 97; 128] -> q `prefix_of` path va -> q ∈ kernel_paths.
Proof.
  intros H Hj. assert (0 <= j < 512) by (clear -Hj; repeat (apply elem_of_cons in Hj as [->|Hj]; [lia|]); by apply elem_of_nil in Hj).
  apply (kernel_path va 0 j); [lia|lia|lia|in_list|]. unfold kernel_paths. do 5 right. apply elem_of_app. left. by apply (list_elem_of_fmap_2 (fun j => [0; j])).
Qed.

(** * The regions of the kernel's address space

    Virtual and physical start, size and permissions, in the reverse of the order in which
    they are mapped. *)
Definition region : Type := Z * Z * Z * Z.
Definition kernel_regions (kernel_start text_end user_vec : Z) : list region :=
  let rw := Z.lor PTE_R PTE_W in let rx := Z.lor PTE_R PTE_X in
  [(TRAMPOLINE, user_vec, PG_SIZE, rx);
   (text_end, text_end, PHYS_STOP - text_end, rw);
   (kernel_start, kernel_start, text_end - kernel_start, rx);
   (VIRTIO0_BASE, VIRTIO0_BASE, PG_SIZE, rw); (UART0_BASE, UART0_BASE, PG_SIZE, rw); (PLIC_BASE, PLIC_BASE, PLIC_SIZE, rw);
   (CLINT_BASE, CLINT_BASE, 0x10000, rw); (QEMU_SHUTDOWN, QEMU_SHUTDOWN, PG_SIZE, rw)].
Definition region_of (l : list region) (va : Z) : option region := List.find (fun '(rva, _, size, _) => in_range va rva size) l.
Definition region_map (l : list region) : Z -> option Z := foldr (fun '(rva, pa, size, perm) m => map_range m rva pa size perm) (fun _ => None) l.
Definition region_ok (g : region) : Prop := let '(rva, pa, size, perm) := g in
  0 <= rva /\ rva mod 4096 = 0 /\ pa mod 4096 = 0 /\ 0 <= pa /\ pa + size <= 2 ^ 56 /\ perm_ok perm.

Lemma region_map_find l va : region_map l va = match region_of l va with Some (rva, pa, _, perm) => Some (leaf_pte (pa + (va / 4096 * 4096 - rva)) perm) | None => None end.
Proof.
  induction l as [|[[[rva pa] size] perm] l IH]; [done|]. cbn [region_map foldr region_of List.find]. unfold map_range.
  destruct (in_range_spec va rva size); [by rewrite decide_True|by rewrite decide_False].
Qed.

Lemma region_of_ok l va rva pa size perm : Forall region_ok l -> region_of l va = Some (rva, pa, size, perm) ->
  rva <= va < rva + size /\ region_ok (rva, pa, size, perm).
Proof.
  intros Hl Hf. apply List.find_some in Hf as [Hin Hr]. destruct (in_range_spec va rva size); [|done]. split; [done|].
  rewrite Forall_forall in Hl. apply Hl. by apply list_elem_of_In.
Qed.

(** What the hardware makes of a region. *)
Lemma region_translate s root l : VmInv.pt_ok s root -> Forall region_ok l -> (forall va, 0 <= va < MAX_VA -> pte_of (ram s) root va = region_map l va) ->
  leaves_ok (ram s) root /\ forall va, 0 <= va < MAX_VA -> Sv39.translate (ram s) root va =
    match region_of l va with Some (rva, pa, _, perm) => Some (pa + (va - rva), Z.lor perm 0xC1) | None => None end.
Proof.
  intros Hpt Hl Hm. assert (leaves_ok (ram s) root) as Hlv.
  { intros va e Hva He. rewrite Hm, region_map_find in He by done. destruct (region_of l va) as [[[[rva pa] size] perm]|] eqn:Hf; [|done].
    destruct (region_of_ok _ _ _ _ _ _ Hl Hf) as (? & ? & ? & ? & ? & ? & Hp). injection He as <-. apply leaf_pte_ok; [mlia|done]. }
  split; [done|]. intros va Hva. rewrite (translate_pte s root va Hpt Hlv Hva), Hm, region_map_find by done.
  destruct (region_of l va) as [[[[rva pa] size] perm]|] eqn:Hf; [|done].
  destruct (region_of_ok _ _ _ _ _ _ Hl Hf) as (? & ? & ? & ? & ? & ? & Hp & _).
  rewrite leaf_pte_eq. assert (0 <= Z.lor perm 0xC1 < 1024) by (apply (lor_range perm 0xC1 10); lia).
  rewrite pte_to_pa_lor, pte_flags_lor; [do 2 f_equal; mlia|mlia|done|mlia|mlia|done].
Qed.

(** Facts the proof of the construction uses. *)
Section kernel_pt.
Context (s : kmem) (l : list Z) (Hi : kalloc_inv s) (Hsp : spare s l) (Hl : (76 <= length l)%nat).

Lemma spare_alloc r s1 : kalloc_inv s1 -> r <> NULL -> alloc_post 0 s r s1 -> exists l', spare s1 l' /\ (75 <= length l')%nat.
Proof using Hsp Hl.
  clear Hi. intros Hi1 Hr Hpost. destruct (ext_facts s s1 r Hi1 Hr Hpost) as ([Hfs _] & _ & _ & _ & _ & _ & _ & _ & Hlv & _).
  destruct (spare_grow s s1 r l) as (l' & ? & ?); [done|intros a k; apply Hlv|done|]. exists l'. split; [done|lia].
Qed.

Lemma root_alloc : wp kalloc (fun r s1 => r <> NULL /\ kalloc_inv s1 /\ alloc_post 0 s r s1) s.
Proof using Hi Hsp Hl.
  eapply wp_mono; [apply (pal_alloc 0 s Hi); klia|]. intros r s1 [Hpost Hi1]. split_and!; try done. intros ->.
  destruct Hpost as [(_ & _ & Hno)|[? _]]; [|done]. destruct Hsp as [_ Hin]. destruct l as [|a l']; [cbn in Hl; lia|].
  destruct (Hin a ltac:(left)) as (_ & Hr & Hfree). destruct (full_memory s a Hi Hno Hr) as (b & k & Hb & Hc). by apply (Hfree b k).
Qed.

Context (te vec : Z) (Hte : te mod PG_SIZE = 0) (Hter : KERN_BASE < te < PHYS_STOP).
Context (Hvec : vec mod PG_SIZE = 0) (Hvr : 0 <= vec < PHYS_STOP).

Ltac kvm H := apply (kvm_map_spec _ _ _ _ _ _ _ _ _ _ H ltac:(eassumption)); [assumption|done|lia|mlia|mlia|mlia|lia|lia|lia|lia|intros va' Hva'; unfold map_range; rewrite ?decide_False by lia; reflexivity|].

Lemma vm_create_spec : wp (vm_create_kernel_pt KERN_BASE te vec) (fun r s' => r <> NULL /\ exists s1, alloc_post 0 s r s1 /\ kalloc_inv s1 /\
  building s1 r kernel_paths (region_map (kernel_regions KERN_BASE te vec)) s') s.
Proof using All.
  unfold vm_create_kernel_pt. wp_steps. eapply wp_mono; [exact root_alloc|]. intros r s1 (Hr & Hi1 & Hpost).
  replace (r =? NULL) with false by (symmetry; by apply Z.eqb_neq).
  destruct (spare_alloc r s1 Hi1 Hr Hpost) as (l' & Hsp' & Hl'). destruct (fresh_root s s1 r Hi1 Hr Hpost) as (Hpt1 & Hno & Hto).
  assert (length kernel_paths < length l')%nat as Hlen by (change (length kernel_paths) with 74%nat; lia).
  assert (building s1 r kernel_paths (fun _ => None) s1) as Hb.
  { split; [by apply pt_step_refl|intros; apply Hno|]. intros q t Hq Ht. assert (t = r) as -> by (apply Hto; by exists q).
    assert (q = []) as ->; [|left]. apply (pt_inj _ _ Hpt1 q [] r Hq); [by split; cbn; [lia|constructor]|done|done]. }
  assert (MAX_VA = 2 ^ 38) as Emax by done. assert (TRAMPOLINE = 2 ^ 38 - 4096) as Etr by done.
  assert (QEMU_SHUTDOWN = 0x100000) as E1 by done. assert (CLINT_BASE = 0x2000000) as E2 by done. assert (PLIC_BASE = 0xC000000) as E3 by done. assert (PLIC_SIZE = 0x400000) as E4 by done.
  assert (UART0_BASE = 0x10000000) as E5 by done. assert (VIRTIO0_BASE = 0x10001000) as E6 by done. pose proof KERN_BASE_val as E7. pose proof PHYS_STOP_val as E8.
  rewrite PG_SIZE_val in *. rewrite !u64_small by lia. unfold kernel_regions. cbn [region_map foldr]. rewrite PG_SIZE_val.
  wp_steps. eapply wp_mono; [kvm Hb; intros va' q Hva'; apply (device_path va' 0); [mlia|in_list]|]. clear Hb. intros [] s2 Hb.
  wp_steps. eapply wp_mono; [kvm Hb; intros va' q Hva'; apply (device_path va' 16); [mlia|in_list]|]. clear Hb. intros [] s3 Hb.
  wp_steps. eapply wp_mono; [kvm Hb; intros va' q Hva'; assert (va' / 2 ^ 21 = 96 \/ va' / 2 ^ 21 = 97) as [?|?] by mlia; [apply (device_path va' 96)|apply (device_path va' 97)]; (done || in_list)|]. clear Hb. intros [] s4 Hb.
  wp_steps. eapply wp_mono; [kvm Hb; intros va' q Hva'; apply (device_path va' 128); [mlia|in_list]|]. clear Hb. intros [] s5 Hb.
  wp_steps. eapply wp_mono; [kvm Hb; intros va' q Hva'; apply (device_path va' 128); [mlia|in_list]|]. clear Hb. intros [] s6 Hb.
  wp_steps. eapply wp_mono; [kvm Hb; intros va' q Hva'; apply dram_path; lia|]. clear Hb. intros [] s7 Hb.
  wp_steps. eapply wp_mono; [kvm Hb; intros va' q Hva'; apply dram_path; lia|]. clear Hb. intros [] s8 Hb.
  wp_steps. eapply wp_mono; [kvm Hb; intros va' q Hva'; apply (kernel_path va' 255 511); [rewrite Etr in Hva'; mlia|lia|lia|in_list|in_list]|]. clear Hb. intros [] s9 Hb.
  wp_steps. split; [done|]. by exists s1.
Qed.
End kernel_pt.

(** * Page allocator, page table and heap at boot *)

Definition spare_n (s : kmem) (n : nat) : Prop := exists l, spare s l /\ (n <= length l)%nat.

Lemma spare_taken s s' n : heap_step s s' -> spare_n s (S n) -> spare_n s' n.
Proof.
  intros [r Ht] (l & Hl & Hn). destruct (spare_grow s s' r l (tk_start _ _ _ Ht) (tk_new _ _ _ Ht) Hl) as (l' & Hl' & Hlen). exists l'. split; [done|lia].
Qed.
Lemma spare_steps k : forall s s' n, nsteps heap_step k s s' -> spare_n s (k + n) -> spare_n s' n.
Proof.
  induction k as [|k IH]; intros s s' n Hs Hn; inversion Hs as [|? ? s1 ? H1 H2]; subst; [done|]. apply (IH s1); [done|]. by apply (spare_taken s).
Qed.

(** A page held by someone: it stays allocated with its contents and references. *)
Definition page_kept (s s' : kmem) : Prop := free_start s' = free_start s /\ forall a k, live s a k -> live s' a k /\ forall x, covers a k x -> ram s' x = ram s x /\ refcount (pg s' x) = refcount (pg s x).

Lemma page_kept_refl s : page_kept s s.
Proof. done. Qed.
Lemma page_kept_trans s1 s2 s3 : page_kept s1 s2 -> page_kept s2 s3 -> page_kept s1 s3.
Proof.
  intros [E1 H1] [E2 H2]. split; [congruence|]. intros a k Ha. destruct (H1 a k Ha) as [Ha2 Hx]. destruct (H2 a k Ha2) as [Ha3 Hx2]. split; [done|].
  intros x Hc. destruct (Hx x Hc), (Hx2 x Hc). split; congruence.
Qed.
Lemma heap_step_kept s s' : heap_step s s' -> page_kept s s'.
Proof. intros (n & []). split; [done|]. intros a k Ha. split; [by auto|]. intros x Hx. split; [by eapply tk_ram|by eapply tk_entry]. Qed.
Lemma heap_steps_kept k : forall s s', nsteps heap_step k s s' -> page_kept s s'.
Proof.
  induction k as [|k IH]; intros s s' Hs; inversion Hs as [|? ? s1 ? H1 H2]; subst; [done|]. eapply page_kept_trans; [by apply heap_step_kept|by apply IH].
Qed.

(** Objects of the heap stay as well. *)
Definition heap_kept (s s' : kmem) : Prop := page_kept s s' /\ forall x m, obj s x m -> obj s' x m.
Lemma heap_kept_trans s1 s2 s3 : heap_kept s1 s2 -> heap_kept s2 s3 -> heap_kept s1 s3.
Proof. intros [H1 O1] [H2 O2]. split; [by eapply page_kept_trans|auto]. Qed.

Lemma spare_memory s n : kalloc_inv s -> spare_n s (S n) -> ~ no_memory s.
Proof.
  intros Hi (l & [_ Hin] & Hn) Hno. destruct l as [|a l]; [cbn in Hn; lia|]. destruct (Hin a ltac:(left)) as (_ & Hr & Hfree).
  destruct (full_memory s a Hi Hno Hr) as (b & k & Hb & Hc). by apply (Hfree b k).
Qed.

(** A page for the kernel. *)
Lemma kalloc_boot s n : kheap_inv s -> spare_n s (S n) -> wp kalloc (fun r s' => r <> NULL /\ kheap_inv s' /\ heap_kept s s' /\ spare_n s' n /\ live s' r 0 /\ (forall k, ~ live s r k) /\ forall x, r <= x < r + 4096 -> ram s' x = 0) s.
Proof.
  intros [Hi (sl & fr & HK)] Hn. eapply wp_mono; [apply (pal_alloc 0 s Hi); klia|]. intros r s' [Hpost Hi'].
  destruct Hpost as [(-> & _ & Hno)|Hpost]; [by destruct (spare_memory s n Hi Hn)|].
  assert (r <> NULL) as Hr by apply Hpost. destruct (ext_facts s s' r Hi' Hr (or_intror Hpost)) as (Henv & Hfr & ? & ? & Hal & Hz & _ & Hdj & Hl & Hfl).
  pose proof (slab_inv_step sl fr s s' HK Henv Hfr (fun a k Ha => proj2 (Hl a k) (or_introl Ha))) as HK'. destruct Henv as [Hfs _].
  split_and!; try done; [by split; [|exists sl, fr]| | |apply Hl; by right|].
  - split; [split; [done|]|].
    + intros a k Ha. split; [apply Hl; by left|]. intros x Hx. by destruct (Hfr a k Ha x Hx) as [? ->].
    + intros x m [Ho|(k & Hk & Hf & ->)]; [left; by rewrite (slab_obj_spec sl fr s' HK'), <- (slab_obj_spec sl fr s HK)|right]. exists k. split_and!; [apply Hl; by left| |done].
      unfold pg. by rewrite Hfl.
  - destruct Hn as (l & Hsp & Hlen). destruct (spare_grow s s' r l) as (l' & ? & ?); [done|intros a k; apply Hl|done|]. exists l'. split; [done|lia].
  - intros k Hk. destruct (pal_block s r k Hi Hk) as (? & _). pose proof (bsz_ge k ltac:(lia)). apply (Hdj r k r Hk); [unfold covers|]; lia.
Qed.

(** An object of the heap. *)
Lemma kmalloc_boot s n size : kheap_inv s -> spare_n s (S n) -> 0 < size <= MAX_SLAB_SIZE ->
  wp (kmalloc size) (fun r s' => r <> NULL /\ kheap_inv s' /\ heap_kept s s' /\ spare_n s' n /\ (forall m, ~ obj s r m) /\ exists m, size <= m /\ obj s' r m) s.
Proof.
  intros Hh Hn Hs. eapply wp_mono; [apply wp_conj; [by apply (kmalloc_small s size Hh)|by apply (kmalloc_step s size Hh)]|].
  intros r s' [(Hh' & m & Hrd & Hpost) [Hst _]]. destruct Hpost as [(_ & _ & Hno)|(Hr & Ho & Hnew & _)]; [by destruct (spare_memory s n (proj1 Hh) Hn)|].
  split_and!; try done.
  - split; [by apply heap_step_kept|]. intros x k Hx. apply Ho. by left.
  - by eapply spare_taken.
  - exists m. split; [|apply Ho; by right]. destruct Hrd as [(_ & _ & c & _ & -> & Hfit & _)|(? & _)]; lia.
Qed.

(** Tables kept as pages are kept as tables. *)
Lemma page_kept_table s s' root : pt_ok s root -> page_kept s s' -> forall t, table_of (ram s) root t -> is_table s' t /\ forall x, t <= x < t + 4096 -> ram s' x = ram s x.
Proof.
  intros Hpt [_ Hk] t (q & Hq & Ht). destruct (pt_table _ _ Hpt q t Hq Ht) as [Hl Hr]. destruct (Hk t 0 Hl) as [Hl' Hx]. split.
  - split; [done|]. rewrite <- Hr. apply (Hx t). unfold covers. change (bsz 0) with 4096. lia.
  - intros x Hx'. apply Hx. by apply covers_page.
Qed.

Section boot.
Context (te vec : Z) (Hte : te mod PG_SIZE = 0) (Hter : KERN_BASE < te < PHYS_STOP) (Hvec : vec mod PG_SIZE = 0) (Hvr : 0 <= vec < PHYS_STOP).

(** The page table of the kernel: exactly the regions, as the hardware sees them. *)
Record kernel_table (s : kmem) (root : Z) : Prop := {
  kt_root : root <> NULL;
  kt_pt : pt_ok s root;
  kt_leaves : leaves_ok (ram s) root;
  kt_pte : forall va, 0 <= va < MAX_VA -> pte_of (ram s) root va = region_map (kernel_regions KERN_BASE te vec) va;
  kt_map : forall va, 0 <= va < MAX_VA -> Sv39.translate (ram s) root va =
    match region_of (kernel_regions KERN_BASE te vec) va with Some (rva, pa, _, perm) => Some (pa + (va - rva), Z.lor perm (Z.lor PTE_V (Z.lor PTE_A PTE_D))) | None => None end
}.

Lemma kernel_regions_ok : Forall region_ok (kernel_regions KERN_BASE te vec).
Proof using All.
  rewrite PG_SIZE_val in *. pose proof KERN_BASE_val. pose proof PHYS_STOP_val.
  assert (TRAMPOLINE mod 4096 = 0 /\ 0 <= TRAMPOLINE) as [? ?] by (by vm_compute). assert (PHYS_STOP mod 4096 = 0) by (by rewrite PHYS_STOP_val). assert (KERN_BASE mod 4096 = 0) by (by rewrite KERN_BASE_val).
  assert (perm_ok (Z.lor PTE_R PTE_W) /\ perm_ok (Z.lor PTE_R PTE_X)) as [Hrw Hrx] by (split; (split; [by vm_compute|]; split; [by left|done])).
  repeat constructor; try done; unfold region_ok; rewrite ?PG_SIZE_val; try lia.
Qed.

Lemma kernel_table_kept s s' root : page_kept s s' -> kernel_table s root -> kernel_table s' root.
Proof using All.
  intros Hk [Hr Hpt Hlv Hp _]. pose proof (page_kept_table s s' root Hpt Hk) as Hkt. pose proof (keep_pt_ok s s' root Hpt Hkt) as Hpt'.
  assert (forall va, 0 <= va < MAX_VA -> pte_of (ram s') root va = region_map (kernel_regions KERN_BASE te vec) va) as Hp' by (intros va Hva; rewrite (keep_pte s s' root Hkt); by apply Hp).
  destruct (region_translate s' root _ Hpt' kernel_regions_ok Hp') as [Hlv' Hm]. by split.
Qed.

Lemma vm_create_table s n : kalloc_inv s -> spare_n s (S (75 + n)) -> wp (vm_create_kernel_pt KERN_BASE te vec) (fun root s' => kernel_table s' root /\ kalloc_inv s' /\ page_kept s s' /\ spare_n s' n /\
  (forall a k, live s' a k <-> live s a k \/ (k = 0 /\ table_of (ram s') root a)) /\ (forall p, flags (pages s' p) = flags (pages s p))) s.
Proof using All.
  intros Hi (l & Hsp & Hl). eapply wp_mono; [by apply (vm_create_spec s l Hi Hsp ltac:(lia) te vec)|]. intros root s' (Hr & s1 & Hpost & Hi1 & [Hst Hm HP]).
  pose proof (pg_pt _ _ _ Hst) as Hpt. destruct (region_translate s' root _ Hpt kernel_regions_ok Hm) as [Hlv Htr].
  destruct (pagetable_live s s1 s' root Hi Hi1 Hr Hpost Hst) as (Hlive & _ & Hram). destruct (ext_facts s s1 root Hi1 Hr Hpost) as ([Hfs _] & Hfr & _ & _ & _ & _ & _ & _ & Hl1 & Hfl).
  split_and!; try done; [apply Hst| | |].
  - destruct (pg_env _ _ _ Hst) as [Hfs' _]. split; [by rewrite Hfs'|]. intros a k Ha. split; [apply Hlive; by left|]. intros x Hx. split; [by apply (Hram a k)|].
    rewrite (pg_entries _ _ _ Hst a k x); [|apply Hl1; by left|done]. by destruct (Hfr a k Ha x Hx) as [_ ->].
  - destruct (pg_env _ _ _ Hst) as [Hfs' _]. destruct (spare_grow_list s s' (omap (table_at (ram s') root) kernel_paths) l) as (l' & Hsp' & Hlen); [by rewrite Hfs'| |done|].
    + intros a k [?|(-> & q & Hq & Ht)]%Hlive; [by left|right]. split; [|done]. apply list_elem_of_omap. exists q. split; [by eapply HP|done].
    + exists l'. split; [done|]. pose proof (omap_length_le (table_at (ram s') root) kernel_paths) as Hle. change (length kernel_paths) with 74%nat in Hle. lia.
  - intros p. rewrite (pg_flags _ _ _ Hst p). apply Hfl.
Qed.

(** The three steps of kmain that bring up memory. *)
Lemma memory_init s kernel_end n : (forall k, 0 <= k <= MAX_ORDER -> free_areas s k = mk_free_area NULL 0) ->
  KERN_BASE <= kernel_end <= PHYS_STOP -> first_free kernel_end + PG_SIZE * (83 + Z.of_nat n) <= PHYS_STOP ->
  exists m s1, kalloc_init kernel_end s = Ok (m, s1) /\ kalloc_inv s1 /\ (forall a k, ~ live s1 a k) /\ m = free_pages s1 /\ PG_SIZE * m = PHYS_STOP - first_free kernel_end /\
  exists root s2, vm_create_kernel_pt KERN_BASE te vec s1 = Ok (root, s2) /\ kernel_table s2 root /\ (forall a k, live s2 a k <-> k = 0 /\ table_of (ram s2) root a) /\
  exists s3, kmalloc_init s2 = Ok (tt, s3) /\ kheap_inv s3 /\ (forall x k, ~ obj s3 x k) /\ kernel_table s3 root /\ spare_n s3 n.
Proof using All.
  intros Hb [Hk1 Hk2] Hf. rewrite PG_SIZE_val in Hf |- *.
  destruct (wp_elim _ _ _ (kalloc_init_full s kernel_end Hb Hk1 ltac:(lia) Hk2)) as (m & s1 & E1 & (Hi & Hm & Hfs & Hn & Hno) & Hfl).
  exists m, s1. split_and!; try done.
  assert (spare_n s1 (83 + n)) as Hsp.
  { exists ((fun i => first_free kernel_end + 4096 * i) <$> seqZ 0 (83 + Z.of_nat n)). split; [|rewrite length_fmap, length_seqZ; lia]. split.
    - apply NoDup_fmap_2; [|apply NoDup_seqZ]. intros i j. lia.
    - intros a (i & -> & Hi'%elem_of_seqZ)%list_elem_of_fmap. rewrite Hfs. split_and!; [|lia|lia|intros b k Hl; by apply Hno in Hl].
      assert (first_free kernel_end mod 4096 = 0); [|mlia]. pose proof PHYS_STOP_val. mlia. }
  destruct (wp_elim _ _ _ (vm_create_table s1 (7 + n) Hi Hsp)) as (root & s2 & E2 & Hkt & Hi2 & Hk & Hsp2 & Hl & Hfl2).
  exists root, s2. split_and!; try done. { intros a k. rewrite Hl. split; [|by right]. intros [?%Hno|?]; done. }
  destruct (wp_elim _ _ _ (wp_conj _ _ _ _ (kmalloc_init_spec s2 Hi2) (kmalloc_init_steps s2 Hi2))) as ([] & s3 & E3 & (Hh & Ho & _) & Hst).
  exists s3. split_and!; try done.
  - intros x k (o & _ & Hx & _)%Ho. unfold pg in Hx. by rewrite Hfl2, Hfl in Hx.
  - eapply kernel_table_kept; [by eapply heap_steps_kept|done].
  - by eapply spare_steps.
Qed.
End boot.
