(* ===== verification/VmaThm.v ===== *)
(** Theorems on VMAs and page faults ([kernel/vma.c], [kernel/vm_fault.c]). *)
From S2P Require Import Prelude Mem Layout Kalloc Buddy KallocInv KallocAlloc KallocFree KallocSpec KallocThm Kmalloc.
From S2P Require Import Vm VmInv VmWalk VmMap VmThm Vma VmaProof.

Section fault.
Context {inv : kmem -> Prop} {PA : PageAllocator inv kalloc_pages kfree_pages}.

Lemma cow_copy_spec p va u e v s : inv s -> pt_ok s (pagetable p) -> user_ok s (pagetable p) -> 0 <= va < TRAPFRAME ->
  vma_find p va = Some v -> table_at (ram s) (pagetable p) (path va) = Some u -> entry (ram s) u (PX 0 va) = e ->
  has e PTE_V = true -> has e PTE_COW = true ->
  wp (cow_copy (u + 8 * PX 0 va)) (fault_ok (inv:=inv) p EXC_STORE_PAGE va s) s.
Proof using PA.
  intros Hi Hpt Hu Hva Hfind Hut He HV HC. set (root := pagetable p) in *.
  destruct (cow_page p va u e s Hi Hu Hva Hut He HV) as (Hl & Hnt & Hr & Hal & Hb0 & Hb1 & Hb2 & Hvm).
  destruct (leaf_dram s root va u Hi Hpt Hut) as (? & ? & ? & ? & Hidx). unfold idx_ok in Hidx.
  pose proof (pa_to_page_range (pte_to_pa e) ltac:(lia)) as Hpr. pose proof Hl as (_ & _ & Hpos & _).
  unfold cow_copy. wp_steps. apply wp_load64; [lia..|]. fold (entry (ram s) u (PX 0 va)). rewrite He.
  wp_steps. apply wp_get_page; [done|]. fold (pg s (pte_to_pa e)).
  destruct (Z.eqb_spec (refcount (pg s (pte_to_pa e))) 1) as [Hrc|Hrc].
  { wp_steps. apply wp_store64; [lia..|]. wp_steps. by apply (cow_owner_spec p va u e v s). }
  wp_steps. eapply wp_mono; [apply (pal_alloc 0 s Hi); klia|]. intros n s1 [Hpost Hi1].
  destruct (Z.eqb_spec n NULL) as [->|Hn].
  { wp_steps. destruct Hpost as [(_ & -> & Hnm)|[? _]]; [|done]. split_and!; try done.
    eapply (fault_cow_oom _ _ _ _ v e); try done; [by apply (cow_pte p va u e s)|lia]. }
  destruct (ext_facts s s1 n Hi1 Hn Hpost) as ([Hfs _] & _ & ? & ? & ? & _ & _ & Hdj & Hl1 & _).
  assert (live s1 n 0) as Hln by (apply Hl1; by right). destruct (pal_block s1 n 0 Hi1 Hln) as (_ & _ & ? & ?).
  change (bsz 0) with 4096 in *.
  assert (n + 4096 <= pte_to_pa e \/ pte_to_pa e + 4096 <= n) as Hapart.
  { pose proof (Hdj _ 0 (pte_to_pa e) Hl (covers_self _ 0 ltac:(lia))). mlia. }
  unfold mem_copy. wp_steps. apply wp_require; [unfold ram_ok; rewrite PG_SIZE_val; lia|]. wp_steps.
  rewrite PG_SIZE_val. fold (copied e s1 n).
  destruct (cow_slot p va u e v s Hi Hpt Hu Hva Hfind Hut He HV HC s1 n Hi1 Hn Hpost) as (Hpt2 & Hut2 & He2).
  assert (free_start (copied e s1 n) = free_start s1) as Hfs2 by done.
  apply wp_load64; [lia..|]. fold (entry (ram (copied e s1 n)) u (PX 0 va)). rewrite He2.
  wp_steps. apply wp_store64; [lia..|]. wp_steps. rewrite <- Z.lor_assoc. fold (cow_entry e n).
  fold (with_leaf (copied e s1 n) va u (cow_entry e n)).
  destruct (cow_refs p va u e v s Hi Hpt Hu Hva Hfind Hut He HV HC s1 n Hi1 Hn Hpost ltac:(lia)) as (_ & _ & _ & Hr1).
  unfold page_put. wp_steps. apply wp_get_page; [done|]. set (s3 := with_leaf _ _ _ _).
  change (pages s3 (pa_to_page (pte_to_pa e))) with (pg s1 (pte_to_pa e)). rewrite Hr1.
  destruct (Z.ltb_spec (refcount (pg s (pte_to_pa e))) 1); [lia|]. destruct (Z.eqb_spec (refcount (pg s (pte_to_pa e))) 1); [done|].
  apply wp_update_page; [done|]. wp_steps.
  by apply (cow_done_ok p va u e v s Hi Hpt Hu Hva Hfind Hut He HV HC s1 n Hi1 Hn Hpost); lia.
Qed.

(** The VMAs of an address space: below the trapframe, with entry permissions. *)
Definition vma_perms_ok (p : aspace) : Prop :=
  Forall (fun v => 0 <= start v /\ end_ v <= TRAPFRAME /\ 0 <= perm v < 1024) (vma_list p).

Lemma vma_find_in_elem l a v : vma_find_in l a = Some v -> v ∈ l /\ start v <= a < end_ v.
Proof using Type.
  induction l as [|w l IH]; cbn [vma_find_in]; [done|]. destruct ((start w <=? a) && (a <? end_ w)) eqn:E.
  - intros [= <-]. split; [by left|lia].
  - intros H. destruct (IH H). split; [by right|done].
Qed.

Lemma handle_page_fault_spec p cause va s : inv s -> pt_ok s (pagetable p) -> user_ok s (pagetable p) -> vma_perms_ok p ->
  wp (handle_page_fault p cause va) (fault_ok (inv:=inv) p cause va s) s.
Proof using PA.
  intros Hi Hpt Hu Hvp. unfold handle_page_fault. destruct (vma_find p va) as [v|] eqn:Hfind.
  2: { wp_steps. split_and!; try done. by apply fault_no_vma. }
  destruct (vma_find_in_elem _ _ _ Hfind) as [Hin Hrng]. unfold vma_perms_ok in Hvp. rewrite Forall_forall in Hvp.
  destruct (Hvp v Hin) as (? & ? & Hprm). assert (0 <= va < TRAPFRAME) as Hva by lia.
  assert (MAX_VA = 2 ^ 38) as Hmax by done. assert (TRAPFRAME = 2 ^ 38 - 8192) as Htf by done.
  wp_steps. eapply wp_mono; [apply (walk_spec s (pagetable p) va false Hi Hpt); lia|].
  intros r s' (_ & Hs & Hres). specialize (Hs eq_refl). subst s'.
  assert (pte_of (ram s) (pagetable p) va = None ->
    wp (if (cause =? EXC_STORE_PAGE) && negb (has (perm v) PTE_W) then mret (-1) else lazy_alloc p va v) (fault_ok (inv:=inv) p cause va s) s) as Hlazy.
  { intros Hnone. destruct ((cause =? EXC_STORE_PAGE) && negb (has (perm v) PTE_W)) eqn:E.
    - wp_steps. apply andb_true_iff in E as [->%Z.eqb_eq Hw%negb_true_iff]. split_and!; try done. by eapply fault_readonly.
    - apply (lazy_alloc_spec p cause va v s); try done. intros ->. rewrite Z.eqb_refl in E. by destruct (has (perm v) PTE_W). }
  destruct Hres as [(-> & [[? _]|[_ Hnone]])|(u & Hut & -> & Hnz)]; [done| |].
  { rewrite Z.eqb_refl. wp_steps. cbn [orb]. apply Hlazy. unfold pte_of. by rewrite Hnone. }
  destruct (Z.eqb_spec (u + 8 * PX 0 va) NULL) as [|_]; [done|].
  destruct (leaf_dram s (pagetable p) va u Hi Hpt Hut) as (? & ? & ? & ? & Hidx). unfold idx_ok in Hidx.
  wp_steps. apply wp_load64; [lia..|]. fold (entry (ram s) u (PX 0 va)). set (e := entry (ram s) u (PX 0 va)). cbn [orb].
  destruct (has e PTE_V) eqn:HV; cbn [negb].
  2: { apply Hlazy. unfold pte_of. rewrite Hut. fold e. by rewrite HV. }
  assert (pte_of (ram s) (pagetable p) va = Some e) as Hpte by (unfold pte_of; rewrite Hut; fold e; by rewrite HV).
  destruct ((cause =? EXC_STORE_PAGE) && has e PTE_COW) eqn:E.
  - apply andb_true_iff in E as [->%Z.eqb_eq HC]. by apply (cow_copy_spec p va u e v s).
  - wp_steps. split_and!; try done. eapply (fault_violation _ _ _ _ v e); try done.
    intros [-> HC]. by rewrite HC in E.
Qed.
End fault.

(** * Theorems *)

(** A process with one writable VMA over the demonstration page table. *)
Definition demo_vma : vma := mk_vma NULL 0x1000 0x3000 0x16 VMA_HEAP.
Definition demo_as : aspace := mk_aspace pt_root [demo_vma].

Lemma demo_user_ok : user_ok pt_demo (pagetable demo_as).
Proof. intros va e Hva He. destruct pt_demo_facts as (_ & _ & _ & Hno). change (pagetable demo_as) with pt_root in He. rewrite (Hno va Hva) in He. discriminate He. Qed.



(** C8: [vma_add] keeps the list of VMAs sorted and free of overlaps when the
    new VMA (empty ones included) overlaps none, and adds exactly that VMA; [vma_find] then finds an
    address's VMA exactly when one contains it. *)
Theorem vma_list_correct p v : vmas_ok (vma_list p) -> start v <= end_ v -> Forall (apart v) (vma_list p) ->
  vmas_ok (vma_list (vma_add p v)) /\ vma_list (vma_add p v) ≡ₚ v :: vma_list p /\
  forall a w, vma_find (vma_add p v) a = Some w <-> w ∈ v :: vma_list p /\ start w <= a < end_ w.
Proof.
  intros Hl Hv Ha. pose proof (vma_insert_ok v _ Hl Hv Ha) as Hok. pose proof (vma_insert_perm v (vma_list p)) as Hp.
  split_and!; [apply Hok..|done|]. intros a w. unfold vma_find. rewrite (vma_find_in_spec _ a w Hok). by rewrite Hp.
Qed.

Lemma vma_list_correct_witness : let v := mk_vma NULL 0x4000 0x5000 0x16 VMA_STACK in
  vmas_ok (vma_list (vma_add demo_as v)) /\ vma_list (vma_add demo_as v) ≡ₚ v :: vma_list demo_as /\
  forall a w, vma_find (vma_add demo_as v) a = Some w <-> w ∈ v :: vma_list demo_as /\ start w <= a < end_ w.
Proof.
  apply (vma_list_correct demo_as (mk_vma NULL 0x4000 0x5000 0x16 VMA_STACK)).
  - split; repeat constructor. vm_compute. congruence.
  - vm_compute. congruence.
  - constructor; [split; [right; vm_compute; congruence|left; reflexivity]|constructor].
Defined.

(** Releasing a reference: [page_put] of an allocated page returns; the last
    reference frees exactly that page, any other only lowers its count.  Contents
    of the other pages are kept. *)
Theorem page_put_correct s pa : kalloc_inv s -> live s pa 0 ->
  exists s', page_put pa s = Ok (tt, s') /\ kalloc_inv s' /\
    (forall a k, live s' a k <-> live s a k /\ ~ (a = pa /\ refcount (pg s pa) = 1)) /\
    (1 < refcount (pg s pa) -> refcount (pg s' pa) = refcount (pg s pa) - 1 /\ ram s' = ram s) /\
    (forall a k x, live s a k -> a <> pa -> covers a k x -> ram s' x = ram s x /\ refcount (pg s' a) = refcount (pg s a)).
Proof.
  intros Hi Hl. destruct (pal_block s pa 0 Hi Hl) as (_ & Hal & ? & ?). change (bsz 0) with 4096 in *.
  pose proof (pa_to_page_range pa ltac:(lia)) as Hpr. pose proof Hl as (_ & _ & Hpos & _).
  assert (forall a k, live s a k -> a <> pa -> pa_to_page pa <> pa_to_page a) as Hne.
  { intros a k Ha Hneq Heq. apply Hneq. destruct (pal_block s a k Hi Ha) as (? & ? & ? & ?). pose proof (bsz_ge k ltac:(lia)).
    symmetry. apply pa_to_page_inj; [lia|lia|done|by apply (bsz_aligned_page a k); [lia|]|done]. }
  destruct (Z.eq_dec (refcount (pg s pa)) 1) as [Hrc|Hrc].
  - destruct (wp_elim _ _ _ (pal_free (PageAllocator:=buddy_allocator) pa 0 s Hi Hl Hrc)) as ([] & s' & Heq & (_ & Hpg & Hl' & Hram) & Hi').
    exists s'. split_and!; try done; try lia.
    + unfold page_put, get_page, require, gets, mbind, M_bind. replace ((0 <=? _) && _) with true by lia.
      fold (pg s pa). rewrite Hrc. exact Heq.
    + intros a k. rewrite Hl'. naive_solver.
    + intros a k x Ha Hneq Hx. split; [by eapply Hram|]. unfold pg. rewrite Hpg, upd_ne; [done|by eapply Hne].
  - pose proof (pal_u16 s (pa_to_page pa) Hi) as Hb. fold (pg s pa) in Hb.
    set (s' := set_pages (upd (pages s) (pa_to_page pa) (page_set_refcount (refcount (pg s pa) - 1) (pg s pa))) s).
    assert (forall q, order (pages s' q) = order (pages s q) /\ (q <> pa_to_page pa -> pages s' q = pages s q)) as Hq.
    { intros q. unfold s'. ksimpl. split; [|intros; by rewrite upd_ne]. rewrite upd_case. case_decide as Hq; [by rewrite <- Hq|done]. }
    assert (refcount (pg s' pa) = refcount (pg s pa) - 1) as Hr.
    { unfold s', pg at 1. ksimpl. rewrite upd_eq. cbn [page_set_refcount refcount]. apply u16_small. lia. }
    assert (client_step s s') as Hcs.
    { split_and!; try done. intros q. destruct (Hq q) as [-> Hq']. pose proof (pal_u16 s q Hi). split; [done|].
      destruct (decide (q = pa_to_page pa)) as [->|]; [|by rewrite Hq']. fold (pg s' pa) (pg s pa). lia. }
    exists s'. split_and!.
    + unfold page_put, get_page, update_page, require, gets, modify, mbind, M_bind. replace ((0 <=? _) && _) with true by lia.
      fold (pg s pa). destruct (Z.ltb_spec (refcount (pg s pa)) 1); [lia|]. destruct (Z.eqb_spec (refcount (pg s pa)) 1); [done|]. done.
    + exact (client_step_inv s s' Hi Hcs).
    + intros a k. rewrite (client_step_live s s' Hi Hcs). naive_solver.
    + done.
    + intros a k x Ha Hneq Hx. split; [done|]. unfold pg. destruct (Hq (pa_to_page a)) as [_ ->]; [done|]. intros Heq. symmetry in Heq. by eapply Hne.
Qed.

Lemma page_put_correct_witness : exists s', page_put pt_root pt_demo = Ok (tt, s') /\ kalloc_inv s' /\
    (forall a k, live s' a k <-> live pt_demo a k /\ ~ (a = pt_root /\ refcount (pg pt_demo pt_root) = 1)) /\
    (1 < refcount (pg pt_demo pt_root) -> refcount (pg s' pt_root) = refcount (pg pt_demo pt_root) - 1 /\ ram s' = ram pt_demo) /\
    (forall a k x, live pt_demo a k -> a <> pt_root -> covers a k x -> ram s' x = ram pt_demo x /\ refcount (pg s' a) = refcount (pg pt_demo a)).
Proof.
  destruct pt_demo_facts as (Hi & Hpt & _). apply (page_put_correct pt_demo pt_root Hi).
  apply (pt_table _ _ Hpt []); [split; [cbn; lia|constructor]|reflexivity].
Defined.

(** A user address at or above [MAX_VA] is not reported as -EFAULT: [copyin],
    [copyout] and [copyinstr] stop the kernel in the panic of [walk]. *)
Theorem user_copy_panics_above_max p s buf va len : MAX_VA <= va -> 0 < len ->
  copyin p buf va len s = Panic "walk: va >= MAX_VA" /\
  copyout p va buf len s = Panic "walk: va >= MAX_VA" /\
  copyinstr p buf va len s = Panic "walk: va >= MAX_VA".
Proof.
  intros Hva Hlen. assert (MAX_VA = 2 ^ 38) as Hmax by done.
  assert (MAX_VA <=? PG_ROUND_DOWN va = true) as Hp.
  { apply Z.leb_le. rewrite PG_ROUND_DOWN_mod. rewrite Hmax in *. mlia. }
  assert (exists n, copy_fuel len = S n) as [n Hn].
  { exists (Z.to_nat (len / PG_SIZE + 1)). unfold copy_fuel. rewrite PG_SIZE_val. mlia. }
  assert (forall cause need, user_slot p cause (PG_ROUND_DOWN va) need s = Panic "walk: va >= MAX_VA") as Hslot.
  { intros. unfold user_slot, walk, mbind, M_bind. by rewrite Hp. }
  unfold copyin, copyout, copyinstr. rewrite Hn. cbn [copyin_loop copyout_loop copyinstr_loop].
  destruct (Z.ltb_spec 0 len); [|lia]. unfold mbind, M_bind. by rewrite !Hslot.
Qed.

Lemma user_copy_panics_above_max_witness :
  copyin demo_as demo_block MAX_VA 1 pt_demo = Panic "walk: va >= MAX_VA" /\
  copyout demo_as MAX_VA demo_block 1 pt_demo = Panic "walk: va >= MAX_VA" /\
  copyinstr demo_as demo_block MAX_VA 1 pt_demo = Panic "walk: va >= MAX_VA".
Proof. apply (user_copy_panics_above_max demo_as pt_demo demo_block MAX_VA 1); vm_compute; congruence. Defined.
