(* ===== verification/UserMem.v ===== *)
(** User memory: what the addresses of a process show, and that page faults do not
    change it. *)
From S2P Require Import Prelude Mem Layout Kalloc Buddy KallocInv KallocAlloc KallocSpec Kmalloc.
From S2P Require Import Vm VmInv VmWalk VmMap VmThm Vma VmaProof VmaThm.

(** What a user access to [va] sees: the byte and the permissions of its page. *)
Definition ubyte (s : kmem) (root va : Z) : option (Z * Z) :=
  match pte_of (ram s) root va with Some e => Some (ld8 (ram s) (pte_to_pa e + va mod 4096), pte_flags e) | None => None end.

Section space.
Context {inv : kmem -> Prop} {PA : PageAllocator inv kalloc_pages kfree_pages}.
Implicit Types s : kmem.

(** * Growth of an address space *)
Record space_grow (root : Z) (s s' : kmem) : Prop := {
  sg_inv : inv s';
  sg_pt : pt_ok s' root;
  sg_user : user_ok s' root;
  sg_kept : pages_kept root None s s';
  sg_live : forall a k, live s a k -> live s' a k;
  sg_tables : tables_grow root s s'
}.

Lemma step_grow root new s s' : space_step (inv:=inv) root new s s' -> space_grow root s s'.
Proof using Type. intros []. split; try done. intros a k Ha. apply sp_grow. by left. Qed.
Lemma grow_refl root s : inv s -> pt_ok s root -> user_ok s root -> space_grow root s s.
Proof using Type. intros. by split. Qed.
Lemma grow_trans root s1 s2 s3 : space_grow root s1 s2 -> space_grow root s2 s3 -> space_grow root s1 s3.
Proof using Type.
  intros [Hi Hp Hu [Hk1 Hk2] Hl Ht] [Hi' Hp' Hu' [Hk1' Hk2'] Hl' Ht']. split; try done.
  - split.
    + intros a k x Ha Hn Hc. rewrite (Hk1' a k x); [by apply (Hk1 a k)|by apply Hl| |done]. intros Htt. destruct (Ht a Htt) as [?|Hnl]; [done|]. by apply (Hnl k).
    + intros a k Ha Hne. rewrite (Hk2' a k); [by apply (Hk2 a k)|by apply Hl|done].
  - intros a k Ha. by apply Hl', Hl.
  - intros t Htt. destruct (Ht' t Htt) as [?|Hnl]; [by apply Ht|]. right. intros k Hk. by apply (Hnl k), Hl.
Qed.

(** A mapping that stays shows the same byte. *)
Lemma ubyte_kept s s' root va : user_ok s root -> pages_kept root None s s' -> 0 <= va < TRAPFRAME -> pte_of (ram s') root va = pte_of (ram s) root va -> ubyte s' root va = ubyte s root va.
Proof using Type.
  intros Hu [Hk _] Hva He. unfold ubyte. rewrite He. destruct (pte_of (ram s) root va) as [e|] eqn:E; [|done]. destruct (Hu va e Hva E) as (Hl & Hnt & _). do 2 f_equal. unfold ld8. f_equal.
  apply (Hk (pte_to_pa e) 0); [done|done|]. unfold covers. change (bsz 0) with 4096. pose proof (Z.mod_pos_bound va 4096). lia.
Qed.

(** * The memory of a process

    A page that is not mapped but lies in a VMA is a page of zeroes that no access has
    touched yet. *)
Definition uview (p : aspace) s (va : Z) : option Z :=
  match pte_of (ram s) (pagetable p) va with
  | Some e => Some (ld8 (ram s) (pte_to_pa e + va mod 4096))
  | None => match vma_find p va with Some _ => Some 0 | None => None end
  end.

Record uspace (p : aspace) s : Prop := {
  us_inv : inv s;
  us_pt : pt_ok s (pagetable p);
  us_user : user_ok s (pagetable p);
  us_vmas : vma_perms_ok p;
  us_aligned : Forall (fun v => start v mod 4096 = 0 /\ end_ v mod 4096 = 0) (vma_list p);
  us_kernel : forall va e, TRAPFRAME <= va < MAX_VA -> pte_of (ram s) (pagetable p) va = Some e -> has e PTE_U = false;
  us_inj : forall va e va' e', 0 <= va < TRAPFRAME -> 0 <= va' < TRAPFRAME -> pte_of (ram s) (pagetable p) va = Some e -> pte_of (ram s) (pagetable p) va' = Some e' ->
    pte_to_pa e = pte_to_pa e' -> va / 4096 = va' / 4096;
  us_cow : forall va e, 0 <= va < TRAPFRAME -> pte_of (ram s) (pagetable p) va = Some e -> has e PTE_W = true -> refcount (pg s (pte_to_pa e)) = 1
}.

(** The pages of the space are the old ones and new blocks. *)
Definition maps_grow (root : Z) s s' : Prop := forall va e, 0 <= va < TRAPFRAME -> pte_of (ram s') root va = Some e ->
  (exists e0, pte_of (ram s) root va = Some e0 /\ pte_to_pa e0 = pte_to_pa e) \/ forall k, ~ live s (pte_to_pa e) k.

Definition contents_of (root : Z) s s' : Prop := forall a k x, live s a k -> ~ table_of (ram s) root a -> covers a k x -> ram s' x = ram s x.

(** A page the process may not write: none of its own, or shared. *)
Definition protected (p : aspace) s (b j : Z) : Prop := live s b j /\ ~ table_of (ram s) (pagetable p) b /\
  ((forall va e, 0 <= va < TRAPFRAME -> pte_of (ram s) (pagetable p) va = Some e -> pte_to_pa e <> b) \/ 1 < refcount (pg s b)).

(** What a step that is transparent to the process leaves; [R] are the bytes of the
    kernel it may change. *)
Record transparent (p : aspace) (R : Z -> Prop) s s' : Prop := {
  tr_space : uspace p s';
  tr_view : forall va, 0 <= va < TRAPFRAME -> uview p s' va = uview p s va;
  tr_live : forall a k, live s a k -> live s' a k;
  tr_tables : tables_grow (pagetable p) s s';
  tr_maps : maps_grow (pagetable p) s s';
  tr_contents : forall a k x, live s a k -> ~ table_of (ram s) (pagetable p) a -> covers a k x -> ~ R x -> ram s' x = ram s x;
  tr_prot : forall b j, protected p s b j -> protected p s' b j;
  tr_valid : forall va e, 0 <= va < MAX_VA -> pte_of (ram s) (pagetable p) va = Some e -> exists e', pte_of (ram s') (pagetable p) va = Some e' /\ (has e PTE_U = true -> has e' PTE_U = true)
}.

Lemma transparent_refl p R s : uspace p s -> transparent p R s s.
Proof using Type. intros H. split; try done; [intros va e _ He; left; by exists e|intros va e _ He; by exists e]. Qed.

(** The byte of a mapped address does not move when pages are kept. *)
Lemma kept_byte s s' root va e : user_ok s root -> contents_of root s s' -> 0 <= va < TRAPFRAME -> pte_of (ram s) root va = Some e ->
  ld8 (ram s') (pte_to_pa e + va mod 4096) = ld8 (ram s) (pte_to_pa e + va mod 4096).
Proof using Type.
  intros Hu Hk Hva He. destruct (Hu va e Hva He) as (Hl & Hnt & _). unfold ld8. f_equal. apply (Hk (pte_to_pa e) 0); [done|done|].
  unfold covers. change (bsz 0) with 4096. pose proof (Z.mod_pos_bound va 4096). lia.
Qed.

Lemma uview_kept p s s' va : user_ok s (pagetable p) -> contents_of (pagetable p) s s' -> 0 <= va < TRAPFRAME -> pte_of (ram s') (pagetable p) va = pte_of (ram s) (pagetable p) va -> uview p s' va = uview p s va.
Proof using Type.
  intros Hu Hk Hva He. unfold uview. rewrite He. destruct (pte_of (ram s) (pagetable p) va) as [e|] eqn:E; [|done]. by rewrite (kept_byte s s' (pagetable p) va e).
Qed.

(** Two addresses of one page are in the same VMAs. *)
Lemma vma_find_page p va va' v : vma_perms_ok p -> Forall (fun v => start v mod 4096 = 0 /\ end_ v mod 4096 = 0) (vma_list p) -> vma_find p va = Some v -> va' / 4096 = va / 4096 ->
  exists w, vma_find p va' = Some w.
Proof using Type.
  intros _ Hal Hf Hp. destruct (vma_find_in_elem _ _ _ Hf) as [Hin Hr]. unfold vma_find. rewrite Forall_forall in Hal. destruct (Hal v Hin) as [Ha1 Ha2]. assert (start v <= va' < end_ v) as Hr' by mlia. clear - Hin Hr'.
  induction (vma_list p) as [|w l IH]; [by apply elem_of_nil in Hin|]. cbn [vma_find_in]. destruct ((start w <=? va') && (va' <? end_ w)) eqn:E; [by eexists|].
  apply elem_of_cons in Hin as [->|Hin]; [lia|by apply IH].
Qed.

(** One page is mapped differently and shows the same bytes as before. *)
Lemma transparent_remap p R old s s' va e' : uspace p s -> inv s' -> pt_ok s' (pagetable p) -> user_ok s' (pagetable p) -> tables_grow (pagetable p) s s' -> 0 <= va < TRAPFRAME ->
  remapped (pagetable p) va e' s s' -> pages_kept (pagetable p) old s s' -> (forall a k, live s a k -> live s' a k) ->
  (old = None \/ exists e0, old = Some (pte_to_pa e0) /\ pte_of (ram s) (pagetable p) va = Some e0 /\ forall k, ~ live s (pte_to_pa e') k) ->
  ((exists e0, pte_of (ram s) (pagetable p) va = Some e0 /\ pte_to_pa e0 = pte_to_pa e') \/ forall k, ~ live s (pte_to_pa e') k) ->
  refcount (pg s' (pte_to_pa e')) = 1 -> (forall e0, pte_of (ram s) (pagetable p) va = Some e0 -> has e0 PTE_U = true -> has e' PTE_U = true) ->
  (forall va', 0 <= va' < TRAPFRAME -> va' / 4096 = va / 4096 -> uview p s va' = Some (ld8 (ram s') (pte_to_pa e' + va' mod 4096))) ->
  transparent p R s s'.
Proof using Type.
  intros Hs Hi Hpt Hu Ht Hva Hm [Hk Hrf] Hl Hold Hpa Hr HU Hby. pose proof Hs as []. assert (TRAPFRAME <= MAX_VA) as Htm by done. assert (TRAPFRAME mod 4096 = 0) as Hta by done.
  assert (forall va', 0 <= va' < MAX_VA -> va' / 4096 = va / 4096 -> pte_of (ram s') (pagetable p) va' = Some e') as Hin by (intros va' Hva' Hp; rewrite Hm by done; by rewrite decide_True).
  assert (forall va', 0 <= va' < MAX_VA -> va' / 4096 <> va / 4096 -> pte_of (ram s') (pagetable p) va' = pte_of (ram s) (pagetable p) va') as Hout by (intros va' Hva' Hp; rewrite Hm by done; by rewrite decide_False).
  assert (forall va2 e2, 0 <= va2 < TRAPFRAME -> va2 / 4096 <> va / 4096 -> pte_of (ram s) (pagetable p) va2 = Some e2 -> pte_to_pa e2 <> pte_to_pa e') as Hne.
  { intros va2 e2 Hva2 Hp He2 Heq. destruct Hpa as [(e0 & He0 & Hpe)|Hn]; [|apply (Hn 0); rewrite <- Heq; by apply (us_user0 va2 e2)]. apply Hp. apply (us_inj0 va2 e2 va e0); try done. congruence. }
  assert (forall va2 e2, 0 <= va2 < TRAPFRAME -> va2 / 4096 <> va / 4096 -> pte_of (ram s) (pagetable p) va2 = Some e2 -> Some (pte_to_pa e2) <> old) as Hno.
  { intros va2 e2 Hva2 Hp He2 Heq. destruct Hold as [->|(e0 & -> & He0 & _)]; [done|]. injection Heq as Heq. apply Hp. by apply (us_inj0 va2 e2 va e0). }
  split; try done.
  - split; try done.
    + intros va' e Hva' He. rewrite Hout in He by mlia. by apply (us_kernel0 va').
    + intros va1 e1 va2 e2 Hv1 Hv2 He1 He2 Heq. destruct (decide (va1 / 4096 = va / 4096)) as [H1|H1], (decide (va2 / 4096 = va / 4096)) as [H2|H2]; [lia|exfalso|exfalso|].
      * rewrite Hin in He1 by lia. rewrite Hout in He2 by lia. injection He1 as <-. by apply (Hne va2 e2).
      * rewrite Hin in He2 by lia. rewrite Hout in He1 by lia. injection He2 as <-. by apply (Hne va1 e1).
      * rewrite Hout in He1, He2 by lia. by apply (us_inj0 va1 e1 va2 e2).
    + intros va1 e1 Hv1 He1 Hw. destruct (decide (va1 / 4096 = va / 4096)) as [H1|H1]; [rewrite Hin in He1 by lia; by injection He1 as <-|]. rewrite Hout in He1 by lia. destruct (us_user0 va1 e1 Hv1 He1) as [Hlv _]. rewrite (Hrf _ 0) by (done || by apply (Hno va1 e1)). by apply (us_cow0 va1 e1).
  - intros va' Hva'. destruct (decide (va' / 4096 = va / 4096)) as [H1|H1]; [|apply uview_kept; try done; apply Hout; [lia|done]]. rewrite Hby by done. unfold uview. by rewrite Hin by (done || lia).
  - intros va1 e1 Hv1 He1. destruct (decide (va1 / 4096 = va / 4096)) as [H1|H1]; [|rewrite Hout in He1 by lia; left; by exists e1]. rewrite Hin in He1 by lia. injection He1 as <-.
    destruct Hpa as [(e0 & He0 & Hpe)|Hn]; [left|by right]. exists e0. split; [|done]. rewrite <- He0. by apply pte_of_page.
  - intros a k x Ha Hna Hx _. by apply (Hk a k).
  - intros b j (Hb & Hnt & Hor). split_and!; [by apply Hl|intros Htb; destruct (Ht b Htb) as [?|Hnl]; [done|by apply (Hnl j)]|]. destruct (decide (Some b = old)) as [Hbo|Hbo]; [left|destruct Hor as [Hnm|Hrc]; [left|right; by rewrite (Hrf b j)]].
    + destruct Hold as [->|(e0 & -> & He0 & Hfr)]; [done|]. injection Hbo as ->. intros va1 e1 Hv1 He1 Heq. destruct (decide (va1 / 4096 = va / 4096)) as [H1|H1].
      * rewrite Hin in He1 by lia. injection He1 as <-. apply (Hfr j). by rewrite Heq.
      * rewrite Hout in He1 by lia. apply H1. by apply (us_inj0 va1 e1 va e0).
    + intros va1 e1 Hv1 He1 Heq. destruct (decide (va1 / 4096 = va / 4096)) as [H1|H1]; [|rewrite Hout in He1 by lia; by apply (Hnm va1 e1)]. rewrite Hin in He1 by lia. injection He1 as <-.
      destruct Hpa as [(e0 & He0 & Hpe)|Hfr]; [apply (Hnm va e0); congruence|]. apply (Hfr j). by rewrite Heq.
  - intros va1 e1 Hv1 He1. destruct (decide (va1 / 4096 = va / 4096)) as [H1|H1]; [exists e'; split; [by apply Hin|]; rewrite (pte_of_page _ _ va1 va) in He1 by done; by apply HU|exists e1; by rewrite Hout].
Qed.

(** A failed fault maps nothing. *)
Lemma transparent_same p R s s' : uspace p s -> inv s' -> pt_ok s' (pagetable p) -> user_ok s' (pagetable p) -> tables_grow (pagetable p) s s' ->
  (forall va, 0 <= va < MAX_VA -> pte_of (ram s') (pagetable p) va = pte_of (ram s) (pagetable p) va) -> pages_kept (pagetable p) None s s' -> (forall a k, live s a k -> live s' a k) -> transparent p R s s'.
Proof using Type.
  intros Hs Hi Hpt Hu Ht Hm [Hk1 Hk2] Hl. pose proof Hs as []. assert (TRAPFRAME <= MAX_VA) as Htm by done. split; try done.
  - split; try done.
    + intros va e Hva He. rewrite Hm in He by (assert (0 <= TRAPFRAME) by done; lia). by apply (us_kernel0 va).
    + intros va1 e1 va2 e2 Hv1 Hv2 He1 He2. rewrite Hm in He1, He2 by lia. by apply us_inj0.
    + intros va e Hva He Hw. rewrite Hm in He by lia. destruct (us_user0 va e Hva He) as [Hlv _]. rewrite (Hk2 _ 0) by done. by apply (us_cow0 va).
  - intros va Hva. apply uview_kept; try done. apply Hm. lia.
  - intros va e Hva He. rewrite Hm in He by lia. left. by exists e.
  - intros a k x Ha Hna Hx _. by apply (Hk1 a k).
  - intros b j (Hb & Hnt & Hor). split_and!; [by apply Hl|intros Htb; destruct (Ht b Htb) as [?|Hnl]; [done|by apply (Hnl j)]|]. destruct Hor as [Hnm|Hrc]; [left|right; by rewrite (Hk2 b j)]. intros va e Hva He. rewrite Hm in He by lia. by apply (Hnm va).
  - intros va e Hva He. exists e. by rewrite Hm.
Qed.

Lemma fault_transparent p R cause va s r s' : uspace p s -> fault_ok (inv:=inv) p cause va s r s' ->
  transparent p R s s' /\ (r = 0 \/ r = -1) /\ (r = 0 -> 0 <= va < TRAPFRAME /\ exists e, pte_of (ram s') (pagetable p) va = Some e).
Proof using PA.
  intros Hs (Hi & Hpt & Hu & Ht & Hf). pose proof Hs as []. assert (forall v, vma_find p va = Some v -> 0 <= va < TRAPFRAME /\ 0 <= perm v < 1024) as Hrange.
  { intros v Hv. destruct (vma_find_in_elem _ _ _ Hv) as [Hin Hr]. unfold vma_perms_ok in us_vmas0. rewrite Forall_forall in us_vmas0. destruct (us_vmas0 v Hin) as (? & ? & ?). lia. }
  assert (TRAPFRAME <= MAX_VA) as Htm by done. assert (forall new, blocks_grow (pagetable p) new s s' -> forall a k, live s a k -> live s' a k) as Hgrow by (intros new Hb a k Ha; apply Hb; by left).
  assert (forall e', remapped (pagetable p) va e' s s' -> 0 <= va < TRAPFRAME -> exists e, pte_of (ram s') (pagetable p) va = Some e) as Hnow. { intros e' Hm Hva. exists e'. rewrite Hm by lia. by rewrite decide_True. }
  destruct Hf as [Hv|v Hv Hn Hc Hw|v e Hv He Hc|v n s' Hv Hn Hc Hfr [Hso Hrn] Hz Hm [Hk1 Hk2] Hb|v s' Hv Hn Hm Hk Hb|v e s' Hv He Hc HC Hr1 Hm [Hk1 Hk2] Hb|v e n s' Hv He Hc HC Hr1 Hfr [Hso Hrn] Hcp Hro Hm [Hk1 Hk2] Hb|v e Hv He Hc HC Hr1 Hnm];
    try (split_and!; [by apply transparent_refl|by right|done]).
  - (* a page of zeroes *)
    destruct (Hrange v Hv) as [Hva Hprm]. split_and!; [|by left|intros _; split; [done|by eapply Hnow]].
    destruct (pal_block s' n 0 Hi Hso) as (_ & Hal & ? & ?). change (bsz 0) with 4096 in *. destruct (leaf_pte_pa n (perm v)) as [Hpa _]; [klia|done|done|].
    apply (transparent_remap p R None s s' va (leaf_pte n (perm v))); rewrite ?Hpa; try done; [by eapply Hgrow|by left|by right|intros e0 He0; congruence|].
    intros va' Hva' Hp. unfold uview. rewrite (pte_of_page _ _ va' va) by done. rewrite Hn. destruct (vma_find_page p va va' v us_vmas0 us_aligned0 Hv Hp) as [w ->]. unfold ld8. rewrite Hz; [done|]. pose proof (Z.mod_pos_bound va' 4096). lia.
  - (* no memory *)
    destruct (Hrange v Hv) as [Hva Hprm]. split_and!; [|by right|done]. apply transparent_same; try done. by eapply Hgrow.
  - (* the sole owner *)
    destruct (Hrange v Hv) as [Hva Hprm]. split_and!; [|by left|intros _; split; [done|by eapply Hnow]]. destruct (us_user0 va e Hva He) as [Hlv _].
    assert (pte_to_pa (Z.lor (Z.land e (Z.lnot PTE_COW)) PTE_W) = pte_to_pa e) as Hpa by (apply pte_to_pa_bits; intros k Hk; unfold PTE_COW, PTE_W; rewrite clear_set_bits by lia; repeat case_decide; (done || lia)).
    apply (transparent_remap p R None s s' va (Z.lor (Z.land e (Z.lnot PTE_COW)) PTE_W)); rewrite ?Hpa; try done; [by eapply Hgrow|by left|left; by exists e|by rewrite (Hk2 _ 0)|intros e0 He0; assert (e0 = e) as -> by congruence; unfold PTE_U, PTE_COW, PTE_W; rewrite !has_bit, clear_set_bits by lia; by repeat case_decide|].
    intros va' Hva' Hp. assert (pte_of (ram s) (pagetable p) va' = Some e) as He' by (by rewrite (pte_of_page _ _ va' va)). unfold uview. rewrite He'. f_equal. symmetry. by eapply kept_byte.
  - (* the private copy *)
    destruct (Hrange v Hv) as [Hva Hprm]. split_and!; [|by left|intros _; split; [done|by eapply Hnow]]. destruct (us_user0 va e Hva He) as (Hlv & Hnt & Her).
    destruct (pal_block s' n 0 Hi Hso) as (_ & Hal & ? & ?). change (bsz 0) with 4096 in *.
    assert (pte_to_pa (Z.lor (pa_to_pte n) (Z.lor (Z.land e (PTE_COW - 1)) PTE_W)) = n) as Hpa.
    { apply pte_to_pa_lor; [klia|done|]. apply (lor_range _ _ 10); [lia| |done]. pose proof (land_ones_mod e 8 ltac:(lia)) as Hl. change (Z.ones 8) with (PTE_COW - 1) in Hl. change (PTE_COW - 1) with (2 ^ 8 - 1). rewrite ?Hl. pose proof (Z.mod_pos_bound e (2 ^ 8) ltac:(lia)). lia. }
    apply (transparent_remap p R (Some (pte_to_pa e)) s s' va (Z.lor (pa_to_pte n) (Z.lor (Z.land e (PTE_COW - 1)) PTE_W))); rewrite ?Hpa; try done; [by eapply Hgrow|right; by exists e|by right|intros e0 He0; assert (e0 = e) as -> by congruence; unfold PTE_U; rewrite !has_bit, !Z.lor_spec, Z.land_spec by lia; intros ->; by rewrite orb_true_r|].
    intros va' Hva' Hp. unfold uview. rewrite (pte_of_page _ _ va' va), He by done. f_equal. symmetry. apply Hcp. by apply Z.mod_pos_bound.
Qed.

Lemma transparent_trans p R s1 s2 s3 : transparent p R s1 s2 -> transparent p R s2 s3 -> transparent p R s1 s3.
Proof using Type.
  intros [] []. split; try done.
  - intros va Hva. rewrite tr_view1 by done. by apply tr_view0.
  - intros a k Ha. by apply tr_live1, tr_live0.
  - intros t Ht. destruct (tr_tables1 t Ht) as [Ht2|Hn]; [by apply tr_tables0|]. right. intros k Hk. by apply (Hn k), tr_live0.
  - intros va e Hva He. destruct (tr_maps1 va e Hva He) as [(e2 & He2 & <-)|Hn]; [by apply tr_maps0|]. right. intros k Hk. by apply (Hn k), tr_live0.
  - intros a k x Ha Hna Hx HR. rewrite (tr_contents1 a k x); [by apply (tr_contents0 a k)|by apply tr_live0| |done|done]. intros Ht. destruct (tr_tables0 a Ht) as [?|Hn]; [done|]. by apply (Hn k).
  - intros b j Hb. by apply tr_prot1, tr_prot0.
  - intros va e Hva He. destruct (tr_valid0 va e Hva He) as (e2 & He2 & HU). destruct (tr_valid1 va e2 Hva He2) as (e3 & He3 & HU3). exists e3. auto.
Qed.
Lemma transparent_mono p (R R' : Z -> Prop) s s' : (forall x, R x -> R' x) -> transparent p R s s' -> transparent p R' s s'.
Proof using Type. intros HR []. split; try done. intros a k x Ha Hna Hx Hn. apply (tr_contents0 a k); [done..|]. intros ?. by apply Hn, HR. Qed.

(** * Memory of the kernel next to it *)

(** A block that holds neither tables nor pages of the process. *)
Definition kbuf (p : aspace) s (a k : Z) : Prop := live s a k /\ ~ table_of (ram s) (pagetable p) a /\ forall va e, 0 <= va < TRAPFRAME -> pte_of (ram s) (pagetable p) va = Some e -> pte_to_pa e <> a.

Lemma kbuf_kept p R s s' a k : transparent p R s s' -> kbuf p s a k -> kbuf p s' a k.
Proof using Type.
  intros [] (Hl & Hnt & Hm). split_and!; [by apply tr_live0| |].
  - intros Ht. destruct (tr_tables0 a Ht) as [?|Hn]; [done|]. by apply (Hn k).
  - intros va e Hva He Heq. destruct (tr_maps0 va e Hva He) as [(e0 & He0 & Hpe)|Hn]; [apply (Hm va e0); congruence|]. apply (Hn k). by rewrite Heq.
Qed.

(** Writing into a live block that is no table keeps the tables. *)
Lemma write_keeps p s a k m : uspace p s -> live s a k -> ~ table_of (ram s) (pagetable p) a -> (forall x, ~ covers a k x -> m x = ram s x) ->
  inv (set_ram m s) /\ forall t, table_of (ram s) (pagetable p) t -> is_table (set_ram m s) t /\ forall x, t <= x < t + 4096 -> ram (set_ram m s) x = ram s x.
Proof using PA.
  intros [] Hl Hnt Hx. split.
  - eapply pal_client; [exact us_inv0|]. split_and!; try done.
    + intros q. by pose proof (pal_u16 s q us_inv0).
    + intros x Hn. apply Hx. intros Hc. by apply (Hn a k).
  - intros t (q & Hq & Ht). pose proof (pt_table _ _ us_pt0 q t Hq Ht) as Hit. split; [exact Hit|]. intros x Hr. apply Hx. intros Hc.
    destruct (pal_disj s a k t 0 x us_inv0 Hl (proj1 Hit) Hc) as [-> _]; [unfold covers; by change (bsz 0) with 4096|]. apply Hnt. by exists q.
Qed.

Lemma kwrite_transparent p (R : Z -> Prop) s a k m : uspace p s -> kbuf p s a k -> (forall x, ~ covers a k x -> m x = ram s x) -> (forall x, ~ R x -> m x = ram s x) -> transparent p R s (set_ram m s).
Proof using PA.
  intros Hs (Hl & Hnt & Hm) Hx HR. destruct (write_keeps p s a k m Hs Hl Hnt Hx) as [Hi Hk]. pose proof Hs as []. assert (forall va, pte_of (ram (set_ram m s)) (pagetable p) va = pte_of (ram s) (pagetable p) va) as Hp by (intros va; by eapply keep_pte).
  assert (forall t, table_of (ram (set_ram m s)) (pagetable p) t <-> table_of (ram s) (pagetable p) t) as Ht by (intros t; by eapply keep_table_of).
  split; try done.
  - split; try done; [by eapply keep_pt_ok|..].
    + intros va e Hva He. rewrite Hp in He. destruct (us_user0 va e Hva He) as (? & ? & ?). split_and!; [done|by rewrite Ht|lia..].
    + intros va e Hva He. rewrite Hp in He. by apply (us_kernel0 va).
    + intros va1 e1 va2 e2 Hv1 Hv2 He1 He2. rewrite Hp in He1, He2. by apply us_inj0.
    + intros va e Hva He Hw. rewrite Hp in He. by apply (us_cow0 va).
  - intros va Hva. unfold uview. rewrite Hp. destruct (pte_of (ram s) (pagetable p) va) as [e|] eqn:He; [|done]. f_equal. unfold ld8. f_equal. apply Hx. intros Hc. destruct (us_user0 va e Hva He) as (Hlv & _).
    destruct (pal_disj s a k (pte_to_pa e) 0 (pte_to_pa e + va mod 4096) us_inv0 Hl Hlv Hc) as [Heq _]; [unfold covers; change (bsz 0) with 4096; pose proof (Z.mod_pos_bound va 4096); lia|]. by apply (Hm va e).
  - intros t Htt%Ht. by left.
  - intros va e Hva He. rewrite Hp in He. left. by exists e.
  - intros a' k' x _ _ _ Hn. by apply HR.
  - intros b j (Hb & Hnb & Hor). split_and!; [done|by rewrite Ht|]. destruct Hor as [Hnm|Hrc]; [left|by right]. intros va e Hva He. rewrite Hp in He. by apply (Hnm va).
  - intros va e Hva He. exists e. by rewrite Hp.
Qed.
End space.
