(* ===== verification/UserCopy.v ===== *)
(** Copies between kernel and user memory ([copyin], [copyout] of [kernel/vm.c]).

    Theorems on user memory: page faults and the copies of [kernel/vm.c]. *)
From S2P Require Import Prelude Mem Layout Kalloc Buddy KallocInv KallocAlloc KallocSpec KallocThm Kmalloc Vm VmInv VmWalk VmMap VmThm Vma VmaProof VmaThm UserMem.

Section copy.
Context {inv : kmem -> Prop} {PA : PageAllocator inv kalloc_pages kfree_pages}.
Implicit Types s : kmem.

(** * The entry of a page *)
Definition entry_at (p : aspace) s (va pte e : Z) : Prop :=
  exists u, table_at (ram s) (pagetable p) (path va) = Some u /\ pte = u + 8 * PX 0 va /\ entry (ram s) u (PX 0 va) = e /\ has e PTE_V = true.

Lemma entry_pte p s va pte e : entry_at p s va pte e -> pte_of (ram s) (pagetable p) va = Some e.
Proof using Type. intros (u & Hu & _ & He & HV). unfold pte_of. by rewrite Hu, He, HV. Qed.
Lemma entry_load p s va pte e (Q : Z -> kmem -> Prop) : uspace (inv:=inv) p s -> entry_at p s va pte e -> Q e s -> wp (load64 pte) Q s.
Proof using PA.
  intros [] (u & Hu & -> & <- & _) HQ. destruct (leaf_dram s (pagetable p) va u us_inv us_pt Hu) as (? & ? & ? & ? & Hidx). unfold idx_ok in Hidx. apply wp_load64; [lia..|]. exact HQ.
Qed.

(** The walk of a page below MAX_VA. *)
Lemma walk_entry p s va (Q : Z -> kmem -> Prop) : uspace (inv:=inv) p s -> 0 <= va < MAX_VA ->
  (pte_of (ram s) (pagetable p) va = None -> Q NULL s) ->
  (forall u, table_at (ram s) (pagetable p) (path va) = Some u -> u + 8 * PX 0 va <> NULL -> Q (u + 8 * PX 0 va) s) -> wp (walk (pagetable p) va false) Q s.
Proof using PA.
  intros [] Hva HN HS. assert (MAX_VA = 2 ^ 38) as Hmax by done. eapply wp_mono; [apply (walk_spec s (pagetable p) va false us_inv us_pt); lia|].
  intros r s' (_ & Hs & Hres). specialize (Hs eq_refl). subst s'. destruct Hres as [(-> & [[? _]|[_ Hnone]])|(u & Hut & -> & Hnz)]; [done| |by apply HS].
  apply HN. unfold pte_of. by rewrite Hnone.
Qed.

Lemma slot_spec p R cause va need s : uspace (inv:=inv) p s -> 0 <= va < MAX_VA -> (forall e, need e = false -> has e PTE_V = true) ->
  wp (user_slot p cause va need) (fun r s' => transparent (inv:=inv) p R s s' /\
    match r with Some pte => exists e, entry_at p s' va pte e | None => True end /\
    (forall e, pte_of (ram s) (pagetable p) va = Some e -> need e = false -> s' = s /\ exists pte, r = Some pte /\ entry_at p s va pte e)) s.
Proof using PA.
  intros Hs Hva Hneed. pose proof Hs as []. unfold user_slot.
  (* the way through the fault handler *)
  assert ((forall e, pte_of (ram s) (pagetable p) va = Some e -> need e = true) ->
    wp (r ← handle_page_fault p cause va; if r <? 0 then mret None else pte' ← walk (pagetable p) va false; mret (Some pte')) (fun r s' => transparent (inv:=inv) p R s s' /\
    match r with Some pte => exists e, entry_at p s' va pte e | None => True end /\
    (forall e, pte_of (ram s) (pagetable p) va = Some e -> need e = false -> s' = s /\ exists pte, r = Some pte /\ entry_at p s va pte e)) s) as Hfault.
  { intros HnP. apply wp_bind. eapply wp_mono; [by apply (handle_page_fault_spec p cause va s)|]. intros r s1 Hf. destruct (fault_transparent p R cause va s r s1 Hs Hf) as (Ht & Hr & Hok).
    destruct Hr as [->| ->]; cycle 1. { destruct (Z.ltb_spec (-1) 0); [|lia]. wp_steps. split_and!; [done|done|]. intros e He Hn. by rewrite HnP in Hn. }
    destruct (Z.ltb_spec 0 0); [lia|]. destruct (Hok eq_refl) as [_ [e He]]. apply wp_bind. apply walk_entry; [apply Ht|done|by rewrite He|]. intros u Hu Hnz. wp_steps. split_and!; [done| |].
    - exists e. exists u. unfold pte_of in He. rewrite Hu in He. destruct (has (entry (ram s1) u (PX 0 va)) PTE_V) eqn:HV; [|done]. injection He as <-. by split_and!.
    - intros e' He' Hn. by rewrite HnP in Hn. }
  apply wp_bind. apply walk_entry; [done|done| |].
  - intros Hnone. rewrite Z.eqb_refl. wp_steps. cbn [orb]. apply Hfault. intros e He. congruence.
  - intros u Hu Hnz. destruct (Z.eqb_spec (u + 8 * PX 0 va) NULL) as [|_]; [done|]. destruct (leaf_dram s (pagetable p) va u us_inv us_pt Hu) as (? & ? & ? & ? & Hidx). unfold idx_ok in Hidx.
    apply wp_bind, wp_load64; [lia..|]. fold (entry (ram s) u (PX 0 va)). set (e := entry (ram s) u (PX 0 va)). cbn [orb].
    assert (forall e', pte_of (ram s) (pagetable p) va = Some e' -> e' = e /\ has e PTE_V = true) as Huniq. { intros e' He'. unfold pte_of in He'. rewrite Hu in He'. fold e in He'. destruct (has e PTE_V); [by injection He' as <-|done]. }
    destruct (need e) eqn:En.
    + apply Hfault. intros e' He'. by destruct (Huniq e' He') as [-> _].
    + wp_steps. assert (entry_at p s va (u + 8 * PX 0 va) e) as Hea by (exists u; split_and!; auto). split_and!; [by apply transparent_refl|by exists e|]. intros e' He' _. destruct (Huniq e' He') as [-> _]. split; [done|]. by eexists.
Qed.

(** * Copying one page *)
Lemma ld8_memcpy m dst src n i : 0 <= i < n -> ld8 (memcpy m dst src n) (dst + i) = ld8 m (src + i).
Proof using Type. intros Hi. unfold ld8, memcpy. rewrite in_range_true by lia. rewrite u8_idem. do 2 f_equal. lia. Qed.

Lemma block_room p s a k : uspace (inv:=inv) p s -> live s a k -> free_start s <= a /\ a + bsz k <= PHYS_STOP /\ 0 <= a.
Proof using PA. intros [] Hl. destruct (pal_block s a k us_inv Hl) as (_ & _ & ? & ?). klia. Qed.

Lemma user_page p s va e : uspace (inv:=inv) p s -> 0 <= va < TRAPFRAME -> pte_of (ram s) (pagetable p) va = Some e ->
  live s (pte_to_pa e) 0 /\ free_start s <= pte_to_pa e /\ 0 <= pte_to_pa e /\ pte_to_pa e + 4096 <= PHYS_STOP.
Proof using PA.
  intros Hs Hva He. destruct (us_user _ _ Hs va e Hva He) as [Hl _]. destruct (pal_block s _ 0 (us_inv _ _ Hs) Hl) as (_ & _ & ? & ?). change (bsz 0) with 4096 in *. split_and!; (done || klia).
Qed.

(** A page of the process and a block of the kernel do not overlap. *)
Lemma page_apart p s a k va e x y n : uspace (inv:=inv) p s -> kbuf p s a k -> 0 <= va < TRAPFRAME -> pte_of (ram s) (pagetable p) va = Some e ->
  pte_to_pa e <= x -> x + n <= pte_to_pa e + 4096 -> a <= y -> y + n <= a + bsz k -> 0 < n -> x + n <= y \/ y + n <= x.
Proof using PA.
  intros Hs (Hl & _ & Hm) Hva He Hx1 Hx2 Hy1 Hy2 Hn. destruct (user_page p s va e Hs Hva He) as [Hlv _]. destruct (decide (x + n <= y)); [by left|]. destruct (decide (y + n <= x)); [by right|]. exfalso. apply (Hm va e Hva He).
  destruct (pal_disj s (pte_to_pa e) 0 a k (Z.max x y) (us_inv _ _ Hs) Hlv Hl) as [-> _]; [unfold covers; change (bsz 0) with 4096; lia|unfold covers; lia|done].
Qed.

Lemma kwrite_pte p s a k m va : uspace (inv:=inv) p s -> kbuf p s a k -> (forall x, ~ covers a k x -> m x = ram s x) -> pte_of (ram (set_ram m s)) (pagetable p) va = pte_of (ram s) (pagetable p) va.
Proof using PA. intros Hs (Hl & Hnt & _) Hx. destruct (write_keeps p s a k m Hs Hl Hnt Hx) as [_ Hk]. by eapply keep_pte. Qed.

(** The part of the range on the first page. *)
Lemma chunk_facts va len : 0 <= va -> 0 < len -> let k := Z.min (4096 - (va - PG_ROUND_DOWN va)) len in
  va - PG_ROUND_DOWN va = va mod 4096 /\ 0 < k <= len /\ va mod 4096 + k <= 4096 /\ (k = len \/ (va + k) mod 4096 = 0) /\ PG_ROUND_DOWN va / 4096 = va / 4096 /\ 0 <= PG_ROUND_DOWN va <= va /\
  forall i, 0 <= i < k -> (va + i) / 4096 = va / 4096 /\ (va + i) mod 4096 = va mod 4096 + i.
Proof using Type. intros Hva Hlen k. unfold k. rewrite PG_ROUND_DOWN_mod. pose proof (Z.mod_pos_bound va 4096). split_and!; try lia; try mlia. intros i Hi. split; mlia. Qed.

Lemma copyin_loop_spec p a k n : forall dst srcva len s, uspace (inv:=inv) p s -> kbuf p s a k -> a <= dst -> dst + len <= a + bsz k -> 0 <= len -> 0 <= srcva -> srcva + len <= MAX_VA ->
  (0 < len -> srcva mod 4096 + len <= 4096 * Z.of_nat n) ->
  wp (copyin_loop n p dst srcva len) (fun r s' => transparent (inv:=inv) p (fun x => dst <= x < dst + len) s s' /\ (r = 0 \/ r = - EFAULT) /\
    (r = 0 -> 0 < len -> srcva + len <= TRAPFRAME) /\ (r = 0 -> forall i, 0 <= i < len -> uview p s (srcva + i) = Some (ld8 (ram s') (dst + i))) /\
    ((forall i, 0 <= i < len -> exists e, pte_of (ram s) (pagetable p) (srcva + i) = Some e /\ has e PTE_U = true) -> r = 0)) s.
Proof using PA.
  induction n as [|n IH]; intros dst srcva len s Hs Hkb Hd1 Hd2 Hlen Hsv Hmax Hfuel; cbn [copyin_loop].
  { destruct (Z.ltb_spec 0 len); [pose proof (Z.mod_pos_bound srcva 4096); lia|]. wp_steps. split_and!; [by apply transparent_refl|by left|lia|intros _ i Hi; lia|done]. }
  destruct (Z.ltb_spec 0 len) as [Hpos|Hz]; [|wp_steps; split_and!; [by apply transparent_refl|by left|lia|intros _ i Hi; lia|done]].
  destruct (chunk_facts srcva len Hsv Hpos) as (Hoff & Hk & Hk4 & Hkal & Hpg & Hrd & Hin). set (c := Z.min (4096 - (srcva - PG_ROUND_DOWN srcva)) len) in *. assert (MAX_VA = 2 ^ 38) as Emax by done. assert (TRAPFRAME = 2 ^ 38 - 8192) as Etf by done.
  pose proof (Z.mod_pos_bound srcva 4096 ltac:(lia)) as Hmod. set (R := fun x => dst <= x < dst + len).
  apply wp_bind. eapply wp_mono; [apply (slot_spec p R EXC_LOAD_PAGE (PG_ROUND_DOWN srcva)); [done|lia|]|]. { intros e Hn. by destruct (has e PTE_V). }
  intros r s1 (Ht1 & Hslot & Hdone). pose proof (tr_space _ _ _ _ Ht1) as Hs1. pose proof (kbuf_kept _ _ _ _ _ _ Ht1 Hkb) as Hkb1.
  assert (forall e, pte_of (ram s) (pagetable p) srcva = Some e -> has e PTE_U = true -> s1 = s /\ exists pte, r = Some pte /\ entry_at p s (PG_ROUND_DOWN srcva) pte e) as Hdone'.
  { intros e He _. apply Hdone; [rewrite <- He; by apply pte_of_page|]. unfold pte_of in He. destruct (table_at _ _ _) as [u|]; [|done]. destruct (has (entry (ram s) u (PX 0 srcva)) PTE_V) eqn:HV; [|done]. injection He as <-. by rewrite HV. }
  assert ((forall i, 0 <= i < len -> exists e, pte_of (ram s) (pagetable p) (srcva + i) = Some e /\ has e PTE_U = true) -> exists e pte, s1 = s /\ r = Some pte /\ entry_at p s (PG_ROUND_DOWN srcva) pte e /\ has e PTE_U = true) as Hall.
  { intros Hm. destruct (Hm 0 ltac:(lia)) as (e & He & HU). rewrite Z.add_0_r in He. destruct (Hdone' e He HU) as (-> & pte & -> & Hea). by exists e, pte. }
  destruct r as [pte|]; [|wp_steps; split_and!; [done|by right|done|done|]; intros Hm; by destruct (Hall Hm) as (? & ? & ? & ? & _)].
  destruct Hslot as [e Hea]. apply wp_bind, (entry_load p s1 (PG_ROUND_DOWN srcva) pte e); [done|done|]. pose proof (entry_pte _ _ _ _ _ Hea) as Hpe.
  destruct (has e PTE_U) eqn:HU; cbn [negb]; cycle 1.
  { wp_steps. split_and!; [done|by right|done|done|]. intros Hm. destruct (Hall Hm) as (e' & pte' & -> & _ & Hea' & HU'). rewrite (entry_pte _ _ _ _ _ Hea') in Hpe. congruence. }
  assert (PG_ROUND_DOWN srcva < TRAPFRAME) as Hlt. { destruct (decide (PG_ROUND_DOWN srcva < TRAPFRAME)) as [|Hge]; [done|]. rewrite (us_kernel _ _ Hs1 (PG_ROUND_DOWN srcva) e) in HU; [done|lia|done]. }
  destruct (user_page p s1 (PG_ROUND_DOWN srcva) e Hs1 ltac:(lia) Hpe) as (Hlv & Hp1 & Hp2 & Hp3). rewrite PG_SIZE_val. fold c. rewrite Hoff, (u64_small (pte_to_pa e + srcva mod 4096)) by klia. set (pa := pte_to_pa e + srcva mod 4096).
  destruct (block_room p s1 a k Hs1 (proj1 Hkb1)) as (Hb1 & Hb2 & Hb3).
  unfold mem_copy. wp_steps. apply wp_require.
  { pose proof (page_apart p s1 a k (PG_ROUND_DOWN srcva) e pa dst c Hs1 Hkb1 ltac:(lia) Hpe ltac:(lia) ltac:(unfold pa; lia) Hd1 ltac:(lia) ltac:(lia)). rewrite !ram_ok_true by (unfold pa; lia). lia. }
  wp_steps. set (m := memcpy (ram s1) dst pa c). assert (forall x, ~ dst <= x < dst + c -> m x = ram s1 x) as Hout by (intros x Hx; by apply memcpy_out). assert (forall x, ~ covers a k x -> m x = ram s1 x) as Hout' by (intros x Hx; apply Hout; unfold covers in Hx; lia).
  assert (transparent (inv:=inv) p R s1 (set_ram m s1)) as Ht2. { apply (kwrite_transparent p R s1 a k m); try done. intros x Hx. apply Hout. unfold R in Hx. lia. }
  pose proof (tr_space _ _ _ _ Ht2) as Hs2. pose proof (kbuf_kept _ _ _ _ _ _ Ht2 Hkb1) as Hkb2. rewrite !u64_small by klia.
  eapply wp_mono; [apply (IH (dst + c) (srcva + c) (len - c) (set_ram m s1)); try done; try lia; destruct Hkal as [Ec|Ec]; lia|].
  intros r s3 (Ht3 & Hr & Hend & Hby & Hcm). assert (r = 0 -> srcva + len <= TRAPFRAME) as Hend'. { intros Hr0. destruct (decide (0 < len - c)) as [Hgt|]; [specialize (Hend Hr0 Hgt); lia|]. assert (TRAPFRAME mod 4096 = 0) by done. mlia. }
  split_and!; [|done|auto| |].
  - eapply transparent_trans; [exact Ht1|]. eapply transparent_trans; [exact Ht2|]. eapply transparent_mono; [|exact Ht3]. intros x Hx. unfold R. cbv beta in Hx. lia.
  - intros Hr0 i Hi. specialize (Hend' Hr0).
    destruct (decide (i < c)) as [Hic|Hic].
    + destruct (Hin i ltac:(lia)) as [Hpi Hmi]. assert (srcva + i < TRAPFRAME) as Hlti by mlia. rewrite <- (tr_view _ _ _ _ Ht1) by lia. unfold uview. rewrite (pte_of_page _ _ _ (PG_ROUND_DOWN srcva)), Hpe by lia. f_equal. rewrite Hmi.
      assert (ram s3 (dst + i) = m (dst + i)) as E3. { apply (tr_contents _ _ _ _ Ht3 a k); [apply Hkb2|apply Hkb2|unfold covers; lia|lia]. }
      unfold ld8 at 2. rewrite E3. fold (ld8 m (dst + i)). unfold m. rewrite ld8_memcpy by lia. f_equal. unfold pa. lia.
    + specialize (Hby Hr0 (i - c) ltac:(lia)). replace (srcva + c + (i - c)) with (srcva + i) in Hby by lia. replace (dst + c + (i - c)) with (dst + i) in Hby by lia. rewrite <- Hby. by rewrite (tr_view _ _ _ _ Ht2), (tr_view _ _ _ _ Ht1) by lia.
  - intros Hm. apply Hcm. intros i Hi. destruct (Hall Hm) as (e' & pte' & -> & _). destruct (Hm (c + i) ltac:(lia)) as (e2 & He2 & HU2). exists e2. split; [|done]. rewrite (kwrite_pte p s a k m) by done. by replace (srcva + c + i) with (srcva + (c + i)) by lia.
Qed.

(** * Writing user memory *)

(** The addresses from [lo] to [hi] show [f], all others what they showed; pages the
    process may not write are left alone. *)
Record written (p : aspace) (f : Z -> Z) (lo hi : Z) s s' : Prop := {
  wr_space : uspace (inv:=inv) p s';
  wr_view : forall va, 0 <= va < TRAPFRAME -> uview p s' va = if decide (lo <= va < hi) then Some (f va) else uview p s va;
  wr_kbuf : forall a k, kbuf p s a k -> kbuf p s' a k;
  wr_prot : forall b j, protected p s b j -> protected p s' b j /\ forall x, covers b j x -> ram s' x = ram s x
}.

Lemma transparent_written p f lo s s' : transparent (inv:=inv) p (fun _ => False) s s' -> written p f lo lo s s'.
Proof using Type.
  intros Ht. pose proof Ht as []. split; try done.
  - intros va Hva. rewrite decide_False by lia. by apply tr_view.
  - intros a k. exact (kbuf_kept p _ s s' a k Ht).
  - intros b j Hb. split; [by apply tr_prot|]. intros x Hx. destruct Hb as (Hl & Hnt & _). by apply (tr_contents b j); [..|intros []].
Qed.
Lemma written_trans p f lo mid hi s1 s2 s3 : lo <= mid -> mid <= hi -> written p f lo mid s1 s2 -> written p f mid hi s2 s3 -> written p f lo hi s1 s3.
Proof using Type.
  intros H1 H2 [] []. split; try done; [|by auto|].
  - intros va Hva. rewrite wr_view1 by done. destruct (decide (mid <= va < hi)); [by rewrite decide_True by lia|]. rewrite wr_view0 by done. destruct (decide (lo <= va < mid)); [by rewrite decide_True by lia|by rewrite decide_False by lia].
  - intros b j Hb. destruct (wr_prot0 b j Hb) as [Hb2 Hx2]. destruct (wr_prot1 b j Hb2) as [Hb3 Hx3]. split; [done|]. intros x Hx. by rewrite Hx3, Hx2.
Qed.

Lemma uwrite_pte p s va e m va' : uspace (inv:=inv) p s -> 0 <= va < TRAPFRAME -> pte_of (ram s) (pagetable p) va = Some e -> (forall x, ~ covers (pte_to_pa e) 0 x -> m x = ram s x) ->
  pte_of (ram (set_ram m s)) (pagetable p) va' = pte_of (ram s) (pagetable p) va'.
Proof using PA.
  intros Hs Hva He Hx. destruct (us_user _ _ Hs va e Hva He) as (Hl & Hnt & _). destruct (write_keeps p s (pte_to_pa e) 0 m Hs Hl Hnt Hx) as [_ Hk]. by eapply keep_pte.
Qed.

(** A write to a page that is mapped writable. *)
Lemma uwrite_step p f s va lo hi e m : uspace (inv:=inv) p s -> 0 <= va < TRAPFRAME -> pte_of (ram s) (pagetable p) va = Some e -> has e PTE_W = true -> lo / 4096 = va / 4096 -> hi <= (va / 4096 + 1) * 4096 ->
  (forall x, ~ covers (pte_to_pa e) 0 x -> m x = ram s x) -> (forall va', lo <= va' < hi -> ld8 m (pte_to_pa e + va' mod 4096) = f va') ->
  (forall va', va' / 4096 = va / 4096 -> ~ lo <= va' < hi -> ld8 m (pte_to_pa e + va' mod 4096) = ld8 (ram s) (pte_to_pa e + va' mod 4096)) -> written p f lo hi s (set_ram m s).
Proof using PA.
  intros Hs Hva He HW Hlo Hhi Hx Hin Hout. pose proof Hs as []. destruct (us_user va e Hva He) as (Hl & Hnt & _). destruct (write_keeps p s (pte_to_pa e) 0 m Hs Hl Hnt Hx) as [Hi Hk].
  assert (forall va', pte_of (ram (set_ram m s)) (pagetable p) va' = pte_of (ram s) (pagetable p) va') as Hp by (intros; by eapply keep_pte). assert (forall t, table_of (ram (set_ram m s)) (pagetable p) t <-> table_of (ram s) (pagetable p) t) as Ht by (intros; by eapply keep_table_of).
  assert (forall b j x, live s b j -> b <> pte_to_pa e -> covers b j x -> m x = ram s x) as Hoth. { intros b j x Hb Hne Hc. apply Hx. intros Hc'. destruct (pal_disj s b j (pte_to_pa e) 0 x us_inv Hb Hl Hc Hc') as [? _]. done. }
  split.
  - split; try done; [by eapply keep_pt_ok|..].
    + intros va' e' Hva' He'. rewrite Hp in He'. destruct (us_user va' e' Hva' He') as (? & ? & ?). split_and!; [done|by rewrite Ht|lia..].
    + intros va' e' Hva' He'. rewrite Hp in He'. by apply (us_kernel va').
    + intros va1 e1 va2 e2 Hv1 Hv2 He1 He2. rewrite Hp in He1, He2. by apply us_inj.
    + intros va' e' Hva' He' Hw. rewrite Hp in He'. by apply (us_cow va').
  - intros va' Hva'. unfold uview. rewrite Hp. destruct (decide (va' / 4096 = va / 4096)) as [Hpg|Hpg].
    + rewrite (pte_of_page _ _ va' va), He by done. ksimpl. destruct (decide (lo <= va' < hi)); [by rewrite Hin|by rewrite Hout].
    + rewrite decide_False by mlia. destruct (pte_of (ram s) (pagetable p) va') as [e'|] eqn:He'; [|done]. f_equal. unfold ld8. f_equal. ksimpl. destruct (us_user va' e' Hva' He') as (Hl' & _).
      apply (Hoth (pte_to_pa e') 0); [done| |unfold covers; change (bsz 0) with 4096; pose proof (Z.mod_pos_bound va' 4096); lia]. intros Heq. apply Hpg. by apply (us_inj va' e' va e).
  - intros a k (Ha & Hna & Hm). split_and!; [done|by rewrite Ht|]. intros va' e' Hva' He'. rewrite Hp in He'. by apply (Hm va').
  - intros b j (Hb & Hnb & Hor). assert (b <> pte_to_pa e) as Hne. { intros ->. destruct Hor as [Hnm|Hrc]; [by apply (Hnm va e)|]. rewrite (us_cow va e) in Hrc by done. lia. }
    split; [|intros x Hc; by apply (Hoth b j)]. split_and!; [done|by rewrite Ht|]. destruct Hor as [Hnm|Hrc]; [left|by right]. intros va' e' Hva' He'. rewrite Hp in He'. by apply (Hnm va').
Qed.

Lemma kbuf_protected p s a k : kbuf p s a k -> protected p s a k.
Proof using Type. intros (? & ? & ?). split_and!; [done|done|by left]. Qed.

Lemma copyout_loop_spec p a k f n : forall dstva src len s, uspace (inv:=inv) p s -> kbuf p s a k -> a <= src -> src + len <= a + bsz k -> 0 <= len -> 0 <= dstva -> dstva + len <= MAX_VA ->
  (0 < len -> dstva mod 4096 + len <= 4096 * Z.of_nat n) -> (forall i, 0 <= i < len -> ld8 (ram s) (src + i) = f (dstva + i)) ->
  wp (copyout_loop n p dstva src len) (fun r s' => (r = 0 \/ r = - EFAULT) /\ (exists j, 0 <= j <= len /\ written p f dstva (dstva + j) s s' /\ (r = 0 -> j = len)) /\ (r = 0 -> 0 < len -> dstva + len <= TRAPFRAME) /\
    ((forall i, 0 <= i < len -> exists e, pte_of (ram s) (pagetable p) (dstva + i) = Some e /\ has e PTE_U = true /\ has e PTE_W = true /\ has e PTE_COW = false) -> r = 0)) s.
Proof using PA.
  induction n as [|n IH]; intros dstva src len s Hs Hkb Hd1 Hd2 Hlen Hsv Hmax Hfuel Hsrc; cbn [copyout_loop].
  all: assert (len <= 0 -> (exists j, 0 <= j <= len /\ written p f dstva (dstva + j) s s /\ (0 = 0 -> j = len))) as Hnil by (intros Hz; exists 0; split_and!; [done|lia|rewrite Z.add_0_r; by apply transparent_written, transparent_refl|lia]).
  { destruct (Z.ltb_spec 0 len); [pose proof (Z.mod_pos_bound dstva 4096); lia|]. wp_steps. split_and!; [by left|by apply Hnil|lia|done]. }
  destruct (Z.ltb_spec 0 len) as [Hpos|Hz]; [|wp_steps; split_and!; [by left|by apply Hnil|lia|done]]. clear Hnil.
  destruct (chunk_facts dstva len Hsv Hpos) as (Hoff & Hk & Hk4 & Hkal & Hpg & Hrd & Hin). set (c := Z.min (4096 - (dstva - PG_ROUND_DOWN dstva)) len) in *. assert (MAX_VA = 2 ^ 38) as Emax by done. assert (TRAPFRAME = 2 ^ 38 - 8192) as Etf by done.
  pose proof (Z.mod_pos_bound dstva 4096 ltac:(lia)) as Hmod.
  apply wp_bind. eapply wp_mono; [apply (slot_spec p (fun _ => False) EXC_STORE_PAGE (PG_ROUND_DOWN dstva)); [done|lia|]|]. { intros e Hn. by destruct (has e PTE_V). }
  intros r s1 (Ht1 & Hslot & Hdone). pose proof (tr_space _ _ _ _ Ht1) as Hs1. pose proof (kbuf_kept _ _ _ _ _ _ Ht1 Hkb) as Hkb1. pose proof (transparent_written p f dstva s s1 Ht1) as Hw1.
  assert ((forall i, 0 <= i < len -> exists e, pte_of (ram s) (pagetable p) (dstva + i) = Some e /\ has e PTE_U = true /\ has e PTE_W = true /\ has e PTE_COW = false) ->
    exists e pte, s1 = s /\ r = Some pte /\ entry_at p s (PG_ROUND_DOWN dstva) pte e /\ has e PTE_U = true /\ has e PTE_W = true) as Hall.
  { intros Hm. destruct (Hm 0 ltac:(lia)) as (e & He & HU & HW & HC). rewrite Z.add_0_r, <- (pte_of_page _ _ (PG_ROUND_DOWN dstva)) in He by lia. destruct (Hdone e He) as (-> & pte & -> & Hea); [|by exists e, pte].
    unfold pte_of in He. destruct (table_at _ _ _) as [u|]; [|done]. destruct (has (entry (ram s) u (PX 0 (PG_ROUND_DOWN dstva))) PTE_V) eqn:HV; [|done]. injection He as <-. by rewrite HV, HC. }
  assert (exists j, 0 <= j <= len /\ written p f dstva (dstva + j) s s1 /\ (- EFAULT = 0 -> j = len)) as Hstop by (exists 0; rewrite Z.add_0_r; split_and!; (done || lia)).
  destruct r as [pte|]; [|wp_steps; split_and!; [by right|done|done|]; intros Hm; by destruct (Hall Hm) as (? & ? & ? & ? & _)].
  destruct Hslot as [e Hea]. apply wp_bind, (entry_load p s1 (PG_ROUND_DOWN dstva) pte e); [done|done|]. pose proof (entry_pte _ _ _ _ _ Hea) as Hpe.
  destruct (negb (has e PTE_U) || negb (has e PTE_W)) eqn:HUW.
  { wp_steps. split_and!; [by right|done|done|]. intros Hm. destruct (Hall Hm) as (e' & pte' & -> & _ & Hea' & HU' & HW'). rewrite (entry_pte _ _ _ _ _ Hea') in Hpe. injection Hpe as ->. by rewrite HU', HW' in HUW. }
  apply orb_false_iff in HUW as [HU%negb_false_iff HW%negb_false_iff].
  assert (PG_ROUND_DOWN dstva < TRAPFRAME) as Hlt. { destruct (decide (PG_ROUND_DOWN dstva < TRAPFRAME)) as [|Hge]; [done|]. rewrite (us_kernel _ _ Hs1 (PG_ROUND_DOWN dstva) e) in HU; [done|lia|done]. }
  destruct (user_page p s1 (PG_ROUND_DOWN dstva) e Hs1 ltac:(lia) Hpe) as (Hlv & Hp1 & Hp2 & Hp3). rewrite PG_SIZE_val. fold c. rewrite Hoff, (u64_small (pte_to_pa e + dstva mod 4096)) by klia. set (pa := pte_to_pa e + dstva mod 4096).
  destruct (block_room p s1 a k Hs1 (proj1 Hkb1)) as (Hb1 & Hb2 & Hb3).
  unfold mem_copy. wp_steps. apply wp_require.
  { pose proof (page_apart p s1 a k (PG_ROUND_DOWN dstva) e pa src c Hs1 Hkb1 ltac:(lia) Hpe ltac:(lia) ltac:(unfold pa; lia) Hd1 ltac:(lia) ltac:(lia)). rewrite !ram_ok_true by (unfold pa; lia). lia. }
  wp_steps. set (m := memcpy (ram s1) pa src c). assert (forall x, ~ covers (pte_to_pa e) 0 x -> m x = ram s1 x) as Hout. { intros x Hx. apply memcpy_out. unfold covers in Hx. change (bsz 0) with 4096 in Hx. unfold pa. lia. }
  assert (forall b j x, protected p s b j -> covers b j x -> ram s1 x = ram s x) as Hkeep by (intros b j x Hb Hc; by apply (wr_prot _ _ _ _ _ _ Hw1 b j)).
  assert (forall i, 0 <= i < len -> ld8 (ram s1) (src + i) = f (dstva + i)) as Hsrc1. { intros i Hi. rewrite <- Hsrc by done. unfold ld8. f_equal. apply (Hkeep a k); [by apply kbuf_protected|unfold covers; lia]. }
  assert (written p f dstva (dstva + c) s1 (set_ram m s1)) as Hw2.
  { apply (uwrite_step p f s1 (PG_ROUND_DOWN dstva) dstva (dstva + c) e m); try done; [lia|mlia| |].
    - intros va' Hva'. destruct (Hin (va' - dstva) ltac:(lia)) as [_ Hmi]. replace (dstva + (va' - dstva)) with va' in Hmi by lia. rewrite Hmi. replace (pte_to_pa e + (dstva mod 4096 + (va' - dstva))) with (pa + (va' - dstva)) by (unfold pa; lia).
      unfold m. rewrite ld8_memcpy, Hsrc1 by lia. f_equal. lia.
    - intros va' Hpg' Hn. unfold ld8. f_equal. apply memcpy_out. unfold pa. intros Hc. apply Hn. rewrite Hpg in Hpg'. mlia. }
  pose proof (wr_space _ _ _ _ _ _ Hw2) as Hs2. pose proof (wr_kbuf _ _ _ _ _ _ Hw2 a k Hkb1) as Hkb2. rewrite !u64_small by klia.
  eapply wp_mono; [apply (IH (dstva + c) (src + c) (len - c) (set_ram m s1)); try done; try lia|].
  { intros i Hi. replace (dstva + c + i) with (dstva + (c + i)) by lia. rewrite <- Hsrc1 by lia. replace (src + c + i) with (src + (c + i)) by lia. unfold ld8. f_equal. apply (wr_prot _ _ _ _ _ _ Hw2 a k (kbuf_protected _ _ _ _ Hkb1)). unfold covers. lia. }
  intros r s3 (Hr & (j & Hj & Hw3 & Hj0) & Hend & Hcm). split_and!; [done| | |].
  - exists (c + j). split_and!; [lia..| |intros Hr0; specialize (Hj0 Hr0); lia]. replace (dstva + (c + j)) with (dstva + c + j) by lia. apply (written_trans p f dstva dstva (dstva + c + j) s s1); [lia|lia|done|]. by apply (written_trans p f dstva (dstva + c) (dstva + c + j) s1 (set_ram m s1)); [lia|lia| |].
  - intros Hr0 _. destruct (decide (0 < len - c)) as [Hgt|]; [specialize (Hend Hr0 Hgt); lia|]. assert (TRAPFRAME mod 4096 = 0) by done. mlia.
  - intros Hm. apply Hcm. intros i Hi. destruct (Hall Hm) as (e' & pte' & -> & _). destruct (Hm (c + i) ltac:(lia)) as (e2 & He2 & HU2). exists e2. split; [|done]. rewrite (uwrite_pte p s (PG_ROUND_DOWN dstva) e m) by (done || lia). by replace (dstva + c + i) with (dstva + (c + i)) by lia.
Qed.
End copy.

(** * Theorems on faults and copies *)

(** Handling a page fault does not change what any address of the process shows, nor
    the contents of any page of somebody else. *)
Theorem page_fault_transparent p cause va s : uspace (inv:=kalloc_inv) p s ->
  exists r s', handle_page_fault p cause va s = Ok (r, s') /\ uspace (inv:=kalloc_inv) p s' /\ (forall va', 0 <= va' < TRAPFRAME -> uview p s' va' = uview p s va') /\
    contents_of (pagetable p) s s' /\ (r = 0 -> exists e, pte_of (ram s') (pagetable p) va = Some e).
Proof.
  intros Hs. pose proof Hs as []. destruct (wp_elim _ _ _ (handle_page_fault_spec p cause va s us_inv us_pt us_user us_vmas)) as (r & s' & E & Hf).
  destruct (fault_transparent p (fun _ => False) cause va s r s' Hs Hf) as ([] & _ & Hr). exists r, s'. split_and!; try done; [|intros H0; by destruct (Hr H0)]. intros a k x Ha Hn Hx. apply (tr_contents a k x Ha Hn Hx). by intros [].
Qed.

Lemma fuel_enough va len : 0 <= va -> 0 < len -> va mod 4096 + len <= 4096 * Z.of_nat (copy_fuel len).
Proof. intros Hva Hlen. unfold copy_fuel. rewrite PG_SIZE_val. pose proof (Z.mod_pos_bound va 4096). rewrite Z2Nat.id by mlia. mlia. Qed.

(** Copies between a kernel buffer and a range of user addresses below MAX_VA
    return, with 0 or -EFAULT, whatever pages are missing or copy-on-write.  After a
    successful [copyin] the buffer holds what the process sees at the range, and
    nothing the process sees has changed; after a successful [copyout] the process
    sees the buffer at the range and everything else as before, and after a failed one
    a prefix of it.  Pages shared with others and pages of others are never written.
    Both succeed when all pages of the range are there with the permission needed. *)
Lemma user_copy_spec p s a k buf va len : uspace (inv:=kalloc_inv) p s -> kbuf p s a k -> a <= buf -> buf + len <= a + bsz k -> 0 <= len -> 0 <= va -> va + len <= MAX_VA ->
  (exists r s', copyin p buf va len s = Ok (r, s') /\ (r = 0 \/ r = - EFAULT) /\ uspace (inv:=kalloc_inv) p s' /\ (forall va', 0 <= va' < TRAPFRAME -> uview p s' va' = uview p s va') /\
     (forall b j x, live s b j -> ~ table_of (ram s) (pagetable p) b -> covers b j x -> ~ buf <= x < buf + len -> ram s' x = ram s x) /\
     (r = 0 -> forall i, 0 <= i < len -> uview p s (va + i) = Some (ld8 (ram s') (buf + i))) /\
     ((forall i, 0 <= i < len -> exists e, pte_of (ram s) (pagetable p) (va + i) = Some e /\ has e PTE_U = true) -> r = 0)) /\
  (exists r s', copyout p va buf len s = Ok (r, s') /\ (r = 0 \/ r = - EFAULT) /\ uspace (inv:=kalloc_inv) p s' /\
     (exists n, 0 <= n <= len /\ (r = 0 -> n = len) /\ forall va', 0 <= va' < TRAPFRAME -> uview p s' va' = if decide (va <= va' < va + n) then Some (ld8 (ram s) (buf + (va' - va))) else uview p s va') /\
     (forall b j x, protected p s b j -> covers b j x -> ram s' x = ram s x) /\
     ((forall i, 0 <= i < len -> exists e, pte_of (ram s) (pagetable p) (va + i) = Some e /\ has e PTE_U = true /\ has e PTE_W = true /\ has e PTE_COW = false) -> r = 0)).
Proof.
  intros Hs Hkb Hb1 Hb2 Hlen Hva Hmax. split.
  - destruct (wp_elim _ _ _ (copyin_loop_spec p a k (copy_fuel len) buf va len s Hs Hkb Hb1 Hb2 Hlen Hva Hmax (fuel_enough va len Hva))) as (r & s' & E & [] & Hr & _ & Hby & Hall). exists r, s'. by split_and!.
  - destruct (wp_elim _ _ _ (copyout_loop_spec p a k (fun va' => ld8 (ram s) (buf + (va' - va))) (copy_fuel len) va buf len s Hs Hkb Hb1 Hb2 Hlen Hva Hmax (fuel_enough va len Hva) ltac:(intros i Hi; cbv beta; f_equal; lia))) as (r & s' & E & Hr & (j & Hj & [] & Hj0) & _ & Hall).
    exists r, s'. split_and!; try done; [by exists j|]. intros b i x Hb. by apply wr_prot0.
Qed.

(** * Witness: the demonstration process and the block of its trapframe *)
Lemma demo_space : uspace (inv:=kalloc_inv) demo_as pt_demo /\ kbuf demo_as pt_demo demo_block 1.
Proof.
  pose proof demo_user_ok as Hu. destruct pt_demo_facts as (Hi & Hpt & _ & Hno). destruct pt_demo_spec as (_ & _ & [[Hn _]|(_ & _ & Hm & Hl & Hnt)]); [by destruct pt_root_ne|].
  destruct demo1_spec as (_ & Hld & _). split; [split|split_and!].
  - exact Hi.
  - exact Hpt.
  - exact Hu.
  - constructor; [|constructor]. split; [vm_compute; congruence|]. split; [vm_compute; congruence|]. split; vm_compute; congruence.
  - constructor; [|constructor]. split; reflexivity.
  - intros va e Hva He. change (pagetable demo_as) with pt_root in He. assert (0 <= va < MAX_VA) as Hva' by (clear - Hva; change TRAPFRAME with 274877898752 in Hva; lia). pose proof (Hm va Hva') as Hv. unfold user_maps in Hv. rewrite Hv in He. clear - He.
    destruct (decide (va / 4096 = TRAMPOLINE / 4096)); [|destruct (decide (va / 4096 = TRAPFRAME / 4096)); [|exfalso; exact (None_ne_Some _ He)]]; apply Some_inj in He; rewrite <- He; vm_compute; reflexivity.
  - intros va e va' e' Hva _ He. change (pagetable demo_as) with pt_root in He. rewrite (Hno va Hva) in He. exfalso. exact (None_ne_Some _ He).
  - intros va e Hva He. change (pagetable demo_as) with pt_root in He. rewrite (Hno va Hva) in He. exfalso. exact (None_ne_Some _ He).
  - apply Hl. left. exact Hld.
  - exact (Hnt demo_block 1 Hld).
  - intros va e Hva He. change (pagetable demo_as) with pt_root in He. rewrite (Hno va Hva) in He. exfalso. exact (None_ne_Some _ He).
Qed.
