(* ===== verification/UserStr.v ===== *)
(** Strings from user memory ([copyinstr] of [kernel/vm.c]). *)
From S2P Require Import Prelude Mem Layout Kalloc Buddy KallocInv KallocAlloc KallocSpec KallocThm Kmalloc.
From S2P Require Import Vm VmInv VmWalk VmMap VmThm Vma VmaProof VmaThm UserMem UserCopy.

(** * The byte loop *)
Lemma st8_at m a v x : ld8 (st8 m a v) x = if decide (x = a) then u8 v else ld8 m x.
Proof. unfold ld8, st8. destruct (Z.eqb_spec x a), (decide (x = a)); try lia; by rewrite ?u8_idem. Qed.

Lemma copystr_page_spec n : forall dst src s, free_start s <= dst -> dst + Z.of_nat n <= PHYS_STOP -> free_start s <= src -> src + Z.of_nat n <= PHYS_STOP ->
  dst + Z.of_nat n <= src \/ src + Z.of_nat n <= dst ->
  wp (copystr_page n dst src) (fun r s' => exists m, s' = set_ram m s /\ (forall x, ~ dst <= x < dst + Z.of_nat n -> m x = ram s x) /\
    match r with
    | Some v => v = 0 /\ exists j, 0 <= j < Z.of_nat n /\ ld8 (ram s) (src + j) = 0 /\ (forall i, 0 <= i < j -> ld8 (ram s) (src + i) <> 0) /\ forall i, 0 <= i <= j -> ld8 m (dst + i) = ld8 (ram s) (src + i)
    | None => forall i, 0 <= i < Z.of_nat n -> ld8 (ram s) (src + i) <> 0 /\ ld8 m (dst + i) = ld8 (ram s) (src + i)
    end) s.
Proof.
  induction n as [|n IH]; intros dst src s Hd1 Hd2 Hs1 Hs2 Hdis; cbn [copystr_page].
  - apply wp_ret. exists (ram s). split_and!; [by destruct s|done|intros i Hi; lia].
  - unfold load8, store8. wp_steps. apply wp_require; [apply ram_ok_true; lia|]. wp_steps. apply wp_require; [apply ram_ok_true; lia|]. wp_steps.
    apply wp_require; [apply ram_ok_true; ksimpl; lia|]. wp_steps. ksimpl. set (c := ld8 (ram s) src). set (m1 := st8 (ram s) dst c).
    assert (u8 c = c) as Hc8 by apply u8_idem. assert (forall x, x <> dst -> m1 x = ram s x) as Hm1 by (intros x Hx; unfold m1, st8; by rewrite (proj2 (Z.eqb_neq _ _))).
    assert (forall i, 0 <= i < Z.of_nat (S n) -> ld8 m1 (src + i) = ld8 (ram s) (src + i)) as Hsrc by (intros i Hi; unfold ld8; rewrite Hm1 by lia; done).
    pose proof (Hsrc 0 ltac:(lia)) as Hsrc0. rewrite Z.add_0_r in Hsrc0. rewrite Hsrc0. fold c. destruct (Z.eqb_spec c 0) as [E|E].
    + wp_steps. exists m1. split_and!; [done|intros x Hx; apply Hm1; lia|done|]. exists 0. rewrite Z.add_0_r. split_and!; [lia|lia|done|intros i Hi; lia|].
      intros i Hi. replace i with 0 by lia. rewrite !Z.add_0_r. unfold m1. rewrite st8_at, decide_True by done. done.
    + eapply wp_mono; [apply (IH (dst + 1) (src + 1) (set_ram m1 s)); ksimpl; lia|]. cbv beta. ksimpl. intros r s' (m & -> & Hout & Hr).
      assert (ld8 m dst = c) as Hm0. { unfold ld8. rewrite Hout by lia. fold (ld8 m1 dst). unfold m1. by rewrite st8_at, decide_True. }
      exists m. split_and!; [done|intros x Hx; rewrite Hout by lia; apply Hm1; lia|]. destruct r as [v|].
      * destruct Hr as (-> & j & Hj & Hz & Hnz & Heq). split; [done|]. exists (j + 1). split_and!; [lia|lia| | |].
        -- rewrite <- Hsrc by lia. rewrite <- Hz. f_equal. lia.
        -- intros i Hi. destruct (decide (i = 0)) as [->|Hi0]; [by rewrite Z.add_0_r|]. rewrite <- Hsrc by lia. replace (src + i) with (src + 1 + (i - 1)) by lia. apply Hnz. lia.
        -- intros i Hi. destruct (decide (i = 0)) as [->|Hi0]; [by rewrite !Z.add_0_r|]. rewrite <- Hsrc by lia. replace (src + i) with (src + 1 + (i - 1)) by lia. replace (dst + i) with (dst + 1 + (i - 1)) by lia. apply Heq. lia.
      * intros i Hi. destruct (decide (i = 0)) as [->|Hi0]; [by rewrite !Z.add_0_r|]. rewrite <- Hsrc by lia. replace (src + i) with (src + 1 + (i - 1)) by lia. replace (dst + i) with (dst + 1 + (i - 1)) by lia. apply Hr. lia.
Qed.

Section str.
Context {inv : kmem -> Prop} {PA : PageAllocator inv kalloc_pages kfree_pages}.
Implicit Types s : kmem.

(** A page the process may read is there. *)
Definition readable (p : aspace) s (va : Z) : Prop := exists e, pte_of (ram s) (pagetable p) va = Some e /\ has e PTE_U = true.

(** The part of a copy from user memory that finds the page. *)
Lemma user_read_spec p R srcva (K : Z -> M kmem Z) (Q : Z -> kmem -> Prop) s : uspace (inv:=inv) p s -> 0 <= srcva < MAX_VA ->
  (forall s1, transparent (inv:=inv) p R s s1 -> ~ readable p s srcva -> Q (- EFAULT) s1) ->
  (forall s1 e, transparent (inv:=inv) p R s s1 -> (readable p s srcva -> s1 = s) -> PG_ROUND_DOWN srcva < TRAPFRAME -> pte_of (ram s1) (pagetable p) (PG_ROUND_DOWN srcva) = Some e -> wp (K e) Q s1) ->
  wp (slot ← user_slot p EXC_LOAD_PAGE (PG_ROUND_DOWN srcva) (fun e => negb (has e PTE_V));
      match slot with None => mret (- EFAULT) | Some pte => e ← load64 pte; if negb (has e PTE_U) then mret (- EFAULT) else K e end) Q s.
Proof using PA.
  intros Hs Hva Hf Hok. assert (PG_ROUND_DOWN srcva / 4096 = srcva / 4096 /\ 0 <= PG_ROUND_DOWN srcva <= srcva) as [Hpg Hrd] by (rewrite PG_ROUND_DOWN_mod; split; mlia).
  apply wp_bind. eapply wp_mono; [apply (slot_spec p R EXC_LOAD_PAGE (PG_ROUND_DOWN srcva)); [done|lia|]|]. { intros e Hn. by destruct (has e PTE_V). }
  cbv beta. intros r s1 (Ht & Hslot & Hdone). pose proof (tr_space _ _ _ _ Ht) as Hs1.
  assert (readable p s srcva -> exists e pte, s1 = s /\ r = Some pte /\ entry_at p s (PG_ROUND_DOWN srcva) pte e /\ has e PTE_U = true) as Hall.
  { intros (e & He & HU). rewrite <- (pte_of_page _ _ (PG_ROUND_DOWN srcva)) in He by done. destruct (Hdone e He) as (-> & pte & -> & Hea); [|by exists e, pte].
    unfold pte_of in He. destruct (table_at _ _ _) as [u|]; [|done]. destruct (has (entry (ram s) u (PX 0 (PG_ROUND_DOWN srcva))) PTE_V) eqn:HV; [|done]. injection He as <-. by rewrite HV. }
  destruct r as [pte|]; [|wp_steps; apply Hf; [done|]; intros Hm; by destruct (Hall Hm) as (? & ? & _ & ? & _)].
  destruct Hslot as [e Hea]. apply wp_bind, (entry_load p s1 (PG_ROUND_DOWN srcva) pte e); [done|done|]. pose proof (entry_pte _ _ _ _ _ Hea) as Hpe.
  destruct (has e PTE_U) eqn:HU; cbn [negb].
  - apply Hok; [done|intros Hm; by destruct (Hall Hm) as (? & ? & -> & _)| |done]. destruct (decide (PG_ROUND_DOWN srcva < TRAPFRAME)) as [|Hge]; [done|]. rewrite (us_kernel _ _ Hs1 (PG_ROUND_DOWN srcva) e) in HU; [done|lia|done].
  - wp_steps. apply Hf; [done|]. intros Hm. destruct (Hall Hm) as (e' & pte' & -> & _ & Hea' & HU'). rewrite (entry_pte _ _ _ _ _ Hea') in Hpe. congruence.
Qed.

(** What a call leaves, with offsets into the string. *)
Record str_copied (p : aspace) (dst va max : Z) s (r : Z) s' : Prop := {
  sc_tr : transparent (inv:=inv) p (fun x => dst <= x < dst + max) s s';
  sc_r : r = 0 \/ r = - EFAULT \/ r = - ENAMETOOLONG;
  sc_ok : r = 0 -> exists j, 0 <= j < max /\ va + j < TRAPFRAME /\ (forall i, 0 <= i <= j -> uview p s (va + i) = Some (ld8 (ram s') (dst + i))) /\
    (forall i, 0 <= i < j -> ld8 (ram s') (dst + i) <> 0) /\ ld8 (ram s') (dst + j) = 0;
  sc_long : r = - ENAMETOOLONG -> (0 < max -> va + max <= TRAPFRAME) /\ forall i, 0 <= i < max -> exists c, uview p s (va + i) = Some c /\ c <> 0;
  sc_fault : (forall i, 0 <= i < max -> (forall j, 0 <= j < i -> uview p s (va + j) <> Some 0) -> readable p s (va + i)) -> r <> - EFAULT
}.

(** The first [c] bytes have no terminator; the rest is copied from the state after. *)
Lemma str_copied_more p dst va max c s s1 s2 r s3 : uspace (inv:=inv) p s -> 0 < c <= max -> 0 <= va -> va + c <= TRAPFRAME -> va + max <= MAX_VA ->
  transparent (inv:=inv) p (fun x => dst <= x < dst + max) s s1 -> transparent (inv:=inv) p (fun x => dst <= x < dst + max) s1 s2 ->
  (readable p s va -> s1 = s) -> (forall va', pte_of (ram s2) (pagetable p) va' = pte_of (ram s1) (pagetable p) va') ->
  (forall i, 0 <= i < c -> uview p s (va + i) = Some (ld8 (ram s2) (dst + i)) /\ ld8 (ram s2) (dst + i) <> 0) ->
  (forall i, 0 <= i < c -> ld8 (ram s3) (dst + i) = ld8 (ram s2) (dst + i)) ->
  str_copied p (dst + c) (va + c) (max - c) s2 r s3 -> str_copied p dst va max s r s3.
Proof using Type.
  intros Hs Hc Hva Htf Hmax Ht1 Ht2 Hsame Hpte Hby Hkept []. assert (0 <= TRAPFRAME) by done.
  assert (forall v, 0 <= v < TRAPFRAME -> uview p s2 v = uview p s v) as Hview by (intros v Hv; by rewrite (tr_view _ _ _ _ Ht2), (tr_view _ _ _ _ Ht1)).
  split; [|done|..].
  - eapply transparent_trans; [exact Ht1|]. eapply transparent_trans; [exact Ht2|]. eapply transparent_mono; [|exact sc_tr0]. cbv beta. intros x Hx. lia.
  - intros Hr. destruct (sc_ok0 Hr) as (j & Hj & Hjt & Heq & Hnz & Hz). exists (c + j). replace (dst + (c + j)) with (dst + c + j) by lia. split_and!; [lia|lia|lia| | |done].
    + intros i Hi. destruct (decide (i < c)) as [Hic|Hic]; [rewrite Hkept by lia; by apply Hby; lia|].
      specialize (Heq (i - c) ltac:(lia)). replace (va + c + (i - c)) with (va + i) in Heq by lia. replace (dst + c + (i - c)) with (dst + i) in Heq by lia. by rewrite <- Hview by lia.
    + intros i Hi. destruct (decide (i < c)) as [Hic|Hic]; [rewrite Hkept by lia; by apply Hby; lia|]. replace (dst + i) with (dst + c + (i - c)) by lia. apply Hnz. lia.
  - intros Hr. destruct (sc_long0 Hr) as [Hm Hnz]. split; [intros _; destruct (decide (0 < max - c)); lia|]. intros i Hi. destruct (decide (i < c)) as [Hic|Hic]; [by eexists; apply Hby; lia|].
    destruct (Hnz (i - c) ltac:(lia)) as (x & Hx & Hx0). replace (va + c + (i - c)) with (va + i) in Hx by lia. exists x. split; [|done]. rewrite <- Hview by lia. done.
  - intros Hall. apply sc_fault0. intros i Hi Hpre. assert (readable p s va) as H0'. { specialize (Hall 0 ltac:(lia)). rewrite Z.add_0_r in Hall. apply Hall. intros; lia. }
    specialize (Hsame H0'). subst s1. unfold readable. rewrite Hpte. replace (va + c + i) with (va + (c + i)) by lia.
    assert (forall j, 0 <= j < c + i -> va + j < TRAPFRAME -> uview p s (va + j) <> Some 0) as Hlow.
    { intros j Hj Hjt. destruct (decide (j < c)) as [Hjc|Hjc]; [destruct (Hby j ltac:(lia)) as [-> Hn]; congruence|].
      specialize (Hpre (j - c) ltac:(lia)). replace (va + c + (j - c)) with (va + j) in Hpre by lia. by rewrite <- Hview by lia. }
    apply Hall; [lia|]. intros j Hj. destruct (decide (va + j < TRAPFRAME)) as [|Hge]; [by apply Hlow; lia|]. exfalso.
    destruct (Hall (TRAPFRAME - va)) as (e & He & HU); [lia|intros j' Hj'; apply Hlow; lia|]. rewrite (us_kernel _ _ Hs (va + (TRAPFRAME - va)) e) in HU; [done|lia|done].
Qed.

Lemma copyinstr_loop_spec p a k n : forall dst va max s, uspace (inv:=inv) p s -> kbuf p s a k -> a <= dst -> dst + max <= a + bsz k -> 0 <= max -> 0 <= va -> va + max <= MAX_VA ->
  (0 < max -> va mod 4096 + max <= 4096 * Z.of_nat n) -> wp (copyinstr_loop n p dst va max) (str_copied p dst va max s) s.
Proof using PA.
  induction n as [|n IH]; intros dst va max s Hs Hkb Hd1 Hd2 Hlen Hva Hmax Hfuel; cbn [copyinstr_loop].
  all: assert (max <= 0 -> str_copied p dst va max s (- ENAMETOOLONG) s) as Hnil by (intros Hz; split; [by apply transparent_refl|by right; right|done|intros _; split; intros; lia|done]).
  { destruct (Z.ltb_spec 0 max); [pose proof (Z.mod_pos_bound va 4096); lia|]. wp_steps. by apply Hnil. }
  destruct (Z.ltb_spec 0 max) as [Hpos|Hz]; [|wp_steps; by apply Hnil]. clear Hnil.
  destruct (chunk_facts va max Hva Hpos) as (Hoff & Hk & Hk4 & Hkal & Hpg & Hrd & Hin). set (c := Z.min (4096 - (va - PG_ROUND_DOWN va)) max) in *. assert (MAX_VA = 2 ^ 38) as Emax by done. assert (TRAPFRAME = 2 ^ 38 - 8192) as Etf by done.
  pose proof (Z.mod_pos_bound va 4096 ltac:(lia)) as Hmod. set (R := fun x => dst <= x < dst + max). apply (user_read_spec p R); [done|lia| |].
  { intros s1 Ht1 Hnr. split; [done|by right; left|done|done|]. intros Hall. exfalso. apply Hnr. rewrite <- (Z.add_0_r va). apply Hall; [lia|intros; lia]. }
  intros s1 e Ht1 Hsame Hlt Hpe. pose proof (tr_space _ _ _ _ Ht1) as Hs1. pose proof (kbuf_kept _ _ _ _ _ _ Ht1 Hkb) as Hkb1. cbv zeta.
  destruct (user_page p s1 (PG_ROUND_DOWN va) e Hs1 ltac:(lia) Hpe) as (Hlv & Hp1 & Hp2 & Hp3). rewrite PG_SIZE_val. fold c. rewrite Hoff, (u64_small (pte_to_pa e + va mod 4096)) by klia. set (pa := pte_to_pa e + va mod 4096).
  destruct (block_room p s1 a k Hs1 (proj1 Hkb1)) as (Hb1 & Hb2 & Hb3). assert (va + c <= TRAPFRAME) as Hvc by (assert (TRAPFRAME mod 4096 = 0) by done; mlia).
  apply wp_bind. eapply wp_mono; [apply copystr_page_spec; rewrite ?Z2Nat.id by lia; [lia|lia|unfold pa; lia|unfold pa; lia|]|].
  { pose proof (page_apart p s1 a k (PG_ROUND_DOWN va) e pa dst c Hs1 Hkb1 ltac:(lia) Hpe ltac:(unfold pa; lia) ltac:(unfold pa; lia) Hd1 ltac:(lia) ltac:(lia)). lia. }
  cbv beta. rewrite Z2Nat.id by lia. intros r s2 (m & -> & Hout & Hr).
  assert (forall x, ~ covers a k x -> m x = ram s1 x) as Hout' by (intros x Hx; apply Hout; unfold covers in Hx; lia).
  assert (transparent (inv:=inv) p R s1 (set_ram m s1)) as Ht2. { apply (kwrite_transparent p R s1 a k m); try done. intros x Hx. apply Hout. unfold R in Hx. lia. }
  assert (forall i, 0 <= i < c -> uview p s (va + i) = Some (ld8 (ram s1) (pa + i))) as Hsee.
  { intros i Hi. destruct (Hin i ltac:(lia)) as [Hpi Hmi]. rewrite <- (tr_view _ _ _ _ Ht1) by lia. unfold uview. rewrite (pte_of_page _ _ _ (PG_ROUND_DOWN va)), Hpe by lia. f_equal. f_equal. unfold pa. lia. }
  destruct r as [v|]; [destruct Hr as (-> & j & Hj & Hz & Hnz & Heq)|].
  - wp_steps. split; [by eapply transparent_trans|by left| |done|done]. intros _. exists j. ksimpl. split_and!; [lia..| | |].
    + intros i Hi. rewrite Heq by lia. apply Hsee. lia.
    + intros i Hi. rewrite Heq by lia. apply Hnz. lia.
    + rewrite Heq by lia. done.
  - rewrite u64_small by lia. pose proof (tr_space _ _ _ _ Ht2) as Hs2. pose proof (kbuf_kept _ _ _ _ _ _ Ht2 Hkb1) as Hkb2.
    eapply wp_mono; [apply (IH (dst + c) (va + c) (max - c) (set_ram m s1)); try done; try lia; destruct Hkal as [Ec|Ec]; lia|].
    intros r s3 Hsc. apply (str_copied_more p dst va max c s s1 (set_ram m s1) r s3); try done; [intros va'; by apply (kwrite_pte p s1 a k m)| |].
    + intros i Hi. ksimpl. destruct (Hr i ltac:(lia)) as [Hn ->]. split; [by apply Hsee|done].
    + intros i Hi. unfold ld8. f_equal. apply (tr_contents _ _ _ _ (sc_tr _ _ _ _ _ _ _ Hsc) a k); [apply Hkb2|apply Hkb2|unfold covers; lia|lia].
Qed.
End str.

(** The process sees the string [l] at [va]. *)
Definition ustring (p : aspace) (s : kmem) (va : Z) (l : list Z) : Prop :=
  (forall i c, l !! i = Some c -> c <> 0 /\ uview p s (va + Z.of_nat i) = Some c) /\ uview p s (va + Z.of_nat (length l)) = Some 0.

(** There is one string at an address. *)
Lemma ustring_unique p s va l l' : ustring p s va l -> ustring p s va l' -> l = l'.
Proof.
  intros [Hl Hz] [Hl' Hz']. assert (length l = length l') as Hlen.
  { destruct (lt_eq_lt_dec (length l) (length l')) as [[Hlt|?]|Hlt]; [exfalso|done|exfalso].
    - destruct (lookup_lt_is_Some_2 l' (length l) Hlt) as [c Hc]. destruct (Hl' _ _ Hc). congruence.
    - destruct (lookup_lt_is_Some_2 l (length l') Hlt) as [c Hc]. destruct (Hl _ _ Hc). congruence. }
  apply list_eq. intros i. destruct (l !! i) as [c|] eqn:Hc, (l' !! i) as [c'|] eqn:Hc'; try done.
  - destruct (Hl _ _ Hc) as [_ E], (Hl' _ _ Hc') as [_ E']. congruence.
  - apply lookup_lt_Some in Hc. apply lookup_ge_None in Hc'. lia.
  - apply lookup_lt_Some in Hc'. apply lookup_ge_None in Hc. lia.
Qed.

(** The string a successful call has copied. *)
Lemma copied_string {inv} p dst va max s s' : str_copied (inv:=inv) p dst va max s 0 s' ->
  exists l, ustring p s va l /\ Z.of_nat (length l) < max /\ KString.cstr (ram s') dst l.
Proof.
  intros []. destruct (sc_ok0 eq_refl) as (j & Hj & _ & Heq & Hnz & Hz). exists ((fun i => ld8 (ram s') (dst + i)) <$> seqZ 0 j).
  assert (forall i c, ((fun i => ld8 (ram s') (dst + i)) <$> seqZ 0 j) !! i = Some c -> 0 <= Z.of_nat i < j /\ c = ld8 (ram s') (dst + Z.of_nat i)) as Hl.
  { intros i c Hi. rewrite list_lookup_fmap in Hi. apply fmap_Some in Hi as (x & Hx & ->). apply lookup_seqZ in Hx as [-> Hlt]. split; [lia|]. do 2 f_equal. }
  assert (Z.of_nat (length ((fun i => ld8 (ram s') (dst + i)) <$> seqZ 0 j)) = j) as Hlen by (rewrite length_fmap, length_seqZ; lia).
  split_and!; [split|lia|split].
  - intros i c Hi. destruct (Hl i c Hi) as [Hr ->]. split; [by apply Hnz|by apply Heq; lia].
  - rewrite Hlen, Heq by lia. by rewrite Hz.
  - intros i c Hi. destruct (Hl i c Hi) as [Hr ->]. split; [by apply Hnz|done].
  - by rewrite Hlen.
Qed.

(** copyinstr below MAX_VA returns: 0 with the string the process sees at the
    address in the kernel buffer, terminator included, when it fits; -ENAMETOOLONG
    exactly when the first [max] bytes have no terminator; -EFAULT only when a page
    before the terminator is not there for the process to read.  What the process
    sees does not change, nor memory outside the buffer. *)
Lemma copyinstr_spec p s a k dst va max : uspace (inv:=kalloc_inv) p s -> kbuf p s a k -> a <= dst -> dst + max <= a + bsz k -> 0 <= max -> 0 <= va -> va + max <= MAX_VA ->
  exists r s', copyinstr p dst va max s = Ok (r, s') /\ uspace (inv:=kalloc_inv) p s' /\ (forall va', 0 <= va' < TRAPFRAME -> uview p s' va' = uview p s va') /\
    (forall b j x, live s b j -> ~ table_of (ram s) (pagetable p) b -> covers b j x -> ~ dst <= x < dst + max -> ram s' x = ram s x) /\
    ((r = 0 /\ exists l, ustring p s va l /\ (forall l', ustring p s va l' -> l' = l) /\ Z.of_nat (length l) < max /\ KString.cstr (ram s') dst l) \/
     (r = - ENAMETOOLONG /\ forall i, 0 <= i < max -> exists c, uview p s (va + i) = Some c /\ c <> 0) \/
     (r = - EFAULT /\ ~ forall i, 0 <= i < max -> (forall j, 0 <= j < i -> uview p s (va + j) <> Some 0) -> readable p s (va + i))).
Proof.
  intros Hs Hkb Hd1 Hd2 Hm Hva Hmax. destruct (wp_elim _ _ _ (copyinstr_loop_spec p a k (copy_fuel max) dst va max s Hs Hkb Hd1 Hd2 Hm Hva Hmax (fuel_enough va max Hva))) as (r & s' & E & Hsc).
  pose proof Hsc as [[] Hr Hok Hlong Hf]. exists r, s'. split_and!; try done. destruct Hr as [->|[->| ->]].
  - left. split; [done|]. destruct (copied_string p dst va max s s' Hsc) as (l & Hl & Hlen & Hc). exists l. split_and!; try done. intros l' Hl'. by apply (ustring_unique p s va).
  - right; right. split; [done|]. intros Hall. by apply (Hf Hall).
  - right; left. split; [done|]. by apply Hlong.
Qed.

(** C9: Copies between a kernel buffer and a range of user addresses below MAX_VA
    return, whatever pages are missing or copy-on-write.  After a successful [copyin]
    the buffer holds what the process sees at the range, and nothing the process sees
    has changed; after a successful [copyout] the process sees the buffer at the range
    and everything else as before, and after a failed one a prefix of it; both fail
    (-EFAULT) only when a page is not there with the permission needed.  [copyinstr]
    gives the string the process sees, terminator included, when it fits;
    -ENAMETOOLONG exactly when there is no terminator in the range; -EFAULT only when a
    page before it cannot be read.  Pages shared with others and pages of others are
    never written. *)
Theorem user_copy_correct p s a k buf va len : uspace (inv:=kalloc_inv) p s -> kbuf p s a k -> a <= buf -> buf + len <= a + bsz k -> 0 <= len -> 0 <= va -> va + len <= MAX_VA ->
  (exists r s', copyin p buf va len s = Ok (r, s') /\ (r = 0 \/ r = - EFAULT) /\ uspace (inv:=kalloc_inv) p s' /\ (forall va', 0 <= va' < TRAPFRAME -> uview p s' va' = uview p s va') /\
     (forall b j x, live s b j -> ~ table_of (ram s) (pagetable p) b -> covers b j x -> ~ buf <= x < buf + len -> ram s' x = ram s x) /\
     (r = 0 -> forall i, 0 <= i < len -> uview p s (va + i) = Some (ld8 (ram s') (buf + i))) /\
     ((forall i, 0 <= i < len -> exists e, pte_of (ram s) (pagetable p) (va + i) = Some e /\ has e PTE_U = true) -> r = 0)) /\
  (exists r s', copyout p va buf len s = Ok (r, s') /\ (r = 0 \/ r = - EFAULT) /\ uspace (inv:=kalloc_inv) p s' /\
     (exists n, 0 <= n <= len /\ (r = 0 -> n = len) /\ forall va', 0 <= va' < TRAPFRAME -> uview p s' va' = if decide (va <= va' < va + n) then Some (ld8 (ram s) (buf + (va' - va))) else uview p s va') /\
     (forall b j x, protected p s b j -> covers b j x -> ram s' x = ram s x) /\
     ((forall i, 0 <= i < len -> exists e, pte_of (ram s) (pagetable p) (va + i) = Some e /\ has e PTE_U = true /\ has e PTE_W = true /\ has e PTE_COW = false) -> r = 0)) /\
  (exists r s', copyinstr p buf va len s = Ok (r, s') /\ uspace (inv:=kalloc_inv) p s' /\ (forall va', 0 <= va' < TRAPFRAME -> uview p s' va' = uview p s va') /\
    (forall b j x, live s b j -> ~ table_of (ram s) (pagetable p) b -> covers b j x -> ~ buf <= x < buf + len -> ram s' x = ram s x) /\
    ((r = 0 /\ exists l, ustring p s va l /\ (forall l', ustring p s va l' -> l' = l) /\ Z.of_nat (length l) < len /\ KString.cstr (ram s') buf l) \/
     (r = - ENAMETOOLONG /\ forall i, 0 <= i < len -> exists c, uview p s (va + i) = Some c /\ c <> 0) \/
     (r = - EFAULT /\ ~ forall i, 0 <= i < len -> (forall j, 0 <= j < i -> uview p s (va + j) <> Some 0) -> readable p s (va + i)))).
Proof.
  intros Hs Hkb Hb1 Hb2 Hlen Hva Hmax. destruct (user_copy_spec p s a k buf va len Hs Hkb Hb1 Hb2 Hlen Hva Hmax) as [H1 H2]. split; [exact H1|]. split; [exact H2|]. by apply (copyinstr_spec p s a k).
Qed.

Lemma user_copy_correct_witness : exists r s' r' s'' r3 s3, copyin demo_as demo_block 0x1ffe 4 pt_demo = Ok (r, s') /\ (r = 0 -> uview demo_as pt_demo (0x1ffe + 1) = Some (ld8 (ram s') (demo_block + 1))) /\
  copyout demo_as 0x1ffe demo_block 4 pt_demo = Ok (r', s'') /\ uspace (inv:=kalloc_inv) demo_as s'' /\ copyinstr demo_as demo_block 0x1ffe 4 pt_demo = Ok (r3, s3).
Proof.
  destruct demo_space as [Hs Hk]. destruct (user_copy_correct demo_as pt_demo demo_block 1 demo_block 0x1ffe 4 Hs Hk) as ((r & s' & E & _ & _ & _ & _ & Hb & _) & (r' & s'' & E' & _ & Hs' & _) & (r3 & s3 & E3 & _)); [vm_compute; congruence..|].
  exists r, s', r', s'', r3, s3. split; [exact E|]. split; [|exact (conj E' (conj Hs' E3))]. intros Hr. apply (Hb Hr 1). split; [vm_compute; congruence|reflexivity].
Defined.
