(* ===== verification/Sbrk.v ===== *)
(** [proc_sbrk] of [kernel/proc.c], on the address space of the process. *)
From S2P Require Import Prelude Mem Layout Kalloc Kmalloc Vm Vma.

Definition with_end (v : vma) (e : Z) : vma := mk_vma (vma_ptr v) (start v) e (perm v) (vflags v).
(** [v->end = new_end] for the VMA [vma_find_by_flags] found. *)
Fixpoint set_end (l : list vma) (flags' new_end : Z) : list vma :=
  match l with
  | [] => []
  | pos :: l' => if negb (Z.land (vflags pos) flags' =? 0) then with_end pos new_end :: l' else pos :: set_end l' flags' new_end
  end.
Definition heap_to (p : aspace) (new_end : Z) : aspace := mk_aspace (pagetable p) (set_end (vma_list p) VMA_HEAP new_end).

(** The body of the shrinking loop is that of [vma_free_all]. *)
Definition proc_sbrk (p : aspace) (n : Z) : M kmem (Z * aspace) :=
  match vma_find_by_flags p VMA_HEAP with
  | None => mret (-1, p)
  | Some v =>
      let old_end := end_ v in
      if 0 <? n then
        let new_end := PG_ROUND_UP (u64 (old_end + n)) in
        if HEAP_MAX <? new_end then mret (-1, p) else mret (old_end, heap_to p new_end)
      else if n <? 0 then
        if u64 (old_end - start v) <? u64 (- n) then mret (-1, p) else
        let new_end := PG_ROUND_DOWN (u64 (old_end + n)) in
        let new_end := if new_end <? start v then start v else new_end in
        for_pages (page_count new_end old_end) new_end old_end (free_page_at (pagetable p));;
        mret (old_end, heap_to p new_end)
      else mret (old_end, p)
  end.
