(* ===== verification/SbrkThm.v ===== *)
(** Growing and shrinking the heap: [proc_sbrk] against what the process sees. *)
From S2P Require Import Prelude Mem Layout Kalloc Buddy KallocInv KallocAlloc KallocSpec KallocThm Kmalloc.
From S2P Require Import Vm VmInv VmWalk VmMap VmThm Vma VmaProof VmaThm UserMem UserCopy Sbrk.

Local Abbreviation uspace := (uspace (inv:=kalloc_inv)).

(** * Unmapping pages *)

(** The pages of the range are unmapped, and each loses one reference. *)
Record unmapped (p : aspace) (lo hi : Z) (s s' : kmem) : Prop := {
  um_space : uspace p s';
  um_pte : forall va, 0 <= va < MAX_VA -> pte_of (ram s') (pagetable p) va = if decide (lo <= va < hi) then None else pte_of (ram s) (pagetable p) va;
  um_tables : forall t, table_of (ram s') (pagetable p) t <-> table_of (ram s) (pagetable p) t;
  um_live : forall a k, live s' a k <-> live s a k /\ ~ exists va e, lo <= va < hi /\ pte_of (ram s) (pagetable p) va = Some e /\ pte_to_pa e = a /\ refcount (pg s a) = 1;
  um_contents : forall a k x, live s' a k -> ~ table_of (ram s) (pagetable p) a -> covers a k x -> ram s' x = ram s x;
  um_refs : forall a k, live s a k -> (forall va e, lo <= va < hi -> pte_of (ram s) (pagetable p) va = Some e -> pte_to_pa e <> a) -> refcount (pg s' a) = refcount (pg s a);
  um_shared : forall va e, lo <= va < hi -> pte_of (ram s) (pagetable p) va = Some e -> 1 < refcount (pg s (pte_to_pa e)) -> refcount (pg s' (pte_to_pa e)) = refcount (pg s (pte_to_pa e)) - 1
}.

Lemma unmapped_none p lo hi s : uspace p s -> (forall va, lo <= va < hi -> pte_of (ram s) (pagetable p) va = None) -> unmapped p lo hi s s.
Proof.
  intros Hs Hn. split; try done.
  - intros va Hva. case_decide; [by apply Hn|done].
  - intros a k. split; [|by intros [? _]]. intros Ha. split; [done|]. intros (va & e & Hva & He & _). rewrite Hn in He by done. done.
  - intros va e Hva He. rewrite Hn in He by done. done.
Qed.

Lemma unmapped_trans p lo mid hi s1 s2 s3 : uspace p s1 -> 0 <= lo -> lo <= mid -> mid <= hi -> hi <= TRAPFRAME -> mid mod 4096 = 0 -> unmapped p lo mid s1 s2 -> unmapped p mid hi s2 s3 -> unmapped p lo hi s1 s3.
Proof.
  intros Hs H0 H1 H2 H3 Hal [Hsp1 Hp1 Ht1 Hl1 Hc1 Hr1 Hsh1] [Hsp2 Hp2 Ht2 Hl2 Hc2 Hr2 Hsh2]. assert (TRAPFRAME <= MAX_VA) as Htm by done.
  assert (forall va, mid <= va < hi -> pte_of (ram s2) (pagetable p) va = pte_of (ram s1) (pagetable p) va) as Hq by (intros va Hva; rewrite Hp1 by lia; by rewrite decide_False by lia).
  (* a page of one part is not mapped in the other *)
  assert (forall va e va' e', lo <= va < mid -> mid <= va' < hi -> pte_of (ram s1) (pagetable p) va = Some e -> pte_of (ram s1) (pagetable p) va' = Some e' -> pte_to_pa e <> pte_to_pa e') as Hinj.
  { intros va e va' e' Hva Hva' He He' Heq. pose proof (us_inj _ _ Hs va e va' e' ltac:(lia) ltac:(lia) He He' Heq). mlia. }
  assert (forall va e, mid <= va < hi -> pte_of (ram s1) (pagetable p) va = Some e -> refcount (pg s2 (pte_to_pa e)) = refcount (pg s1 (pte_to_pa e))) as Hrf.
  { intros va e Hva He. destruct (us_user _ _ Hs va e ltac:(lia) He) as [Hl _]. apply (Hr1 _ 0); [done|]. intros va' e' Hva' He'. by apply (Hinj va' e' va e). }
  split; [done| | | | | |].
  - intros va Hva. rewrite Hp2 by done. destruct (decide (mid <= va < hi)); [by rewrite decide_True by lia|]. rewrite Hp1 by done. destruct (decide (lo <= va < mid)); [by rewrite decide_True by lia|by rewrite decide_False by lia].
  - intros t. by rewrite Ht2, Ht1.
  - intros a k. rewrite Hl2, Hl1. split.
    + intros ((Ha & Hn1) & Hn2). split; [done|]. intros (va & e & Hva & He & Hpa & Hrc). destruct (decide (va < mid)); [apply Hn1; exists va, e; split_and!; (done || lia)|]. apply Hn2. exists va, e. split; [lia|]. split; [by rewrite Hq by lia|]. split; [done|]. subst a. rewrite (Hrf va) by (done || lia). done.
    + intros [Ha Hn]. split; [split; [done|]|].
      * intros (va & e & Hva & He & Hpa & Hrc). apply Hn. exists va, e. split_and!; (done || lia).
      * intros (va & e & Hva & He & Hpa & Hrc). apply Hn. rewrite Hq in He by lia. exists va, e. split_and!; try (done || lia). subst a. by rewrite (Hrf va) in Hrc by (done || lia).
  - intros a k x Ha Hnt Hx. rewrite (Hc2 a k x Ha); [|by rewrite Ht1|done]. apply (Hc1 a k x); [by apply Hl2 in Ha as [? _]|done|done].
  - intros a k Ha Hn. assert (live s2 a k) as Ha2. { apply Hl1. split; [done|]. intros (va & e & Hva & He & Hpa & _). by apply (Hn va e ltac:(lia)). }
    rewrite (Hr2 a k Ha2), (Hr1 a k Ha); [done|intros va e Hva; apply Hn; lia|]. intros va e Hva He. rewrite Hq in He by lia. apply (Hn va); [lia|done].
  - intros va e Hva He Hrc. destruct (us_user _ _ Hs va e ltac:(lia) He) as [Hl _]. destruct (decide (va < mid)).
    + assert (live s2 (pte_to_pa e) 0) as Hl'. { apply Hl1. split; [done|]. intros (va' & e' & _ & _ & _ & ?). lia. }
      rewrite (Hr2 _ 0 Hl'), (Hsh1 va e); [done|lia|done|done|]. intros va' e' Hva' He' Heq. rewrite Hq in He' by lia. apply (Hinj va e va' e'); try done. lia.
    + rewrite (Hsh2 va e); [|lia|by rewrite Hq by lia|by rewrite (Hrf va) by (done || lia)]. by rewrite (Hrf va) by (done || lia).
Qed.

(** Giving a page back leaves the tables alone. *)
Section drop.
Context (p : aspace) (s s1 : kmem) (va e u : Z) (Hs : uspace p s) (Hva : 0 <= va < TRAPFRAME) (Hal : va mod 4096 = 0).
Context (Hu : table_at (ram s) (pagetable p) (path va) = Some u) (He : entry (ram s) u (PX 0 va) = e) (HV : has e PTE_V = true).
Context (Hi1 : kalloc_inv s1) (Hl1 : forall a k, live s1 a k <-> live s a k /\ ~ (a = pte_to_pa e /\ refcount (pg s (pte_to_pa e)) = 1)).
Context (Hr1 : 1 < refcount (pg s (pte_to_pa e)) -> refcount (pg s1 (pte_to_pa e)) = refcount (pg s (pte_to_pa e)) - 1 /\ ram s1 = ram s).
Context (Hk1 : forall a k x, live s a k -> a <> pte_to_pa e -> covers a k x -> ram s1 x = ram s x /\ refcount (pg s1 a) = refcount (pg s a)).
Let root := pagetable p.

Lemma drop_mapped : pte_of (ram s) root va = Some e.
Proof using Hu He HV. unfold pte_of, root. by rewrite Hu, He, HV. Qed.

Lemma drop_tables : forall t, table_of (ram s) root t -> is_table s1 t /\ forall x, t <= x < t + 4096 -> ram s1 x = ram s x.
Proof using All.
  intros t (q & Hq & Ht). destruct (pt_table _ _ (us_pt _ _ Hs) q t Hq Ht) as [Hlt Hrt]. destruct (us_user _ _ Hs va e Hva drop_mapped) as (_ & Hnt & _).
  assert (t <> pte_to_pa e) as Hne by (intros ->; apply Hnt; by exists q). split; [split|].
  - apply Hl1. split; [done|]. by intros [? _].
  - destruct (Hk1 t 0 t Hlt Hne) as [_ ->]; [by apply covers_self|done].
  - intros x Hx. apply (Hk1 t 0 x Hlt Hne). unfold covers. by change (bsz 0) with 4096.
Qed.

Lemma drop_ok : unmapped p va (va + 4096) s (with_leaf s1 va u 0).
Proof using All.
  pose proof Hs as []. pose proof drop_mapped as Hm. pose proof drop_tables as Hk. destruct (us_user va e Hva Hm) as (Hl & Hnt & _). assert (TRAPFRAME <= MAX_VA) as Htm by done. assert (0 <= va < MAX_VA) as Hvm by lia.
  pose proof (keep_pt_ok s s1 root us_pt Hk) as Hpt1. assert (table_at (ram s1) root (path va) = Some u) as Hu1 by (rewrite (keep_tables s s1 root Hk); [done|apply path_valid]).
  assert (0 <= 0 < 2 ^ 64) as H64 by done. pose proof (leaf_step s1 root va u 0 Hi1 Hpt1 Hvm Hu1 H64) as Hst. pose proof (leaf_pte_of s1 root va u 0 Hi1 Hpt1 Hvm Hu1 H64) as Hpte. pose proof (leaf_table_of s1 root va u 0 Hi1 Hpt1 Hvm Hu1 H64) as Hto.
  change (has 0 PTE_V) with false in Hpte. cbv iota in Hpte. set (s2 := with_leaf s1 va u 0) in *.
  assert (forall va', 0 <= va' < MAX_VA -> pte_of (ram s2) root va' = if decide (va <= va' < va + 4096) then None else pte_of (ram s) root va') as Hp.
  { intros va' Hva'. rewrite Hpte by done. destruct (decide (va' / 4096 = va / 4096)); [by rewrite decide_True by mlia|]. rewrite decide_False by mlia. by apply (keep_pte s s1 root Hk). }
  assert (forall t, table_of (ram s2) root t <-> table_of (ram s) root t) as Ht by (intros t; rewrite Hto; by apply (keep_table_of s s1 root Hk)).
  assert (forall va' e', 0 <= va' < TRAPFRAME -> pte_of (ram s2) root va' = Some e' -> pte_of (ram s) root va' = Some e' /\ pte_to_pa e' <> pte_to_pa e) as Hoth.
  { intros va' e' Hva' He'. rewrite Hp in He' by lia. destruct (decide (va <= va' < va + 4096)); [done|]. split; [done|]. intros Heq. pose proof (us_inj va' e' va e Hva' Hva He' Hm Heq). mlia. }
  assert (forall a k, live s2 a k <-> live s1 a k) as Hl2 by done.
  assert (forall va' e', va <= va' < va + 4096 -> pte_of (ram s) root va' = Some e' -> e' = e) as Hsame. { intros va' e' Hva' He'. rewrite (pte_of_page _ _ va' va) in He' by mlia. congruence. }
  split; [split|..]; try done.
  - apply Hst.
  - apply Hst.
  - intros va' e' Hva' He'. destruct (Hoth va' e' Hva' He') as [He0 Hne]. destruct (us_user va' e' Hva' He0) as (Hl' & Hnt' & Hr'). split_and!; [|by intros ?%Ht|lia..]. apply Hl2, Hl1. split; [done|]. by intros [? _].
  - intros va' e' Hva' He'. assert (0 <= TRAPFRAME) by done. rewrite Hp in He' by lia. destruct (decide (va <= va' < va + 4096)); [done|]. by apply (us_kernel va').
  - intros va1 e1 va2 e2 Hv1 Hv2 He1 He2. destruct (Hoth va1 e1 Hv1 He1) as [? _], (Hoth va2 e2 Hv2 He2) as [? _]. by apply us_inj.
  - intros va' e' Hva' He' Hw. destruct (Hoth va' e' Hva' He') as [He0 Hne]. destruct (us_user va' e' Hva' He0) as (Hl' & _). change (pg s2 (pte_to_pa e')) with (pg s1 (pte_to_pa e')). destruct (Hk1 (pte_to_pa e') 0 (pte_to_pa e') Hl' Hne) as [_ ->]; [by apply covers_self|]. by apply (us_cow va').
  - intros a k. rewrite Hl2, Hl1. split.
    + intros [Ha Hn]. split; [done|]. intros (va' & e' & Hva' & He' & Hpa & Hrc). rewrite (Hsame va' e' Hva' He') in Hpa. apply Hn. by subst a.
    + intros [Ha Hn]. split; [done|]. intros [-> Hrc]. apply Hn. exists va, e. split_and!; (done || lia).
  - intros a k x Ha Hnta Hx. apply Hl2 in Ha. rewrite (pg_frame _ _ _ Hst a k x Ha); [|by rewrite (keep_table_of s s1 root Hk)|done]. apply Hl1 in Ha as [Ha Hn].
    destruct (decide (a = pte_to_pa e)) as [->|Hne]; [|by apply (Hk1 a k)]. destruct (decide (refcount (pg s (pte_to_pa e)) = 1)); [by destruct Hn|]. destruct Hl as (_ & _ & Hpos & _). destruct Hr1 as [_ ->]; [lia|done].
  - intros a k Ha Hn. change (pg s2 a) with (pg s1 a). destruct (pal_block (PageAllocator:=buddy_allocator) s a k us_inv Ha) as [? _]. apply (Hk1 a k a Ha); [|apply covers_self; lia]. intros ->. apply (Hn va e); [lia|done|done].
  - intros va' e' Hva' He' Hrc. rewrite (Hsame va' e' Hva' He') in *. by apply Hr1.
Qed.
End drop.

Lemma free_page_spec p va s : uspace p s -> 0 <= va < TRAPFRAME -> va mod 4096 = 0 -> wp (free_page_at (pagetable p) va) (fun r s' => r = true /\ unmapped p va (va + 4096) s s') s.
Proof.
  intros Hs Hva Hal. assert (TRAPFRAME <= MAX_VA) as Htm by done. unfold free_page_at. apply wp_bind. apply (walk_entry (inv:=kalloc_inv) p s va); [done|lia| |].
  - intros Hn. rewrite Z.eqb_refl. wp_steps. split; [done|]. apply unmapped_none; [done|]. intros va' Hva'. rewrite <- Hn. apply pte_of_page. mlia.
  - intros u Hu Hnz. pose proof Hs as []. destruct (Z.eqb_spec (u + 8 * PX 0 va) NULL) as [|_]; [done|]. destruct (leaf_dram s (pagetable p) va u us_inv us_pt Hu) as (? & ? & ? & ? & Hidx). unfold idx_ok in Hidx.
    apply wp_bind, wp_load64; [lia..|]. fold (entry (ram s) u (PX 0 va)). destruct (has (entry (ram s) u (PX 0 va)) PTE_V) eqn:HV; cbn [negb]; cycle 1.
    { wp_steps. split; [done|]. apply unmapped_none; [done|]. intros va' Hva'. rewrite (pte_of_page _ _ va' va) by mlia. unfold pte_of. by rewrite Hu, HV. }
    set (e := entry (ram s) u (PX 0 va)) in *. assert (pte_of (ram s) (pagetable p) va = Some e) as Hm by (unfold pte_of; rewrite Hu; fold e; by rewrite HV). destruct (us_user va e Hva Hm) as (Hl & _).
    destruct (page_put_correct s (pte_to_pa e) us_inv Hl) as (s1 & E & Hi1 & Hl1 & Hr1 & Hk1). apply wp_bind. apply (wp_intro _ _ _ _ _ E). assert (table_at (ram s1) (pagetable p) (path va) = Some u) as Hu1.
    { rewrite (keep_tables s s1 (pagetable p)); [done|by eapply drop_tables|apply path_valid]. }
    pose proof (keep_pt_ok s s1 (pagetable p) us_pt ltac:(by eapply drop_tables)) as Hpt1. destruct (leaf_dram s1 (pagetable p) va u Hi1 Hpt1 Hu1) as (? & ? & _).
    apply wp_bind, wp_store64; [lia..|]. wp_steps. split; [done|]. by apply (drop_ok p s s1 va e u).
Qed.

Lemma free_pages_spec p hi : 0 <= hi <= TRAPFRAME -> hi mod 4096 = 0 -> forall n va s, uspace p s -> 0 <= va -> va mod 4096 = 0 -> va + 4096 * Z.of_nat n = hi ->
  wp (for_pages n va hi (free_page_at (pagetable p))) (fun _ s' => unmapped p va hi s s') s.
Proof.
  intros Hhi Hha. induction n as [|n IH]; intros va s Hs Hva Hal Hn; cbn [for_pages].
  - destruct (Z.ltb_spec va hi); [lia|]. wp_steps. apply unmapped_none; [done|]. intros va' ?. lia.
  - destruct (Z.ltb_spec va hi); [|lia]. apply wp_bind. eapply wp_mono; [apply free_page_spec; (done || lia)|]. intros r s1 [-> Hu]. assert (TRAPFRAME = 2 ^ 38 - 8192) as Htf by done.
    rewrite PG_SIZE_val, u64_small by lia. eapply wp_mono; [apply IH; [apply Hu|lia|mlia|lia]|]. intros r s2 Hu2. apply (unmapped_trans p va (va + 4096) hi s s1); (done || lia || mlia).
Qed.

(** * The heap in the list of VMAs *)
Definition is_heap (v : vma) : bool := negb (Z.land (vflags v) VMA_HEAP =? 0).
(** The heap, what lies below it, and what lies above it and above all it may reach. *)
Record heap_layout (p : aspace) (v : vma) (l1 l2 : list vma) : Prop := {
  hl_list : vma_list p = l1 ++ v :: l2;
  hl_heap : is_heap v = true;
  hl_below : Forall (fun w => is_heap w = false /\ end_ w <= start v) l1;
  hl_above : Forall (fun w => HEAP_MAX <= start w) l2;
  hl_range : start v <= end_ v <= HEAP_MAX
}.
(** Every mapped page belongs to a VMA. *)
Definition covered (p : aspace) (s : kmem) : Prop := forall va e, 0 <= va < TRAPFRAME -> pte_of (ram s) (pagetable p) va = Some e -> is_Some (vma_find p va).

Lemma vma_find_some l a : is_Some (vma_find_in l a) <-> Exists (fun w => start w <= a < end_ w) l.
Proof.
  induction l as [|w l IH]; cbn [vma_find_in]; [split; [by intros [? ?]|by intros ?%Exists_nil]|]. rewrite Exists_cons, <- IH. destruct ((start w <=? a) && (a <? end_ w)) eqn:E; [split; [left; lia|by eexists]|]. split; [by right|]. intros [?|?]; [lia|done].
Qed.

Section heap.
Context (p : aspace) (v : vma) (l1 l2 : list vma) (H : heap_layout p v l1 l2).

Lemma heap_found : vma_find_by_flags p VMA_HEAP = Some v.
Proof using H.
  destruct H as [Hl Hh Hb _ _]. unfold vma_find_by_flags. rewrite Hl. clear - Hh Hb. induction Hb as [|w l [Hw _] _ IH]; cbn [app vma_by_flags]; [unfold is_heap in Hh; by rewrite Hh|]. unfold is_heap in Hw. by rewrite Hw.
Qed.
Lemma heap_moved e : vma_list (heap_to p e) = l1 ++ with_end v e :: l2.
Proof using H.
  destruct H as [Hl Hh Hb _ _]. unfold heap_to. cbn [vma_list]. rewrite Hl. clear - Hh Hb. induction Hb as [|w l [Hw _] _ IH]; cbn [app set_end]; [unfold is_heap in Hh; by rewrite Hh|]. unfold is_heap in Hw. rewrite Hw. by rewrite IH.
Qed.
Lemma heap_layout_to e : start v <= e <= HEAP_MAX -> heap_layout (heap_to p e) (with_end v e) l1 l2.
Proof using H. intros He. pose proof H as []. split; try done. apply heap_moved. Qed.

(** The VMAs cover the addresses up to the new end and the same others. *)
Lemma heap_covers e a : start v <= e <= HEAP_MAX -> is_Some (vma_find (heap_to p e) a) <-> (start v <= a < e) \/ (is_Some (vma_find p a) /\ ~ start v <= a < end_ v).
Proof using H.
  intros He. unfold vma_find. rewrite !vma_find_some, heap_moved. destruct H as [-> _ Hb Ha Hr]. rewrite !Exists_app, !Exists_cons. cbn [with_end start end_]. rewrite !Exists_exists. rewrite !Forall_forall in Hb, Ha. split.
  - intros [(w & Hw & Hwa)|[?|(w & Hw & Hwa)]]; [right|by left|right].
    + destruct (Hb w Hw) as [_ ?]. split; [left; by exists w|lia].
    + specialize (Ha w Hw). cbv beta in Ha. split; [right; right; by exists w|lia].
  - intros [?|[[(w & Hw & Hwa)|[?|(w & Hw & Hwa)]] Hn]]; [right; by left|left; by exists w|lia|right; right; by exists w].
Qed.
Lemma heap_vmas e : vma_perms_ok p -> Forall (fun v => start v mod 4096 = 0 /\ end_ v mod 4096 = 0) (vma_list p) -> start v <= e <= HEAP_MAX -> e mod 4096 = 0 ->
  vma_perms_ok (heap_to p e) /\ Forall (fun v => start v mod 4096 = 0 /\ end_ v mod 4096 = 0) (vma_list (heap_to p e)).
Proof using H.
  intros Hv Ha He Hm. unfold vma_perms_ok in *. rewrite heap_moved. rewrite (hl_list _ _ _ _ H) in Hv, Ha. assert (HEAP_MAX <= TRAPFRAME) by done. rewrite !Forall_app, !Forall_cons in *. destruct Hv as (? & (? & ? & ?) & ?), Ha as (? & (? & ?) & ?). cbn [with_end start end_ perm]. split_and!; (done || lia).
Qed.
Lemma heap_aligned : Forall (fun v => start v mod 4096 = 0 /\ end_ v mod 4096 = 0) (vma_list p) -> start v mod 4096 = 0 /\ end_ v mod 4096 = 0.
Proof using H. rewrite (hl_list _ _ _ _ H). rewrite Forall_app, Forall_cons. by intros (_ & ? & _). Qed.
Lemma heap_start : vma_perms_ok p -> 0 <= start v.
Proof using H. unfold vma_perms_ok. rewrite (hl_list _ _ _ _ H). rewrite Forall_app, Forall_cons. intros (_ & (? & _) & _). done. Qed.
End heap.

(** What an address shows, by mapping and VMA. *)
Lemma uview_cases p s va : uview p s va = match pte_of (ram s) (pagetable p) va with Some e => Some (ld8 (ram s) (pte_to_pa e + va mod 4096)) | None => if decide (is_Some (vma_find p va)) then Some 0 else None end.
Proof. unfold uview. destruct (pte_of (ram s) (pagetable p) va); [done|]. destruct (vma_find p va) as [w|]; [by rewrite decide_True by by eexists|]. rewrite decide_False by by intros [? ?]. done. Qed.

Lemma uspace_to p s v l1 l2 e : heap_layout p v l1 l2 -> uspace p s -> start v <= e <= HEAP_MAX -> e mod 4096 = 0 -> uspace (heap_to p e) s.
Proof. intros Hh [] He Hm. destruct (heap_vmas p v l1 l2 Hh e us_vmas us_aligned He Hm). by split. Qed.

Lemma grow_view p s v l1 l2 e : heap_layout p v l1 l2 -> covered p s -> end_ v <= e <= HEAP_MAX ->
  covered (heap_to p e) s /\ forall va, 0 <= va < TRAPFRAME -> uview (heap_to p e) s va = if decide (end_ v <= va < e) then Some 0 else uview p s va.
Proof.
  intros Hh Hc He. pose proof (hl_range _ _ _ _ Hh) as Hr. pose proof (heap_covers p v l1 l2 Hh e) as Hcov. split.
  - intros va x Hva Hx. apply Hcov; [lia|]. destruct (decide (start v <= va < end_ v)); [left; lia|]. right. split; [by apply (Hc va x)|done].
  - intros va Hva. rewrite !uview_cases. change (pagetable (heap_to p e)) with (pagetable p). destruct (pte_of (ram s) (pagetable p) va) as [x|] eqn:E.
    + destruct (decide (end_ v <= va < e)) as [Hin|]; [|done]. exfalso. destruct (Hc va x Hva E) as [w Hw]. destruct (vma_find_in_elem _ _ _ Hw) as [Hwl Hwr]. rewrite (hl_list _ _ _ _ Hh) in Hwl.
      pose proof (hl_below _ _ _ _ Hh) as Hb. pose proof (hl_above _ _ _ _ Hh) as Ha. rewrite Forall_forall in Hb, Ha. apply elem_of_app in Hwl as [Hwl|[->|Hwl]%elem_of_cons]; [destruct (Hb w Hwl); lia|lia|]. specialize (Ha w Hwl). cbv beta in Ha. lia.
    + specialize (Hcov va ltac:(lia)). destruct (decide (end_ v <= va < e)); [rewrite decide_True; [done|apply Hcov; left; lia]|]. destruct (decide (is_Some (vma_find p va))) as [Hs|Hs].
      * rewrite decide_True; [done|]. apply Hcov. destruct (decide (start v <= va < end_ v)); [left; lia|by right].
      * rewrite decide_False; [done|]. rewrite Hcov. intros [?|[? _]]; [|done]. apply Hs. unfold vma_find. rewrite vma_find_some, (hl_list _ _ _ _ Hh), Exists_app, Exists_cons. right. left. lia.
Qed.

Lemma shrink_view p s s' v l1 l2 e : heap_layout p v l1 l2 -> uspace p s -> covered p s -> start v <= e <= end_ v -> 0 <= start v -> unmapped p e (end_ v) s s' ->
  covered (heap_to p e) s' /\ forall va, 0 <= va < TRAPFRAME -> uview (heap_to p e) s' va = if decide (e <= va < end_ v) then None else uview p s va.
Proof.
  intros Hh Hs Hc He H0 [Hsp Hp Ht Hl Hct _ _]. pose proof (hl_range _ _ _ _ Hh) as Hr. pose proof (heap_covers p v l1 l2 Hh e) as Hcov. assert (TRAPFRAME <= MAX_VA) as Htm by done. split.
  - intros va x Hva Hx. change (pagetable (heap_to p e)) with (pagetable p) in Hx. rewrite Hp in Hx by lia. destruct (decide (e <= va < end_ v)); [done|]. apply Hcov; [lia|]. destruct (decide (start v <= va < end_ v)); [left; lia|]. right. split; [by apply (Hc va x)|done].
  - intros va Hva. rewrite !uview_cases. change (pagetable (heap_to p e)) with (pagetable p). rewrite Hp by lia. specialize (Hcov va ltac:(lia)). destruct (decide (e <= va < end_ v)) as [Hin|Hout].
    + rewrite decide_False; [done|]. rewrite Hcov. intros [?|[_ ?]]; lia.
    + destruct (pte_of (ram s) (pagetable p) va) as [x|] eqn:E.
      * destruct (us_user _ _ Hs va x Hva E) as (Hlv & Hnt & _). f_equal. unfold ld8. f_equal. apply (Hct (pte_to_pa x) 0); [|done|unfold covers; change (bsz 0) with 4096; pose proof (Z.mod_pos_bound va 4096); lia].
        apply Hl. split; [done|]. intros (va' & x' & Hva' & Hx' & Hpa & _). assert (HEAP_MAX <= TRAPFRAME) by done. pose proof (us_inj _ _ Hs va' x' va x ltac:(lia) Hva Hx' E Hpa). destruct (heap_aligned p v l1 l2 Hh (us_aligned _ _ Hs)) as [_ ?].
        assert (pte_of (ram s') (pagetable p) va' = pte_of (ram s') (pagetable p) va) as Heq by (by apply pte_of_page). rewrite !Hp in Heq by lia. rewrite decide_True, decide_False in Heq by done. congruence.
      * destruct (decide (is_Some (vma_find p va))) as [Hi|Hi].
        { rewrite decide_True; [done|]. apply Hcov. destruct (decide (start v <= va < end_ v)); [left; lia|by right]. }
        { rewrite decide_False; [done|]. rewrite Hcov. intros [?|[? _]]; [|done]. apply Hi. unfold vma_find. rewrite vma_find_some, (hl_list _ _ _ _ Hh), Exists_app, Exists_cons. right. left. lia. }
Qed.

Lemma sbrk_spec p n s v l1 l2 : uspace p s -> covered p s -> heap_layout p v l1 l2 -> - 2 ^ 63 < n < 2 ^ 63 ->
  exists r p' s', proc_sbrk p n s = Ok ((r, p'), s') /\ uspace p' s' /\ covered p' s' /\
    (n = 0 -> r = end_ v /\ p' = p /\ s' = s) /\
    (0 < n -> let e := PG_ROUND_UP (end_ v + n) in
       (HEAP_MAX < e -> r = -1 /\ p' = p /\ s' = s) /\
       (e <= HEAP_MAX -> r = end_ v /\ s' = s /\ heap_layout p' (with_end v e) l1 l2 /\ forall va, 0 <= va < TRAPFRAME -> uview p' s' va = if decide (end_ v <= va < e) then Some 0 else uview p s va)) /\
    (n < 0 -> let e := PG_ROUND_DOWN (end_ v + n) in
       (end_ v + n < start v -> r = -1 /\ p' = p /\ s' = s) /\
       (start v <= end_ v + n -> r = end_ v /\ heap_layout p' (with_end v e) l1 l2 /\ (forall va, 0 <= va < TRAPFRAME -> uview p' s' va = if decide (e <= va < end_ v) then None else uview p s va) /\
          (forall a k, live s' a k <-> live s a k /\ ~ exists va x, e <= va < end_ v /\ pte_of (ram s) (pagetable p) va = Some x /\ pte_to_pa x = a /\ refcount (pg s a) = 1))).
Proof.
  intros Hs Hc Hh Hn. pose proof (hl_range _ _ _ _ Hh) as Hr. destruct (heap_aligned p v l1 l2 Hh (us_aligned _ _ Hs)) as [Ha1 Ha2]. pose proof (heap_start p v l1 l2 Hh (us_vmas _ _ Hs)) as H0.
  assert (HEAP_MAX = 2 ^ 38 - 81920) as Ehm by done. unfold proc_sbrk. rewrite (heap_found p v l1 l2 Hh). destruct (Z.ltb_spec 0 n) as [Hpos|Hneg].
  - rewrite u64_small by lia. destruct (PG_ROUND_UP_range (end_ v + n)) as [Hu1 Hu2]; [lia..|]. destruct (Z.ltb_spec HEAP_MAX (PG_ROUND_UP (end_ v + n))) as [Hbig|Hle].
    + exists (-1), p, s. split_and!; try done; [lia| |lia]. intros _. split; [done|lia].
    + destruct (grow_view p s v l1 l2 (PG_ROUND_UP (end_ v + n)) Hh Hc ltac:(lia)) as [Hc' Hv]. exists (end_ v), (heap_to p (PG_ROUND_UP (end_ v + n))), s. split_and!; [done|apply (uspace_to p s v l1 l2); (done || lia)|done|lia| |lia].
      intros _. split; [lia|]. intros _. split_and!; [done|done|apply heap_layout_to; (done || lia)|done].
  - destruct (Z.ltb_spec n 0) as [Hlt|Hz]; [|exists (end_ v), p, s; split_and!; try done; lia]. rewrite !u64_small by lia. destruct (Z.ltb_spec (end_ v - start v) (- n)) as [Hbig|Hle].
    + exists (-1), p, s. split_and!; try done; [lia|lia|]. intros _. split; [done|lia].
    + rewrite u64_small by lia. set (e := PG_ROUND_DOWN (end_ v + n)). pose proof (PG_ROUND_DOWN_range (end_ v + n)) as Hd1. pose proof (PG_ROUND_DOWN_aligned (end_ v + n)) as Hd2. fold e in Hd1, Hd2. assert (start v <= e) as Hse by mlia. destruct (Z.ltb_spec e (start v)); [lia|].
      assert (e + 4096 * Z.of_nat (page_count e (end_ v)) = end_ v) as Hcnt. { unfold page_count. rewrite PG_SIZE_val, Z2Nat.id by mlia. mlia. }
      destruct (wp_elim _ _ _ (free_pages_spec p (end_ v) ltac:(assert (HEAP_MAX <= TRAPFRAME) by done; lia) Ha2 _ e s Hs ltac:(lia) Hd2 Hcnt)) as (ok & s' & E & Hum). destruct (shrink_view p s s' v l1 l2 e Hh Hs Hc ltac:(lia) H0 Hum) as [Hc' Hv].
      exists (end_ v), (heap_to p e), s'. split_and!; [unfold mbind, M_bind; by rewrite E|apply (uspace_to p s' v l1 l2); [done|apply Hum|lia|done]|done|lia|lia|]. intros _. split; [lia|]. intros _. split_and!; [done|apply heap_layout_to; (done || lia)|done|apply Hum].
Qed.

(** C10: [proc_sbrk] returns the old break, and -1 without any change when the heap would
    grow beyond HEAP_MAX or shrink below its start.  Growing shows zeroes up to the new
    break (rounded up) and allocates nothing; shrinking takes the addresses from the new
    break (rounded down) on out of the process and frees exactly the pages that nobody
    shares; every other address shows what it showed. *)
Theorem proc_sbrk_correct p n s v l1 l2 : uspace p s -> covered p s -> heap_layout p v l1 l2 -> - 2 ^ 63 < n < 2 ^ 63 ->
  exists r p' s', proc_sbrk p n s = Ok ((r, p'), s') /\ uspace p' s' /\ covered p' s' /\
    (n = 0 -> r = end_ v /\ p' = p /\ s' = s) /\
    (0 < n -> let e := PG_ROUND_UP (end_ v + n) in
       (HEAP_MAX < e -> r = -1 /\ p' = p /\ s' = s) /\
       (e <= HEAP_MAX -> r = end_ v /\ s' = s /\ heap_layout p' (with_end v e) l1 l2 /\ forall va, 0 <= va < TRAPFRAME -> uview p' s' va = if decide (end_ v <= va < e) then Some 0 else uview p s va)) /\
    (n < 0 -> let e := PG_ROUND_DOWN (end_ v + n) in
       (end_ v + n < start v -> r = -1 /\ p' = p /\ s' = s) /\
       (start v <= end_ v + n -> r = end_ v /\ heap_layout p' (with_end v e) l1 l2 /\ (forall va, 0 <= va < TRAPFRAME -> uview p' s' va = if decide (e <= va < end_ v) then None else uview p s va) /\
          (forall a k, live s' a k <-> live s a k /\ ~ exists va x, e <= va < end_ v /\ pte_of (ram s) (pagetable p) va = Some x /\ pte_to_pa x = a /\ refcount (pg s a) = 1))).
Proof. exact (sbrk_spec p n s v l1 l2). Qed.

(** * Witness: the heap of the demonstration process grows by one byte and shrinks by a page *)
Lemma demo_heap : covered demo_as pt_demo /\ heap_layout demo_as demo_vma [] [].
Proof.
  destruct pt_demo_facts as (_ & _ & _ & Hno). split.
  - intros va e Hva He. change (pagetable demo_as) with pt_root in He. rewrite (Hno va Hva) in He. exfalso. exact (None_ne_Some _ He).
  - split; [reflexivity|reflexivity|constructor|constructor|split; vm_compute; congruence].
Qed.
Lemma proc_sbrk_correct_witness : exists p1 p2 s2, proc_sbrk demo_as 1 pt_demo = Ok ((0x3000, p1), pt_demo) /\ uview p1 pt_demo 0x3fff = Some 0 /\ proc_sbrk demo_as (-1) pt_demo = Ok ((0x3000, p2), s2) /\ uview p2 s2 0x2000 = None.
Proof.
  destruct demo_space as [Hs _]. destruct demo_heap as [Hc Hh].
  destruct (proc_sbrk_correct demo_as 1 pt_demo demo_vma [] [] Hs Hc Hh) as (r & p1 & s1 & E & _ & _ & _ & Hg & _); [split; reflexivity|].
  destruct (Hg eq_refl) as [_ Hg2]. destruct Hg2 as (-> & -> & _ & Hv); [vm_compute; congruence|].
  destruct (proc_sbrk_correct demo_as (-1) pt_demo demo_vma [] [] Hs Hc Hh) as (r2 & p2 & s2 & E2 & _ & _ & _ & _ & Hl); [split; reflexivity|].
  destruct (Hl eq_refl) as [_ Hl2]. destruct Hl2 as (-> & _ & Hv2 & _); [vm_compute; congruence|].
  exists p1, p2, s2. split; [exact E|]. split; [exact (Hv 0x3fff ltac:(split; vm_compute; congruence))|]. split; [exact E2|]. exact (Hv2 0x2000 ltac:(split; vm_compute; congruence)).
Defined.
