(* ===== verification/ForkMem.v ===== *)
(** The memory of a process and of its child while [vma_dup_all] shares the one with the
    other, or takes it back: an invariant, and the elementary changes that keep it.

    [vma_dup_all]: the child's address space shows what the parent's does, and a failure
    leaves nothing behind. *)
From stdpp Require Import relations.
From S2P Require Import Prelude Mem Layout Kalloc Buddy KallocInv KallocAlloc KallocFree KallocSpec KallocThm Kmalloc KmallocInv KmallocProof KmallocSpec KmallocFree KmallocThm Vm VmInv VmWalk VmMap.
From S2P Require Import VmThm Vma VmaProof MemBoot VmaThm UserMem SbrkThm.

Local Abbreviation uspace := (uspace (inv:=kalloc_inv)).

(** * Changes next to the heap *)
Definition heap_same (s s' : kmem) : Prop :=
  kheap_inv s' /\ (forall c p, slab_page s' c p <-> slab_page s c p) /\ (forall x m, slab_obj s' x m <-> slab_obj s x m).

Lemma heap_frame s s' : kheap_inv s -> kalloc_inv s' -> size_classes s' = size_classes s ->
  (forall c p, slab_page s c p -> pages s' p = pages s p /\ live s' (page_to_pa p) 0 /\ forall x, page_to_pa p <= x < page_to_pa p + 4096 -> ram s' x = ram s x) -> heap_same s s'.
Proof.
  intros [Hi (sl & fr & HK)] Hi' Hsc Hf. assert (slab_inv sl fr s') as HK'.
  { eapply slab_inv_frame; [exact HK|done|]. intros c p Hc Hp. apply (Hf c p). by apply (slab_page_spec sl fr s HK). }
  split_and!; [by split; [|exists sl, fr]|intros c p; by rewrite (slab_page_spec _ _ _ HK'), (slab_page_spec _ _ _ HK)|]. intros x m. by rewrite (slab_obj_spec _ _ _ HK'), (slab_obj_spec _ _ _ HK).
Qed.

Lemma slab_page_live s c p : kheap_inv s -> slab_page s c p -> live s (page_to_pa p) 0 /\ pa_to_page (page_to_pa p) = p /\ (forall x, page_to_pa p <= x < page_to_pa p + 4096 -> covers (page_to_pa p) 0 x).
Proof.
  intros [_ (sl & fr & HK)] [Hc Hp]%(slab_page_spec sl fr s HK). pose proof (ki_slab _ _ _ HK c p Hc Hp) as Ho. split_and!; [apply Ho| |].
  - apply pa_to_page_to_pa; [apply Ho|lia].
  - intros x Hx. unfold covers. by change (bsz 0) with 4096.
Qed.

Lemma slab_obj_small s x m : kheap_inv s -> slab_obj s x m <-> obj s x m /\ m < 4096.
Proof.
  intros [Hi (sl & fr & HK)]. split.
  - intros Ho. split; [by left|]. apply (slab_obj_spec sl fr s HK) in Ho as (c & p & Hc & _ & _ & _ & ->). destruct (ssz_facts c Hc) as (? & _). lia.
  - intros [[Ho|(k & Hk & _ & ->)] Hm]; [done|]. destruct (pal_block (PageAllocator:=buddy_allocator) s x k Hi Hk) as (Hr & _). pose proof (bsz_ge k). lia.
Qed.

(** A page table grows or changes. *)
Lemma heap_pt_step root s s' : kheap_inv s -> pt_step (inv:=kalloc_inv) root s s' -> (forall t, table_of (ram s) root t -> no_slab s t) -> heap_same s s'.
Proof.
  intros Hh Hst Hns. apply heap_frame; [done|apply Hst|apply (pg_env _ _ _ Hst)|]. intros c p Hp. destruct (slab_page_live s c p Hh Hp) as (Hl & Hpp & Hcov). split_and!.
  - pose proof (pg_entries _ _ _ Hst _ 0 (page_to_pa p) Hl) as He. unfold pg in He. rewrite Hpp in He. apply He, Hcov. lia.
  - apply (pg_live _ _ _ Hst). by left.
  - intros x Hx. apply (pg_frame _ _ _ Hst _ 0 x Hl); [|by apply Hcov]. intros Ht. by apply (Hns _ Ht c p).
Qed.

(** A page gets another number of references. *)
Definition with_refs (a v : Z) (s : kmem) : kmem := set_pages (upd (pages s) (pa_to_page a) (page_set_refcount v (pg s a))) s.
Section refs.
Context (s : kmem) (a v : Z) (Hh : kheap_inv s) (Ha : live s a 0) (Hv : 0 < v < 2 ^ 16) (Hn : no_slab s a).
Lemma refs_pg b k : live s b k -> refcount (pg (with_refs a v s) b) = if decide (b = a) then v else refcount (pg s b).
Proof using Hh Ha Hv.
  intros Hb. destruct Hh as [Hi _]. destruct (pal_block (PageAllocator:=buddy_allocator) s b k Hi Hb) as (? & ? & ? & ?). destruct (pal_block (PageAllocator:=buddy_allocator) s a 0 Hi Ha) as (? & ? & ? & ?). change (bsz 0) with 4096 in *. pose proof (bsz_ge k ltac:(lia)).
  unfold pg at 1, with_refs. ksimpl. rewrite upd_case. case_decide as Hd; [rewrite decide_True; [cbn; apply u16_small; lia|]|rewrite decide_False; [done|congruence]].
  symmetry. apply pa_to_page_inj; try done; [lia|lia|]. by apply (bsz_aligned_page b k); [lia|].
Qed.
Lemma refs_live b k : live (with_refs a v s) b k <-> live s b k.
Proof using Ha Hv.
  unfold live, pg, with_refs. ksimpl. rewrite upd_case. case_decide as Hd; [|done]. cbn [page_set_refcount refcount order]. rewrite u16_small by lia. unfold pg. rewrite Hd. destruct Ha as (_ & _ & Hr & _). unfold pg in Hr. rewrite Hd in Hr. intuition lia.
Qed.
Lemma refs_heap : heap_same s (with_refs a v s).
Proof using Hh Ha Hv Hn.
  apply heap_frame; [done| |done|].
  - destruct Hh as [Hi _]. eapply (pal_client (PageAllocator:=buddy_allocator)); [exact Hi|]. split_and!; try done. intros q. pose proof (pal_u16 (PageAllocator:=buddy_allocator) s q Hi) as Hq. unfold with_refs. ksimpl. rewrite upd_case. case_decide as Hd; [|done]. cbn [page_set_refcount refcount order]. rewrite u16_small by lia. destruct Ha as (_ & _ & Hr & _). unfold pg in *. rewrite Hd in Hr |- *. split_and!; (done || lia).
  - intros c p Hp. destruct (slab_page_live s c p Hh Hp) as (Hl & Hpp & _). split_and!; [|by apply refs_live|done]. unfold with_refs. ksimpl. rewrite upd_ne; [done|]. intros Heq. apply (Hn c p Hp). destruct Hh as [Hi _].
    destruct (pal_block (PageAllocator:=buddy_allocator) s a 0 Hi Ha) as (_ & ? & ? & ?). change (bsz 0) with 4096 in *. rewrite <- Heq. by apply page_to_pa_to_page; [lia|].
Qed.
End refs.

(** * Entries of shared pages *)
Definition shared_entry (e : Z) : Z := if has e PTE_W then Z.lor (Z.land e (Z.lnot PTE_W)) PTE_COW else e.
Definition child_entry (e : Z) : Z := leaf_pte (pte_to_pa e) (pte_flags (shared_entry e)).

Lemma shared_bit e k : 0 <= k -> Z.testbit (shared_entry e) k = if decide (k = 2) then false else if decide (k = 8) then Z.testbit e 8 || Z.testbit e 2 else Z.testbit e k.
Proof.
  intros Hk. unfold shared_entry. assert (has e PTE_W = Z.testbit e 2) as Hw by (apply (has_bit e 2); lia). rewrite Hw. destruct (Z.testbit e 2) eqn:E.
  - unfold PTE_W, PTE_COW. rewrite clear_set_bits by lia. repeat case_decide; try lia; by rewrite ?orb_true_r.
  - rewrite orb_false_r. repeat case_decide; subst; done.
Qed.
Lemma shared_facts e : 0 <= e < 2 ^ 54 -> 0 <= shared_entry e < 2 ^ 54 /\ pte_to_pa (shared_entry e) = pte_to_pa e /\ has (shared_entry e) PTE_W = false /\ has (shared_entry e) PTE_V = has e PTE_V /\ has (shared_entry e) PTE_U = has e PTE_U /\
  (has e PTE_W = true -> has (shared_entry e) PTE_COW = true).
Proof.
  intros He. assert (0 <= shared_entry e < 2 ^ 54) as Hr by (unfold shared_entry; destruct (has e PTE_W); [apply lor_range; [lia|by apply land_range|done]|lia]). split; [done|]. split_and!.
  - apply pte_to_pa_bits. intros k Hk. rewrite shared_bit by lia. by repeat case_decide; try lia.
  - unfold PTE_W at 1. by rewrite has_bit, shared_bit by lia.
  - by rewrite !has_V, shared_bit by lia.
  - unfold PTE_U. by rewrite !has_bit, shared_bit by lia.
  - unfold PTE_W, PTE_COW. rewrite !has_bit, shared_bit by lia. intros Hw. rewrite decide_False, decide_True by lia. by rewrite Hw, orb_true_r.
Qed.

Lemma pte_flags_range e : 0 <= pte_flags e < 1024.
Proof. unfold pte_flags. change 0x3FF with (Z.ones 10). rewrite Z.land_ones by lia. pose proof (Z.mod_pos_bound e (2 ^ 10) ltac:(lia)). lia. Qed.
Lemma pte_flags_bit e k : 0 <= k < 10 -> Z.testbit (pte_flags e) k = Z.testbit e k.
Proof. intros Hk. unfold pte_flags. change 0x3FF with (Z.ones 10). rewrite Z.land_ones, Z.mod_pow2_bits_low by lia. done. Qed.
Lemma leaf_bit pa f k : 0 <= pa < 2 ^ 56 -> 0 <= f < 1024 -> 0 < k < 6 \/ k = 8 -> Z.testbit (leaf_pte pa f) k = Z.testbit f k.
Proof.
  intros Hpa Hf Hk. rewrite leaf_pte_eq. rewrite pte_bit_lor; [|done|apply (lor_range _ _ 10); lia|lia]. rewrite Z.lor_spec. assert (k = 1 \/ k = 2 \/ k = 3 \/ k = 4 \/ k = 5 \/ k = 8) as Hc by lia. destruct_or! Hc; subst k; change (Z.testbit 0xC1 _) with false; by rewrite orb_false_r.
Qed.
Lemma child_entry_facts e : 0 <= e < 2 ^ 54 -> 0 <= pte_to_pa e < 2 ^ 56 -> pte_to_pa e mod 4096 = 0 ->
  0 <= child_entry e < 2 ^ 54 /\ pte_to_pa (child_entry e) = pte_to_pa e /\ has (child_entry e) PTE_W = false /\ has (child_entry e) PTE_U = has e PTE_U /\ has (child_entry e) PTE_COW = has (shared_entry e) PTE_COW.
Proof.
  intros He Hpa Hal. pose proof (pte_flags_range (shared_entry e)) as Hf. destruct (shared_facts e He) as (_ & _ & Hw & _ & Hu & _). unfold child_entry.
  assert (0 <= leaf_pte (pte_to_pa e) (pte_flags (shared_entry e)) < 2 ^ 54) as Hr by (rewrite leaf_pte_eq; apply pte_range_lor; [done|]; apply (lor_range _ _ 10); lia). split; [done|]. split_and!.
  - by apply leaf_pte_pa.
  - unfold PTE_W in *. rewrite has_bit in Hw |- * by lia. by rewrite leaf_bit, pte_flags_bit by (done || lia).
  - unfold PTE_U in *. rewrite has_bit in Hu |- * by lia. by rewrite leaf_bit, pte_flags_bit by (done || lia).
  - unfold PTE_COW. rewrite !has_bit by lia. by rewrite leaf_bit, pte_flags_bit by (done || lia).
Qed.

(** * The invariant

    [s0] is the state at the call: the parent's address space [src] and an empty page
    table [dpt] for the child. *)
Record fork_start (src : aspace) (dpt : Z) (s0 : kmem) : Prop := {
  fs_heap : kheap_inv s0;
  fs_src : uspace src s0;
  fs_dpt : pt_ok s0 dpt;
  fs_empty : forall va, 0 <= va < TRAPFRAME -> pte_of (ram s0) dpt va = None;
  fs_kernel : forall va e, TRAPFRAME <= va < MAX_VA -> pte_of (ram s0) dpt va = Some e -> has e PTE_U = false;
  fs_apart : forall t, table_of (ram s0) dpt t -> ~ table_of (ram s0) (pagetable src) t /\ forall va e, 0 <= va < TRAPFRAME -> pte_of (ram s0) (pagetable src) va = Some e -> pte_to_pa e <> t;
  fs_tables : forall t, table_of (ram s0) (pagetable src) t \/ table_of (ram s0) dpt t -> no_slab s0 t;
  fs_pages : forall va e, 0 <= va < TRAPFRAME -> pte_of (ram s0) (pagetable src) va = Some e -> no_slab s0 (pte_to_pa e) /\ refcount (pg s0 (pte_to_pa e)) + 1 < 2 ^ 16
}.

Section sharing.
Context (src : aspace) (dpt : Z) (s0 : kmem) (H0 : fork_start src dpt s0).
Local Abbreviation spt := (pagetable src).

(** [R] are the pages with one reference more. *)
Record sharing (R : Z -> bool) (s : kmem) : Prop := {
  sh_heap : kheap_inv s;
  sh_spt : pt_ok s spt;
  sh_dpt : pt_ok s dpt;
  sh_stab : forall t, table_of (ram s) spt t <-> table_of (ram s0) spt t;
  sh_dtab : forall t, table_of (ram s) dpt t -> table_of (ram s0) dpt t \/ forall k, live s0 t k -> ~ no_slab s0 t;
  sh_src : forall va, 0 <= va < TRAPFRAME -> pte_of (ram s) spt va = pte_of (ram s0) spt va \/ pte_of (ram s) spt va = shared_entry <$> pte_of (ram s0) spt va;
  sh_done : forall va, 0 <= va < TRAPFRAME -> R (va / 4096) = true -> pte_of (ram s) spt va = shared_entry <$> pte_of (ram s0) spt va;
  sh_dst : forall va e', 0 <= va < TRAPFRAME -> pte_of (ram s) dpt va = Some e' ->
    exists e, pte_of (ram s0) spt va = Some e /\ pte_of (ram s) spt va = Some (shared_entry e) /\ e' = child_entry e;
  sh_kernel : forall va, TRAPFRAME <= va < MAX_VA -> pte_of (ram s) spt va = pte_of (ram s0) spt va /\ pte_of (ram s) dpt va = pte_of (ram s0) dpt va;
  sh_live : forall a k, live s0 a k -> no_slab s0 a -> live s a k /\ no_slab s a;
  sh_refs : forall va e, 0 <= va < TRAPFRAME -> pte_of (ram s0) spt va = Some e ->
    refcount (pg s (pte_to_pa e)) = refcount (pg s0 (pte_to_pa e)) + (if R (va / 4096) then 1 else 0);
  sh_other : forall a k, live s0 a k -> no_slab s0 a -> (forall va e, 0 <= va < TRAPFRAME -> pte_of (ram s0) spt va = Some e -> pte_to_pa e <> a) ->
    refcount (pg s a) = refcount (pg s0 a);
  sh_ram : forall a k x, live s0 a k -> no_slab s0 a -> ~ table_of (ram s0) spt a -> ~ table_of (ram s0) dpt a -> covers a k x -> ram s x = ram s0 x;
  sh_slab : forall t, table_of (ram s) dpt t -> no_slab s t;
  sh_new : forall a k, live s a k -> live s0 a k \/ (k = 0 /\ (table_of (ram s) dpt a \/ exists c p, slab_page s c p /\ page_to_pa p = a))
}.

(** Pages and tables of the parent. *)
Lemma start_table t : table_of (ram s0) spt t -> live s0 t 0 /\ no_slab s0 t.
Proof using H0. intros Ht. split; [|apply (fs_tables _ _ _ H0); by left]. destruct Ht as (q & Hq & Ht). by apply (pt_table _ _ (us_pt _ _ (fs_src _ _ _ H0)) q t). Qed.
Lemma start_page va e : 0 <= va < TRAPFRAME -> pte_of (ram s0) spt va = Some e ->
  live s0 (pte_to_pa e) 0 /\ no_slab s0 (pte_to_pa e) /\ ~ table_of (ram s0) spt (pte_to_pa e) /\ ~ table_of (ram s0) dpt (pte_to_pa e) /\ 0 <= e < 2 ^ 54 /\ KERN_BASE <= pte_to_pa e < PHYS_STOP /\ pte_to_pa e mod 4096 = 0 /\ 0 < refcount (pg s0 (pte_to_pa e)) < 2 ^ 16 - 1.
Proof using H0.
  intros Hva He. destruct (us_user _ _ (fs_src _ _ _ H0) va e Hva He) as (Hl & Hnt & Hr). destruct (fs_pages _ _ _ H0 va e Hva He) as [Hns Hrc]. pose proof Hl as (_ & _ & Hp & _).
  destruct (pal_block (PageAllocator:=buddy_allocator) s0 _ 0 (proj1 (fs_heap _ _ _ H0)) Hl) as (_ & Hal & ? & ?). change (bsz 0) with 4096 in *.
  split; [done|]. split; [done|]. split; [done|]. split; [intros Ht; by apply (proj2 (fs_apart _ _ _ H0 _ Ht) va e)|]. split; [done|]. split_and!; (done || lia).
Qed.
Lemma start_inj va e va' e' : 0 <= va < TRAPFRAME -> 0 <= va' < TRAPFRAME -> pte_of (ram s0) spt va = Some e -> pte_of (ram s0) spt va' = Some e' -> pte_to_pa e = pte_to_pa e' -> va / 4096 = va' / 4096.
Proof using H0. intros. by apply (us_inj _ _ (fs_src _ _ _ H0) va e va' e'). Qed.

Lemma start_sharing : sharing (fun _ => false) s0.
Proof using H0.
  destruct H0. split; try done; [apply fs_src0|by left|by left| | |intros t Ht; by apply fs_tables0; right|by left].
  - intros va e' Hva He. by rewrite fs_empty0 in He.
  - intros va e Hva He. lia.
Qed.

(** The tables of the child are none of the parent's, and none of its pages. *)
Lemma child_table R s t : sharing R s -> table_of (ram s) dpt t -> ~ table_of (ram s0) spt t /\ forall va e, 0 <= va < TRAPFRAME -> pte_of (ram s0) spt va = Some e -> pte_to_pa e <> t.
Proof using H0.
  intros Hs Ht. destruct (sh_dtab _ _ Hs t Ht) as [Ht0|Hn]; [by apply (fs_apart _ _ _ H0)|]. split.
  - intros Hst. destruct (start_table t Hst) as [Hl Hns]. by apply (Hn 0).
  - intros va e Hva He <-. destruct (start_page va e Hva He) as (Hl & Hns & _). by apply (Hn 0).
Qed.

(** What a process sees does not depend on how far the sharing is. *)
Lemma shared_page R s va e : sharing R s -> 0 <= va < TRAPFRAME -> pte_of (ram s) spt va = Some e -> exists e0, pte_of (ram s0) spt va = Some e0 /\ pte_to_pa e = pte_to_pa e0 /\ 0 <= e < 2 ^ 54 /\ (has e PTE_W = true -> e = e0 /\ R (va / 4096) = false) /\ has e PTE_U = has e0 PTE_U.
Proof using H0.
  intros Hs Hva He. pose proof (sh_src _ _ Hs va Hva) as Hor. rewrite He in Hor. destruct (pte_of (ram s0) spt va) as [e0|] eqn:E0; [|by destruct Hor].
  destruct (start_page va e0 Hva E0) as (_ & _ & _ & _ & Hr & _). destruct (shared_facts e0 Hr) as (Hr' & Hpa & Hw & _ & HU & _). exists e0. split; [done|].
  assert (e = e0 \/ e = shared_entry e0) as [-> | ->] by (destruct Hor as [H|H]; injection H; auto).
  - split; [done|]. split; [done|]. split; [|done]. intros Hw0. split; [done|]. destruct (R (va / 4096)) eqn:ER; [|done]. pose proof (sh_done _ _ Hs va Hva ER) as Hd. rewrite He, E0 in Hd. injection Hd as Hd. rewrite <- Hd in Hw. by rewrite Hw in Hw0.
  - split; [done|]. split; [done|]. split; [|done]. by rewrite Hw.
Qed.

Lemma sharing_parent R s : sharing R s -> uspace src s.
Proof using H0.
  intros Hs. pose proof (fs_src _ _ _ H0) as Hu. split; [apply (sh_heap _ _ Hs)|by apply Hs| |by apply Hu|by apply Hu| | |].
  - intros va e Hva He. destruct (shared_page R s va e Hs Hva He) as (e0 & He0 & -> & Hr & _). destruct (start_page va e0 Hva He0) as (Hl & Hns & Hnt & _). split_and!; [by apply (sh_live _ _ Hs)|by rewrite (sh_stab _ _ Hs)|lia..].
  - intros va e Hva He. destruct (sh_kernel _ _ Hs va Hva) as [Hk _]. rewrite Hk in He. by apply (us_kernel _ _ Hu va).
  - intros va e va' e' Hva Hva' He He' Hpa. destruct (shared_page R s va e Hs Hva He) as (e0 & He0 & Hp0 & _). destruct (shared_page R s va' e' Hs Hva' He') as (e1 & He1 & Hp1 & _). apply (start_inj va e0 va' e1); try done. congruence.
  - intros va e Hva He Hw. destruct (shared_page R s va e Hs Hva He) as (e0 & He0 & Hp0 & _ & Hwr & _). destruct (Hwr Hw) as [-> HR]. rewrite (sh_refs _ _ Hs va e0 Hva He0), HR. rewrite (us_cow _ _ Hu va e0 Hva He0 Hw). lia.
Qed.

Lemma sharing_child R s l : sharing R s -> vma_perms_ok (mk_aspace dpt l) -> Forall (fun v => start v mod 4096 = 0 /\ end_ v mod 4096 = 0) l -> uspace (mk_aspace dpt l) s.
Proof using H0.
  intros Hs Hp Hal. split; [apply (sh_heap _ _ Hs)|by apply Hs| |done|done| | |]; cbn [pagetable].
  - intros va e' Hva He'. destruct (sh_dst _ _ Hs va e' Hva He') as (e & He & _ & ->). destruct (start_page va e Hva He) as (Hl & Hns & Hnt & Hnd & Hr & ? & Hpal & _). destruct (child_entry_facts e Hr) as (Hcr & Hpa & _); [klia|done|]. rewrite Hpa.
    split_and!; [by apply (sh_live _ _ Hs)| |lia..]. intros Ht. by apply (proj2 (child_table R s _ Hs Ht) va e).
  - intros va e Hva He. destruct (sh_kernel _ _ Hs va Hva) as [_ Hk]. rewrite Hk in He. by apply (fs_kernel _ _ _ H0 va).
  - intros va e' va' e'' Hva Hva' He' He'' Heq. destruct (sh_dst _ _ Hs va e' Hva He') as (e & He & _ & ->). destruct (sh_dst _ _ Hs va' e'' Hva' He'') as (e1 & He1 & _ & ->).
    destruct (start_page va e Hva He) as (_ & _ & _ & _ & Hr & ? & Hpal & _). destruct (start_page va' e1 Hva' He1) as (_ & _ & _ & _ & Hr1 & ? & Hpal1 & _). destruct (child_entry_facts e Hr) as (_ & Hpa & _); [klia|done|]. destruct (child_entry_facts e1 Hr1) as (_ & Hpa1 & _); [klia|done|].
    apply (start_inj va e va' e1); try done. congruence.
  - intros va e' Hva He' Hw. destruct (sh_dst _ _ Hs va e' Hva He') as (e & He & _ & ->). destruct (start_page va e Hva He) as (_ & _ & _ & _ & Hr & ? & Hpal & _). destruct (child_entry_facts e Hr) as (_ & _ & Hcw & _); [klia|done|]. by rewrite Hcw in Hw.
Qed.

(** ** The elementary changes *)

(** A page table that another one's step does not touch. *)
Lemma foreign_table root root' s s' : pt_ok s root' -> pt_step (inv:=kalloc_inv) root s s' -> (forall t, table_of (ram s) root' t -> ~ table_of (ram s) root t) ->
  forall t, table_of (ram s) root' t -> is_table s' t /\ forall x, t <= x < t + 4096 -> ram s' x = ram s x.
Proof using Type.
  intros Hpt Hst Hn t Ht. pose proof Ht as (q & Hq & Htt). destruct (pt_table _ _ Hpt q t Hq Htt) as [Hl Hr]. assert (forall x, t <= x < t + 4096 -> covers t 0 x) as Hc by (intros x Hx; unfold covers; by change (bsz 0) with 4096).
  split; [split|].
  - apply (pg_live _ _ _ Hst). by left.
  - by rewrite (pg_entries _ _ _ Hst t 0 t) by (done || apply Hc; lia).
  - intros x Hx. apply (pg_frame _ _ _ Hst t 0 x); [done|by apply Hn|by apply Hc].
Qed.
Lemma step_refs root s s' a k : kheap_inv s -> pt_step (inv:=kalloc_inv) root s s' -> live s a k -> refcount (pg s' a) = refcount (pg s a).
Proof using Type. intros [Hi _] Hst Hl. destruct (pal_block (PageAllocator:=buddy_allocator) s a k Hi Hl) as [? _]. rewrite (pg_entries _ _ _ Hst a k a); [done|done|apply covers_self; lia]. Qed.
Lemma same_no_slab s s' a : heap_same s s' -> no_slab s a -> no_slab s' a.
Proof using Type. intros (_ & Hsl & _) Hn c p Hp. by apply (Hn c p), Hsl. Qed.

(** The parent's entry of a page is marked. *)
Lemma sharing_src_step R s s' : sharing R s -> pt_step (inv:=kalloc_inv) spt s s' -> (forall t, table_of (ram s') spt t <-> table_of (ram s) spt t) -> (forall a k, live s' a k <-> live s a k) ->
  (forall va, 0 <= va < TRAPFRAME -> pte_of (ram s') spt va = pte_of (ram s) spt va \/ pte_of (ram s') spt va = shared_entry <$> pte_of (ram s0) spt va) ->
  (forall va, TRAPFRAME <= va < MAX_VA -> pte_of (ram s') spt va = pte_of (ram s) spt va) -> sharing R s' /\ (forall x m, slab_obj s' x m <-> slab_obj s x m) /\ forall va, pte_of (ram s') dpt va = pte_of (ram s) dpt va.
Proof using H0.
  intros Hs Hst Htab Hlv Hsrc Hkern. pose proof Hs as [].
  assert (forall t, table_of (ram s) spt t -> no_slab s t) as Hns by (intros t Ht; apply sh_stab0 in Ht; destruct (start_table t Ht); by apply (sh_live0 t 0)).
  pose proof (heap_pt_step spt s s' sh_heap0 Hst Hns) as Hhs. pose proof Hhs as (Hh' & Hsl & Hob).
  assert (forall t, table_of (ram s) dpt t -> ~ table_of (ram s) spt t) as Hap by (intros t Ht Ht'; apply sh_stab0 in Ht'; by apply (child_table R s t Hs Ht)).
  pose proof (foreign_table spt dpt s s' sh_dpt0 Hst Hap) as Hk. pose proof (keep_pte s s' dpt Hk) as Hd. pose proof (keep_table_of s s' dpt Hk) as Hdt.
  assert (forall va, 0 <= va < TRAPFRAME -> pte_of (ram s) spt va = shared_entry <$> pte_of (ram s0) spt va -> pte_of (ram s') spt va = shared_entry <$> pte_of (ram s0) spt va) as Hmono by (intros va Hva E; destruct (Hsrc va Hva) as [->|?]; done).
  split; [|done]. split; try done.
  - apply Hst.
  - by eapply keep_pt_ok.
  - intros t. by rewrite Htab.
  - intros t Ht%Hdt. by apply sh_dtab0.
  - intros va Hva. destruct (Hsrc va Hva) as [->|?]; [by apply sh_src0|by right].
  - intros va Hva HR. by apply Hmono, sh_done0.
  - intros va e' Hva He'. rewrite Hd in He'. destruct (sh_dst0 va e' Hva He') as (e & He & Hse & ->). exists e. split_and!; try done. rewrite Hmono by (done || by rewrite He, Hse). by rewrite He.
  - intros va Hva. rewrite Hd, Hkern by done. by apply sh_kernel0.
  - intros a k Ha Hn. destruct (sh_live0 a k Ha Hn) as [Hl Hn']. split; [by apply Hlv|by eapply same_no_slab].
  - intros va e Hva He. destruct (start_page va e Hva He) as (Hl & Hn & _). destruct (sh_live0 _ _ Hl Hn) as [Hl' _]. rewrite (step_refs spt s s' _ 0) by done. by apply sh_refs0.
  - intros a k Ha Hn Hp. destruct (sh_live0 a k Ha Hn) as [Hl' _]. rewrite (step_refs spt s s' a k) by done. by apply (sh_other0 a k).
  - intros a k x Ha Hn Hnt Hnd Hx. rewrite (pg_frame _ _ _ Hst a k x); [by apply (sh_ram0 a k)|by apply sh_live0|by rewrite sh_stab0|done].
  - intros t Ht%Hdt. eapply same_no_slab; [done|by apply sh_slab0].
  - intros a k Ha%Hlv. destruct (sh_new0 a k Ha) as [?|(-> & [Ht|(c & p & Hp & Hpa)])]; [by left|right..]; (split; [done|]); [left; by apply Hdt|right; exists c, p; by rewrite Hsl].
Qed.

(** The child's page table changes. *)
Lemma sharing_dst_step R s s' : sharing R s -> pt_step (inv:=kalloc_inv) dpt s s' ->
  (forall va e', 0 <= va < TRAPFRAME -> pte_of (ram s') dpt va = Some e' -> exists e, pte_of (ram s0) spt va = Some e /\ pte_of (ram s) spt va = Some (shared_entry e) /\ e' = child_entry e) ->
  (forall va, TRAPFRAME <= va < MAX_VA -> pte_of (ram s') dpt va = pte_of (ram s) dpt va) -> sharing R s' /\ (forall x m, slab_obj s' x m <-> slab_obj s x m) /\ forall va, pte_of (ram s') spt va = pte_of (ram s) spt va.
Proof using H0.
  intros Hs Hst Hdst Hkern. pose proof Hs as [].
  pose proof (heap_pt_step dpt s s' sh_heap0 Hst sh_slab0) as Hhs. pose proof Hhs as (Hh' & Hsl & Hob).
  assert (forall t, table_of (ram s) spt t -> ~ table_of (ram s) dpt t) as Hap by (intros t Ht Ht'; apply sh_stab0 in Ht; by apply (child_table R s t Hs Ht')).
  pose proof (foreign_table dpt spt s s' sh_spt0 Hst Hap) as Hk. pose proof (keep_pte s s' spt Hk) as Hd. pose proof (keep_table_of s s' spt Hk) as Hdt.
  assert (forall a k, live s a k -> live s' a k) as Hlv by (intros a k Ha; apply (pg_live _ _ _ Hst); by left).
  split; [|done]. split; try done.
  - by eapply keep_pt_ok.
  - apply Hst.
  - intros t. by rewrite Hdt.
  - intros t Ht. destruct (pg_tables _ _ _ Hst t Ht) as [Ht'|Hn]; [by apply sh_dtab0|]. right. intros k Hk0 Hns. by apply (Hn k), sh_live0.
  - intros va Hva. rewrite Hd. by apply sh_src0.
  - intros va Hva HR. rewrite Hd. by apply sh_done0.
  - intros va e' Hva He'. rewrite Hd. by apply Hdst.
  - intros va Hva. rewrite Hd, Hkern by done. by apply sh_kernel0.
  - intros a k Ha Hn. destruct (sh_live0 a k Ha Hn) as [Hl Hn']. split; [by apply Hlv|by eapply same_no_slab].
  - intros va e Hva He. destruct (start_page va e Hva He) as (Hl & Hn & _). destruct (sh_live0 _ _ Hl Hn) as [Hl' _]. rewrite (step_refs dpt s s' _ 0) by done. by apply sh_refs0.
  - intros a k Ha Hn Hp. destruct (sh_live0 a k Ha Hn) as [Hl' _]. rewrite (step_refs dpt s s' a k) by done. by apply (sh_other0 a k).
  - intros a k x Ha Hn Hnt Hnd Hx. rewrite (pg_frame _ _ _ Hst a k x); [by apply (sh_ram0 a k)|by apply sh_live0| |done]. intros Ht. destruct (sh_dtab0 a Ht) as [?|Hno]; [done|by apply (Hno k)].
  - intros t Ht. destruct (pg_tables _ _ _ Hst t Ht) as [Ht'|Hn]; [eapply same_no_slab; [done|by apply sh_slab0]|]. intros c p Hp%Hsl <-. apply (Hn 0). by apply (slab_page_live s c p).
  - intros a k Ha. apply (pg_live _ _ _ Hst) in Ha as [Ha|(-> & Ht & _)]; [|right; split; [done|by left]]. destruct (sh_new0 a k Ha) as [?|(-> & [Ht|(c & p & Hp & Hpa)])]; [by left|right..]; (split; [done|]); [left|right; exists c, p; by rewrite Hsl].
    destruct Ht as (q & Hq & Ht). exists q. split; [done|]. by apply (pg_mono _ _ _ Hst).
Qed.

(** A reference to a page is taken or given back. *)
Lemma sharing_refs R s va e (b : bool) : sharing R s -> 0 <= va < TRAPFRAME -> pte_of (ram s0) spt va = Some e -> (b = true -> pte_of (ram s) spt va = Some (shared_entry e)) ->
  let s' := with_refs (pte_to_pa e) (refcount (pg s0 (pte_to_pa e)) + (if b then 1 else 0)) s in
  sharing (upd R (va / 4096) b) s' /\ (forall x m, slab_obj s' x m <-> slab_obj s x m).
Proof using H0.
  intros Hs Hva He Hb. cbv zeta. pose proof Hs as []. destruct (start_page va e Hva He) as (Hl & Hn & Hnt & Hnd & Hr & Hrange & Hal & Hrc). destruct (sh_live0 _ _ Hl Hn) as [Hl' Hn'].
  set (v := _ + _). assert (0 < v < 2 ^ 16) as Hv by (unfold v; destruct b; lia). pose proof (refs_heap s (pte_to_pa e) v sh_heap0 Hl' Hv Hn') as Hhs. pose proof Hhs as (Hh' & Hsl & Hob).
  pose proof (refs_live s (pte_to_pa e) v Hl' Hv) as Hlv. pose proof (refs_pg s (pte_to_pa e) v sh_heap0 Hl' Hv) as Hpg. set (s' := with_refs (pte_to_pa e) v s) in *.
  assert (forall root, pt_ok s root -> (forall t, table_of (ram s) root t -> t <> pte_to_pa e) -> pt_ok s' root) as Hpt.
  { intros root Hpt Hne. eapply keep_pt_ok; [exact Hpt|]. intros t Ht. split; [|done]. pose proof Ht as (q & Hq & Htt). destruct (pt_table _ _ Hpt q t Hq Htt) as [Hlt Hrt]. split; [by apply Hlv|]. rewrite (Hpg t 0) by done. rewrite decide_False; [done|by apply Hne]. }
  split; [|done]. split; try done.
  - apply Hpt; [done|]. intros t Ht -> . by apply Hnt, sh_stab0.
  - apply Hpt; [done|]. intros t Ht ->. by apply (proj2 (child_table R s _ Hs Ht) va e).
  - intros va' Hva' HR. rewrite upd_case in HR. case_decide as Hd; [|by apply sh_done0]. subst b. assert (forall m root, pte_of m root va' = pte_of m root va) as Hpage by (intros; by apply pte_of_page). change (ram s') with (ram s). rewrite !Hpage, He. by apply Hb.
  - intros a k Ha Hna. destruct (sh_live0 a k Ha Hna). split; [by apply Hlv|by eapply same_no_slab].
  - intros va' e' Hva' He'. destruct (start_page va' e' Hva' He') as (Hl2 & Hn2 & _). destruct (sh_live0 _ _ Hl2 Hn2) as [Hl2' _]. rewrite (Hpg _ 0) by done. rewrite upd_case. destruct (decide (pte_to_pa e' = pte_to_pa e)) as [Heq|Hne].
    + rewrite decide_True by (symmetry; by apply (start_inj va' e' va e)). by rewrite Heq.
    + rewrite decide_False; [by apply sh_refs0|]. intros Hd. apply Hne. assert (pte_of (ram s0) spt va' = pte_of (ram s0) spt va) as Hpage by (by apply pte_of_page). congruence.
  - intros a k Ha Hna Hp. destruct (sh_live0 a k Ha Hna) as [Hla _]. rewrite (Hpg a k) by done. rewrite decide_False; [by apply (sh_other0 a k)|]. intros ->. by apply (Hp va e).
  - intros t Ht. eapply same_no_slab; [done|by apply sh_slab0].
  - intros a k Ha%Hlv. destruct (sh_new0 a k Ha) as [?|(-> & [Ht|(c & p & Hp & Hpa)])]; [by left|right..]; (split; [done|]); [by left|right; exists c, p; by rewrite Hsl].
Qed.

(** The heap gives out or takes back an object. *)
Lemma sharing_heap R s s' : sharing R s -> kheap_inv s' -> 
  (forall a k, live s a k -> no_slab s a -> live s' a k /\ no_slab s' a /\ refcount (pg s' a) = refcount (pg s a) /\ forall x, covers a k x -> ram s' x = ram s x) ->
  (forall a k, live s' a k -> (live s a k /\ forall c p, slab_page s c p -> page_to_pa p = a -> slab_page s' c p) \/ (k = 0 /\ exists c p, slab_page s' c p /\ page_to_pa p = a)) ->
  sharing R s' /\ (forall va, pte_of (ram s') spt va = pte_of (ram s) spt va) /\ (forall va, pte_of (ram s') dpt va = pte_of (ram s) dpt va).
Proof using H0.
  intros Hs Hh' Hkept Hnew. pose proof Hs as [].
  assert (forall root, pt_ok s root -> (forall t, table_of (ram s) root t -> no_slab s t) -> forall t, table_of (ram s) root t -> is_table s' t /\ forall x, t <= x < t + 4096 -> ram s' x = ram s x) as Hk.
  { intros root Hpt Hns t Ht. pose proof Ht as (q & Hq & Htt). destruct (pt_table _ _ Hpt q t Hq Htt) as [Hl Hr]. destruct (Hkept t 0 Hl (Hns t Ht)) as (Hl' & _ & Hr' & Hx). split; [split; [done|congruence]|]. intros x Hx'. apply Hx. unfold covers. by change (bsz 0) with 4096. }
  assert (forall t, table_of (ram s) spt t -> no_slab s t) as Hns by (intros t Ht; apply sh_stab0 in Ht; destruct (start_table t Ht); by apply (sh_live0 t 0)).
  pose proof (Hk spt sh_spt0 Hns) as Hks. pose proof (Hk dpt sh_dpt0 sh_slab0) as Hkd. pose proof (keep_pte s s' spt Hks) as Hps. pose proof (keep_pte s s' dpt Hkd) as Hpd. pose proof (keep_table_of s s' spt Hks) as Hts. pose proof (keep_table_of s s' dpt Hkd) as Htd.
  split; [|done]. split; try done.
  - by eapply keep_pt_ok.
  - by eapply keep_pt_ok.
  - intros t. by rewrite Hts.
  - intros t Ht%Htd. by apply sh_dtab0.
  - intros va Hva. rewrite Hps. by apply sh_src0.
  - intros va Hva HR. rewrite Hps. by apply sh_done0.
  - intros va e' Hva He'. rewrite Hpd in He'. rewrite Hps. by apply sh_dst0.
  - intros va Hva. rewrite Hps, Hpd. by apply sh_kernel0.
  - intros a k Ha Hn. destruct (sh_live0 a k Ha Hn) as [Hl Hn']. by destruct (Hkept a k Hl Hn') as (? & ? & _).
  - intros va e Hva He. destruct (start_page va e Hva He) as (Hl & Hn & _). destruct (sh_live0 _ _ Hl Hn) as [Hl' Hn']. destruct (Hkept _ _ Hl' Hn') as (_ & _ & -> & _). by apply sh_refs0.
  - intros a k Ha Hn Hp. destruct (sh_live0 a k Ha Hn) as [Hl' Hn']. destruct (Hkept _ _ Hl' Hn') as (_ & _ & -> & _). by apply (sh_other0 a k).
  - intros a k x Ha Hn Hnt Hnd Hx. destruct (sh_live0 a k Ha Hn) as [Hl' Hn']. destruct (Hkept _ _ Hl' Hn') as (_ & _ & _ & Hm). rewrite Hm by done. by apply (sh_ram0 a k).
  - intros t Ht%Htd. pose proof Ht as (q & Hq & Htt). destruct (pt_table _ _ sh_dpt0 q t Hq Htt) as [Hl _]. by destruct (Hkept t 0 Hl (sh_slab0 t Ht)) as (_ & ? & _).
  - intros a k Ha. destruct (Hnew a k Ha) as [[Ha' Hsl]|[-> Hsl]]; [|right; split; [done|by right]]. destruct (sh_new0 a k Ha') as [?|(-> & [Ht|(c & p & Hp & Hpa)])]; [by left|right..]; (split; [done|]); [left; by apply Htd|right; exists c, p; split; [by apply Hsl|done]].
Qed.
End sharing.

(** * vma_dup_all *)


Lemma i32_nat x : 0 <= x < 2 ^ 31 -> i32 x = x.
Proof. intros Hx. unfold i32. rewrite Z.mod_small by lia. case_match; lia. Qed.

(** * Mapping one page *)
Lemma spare_same s s' n : free_start s' = free_start s -> (forall a k, live s' a k -> live s a k) -> spare_n s n -> spare_n s' n.
Proof. intros Hf Hl (l & [Hnd Hin] & Hn). exists l. split; [|done]. split; [done|]. intros a Ha. destruct (Hin a Ha) as (? & ? & Hno). rewrite Hf. split_and!; [done|lia|lia|]. intros b k Hb. by apply Hno, Hl. Qed.

Lemma map_page_tables root va s s' : pt_ok s root -> pt_step (inv:=kalloc_inv) root s s' -> new_paths root (fun q => q `prefix_of` path va) s s' ->
  forall n, spare_n s (2 + n) -> spare_n s' n.
Proof.
  intros Hpt Hst Hnp n (l & Hl & Hn). set (P := [[PX 2 va]; path va]). destruct (spare_grow_list s s' (omap (table_at (ram s') root) P) l) as (l' & Hl' & Hlen).
  - apply (pg_env _ _ _ Hst).
  - intros a k Ha. apply (pg_live _ _ _ Hst) in Ha as [Ha|(-> & (q & Hq & Ht) & Hno)]; [by left|right]. split; [|done].
    destruct (Hnp q a Hq Ht) as [Ht0|Hpre]; [destruct (Hno 0); by apply (pt_table _ _ Hpt q)|]. apply list_elem_of_omap. exists q. split; [|done].
    destruct (prefix_cases q _ _ Hpre) as [->|[->| ->]]; [|by left|by right; left]. destruct (Hno 0). cbn in Ht. injection Ht as <-. by apply (pt_table _ _ Hpt []).
  - done.
  - pose proof (omap_length_le (table_at (ram s') root) P) as Hle. exists l'. split; [done|]. assert (length P = 2%nat) by done. lia.
Qed.

Lemma map_page_spec s root va pa prm : kalloc_inv s -> pt_ok s root -> 0 <= va < TRAPFRAME -> va mod 4096 = 0 -> KERN_BASE <= pa < PHYS_STOP -> pa mod 4096 = 0 -> 0 <= prm < 1024 -> pte_of (ram s) root va = None ->
  wp (map_pages root va PG_SIZE pa prm) (fun r s' => pt_step (inv:=kalloc_inv) root s s' /\
    ((r = 0 /\ remapped root va (leaf_pte pa prm) s s') \/ (r = -1 /\ forall va', 0 <= va' < MAX_VA -> pte_of (ram s') root va' = pte_of (ram s) root va')) /\
    forall n, spare_n s (2 + S n) -> r = 0 /\ spare_n s' (S n)) s.
Proof.
  intros Hi Hpt Hva Hal Hpa Hpal Hprm Hnone. assert (MAX_VA = 2 ^ 38) as Hmax by done. assert (TRAPFRAME = 2 ^ 38 - 8192) as Htf by done.
  assert (forall va', va <= va' < va + PG_SIZE -> pte_of (ram s) root va' = None) as Hfree by (intros va' Hva'; rewrite PG_SIZE_val in Hva'; rewrite <- Hnone; apply pte_of_page; mlia).
  eapply wp_mono; [apply wp_conj; [apply (map_pages_spec s root va PG_SIZE pa prm)|apply (map_pages_paths s root va PG_SIZE pa prm)]; rewrite ?PG_SIZE_val in *; try done; klia|].
  intros r s' [(Hst & k & Hm & Hres) Hnp]. rewrite PG_SIZE_val in *. split; [done|]. split.
  - destruct Hres as [[-> Hk]|(-> & Hk & _)]; [left|right]; (split; [done|]); intros va' Hva'; rewrite Hm by done.
    + assert (k = 1%nat) as -> by lia. repeat case_decide; try mlia; [|done]. do 2 f_equal. mlia.
    + by rewrite decide_False by lia.
  - intros n Hn. assert (spare_n s' (S n)) as Hn'.
    { eapply (map_page_tables root va s s'); [done|done| |exact Hn]. eapply new_paths_mono; [exact Hnp|]. intros q (va' & Hva' & Hq). assert (path va' = path va) as <-; [|done]. unfold path. rewrite !(PX_same va' va) by mlia. done. }
    split; [|done]. destruct Hres as [[-> _]|(_ & _ & Hno)]; [done|]. by destruct (spare_memory s' n (pg_inv _ _ _ Hst) Hn').
Qed.

(** * One page *)
Section dup.
Context (src : aspace) (dpt : Z) (s0 : kmem) (H0 : fork_start src dpt s0).
Local Abbreviation spt := (pagetable src).
Local Abbreviation sharing := (sharing src dpt s0).

(** The pages with another reference are those the child has. *)
Definition forked (s : kmem) : Prop := exists R, sharing R s /\ forall va, 0 <= va < TRAPFRAME -> R (va / 4096) = true <-> is_Some (pte_of (ram s) dpt va).
Definition objs_same (s s' : kmem) : Prop := forall x m, slab_obj s' x m <-> slab_obj s x m.

(** The child's mapping has changed at the page of [va] only. *)
Definition elsewhere (va : Z) (s s' : kmem) : Prop := forall va', 0 <= va' < TRAPFRAME -> va' / 4096 <> va / 4096 -> pte_of (ram s') dpt va' = pte_of (ram s) dpt va'.

Lemma page_count_R (R : Z -> bool) s va (b : bool) : (forall va, 0 <= va < TRAPFRAME -> R (va / 4096) = true <-> is_Some (pte_of (ram s) dpt va)) ->
  forall s', elsewhere va s s' -> (forall va', va' / 4096 = va / 4096 -> b = true <-> is_Some (pte_of (ram s') dpt va')) ->
  forall va', 0 <= va' < TRAPFRAME -> upd R (va / 4096) b (va' / 4096) = true <-> is_Some (pte_of (ram s') dpt va').
Proof using Type. intros HR s' He Hb va' Hva'. rewrite upd_case. case_decide as Hd; [by apply Hb|]. rewrite He by (done || congruence). by apply HR. Qed.

(** The mark on the parent's entry. *)
Lemma mark_spec R s va u e : sharing R s -> 0 <= va < TRAPFRAME -> table_at (ram s) spt (path va) = Some u -> entry (ram s) u (PX 0 va) = e -> has e PTE_V = true ->
  let s1 := if has e PTE_W then with_leaf s va u (shared_entry e) else s in
  exists e0, pte_of (ram s0) spt va = Some e0 /\ pte_to_pa e = pte_to_pa e0 /\ sharing R s1 /\ objs_same s s1 /\ (forall va', pte_of (ram s1) dpt va' = pte_of (ram s) dpt va') /\
    entry (ram s1) u (PX 0 va) = shared_entry e0 /\ pte_of (ram s1) spt va = Some (shared_entry e0) /\ free_start s1 = free_start s /\ (forall a k, live s1 a k <-> live s a k).
Proof using H0.
  intros Hs Hva Hu He HV. assert (TRAPFRAME <= MAX_VA) as Htm by done. assert (0 <= va < MAX_VA) as Hvm by lia.
  assert (pte_of (ram s) spt va = Some e) as Hpte by (unfold pte_of; by rewrite Hu, He, HV). destruct (shared_page src dpt s0 H0 R s va e Hs Hva Hpte) as (e0 & He0 & Hpa & Hr & Hw & _).
  cbv zeta. exists e0. split; [done|]. split; [done|]. destruct (has e PTE_W) eqn:EW.
  - destruct (Hw eq_refl) as [<- HR]. destruct (shared_facts e Hr) as (Hsr & Hspa & _ & HsV & _). assert (0 <= shared_entry e < 2 ^ 64) as H64 by lia. pose proof (proj1 (sh_heap _ _ _ _ _ Hs)) as Hi. pose proof (sh_spt _ _ _ _ _ Hs) as Hpt.
    pose proof (leaf_step s spt va u _ Hi Hpt Hvm Hu H64) as Hst. pose proof (leaf_pte_of s spt va u _ Hi Hpt Hvm Hu H64) as Hnew. rewrite HsV, HV in Hnew. pose proof (leaf_table_of s spt va u _ Hi Hpt Hvm Hu H64) as Hto.
    destruct (sharing_src_step src dpt s0 H0 R s (with_leaf s va u (shared_entry e)) Hs Hst Hto ltac:(done)) as (Hs1 & Ho1 & Hd1).
    + intros va' Hva'. rewrite Hnew by lia. case_decide as Hd; [right|by left]. rewrite (pte_of_page _ _ va' va), He0 by done. done.
    + intros va' Hva'. rewrite Hnew by (assert (0 <= TRAPFRAME) by done; lia). rewrite decide_False; [done|]. assert (TRAPFRAME mod 4096 = 0) by done. mlia.
    + split_and!; try done; [|by rewrite Hnew by done; rewrite decide_True]. unfold entry, with_leaf. ksimpl. by rewrite ld64_st64_eq.
  - assert (e = shared_entry e0) as Hee.
    { pose proof (sh_src _ _ _ _ _ Hs va Hva) as Hor. rewrite Hpte, He0 in Hor. destruct Hor as [Hor|Hor]; injection Hor as Hor; [|done]. rewrite Hor in EW |- *. unfold shared_entry. by rewrite EW. }
    split_and!; try done; congruence.
Qed.

Lemma walk_forked R s root va (Q : Z -> kmem -> Prop) : sharing R s -> pt_ok s root -> 0 <= va < TRAPFRAME -> (pte_of (ram s) root va = None -> Q NULL s) ->
  (forall u, table_at (ram s) root (path va) = Some u -> u + 8 * PX 0 va <> NULL -> free_start s <= u + 8 * PX 0 va -> u + 8 * PX 0 va + 8 <= PHYS_STOP -> (u + 8 * PX 0 va) mod 8 = 0 -> KERN_BASE <= u + 8 * PX 0 va -> Q (u + 8 * PX 0 va) s) -> wp (walk root va false) Q s.
Proof using Type.
  intros Hs Hpt Hva HN HS. assert (TRAPFRAME <= MAX_VA) as Htm by done. pose proof (proj1 (sh_heap _ _ _ _ _ Hs)) as Hi. eapply wp_mono; [apply (walk_spec s root va false Hi Hpt); lia|].
  intros r s' (_ & Hss & Hres). specialize (Hss eq_refl). subst s'. destruct Hres as [(-> & [[? _]|[_ Hnone]])|(u & Hut & -> & Hnz)]; [done|apply HN; unfold pte_of; by rewrite Hnone|].
  destruct (leaf_dram s root va u Hi Hpt Hut) as (? & ? & ? & ? & Hidx). unfold idx_ok in Hidx. apply HS; try done; try lia. mlia.
Qed.

Lemma get_page_spec R s va e : sharing R s -> 0 <= va < TRAPFRAME -> pte_of (ram s0) spt va = Some e -> R (va / 4096) = false -> pte_of (ram s) spt va = Some (shared_entry e) ->
  wp (page_get (pte_to_pa e)) (fun _ s' => sharing (upd R (va / 4096) true) s' /\ objs_same s s' /\ ram s' = ram s /\ free_start s' = free_start s /\ forall a k, live s' a k <-> live s a k) s.
Proof using H0.
  intros Hs Hva He HR Hse. destruct (start_page src dpt s0 H0 va e Hva He) as (Hl & Hn & _ & _ & _ & Hrange & _ & Hrc). unfold page_get. wp_steps. apply wp_get_page; [by apply pa_to_page_range|]. fold (pg s (pte_to_pa e)).
  pose proof (sh_refs _ _ _ _ _ Hs va e Hva He) as Hrf. rewrite HR in Hrf. destruct (Z.ltb_spec (refcount (pg s (pte_to_pa e))) 1); [lia|]. apply wp_update_page; [by apply pa_to_page_range|].
  destruct (sharing_refs src dpt s0 H0 R s va e true Hs Hva He (fun _ => Hse)) as [Hs' Ho]. unfold with_refs in Hs', Ho. replace (refcount (pg s0 (pte_to_pa e)) + 1) with (refcount (pg s (pte_to_pa e)) + 1) in Hs', Ho by lia.
  split_and!; try done. apply refs_live; [by apply (sh_live _ _ _ _ _ Hs)|lia].
Qed.

Lemma dup_page_spec s va : forked s -> 0 <= va < TRAPFRAME -> va mod 4096 = 0 -> pte_of (ram s) dpt va = None ->
  wp (dup_page dpt spt va) (fun r s' => forked s' /\ objs_same s s' /\ elsewhere va s s' /\ pte_of (ram s') dpt va = (if r : bool then child_entry <$> pte_of (ram s0) spt va else None) /\
    forall n, spare_n s (2 + S n) -> r = true /\ spare_n s' (S n)) s.
Proof using H0.
  intros (R & Hs & HR) Hva Hal Hnone. assert (forall n, spare_n s (2 + S n) -> spare_n s (S n)) as Hless by (intros n (l & Hl & Hn); exists l; split; [done|lia]).
  assert (pte_of (ram s) spt va = None -> forked s /\ objs_same s s /\ elsewhere va s s /\ pte_of (ram s) dpt va = child_entry <$> pte_of (ram s0) spt va /\ forall n, spare_n s (2 + S n) -> true = true /\ spare_n s (S n)) as Hskip.
  { intros Hns. split_and!; try done; [by exists R| |intros n Hn; split; [done|by apply Hless]]. rewrite Hnone. pose proof (sh_src _ _ _ _ _ Hs va Hva) as Hor. rewrite Hns in Hor. by destruct (pte_of (ram s0) spt va) as [?|]; [destruct Hor|]. }
  unfold dup_page. apply wp_bind. apply (walk_forked R s spt va _ Hs (sh_spt _ _ _ _ _ Hs) Hva); [intros Hns; rewrite Z.eqb_refl; wp_steps; by apply Hskip|].
  intros u Hu Hnz ? ? ? ?. destruct (Z.eqb_spec (u + 8 * PX 0 va) NULL) as [|_]; [done|]. apply wp_bind, wp_load64; [lia..|]. fold (entry (ram s) u (PX 0 va)).
  destruct (has (entry (ram s) u (PX 0 va)) PTE_V) eqn:HV; cbn [negb]; [|wp_steps; apply Hskip; unfold pte_of; by rewrite Hu, HV].
  destruct (mark_spec R s va u _ Hs Hva Hu eq_refl HV) as (e0 & He0 & Hpa & Hs1 & Ho1 & Hd1 & Hen1 & Hse1 & Hf1 & Hl1). set (e := entry (ram s) u (PX 0 va)) in *. set (s1 := if has e PTE_W then _ else _) in *.
  destruct (start_page src dpt s0 H0 va e0 Hva He0) as (_ & _ & _ & _ & Her & Hrange & Hpal & _). cbv zeta.
  apply wp_bind. assert (wp (if has e PTE_W then store64 (u + 8 * PX 0 va) (Z.lor (Z.land e (Z.lnot PTE_W)) PTE_COW) else mret tt) (fun _ s' => s' = s1) s) as Hst.
  { unfold s1, shared_entry. destruct (has e PTE_W); [apply wp_store64; [lia..|done]|by wp_steps]. }
  eapply wp_mono; [exact Hst|]. intros [] ? ->. apply wp_bind, wp_load64; [by rewrite ?Hf1; lia..|]. fold (entry (ram s1) u (PX 0 va)). rewrite Hen1, Hpa.
  pose proof (pte_flags_range (shared_entry e0)) as Hfl. rewrite i32_nat by lia. apply wp_bind.
  eapply wp_mono; [apply (map_page_spec s1 dpt va (pte_to_pa e0)); [apply (sh_heap _ _ _ _ _ Hs1)|apply (sh_dpt _ _ _ _ _ Hs1)|done|done|done|done|done|by rewrite Hd1]|].
  intros r s2 (Hst2 & Hres & Hsp). assert (TRAPFRAME <= MAX_VA) as Htm by done. assert (TRAPFRAME mod 4096 = 0) as Hta by done. assert (0 <= TRAPFRAME) as Ht0 by done.
  assert (forall n, spare_n s (2 + S n) -> spare_n s1 (2 + S n)) as Hsp1 by (intros n; apply spare_same; [done|intros a k; by apply Hl1]).
  destruct Hres as [[-> Hmap]|[-> Hsame]].
  - destruct (sharing_dst_step src dpt s0 H0 R s1 s2 Hs1 Hst2) as (Hs2 & Ho2 & Hsp2).
    + intros va' e' Hva' He'. rewrite Hmap in He' by lia. case_decide as Hd; [injection He' as <-|by apply (sh_dst _ _ _ _ _ Hs1)]. exists e0. rewrite !(pte_of_page _ _ va' va) by done. by split_and!.
    + intros va' Hva'. rewrite Hmap by lia. rewrite decide_False; [done|]. mlia.
    + change (0 <? 0) with false. cbv iota. apply wp_bind. assert (R (va / 4096) = false) as HRf by (destruct (R (va / 4096)) eqn:E; [apply HR in E; [by rewrite Hnone in E; destruct E|done]|done]).
      eapply wp_mono; [apply (get_page_spec R s2 va e0); try done; by rewrite Hsp2|]. intros [] s3 (Hs3 & Ho3 & Hr3 & Hf3 & Hl3). wp_steps.
      assert (elsewhere va s s3) as Helse by (intros va' Hva' Hne; rewrite Hr3, Hmap, decide_False by (done || lia); apply Hd1).
      assert (forall va', va' / 4096 = va / 4096 -> pte_of (ram s3) dpt va' = Some (child_entry e0)) as Hnew by (intros va' Hd; rewrite (pte_of_page _ _ va' va), Hr3, Hmap by (done || lia); by rewrite decide_True).
      split_and!.
      * exists (upd R (va / 4096) true). split; [done|]. apply (page_count_R R s va true HR s3 Helse). intros va' Hd. rewrite Hnew by done. split; [by eexists|done].
      * intros x m. by rewrite (Ho3 x m), (Ho2 x m), (Ho1 x m).
      * done.
      * rewrite Hnew, He0 by done. done.
      * intros n Hn. split; [done|]. destruct (Hsp n (Hsp1 n Hn)) as [_ Hs2n]. eapply spare_same; [done|intros a k; by apply Hl3|done].
  - destruct (sharing_dst_step src dpt s0 H0 R s1 s2 Hs1 Hst2) as (Hs2 & Ho2 & Hsp2).
    + intros va' e' Hva' He'. rewrite Hsame in He' by lia. by apply (sh_dst _ _ _ _ _ Hs1).
    + intros va' Hva'. apply Hsame. lia.
    + change (-1 <? 0) with true. cbv iota. wp_steps. assert (forall va', 0 <= va' < TRAPFRAME -> pte_of (ram s2) dpt va' = pte_of (ram s) dpt va') as Hall by (intros va' Hva'; rewrite Hsame by lia; apply Hd1).
      split_and!.
      * exists R. split; [done|]. intros va' Hva'. rewrite Hall by done. by apply HR.
      * intros x m. by rewrite (Ho2 x m), (Ho1 x m).
      * intros va' Hva' _. by apply Hall.
      * by rewrite Hall.
      * intros n Hn. destruct (Hsp n (Hsp1 n Hn)) as [? _]. done.
Qed.

(** Taking a page back from the child. *)
Lemma put_page_spec R s va e : sharing R s -> 0 <= va < TRAPFRAME -> pte_of (ram s0) spt va = Some e -> R (va / 4096) = true ->
  wp (page_put (pte_to_pa e)) (fun _ s' => sharing (upd R (va / 4096) false) s' /\ objs_same s s' /\ ram s' = ram s /\ free_start s' = free_start s) s.
Proof using H0.
  intros Hs Hva He HR. destruct (start_page src dpt s0 H0 va e Hva He) as (Hl & Hn & _ & _ & _ & Hrange & _ & Hrc). unfold page_put. wp_steps. apply wp_get_page; [by apply pa_to_page_range|]. fold (pg s (pte_to_pa e)).
  pose proof (sh_refs _ _ _ _ _ Hs va e Hva He) as Hrf. rewrite HR in Hrf. destruct (Z.ltb_spec (refcount (pg s (pte_to_pa e))) 1); [lia|]. destruct (Z.eqb_spec (refcount (pg s (pte_to_pa e))) 1); [lia|]. apply wp_update_page; [by apply pa_to_page_range|].
  destruct (sharing_refs src dpt s0 H0 R s va e false Hs Hva He ltac:(done)) as [Hs' Ho]. unfold with_refs in Hs', Ho. replace (refcount (pg s0 (pte_to_pa e)) + 0) with (refcount (pg s (pte_to_pa e)) - 1) in Hs', Ho by lia. by split_and!.
Qed.

Lemma undo_page_spec s va : forked s -> 0 <= va < TRAPFRAME -> va mod 4096 = 0 ->
  wp (free_page_at dpt va) (fun r s' => r = true /\ forked s' /\ objs_same s s' /\ elsewhere va s s' /\ pte_of (ram s') dpt va = None) s.
Proof using H0.
  intros (R & Hs & HR) Hva Hal. assert (pte_of (ram s) dpt va = None -> true = true /\ forked s /\ objs_same s s /\ elsewhere va s s /\ pte_of (ram s) dpt va = None) as Hskip by (intros Hn; split_and!; try done; by exists R).
  unfold free_page_at. apply wp_bind. apply (walk_forked R s dpt va _ Hs (sh_dpt _ _ _ _ _ Hs) Hva); [intros Hns; rewrite Z.eqb_refl; wp_steps; by apply Hskip|].
  intros u Hu Hnz ? ? ? ?. destruct (Z.eqb_spec (u + 8 * PX 0 va) NULL) as [|_]; [done|]. apply wp_bind, wp_load64; [lia..|]. fold (entry (ram s) u (PX 0 va)).
  destruct (has (entry (ram s) u (PX 0 va)) PTE_V) eqn:HV; cbn [negb]; [|wp_steps; apply Hskip; unfold pte_of; by rewrite Hu, HV].
  set (e' := entry (ram s) u (PX 0 va)) in *. assert (pte_of (ram s) dpt va = Some e') as Hm by (unfold pte_of; rewrite Hu; fold e'; by rewrite HV).
  destruct (sh_dst _ _ _ _ _ Hs va e' Hva Hm) as (e & He & Hse & Hce). destruct (start_page src dpt s0 H0 va e Hva He) as (_ & _ & _ & _ & Her & ? & Hpal & _). destruct (child_entry_facts e Her) as (_ & Hpa & _); [klia|done|]. rewrite Hce, Hpa.
  assert (R (va / 4096) = true) as HRt by (apply HR; [done|by eexists]). apply wp_bind. eapply wp_mono; [by apply (put_page_spec R s va e)|]. intros [] s1 (Hs1 & Ho1 & Hr1 & Hf1).
  assert (table_at (ram s1) dpt (path va) = Some u) as Hu1 by by rewrite Hr1. assert (TRAPFRAME <= MAX_VA) as Htm by done. assert (0 <= va < MAX_VA) as Hvm by lia. assert (0 <= 0 < 2 ^ 64) as H64 by done. pose proof (proj1 (sh_heap _ _ _ _ _ Hs1)) as Hi1. pose proof (sh_dpt _ _ _ _ _ Hs1) as Hpt1.
  apply wp_bind, wp_store64; [by rewrite ?Hf1; lia..|]. fold (with_leaf s1 va u 0). wp_steps. pose proof (leaf_step s1 dpt va u 0 Hi1 Hpt1 Hvm Hu1 H64) as Hst. pose proof (leaf_pte_of s1 dpt va u 0 Hi1 Hpt1 Hvm Hu1 H64) as Hnew. change (has 0 PTE_V) with false in Hnew. cbv iota in Hnew.
  assert (TRAPFRAME mod 4096 = 0) as Hta by done. assert (0 <= TRAPFRAME) as Ht0 by done.
  destruct (sharing_dst_step src dpt s0 H0 _ s1 (with_leaf s1 va u 0) Hs1 Hst) as (Hs2 & Ho2 & _).
  - intros va' e1 Hva' He1. rewrite Hnew in He1 by lia. case_decide as Hd; [done|]. by apply (sh_dst _ _ _ _ _ Hs1).
  - intros va' Hva'. rewrite Hnew by lia. rewrite decide_False; [done|]. mlia.
  - assert (elsewhere va s (with_leaf s1 va u 0)) as Helse by (intros va' Hva' Hne; rewrite Hnew, decide_False by (done || lia); by rewrite Hr1).
    assert (forall va', va' / 4096 = va / 4096 -> pte_of (ram (with_leaf s1 va u 0)) dpt va' = None) as Hgone by (intros va' Hd; rewrite (pte_of_page _ _ va' va), Hnew by done; by rewrite decide_True).
    split_and!; [done| | |done|by apply Hgone].
    + exists (upd R (va / 4096) false). split; [done|]. apply (page_count_R R s va false HR _ Helse). intros va' Hd. rewrite Hgone by done. split; [done|by intros [? ?]].
    + intros x m. by rewrite (Ho2 x m), (Ho1 x m).
Qed.

(** * All pages of a range *)
Definition outside (lo hi : Z) (s s' : kmem) : Prop := forall va, 0 <= va < TRAPFRAME -> ~ lo <= va < hi -> pte_of (ram s') dpt va = pte_of (ram s) dpt va.

Lemma dup_pages_spec hi : 0 <= hi <= TRAPFRAME -> forall n va s, forked s -> 0 <= va -> va mod 4096 = 0 -> va + 4096 * Z.of_nat n = hi -> (forall va', va <= va' < hi -> pte_of (ram s) dpt va' = None) ->
  wp (for_pages n va hi (dup_page dpt spt)) (fun r s' => forked s' /\ objs_same s s' /\ outside va hi s s' /\ (r = true -> forall va', va <= va' < hi -> pte_of (ram s') dpt va' = child_entry <$> pte_of (ram s0) spt va') /\
    forall m, spare_n s (2 * n + S m) -> r = true /\ spare_n s' (S m)) s.
Proof using H0.
  intros Hhi. assert (TRAPFRAME = 2 ^ 38 - 8192) as Htf by done. induction n as [|n IH]; intros va s Hs Hva Hal Hn Hnone; cbn [for_pages].
  - destruct (Z.ltb_spec va hi); [lia|]. wp_steps. split_and!; try done. intros _ va' ?. lia.
  - destruct (Z.ltb_spec va hi); [|lia]. apply wp_bind. eapply wp_mono; [apply dup_page_spec; [done|lia|done|apply Hnone; lia]|]. intros r s1 (Hs1 & Ho1 & He1 & Hp1 & Hsp1). assert (outside va (va + 4096) s s1) as Hout by (intros va' Hva' Hno; apply He1; [done|mlia]).
    assert (forall m, spare_n s (2 * S n + S m) -> r = true /\ spare_n s1 (2 * n + S m)) as Hspn. { intros m Hm. destruct (Hsp1 (2 * n + m)%nat) as [-> Hs']; [by replace (2 + S (2 * n + m))%nat with (2 * S n + S m)%nat by lia|]. split; [done|]. by replace (2 * n + S m)%nat with (S (2 * n + m)) by lia. }
    destruct r; [|wp_steps; split_and!; [done|done|intros va' Hva' Hno; apply Hout; [done|lia]|done|intros m Hm; by destruct (Hspn m Hm)]].
    rewrite PG_SIZE_val, u64_small by lia. eapply wp_mono; [apply IH; [done|lia|mlia|lia|]|].
    { intros va' Hva'. rewrite Hout by lia. apply Hnone. lia. }
    intros r s2 (Hs2 & Ho2 & Hout2 & Hall & Hsp2). split_and!; [done|intros x m; by rewrite (Ho2 x m), (Ho1 x m)|intros va' Hva' Hno; rewrite Hout2 by lia; apply Hout; [done|lia]| |].
    + intros -> va' Hva'. destruct (decide (va' < va + 4096)); [|apply Hall; [done|lia]]. rewrite Hout2 by lia. rewrite !(pte_of_page _ _ va' va) by mlia. done.
    + intros m Hm. destruct (Hspn m Hm) as [_ Hm1]. by apply Hsp2.
Qed.

Lemma undo_pages_spec hi : 0 <= hi <= TRAPFRAME -> forall n va s, forked s -> 0 <= va -> va mod 4096 = 0 -> va + 4096 * Z.of_nat n = hi ->
  wp (for_pages n va hi (free_page_at dpt)) (fun r s' => forked s' /\ objs_same s s' /\ outside va hi s s' /\ forall va', va <= va' < hi -> pte_of (ram s') dpt va' = None) s.
Proof using H0.
  intros Hhi. assert (TRAPFRAME = 2 ^ 38 - 8192) as Htf by done. induction n as [|n IH]; intros va s Hs Hva Hal Hn; cbn [for_pages].
  - destruct (Z.ltb_spec va hi); [lia|]. wp_steps. split_and!; try done. intros va' ?. lia.
  - destruct (Z.ltb_spec va hi); [|lia]. apply wp_bind. eapply wp_mono; [apply undo_page_spec; [done|lia|done]|]. intros r s1 (-> & Hs1 & Ho1 & He1 & Hp1).
    rewrite PG_SIZE_val, u64_small by lia. eapply wp_mono; [apply IH; [done|lia|mlia|lia]|]. intros r s2 (Hs2 & Ho2 & Hout2 & Hall). split_and!; [done|intros x m; by rewrite (Ho2 x m), (Ho1 x m)| |].
    + intros va' Hva' Hno. rewrite Hout2 by lia. apply He1; [done|mlia].
    + intros va' Hva'. destruct (decide (va' < va + 4096)); [|apply Hall; lia]. rewrite Hout2 by lia. rewrite (pte_of_page _ _ va' va) by mlia. done.
Qed.

(** * The VMAs *)
Lemma page_count_aligned lo hi : lo <= hi -> lo mod 4096 = 0 -> hi mod 4096 = 0 -> lo + 4096 * Z.of_nat (page_count lo hi) = hi.
Proof using Type. intros Hle Hlo Hhi. unfold page_count. rewrite PG_SIZE_val. mlia. Qed.

(** The size of the slot a VMA takes. *)
Lemma rounded_vma n : rounded SIZEOF_VMA n 0 -> n = 64.
Proof using Type.
  intros [(_ & _ & c & Hc & -> & Hfit & Hmin)|[? _]]; [|done]. pose proof (class_cases c Hc) as Hcs. pose proof (Hmin 1) as H1. clear Hmin. unfold ssz, SIZEOF_VMA in *. destruct_or! Hcs; subst; cbn in *; lia.
Qed.

(** The objects are those at the start and the VMAs of the child. *)
Definition owned (l : list Z) (s : kmem) : Prop := NoDup l /\ (forall x, x ∈ l -> forall m, ~ slab_obj s0 x m) /\ forall x m, slab_obj s x m <-> slab_obj s0 x m \/ (m = 64 /\ x ∈ l).
Lemma owned_same l s s' : objs_same s s' -> owned l s -> owned l s'.
Proof using Type. intros Ho (Hnd & Hn & Hx). split_and!; try done. intros x m. by rewrite (Ho x m). Qed.

Lemma forked_heap s s' : forked s -> kheap_inv s' ->
  (forall a k, live s a k -> no_slab s a -> live s' a k /\ no_slab s' a /\ refcount (pg s' a) = refcount (pg s a) /\ forall x, covers a k x -> ram s' x = ram s x) ->
  (forall a k, live s' a k -> (live s a k /\ forall c p, slab_page s c p -> page_to_pa p = a -> slab_page s' c p) \/ (k = 0 /\ exists c p, slab_page s' c p /\ page_to_pa p = a)) ->
  forked s' /\ forall va, pte_of (ram s') dpt va = pte_of (ram s) dpt va.
Proof using H0.
  intros (R & Hs & HR) Hh Hk Hn. destruct (sharing_heap src dpt s0 H0 R s s' Hs Hh Hk Hn) as (Hs' & _ & Hd). split; [|done]. exists R. split; [done|]. intros va Hva. rewrite Hd. by apply HR.
Qed.

Lemma vma_create_spec s l a b c d : forked s -> owned l s ->
  wp (vma_create a b c d) (fun r s' => forked s' /\ (forall va, pte_of (ram s') dpt va = pte_of (ram s) dpt va) /\
    match r with None => owned l s' | Some v => v = mk_vma (vma_ptr v) a b c d /\ owned (vma_ptr v :: l) s' end /\
    forall n, spare_n s (1 + S n) -> r <> None /\ spare_n s' (S n)) s.
Proof using H0.
  intros Hs (Hnd & Hfr & Hob). pose proof Hs as (R & HsR & HR). pose proof (sh_heap _ _ _ _ _ HsR) as Hh. unfold vma_create. apply wp_bind. assert (0 < SIZEOF_VMA <= MAX_SLAB_SIZE) as Hsz by done.
  eapply wp_mono; [apply wp_conj; [by apply (kmalloc_small s SIZEOF_VMA Hh)|by apply (kmalloc_step s SIZEOF_VMA Hh)]|]. intros r s' ((Hh' & n & Hrd & Hpost) & Hst & Hgr). apply rounded_vma in Hrd as ->.
  destruct (forked_heap s s' Hs Hh') as [Hs' Hd'].
  { intros x k Hx Hn. destruct (heap_step_kept _ _ Hst) as [_ Hk]. destruct (Hk x k Hx) as [Hx' Hc]. destruct (pal_block (PageAllocator:=buddy_allocator) s x k (proj1 Hh) Hx) as [? _]. split_and!; [done| |apply Hc, covers_self; lia|intros y Hy; by apply Hc].
    intros c' p Hp Heq. destruct (sg_new _ _ Hgr c' p Hp) as [Hp'|Hno]; [by apply (Hn c' p)|]. apply (Hno k). by rewrite Heq. }
  { intros x k Hx. destruct (sg_page _ _ Hgr x k Hx) as [?|?]; [left|by right]. split; [done|]. intros c' p Hp _. by apply (sg_old _ _ Hgr). }
  destruct (Z.eqb_spec r NULL) as [->|Hr]; wp_steps; (split; [done|]); (split; [done|]).
  - destruct Hpost as [(_ & -> & Hno)|[? _]]; [|done]. split; [done|]. intros n Hn. exfalso. eapply (spare_memory s (S n)); [apply Hh|done|exact Hno].
  - destruct Hpost as [(? & _)|(_ & Ho & Hnew & _)]; [done|]. split; [|intros n Hn; split; [done|by apply (spare_taken s)]]. split; [done|]. cbn [vma_ptr].
    assert (forall x m, slab_obj s' x m <-> slab_obj s x m \/ (x = r /\ m = 64)) as Hso by (intros x m; rewrite !slab_obj_small, Ho by done; intuition lia). split_and!.
    + apply NoDup_cons. split; [|done]. intros Hin. apply (Hnew 64). left. apply Hob. by right.
    + intros x [->|Hx]%elem_of_cons m Hm; [|by apply (Hfr x Hx m)]. apply (Hnew m). left. apply Hob. by left.
    + intros x m. rewrite Hso, Hob, elem_of_cons. naive_solver.
Qed.

Lemma vma_drop_spec s x l : forked s -> owned (x :: l) s -> wp (kmfree x) (fun _ s' => forked s' /\ (forall va, pte_of (ram s') dpt va = pte_of (ram s) dpt va) /\ owned l s') s.
Proof using H0.
  intros Hs (Hnd & Hfr & Hob). pose proof Hs as (R & HsR & HR). pose proof (sh_heap _ _ _ _ _ HsR) as Hh. apply NoDup_cons in Hnd as [Hx Hnd].
  assert (slab_obj s x 64) as Hox by (apply Hob; right; split; [done|by left]). eapply wp_mono; [by apply (kmfree_slab s x 64)|]. intros [] s' (Hh' & (Ho & _) & [Gf Gl Gk Gs Gt]).
  destruct (forked_heap s s' Hs Hh') as [Hs' Hd'].
  { intros y k Hy Hn. destruct (Gk y k Hy Hn) as (? & ? & ?). split_and!; try done. intros c p Hp. by apply (Hn c p), Gs. }
  { intros y k Hy. left. split; [by apply Gl|]. intros c p Hp <-. by apply (Gt c p k). }
  unfold owned. split_and!; try done; [intros y Hy; apply Hfr; by right|]. intros y m. rewrite (slab_obj_small s' y m Hh'), Ho. assert (slab_obj s y m <-> obj s y m /\ m < 4096) as Hsm by by apply slab_obj_small. rewrite Hob, elem_of_cons in Hsm.
  assert (slab_obj s0 y m -> y <> x) as Hne by (intros Hm ->; by apply (Hfr x ltac:(left) m)). assert (y ∈ l -> y <> x) as Hne' by (intros Hy ->; done). intuition congruence.
Qed.

(** * The lists *)
Definition range_ok (v : vma) : Prop := 0 <= start v <= end_ v /\ end_ v <= TRAPFRAME /\ start v mod 4096 = 0 /\ end_ v mod 4096 = 0.
Definition same_vma (v w : vma) : Prop := start v = start w /\ end_ v = end_ w /\ perm v = perm w /\ vflags v = vflags w.
(** The child's pages lie in its VMAs. *)
Definition within (l : list vma) (s : kmem) : Prop := forall va, 0 <= va < TRAPFRAME -> is_Some (pte_of (ram s) dpt va) -> exists v, v ∈ l /\ start v <= va < end_ v.
Definition copied (l : list vma) (s : kmem) : Prop := forall v va, v ∈ l -> start v <= va < end_ v -> pte_of (ram s) dpt va = child_entry <$> pte_of (ram s0) spt va.

Lemma owned_perm l l' s : l ≡ₚ l' -> owned l s -> owned l' s.
Proof using Type. intros Hp (Hnd & Hfr & Hx). split_and!; [by rewrite <- Hp|intros x Hin; apply Hfr; by rewrite Hp|]. intros x m. by rewrite <- Hp. Qed.
Lemma vma_insert_last v l : Forall (fun w => start w <= start v) l -> vma_insert v l = l ++ [v].
Proof using Type. induction 1 as [|w l Hw Hl IH]; [done|]. cbn [vma_insert]. destruct (Z.ltb_spec (start v) (start w)); [lia|]. by rewrite IH. Qed.

Lemma undo_vmas_spec : forall l s, forked s -> owned (vma_ptr <$> l) s -> Forall range_ok l -> within l s ->
  wp (free_vmas dpt l) (fun _ s' => forked s' /\ owned [] s' /\ forall va, 0 <= va < TRAPFRAME -> pte_of (ram s') dpt va = None) s.
Proof using H0.
  induction l as [|v l IH]; intros s Hs Ho Hok Hin; cbn [free_vmas].
  - wp_steps. split_and!; try done. intros va Hva. apply eq_None_not_Some. intros Hp. destruct (Hin va Hva Hp) as (w & Hw & _). by apply elem_of_nil in Hw.
  - apply Forall_cons in Hok as [(Hse & Hhi & Ha1 & Ha2) Hok]. apply wp_bind. eapply wp_mono; [apply (undo_pages_spec (end_ v)); [lia|done|lia|done|apply page_count_aligned; (done || lia)]|]. intros r s1 (Hs1 & Ho1 & Hout & Hnone).
    cbn [fmap list_fmap] in Ho. apply wp_bind. eapply wp_mono; [apply (vma_drop_spec s1 (vma_ptr v) (vma_ptr <$> l)); [done|by eapply owned_same]|]. intros [] s2 (Hs2 & Hd2 & Ho2). apply IH; try done.
    intros va Hva Hp. rewrite Hd2 in Hp. destruct (decide (start v <= va < end_ v)); [rewrite Hnone in Hp by done; by destruct Hp|]. rewrite Hout in Hp by done. destruct (Hin va Hva Hp) as (w & [->|Hw]%elem_of_cons & Hr); [done|by exists w].
Qed.

Definition dup_need (l : list vma) : nat := sum_list_with (fun v => 1 + 2 * page_count (start v) (end_ v))%nat l.

Lemma dup_vmas_spec : forall l pre dl s, vma_list src = pre ++ l -> vmas_ok (vma_list src) -> Forall range_ok (vma_list src) -> Forall2 same_vma dl pre -> forked s -> owned (vma_ptr <$> dl) s -> within dl s -> copied pre s ->
  wp (dup_vmas (mk_aspace dpt dl) spt l) (fun r s' => exists dl', r.2 = mk_aspace dpt dl' /\ forked s' /\ owned (vma_ptr <$> dl') s' /\ within dl' s' /\ Forall range_ok dl' /\
    (r.1 = true -> Forall2 same_vma dl' (vma_list src) /\ copied (vma_list src) s') /\ forall n, spare_n s (dup_need l + S n) -> r.1 = true) s.
Proof using H0.
  induction l as [|v l IH]; intros pre dl s Hl Hord Hok Hsm Hs Ho Hin Hcp; cbn [dup_vmas].
  - rewrite app_nil_r in Hl. wp_steps. exists dl. cbn. rewrite Hl in Hok |- *. assert (Forall range_ok dl) as Hdok. { clear - Hsm Hok. induction Hsm as [|a b la lb (E1 & E2 & _) Hsm IH]; [done|]. apply Forall_cons in Hok as [Hb Hok]. apply Forall_cons. split; [unfold range_ok in *; by rewrite E1, E2|by apply IH]. }
    by split_and!.
  - assert (range_ok v) as (Hse & Hhi & Ha1 & Ha2) by (rewrite Hl in Hok; apply Forall_app in Hok as [_ Hok]; by apply Forall_cons in Hok as [? _]).
    assert (Forall (fun w => end_ w <= start v) dl /\ Forall range_ok dl) as [Hbelow Hdok].
    { destruct Hord as [Hord _]. rewrite Hl in Hord, Hok. clear - Hord Hok Hsm. induction Hsm as [|a b la lb (E1 & E2 & _) Hsm IH]; [done|]. cbn [app] in *. apply Forall_cons in Hok as [Hb Hok]. inversion Hord as [|? ? Hord' Hall]; subst. destruct IH as [? ?]; [done|done|]. apply Forall_app in Hall as [_ Hall]. apply Forall_cons in Hall as [Hbv _].
      split; apply Forall_cons; (split; [|done]); [lia|]. unfold range_ok in *. by rewrite E1, E2. }
    apply wp_bind. eapply wp_mono; [by apply (vma_create_spec s (vma_ptr <$> dl))|]. intros [nv|] s1 (Hs1 & Hd1 & Hv & Hsp1); cycle 1.
    { wp_steps. exists dl. cbn. split_and!; try done; [intros va Hva; rewrite Hd1; by apply Hin|]. intros n Hn. destruct (Hsp1 (2 * page_count (start v) (end_ v) + dup_need l + n)%nat) as [? _]; [|done]. cbn [dup_need sum_list_with] in Hn. fold (dup_need l) in Hn. by replace (1 + S (2 * page_count (start v) (end_ v) + dup_need l + n))%nat with (1 + 2 * page_count (start v) (end_ v) + dup_need l + S n)%nat by lia. }
    destruct Hv as [Hnv Ho1]. assert (start nv = start v /\ end_ nv = end_ v /\ perm nv = perm v /\ vflags nv = vflags v) as (E1 & E2 & E3 & E4) by (rewrite Hnv; done). cbv zeta. unfold vma_add. cbn [pagetable vma_list].
    rewrite vma_insert_last by (eapply Forall_impl; [apply Forall_and; split; [exact Hbelow|exact Hdok]|]; intros w [Hw1 (Hw2 & _)]; rewrite E1; lia).
    apply wp_bind. eapply wp_mono; [apply (dup_pages_spec (end_ v)); [lia|done|lia|done|apply page_count_aligned; (done || lia)|]|].
    { intros va Hva. rewrite Hd1. apply eq_None_not_Some. intros Hp. destruct (Hin va ltac:(lia) Hp) as (w & Hw & Hr). rewrite Forall_forall in Hbelow. specialize (Hbelow w Hw). cbv beta in Hbelow. lia. }
    intros r s2 (Hs2 & Ho2 & Hout & Hall & Hsp2). assert (owned (vma_ptr <$> (dl ++ [nv])) s2) as Hown.
    { eapply owned_same; [exact Ho2|]. eapply owned_perm; [|exact Ho1]. rewrite fmap_app. cbn. by rewrite Permutation_app_comm. }
    assert (within (dl ++ [nv]) s2) as Hin2.
    { intros va Hva Hp. destruct (decide (start v <= va < end_ v)); [exists nv; rewrite E1, E2; split; [apply elem_of_app; right; by left|done]|]. rewrite Hout, Hd1 in Hp by done. destruct (Hin va Hva Hp) as (w & Hw & Hr). exists w. split; [apply elem_of_app; by left|done]. }
    assert (Forall range_ok (dl ++ [nv])) as Hrok by (apply Forall_app; split; [done|]; apply Forall_cons; split; [|done]; unfold range_ok; by rewrite E1, E2).
    assert (forall n, spare_n s (dup_need (v :: l) + S n) -> r = true /\ spare_n s2 (dup_need l + S n)) as Hspn.
    { intros n Hn. cbn [dup_need sum_list_with] in Hn. fold (dup_need l) in Hn. destruct (Hsp1 (2 * page_count (start v) (end_ v) + dup_need l + n)%nat) as [_ Hn1]; [by replace (1 + S (2 * page_count (start v) (end_ v) + dup_need l + n))%nat with (1 + 2 * page_count (start v) (end_ v) + dup_need l + S n)%nat by lia|].
      destruct (Hsp2 (dup_need l + n)%nat) as [-> Hn2]; [by replace (2 * page_count (start v) (end_ v) + S (dup_need l + n))%nat with (S (2 * page_count (start v) (end_ v) + dup_need l + n)) by lia|]. split; [done|]. by replace (dup_need l + S n)%nat with (S (dup_need l + n)) by lia. }
    destruct r; cycle 1.
    { wp_steps. exists (dl ++ [nv]). cbn. split_and!; try done. intros n Hn. by destruct (Hspn n Hn). }
    eapply wp_mono; [apply (IH (pre ++ [v]) (dl ++ [nv])); try done|].
    + by rewrite <- app_assoc.
    + apply Forall2_app; [done|]. by repeat constructor.
    + intros w va [Hw|Hw]%elem_of_app Hr; [|apply list_elem_of_singleton in Hw as ->; by apply Hall]. destruct (decide (start v <= va < end_ v)); [by apply Hall|]. assert (0 <= va < TRAPFRAME) as Hva.
      { rewrite Hl, Forall_app, !Forall_forall in Hok. destruct (proj1 Hok w Hw) as (? & ? & _). lia. }
      rewrite Hout, Hd1 by done. by apply (Hcp w).
    + intros [ok d'] s3 (dl' & Hd' & Hs3 & Ho3 & Hin3 & Hok3 & Hfin & Hn3). exists dl'. split_and!; try done. intros n Hn. destruct (Hspn n Hn) as [_ Hn2]. by apply (Hn3 n).
Qed.
End dup.
