(* ===== verification/ForkThm.v ===== *)
(** The theorem on [vma_dup_all]. *)
From stdpp Require Import relations.
From S2P Require Import Prelude Mem Layout Kalloc Buddy KallocInv KallocAlloc KallocFree KallocSpec KallocThm.
From S2P Require Import Kmalloc KmallocInv KmallocProof KmallocSpec KmallocFree KmallocThm Vm VmInv VmWalk VmMap VmThm Vma VmaProof MemBoot.
From S2P Require Import VmaThm UserMem SbrkThm ForkMem.

Local Abbreviation uspace := (uspace (inv:=kalloc_inv)).

(** * What the processes see *)
Section view.
Context (src : aspace) (dpt : Z) (s0 : kmem) (H0 : fork_start src dpt s0).
Local Abbreviation spt := (pagetable src).

Lemma page_byte R s va e : sharing src dpt s0 R s -> 0 <= va < TRAPFRAME -> pte_of (ram s0) spt va = Some e -> ld8 (ram s) (pte_to_pa e + va mod 4096) = ld8 (ram s0) (pte_to_pa e + va mod 4096).
Proof using H0.
  intros Hs Hva He. destruct (start_page src dpt s0 H0 va e Hva He) as (Hl & Hn & Hnt & Hnd & _). unfold ld8. f_equal. apply (sh_ram _ _ _ _ _ Hs (pte_to_pa e) 0); try done.
  unfold covers. change (bsz 0) with 4096. pose proof (Z.mod_pos_bound va 4096). lia.
Qed.

Lemma parent_view R s va : sharing src dpt s0 R s -> 0 <= va < TRAPFRAME -> uview src s va = uview src s0 va.
Proof using H0.
  intros Hs Hva. unfold uview. pose proof (sh_src _ _ _ _ _ Hs va Hva) as Hor. destruct (pte_of (ram s0) spt va) as [e|] eqn:E; [|by destruct Hor as [->| ->]].
  destruct (start_page src dpt s0 H0 va e Hva E) as (_ & _ & _ & _ & Hr & _). destruct (shared_facts e Hr) as (_ & Hpa & _). destruct Hor as [->| ->]; cbn [fmap option_fmap option_map]; rewrite ?Hpa; by rewrite (page_byte R s va e).
Qed.

Lemma same_find l l' va : Forall2 same_vma l l' -> is_Some (vma_find_in l va) <-> is_Some (vma_find_in l' va).
Proof using Type.
  induction 1 as [|v w l l' (E1 & E2 & _) Hl IH]; [done|]. cbn [vma_find_in]. rewrite E1, E2. destruct ((start w <=? va) && (va <? end_ w)); [|done]. split; by eexists.
Qed.

Lemma child_view R s l va : sharing src dpt s0 R s -> Forall2 same_vma l (vma_list src) -> within dpt l s -> copied src dpt s0 (vma_list src) s -> covered src s0 -> 0 <= va < TRAPFRAME ->
  uview (mk_aspace dpt l) s va = uview src s0 va.
Proof using H0.
  intros Hs Hl Hin Hcp Hcov Hva. pose proof (same_find l (vma_list src) va Hl) as Hf. unfold uview, vma_find in *. cbn [pagetable vma_list]. destruct (vma_find_in (vma_list src) va) as [w|] eqn:Ew.
  - destruct (vma_find_in_elem _ _ _ Ew) as [Hw Hr]. rewrite (Hcp w va Hw Hr). destruct (pte_of (ram s0) spt va) as [e|] eqn:E; cbn [fmap option_fmap option_map].
    + destruct (start_page src dpt s0 H0 va e Hva E) as (_ & _ & _ & _ & Her & ? & Hal & _). destruct (child_entry_facts e Her) as (_ & Hpa & _); [klia|done|]. rewrite Hpa. by rewrite (page_byte R s va e).
    + destruct (vma_find_in l va); [done|]. destruct (proj2 Hf) as [? ?]; [by eexists|done].
  - destruct (pte_of (ram s0) spt va) as [e|] eqn:E; [destruct (Hcov va e Hva E) as [? Hx]; unfold vma_find in Hx; by rewrite Ew in Hx|].
    destruct (pte_of (ram s) dpt va) as [e'|] eqn:E'; [destruct (sh_dst _ _ _ _ _ Hs va e' Hva E') as (e & He & _); by rewrite E in He|]. destruct (vma_find_in l va); [|done]. destruct (proj1 Hf) as [? ?]; [by eexists|done].
Qed.
End view.

(** * Writing to a page of one's own *)

(** The state after a store of the byte [b] to the user address [va], mapped by [e]. *)
Definition stored (e va b : Z) (s : kmem) : kmem := set_ram (st8 (ram s) (pte_to_pa e + va mod 4096) b) s.

Section private.
Context (p q : aspace) (s s' : kmem) (va e : Z) (Hp : uspace p s) (Hq : uspace q s) (Hva : 0 <= va < TRAPFRAME).
Context (Hqt : forall t, table_of (ram s) (pagetable q) t -> ~ table_of (ram s) (pagetable p) t).
Context (Hqp : forall va e, 0 <= va < TRAPFRAME -> pte_of (ram s) (pagetable q) va = Some e -> ~ table_of (ram s) (pagetable p) (pte_to_pa e)).
Context (Ht : transparent (inv:=kalloc_inv) p (fun _ => False) s s') (He : pte_of (ram s') (pagetable p) va = Some e) (Hnew : forall k, ~ live s (pte_to_pa e) k) (b : Z).
Let s2 := stored e va b s'.

Lemma private_frame a k x : live s' a k -> a <> pte_to_pa e -> covers a k x -> ram s2 x = ram s' x.
Proof using Ht He Hva.
  intros Ha Hne Hx. unfold s2, stored. ksimpl. unfold st8. destruct (Z.eqb_spec x (pte_to_pa e + va mod 4096)) as [->|]; [|done]. destruct Hne. pose proof (tr_space _ _ _ _ Ht) as []. destruct (us_user va e Hva He) as [Hl _].
  destruct (pal_disj (PageAllocator:=buddy_allocator) s' a k (pte_to_pa e) 0 _ us_inv Ha Hl Hx) as [? _]; [|done]. unfold covers. change (bsz 0) with 4096. pose proof (Z.mod_pos_bound va 4096). lia.
Qed.

(** The other process sees what it saw. *)
Lemma private_other va' : 0 <= va' < TRAPFRAME -> uview q s2 va' = uview q s va'.
Proof using All.
  intros Hva'. assert (forall a k x, live s a k -> ~ table_of (ram s) (pagetable p) a -> covers a k x -> ram s2 x = ram s x) as Hkeep.
  { intros a k x Ha Hnt Hx. rewrite (private_frame a k x); [apply (tr_contents _ _ _ _ Ht a k); [done|done|done|tauto]|by apply (tr_live _ _ _ _ Ht)|intros ->; by apply (Hnew k)|done]. }
  assert (pte_of (ram s2) (pagetable q) va' = pte_of (ram s) (pagetable q) va') as Hpte.
  { unfold pte_of. assert (forall r i t, path_ok r -> table_at (ram s) (pagetable q) r = Some t -> idx_ok i -> entry (ram s2) t i = entry (ram s) t i) as Hen.
    { intros r i t Hr Hrt Hi. destruct (pt_table _ _ (us_pt _ _ Hq) r t Hr Hrt) as [Hl _]. unfold idx_ok in Hi. apply ld64_ext. intros x Hx. apply (Hkeep t 0); [done|apply Hqt; by exists r|]. unfold covers. change (bsz 0) with 4096. lia. }
    assert (forall r, path_ok r -> table_at (ram s2) (pagetable q) r = table_at (ram s) (pagetable q) r) as Htab.
    { induction r as [|j r IH] using rev_ind; intros Hr; [done|]. destruct (path_ok_app _ _ Hr) as [Hr' Hj]. rewrite !table_at_snoc, IH by done. destruct (table_at (ram s) (pagetable q) r) as [t|] eqn:E; [|done]. by rewrite (Hen r j t). }
    rewrite Htab by apply path_valid. destruct (table_at (ram s) (pagetable q) (path va')) as [t|] eqn:E; [|done]. rewrite (Hen (path va') _ t); [done|apply path_valid|done|apply PX_range; lia]. }
  unfold uview. rewrite Hpte. destruct (pte_of (ram s) (pagetable q) va') as [e'|] eqn:E; [|done]. f_equal. unfold ld8. f_equal. destruct (us_user _ _ Hq va' e' Hva' E) as [Hl _]. apply (Hkeep (pte_to_pa e') 0); [done|by apply (Hqp va')|].
  unfold covers. change (bsz 0) with 4096. pose proof (Z.mod_pos_bound va' 4096). lia.
Qed.

(** The process itself sees the byte it wrote. *)
Lemma private_own va' : 0 <= va' < TRAPFRAME -> uview p s2 va' = if decide (va' = va) then Some (u8 b) else uview p s va'.
Proof using Ht He Hva.
  intros Hva'. rewrite <- (tr_view _ _ _ _ Ht va' Hva'). pose proof (tr_space _ _ _ _ Ht) as []. destruct (us_user va e Hva He) as (Hl & Hnt & _).
  assert (pte_of (ram s2) (pagetable p) va' = pte_of (ram s') (pagetable p) va') as Hpte.
  { eapply keep_pte. intros t Htt. pose proof Htt as (r & Hr & Hrt). pose proof (pt_table _ _ us_pt r t Hr Hrt) as Hit. split; [exact Hit|]. intros x Hx. apply (private_frame t 0); [apply Hit|intros ->; done|]. unfold covers. by change (bsz 0) with 4096. }
  unfold uview. rewrite Hpte. destruct (decide (va' = va)) as [->|Hne].
  - rewrite He. unfold ld8, s2, stored. ksimpl. unfold st8. by rewrite Z.eqb_refl, u8_idem.
  - destruct (pte_of (ram s') (pagetable p) va') as [e'|] eqn:E; [|done]. f_equal. unfold ld8. f_equal. unfold s2, stored. ksimpl. unfold st8. destruct (Z.eqb_spec (pte_to_pa e' + va' mod 4096) (pte_to_pa e + va mod 4096)) as [Heq|]; [|done]. destruct Hne.
    destruct (us_user va' e' Hva' E) as [Hl' _]. pose proof (Z.mod_pos_bound va 4096 ltac:(lia)). pose proof (Z.mod_pos_bound va' 4096 ltac:(lia)).
    destruct (pal_disj (PageAllocator:=buddy_allocator) s' (pte_to_pa e) 0 (pte_to_pa e') 0 (pte_to_pa e + va mod 4096) us_inv Hl Hl') as [Hpa _]; [unfold covers; change (bsz 0) with 4096; lia|unfold covers; change (bsz 0) with 4096; lia|].
    pose proof (us_inj va e va' e' Hva Hva' He E Hpa). mlia.
Qed.
End private.

(** A store to a page that others hold, or to one not yet there, is made on a new page. *)
Lemma fault_private p s va s' : uspace p s -> 0 <= va < TRAPFRAME -> fault_ok (inv:=kalloc_inv) p EXC_STORE_PAGE va s 0 s' -> (forall e, pte_of (ram s) (pagetable p) va = Some e -> 1 < refcount (pg s (pte_to_pa e))) ->
  exists e, pte_of (ram s') (pagetable p) va = Some e /\ has e PTE_W = true /\ forall k, ~ live s (pte_to_pa e) k.
Proof.
  intros Hs Hva (Hi & _ & _ & _ & Hf) Hrc. assert (TRAPFRAME <= MAX_VA) as Htm by done. pose proof Hs as [].
  assert (forall v, vma_find p va = Some v -> 0 <= perm v < 1024) as Hprm by (intros v Hv; destruct (vma_find_in_elem _ _ _ Hv) as [Hin _]; unfold vma_perms_ok in us_vmas; rewrite Forall_forall in us_vmas; by destruct (us_vmas v Hin) as (_ & _ & ?)).
  assert (forall n, sole s' n -> 0 <= n < 2 ^ 56 /\ n mod 4096 = 0) as Hblk by (intros n [Hl _]; destruct (pal_block (PageAllocator:=buddy_allocator) s' n 0 Hi Hl) as (_ & ? & ? & ?); change (bsz 0) with 4096 in *; split; [klia|done]).
  inversion Hf as [| | |v n s1 Hv Hn Hc Hfr Hso Hz Hm|  |v e s1 Hv He Hc HC Hr1|v e n s1 Hv He Hc HC Hr1 Hfr Hso Hcp Hro Hm|]; subst s1.
  - destruct (Hblk n Hso). pose proof (Hprm v Hv). exists (leaf_pte n (perm v)). split_and!; [rewrite Hm by lia; by rewrite decide_True| |].
    + specialize (Hc eq_refl). unfold PTE_W in *. rewrite has_bit in Hc |- * by lia. by rewrite leaf_bit by (done || lia).
    + destruct (leaf_pte_pa n (perm v)) as [-> _]; done.
  - pose proof (Hrc e He). lia.
  - destruct (Hblk n Hso). assert (0 <= Z.lor (Z.land e (PTE_COW - 1)) PTE_W < 1024) as Hfl.
    { apply (lor_range _ _ 10); [lia| |done]. assert (Z.land e (PTE_COW - 1) = e mod 2 ^ 8) as -> by (apply (land_ones_mod e 8); lia). pose proof (Z.mod_pos_bound e (2 ^ 8) ltac:(lia)). lia. }
    exists (Z.lor (pa_to_pte n) (Z.lor (Z.land e (PTE_COW - 1)) PTE_W)). split_and!; [rewrite Hm by lia; by rewrite decide_True| |by rewrite pte_to_pa_lor].
    unfold PTE_W at 2. rewrite has_bit, pte_bit_lor, Z.lor_spec by (done || lia). by rewrite orb_true_r.
Qed.

(** What [p] stores after a page fault, it sees, and [q] does not. *)
Definition isolated (p q : aspace) (s : kmem) : Prop := forall va s', 0 <= va < TRAPFRAME -> handle_page_fault p EXC_STORE_PAGE va s = Ok (0, s') ->
  exists e, pte_of (ram s') (pagetable p) va = Some e /\ has e PTE_W = true /\ forall b va', 0 <= va' < TRAPFRAME ->
    uview p (stored e va b s') va' = (if decide (va' = va) then Some (u8 b) else uview p s va') /\ uview q (stored e va b s') va' = uview q s va'.

Lemma isolated_intro p q s : uspace p s -> uspace q s -> (forall t, table_of (ram s) (pagetable q) t -> ~ table_of (ram s) (pagetable p) t) ->
  (forall va e, 0 <= va < TRAPFRAME -> pte_of (ram s) (pagetable q) va = Some e -> ~ table_of (ram s) (pagetable p) (pte_to_pa e)) ->
  (forall va e, 0 <= va < TRAPFRAME -> pte_of (ram s) (pagetable p) va = Some e -> 1 < refcount (pg s (pte_to_pa e))) -> isolated p q s.
Proof.
  intros Hp Hq Ht Hpg Hrc va s' Hva E. pose proof Hp as []. destruct (wp_elim _ _ _ (handle_page_fault_spec p EXC_STORE_PAGE va s us_inv us_pt us_user us_vmas)) as (r & s1 & E1 & Hf). rewrite E in E1. injection E1 as <- <-.
  destruct (fault_transparent p (fun _ => False) _ _ _ _ _ Hp Hf) as (Htr & _). destruct (fault_private p s va s' Hp Hva Hf (fun e => Hrc va e Hva)) as (e & He & Hw & Hnew). exists e. split_and!; try done. intros b va' Hva'. split.
  - by apply (private_own p s s' va e Hva Htr He).
  - by apply (private_other p q s s' va e Hp Hq Hva Ht Hpg Htr He Hnew).
Qed.

(** * The theorem *)

(** The mapping of a page that parent and child share. *)
Record page_shared (src dst : aspace) (s s' : kmem) (va e e1 e2 : Z) : Prop := {
  ps_parent : pte_of (ram s') (pagetable src) va = Some e1 /\ pte_to_pa e1 = pte_to_pa e /\ has e1 PTE_W = false;
  ps_child : pte_of (ram s') (pagetable dst) va = Some e2 /\ pte_to_pa e2 = pte_to_pa e /\ has e2 PTE_W = false;
  ps_cow : has e PTE_W = true -> has e1 PTE_COW = true /\ has e2 PTE_COW = true;
  ps_refs : refcount (pg s' (pte_to_pa e)) = refcount (pg s (pte_to_pa e)) + 1
}.

Record dup_done (src dst : aspace) (s s' : kmem) : Prop := {
  dd_vmas : Forall2 same_vma (vma_list dst) (vma_list src);
  dd_view : forall va, 0 <= va < TRAPFRAME -> uview dst s' va = uview src s va;
  dd_pages : forall va e, 0 <= va < TRAPFRAME -> pte_of (ram s) (pagetable src) va = Some e -> exists e1 e2, page_shared src dst s s' va e e1 e2;
  dd_isolated : isolated src dst s' /\ isolated dst src s';
  dd_objs : NoDup (vma_ptr <$> vma_list dst) /\ forall x m, slab_obj s' x m <-> slab_obj s x m \/ (m = 64 /\ x ∈ vma_ptr <$> vma_list dst)
}.
Record dup_undone (src dst : aspace) (s s' : kmem) : Prop := {
  du_vmas : vma_list dst = [];
  du_pages : forall va, 0 <= va < TRAPFRAME -> pte_of (ram s') (pagetable dst) va = None;
  du_refs : forall va e, 0 <= va < TRAPFRAME -> pte_of (ram s) (pagetable src) va = Some e -> refcount (pg s' (pte_to_pa e)) = refcount (pg s (pte_to_pa e));
  du_objs : forall x m, slab_obj s' x m <-> slab_obj s x m
}.
(** What both outcomes leave of the rest of memory. *)
Record dup_frame (src : aspace) (dpt : Z) (s s' : kmem) : Prop := {
  df_heap : kheap_inv s';
  df_view : forall va, 0 <= va < TRAPFRAME -> uview src s' va = uview src s va;
  df_kept : forall a k x, live s a k -> no_slab s a -> ~ table_of (ram s) (pagetable src) a -> ~ table_of (ram s) dpt a -> covers a k x -> live s' a k /\ ram s' x = ram s x;
  df_new : forall a k, live s' a k -> live s a k \/ (k = 0 /\ (table_of (ram s') dpt a \/ exists c p, slab_page s' c p /\ page_to_pa p = a))
}.

Section theorem.
Context (src : aspace) (dpt : Z) (s : kmem) (H0 : fork_start src dpt s) (Hord : vmas_ok (vma_list src)) (Hcov : covered src s).
Local Abbreviation spt := (pagetable src).

Lemma src_ranges : Forall range_ok (vma_list src).
Proof using H0 Hord.
  pose proof (fs_src _ _ _ H0) as []. destruct Hord as [_ Ho]. unfold vma_perms_ok in us_vmas. rewrite Forall_forall in *. intros v Hv. destruct (us_vmas v Hv) as (? & ? & _). destruct (us_aligned v Hv). pose proof (Ho v Hv) as Hle. cbv beta in Hle. unfold range_ok. split_and!; (done || lia).
Qed.

Lemma forked_frame s' : forked src dpt s s' -> dup_frame src dpt s s' /\ uspace src s'.
Proof using H0.
  intros (R & Hs & HR). split; [|by eapply sharing_parent]. split; [apply Hs|intros va Hva; by eapply parent_view| |apply Hs].
  intros a k x Ha Hn Hnt Hnd Hx. split; [by apply (sh_live _ _ _ _ _ Hs)|by apply (sh_ram _ _ _ _ _ Hs a k)].
Qed.

Lemma child_space s' l : forked src dpt s s' -> Forall range_ok l -> Forall (fun v => 0 <= perm v < 1024) l -> uspace (mk_aspace dpt l) s'.
Proof using H0.
  intros (R & Hs & _) Hok Hp. eapply sharing_child; [done|exact Hs| |].
  - unfold vma_perms_ok. cbn. rewrite Forall_forall in *. intros v Hv. destruct (Hok v Hv) as (? & ? & _). pose proof (Hp v Hv) as Hpv. cbv beta in Hpv. split_and!; lia.
  - eapply Forall_impl; [exact Hok|]. intros v (_ & _ & ? & ?). done.
Qed.

Lemma dup_success s' l : forked src dpt s s' -> owned s (vma_ptr <$> l) s' -> within dpt l s' -> Forall range_ok l -> Forall2 same_vma l (vma_list src) -> copied src dpt s (vma_list src) s' ->
  uspace (mk_aspace dpt l) s' /\ dup_done src (mk_aspace dpt l) s s'.
Proof using H0 Hcov.
  intros Hfk Hown Hin Hrok Hl Hcp. assert (uspace (mk_aspace dpt l) s') as Hd.
  { apply child_space; try done. pose proof (us_vmas _ _ (fs_src _ _ _ H0)) as Hv. unfold vma_perms_ok in Hv. clear - Hl Hv. induction Hl as [|v w l l' (_ & _ & E & _) Hl IH]; [done|]. apply Forall_cons in Hv as [(_ & _ & Hw) Hv]. apply Forall_cons. split; [by rewrite E|by apply IH]. }
  split; [done|]. pose proof Hfk as (R & Hs & HR). pose proof (sharing_parent src dpt s H0 R s' Hs) as Hp.
  assert (forall va e, 0 <= va < TRAPFRAME -> pte_of (ram s) spt va = Some e -> exists e1 e2, page_shared src (mk_aspace dpt l) s s' va e e1 e2) as Hpages.
  { intros va e Hva He. destruct (Hcov va e Hva He) as [w Hw]. destruct (vma_find_in_elem _ _ _ Hw) as [Hwin Hr]. pose proof (Hcp w va Hwin Hr) as Hc. rewrite He in Hc. cbn [fmap option_fmap option_map] in Hc.
    assert (R (va / 4096) = true) as HRt by (apply HR; [done|by eexists]). pose proof (sh_done _ _ _ _ _ Hs va Hva HRt) as Hsd. rewrite He in Hsd. cbn [fmap option_fmap option_map] in Hsd. pose proof (sh_refs _ _ _ _ _ Hs va e Hva He) as Hrf. rewrite HRt in Hrf.
    destruct (start_page src dpt s H0 va e Hva He) as (_ & _ & _ & _ & Her & ? & Hal & _). destruct (child_entry_facts e Her) as (_ & Hpa & Hcw & _ & Hcc); [klia|done|]. destruct (shared_facts e Her) as (_ & Hspa & Hsw & _ & _ & Hsc).
    exists (shared_entry e), (child_entry e). split; cbn [pagetable]; try done. intros Hw0. specialize (Hsc Hw0). by rewrite Hcc. }
  assert (forall va e, 0 <= va < TRAPFRAME -> pte_of (ram s') spt va = Some e -> 1 < refcount (pg s' (pte_to_pa e))) as Hrc.
  { intros va e Hva He. destruct (shared_page src dpt s H0 R s' va e Hs Hva He) as (e0 & He0 & -> & _). destruct (Hpages va e0 Hva He0) as (? & ? & [_ _ _ ->]). destruct (start_page src dpt s H0 va e0 Hva He0) as (_ & _ & _ & _ & _ & _ & _ & ?). lia. }
  assert (forall va e', 0 <= va < TRAPFRAME -> pte_of (ram s') dpt va = Some e' -> exists e, pte_of (ram s') spt va = Some e /\ pte_to_pa e' = pte_to_pa e) as Hsame.
  { intros va e' Hva He'. destruct (sh_dst _ _ _ _ _ Hs va e' Hva He') as (e & He & Hse & ->). destruct (start_page src dpt s H0 va e Hva He) as (_ & _ & _ & _ & Her & ? & Hal & _). destruct (child_entry_facts e Her) as (_ & Hpa & _); [klia|done|]. destruct (shared_facts e Her) as (_ & Hspa & _). exists (shared_entry e). split; [done|congruence]. }
  split; cbn [pagetable vma_list]; try done; [intros va Hva; by eapply child_view| |by destruct Hown as (? & _ & ?)]. split; apply isolated_intro; try done; cbn [pagetable].
  - intros t Ht Ht'. apply (sh_stab _ _ _ _ _ Hs) in Ht'. by apply (child_table src dpt s H0 R s' t Hs Ht).
  - intros va e' Hva He'. destruct (Hsame va e' Hva He') as (e & He & ->). by apply (us_user _ _ Hp va).
  - intros t Ht Ht'. apply (sh_stab _ _ _ _ _ Hs) in Ht. by apply (child_table src dpt s H0 R s' t Hs Ht').
  - intros va e Hva He Ht'. destruct (shared_page src dpt s H0 R s' va e Hs Hva He) as (e0 & He0 & Hpa & _). by apply (proj2 (child_table src dpt s H0 R s' _ Hs Ht') va e0).
  - intros va e' Hva He'. destruct (Hsame va e' Hva He') as (e & He & ->). by apply (Hrc va).
Qed.

Lemma vma_dup_all_spec : wp (vma_dup_all (mk_aspace dpt []) src) (fun r s' => dup_frame src dpt s s' /\ pagetable r.2 = dpt /\ uspace src s' /\ uspace r.2 s' /\
  ((r.1 = 0 /\ dup_done src r.2 s s') \/ (r.1 = -1 /\ dup_undone src r.2 s s')) /\ (spare_n s (dup_need (vma_list src) + 1) -> r.1 = 0)) s.
Proof using H0 Hord Hcov.
  assert (forked src dpt s s) as Hf0. { exists (fun _ => false). split; [by apply start_sharing|]. intros va Hva. rewrite (fs_empty _ _ _ H0 va Hva). split; [done|by intros [? ?]]. }
  unfold vma_dup_all. apply wp_bind. eapply wp_mono; [apply (dup_vmas_spec src dpt s H0 (vma_list src) [] [] s); try done; [apply src_ranges| | |]|].
  { unfold owned. cbn. split_and!; [constructor|intros x Hx; by apply elem_of_nil in Hx|]. intros x m. rewrite elem_of_nil. tauto. }
  { intros va Hva [? Hx]. by rewrite (fs_empty _ _ _ H0 va Hva) in Hx. }
  { intros v va Hv. by apply elem_of_nil in Hv. }
  intros [ok d] s1 (dl & Hd & Hs1 & Ho1 & Hin1 & Hok1 & Hfin & Hsp). cbn in Hd, Hfin, Hsp. subst d. destruct ok.
  - wp_steps. destruct Hfin as [Hsm Hcp]; [done|]. destruct (forked_frame s1 Hs1) as [Hfr Hpar]. destruct (dup_success s1 dl Hs1 Ho1 Hin1 Hok1 Hsm Hcp) as [Hch Hdone]. cbn. split_and!; try done. by left.
  - unfold vma_free_all. cbn [pagetable vma_list]. wp_steps. eapply wp_mono; [by apply (undo_vmas_spec src dpt s H0 dl s1)|]. intros [] s2 (Hs2 & Ho2 & Hnone). wp_steps. destruct (forked_frame s2 Hs2) as [Hfr Hpar]. cbn.
    split_and!; try done; [by apply child_space| |intros Hn; by discriminate (Hsp 0%nat Hn)]. right. split; [done|]. destruct Hs2 as (R & Hs2 & HR). destruct Ho2 as (_ & _ & Ho2). split; cbn [pagetable vma_list]; try done.
    + intros va e Hva He. rewrite (sh_refs _ _ _ _ _ Hs2 va e Hva He). destruct (R (va / 4096)) eqn:E; [|lia]. apply HR in E as [? Hx]; [by rewrite Hnone in Hx|done].
    + intros x m. rewrite Ho2, elem_of_nil. tauto.
Qed.
End theorem.

(** C11: vma_dup_all, called as fork calls it, with the child's new page table and no VMAs,
    always returns, and the parent sees after it what it saw before.  With enough free pages
    (a slab for each VMA, two tables for each page of them, and one) it returns 0.  Then the
    child has a copy of each VMA, in order, and sees exactly what the parent sees; every page
    is shared, with one more reference, is writable for neither, and is marked copy-on-write
    in both tables if it was writable; and from then on a store of either process (a page
    fault, then the write) is seen by that process alone.  Otherwise it returns -1 and has
    undone everything: no page of the child is left, each page has the references it had, and
    the heap the objects it had.  On either outcome every other allocated page keeps its
    contents, and what is newly allocated is a table of the child or a slab of the heap. *)
Theorem vma_dup_all_correct src dpt s : fork_start src dpt s -> vmas_ok (vma_list src) -> covered src s ->
  exists r dst s', vma_dup_all (mk_aspace dpt []) src s = Ok ((r, dst), s') /\ pagetable dst = dpt /\ dup_frame src dpt s s' /\ uspace src s' /\ uspace dst s' /\
  ((r = 0 /\ dup_done src dst s s') \/ (r = -1 /\ dup_undone src dst s s')) /\ (spare_n s (dup_need (vma_list src) + 1) -> r = 0).
Proof.
  intros H0 Hord Hcov. destruct (wp_elim _ _ _ (vma_dup_all_spec src dpt s H0 Hord Hcov)) as ([r dst] & s' & E & Hf & Hpt & Hs & Hd & Hres & Hsp). by exists r, dst, s'.
Qed.

(** * A process with one page *)
Lemma page_alloc s n : kheap_inv s -> spare_n s (S n) -> exists r s', r <> NULL /\ alloc_post 0 s r s' /\ heap_same s s' /\ fresh_page s s' r (fun _ => 0) /\ no_slab s' r /\ spare_n s' n.
Proof.
  intros Hh Hn. pose proof Hh as [Hi _]. destruct (wp_elim _ _ _ (pal_alloc (PageAllocator:=buddy_allocator) 0 s Hi ltac:(klia))) as (r & s' & _ & Hpost & Hi').
  assert (r <> NULL) as Hr by (destruct Hpost as [(-> & _ & Hno)|Hp]; [by destruct (spare_memory s n Hi Hn)|apply Hp]). exists r, s'. destruct (ext_facts s s' r Hi' Hr Hpost) as ([Hfs Hsc] & Hfr & _ & _ & _ & _ & _ & _ & Hl & _). pose proof (alloc_fresh_page s s' r Hi Hi' Hr Hpost) as Hfp.
  assert (heap_same s s') as Hhs.
  { apply heap_frame; try done. intros c p Hp. destruct (slab_page_live s c p Hh Hp) as (Hlp & Hpp & Hcov). split_and!; [|apply Hl; by left|intros x Hx; by apply (Hfr _ 0 Hlp), Hcov]. destruct (Hfr _ 0 Hlp (page_to_pa p)) as [_ Hpg]; [apply Hcov; lia|]. unfold pg in Hpg. by rewrite Hpp in Hpg. }
  split_and!; try done.
  - intros c p Hp Heq. apply Hhs in Hp. destruct (slab_page_live s c p Hh Hp) as (Hlp & _). rewrite Heq in Hlp. destruct Hfp as (_ & _ & _ & _ & _ & _ & _ & _ & _ & Hno). by apply (Hno 0).
  - destruct Hn as (l & Hsp & Hlen). destruct (spare_grow s s' r l) as (l' & ? & ?); [done|intros a k; apply Hl|done|]. exists l'. split; [done|lia].
Qed.

Definition demo_proc (root : Z) : aspace := mk_aspace root [mk_vma NULL 0x1000 0x3000 0x16 VMA_HEAP].

Section demo.
Context (s3 s4 : kmem) (r1 r2 g : Z).
Context (Hh : kheap_inv s3) (Hpt1 : pt_ok s3 r1) (Hpt2 : pt_ok s3 r2) (Ht1 : forall t, table_of (ram s3) r1 t <-> t = r1) (Ht2 : forall t, table_of (ram s3) r2 t <-> t = r2).
Context (Hn1 : forall va, pte_of (ram s3) r1 va = None) (Hn2 : forall va, pte_of (ram s3) r2 va = None).
Context (Hs1 : no_slab s3 r1) (Hs2 : no_slab s3 r2) (Hs3 : no_slab s3 g) (Hg : live s3 g 0) (Hrg : refcount (pg s3 g) = 1) (Hd : r1 <> r2 /\ r1 <> g /\ r2 <> g).
Context (Hst : pt_step (inv:=kalloc_inv) r1 s3 s4) (Hm : remapped r1 0x1000 (leaf_pte g 0x16) s3 s4).

Lemma demo_live : live s3 r1 0 /\ live s3 r2 0 /\ live s4 g 0 /\ pte_to_pa (leaf_pte g 0x16) = g /\ 0 <= leaf_pte g 0x16 < 2 ^ 54 /\ has (leaf_pte g 0x16) PTE_W = true.
Proof using All.
  destruct (pal_block (PageAllocator:=buddy_allocator) s3 g 0 (proj1 Hh) Hg) as (_ & ? & ? & ?). change (bsz 0) with 4096 in *. assert (0 <= g < 2 ^ 56) as Hgr by klia. destruct (leaf_pte_pa g 0x16) as [Hpa _]; [done..|].
  assert (0 <= leaf_pte g 0x16 < 2 ^ 54) as Hr by (rewrite leaf_pte_eq; apply pte_range_lor; done). split_and!; try lia.
  - by apply (pt_table _ _ Hpt1 []); [split; [cbn; lia|constructor]|].
  - by apply (pt_table _ _ Hpt2 []); [split; [cbn; lia|constructor]|].
  - apply (pg_live _ _ _ Hst). by left.
  - unfold PTE_W. rewrite has_bit, leaf_bit by (done || lia). done.
Qed.

Lemma demo_maps va e : 0 <= va < MAX_VA -> pte_of (ram s4) r1 va = Some e -> va / 4096 = 1 /\ e = leaf_pte g 0x16.
Proof using Hm Hn1. intros Hva He. rewrite Hm in He by done. case_decide as Hc; [injection He as <-; by split|]. by rewrite Hn1 in He. Qed.
Lemma demo_tables t : table_of (ram s4) r1 t -> t <> g /\ t <> r2 /\ no_slab s4 t.
Proof using All.
  intros Ht. destruct demo_live as (_ & Hl2 & _). pose proof (heap_pt_step r1 s3 s4 Hh Hst ltac:(by intros t' ->%Ht1)) as Hhs. destruct (pg_tables _ _ _ Hst t Ht) as [->%Ht1|Hno].
  - destruct Hd as (? & ? & ?). split_and!; [done|done|by eapply same_no_slab].
  - split_and!; [intros ->; by apply (Hno 0)|intros ->; by apply (Hno 0)|]. intros c p Hp <-. apply Hhs in Hp. destruct (slab_page_live s3 c p Hh Hp) as [Hl _]. by apply (Hno 0).
Qed.

Lemma demo_start : fork_start (demo_proc r1) r2 s4 /\ covered (demo_proc r1) s4.
Proof using All.
  destruct demo_live as (Hl1 & Hl2 & Hlg & Hpa & Hr & Hw). pose proof (heap_pt_step r1 s3 s4 Hh Hst ltac:(by intros t' ->%Ht1)) as Hhs. assert (TRAPFRAME <= MAX_VA) as Htm by done. assert (0x3000 <= TRAPFRAME) as Ht3 by done.
  assert (forall t, table_of (ram s3) r2 t -> ~ table_of (ram s3) r1 t) as Hap by (intros t ->%Ht2 Ht%Ht1; by destruct Hd). pose proof (foreign_table r1 r2 s3 s4 Hpt2 Hst Hap) as Hk. pose proof (keep_pte s3 s4 r2 Hk) as Hp2. pose proof (keep_table_of s3 s4 r2 Hk) as Hto2.
  assert (refcount (pg s4 g) = 1) as Hrc by (rewrite (step_refs r1 s3 s4 g 0); done).
  split; [split; cbn [pagetable demo_proc]|].
  - apply Hhs.
  - split; cbn [pagetable demo_proc vma_list]; [apply Hst|apply Hst| | | | | |].
    + intros va e Hva He. destruct (demo_maps va e ltac:(lia) He) as [_ ->]. rewrite Hpa. split_and!; [done| |lia..]. intros Ht. by destruct (demo_tables g Ht).
    + apply Forall_cons. split; [|done]. cbn. split_and!; (done || lia).
    + apply Forall_cons. split; [|done]. by cbn.
    + intros va e Hva He. destruct (demo_maps va e) as [Hc _]; [assert (0 <= TRAPFRAME) by done; lia|done|]. mlia.
    + intros va e va' e' Hva Hva' He He' _. destruct (demo_maps va e ltac:(lia) He) as [-> _], (demo_maps va' e' ltac:(lia) He') as [-> _]. done.
    + intros va e Hva He _. destruct (demo_maps va e ltac:(lia) He) as [_ ->]. by rewrite Hpa.
  - by eapply keep_pt_ok.
  - intros va _. by rewrite Hp2.
  - intros va e _ He. by rewrite Hp2, Hn2 in He.
  - intros t ->%Hto2%Ht2. split; [intros Ht; by destruct (demo_tables r2 Ht) as (_ & ? & _)|]. intros va e Hva He. destruct (demo_maps va e ltac:(lia) He) as [_ ->]. rewrite Hpa. by destruct Hd as (_ & _ & ?).
  - intros t [Ht| ->%Hto2%Ht2]; [by apply demo_tables|by eapply same_no_slab].
  - intros va e Hva He. destruct (demo_maps va e ltac:(lia) He) as [_ ->]. rewrite Hpa, Hrc. split; [by eapply same_no_slab|done].
  - intros va e Hva He. destruct (demo_maps va e ltac:(lia) He) as [Hc _]. unfold vma_find. cbn. destruct (Z.leb_spec 0x1000 va), (Z.ltb_spec va 0x3000); cbn; try (by eexists); mlia.
Qed.
End demo.

Lemma fork_demo : exists root dpt s e, fork_start (demo_proc root) dpt s /\ covered (demo_proc root) s /\ pte_of (ram s) root 0x1000 = Some e /\ has e PTE_W = true /\ spare_n s 6.
Proof.
  destruct (memory_init (KERN_BASE + 0x8000) (KERN_BASE + 0x7000)) with (s := demo_bss) (kernel_end := KERN_BASE + 0x200000) (n := 20%nat) as (_ & _ & _ & _ & _ & _ & _ & _ & _ & _ & _ & _ & s0 & _ & Hh & _ & _ & Hsp).
  { rewrite KERN_BASE_val. by vm_compute. } { rewrite KERN_BASE_val, PHYS_STOP_val. by vm_compute. } { rewrite KERN_BASE_val. by vm_compute. } { rewrite KERN_BASE_val, PHYS_STOP_val. by vm_compute. }
  { intros k _. reflexivity. } { rewrite KERN_BASE_val, PHYS_STOP_val. by vm_compute. } { rewrite KERN_BASE_val, PHYS_STOP_val. by vm_compute. }
  destruct (page_alloc s0 19 Hh Hsp) as (r1 & s1 & Hr1 & Hpost1 & Hhs1 & Hf1 & Hns1 & Hsp1). destruct (page_alloc s1 18 (proj1 Hhs1) Hsp1) as (r2 & s2 & Hr2 & Hpost2 & Hhs2 & Hf2 & Hns2 & Hsp2). destruct (page_alloc s2 17 (proj1 Hhs2) Hsp2) as (g & s3 & _ & _ & Hhs3 & Hf3 & Hns3 & Hsp3).
  pose proof (proj1 (proj1 Hhs1)) as Hi1. pose proof (proj1 (proj1 Hhs2)) as Hi2. pose proof (proj1 (proj1 Hhs3)) as Hi3.
  destruct (fresh_root s0 s1 r1 Hi1 Hr1 Hpost1) as (Hpt1 & Hn1 & Ht1). destruct (fresh_root s1 s2 r2 Hi2 Hr2 Hpost2) as (Hpt2 & Hn2 & Ht2).
  pose proof (alloc_keep s1 s2 r2 _ r1 Hi1 Hi2 Hf2 Hpt1) as K12. pose proof (keep_pt_ok s1 s2 r1 Hpt1 K12) as Hpt12. pose proof (alloc_keep s2 s3 g _ r1 Hi2 Hi3 Hf3 Hpt12) as K13. pose proof (alloc_keep s2 s3 g _ r2 Hi2 Hi3 Hf3 Hpt2) as K23.
  assert (live s1 r1 0 /\ live s2 r1 0 /\ live s2 r2 0 /\ live s3 g 0 /\ refcount (pg s3 g) = 1) as (Hl1 & Hl12 & Hl2 & Hlg & Hrg).
  { destruct Hf1 as (_ & _ & _ & _ & _ & _ & _ & _ & Hl1 & _), Hf2 as (_ & _ & _ & _ & _ & _ & _ & _ & Hl2 & _), Hf3 as (_ & _ & _ & _ & _ & _ & Hrc & _ & Hl3 & _). split_and!; [apply Hl1; by right|apply Hl2; left; apply Hl1; by right|apply Hl2; by right|apply Hl3; by right|done]. }
  assert (r1 <> r2 /\ r1 <> g /\ r2 <> g) as Hd.
  { destruct Hf2 as (_ & _ & _ & _ & _ & _ & _ & _ & _ & Hno2), Hf3 as (_ & _ & _ & _ & _ & _ & _ & _ & _ & Hno3). split_and!; intros ->; [by apply (Hno2 0)|by apply (Hno3 0)|by apply (Hno3 0)]. }
  pose proof (keep_pt_ok s2 s3 r1 Hpt12 K13) as Hpt13. pose proof (keep_pt_ok s2 s3 r2 Hpt2 K23) as Hpt23. assert (forall va, pte_of (ram s3) r1 va = None) as Hn13 by (intros va; rewrite (keep_pte s2 s3 r1 K13), (keep_pte s1 s2 r1 K12); apply Hn1).
  assert (forall t, table_of (ram s3) r1 t <-> t = r1) as Ht13 by (intros t; by rewrite (keep_table_of s2 s3 r1 K13), (keep_table_of s1 s2 r1 K12)).
  destruct (pal_block (PageAllocator:=buddy_allocator) s3 g 0 Hi3 Hlg) as (_ & Hga & ? & ?). change (bsz 0) with 4096 in *.
  destruct (wp_elim _ _ _ (map_page_spec s3 r1 0x1000 g 0x16 Hi3 Hpt13 ltac:(done) ltac:(done) ltac:(lia) Hga ltac:(done) (Hn13 _))) as (r & s4 & _ & Hst & Hres & Hsp4). destruct (Hsp4 14%nat Hsp3) as [-> Hsp5]. destruct Hres as [[_ Hm]|[? _]]; [|done].
  exists r1, r2, s4, (leaf_pte g 0x16). destruct (demo_start s3 s4 r1 r2 g) as [Hs Hc]; try done.
  { apply Hhs3. } { intros t. by rewrite (keep_table_of s2 s3 r2 K23). } { intros va. by rewrite (keep_pte s2 s3 r2 K23). } { eapply same_no_slab; [exact Hhs3|]. eapply same_no_slab; [exact Hhs2|done]. } { eapply same_no_slab; [exact Hhs3|done]. }
  split_and!; [done|done|by rewrite Hm by done| |].
  - unfold PTE_W. assert (0 <= g < 2 ^ 56) by klia. rewrite has_bit, leaf_bit by (done || lia). done.
  - destruct Hsp5 as (l & Hl & Hn). exists l. split; [done|lia].
Qed.

Lemma vma_dup_all_correct_witness : exists src dpt s dst s', fork_start src dpt s /\ vma_dup_all (mk_aspace dpt []) src s = Ok ((0, dst), s') /\ uspace dst s' /\ dup_done src dst s s' /\ exists e, pte_of (ram s) (pagetable src) 0x1000 = Some e.
Proof.
  destruct fork_demo as (root & dpt & s & e & Hs & Hc & He & _ & Hsp). assert (vmas_ok (vma_list (demo_proc root))) as Ho by (split; repeat constructor; vm_compute; congruence).
  destruct (vma_dup_all_correct (demo_proc root) dpt s Hs Ho Hc) as (r & dst & s' & E & _ & _ & _ & Hd & Hres & Hn). assert (r = 0) as -> by (apply Hn; exact Hsp).
  destruct Hres as [[_ Hdone]|[Hx _]]; [|discriminate Hx]. exists (demo_proc root), dpt, s, dst, s'. exact (conj Hs (conj E (conj Hd (conj Hdone (ex_intro _ e He))))).
Defined.
