(* ===== verification/Exec.v ===== *)
(** Program loading ([kernel/exec.c], [kernel/include/elf_defs.h]): the part of
    [proc_exec] that builds the new address space.

    An embedded binary is the bytes the build puts into the kernel, by offset; the
    names and the bytes are parameters.  The argument strings are lists of bytes
    without their terminator.  The loader works on the memory state of the page
    allocator; [false] and [None] stand for [goto fail]. *)
From S2P Require Import Prelude Mem Layout Kalloc Kmalloc Vm Vma.

Definition ELF_MAGIC : Z := 0x464C457F.
Definition EI_CLASS : Z := 4.
Definition EI_DATA : Z := 5.
Definition ELFCLASS64 : Z := 2.
Definition ELFDATA2LSB : Z := 1.
Definition EM_RISCV : Z := 0xF3.
Definition PT_LOAD : Z := 1.
Definition PF_X : Z := 0x1.
Definition PF_W : Z := 0x2.
Definition PF_R : Z := 0x4.
Definition MAXARG : Z := 16.
Definition ENOENT : Z := 2.

(** * The ELF image *)
Definition e_machine (img : mem) : Z := ld 2 img 18.
Definition e_entry (img : mem) : Z := ld64 img 24.
Definition e_phoff (img : mem) : Z := ld64 img 32.
Definition e_phnum (img : mem) : Z := ld 2 img 56.
Definition elf_valid (img : mem) : bool :=
  (ld32 img 0 =? ELF_MAGIC) && (ld8 img EI_CLASS =? ELFCLASS64) && (ld8 img EI_DATA =? ELFDATA2LSB) && (e_machine img =? EM_RISCV).

Record elf_phdr := mk_phdr { p_type : Z; p_flags : Z; p_offset : Z; p_vaddr : Z; p_filesz : Z; p_memsz : Z }.
Definition SIZEOF_PHDR : Z := 56.
Definition phdr_at (img : mem) (i : Z) : elf_phdr :=
  let o := e_phoff img + i * SIZEOF_PHDR in
  mk_phdr (ld32 img o) (ld32 img (o + 4)) (ld64 img (o + 8)) (ld64 img (o + 16)) (ld64 img (o + 32)) (ld64 img (o + 40)).

Definition elf_to_pte (flags' : Z) : Z :=
  let perm := PTE_U in
  let perm := if Z.land flags' PF_R =? 0 then perm else Z.lor perm PTE_R in
  let perm := if Z.land flags' PF_W =? 0 then perm else Z.lor perm PTE_W in
  if Z.land flags' PF_X =? 0 then perm else Z.lor perm PTE_X.

(** [strcmp(binaries[i].name, name) == 0] is equality of the strings. *)
Fixpoint lookup_binary (binaries : list (string * mem)) (name : string) : option mem :=
  match binaries with
  | [] => None
  | (n, img) :: l => if String.eqb n name then Some img else lookup_binary l name
  end.

(** memcpy of bytes that are not in the allocator's memory. *)
Definition fill (m : mem) (dst : Z) (f : Z -> Z) (n : Z) : mem := fun x =>
  if in_range x dst n then u8 (f (x - dst)) else m x.
Definition mem_write (dst : Z) (f : Z -> Z) (n : Z) : M kmem unit :=
  s ← get; require (ram_ok s dst n);; modify (set_ram (fill (ram s) dst f n)).

(** * Segments *)

(** One page of a segment; the new [src] and [filesz_remaining]. *)
Definition load_page (img : mem) (new_pt prm va src rem : Z) : M kmem (option (Z * Z)) :=
  pg ← kalloc;
  if pg =? NULL then mret None else
  let chunk := if PG_SIZE <? rem then PG_SIZE else rem in
  (if 0 <? chunk then mem_write pg (fun i => img (src + i)) chunk else mret tt);;
  r ← map_pages new_pt va PG_SIZE pg prm;
  if r <? 0 then kfree pg;; mret None else mret (Some (src + chunk, rem - chunk)).

Fixpoint load_pages (n : nat) (img : mem) (new_pt prm va end' src rem : Z) : M kmem bool :=
  if va <? end' then
    match n with
    | O => out_of_fuel
    | S n' =>
        r ← load_page img new_pt prm va src rem;
        match r with
        | None => mret false
        | Some (src', rem') => load_pages n' img new_pt prm (u64 (va + PG_SIZE)) end' src' rem'
        end
    end
  else mret true.

Definition seg_start (ph : elf_phdr) : Z := PG_ROUND_DOWN (p_vaddr ph).
Definition seg_end (ph : elf_phdr) : Z := PG_ROUND_UP (u64 (p_vaddr ph + p_memsz ph)).
Definition load_segment (img : mem) (new_pt : Z) (ph : elf_phdr) : M kmem bool :=
  load_pages (page_count (seg_start ph) (seg_end ph)) img new_pt (elf_to_pte (p_flags ph)) (seg_start ph) (seg_end ph) (p_offset ph) (p_filesz ph).

(** The loop over the program headers; the list of VMAs and [heap_start] so far. *)
Fixpoint load_segments (n : nat) (i : Z) (img : mem) (new_pt : Z) (vmas : list vma) (heap_start : Z) : M kmem (bool * list vma * Z) :=
  match n with
  | O => mret (true, vmas, heap_start)
  | S n' =>
      let ph := phdr_at img i in
      if negb (p_type ph =? PT_LOAD) then load_segments n' (i + 1) img new_pt vmas heap_start else
      ok ← load_segment img new_pt ph;
      if negb (ok : bool) then mret (false, vmas, heap_start) else
      v ← vma_create (seg_start ph) (seg_end ph) (elf_to_pte (p_flags ph)) 0;
      match v with
      | None => mret (false, vmas, heap_start)
      | Some v => load_segments n' (i + 1) img new_pt (vmas ++ [v]) (if heap_start <? seg_end ph then seg_end ph else heap_start)
      end
  end.

(** * The stack *)
Definition stack_page_bot : Z := USER_STACK_TOP - PG_SIZE.

(** A string with its terminator, as the bytes memcpy reads. *)
Definition cstring (str : list Z) : Z -> Z := fun i => default 0 (str !! Z.to_nat i).

(** The loop that copies the strings; [uargv] holds their user addresses. *)
Fixpoint push_strings (argv : list (list Z)) (stack argc sp : Z) (uargv : list Z) : M kmem (option (Z * Z * list Z)) :=
  match argv with
  | [] => mret (Some (argc, sp, uargv))
  | str :: argv' =>
      if MAXARG <=? argc then mret None else
      let len := u64 (Z.of_nat (length str) + 1) in
      let sp := u64 (sp - len) in
      if sp <? stack_page_bot then mret None else
      mem_write (stack + (sp - stack_page_bot)) (cstring str) len;;
      push_strings argv' stack (argc + 1) sp (uargv ++ [sp])
  end.

Fixpoint push_pointers (uargv : list Z) (a : Z) : M kmem unit :=
  match uargv with
  | [] => store64 a 0
  | v :: l => store64 a v;; push_pointers l (a + 8)
  end.

Definition push_argv (argv : list (list Z)) (stack : Z) : M kmem (option (Z * Z)) :=
  r ← push_strings argv stack 0 USER_STACK_TOP [];
  match r with
  | None => mret None
  | Some (argc, sp, uargv) =>
      let sp := Z.land sp (Z.lnot 15) in
      let sp := u64 (sp - (argc + 1) * 8) in
      if sp <? stack_page_bot then mret None else
      push_pointers uargv (stack + (sp - stack_page_bot));;
      mret (Some (argc, sp))
  end.

(** * The new address space *)
Definition PERM_RWU : Z := Z.lor (Z.lor PTE_R PTE_W) PTE_U.

(** Heap VMA, stack page, stack VMA and arguments. *)
Definition build_stack (new_pt : Z) (vmas : list vma) (heap_start : Z) (argv : list (list Z)) : M kmem (option (Z * Z) * list vma) :=
  h ← vma_create heap_start heap_start PERM_RWU VMA_HEAP;
  match h with
  | None => mret (None, vmas)
  | Some hv =>
      let vmas := vmas ++ [hv] in
      stack ← kalloc;
      if stack =? NULL then mret (None, vmas) else
      r ← map_pages new_pt stack_page_bot PG_SIZE stack PERM_RWU;
      if r <? 0 then kfree stack;; mret (None, vmas) else
      v ← vma_create USER_STACK_BOT USER_STACK_TOP PERM_RWU VMA_STACK;
      match v with
      | None => mret (None, vmas)
      | Some sv => a ← push_argv argv stack; mret (a, vmas ++ [sv])
      end
  end.

(** The code after [fail]. *)
Definition cleanup_page (new_pt va : Z) : M kmem bool :=
  pte ← walk new_pt va false;
  if pte =? NULL then mret true else
  e ← load64 pte;
  if negb (has e PTE_V) then mret true else
  page_put (pte_to_pa e);; mret true.
Fixpoint cleanup_vmas (new_pt : Z) (l : list vma) : M kmem unit :=
  match l with
  | [] => mret tt
  | pos :: l' =>
      for_pages (page_count (start pos) (end_ pos)) (start pos) (end_ pos) (cleanup_page new_pt);;
      kmfree (vma_ptr pos);;
      cleanup_vmas new_pt l'
  end.
Definition exec_fail (new_pt : Z) (vmas : list vma) : M kmem unit :=
  cleanup_vmas new_pt vmas;; proc_free_pagetable new_pt.

Record image := mk_image { i_space : aspace; i_sp : Z; i_argc : Z; i_entry : Z }.

(** From the lookup of the binary to the point of no return: the error code, or the
    new address space with the registers of its start. *)
Definition exec_build (binaries : list (string * mem)) (user_vec trapframe : Z) (path : string) (argv : list (list Z)) : M kmem (Z + image) :=
  match lookup_binary binaries path with
  | None => mret (inl (- ENOENT))
  | Some img =>
      if negb (elf_valid img) then mret (inl (- ENOENT)) else
      new_pt ← proc_pagetable user_vec trapframe;
      if new_pt =? NULL then mret (inl (- ENOMEM)) else
      '(ok, vmas, heap_start) ← load_segments (Z.to_nat (e_phnum img)) 0 img new_pt [] 0;
      '(a, vmas) ← (if (ok : bool) then build_stack new_pt vmas heap_start argv else mret (None, vmas));
      match a with
      | None => exec_fail new_pt vmas;; mret (inl (- 1))
      | Some (argc, sp) => mret (inr (mk_image (mk_aspace new_pt vmas) sp argc (e_entry img)))
      end
  end.

(** The swap of the address spaces. *)
Definition exec_swap (old : aspace) (new : image) : M kmem aspace :=
  old' ← vma_free_all old;
  (if negb (pagetable old' =? NULL) then proc_free_pagetable (pagetable old') else mret tt);;
  mret (i_space new).
