(* ===== verification/ExecProof.v ===== *)
(** The argument block on the stack of a new program.

    Loading the segments of a program into an address space. *)
From S2P Require Import Prelude Mem Layout Kalloc Buddy KallocInv KallocAlloc KallocSpec Kmalloc Vm VmInv VmWalk VmMap VmThm Vma VmaProof UserMem Exec.

(** * Strings in memory *)
Lemma fill_in m dst f n x : dst <= x < dst + n -> fill m dst f n x = u8 (f (x - dst)).
Proof. intros. unfold fill. by rewrite in_range_true. Qed.
Lemma fill_out m dst f n x : ~ dst <= x < dst + n -> fill m dst f n x = m x.
Proof. intros. unfold fill. by rewrite in_range_false. Qed.

Definition str_size (str : list Z) : Z := Z.of_nat (length str) + 1.
Definition str_ok (str : list Z) : Prop := Forall (fun c => 0 < c < 256) str /\ str_size str <= 2 ^ 32.

Lemma cstr_ext m m' a l : (forall x, a <= x < a + str_size l -> m' x = m x) -> KString.cstr m a l -> KString.cstr m' a l.
Proof.
  unfold str_size. intros Hx [Hc Hz]. unfold KString.cstr, ld8 in *. split.
  - intros i c Hi. destruct (Hc i c Hi) as [? Hl]. split; [done|]. apply lookup_lt_Some in Hi. by rewrite Hx by lia.
  - by rewrite Hx by lia.
Qed.
Lemma cstr_fill m a l : str_ok l -> KString.cstr (fill m a (cstring l) (str_size l)) a l.
Proof.
  unfold str_size. intros [Hf _]. unfold KString.cstr, ld8. split.
  - intros i c Hi. pose proof (Forall_lookup_1 _ _ _ _ Hf Hi) as Hc. cbv beta in Hc. pose proof (lookup_lt_Some _ _ _ Hi). split; [lia|]. rewrite fill_in, u8_idem by (unfold str_size; lia).
    unfold cstring. replace (Z.to_nat _) with i by lia. rewrite Hi. cbn. by rewrite u8_small by lia.
  - rewrite fill_in, u8_idem by (unfold str_size; lia). unfold cstring. rewrite lookup_ge_None_2 by lia. done.
Qed.

(** * The layout *)
Fixpoint sizes (argv : list (list Z)) : Z := match argv with [] => 0 | str :: l => str_size str + sizes l end.
Fixpoint tops (argv : list (list Z)) (sp : Z) : list Z := match argv with [] => [] | str :: l => (sp - str_size str) :: tops l (sp - str_size str) end.
Definition final_sp (argv : list (list Z)) : Z := Z.land (USER_STACK_TOP - sizes argv) (Z.lnot 15) - (Z.of_nat (length argv) + 1) * 8.

Lemma sizes_pos argv : 0 <= sizes argv.
Proof. induction argv as [|str l IH]; cbn [sizes]; unfold str_size; lia. Qed.
Lemma tops_range argv : forall sp a, a ∈ tops argv sp -> sp - sizes argv <= a < sp.
Proof.
  induction argv as [|str l IH]; intros sp a; cbn [tops sizes]; [by intros ?%elem_of_nil|]. unfold str_size in *. pose proof (sizes_pos l).
  intros [->|Ha]%elem_of_cons; [lia|]. specialize (IH _ _ Ha). lia.
Qed.
Lemma tops_length argv : forall sp, length (tops argv sp) = length argv.
Proof. induction argv as [|str l IH]; intros sp; cbn [tops length]; [done|]. by rewrite IH. Qed.

Section stack.
Context (stack : Z).
(** The physical address of a user address on the page of the stack. *)
Definition at_stack (va : Z) : Z := stack + (va - stack_page_bot).

Definition strings_at (m : mem) (argv : list (list Z)) (sp : Z) : Prop :=
  forall i str a, argv !! i = Some str -> tops argv sp !! i = Some a -> KString.cstr m (at_stack a) str.

Lemma strings_at_ext m m' argv sp : (forall x, at_stack (sp - sizes argv) <= x < at_stack sp -> m' x = m x) -> strings_at m argv sp -> strings_at m' argv sp.
Proof using Type.
  intros Hx Hs i str a Hi Ha. apply (cstr_ext m); [|by apply (Hs i)]. intros x Hr. apply Hx. clear Hs Hx. revert sp i Hi Ha. unfold at_stack in *. unfold str_size in *.
  induction argv as [|s0 l IH]; intros sp [|i] Hi Ha; cbn in Hi, Ha; simplify_eq; cbn [sizes]; unfold str_size in *; pose proof (sizes_pos l); [lia|].
  specialize (IH _ _ Hi Ha). lia.
Qed.

Lemma stack_bot_val : stack_page_bot = 2 ^ 38 - 16384 /\ USER_STACK_TOP = 2 ^ 38 - 12288.
Proof using Type. done. Qed.

Context (s0 : kmem) (Hlo : free_start s0 <= stack) (Hhi : stack + 4096 <= PHYS_STOP).

(** [m] changes [s0] only in the part of the stack page below [sp]. *)
Definition below (m0 m : mem) (sp : Z) : Prop := forall x, ~ stack <= x < at_stack sp -> m x = m0 x.

Lemma push_strings_spec argv : forall argc sp uargv m0, 0 <= argc <= MAXARG -> stack_page_bot <= sp <= USER_STACK_TOP -> Forall str_ok argv ->
  wp (push_strings argv stack argc sp uargv) (fun r s' => exists m, s' = set_ram m s0 /\ below m0 m sp /\
    match r with
    | None => MAXARG < argc + Z.of_nat (length argv) \/ sp - sizes argv < stack_page_bot
    | Some (argc', sp', uargv') => argc' = argc + Z.of_nat (length argv) /\ argc' <= MAXARG /\ sp' = sp - sizes argv /\ stack_page_bot <= sp' /\
        uargv' = uargv ++ tops argv sp /\ strings_at m argv sp /\ forall x, x < at_stack sp' -> m x = m0 x
    end) (set_ram m0 s0).
Proof using Hlo Hhi.
  destruct stack_bot_val as [Eb Et]. change MAXARG with 16.
  induction argv as [|str l IH]; intros argc sp uargv m0 Ha Hsp Hok; cbn [push_strings sizes tops length].
  - wp_steps. exists m0. split_and!; try done; try lia. by rewrite app_nil_r.
  - apply Forall_cons in Hok as [Hs Hl]. pose proof Hs as [_ Hsz]. pose proof (sizes_pos l). change MAXARG with 16. destruct (Z.leb_spec 16 argc).
    { wp_steps. exists m0. split_and!; try done. left. lia. }
    fold (str_size str). assert (0 < str_size str) by (unfold str_size; lia). rewrite (u64_small (str_size str)), u64_small by lia.
    destruct (Z.ltb_spec (sp - str_size str) stack_page_bot). { wp_steps. exists m0. split_and!; try done. right. lia. }
    unfold mem_write. wp_steps. apply wp_require. { apply ram_ok_true; unfold set_ram; cbn; lia. } wp_steps. fold (at_stack (sp - str_size str)). set (sp1 := sp - str_size str) in *.
    set (m1 := fill _ _ _ _). change (set_ram m1 (set_ram m0 s0)) with (set_ram m1 s0).
    assert (below m0 m1 sp) as Hb1. { intros x Hx. apply fill_out. unfold at_stack in *. lia. }
    eapply wp_mono; [apply (IH (argc + 1) sp1 (uargv ++ [sp1]) m1); (done || lia)|]. intros r s' (m & -> & Hb & Hr). exists m. split; [done|].
    assert (below m0 m sp) as Hb2. { intros x Hx. rewrite Hb; [by apply Hb1|]. unfold at_stack in *. lia. }
    split; [done|]. destruct r as [[[argc' sp'] uargv']|]; [|destruct Hr; [left|right]; lia]. destruct Hr as (-> & ? & -> & ? & -> & Hst & Hlow). split_and!; try lia.
    + by rewrite <- app_assoc.
    + intros [|i] str' a Hi Ha'; cbn in Hi, Ha'; [|by apply (Hst i)]. simplify_eq. apply (cstr_ext m1); [|by apply cstr_fill]. intros x Hx. apply Hb. unfold at_stack, sp1 in *. lia.
    + intros x Hx. rewrite Hlow by done. apply fill_out. unfold at_stack in *. lia.
Qed.

Lemma push_pointers_spec l : forall a m0, free_start s0 <= a -> a + 8 * (Z.of_nat (length l) + 1) <= PHYS_STOP -> Forall (fun v => 0 <= v < 2 ^ 64) l ->
  wp (push_pointers l a) (fun _ s' => exists m, s' = set_ram m s0 /\ (forall x, ~ a <= x < a + 8 * (Z.of_nat (length l) + 1) -> m x = m0 x) /\
    (forall i v, l !! i = Some v -> ld64 m (a + 8 * Z.of_nat i) = v) /\ ld64 m (a + 8 * Z.of_nat (length l)) = 0) (set_ram m0 s0).
Proof using Type.
  induction l as [|v l IH]; intros a m0 H1 H2 Hf; cbn [push_pointers length] in *.
  - apply wp_store64; [done|lia|]. exists (st64 m0 a 0). split_and!; try done.
    + intros x Hx. apply st64_out. lia.
    + cbn. rewrite Z.add_0_r. by apply ld64_st64_eq.
  - apply Forall_cons in Hf as [Hv Hf]. apply wp_bind, wp_store64; [done|lia|]. eapply wp_mono; [apply (IH (a + 8) (st64 m0 a v)); (done || lia)|].
    intros [] s' (m & -> & Hout & Hp & Hz). exists m. split_and!; try done.
    + intros x Hx. rewrite Hout by lia. apply st64_out. lia.
    + intros [|i] w Hi; cbn in Hi.
      * injection Hi as ->. rewrite Z.add_0_r. rewrite (ld64_ext (st64 m0 a w)); [by apply ld64_st64_eq|]. intros x Hx. apply Hout. lia.
      * rewrite <- (Hp i w Hi). f_equal. lia.
    + rewrite <- Hz. f_equal. lia.
Qed.

Lemma push_argv_spec argv : Forall str_ok argv ->
  wp (push_argv argv stack) (fun r s' => exists m, s' = set_ram m s0 /\ (forall x, ~ stack <= x < stack + 4096 -> m x = ram s0 x) /\
    match r with
    | None => MAXARG < Z.of_nat (length argv) \/ final_sp argv < stack_page_bot
    | Some (argc, sp) => argc = Z.of_nat (length argv) /\ argc <= MAXARG /\ sp = final_sp argv /\ stack_page_bot <= sp /\ strings_at m argv USER_STACK_TOP /\
        (forall i a, tops argv USER_STACK_TOP !! i = Some a -> ld64 m (at_stack (sp + 8 * Z.of_nat i)) = a) /\ ld64 m (at_stack (sp + 8 * argc)) = 0
    end) s0.
Proof using Hlo Hhi.
  intros Hok. destruct stack_bot_val as [Eb Et]. unfold push_argv. assert (set_ram (ram s0) s0 = s0) as E0 by by destruct s0.
  pose proof (push_strings_spec argv 0 USER_STACK_TOP [] (ram s0) ltac:(done) ltac:(lia) Hok) as Hps. rewrite E0 in Hps. apply wp_bind. eapply wp_mono; [exact Hps|]. intros r s' (m & -> & Hb & Hr).
  assert (forall x, ~ stack <= x < stack + 4096 -> m x = ram s0 x) as Hout. { intros x Hx. apply Hb. unfold at_stack. rewrite Eb, Et. lia. }
  pose proof (sizes_pos argv) as Hsz. assert (forall z, Z.land z (Z.lnot 15) = z - z mod 16) as Hal by (intros z; apply (land_lnot_ones z 4); lia).
  assert (Z.of_nat (length argv) <= sizes argv) as Hlen. { clear. induction argv as [|str l IH]; cbn [length sizes]; unfold str_size; lia. }
  unfold final_sp. rewrite Hal. destruct r as [[[argc sp] uargv]|]; cycle 1.
  { wp_steps. exists m. split_and!; try done. destruct Hr as [Hr|Hr]; [left; lia|right]. pose proof (Z.mod_pos_bound (USER_STACK_TOP - sizes argv) 16). lia. }
  destruct Hr as (-> & Hm & -> & Hge & -> & Hst & Hlow). rewrite Z.add_0_l in *. rewrite Hal. set (n := Z.of_nat (length argv)) in *. set (b := USER_STACK_TOP - sizes argv) in *.
  pose proof (Z.mod_pos_bound b 16 ltac:(lia)). change MAXARG with 16 in *. rewrite u64_small by lia. destruct (Z.ltb_spec (b - b mod 16 - (n + 1) * 8) stack_page_bot) as [Hlt|Hge'].
  { wp_steps. exists m. split_and!; try done. right. lia. }
  set (sp := b - b mod 16 - (n + 1) * 8) in *. cbn [app]. apply wp_bind. eapply wp_mono; [apply (push_pointers_spec (tops argv USER_STACK_TOP) (stack + (sp - stack_page_bot)) m)|].
  - lia.
  - rewrite tops_length. fold n. lia.
  - apply Forall_forall. intros v Hv%tops_range. fold b in Hv. lia.
  - intros [] s' (m' & -> & Hout' & Hp & Hz). rewrite tops_length in *. fold n in Hout', Hz. wp_steps. exists m'. split_and!; try done.
    + intros x Hx. rewrite Hout' by lia. by apply Hout.
    + apply (strings_at_ext m); [|done]. intros x Hx. apply Hout'. fold b in Hx. unfold at_stack in Hx. lia.
    + intros i a Ha. rewrite <- (Hp i a Ha). f_equal. unfold at_stack. lia.
    + rewrite <- Hz. f_equal. unfold at_stack. lia.
Qed.
End stack.

(** * Loading segments *)

(** The bytes of a segment of the file from [src] on, [rem] of them, zero behind. *)
Definition file_bytes (img : mem) (src rem : Z) : Z -> Z := fun i => if i <? rem then u8 (img (src + i)) else 0.

Definition leaf_flags (prm : Z) : Z := Z.lor prm (Z.lor PTE_V (Z.lor PTE_A PTE_D)).

Section load.
Context {inv : kmem -> Prop} {PA : PageAllocator inv kalloc_pages kfree_pages}.
Implicit Types s : kmem.

Lemma remapped_ubyte s s' root va n prm c : user_ok s root -> space_grow (inv:=inv) root s s' -> 0 <= va < TRAPFRAME -> va mod 4096 = 0 -> KERN_BASE <= n -> n + 4096 <= PHYS_STOP -> n mod 4096 = 0 -> 0 <= prm < 1024 ->
  (forall x, n <= x < n + 4096 -> ram s' x = c (x - n)) -> remapped root va (leaf_pte n prm) s s' ->
  forall va', 0 <= va' < TRAPFRAME -> ubyte s' root va' = if decide (va <= va' < va + 4096) then Some (u8 (c (va' - va)), leaf_flags prm) else ubyte s root va'.
Proof using Type.
  intros Hu Hg Hva Hal ? ? ? Hprm Hc Hm va' Hva'. assert (TRAPFRAME <= MAX_VA) by done. pose proof (Hm va' ltac:(lia)) as He. destruct (decide (va <= va' < va + 4096)) as [Hd|Hd].
  - rewrite decide_True in He by mlia. unfold ubyte. rewrite He. destruct (leaf_pte_pa n prm) as [-> Hfl]; [klia|done|done|]. rewrite Hfl. unfold ld8. rewrite Hc by mlia. do 3 f_equal. f_equal. mlia.
  - rewrite decide_False in He by mlia. apply ubyte_kept; [done|by apply Hg|done|done].
Qed.

(** * One page *)
Lemma filled_fresh s s1 n f k : inv s -> inv s1 -> fresh_page s s1 n (fun _ => 0) -> 0 <= k <= 4096 ->
  inv (set_ram (fill (ram s1) n f k) s1) /\ fresh_page s (set_ram (fill (ram s1) n f k) s1) n (fun i => if i <? k then u8 (f i) else 0).
Proof using PA.
  intros Hi Hi1 (He & Hfr & ? & ? & ? & Hz & Hr & Hdj & Hl & Hn) Hk. assert (forall x, ~ n <= x < n + 4096 -> fill (ram s1) n f k x = ram s1 x) as Hout by (intros x Hx; apply fill_out; lia).
  assert (live s1 n 0) as Hln by (apply Hl; by right). split.
  - eapply pal_client; [exact Hi1|]. split_and!; try done.
    + intros q. by pose proof (pal_u16 s1 q Hi1).
    + intros x Hx. apply Hout. intros Hin. apply (Hx n 0 Hln). unfold covers. by change (bsz 0) with 4096.
  - unfold fresh_page. split_and!; try done.
    + intros a j Ha x Hx. destruct (Hfr a j Ha x Hx) as [E1 E2]. split; [|exact E2]. ksimpl. rewrite <- E1. apply Hout. by apply (Hdj a j).
    + intros x Hx. ksimpl. destruct (Z.ltb_spec (x - n) k); [by rewrite fill_in by lia|]. rewrite fill_out by lia. by apply Hz.
Qed.

Lemma load_page_spec img root prm va src rem s : inv s -> pt_ok s root -> user_ok s root -> 0 <= prm < 1024 -> 0 <= va < TRAPFRAME -> va mod 4096 = 0 -> 0 <= rem ->
  pte_of (ram s) root va = None ->
  wp (load_page img root prm va src rem) (fun r s' => space_grow (inv:=inv) root s s' /\
    match r with
    | Some (src', rem') => src' = src + Z.min 4096 rem /\ rem' = rem - Z.min 4096 rem /\
        forall va', 0 <= va' < TRAPFRAME -> ubyte s' root va' = if decide (va <= va' < va + 4096) then Some (file_bytes img src rem (va' - va), leaf_flags prm) else ubyte s root va'
    | None => (forall va', 0 <= va' < TRAPFRAME -> ubyte s' root va' = ubyte s root va') /\ exists s0, no_memory s0 /\ forall a k, live s a k -> live s0 a k
    end) s.
Proof using PA.
  intros Hi Hpt Hu Hprm Hva Hal Hrem Hnone. unfold load_page. wp_steps. eapply wp_mono; [apply (pal_alloc 0 s Hi); klia|]. intros n s1 [Hpost Hi1].
  destruct (Z.eqb_spec n NULL) as [->|Hn].
  { wp_steps. destruct Hpost as [(_ & -> & Hnm)|[? _]]; [|done]. split; [by apply grow_refl|]. split; [done|]. by exists s. }
  pose proof (alloc_fresh_page s s1 n Hi Hi1 Hn Hpost) as Hf. rewrite PG_SIZE_val. set (chunk := if 4096 <? rem then 4096 else rem). assert (chunk = Z.min 4096 rem) as Hch by (unfold chunk; destruct (Z.ltb_spec 4096 rem); lia).
  set (c := fun i => if i <? chunk then u8 (img (src + i)) else 0).
  assert (wp (if 0 <? chunk then mem_write n (fun i => img (src + i)) chunk else mret tt) (fun _ s2 => inv s2 /\ fresh_page s s2 n c) s1) as Hfill.
  { destruct (Z.ltb_spec 0 chunk) as [Hpos|Hz].
    - unfold mem_write. wp_steps. pose proof Hf as (_ & _ & ? & ? & _ & _ & _ & _ & Hl & _). assert (live s1 n 0) as Hln by (apply Hl; by right). destruct (pal_block s1 n 0 Hi1 Hln) as (_ & _ & ? & ?).
      apply wp_require; [apply ram_ok_true; lia|]. wp_steps. apply filled_fresh; (done || lia).
    - wp_steps. split; [done|]. destruct Hf as (? & ? & ? & ? & ? & Hzz & Hrest). unfold fresh_page. split_and!; try done; try apply Hrest. intros x Hx. unfold c. destruct (Z.ltb_spec (x - n) chunk); [lia|by apply Hzz]. }
  apply wp_bind. eapply wp_mono; [exact Hfill|]. intros [] s2 [Hi2 Hf2]. apply wp_bind. pose proof (map_fresh_spec s s2 root va n prm c Hi Hi2 Hf2 Hpt Hu Hva Hnone Hprm) as Hm.
  rewrite PG_SIZE_val, PG_ROUND_DOWN_mod, Hal, Z.sub_0_r in Hm. eapply wp_mono; [exact Hm|]. pose proof Hf as (_ & _ & ? & ? & ? & _).
  intros r s3 [(-> & Hsp & Hso & Hz & Hmap)|(-> & Hnm & Hlv & Hun)].
  - wp_steps. pose proof (step_grow _ _ _ _ Hsp) as Hg. split; [done|]. split_and!; [lia|lia|]. intros va' Hva'. rewrite (remapped_ubyte s s3 root va n prm c) by done. case_decide; [|done]. do 2 f_equal.
    unfold c, file_bytes. destruct (Z.ltb_spec (va' - va) chunk), (Z.ltb_spec (va' - va) rem); try lia; [by rewrite u8_idem|done].
  - destruct (Z.ltb_spec (-1) 0); [|lia]. wp_steps. eapply wp_mono; [exact Hun|]. intros [] s4 [Hsp Hsame]. wp_steps. pose proof (step_grow _ _ _ _ Hsp) as Hg. split; [done|]. split; [|by exists s3].
    intros va' Hva'. apply ubyte_kept; [done|apply Hg|done|]. apply Hsame. assert (TRAPFRAME <= MAX_VA) by done. lia.
Qed.

(** * The pages of a segment *)
Lemma load_pages_spec img root prm end' : 0 <= prm < 1024 -> end' <= TRAPFRAME -> end' mod 4096 = 0 ->
  forall n va src rem s, inv s -> pt_ok s root -> user_ok s root -> 0 <= va <= end' -> va mod 4096 = 0 -> 0 <= rem -> va + 4096 * Z.of_nat n = end' ->
  (forall va', va <= va' < end' -> pte_of (ram s) root va' = None) ->
  wp (load_pages n img root prm va end' src rem) (fun ok s' => space_grow (inv:=inv) root s s' /\
    (forall va', 0 <= va' < TRAPFRAME -> ~ va <= va' < end' -> ubyte s' root va' = ubyte s root va') /\
    if (ok : bool) then forall va', va <= va' < end' -> ubyte s' root va' = Some (file_bytes img src rem (va' - va), leaf_flags prm)
    else exists s0, no_memory s0 /\ forall a k, live s a k -> live s0 a k) s.
Proof using PA.
  intros Hprm Hend Hea. induction n as [|n IH]; intros va src rem s Hi Hpt Hu Hva Hal Hrem Hn Hfree; cbn [load_pages].
  - destruct (Z.ltb_spec va end'); [lia|]. wp_steps. split; [by apply grow_refl|]. split; [done|]. intros va' Hva'. lia.
  - destruct (Z.ltb_spec va end'); [|lia]. apply wp_bind. eapply wp_mono; [apply load_page_spec; try done; [lia|]; apply Hfree; lia|]. intros r s1 [Hg Hr]. destruct r as [[src' rem']|]; cycle 1.
    { wp_steps. destruct Hr as [Hsame Hex]. split; [done|]. split; [|done]. intros va' Hva' _. by apply Hsame. }
    destruct Hr as (-> & -> & Hmap). assert (TRAPFRAME = 2 ^ 38 - 8192) as Htf by done. assert (4096 * Z.of_nat n = end' - (va + 4096)) by lia. rewrite PG_SIZE_val, u64_small by lia.
    eapply wp_mono; [apply IH; try apply Hg; try lia; [mlia|]|].
    + intros va' Hva'. specialize (Hmap va' ltac:(lia)). rewrite decide_False in Hmap by lia. unfold ubyte in Hmap. rewrite (Hfree va') in Hmap by lia. by destruct (pte_of (ram s1) root va').
    + intros ok s2 (Hg2 & Hout & Hok). split; [by eapply grow_trans|]. split.
      * intros va' Hva' Hnr. rewrite Hout by lia. rewrite Hmap by lia. by rewrite decide_False by lia.
      * destruct ok; cycle 1. { destruct Hok as (s0 & Hnm & Hlv). exists s0. split; [done|]. intros a k Ha. by apply Hlv, (sg_live _ _ _ Hg). }
        intros va' Hva'. destruct (decide (va' < va + 4096)); [rewrite Hout by lia; rewrite Hmap by lia; by rewrite decide_True by lia|]. rewrite Hok by lia. do 2 f_equal.
        unfold file_bytes. destruct (Z.ltb_spec (va' - (va + 4096)) (rem - Z.min 4096 rem)), (Z.ltb_spec (va' - va) rem); try lia. do 2 f_equal. lia.
Qed.
End load.
