(* ===== verification/ExecThm.v ===== *)
(** Theorems on program loading ([kernel/exec.c]). *)
From S2P Require Import Prelude Mem Layout Kalloc Buddy KallocInv KallocAlloc KallocSpec KallocThm Kmalloc.
From S2P Require Import Vm VmInv VmWalk VmMap VmThm Vma VmaProof VmaThm UserMem Exec ExecProof.

Lemma elf_to_pte_bits f : 0 <= elf_to_pte f < 1024 /\ has (elf_to_pte f) PTE_U = true /\ has (elf_to_pte f) PTE_R = negb (Z.land f PF_R =? 0) /\
  has (elf_to_pte f) PTE_W = negb (Z.land f PF_W =? 0) /\ has (elf_to_pte f) PTE_X = negb (Z.land f PF_X =? 0).
Proof. unfold elf_to_pte. destruct (Z.land f PF_R =? 0), (Z.land f PF_W =? 0), (Z.land f PF_X =? 0); vm_compute; by split_and!. Qed.

Lemma seg_pages ph : 0 <= p_vaddr ph -> 0 <= p_memsz ph -> p_vaddr ph + p_memsz ph <= TRAPFRAME ->
  0 <= seg_start ph <= seg_end ph /\ seg_start ph <= p_vaddr ph /\ p_vaddr ph + p_memsz ph <= seg_end ph <= TRAPFRAME /\ seg_start ph mod 4096 = 0 /\ seg_end ph mod 4096 = 0 /\
  seg_start ph + 4096 * Z.of_nat (page_count (seg_start ph) (seg_end ph)) = seg_end ph.
Proof.
  intros Hv Hm Ht. assert (TRAPFRAME = 67108862 * 4096) as Htf by done. unfold seg_start, seg_end, page_count. rewrite u64_small by lia. pose proof (PG_ROUND_DOWN_range (p_vaddr ph)). pose proof (PG_ROUND_DOWN_aligned (p_vaddr ph)).
  destruct (PG_ROUND_UP_range (p_vaddr ph + p_memsz ph)) as [? ?]; [lia|lia|]. rewrite PG_SIZE_val. rewrite Z2Nat.id by mlia. split_and!; try done; mlia.
Qed.


(** C13: The arguments of the new program: [push_argv] returns, writes nothing but the
    stack page, and succeeds exactly when there are at most MAXARG arguments and
    strings, padding and pointers fit on the page.  Then argc is their number, and at
    the user address sp there is the array of pointers to the NUL-terminated strings,
    in order, with a NULL behind, all of it between the bottom and the top of the page.
    The stack pointer is a multiple of 16 only when argc is odd, although the comment
    promises it always. *)
Theorem exec_stack_correct argv stack s : free_start s <= stack -> stack + PG_SIZE <= PHYS_STOP -> Forall str_ok argv ->
  exists r s', push_argv argv stack s = Ok (r, s') /\ s' = set_ram (ram s') s /\ (forall x, ~ stack <= x < stack + PG_SIZE -> ram s' x = ram s x) /\
    (r = None <-> MAXARG < Z.of_nat (length argv) \/ final_sp argv < stack_page_bot) /\
    (forall argc sp, r = Some (argc, sp) -> argc = Z.of_nat (length argv) /\ sp = final_sp argv /\ stack_page_bot <= sp /\ (sp mod 16 = 0 <-> Z.odd argc = true) /\
       ld64 (ram s') (at_stack stack (sp + 8 * argc)) = 0 /\
       forall i str, argv !! i = Some str -> exists a, ld64 (ram s') (at_stack stack (sp + 8 * Z.of_nat i)) = a /\ sp + 8 * (argc + 1) <= a /\ a + str_size str <= USER_STACK_TOP /\ KString.cstr (ram s') (at_stack stack a) str).
Proof.
  intros Hlo Hhi Hok. rewrite PG_SIZE_val in *. destruct (wp_elim _ _ _ (push_argv_spec stack s Hlo Hhi argv Hok)) as (r & s' & Heq & m & -> & Hout & Hr). exists r, (set_ram m s).
  assert (forall z, Z.land z (Z.lnot 15) = z - z mod 16) as Hal by (intros z; apply (land_lnot_ones z 4); lia). pose proof (Z.mod_pos_bound (USER_STACK_TOP - sizes argv) 16 ltac:(lia)) as Hmod.
  split; [done|]. split; [done|]. split; [done|]. split.
  - destruct r as [[argc sp]|]; [|done]. destruct Hr as (-> & ? & -> & ? & _). split; [done|]. lia.
  - intros argc sp ->. destruct Hr as (-> & Hm & -> & Hge & Hst & Hp & Hz). split_and!; try done.
    + unfold final_sp. rewrite Hal. rewrite Zodd_mod, Z.eqb_eq. mlia.
    + intros i str Hi. destruct (lookup_lt_is_Some_2 (tops argv USER_STACK_TOP) i) as [a Ha]; [rewrite tops_length; by eapply lookup_lt_Some|]. exists a. pose proof (Hst i str a Hi Ha) as Hc. pose proof (Hp i a Ha) as Hl.
      split; [exact Hl|]. pose proof (tops_range argv _ a ltac:(by eapply list_elem_of_lookup_2)) as Hr. split; [unfold final_sp; rewrite Hal; lia|]. split; [|exact Hc].
      clear - Hi Ha. revert i Hi Ha. generalize USER_STACK_TOP. induction argv as [|s0 l IH]; intros t [|i] Hi Ha; cbn in Hi, Ha; simplify_eq; [lia|]. specialize (IH _ _ Hi Ha). unfold str_size in *. lia.
Qed.

(** * Witnesses *)
Definition demo_phdr : elf_phdr := mk_phdr PT_LOAD (Z.lor PF_R PF_X) 0x1000 0x1000 100 0x1100.
Definition demo_img : mem := fun i => i.


Definition demo_argv : list (list Z) := [[105; 110]; [120]].
Definition demo_ram : kmem := set_free_start KERN_BASE demo_bss.
Lemma exec_stack_correct_witness : exists r s', push_argv demo_argv KERN_BASE demo_ram = Ok (r, s') /\ r <> None /\
  forall argc sp, r = Some (argc, sp) -> argc = 2 /\ sp mod 16 <> 0 /\ exists a, KString.cstr (ram s') (at_stack KERN_BASE a) [105; 110].
Proof.
  destruct (exec_stack_correct demo_argv KERN_BASE demo_ram) as (r & s' & E & _ & _ & Hn & Hs); [vm_compute; congruence|vm_compute; congruence|repeat constructor; vm_compute; congruence|].
  exists r, s'. split; [exact E|]. split.
  - intros Hr. apply Hn in Hr. revert Hr. intros [H|H]; vm_compute in H; congruence.
  - intros argc sp Hr. destruct (Hs argc sp Hr) as (-> & _ & _ & Ho & _ & Hst). split; [reflexivity|]. split; [intros Hz; apply Ho in Hz; vm_compute in Hz; congruence|].
    destruct (Hst 0%nat [105; 110] eq_refl) as (a & _ & _ & _ & Hc). exists a. exact Hc.
Defined.
