(* ===== verification/ListH.v ===== *)
(** [kernel/include/list.h]: intrusive circular doubly linked lists, and
    [kernel/include/hashtable.h] on top of them.

    A [struct list_head] is a node address with a [prev] and a [next] field; a
    dereference of NULL is undefined.  [is_list st head l] says that the ring of
    [head] holds exactly the nodes [l], in order; the operations refine the
    functional list operations. *)
From S2P Require Import Prelude.

Definition NULLP : Z := 0.
Record links := mk_links { prev : Z -> Z; next : Z -> Z }.

Definition get_next (n : Z) : M links Z := require (negb (n =? NULLP));; gets (fun st => next st n).
Definition get_prev (n : Z) : M links Z := require (negb (n =? NULLP));; gets (fun st => prev st n).
Definition set_next (n v : Z) : M links unit :=
  require (negb (n =? NULLP));; modify (fun st => mk_links (prev st) (upd (next st) n v)).
Definition set_prev (n v : Z) : M links unit :=
  require (negb (n =? NULLP));; modify (fun st => mk_links (upd (prev st) n v) (next st)).

(** * Operations *)
Definition INIT_LIST_HEAD (head : Z) : M links unit := set_next head head;; set_prev head head.

Definition list_add_between (new p n : Z) : M links unit :=
  set_next p new;; set_next new n;; set_prev n new;; set_prev new p.
Definition list_add (new head : Z) : M links unit := n ← get_next head; list_add_between new head n.
Definition list_add_tail (new head : Z) : M links unit := p ← get_prev head; list_add_between new p head.

Definition list_del_between (p n : Z) : M links unit := set_next p n;; set_prev n p.
Definition list_del (entry : Z) : M links unit :=
  p ← get_prev entry; n ← get_next entry;
  list_del_between p n;;
  set_prev entry NULLP;; set_next entry NULLP.
Definition list_del_init (entry : Z) : M links unit :=
  p ← get_prev entry; n ← get_next entry;
  list_del_between p n;;
  INIT_LIST_HEAD entry.

Definition list_empty (head : Z) : M links bool := n ← get_next head; mret (n =? head).
Definition list_is_singular (head : Z) : M links bool :=
  e ← list_empty head;
  if (e : bool) then mret false else
  n ← get_next head; p ← get_prev head; mret (n =? p).

(** [for (pos = head->next; pos != head; pos = pos->next) body(pos)], where the
    body may [break] by returning a value. *)
Fixpoint for_each_from {A} (fuel : nat) (pos head : Z) (body : Z -> M links (option A)) : M links (option A) :=
  match fuel with
  | O => out_of_fuel
  | S fuel' =>
      if pos =? head then mret None else
      r ← body pos;
      match r with
      | Some v => mret (Some v)
      | None => nxt ← get_next pos; for_each_from fuel' nxt head body
      end
  end.
Definition list_for_each {A} (fuel : nat) (head : Z) (body : Z -> M links (option A)) : M links (option A) :=
  pos ← get_next head; for_each_from fuel pos head body.

Fixpoint for_each_reverse_from {A} (fuel : nat) (pos head : Z) (body : Z -> M links (option A)) : M links (option A) :=
  match fuel with
  | O => out_of_fuel
  | S fuel' =>
      if pos =? head then mret None else
      r ← body pos;
      match r with
      | Some v => mret (Some v)
      | None => prv ← get_prev pos; for_each_reverse_from fuel' prv head body
      end
  end.
Definition list_for_each_reverse {A} (fuel : nat) (head : Z) (body : Z -> M links (option A)) : M links (option A) :=
  pos ← get_prev head; for_each_reverse_from fuel pos head body.

(** [for (pos = head->next, tmp = pos->next; pos != head; pos = tmp, tmp = pos->next)] *)
Fixpoint for_each_safe_from (fuel : nat) (pos tmp head : Z) (body : Z -> M links unit) : M links unit :=
  match fuel with
  | O => out_of_fuel
  | S fuel' =>
      if pos =? head then mret tt else
      body pos;;
      tmp' ← get_next tmp;
      for_each_safe_from fuel' tmp tmp' head body
  end.
Definition list_for_each_safe (fuel : nat) (head : Z) (body : Z -> M links unit) : M links unit :=
  pos ← get_next head; tmp ← get_next pos; for_each_safe_from fuel pos tmp head body.

(** * Representation *)

(** Consecutive nodes of [c] point at each other. *)
Fixpoint chained (st : links) (c : list Z) : Prop :=
  match c with
  | a :: ((b :: _) as c') => next st a = b /\ prev st b = a /\ chained st c'
  | _ => True
  end.

(** The ring of [head] holds the nodes [l]. *)
Record is_list (st : links) (head : Z) (l : list Z) : Prop := {
  il_chained : chained st (head :: l ++ [head]);
  il_nodup : NoDup (head :: l);
  il_nonnull : NULLP ∉ head :: l
}.

(** ** Access rules *)
Section rules.
Implicit Types st : links.

Lemma wp_get_next n (Q : Z -> links -> Prop) st : n <> NULLP -> Q (next st n) st -> wp (get_next n) Q st.
Proof. intros. unfold get_next. wp_steps. apply wp_require; [by apply negb_true_iff, Z.eqb_neq|]. by wp_steps. Qed.
Lemma wp_get_prev n (Q : Z -> links -> Prop) st : n <> NULLP -> Q (prev st n) st -> wp (get_prev n) Q st.
Proof. intros. unfold get_prev. wp_steps. apply wp_require; [by apply negb_true_iff, Z.eqb_neq|]. by wp_steps. Qed.
Lemma wp_set_next n v (Q : unit -> links -> Prop) st : n <> NULLP ->
  Q tt (mk_links (prev st) (upd (next st) n v)) -> wp (set_next n v) Q st.
Proof. intros. unfold set_next. wp_steps. apply wp_require; [by apply negb_true_iff, Z.eqb_neq|]. by wp_steps. Qed.
Lemma wp_set_prev n v (Q : unit -> links -> Prop) st : n <> NULLP ->
  Q tt (mk_links (upd (prev st) n v) (next st)) -> wp (set_prev n v) Q st.
Proof. intros. unfold set_prev. wp_steps. apply wp_require; [by apply negb_true_iff, Z.eqb_neq|]. by wp_steps. Qed.
End rules.

(** ** Chains *)
Lemma chained_app st c1 a b c2 :
  chained st ((c1 ++ [a]) ++ b :: c2) <-> chained st (c1 ++ [a]) /\ (next st a = b /\ prev st b = a) /\ chained st (b :: c2).
Proof.
  induction c1 as [|x c1 IH]; [cbn [app chained]; tauto|].
  destruct c1 as [|y c1]; cbn [app chained] in *; tauto.
Qed.

(** A chain reads the [next] of all nodes but the last, the [prev] of all but the
    first. *)
Lemma chained_frame st st' c : (forall x, x ∈ removelast c -> next st' x = next st x) ->
  (forall x, x ∈ tail c -> prev st' x = prev st x) -> chained st c -> chained st' c.
Proof.
  induction c as [|a [|b c] IH]; intros Hn Hp; [done|done|]. cbn [chained]. intros (H1 & H2 & H3).
  rewrite Hn by (cbn; by left). rewrite (Hp b) by (cbn; by left). split_and!; try done.
  apply IH; [|intros x Hx; apply Hp; cbn; by right|done]. intros x Hx. apply Hn. change (removelast (a :: b :: c)) with (a :: removelast (b :: c)). by right.
Qed.

Lemma is_list_frame st st' h l : (forall x, x ∈ h :: l -> next st' x = next st x /\ prev st' x = prev st x) ->
  is_list st h l -> is_list st' h l.
Proof.
  intros Hf [Hl Hn Hnn]. split; try done. eapply chained_frame; [..|exact Hl].
  - intros x Hx. apply Hf. rewrite app_comm_cons, removelast_last in Hx. done.
  - cbn [tail]. intros x [Hx|Hx]%elem_of_app; apply Hf; [by right|]. apply list_elem_of_singleton in Hx as ->. by left.
Qed.

(** The ring around the edge from [p] to [n]: [l = l1 ++ l2], with [p] the last
    node before it and [n] the first one after. *)
Definition before (h : Z) (l1 : list Z) : Z := default h (last l1).
Definition after (h : Z) (l2 : list Z) : Z := default h (head l2).

Lemma split_before h l1 : exists c1, h :: l1 = c1 ++ [before h l1].
Proof.
  unfold before. destruct l1 as [|x l1 _] using rev_ind; [by exists []|]. exists (h :: l1). by rewrite last_snoc.
Qed.
Lemma split_after h l2 : exists c2, l2 ++ [h] = after h l2 :: c2 /\ (forall x, x ∈ c2 -> x ∈ tail l2 \/ (x = h /\ l2 <> [])).
Proof.
  destruct l2 as [|x l2]; [exists []; split; [done|]; intros y Hy; by apply elem_of_nil in Hy|].
  exists (l2 ++ [h]). split; [done|]. intros y [Hy|Hy]%elem_of_app; [by left|right]. apply list_elem_of_singleton in Hy. done.
Qed.

Section edge.
Context (st : links) (h : Z) (l1 l2 : list Z).
Context (Hnd : NoDup (h :: l1 ++ l2)).
Let p := before h l1.
Let n := after h l2.

(** A change of [next p] and [prev n] leaves both sides of the edge alone. *)
Lemma sides_frame st' : (forall x, x ∈ h :: l1 ++ l2 -> x <> p -> next st' x = next st x) ->
  (forall x, x ∈ h :: l1 ++ l2 -> x <> n -> prev st' x = prev st x) ->
  chained st (h :: l1) -> chained st (l2 ++ [h]) -> chained st' (h :: l1) /\ chained st' (l2 ++ [h]).
Proof using Hnd.
  intros Hn Hp H1 H2. destruct (split_before h l1) as [c1 Hc1]. destruct (split_after h l2) as (c2 & Hc2 & Hin).
  assert (NoDup (c1 ++ [p] ++ l2)) as Hnd1 by (rewrite app_assoc; fold p in Hc1; rewrite <- Hc1; done).
  apply NoDup_app in Hnd1 as (_ & Hd1 & Hd2).
  apply NoDup_cons in Hnd as [Hh Hnd']. apply NoDup_app in Hnd' as (_ & Hl12 & Hnd2). split.
  - eapply chained_frame; [..|exact H1].
    + rewrite Hc1, removelast_last. intros x Hx. apply Hn.
      * apply elem_of_cons. rewrite elem_of_app. assert (x ∈ h :: l1) as Hx' by (rewrite Hc1; apply elem_of_app; by left).
        apply elem_of_cons in Hx'. tauto.
      * intros ->. eapply Hd1; [exact Hx|]. by left.
    + cbn [tail]. intros x Hx. apply Hp; [right; apply elem_of_app; by left|].
      intros ->. unfold n, after in Hx. destruct l2 as [|y l2']; cbn in Hx; [apply Hh; apply elem_of_app; by left|].
      apply (Hl12 y Hx). by left.
  - eapply chained_frame; [..|exact H2].
    + rewrite removelast_last. intros x Hx. apply Hn; [right; apply elem_of_app; by right|]. intros ->.
      assert (p ∈ h :: l1) as Hp' by (rewrite Hc1; apply elem_of_app; right; by left).
      apply elem_of_cons in Hp' as [->|Hp']; [apply Hh; apply elem_of_app; by right|by apply (Hl12 p)].
    + rewrite Hc2. cbn [tail]. intros x Hx. apply Hp.
      * destruct (Hin x Hx) as [Ht|[-> _]]; [|by left]. right. apply elem_of_app. right. destruct l2; [done|]. by right.
      * intros ->. unfold n, after in *. destruct l2 as [|y l2']; cbn [app head default] in *.
        -- injection Hc2 as <-. by apply elem_of_nil in Hx.
        -- destruct (Hin y Hx) as [Ht|[Heq _]]; [by apply NoDup_cons in Hnd2 as [? _]|].
           cbn in Heq. subst y. apply Hh. apply elem_of_app. right. by left.
Qed.

Lemma ring_split : chained st (h :: (l1 ++ l2) ++ [h]) <-> chained st (h :: l1) /\ (next st p = n /\ prev st n = p) /\ chained st (l2 ++ [h]).
Proof using Type.
  destruct (split_before h l1) as [c1 Hc1]. destruct (split_after h l2) as (c2 & Hc2 & _). fold p in Hc1. fold n in Hc2.
  rewrite <- app_assoc, app_comm_cons, Hc1, Hc2. apply chained_app.
Qed.
End edge.

Lemma ring_mid st h l1 x l2 : chained st (h :: (l1 ++ x :: l2) ++ [h]) <->
  chained st (h :: l1) /\ (next st (before h l1) = x /\ prev st x = before h l1) /\
  (next st x = after h l2 /\ prev st (after h l2) = x) /\ chained st (l2 ++ [h]).
Proof.
  destruct (split_before h l1) as [c1 Hc1]. destruct (split_after h l2) as (c2 & Hc2 & _).
  rewrite <- app_assoc, app_comm_cons, Hc1. cbn [app]. rewrite chained_app, Hc2. cbn [chained]. tauto.
Qed.

(** ** Insertion and removal at an edge of the ring *)
Lemma add_between_spec st h l1 l2 x : is_list st h (l1 ++ l2) -> (x ∉ h :: l1 ++ l2) -> x <> NULLP ->
  wp (list_add_between x (before h l1) (after h l2)) (fun _ st' => is_list st' h (l1 ++ x :: l2) /\
    forall y, (y ∉ x :: h :: l1 ++ l2) -> next st' y = next st y /\ prev st' y = prev st y) st.
Proof.
  intros [Hch Hnd Hnn] Hx Hx0. apply ring_split in Hch as (H1 & [He1 He2] & H2).
  set (p := before h l1) in *. set (n := after h l2) in *.
  assert (p ∈ h :: l1 ++ l2) as Hp.
  { destruct (split_before h l1) as [c1 Hc1]. fold p in Hc1. rewrite app_comm_cons, Hc1. rewrite !elem_of_app. left. right. by left. }
  assert (n ∈ h :: l1 ++ l2) as Hn.
  { unfold n, after. destruct l2; cbn; [by left|]. right. apply elem_of_app. right. by left. }
  assert (p <> NULLP /\ n <> NULLP /\ x <> p /\ x <> n) as (? & ? & Hxp & Hxn) by (split_and!; intros E; [apply Hnn; by rewrite <- E|apply Hnn; by rewrite <- E|apply Hx; by rewrite E|apply Hx; by rewrite E]).
  unfold list_add_between.
  wp_steps. apply wp_set_next; [done|]. wp_steps. apply wp_set_next; [done|].
  wp_steps. apply wp_set_prev; [done|]. apply wp_set_prev; [done|]. cbn [prev next]. set (st' := mk_links _ _).
  destruct (sides_frame st h l1 l2 Hnd st') as [H1' H2']; try done.
  { intros y Hy Hyp. unfold st'. cbn [next]. fold p in Hyp. rewrite !upd_ne; [done|congruence|]. by intros ->. }
  { intros y Hy Hyn. unfold st'. cbn [prev]. fold n in Hyn. rewrite !upd_ne; [done|congruence|]. by intros ->. }
  split.
  - split.
    + apply ring_mid. fold p n. unfold st'. cbn [next prev]. rewrite upd_ne, !upd_eq, (upd_ne _ x n), upd_eq by done. done.
    + rewrite app_comm_cons in *. apply NoDup_app in Hnd as (Ha & Hb & Hc). apply not_elem_of_app in Hx as [Hxa Hxb].
      apply NoDup_app. split_and!; [done| |by apply NoDup_cons]. intros y Hy [->|Hy2]%elem_of_cons; [done|by apply (Hb y)].
    + rewrite elem_of_cons, elem_of_app, elem_of_cons in *. naive_solver.
  - intros y Hy. rewrite elem_of_cons in Hy. apply Decidable.not_or in Hy as [Hyx Hy].
    assert (p <> y /\ n <> y) as [? ?] by (split; intros <-; done). unfold st'. cbn [next prev]. by rewrite !upd_ne.
Qed.

Definition others_kept (S : list Z) (st st' : links) : Prop :=
  forall y, (y ∉ S) -> next st' y = next st y /\ prev st' y = prev st y.

Lemma is_list_other st st' S h l : others_kept S st st' -> (forall y, y ∈ h :: l -> y ∉ S) -> is_list st h l -> is_list st' h l.
Proof. intros Hk Hd. apply is_list_frame. intros x Hx. by apply Hk, Hd. Qed.

Lemma before_in h l1 l2 : before h l1 ∈ h :: l1 ++ l2.
Proof.
  destruct (split_before h l1) as [c1 Hc1]. rewrite app_comm_cons, Hc1, !elem_of_app. left. right. by left.
Qed.
Lemma after_in h l1 l2 : after h l2 ∈ h :: l1 ++ l2.
Proof. unfold after. destruct l2; cbn; [by left|]. right. apply elem_of_app. right. by left. Qed.

Lemma node_nonnull st h l x : is_list st h l -> x ∈ h :: l -> x <> NULLP.
Proof. intros [_ _ Hnn] Hx ->. done. Qed.

Lemma init_spec st h : h <> NULLP -> wp (INIT_LIST_HEAD h) (fun _ st' => is_list st' h [] /\ others_kept [h] st st') st.
Proof.
  intros Hh. unfold INIT_LIST_HEAD. wp_steps. apply wp_set_next; [done|]. apply wp_set_prev; [done|]. split.
  - split; cbn; [by rewrite !upd_eq|apply NoDup_singleton|]. intros [?|?%elem_of_nil]%elem_of_cons; done.
  - intros y Hy. assert (h <> y) by (intros ->; apply Hy; by left). cbn. by rewrite !upd_ne.
Qed.

(** list_add behind, and list_add_tail in front of, any node of the ring. *)
Lemma list_add_spec st h l1 l2 x : is_list st h (l1 ++ l2) -> (x ∉ h :: l1 ++ l2) -> x <> NULLP ->
  wp (list_add x (before h l1)) (fun _ st' => is_list st' h (l1 ++ x :: l2) /\ others_kept (x :: h :: l1 ++ l2) st st') st.
Proof.
  intros Hl Hx Hx0. unfold list_add. wp_steps. apply wp_get_next; [eapply node_nonnull; [done|apply before_in]|].
  pose proof (il_chained _ _ _ Hl) as Hch. apply ring_split in Hch as (_ & [-> _] & _). by apply add_between_spec.
Qed.

Lemma list_add_tail_spec st h l1 l2 x : is_list st h (l1 ++ l2) -> (x ∉ h :: l1 ++ l2) -> x <> NULLP ->
  wp (list_add_tail x (after h l2)) (fun _ st' => is_list st' h (l1 ++ x :: l2) /\ others_kept (x :: h :: l1 ++ l2) st st') st.
Proof.
  intros Hl Hx Hx0. unfold list_add_tail. wp_steps. apply wp_get_prev; [eapply node_nonnull; [done|apply after_in]|].
  pose proof (il_chained _ _ _ Hl) as Hch. apply ring_split in Hch as (_ & [_ ->] & _). by apply add_between_spec.
Qed.

(** Unlinking [x]. *)
Lemma del_between_spec st h l1 x l2 (Q : unit -> links -> Prop) : is_list st h (l1 ++ x :: l2) ->
  (forall st', is_list st' h (l1 ++ l2) -> others_kept (h :: l1 ++ l2) st st' -> Q tt st') ->
  wp (list_del_between (before h l1) (after h l2)) Q st.
Proof.
  intros Hl HQ. pose proof Hl as [Hch Hnd Hnn]. apply ring_mid in Hch as (H1 & [He1 He2] & [He3 He4] & H2).
  assert ((x ∉ h :: l1 ++ l2) /\ NoDup (h :: l1 ++ l2)) as [Hx Hnd'].
  { rewrite app_comm_cons in Hnd |- *. apply NoDup_app in Hnd as (Ha & Hb & Hc). apply NoDup_cons in Hc as [Hx Hc]. split.
    - intros [Hin|Hin]%elem_of_app; [|done]. apply (Hb x Hin). by left.
    - apply NoDup_app. split_and!; try done. intros y Hy Hy'. apply (Hb y Hy). by right. }
  assert (forall y, y ∈ h :: l1 ++ l2 -> y ∈ h :: l1 ++ x :: l2) as Hsub.
  { intros y. rewrite !elem_of_cons, !elem_of_app, elem_of_cons. tauto. }
  assert (before h l1 <> NULLP) as Hp0 by (eapply node_nonnull; [done|]; apply Hsub, before_in).
  assert (after h l2 <> NULLP) as Hn0 by (eapply node_nonnull; [done|]; apply Hsub, after_in).
  unfold list_del_between. wp_steps. apply wp_set_next; [done|]. apply wp_set_prev; [done|]. cbn [prev next]. apply HQ; clear HQ.
  - split; [|done|intros Hin; apply Hnn; by apply Hsub]. apply ring_split. cbn [next prev]. rewrite !upd_eq.
    destruct (sides_frame st h l1 l2 Hnd' (mk_links (upd (prev st) (after h l2) (before h l1)) (upd (next st) (before h l1) (after h l2)))) as [? ?]; try done.
    + intros y _ Hy. cbn. by rewrite upd_ne by congruence.
    + intros y _ Hy. cbn. by rewrite upd_ne by congruence.
  - intros y Hy. pose proof (before_in h l1 l2). pose proof (after_in h l1 l2). cbn.
    rewrite !upd_ne; [done|intros <-; done|intros <-; done].
Qed.

Lemma del_access st h l1 x l2 (Q : Z -> Z -> links -> Prop) : is_list st h (l1 ++ x :: l2) -> Q (before h l1) (after h l2) st ->
  wp (get_prev x) (fun p st' => wp (get_next x) (fun n st'' => Q p n st'') st') st.
Proof.
  intros Hl HQ. assert (x <> NULLP) as Hx0 by (eapply node_nonnull; [done|]; right; apply elem_of_app; right; by left).
  pose proof (il_chained _ _ _ Hl) as Hch. apply ring_mid in Hch as (_ & [_ He2] & [He3 _] & _).
  apply wp_get_prev; [done|]. apply wp_get_next; [done|]. by rewrite He2, He3.
Qed.

Lemma not_in_rest st h l1 x l2 : is_list st h (l1 ++ x :: l2) -> x ∉ h :: l1 ++ l2.
Proof.
  intros [_ Hnd _]. rewrite app_comm_cons in *. apply NoDup_app in Hnd as (_ & Hb & Hc). apply NoDup_cons in Hc as [Hx _].
  intros [Hin|Hin]%elem_of_app; [|done]. apply (Hb x Hin). by left.
Qed.

Lemma list_del_spec st h l1 x l2 : is_list st h (l1 ++ x :: l2) ->
  wp (list_del x) (fun _ st' => is_list st' h (l1 ++ l2) /\ next st' x = NULLP /\ prev st' x = NULLP /\
    others_kept (x :: h :: l1 ++ l2) st st') st.
Proof.
  intros Hl. pose proof (not_in_rest _ _ _ _ _ Hl) as Hx.
  assert (x <> NULLP) as Hx0 by (eapply node_nonnull; [done|]; right; apply elem_of_app; right; by left).
  unfold list_del. apply wp_bind. eapply wp_mono; [eapply (del_access st h l1 x l2 (fun p n st' => p = before h l1 /\ n = after h l2 /\ st' = st)); [done|done]|].
  intros p st1 H1. apply wp_bind. eapply wp_mono; [exact H1|]. intros n st2 (-> & -> & ->).
  wp_steps. apply (del_between_spec st h l1 x l2); [done|]. intros st3 Hl3 Hk3.
  wp_steps. apply wp_set_prev; [done|]. apply wp_set_next; [done|]. cbn [prev next]. split_and!.
  - eapply is_list_frame; [|exact Hl3]. intros y Hy. cbn. rewrite !upd_ne; [done|intros ->; done..].
  - cbn. by rewrite upd_eq.
  - cbn. by rewrite upd_eq.
  - intros y Hy. apply not_elem_of_cons in Hy as [Hyx Hy]. cbn. rewrite !upd_ne by congruence. by apply Hk3.
Qed.

Lemma list_del_init_spec st h l1 x l2 : is_list st h (l1 ++ x :: l2) ->
  wp (list_del_init x) (fun _ st' => is_list st' h (l1 ++ l2) /\ is_list st' x [] /\ others_kept (x :: h :: l1 ++ l2) st st') st.
Proof.
  intros Hl. pose proof (not_in_rest _ _ _ _ _ Hl) as Hx.
  assert (x <> NULLP) as Hx0 by (eapply node_nonnull; [done|]; right; apply elem_of_app; right; by left).
  unfold list_del_init. apply wp_bind. eapply wp_mono; [eapply (del_access st h l1 x l2 (fun p n st' => p = before h l1 /\ n = after h l2 /\ st' = st)); [done|done]|].
  intros p st1 H1. apply wp_bind. eapply wp_mono; [exact H1|]. intros n st2 (-> & -> & ->).
  wp_steps. apply (del_between_spec st h l1 x l2); [done|]. intros st3 Hl3 Hk3.
  eapply wp_mono; [by apply init_spec|]. intros [] st4 [Hl4 Hk4]. split_and!; try done.
  - eapply is_list_other; [exact Hk4| |exact Hl3]. intros y Hy ->%list_elem_of_singleton. done.
  - intros y Hy. apply not_elem_of_cons in Hy as [Hyx Hy]. destruct (Hk4 y) as [-> ->]; [by rewrite list_elem_of_singleton|by apply Hk3].
Qed.

(** ** Queries and iteration *)
Lemma ring_next st h l : is_list st h l -> next st h = after h l /\ prev st h = before h l.
Proof.
  intros [Hch _ _]. split.
  - apply (ring_split st h [] l) in Hch as (_ & [H _] & _). exact H.
  - replace l with (l ++ []) in Hch by apply app_nil_r. apply (ring_split st h l []) in Hch as (_ & [_ H] & _). exact H.
Qed.

Lemma list_empty_spec st h l : is_list st h l -> list_empty h st = Ok (bool_decide (l = []), st).
Proof.
  intros Hl. destruct (ring_next st h l Hl) as [Hn _]. pose proof (node_nonnull st h l h Hl (list_elem_of_here _ _)) as Hh.
  unfold list_empty, get_next, require, gets, mbind, M_bind. destruct (Z.eqb_spec h NULLP); [done|]. cbn. do 2 f_equal. rewrite Hn.
  destruct l as [|x l]; cbn; [by rewrite Z.eqb_refl|]. destruct (Z.eqb_spec x h) as [->|]; [|done].
  pose proof (il_nodup _ _ _ Hl) as Hnd. apply NoDup_cons in Hnd as [Hc _]. destruct Hc. by left.
Qed.

Lemma list_is_singular_spec st h l : is_list st h l -> list_is_singular h st = Ok (bool_decide (length l = 1%nat), st).
Proof.
  intros Hl. destruct (ring_next st h l Hl) as [Hn Hp]. pose proof (node_nonnull st h l h Hl (list_elem_of_here _ _)) as Hh.
  unfold list_is_singular, mbind, M_bind. rewrite (list_empty_spec st h l Hl).
  destruct l as [|x l]; [done|]. cbn. unfold get_next, get_prev, require, gets, mbind, M_bind. destruct (Z.eqb_spec h NULLP); [done|]. cbn.
  rewrite Hn, Hp. unfold before, after. cbn [head default]. rewrite last_cons. do 2 f_equal.
  destruct l as [|y l] using rev_ind; [cbn; by rewrite Z.eqb_refl|]. clear IHl. rewrite last_snoc. cbn [default].
  rewrite bool_decide_eq_false_2 by (cbn; rewrite length_app; cbn; lia). destruct (decide (x = y)) as [->|Hxy]; [|apply Z.eqb_neq in Hxy; unfold mret, M_ret; cbn; by rewrite Hxy].
  pose proof (il_nodup _ _ _ Hl) as Hnd. rewrite !NoDup_cons in Hnd. destruct Hnd as (_ & Hnx & _). destruct Hnx.
  apply elem_of_app. right. by left.
Qed.

(** The first result of a search along a list. *)
Fixpoint first_some {A} (f : Z -> option A) (l : list Z) : option A :=
  match l with
  | [] => None
  | x :: l' => match f x with Some v => Some v | None => first_some f l' end
  end.

(** Reading the ring from a node on. *)
Lemma after_step st h l1 x l2 : is_list st h (l1 ++ x :: l2) -> next st x = after h l2 /\ prev st x = before h l1 /\ x <> NULLP /\ x <> h.
Proof.
  intros Hl. pose proof (il_chained _ _ _ Hl) as Hch. apply ring_mid in Hch as (_ & [_ H2] & [H3 _] & _). split_and!; try done.
  - eapply node_nonnull; [done|]. right. apply elem_of_app. right. by left.
  - intros ->. pose proof (il_nodup _ _ _ Hl) as Hnd. apply NoDup_cons in Hnd as [Hc _]. apply Hc, elem_of_app. right. by left.
Qed.

Lemma for_each_from_spec {A} st h (f : Z -> option A) : forall l2 l1 fuel, is_list st h (l1 ++ l2) -> (length l2 < fuel)%nat ->
  wp (for_each_from fuel (after h l2) h (fun x => mret (f x))) (fun r st' => st' = st /\ r = first_some f l2) st.
Proof.
  induction l2 as [|x l2 IH]; intros l1 [|fuel] Hl Hf; cbn [length] in Hf; try lia; cbn [for_each_from first_some].
  - unfold after. cbn. rewrite Z.eqb_refl. by wp_steps.
  - destruct (after_step st h l1 x l2 Hl) as (Hnx & _ & Hx0 & Hxh). change (after h (x :: l2)) with x.
    destruct (Z.eqb_spec x h) as [|_]; [done|]. wp_steps. destruct (f x); [by wp_steps|].
    wp_steps. apply wp_get_next; [done|]. rewrite Hnx. apply (IH (l1 ++ [x])); [by rewrite <- app_assoc|lia].
Qed.

Lemma list_for_each_spec {A} st h l fuel (f : Z -> option A) : is_list st h l -> (length l < fuel)%nat ->
  wp (list_for_each fuel h (fun x => mret (f x))) (fun r st' => st' = st /\ r = first_some f l) st.
Proof.
  intros Hl Hf. unfold list_for_each. wp_steps. apply wp_get_next; [by apply (node_nonnull st h l h Hl), list_elem_of_here|].
  destruct (ring_next st h l Hl) as [-> _]. by apply (for_each_from_spec st h f l []).
Qed.

Lemma for_each_reverse_from_spec {A} st h (f : Z -> option A) : forall l1 l2 fuel, is_list st h (l1 ++ l2) -> (length l1 < fuel)%nat ->
  wp (for_each_reverse_from fuel (before h l1) h (fun x => mret (f x))) (fun r st' => st' = st /\ r = first_some f (reverse l1)) st.
Proof.
  induction l1 as [|x l1 IH] using rev_ind; intros l2 [|fuel] Hl Hf; try lia; cbn [for_each_reverse_from].
  - unfold before. cbn. rewrite Z.eqb_refl. by wp_steps.
  - rewrite length_app in Hf. cbn in Hf. rewrite <- app_assoc in Hl. cbn in Hl.
    destruct (after_step st h l1 x l2 Hl) as (_ & Hpv & Hx0 & Hxh). assert (before h (l1 ++ [x]) = x) as -> by (unfold before; by rewrite last_snoc). rewrite reverse_snoc. cbn [first_some].
    destruct (Z.eqb_spec x h) as [|_]; [done|]. wp_steps. destruct (f x); [by wp_steps|].
    wp_steps. apply wp_get_prev; [done|]. rewrite Hpv. apply (IH (x :: l2)); [done|lia].
Qed.

Lemma list_for_each_reverse_spec {A} st h l fuel (f : Z -> option A) : is_list st h l -> (length l < fuel)%nat ->
  wp (list_for_each_reverse fuel h (fun x => mret (f x))) (fun r st' => st' = st /\ r = first_some f (reverse l)) st.
Proof.
  intros Hl Hf. unfold list_for_each_reverse. wp_steps. apply wp_get_prev; [by apply (node_nonnull st h l h Hl), list_elem_of_here|].
  destruct (ring_next st h l Hl) as [_ ->]. apply (for_each_reverse_from_spec st h f l []); [by rewrite app_nil_r|done].
Qed.

(** Deleting entries while iterating with the saved successor. *)
Definition del_if (d : Z -> bool) (x : Z) : M links unit := if d x then list_del x else mret tt.

Lemma after_after h l2 x : after h (x :: l2) = x.
Proof. done. Qed.

Lemma for_each_safe_from_spec h (d : Z -> bool) : forall l2 l1 st fuel, is_list st h (l1 ++ l2) -> (length l2 < fuel)%nat ->
  wp (for_each_safe_from fuel (after h l2) (next st (after h l2)) h (del_if d))
    (fun _ st' => is_list st' h (l1 ++ filter (fun x => d x = false) l2) /\ others_kept (h :: l1 ++ l2) st st') st.
Proof.
  induction l2 as [|x l2 IH]; intros l1 st [|fuel] Hl Hf; cbn [length] in Hf; try lia; cbn [for_each_safe_from].
  - unfold after. cbn. rewrite Z.eqb_refl. by wp_steps.
  - destruct (after_step st h l1 x l2 Hl) as (Hnx & _ & Hx0 & Hxh). rewrite after_after, Hnx.
    destruct (Z.eqb_spec x h) as [|_]; [done|]. wp_steps. unfold del_if at 1. rewrite filter_cons.
    assert (after h l2 ∈ h :: l1 ++ x :: l2) as Hain.
    { pose proof (after_in h l1 l2) as Ha. rewrite !elem_of_cons, !elem_of_app, elem_of_cons in *. tauto. }
    assert (after h l2 <> NULLP) as Ha0 by (eapply node_nonnull; done).
    destruct (d x) eqn:Ed.
    + rewrite decide_False by done. eapply wp_mono; [by apply (list_del_spec st h l1 x l2)|]. intros [] st1 (Hl1 & _ & _ & Hk1).
      wp_steps. apply wp_get_next; [done|]. eapply wp_mono; [apply (IH l1 st1 fuel Hl1); lia|].
      intros [] st2 [Hl2 Hk2]. split; [done|]. intros y Hy.
      assert ((y ∉ h :: l1 ++ l2) /\ y <> x) as [Hy1 Hyx]. { rewrite !elem_of_cons, !elem_of_app, !elem_of_cons in *. tauto. }
      destruct (Hk2 y Hy1) as [-> ->]. apply Hk1. by apply not_elem_of_cons.
    + rewrite decide_True by done. wp_steps. apply wp_get_next; [done|].
      assert (is_list st h ((l1 ++ [x]) ++ l2)) as Hl' by (by rewrite <- app_assoc).
      eapply wp_mono; [apply (IH (l1 ++ [x]) st fuel Hl'); lia|]. intros [] st2 [Hl2 Hk2]. rewrite <- !app_assoc in Hl2, Hk2. done.
Qed.

Lemma list_for_each_safe_spec st h l d fuel : is_list st h l -> (length l < fuel)%nat ->
  wp (list_for_each_safe fuel h (del_if d)) (fun _ st' => is_list st' h (filter (fun x => d x = false) l) /\ others_kept (h :: l) st st') st.
Proof.
  intros Hl Hf. pose proof (node_nonnull st h l h Hl (list_elem_of_here _ _)) as Hh.
  unfold list_for_each_safe. wp_steps. apply wp_get_next; [done|]. destruct (ring_next st h l Hl) as [-> _].
  wp_steps. apply wp_get_next; [eapply node_nonnull; [done|apply (after_in h [])]|].
  by apply (for_each_safe_from_spec h d l [] st fuel).
Qed.
