(* ===== verification/Hash.v ===== *)
(** [kernel/include/hashtable.h]: hash tables with [list_head] buckets, and the
    lookup idiom of the header (used by [proc_kill] on the PID table).

    [table st ht bits f] says that bucket [i] of the array [ht] is a ring holding
    [f i] and that the rings do not share nodes. *)
From S2P Require Import Prelude ListH.

Definition HT_SIZE (bits : Z) : Z := Z.shiftl 1 bits.
(** [&ht[i]]: a [struct list_head] has 16 bytes. *)
Definition bucket (ht i : Z) : Z := ht + 16 * i.

Definition hash_int (val : Z) : Z := u64 (u64 val * 0x61C8864680B583EB).
(** [hash & (HT_SIZE(bits) - 1)] *)
Definition hash_index (bits hash : Z) : Z := Z.land hash (HT_SIZE bits - 1).

Definition hash_init (ht bits : Z) : M links unit :=
  for_range (Z.to_nat (HT_SIZE bits)) 0 (fun i => INIT_LIST_HEAD (bucket ht i)).
Definition hash_add (ht node bits hash : Z) : M links unit := list_add node (bucket ht (hash_index bits hash)).
Definition hash_del (node : Z) : M links unit := list_del node.

(** [list_for_each_entry(found, &ht[hash_int(k) & mask], link) if (found->key == k) break;] *)
Definition hash_lookup (fuel : nat) (key : Z -> Z) (ht bits k : Z) : M links (option Z) :=
  list_for_each fuel (bucket ht (hash_index bits (hash_int k))) (fun n => mret (if key n =? k then Some n else None)).

Lemma HT_SIZE_pow2 bits : 0 <= bits -> HT_SIZE bits = 2 ^ bits.
Proof. intros. unfold HT_SIZE. by rewrite Z.shiftl_mul_pow2, Z.mul_1_l. Qed.

Lemma hash_index_mod bits h : 0 <= bits -> hash_index bits h = h mod 2 ^ bits.
Proof. intros. unfold hash_index. rewrite HT_SIZE_pow2 by done. by apply land_ones_mod. Qed.

Lemma hash_index_range bits h : 0 <= bits -> 0 <= hash_index bits h < HT_SIZE bits.
Proof. intros. rewrite hash_index_mod, HT_SIZE_pow2 by done. apply Z.mod_pos_bound. by apply pow2_pos. Qed.

(** Nodes of the ring of bucket [i], its head first. *)
Definition ring (ht : Z) (f : Z -> list Z) (i : Z) : list Z := bucket ht i :: f i.

Record table (st : links) (ht bits : Z) (f : Z -> list Z) : Prop := {
  tb_ring : forall i, 0 <= i < HT_SIZE bits -> is_list st (bucket ht i) (f i);
  tb_disj : forall i j x, 0 <= i < HT_SIZE bits -> 0 <= j < HT_SIZE bits -> x ∈ ring ht f i -> x ∈ ring ht f j -> i = j
}.

(** [x] is entered under its key: it is in the bucket its hash selects. *)
Definition entered (bits : Z) (key : Z -> Z) (f : Z -> list Z) (x : Z) : Prop :=
  x ∈ f (hash_index bits (hash_int (key x))).

(** Every node sits in the bucket of its key, and keys are not repeated. *)
Definition keyed (bits : Z) (key : Z -> Z) (f : Z -> list Z) : Prop :=
  (forall i x, 0 <= i < HT_SIZE bits -> x ∈ f i -> hash_index bits (hash_int (key x)) = i) /\
  (forall x y, entered bits key f x -> entered bits key f y -> key x = key y -> x = y).

Lemma table_other st st' ht bits f i0 f0 S :
  table st ht bits f -> 0 <= i0 < HT_SIZE bits -> others_kept S st st' ->
  (forall y, y ∈ S -> y ∈ ring ht f i0 \/ forall i, 0 <= i < HT_SIZE bits -> y ∉ ring ht f i) ->
  is_list st' (bucket ht i0) f0 -> (forall y, y ∈ f0 -> y ∈ f i0 \/ forall i, 0 <= i < HT_SIZE bits -> y ∉ ring ht f i) ->
  table st' ht bits (upd f i0 f0).
Proof.
  intros [Hr Hd] Hi0 Hk HS Hl0 Hin. split.
  - intros i Hi. rewrite upd_case. case_decide as E; [by subst|]. eapply is_list_other; [exact Hk| |by apply Hr].
    intros y Hy HyS. destruct (HS y HyS) as [Hy0|Hno]; [by apply E, (Hd i0 i y)|by apply (Hno i)].
  - assert (forall i x, 0 <= i < HT_SIZE bits -> i <> i0 -> x ∈ ring ht f i -> x ∈ bucket ht i0 :: f0 -> False) as Hx0.
    { intros i x Hi Hne Hx [->|Hx0]%elem_of_cons; [apply Hne, (Hd i i0 (bucket ht i0)); try done; by left|].
      destruct (Hin x Hx0) as [Hx1|Hno]; [|by apply (Hno i)]. apply Hne, (Hd i i0 x); try done. by right. }
    intros i j x Hi Hj. unfold ring. rewrite !upd_case.
    case_decide as E1; case_decide as E2; subst; try done; intros H1 H2.
    + exfalso. by eapply (Hx0 j x).
    + exfalso. by eapply (Hx0 i x).
    + by apply (Hd i j x).
Qed.

(** hash_init makes every bucket an empty ring. *)
Lemma hash_init_spec st ht bits : 0 <= bits -> 0 < ht ->
  wp (hash_init ht bits) (fun _ st' => table st' ht bits (fun _ => []) /\
    others_kept (map (fun i => bucket ht (Z.of_nat i)) (seq 0 (Z.to_nat (HT_SIZE bits)))) st st') st.
Proof.
  intros Hb Hht. pose proof (pow2_pos bits Hb) as Hp. rewrite HT_SIZE_pow2 by done.
  set (B := map _ _). assert (forall i, 0 <= i < 2 ^ bits -> bucket ht i ∈ B) as HB.
  { intros i Hi. unfold B. apply list_elem_of_fmap. exists (Z.to_nat i). split; [f_equal; lia|]. apply elem_of_seq. lia. }
  unfold hash_init. rewrite HT_SIZE_pow2 by done.
  apply (wp_for_range (fun i st1 => (forall j, 0 <= j < i -> is_list st1 (bucket ht j) []) /\ others_kept B st st1)).
  - split; [intros; lia|done].
  - intros j st1 Hj [Hd Hk]. eapply wp_mono; [apply init_spec; unfold bucket, NULLP; lia|]. intros [] st2 [Hl2 Hk2]. split.
    + intros i Hi. destruct (decide (i = j)) as [->|]; [done|]. eapply is_list_other; [exact Hk2| |apply Hd; lia].
      intros y ->%list_elem_of_singleton ?%list_elem_of_singleton. unfold bucket in *. lia.
    + intros y Hy. destruct (Hk2 y) as [-> ->]; [|by apply Hk]. intros ->%list_elem_of_singleton. apply Hy, HB. lia.
  - intros st1 [Hd Hk]. split; [|done]. split.
    + intros i Hi. apply Hd. rewrite HT_SIZE_pow2 in Hi by done. lia.
    + intros i j x _ _. unfold ring. rewrite !list_elem_of_singleton. unfold bucket. lia.
Qed.

Section ops.
Context (st : links) (ht bits : Z) (f : Z -> list Z) (Hbits : 0 <= bits) (Ht : table st ht bits f).

Lemma hash_add_spec x h : x <> NULLP -> (forall i, 0 <= i < HT_SIZE bits -> x ∉ ring ht f i) ->
  wp (hash_add ht x bits h) (fun _ st' => table st' ht bits (upd f (hash_index bits h) (x :: f (hash_index bits h))) /\
    others_kept (x :: ring ht f (hash_index bits h)) st st') st.
Proof using Ht Hbits.
  intros Hx Hno. set (b := hash_index bits h). assert (0 <= b < HT_SIZE bits) as Hb by by apply hash_index_range.
  unfold hash_add. fold b. eapply wp_mono; [apply (list_add_spec st (bucket ht b) [] (f b) x); [apply Ht, Hb|by apply Hno|done]|].
  intros [] st' [Hl Hk]. split; [|exact Hk]. eapply table_other; [done|done|exact Hk| |exact Hl|].
  - intros y [->|Hy]%elem_of_cons; [by right|by left].
  - intros y [->|Hy]%elem_of_cons; [by right|by left].
Qed.

Lemma hash_del_spec x i l1 l2 : 0 <= i < HT_SIZE bits -> f i = l1 ++ x :: l2 ->
  wp (hash_del x) (fun _ st' => table st' ht bits (upd f i (l1 ++ l2)) /\ others_kept (x :: bucket ht i :: l1 ++ l2) st st') st.
Proof using Ht.
  intros Hi Hf. pose proof (tb_ring _ _ _ _ Ht i Hi) as Hl. rewrite Hf in Hl. unfold hash_del.
  eapply wp_mono; [by apply (list_del_spec st (bucket ht i) l1 x l2)|]. intros [] st' (Hl' & _ & _ & Hk). split; [|done].
  assert (forall y, y ∈ x :: bucket ht i :: l1 ++ l2 -> y ∈ ring ht f i) as Hsub.
  { intros y. unfold ring. rewrite Hf, !elem_of_cons, !elem_of_app, elem_of_cons. tauto. }
  eapply table_other; [done|done|exact Hk| |exact Hl'|].
  - intros y Hy. left. by apply Hsub.
  - intros y Hy. left. rewrite Hf. rewrite elem_of_app in Hy. rewrite elem_of_app, elem_of_cons. tauto.
Qed.

Lemma first_some_key (key : Z -> Z) k l :
  match first_some (fun n => if key n =? k then Some n else None) l with
  | Some x => x ∈ l /\ key x = k
  | None => forall x, x ∈ l -> key x <> k
  end.
Proof using Type.
  induction l as [|y l IH]; cbn [first_some]; [intros x []%elem_of_nil|]. destruct (Z.eqb_spec (key y) k) as [E|E].
  - split; [by left|done].
  - destruct (first_some _ l); [destruct IH; split; [by right|done]|]. intros x [->|]%elem_of_cons; [done|by apply IH].
Qed.

(** A lookup returns the node entered under the key, if there is one. *)
Lemma hash_lookup_spec key k fuel : keyed bits key f -> (forall i, 0 <= i < HT_SIZE bits -> (length (f i) < fuel)%nat) ->
  exists r, hash_lookup fuel key ht bits k st = Ok (r, st) /\ forall x, r = Some x <-> entered bits key f x /\ key x = k.
Proof using Ht Hbits.
  intros [Hk1 Hk2] Hf. unfold hash_lookup. set (b := hash_index bits (hash_int k)).
  assert (0 <= b < HT_SIZE bits) as Hb by by apply hash_index_range.
  pose proof (list_for_each_spec st (bucket ht b) (f b) fuel (fun n => if key n =? k then Some n else None) (tb_ring _ _ _ _ Ht b Hb) (Hf b Hb)) as Hw.
  apply wp_elim in Hw as (r & st' & E & -> & ->). eexists. split; [exact E|]. intros x.
  pose proof (first_some_key key k (f b)) as Hs. destruct (first_some _ (f b)) as [y|].
  - destruct Hs as [Hy <-]. assert (entered bits key f y) as Hey by done. split; [intros [= <-]; done|].
    intros [Hx Hkx]. f_equal. by apply Hk2.
  - split; [done|]. intros [Hx Hkx]. exfalso. unfold entered in Hx. rewrite Hkx in Hx. by apply (Hs x).
Qed.
End ops.
