(* ===== verification/ListThm.v ===== *)
(** The theorems on the intrusive lists and hash tables ([kernel/include/list.h],
    [kernel/include/hashtable.h]). *)
From S2P Require Import Prelude ListH Hash.

(** Four nodes and two heads for the instances: the ring 1 = (10, 20, 30), the
    empty ring 2, a free node 40. *)
Definition ring_demo : links := mk_links
  (fun n => if n =? 1 then 30 else if n =? 10 then 1 else if n =? 20 then 10 else if n =? 30 then 20 else if n =? 2 then 2 else 0)
  (fun n => if n =? 1 then 10 else if n =? 10 then 20 else if n =? 20 then 30 else if n =? 30 then 1 else if n =? 2 then 2 else 0).

Ltac solve_is_list := split; [cbn; by split_and!|by apply (bool_decide_unpack _); vm_compute|by apply (bool_decide_unpack _); vm_compute].

Lemma ring_demo_list : is_list ring_demo 1 [10; 20; 30].
Proof. solve_is_list. Qed.
Lemma ring_demo_empty : is_list ring_demo 2 [].
Proof. solve_is_list. Qed.

(** All rings that share no node with [S] survive. *)
Definition rings_kept (S : list Z) (st st' : links) : Prop :=
  forall h l, is_list st h l -> (forall y, y ∈ h :: l -> y ∉ S) -> is_list st' h l.

Lemma kept_rings S st st' : others_kept S st st' -> rings_kept S st st'.
Proof. intros Hk h l Hl Hd. by eapply is_list_other. Qed.

(** list_add behind any node of a ring and list_add_tail in front of any
    node (in particular at the head and the tail of the list) insert exactly the
    new node at that place, in O(1) and without touching any other ring; on an
    initialised list, repeated list_add_tail therefore queues in order. *)
Lemma list_inserts st h l1 l2 x : is_list st h (l1 ++ l2) -> (x ∉ h :: l1 ++ l2) -> x <> NULLP ->
  (exists st', list_add x (before h l1) st = Ok (tt, st') /\ is_list st' h (l1 ++ x :: l2) /\ rings_kept (x :: h :: l1 ++ l2) st st') /\
  (exists st', list_add_tail x (after h l2) st = Ok (tt, st') /\ is_list st' h (l1 ++ x :: l2) /\ rings_kept (x :: h :: l1 ++ l2) st st').
Proof.
  intros Hl Hx Hx0. split.
  - destruct (wp_elim _ _ _ (list_add_spec st h l1 l2 x Hl Hx Hx0)) as ([] & st' & E & Hl' & Hk). exists st'. by split_and!; [..|apply kept_rings].
  - destruct (wp_elim _ _ _ (list_add_tail_spec st h l1 l2 x Hl Hx Hx0)) as ([] & st' & E & Hl' & Hk). exists st'. by split_and!; [..|apply kept_rings].
Qed.


(** list_del and list_del_init take exactly the given node out of its ring
    and touch no other ring; after list_del the node is poisoned, so that deleting
    it again dereferences NULL, and after list_del_init it is an empty list on
    its own, the state list_empty recognises as "on no list"; list_empty and
    list_is_singular decide emptiness and being a singleton. *)
Lemma list_deletes st h l1 x l2 : is_list st h (l1 ++ x :: l2) ->
  (exists st', list_del x st = Ok (tt, st') /\ is_list st' h (l1 ++ l2) /\ rings_kept (x :: h :: l1 ++ l2) st st' /\ list_del x st' = Undefined) /\
  (exists st', list_del_init x st = Ok (tt, st') /\ is_list st' h (l1 ++ l2) /\ rings_kept (x :: h :: l1 ++ l2) st st' /\ list_empty x st' = Ok (true, st')) /\
  (forall l, is_list st h l -> list_empty h st = Ok (bool_decide (l = []), st) /\ list_is_singular h st = Ok (bool_decide (length l = 1%nat), st)).
Proof.
  intros Hl. split_and!.
  - destruct (wp_elim _ _ _ (list_del_spec st h l1 x l2 Hl)) as ([] & st' & E & Hl' & Hp & Hn & Hk). exists st'. split_and!; [done..|by apply kept_rings|].
    pose proof (after_step st h l1 x l2 Hl) as (_ & _ & Hx0 & _).
    unfold list_del, get_prev, get_next, require, gets, mbind, M_bind. destruct (Z.eqb_spec x NULLP); [done|]. cbn. rewrite Hp, Hn. reflexivity.
  - destruct (wp_elim _ _ _ (list_del_init_spec st h l1 x l2 Hl)) as ([] & st' & E & Hl' & Hx & Hk). exists st'. split_and!; [done..|by apply kept_rings|].
    by rewrite (list_empty_spec st' x [] Hx).
  - intros l Hl'. split; [by apply list_empty_spec|by apply list_is_singular_spec].
Qed.


(** The list operations refine those on sequences: list_add behind any node of a
    ring and list_add_tail in front of any node insert exactly the new node at that
    place; list_del and list_del_init take exactly the given node out; no other ring is
    touched.  After list_del the node is poisoned, so that deleting it again
    dereferences NULL; after list_del_init it is an empty list on its own, the state
    list_empty recognises as "on no list".  list_empty and list_is_singular decide
    emptiness and being a singleton. *)
Lemma list_ops_correct st h l1 l2 x : is_list st h (l1 ++ l2) -> (x ∉ h :: l1 ++ l2) -> x <> NULLP ->
  (exists st', list_add x (before h l1) st = Ok (tt, st') /\ is_list st' h (l1 ++ x :: l2) /\ rings_kept (x :: h :: l1 ++ l2) st st') /\
  (exists st', list_add_tail x (after h l2) st = Ok (tt, st') /\ is_list st' h (l1 ++ x :: l2) /\ rings_kept (x :: h :: l1 ++ l2) st st') /\
  (forall k1 y k2, l1 ++ l2 = k1 ++ y :: k2 ->
    (exists st', list_del y st = Ok (tt, st') /\ is_list st' h (k1 ++ k2) /\ rings_kept (y :: h :: k1 ++ k2) st st' /\ list_del y st' = Undefined) /\
    (exists st', list_del_init y st = Ok (tt, st') /\ is_list st' h (k1 ++ k2) /\ rings_kept (y :: h :: k1 ++ k2) st st' /\ list_empty y st' = Ok (true, st'))) /\
  list_empty h st = Ok (bool_decide (l1 ++ l2 = []), st) /\ list_is_singular h st = Ok (bool_decide (length (l1 ++ l2) = 1%nat), st).
Proof.
  intros Hl Hx Hx0. destruct (list_inserts st h l1 l2 x Hl Hx Hx0) as [H1 H2]. split; [done|]. split; [done|]. split; [|split; [by apply list_empty_spec|by apply list_is_singular_spec]].
  intros k1 y k2 E. rewrite E in Hl. destruct (list_deletes st h k1 y k2 Hl) as (H3 & H4 & _). by split.
Qed.


(** the iteration macros visit exactly the nodes of the list, forwards or
    backwards, and terminate; the safe variant visits every node also when the
    body deletes the node it is at, and leaves the list of the nodes the body
    kept. *)
Lemma list_iteration_correct {A} st h l (f : Z -> option A) (d : Z -> bool) fuel : is_list st h l -> (length l < fuel)%nat ->
  list_for_each fuel h (fun x => mret (f x)) st = Ok (first_some f l, st) /\
  list_for_each_reverse fuel h (fun x => mret (f x)) st = Ok (first_some f (reverse l), st) /\
  exists st', list_for_each_safe fuel h (del_if d) st = Ok (tt, st') /\ is_list st' h (filter (fun x => d x = false) l) /\ rings_kept (h :: l) st st'.
Proof.
  intros Hl Hf. split_and!.
  - by destruct (wp_elim _ _ _ (list_for_each_spec st h l fuel f Hl Hf)) as (r & st' & E & -> & ->).
  - by destruct (wp_elim _ _ _ (list_for_each_reverse_spec st h l fuel f Hl Hf)) as (r & st' & E & -> & ->).
  - destruct (wp_elim _ _ _ (list_for_each_safe_spec st h l d fuel Hl Hf)) as ([] & st' & E & Hl' & Hk). exists st'. by split_and!; [..|apply kept_rings].
Qed.


(** C14: The list operations refine those on sequences: list_add behind any node of a
    ring and list_add_tail in front of any node insert exactly the new node at that
    place; list_del and list_del_init take exactly the given node out; no other ring is
    touched.  After list_del the node is poisoned, so that deleting it again
    dereferences NULL; after list_del_init it is an empty list on its own, the state
    list_empty recognises as "on no list".  list_empty and list_is_singular decide
    emptiness and being a singleton.  The iteration macros visit exactly the nodes of
    the list, forwards or backwards, and terminate; the safe variant visits every node
    also when the body deletes the node it is at, and leaves the list of the nodes the
    body kept. *)
Theorem list_correct :
  (forall st h l1 l2 x, is_list st h (l1 ++ l2) -> (x ∉ h :: l1 ++ l2) -> x <> NULLP ->
  (exists st', list_add x (before h l1) st = Ok (tt, st') /\ is_list st' h (l1 ++ x :: l2) /\ rings_kept (x :: h :: l1 ++ l2) st st') /\
  (exists st', list_add_tail x (after h l2) st = Ok (tt, st') /\ is_list st' h (l1 ++ x :: l2) /\ rings_kept (x :: h :: l1 ++ l2) st st') /\
  (forall k1 y k2, l1 ++ l2 = k1 ++ y :: k2 ->
    (exists st', list_del y st = Ok (tt, st') /\ is_list st' h (k1 ++ k2) /\ rings_kept (y :: h :: k1 ++ k2) st st' /\ list_del y st' = Undefined) /\
    (exists st', list_del_init y st = Ok (tt, st') /\ is_list st' h (k1 ++ k2) /\ rings_kept (y :: h :: k1 ++ k2) st st' /\ list_empty y st' = Ok (true, st'))) /\
  list_empty h st = Ok (bool_decide (l1 ++ l2 = []), st) /\ list_is_singular h st = Ok (bool_decide (length (l1 ++ l2) = 1%nat), st)) /\
  (forall A st h l (f : Z -> option A) (d : Z -> bool) fuel, is_list st h l -> (length l < fuel)%nat ->
  list_for_each fuel h (fun x => mret (f x)) st = Ok (first_some f l, st) /\
  list_for_each_reverse fuel h (fun x => mret (f x)) st = Ok (first_some f (reverse l), st) /\
  exists st', list_for_each_safe fuel h (del_if d) st = Ok (tt, st') /\ is_list st' h (filter (fun x => d x = false) l) /\ rings_kept (h :: l) st st').
Proof. split; intros; [by apply list_ops_correct|by apply list_iteration_correct]. Qed.

Lemma list_correct_witness : (exists st', list_add_tail 40 1 ring_demo = Ok (tt, st') /\ is_list st' 1 ([10; 20; 30] ++ [40]) /\ is_list st' 2 []) /\
  (exists st', list_del_init 20 ring_demo = Ok (tt, st') /\ is_list st' 1 ([10] ++ [30]) /\ list_empty 20 st' = Ok (true, st')) /\
  exists st', list_for_each_safe 4 1 (del_if (fun x => x =? 20)) ring_demo = Ok (tt, st') /\ is_list st' 1 [10; 30].
Proof.
  destruct list_correct as [H1 H2].
  destruct (H1 ring_demo 1 [10; 20; 30] [] 40 ring_demo_list ltac:(by apply (bool_decide_unpack _); vm_compute) ltac:(done)) as (_ & (st' & E & Hl & Hk) & Hd & _). split; [|split].
  - exists st'. split; [exact E|split; [exact Hl|]]. apply Hk; [exact ring_demo_empty|]. intros y ->%list_elem_of_singleton. by apply (bool_decide_unpack _); vm_compute.
  - destruct (Hd [10] 20 [30] eq_refl) as [_ (st2 & E2 & Hl2 & _ & He)]. exists st2. exact (conj E2 (conj Hl2 He)).
  - destruct (H2 Z ring_demo 1 [10; 20; 30] (fun x => if x <? 25 then Some x else None) (fun x => x =? 20) 4%nat ring_demo_list ltac:(cbn; lia)) as (_ & _ & st3 & E3 & Hl3 & _).
    exists st3. split; [exact E3|exact Hl3].
Defined.

(** Entries of the table after adding [x]. *)
Lemma entered_add bits key f x : 0 <= bits -> (forall i, 0 <= i < HT_SIZE bits -> x ∉ f i) -> keyed bits key f ->
  let f' := upd f (hash_index bits (hash_int (key x))) (x :: f (hash_index bits (hash_int (key x)))) in
  (forall y, entered bits key f' y <-> y = x \/ entered bits key f y).
Proof.
  intros Hb Hx [Hk _] f' y. unfold entered, f'. rewrite upd_case. case_decide as E; [|].
  - rewrite <- E, elem_of_cons. done.
  - split; [by right|]. intros [->|]; done.
Qed.


Definition hash_demo : links := match hash_init 16 1 (mk_links (fun _ => 0) (fun _ => 0)) with Ok (_, st) => st | _ => ring_demo end.
Lemma hash_demo_table : table hash_demo 16 1 (fun _ => []).
Proof.
  destruct (wp_elim _ _ _ (hash_init_spec (mk_links (fun _ => 0) (fun _ => 0)) 16 1 ltac:(lia) ltac:(lia))) as ([] & st' & E & Ht & _).
  unfold hash_demo. by rewrite E.
Qed.

