(* ===== verification/Proc.v ===== *)
(** [kernel/proc.c], [kernel/wait_queue.c], [kernel/spinlock.c],
    [kernel/sleeplock.c], and [sys_sleep] of [kernel/syscall.c]: processes, the
    scheduler, wait queues and locks on one hart.

    The kernel state [kst] keeps the process structures by address, the global
    queues, the locks held and the interrupt flag, and where the hart is.  A list
    linked through an embedded node ([run_list], [sibling], [wait_link], ...) is
    the list of the addresses of its processes; unlinking a node that is on no list and
    linking one that is already on a list of that field are undefined, as in
    [list.h].

    [sched] switches to the scheduler: what a function does after [sched] returns
    is the resume point saved in [context], run by [resume] after the scheduler
    has dispatched the process again.

    The memory a process owns (its [struct proc], kernel stack, trapframe page,
    page table, VMAs with their user pages) is the list [owned]: an allocation
    takes the result of the allocator (NULL or a fresh address) as an argument and
    records it, freeing something not owned is undefined. *)
From stdpp Require Import gmap.
From S2P Require Import Prelude Layout Hash.

Definition NULL : Z := 0.

Inductive proc_state := PROC_RUNNABLE | PROC_RUNNING | PROC_SLEEPING | PROC_ZOMBIE.
#[export] Instance proc_state_eq_dec : EqDecision proc_state.
Proof. solve_decision. Defined.

(** Wait queues by owner: the [child_wq] of a process, the [wq] of a sleep-lock,
    and any other. *)
Inductive wq_id := ChildWq (p : Z) | SleepWq (sl : Z) | OtherWq (a : Z).
#[export] Instance wq_id_eq_dec : EqDecision wq_id.
Proof. solve_decision. Defined.
#[export] Instance wq_id_countable : Countable wq_id.
Proof.
  apply (inj_countable' (fun w => match w with ChildWq p => inl p | SleepWq s => inr (inl s) | OtherWq a => inr (inr a) end)
    (fun s => match s with inl p => ChildWq p | inr (inl s) => SleepWq s | inr (inr a) => OtherWq a end)).
  by intros [].
Defined.

(** Spinlocks by name; [SleepLk sl] is the internal lock of a sleep-lock. *)
Inductive lock := WaitLock | RunQueueLock | PidLock | TsleepLock | ProcLock (p : Z) | WqLock (w : wq_id) | SleepLk (sl : Z) | OtherLock (a : Z).
#[export] Instance lock_eq_dec : EqDecision lock.
Proof. solve_decision. Defined.

(** The functions a new process starts in. *)
Inductive entry := idle_thread | init_start | user_proc_start | other_thread.
#[export] Instance entry_eq_dec : EqDecision entry.
Proof. solve_decision. Defined.

(** Where [wq_sleep] returns to: the loop of [proc_wait] or of [sleep_lock], or
    a condition loop of another component; [irq] is the caller's saved flag.  A
    loop of the last kind is taken to find its condition true and to release the
    lock; one that finds it false goes to sleep again. *)
Inductive caller := InProcWait (irq : bool) | InSleepLock (sl : Z) (irq : bool) | InOther (irq : bool).
(** Resume points: the saved [context]. *)
Inductive resume := AtStart (fn : entry) | InYield (irq : bool) | InWqSleep (lk : lock) (k : caller) | InSysSleep (irq : bool) | InExit.

(** The process runs; it has switched to the scheduler; the scheduler has
    switched to it and its code after [sched] comes next. *)
Inductive hart_mode := Running | Switched | Dispatched.

(** Memory owned by a process: its structure, a page, a page table, and the VMAs
    with the user pages mapped in a page table. *)
Inductive res := RObj (p : Z) | RPage (a : Z) | RTable (pt : Z) | RVmas (pt : Z).
#[export] Instance res_eq_dec : EqDecision res.
Proof. solve_decision. Defined.

Record sleeplock := mk_sleeplock { locked : bool; sl_pid : Z }.

Record proc := mk_proc { pid : Z; name : string; pstate : proc_state; parent : Z; children : list Z; context : resume; kstack : Z; pagetable : Z; trapframe : Z; killed : bool; exit_status : Z; wake_time : Z }.
Definition set_name (v : string) (r : proc) : proc :=
  mk_proc (pid r) v (pstate r) (parent r) (children r) (context r) (kstack r) (pagetable r) (trapframe r) (killed r) (exit_status r) (wake_time r).
Definition set_pstate (v : proc_state) (r : proc) : proc :=
  mk_proc (pid r) (name r) v (parent r) (children r) (context r) (kstack r) (pagetable r) (trapframe r) (killed r) (exit_status r) (wake_time r).
Definition set_parent (v : Z) (r : proc) : proc :=
  mk_proc (pid r) (name r) (pstate r) v (children r) (context r) (kstack r) (pagetable r) (trapframe r) (killed r) (exit_status r) (wake_time r).
Definition set_children (v : list Z) (r : proc) : proc :=
  mk_proc (pid r) (name r) (pstate r) (parent r) v (context r) (kstack r) (pagetable r) (trapframe r) (killed r) (exit_status r) (wake_time r).
Definition set_context (v : resume) (r : proc) : proc :=
  mk_proc (pid r) (name r) (pstate r) (parent r) (children r) v (kstack r) (pagetable r) (trapframe r) (killed r) (exit_status r) (wake_time r).
Definition set_pagetable (v : Z) (r : proc) : proc :=
  mk_proc (pid r) (name r) (pstate r) (parent r) (children r) (context r) (kstack r) v (trapframe r) (killed r) (exit_status r) (wake_time r).
Definition set_trapframe (v : Z) (r : proc) : proc :=
  mk_proc (pid r) (name r) (pstate r) (parent r) (children r) (context r) (kstack r) (pagetable r) v (killed r) (exit_status r) (wake_time r).
Definition set_killed (v : bool) (r : proc) : proc :=
  mk_proc (pid r) (name r) (pstate r) (parent r) (children r) (context r) (kstack r) (pagetable r) (trapframe r) v (exit_status r) (wake_time r).
Definition set_exit_status (v : Z) (r : proc) : proc :=
  mk_proc (pid r) (name r) (pstate r) (parent r) (children r) (context r) (kstack r) (pagetable r) (trapframe r) (killed r) v (wake_time r).
Definition set_wake_time (v : Z) (r : proc) : proc :=
  mk_proc (pid r) (name r) (pstate r) (parent r) (children r) (context r) (kstack r) (pagetable r) (trapframe r) (killed r) (exit_status r) v.

Record kst := mk_kst { procs : gmap Z proc; all_procs : list Z; run_queue : list Z; pid_table : gmap Z (list Z); tsleep_list : list Z; waitqs : gmap wq_id (list Z); sleeplocks : gmap Z sleeplock; next_pid : Z; init_proc : Z; cpu_proc : Z; need_resched : bool; sched_p : Z; mode : hart_mode; held : list lock; sie : bool; mtime : Z; timer : Z; owned : list res; tf_mem : Z -> Z -> Z }.
Definition set_procs (v : gmap Z proc) (r : kst) : kst :=
  mk_kst v (all_procs r) (run_queue r) (pid_table r) (tsleep_list r) (waitqs r) (sleeplocks r) (next_pid r) (init_proc r) (cpu_proc r) (need_resched r) (sched_p r) (mode r) (held r) (sie r) (mtime r) (timer r) (owned r) (tf_mem r).
Definition set_all_procs (v : list Z) (r : kst) : kst :=
  mk_kst (procs r) v (run_queue r) (pid_table r) (tsleep_list r) (waitqs r) (sleeplocks r) (next_pid r) (init_proc r) (cpu_proc r) (need_resched r) (sched_p r) (mode r) (held r) (sie r) (mtime r) (timer r) (owned r) (tf_mem r).
Definition set_run_queue (v : list Z) (r : kst) : kst :=
  mk_kst (procs r) (all_procs r) v (pid_table r) (tsleep_list r) (waitqs r) (sleeplocks r) (next_pid r) (init_proc r) (cpu_proc r) (need_resched r) (sched_p r) (mode r) (held r) (sie r) (mtime r) (timer r) (owned r) (tf_mem r).
Definition set_pid_table (v : gmap Z (list Z)) (r : kst) : kst :=
  mk_kst (procs r) (all_procs r) (run_queue r) v (tsleep_list r) (waitqs r) (sleeplocks r) (next_pid r) (init_proc r) (cpu_proc r) (need_resched r) (sched_p r) (mode r) (held r) (sie r) (mtime r) (timer r) (owned r) (tf_mem r).
Definition set_tsleep_list (v : list Z) (r : kst) : kst :=
  mk_kst (procs r) (all_procs r) (run_queue r) (pid_table r) v (waitqs r) (sleeplocks r) (next_pid r) (init_proc r) (cpu_proc r) (need_resched r) (sched_p r) (mode r) (held r) (sie r) (mtime r) (timer r) (owned r) (tf_mem r).
Definition set_waitqs (v : gmap wq_id (list Z)) (r : kst) : kst :=
  mk_kst (procs r) (all_procs r) (run_queue r) (pid_table r) (tsleep_list r) v (sleeplocks r) (next_pid r) (init_proc r) (cpu_proc r) (need_resched r) (sched_p r) (mode r) (held r) (sie r) (mtime r) (timer r) (owned r) (tf_mem r).
Definition set_sleeplocks (v : gmap Z sleeplock) (r : kst) : kst :=
  mk_kst (procs r) (all_procs r) (run_queue r) (pid_table r) (tsleep_list r) (waitqs r) v (next_pid r) (init_proc r) (cpu_proc r) (need_resched r) (sched_p r) (mode r) (held r) (sie r) (mtime r) (timer r) (owned r) (tf_mem r).
Definition set_next_pid (v : Z) (r : kst) : kst :=
  mk_kst (procs r) (all_procs r) (run_queue r) (pid_table r) (tsleep_list r) (waitqs r) (sleeplocks r) v (init_proc r) (cpu_proc r) (need_resched r) (sched_p r) (mode r) (held r) (sie r) (mtime r) (timer r) (owned r) (tf_mem r).
Definition set_init_proc (v : Z) (r : kst) : kst :=
  mk_kst (procs r) (all_procs r) (run_queue r) (pid_table r) (tsleep_list r) (waitqs r) (sleeplocks r) (next_pid r) v (cpu_proc r) (need_resched r) (sched_p r) (mode r) (held r) (sie r) (mtime r) (timer r) (owned r) (tf_mem r).
Definition set_cpu_proc (v : Z) (r : kst) : kst :=
  mk_kst (procs r) (all_procs r) (run_queue r) (pid_table r) (tsleep_list r) (waitqs r) (sleeplocks r) (next_pid r) (init_proc r) v (need_resched r) (sched_p r) (mode r) (held r) (sie r) (mtime r) (timer r) (owned r) (tf_mem r).
Definition set_need_resched (v : bool) (r : kst) : kst :=
  mk_kst (procs r) (all_procs r) (run_queue r) (pid_table r) (tsleep_list r) (waitqs r) (sleeplocks r) (next_pid r) (init_proc r) (cpu_proc r) v (sched_p r) (mode r) (held r) (sie r) (mtime r) (timer r) (owned r) (tf_mem r).
Definition set_sched_p (v : Z) (r : kst) : kst :=
  mk_kst (procs r) (all_procs r) (run_queue r) (pid_table r) (tsleep_list r) (waitqs r) (sleeplocks r) (next_pid r) (init_proc r) (cpu_proc r) (need_resched r) v (mode r) (held r) (sie r) (mtime r) (timer r) (owned r) (tf_mem r).
Definition set_mode (v : hart_mode) (r : kst) : kst :=
  mk_kst (procs r) (all_procs r) (run_queue r) (pid_table r) (tsleep_list r) (waitqs r) (sleeplocks r) (next_pid r) (init_proc r) (cpu_proc r) (need_resched r) (sched_p r) v (held r) (sie r) (mtime r) (timer r) (owned r) (tf_mem r).
Definition set_held (v : list lock) (r : kst) : kst :=
  mk_kst (procs r) (all_procs r) (run_queue r) (pid_table r) (tsleep_list r) (waitqs r) (sleeplocks r) (next_pid r) (init_proc r) (cpu_proc r) (need_resched r) (sched_p r) (mode r) v (sie r) (mtime r) (timer r) (owned r) (tf_mem r).
Definition set_sie (v : bool) (r : kst) : kst :=
  mk_kst (procs r) (all_procs r) (run_queue r) (pid_table r) (tsleep_list r) (waitqs r) (sleeplocks r) (next_pid r) (init_proc r) (cpu_proc r) (need_resched r) (sched_p r) (mode r) (held r) v (mtime r) (timer r) (owned r) (tf_mem r).
Definition set_mtime (v : Z) (r : kst) : kst :=
  mk_kst (procs r) (all_procs r) (run_queue r) (pid_table r) (tsleep_list r) (waitqs r) (sleeplocks r) (next_pid r) (init_proc r) (cpu_proc r) (need_resched r) (sched_p r) (mode r) (held r) (sie r) v (timer r) (owned r) (tf_mem r).
Definition set_timer (v : Z) (r : kst) : kst :=
  mk_kst (procs r) (all_procs r) (run_queue r) (pid_table r) (tsleep_list r) (waitqs r) (sleeplocks r) (next_pid r) (init_proc r) (cpu_proc r) (need_resched r) (sched_p r) (mode r) (held r) (sie r) (mtime r) v (owned r) (tf_mem r).
Definition set_owned (v : list res) (r : kst) : kst :=
  mk_kst (procs r) (all_procs r) (run_queue r) (pid_table r) (tsleep_list r) (waitqs r) (sleeplocks r) (next_pid r) (init_proc r) (cpu_proc r) (need_resched r) (sched_p r) (mode r) (held r) (sie r) (mtime r) (timer r) v (tf_mem r).
Definition set_tf_mem (v : Z -> Z -> Z) (r : kst) : kst :=
  mk_kst (procs r) (all_procs r) (run_queue r) (pid_table r) (tsleep_list r) (waitqs r) (sleeplocks r) (next_pid r) (init_proc r) (cpu_proc r) (need_resched r) (sched_p r) (mode r) (held r) (sie r) (mtime r) (timer r) (owned r) v.

Definition PROC_NAME_LEN : nat := 16.
Definition PID_HASH_BITS : Z := 6.
Definition INT_MAX : Z := 2 ^ 31 - 1.
Definition MTIME_FREQ : Z := 10000000.
Definition TIMER_INTERVAL : Z := 100000.
Definition MS_TO_MTIME (ms : Z) : Z := u64 (ms * (MTIME_FREQ / 1000)).
Definition SLEEP_MS_MAX : Z := 60 * 60 * 1000.

(** * Memory accesses *)
Definition get_proc (p : Z) : M kst proc :=
  ps ← gets procs;
  match ps !! p with Some v => mret v | None => undefined end.
Definition upd_proc (p : Z) (f : proc -> proc) : M kst unit :=
  v ← get_proc p; modify (fun s => set_procs (<[p := f v]> (procs s)) s).
Definition get_wq (w : wq_id) : M kst (list Z) :=
  ws ← gets waitqs;
  match ws !! w with Some l => mret l | None => undefined end.

(** Is [x] a member of one of the lists of a field? *)
Definition on_some {K} `{Countable K} (x : Z) (m : gmap K (list Z)) : bool :=
  existsb (fun kl : K * list Z => bool_decide (x ∈ kl.2)) (map_to_list m).
Definition without (x : Z) (l : list Z) : list Z := filter (fun y => y <> x) l.
Definition children_of (s : kst) : gmap Z (list Z) := children <$> procs s.

(** Linking and unlinking embedded nodes. *)
Definition add_run_list (p : Z) : M kst unit :=
  s ← get; require (bool_decide (p ∉ run_queue s));; modify (set_run_queue (run_queue s ++ [p])).
Definition add_all_list (p : Z) : M kst unit :=
  s ← get; require (bool_decide (p ∉ all_procs s));; modify (set_all_procs (all_procs s ++ [p])).
Definition del_all_list (p : Z) : M kst unit :=
  s ← get; require (bool_decide (p ∈ all_procs s));; modify (set_all_procs (without p (all_procs s))).
Definition add_pid_link (p hash : Z) : M kst unit :=
  s ← get;
  let b := hash_index PID_HASH_BITS hash in
  require (negb (on_some p (pid_table s)));;
  match pid_table s !! b with
  | Some l => modify (set_pid_table (<[b := p :: l]> (pid_table s)))
  | None => undefined
  end.
Definition del_pid_link (p : Z) : M kst unit :=
  s ← get; require (on_some p (pid_table s));; modify (set_pid_table (without p <$> pid_table s)).
Definition add_sibling (p parent : Z) : M kst unit :=
  s ← get; require (negb (on_some p (children_of s)));;
  upd_proc parent (fun v => set_children (children v ++ [p]) v).
Definition del_sibling (p : Z) : M kst unit :=
  s ← get; require (on_some p (children_of s));;
  modify (set_procs ((fun v => set_children (without p (children v)) v) <$> procs s)).
Definition add_wait_link (p : Z) (w : wq_id) : M kst unit :=
  s ← get; require (negb (on_some p (waitqs s)));;
  l ← get_wq w; modify (set_waitqs (<[w := l ++ [p]]> (waitqs s))).
Definition del_wait_link (p : Z) : M kst unit :=
  s ← get; require (on_some p (waitqs s));; modify (set_waitqs (without p <$> waitqs s)).
(** [tsleep_link] is self-linked exactly when it is not on [tsleep_list]. *)
Definition tsleep_link_empty (p : Z) : M kst bool := gets (fun s => bool_decide (p ∉ tsleep_list s)).
Definition del_init_tsleep_link (p : Z) : M kst unit := modify (fun s => set_tsleep_list (without p (tsleep_list s)) s).

(** * spinlock.c

    One hart: a lock that is held stays held while the hart spins on it, so
    acquiring it is the loop that never ends. *)
Definition spin_lock (l : lock) : M kst unit :=
  h ← gets held; if bool_decide (l ∈ h) then out_of_fuel else modify (set_held (l :: h)).
Definition spin_unlock (l : lock) : M kst unit := modify (fun s => set_held (filter (fun k => k <> l) (held s)) s).
Definition spin_lock_irqsave (l : lock) : M kst bool :=
  flags ← gets sie; modify (set_sie false);; spin_lock l;; mret flags.
Definition spin_unlock_irqrestore (l : lock) (flags : bool) : M kst unit :=
  spin_unlock l;; if flags then modify (set_sie true) else mret tt.

(** * proc.c: identity, run queue, scheduler *)
Definition alloc_pid : M kst Z :=
  spin_lock PidLock;;
  pid' ← gets next_pid;
  require (pid' <? INT_MAX);;
  modify (set_next_pid (pid' + 1));;
  spin_unlock PidLock;;
  mret pid'.

Definition this_proc : M kst Z :=
  p ← gets cpu_proc; if p =? NULL then panic "this_proc: no current process" else mret p.

Definition run_queue_add (p : Z) : M kst unit :=
  spin_lock RunQueueLock;; add_run_list p;; spin_unlock RunQueueLock.

(** Save the resume point and switch to the scheduler. *)
Definition sched (r : resume) : M kst unit :=
  p ← this_proc; upd_proc p (set_context r);; modify (set_mode Switched).

Definition pick_next : M kst Z :=
  q ← gets run_queue;
  match q with
  | [] => panic "pick_next: run queue empty"
  | p :: q' => modify (set_run_queue q');; mret p
  end.

(** The deadline the scheduler arms: the end of the quantum, or the earliest
    sleeper if that is sooner. *)
Definition timer_deadline : M kst Z :=
  now ← gets mtime;
  let deadline := u64 (now + TIMER_INTERVAL) in
  spin_lock TsleepLock;;
  l ← gets tsleep_list;
  d ← match l with
      | [] => mret deadline
      | q :: _ => sl ← get_proc q; mret (if wake_time sl <? deadline then wake_time sl else deadline)
      end;
  spin_unlock TsleepLock;;
  mret d.

(** An iteration up to the switch to the next process. *)
Definition scheduler_dispatch : M kst unit :=
  spin_lock RunQueueLock;;
  p ← pick_next;
  spin_unlock RunQueueLock;;
  spin_lock (ProcLock p);;
  upd_proc p (set_pstate PROC_RUNNING);;
  modify (set_cpu_proc p);;
  d ← timer_deadline;
  modify (set_timer d);;
  modify (set_sched_p p);;
  modify (set_mode Dispatched).
(** The end of the iteration, when a process has switched back, and the next one. *)
Definition scheduler : M kst unit :=
  p ← gets sched_p;
  modify (set_cpu_proc NULL);;
  spin_unlock (ProcLock p);;
  scheduler_dispatch.

Definition yield : M kst unit :=
  p ← this_proc;
  irq ← spin_lock_irqsave (ProcLock p);
  upd_proc p (set_pstate PROC_RUNNABLE);;
  run_queue_add p;;
  sched (InYield irq).

(** * wait_queue.c *)
Definition wq_sleep (w : wq_id) (lk : lock) (k : caller) : M kst unit :=
  p ← this_proc;
  spin_lock (WqLock w);;
  spin_lock (ProcLock p);;
  add_wait_link p w;;
  upd_proc p (set_pstate PROC_SLEEPING);;
  spin_unlock lk;;
  spin_unlock (WqLock w);;
  sched (InWqSleep lk k).

(** The part the two wakers share: the first waiter becomes runnable. *)
Definition wake_proc (p : Z) : M kst unit :=
  del_wait_link p;;
  spin_lock (ProcLock p);;
  upd_proc p (set_pstate PROC_RUNNABLE);;
  spin_unlock (ProcLock p);;
  run_queue_add p.

Definition wq_wake_one (w : wq_id) : M kst Z :=
  irq ← spin_lock_irqsave (WqLock w);
  l ← get_wq w;
  match l with
  | [] => spin_unlock_irqrestore (WqLock w) irq;; mret 0
  | p :: _ => wake_proc p;; spin_unlock_irqrestore (WqLock w) irq;; mret 1
  end.

(** [while (!list_empty(&wq->head))] *)
Fixpoint wake_all_loop (n : nat) (w : wq_id) : M kst unit :=
  l ← get_wq w;
  match l with
  | [] => mret tt
  | p :: _ => match n with O => out_of_fuel | S n' => wake_proc p;; wake_all_loop n' w end
  end.
Definition wq_wake_all (w : wq_id) : M kst unit :=
  irq ← spin_lock_irqsave (WqLock w);
  l ← get_wq w;
  wake_all_loop (length l) w;;
  spin_unlock_irqrestore (WqLock w) irq.

(** * proc.c: exit, wait, kill *)

(** [while (!list_empty(&p->children))]: the first child goes to init. *)
Fixpoint reparent (n : nat) (p init : Z) : M kst unit :=
  v ← get_proc p;
  match children v with
  | [] => mret tt
  | child :: _ =>
      match n with
      | O => out_of_fuel
      | S n' =>
          upd_proc child (set_parent init);;
          del_sibling child;;
          add_sibling child init;;
          reparent n' p init
      end
  end.

Definition proc_exit (status : Z) : M kst unit :=
  p ← this_proc;
  v ← get_proc p;
  if pid v <=? 1 then panic "idle or init exiting" else
  spin_lock_irqsave WaitLock;;
  init ← gets init_proc;
  reparent (length (children v)) p init;;
  v' ← get_proc p;
  wq_wake_one (ChildWq (parent v'));;
  spin_lock (ProcLock p);;
  upd_proc p (set_exit_status status);;
  upd_proc p (set_pstate PROC_ZOMBIE);;
  spin_unlock WaitLock;;
  sched InExit.

(** Freeing gives up ownership of the resource. *)
Definition release (r : res) : M kst unit :=
  s ← get; require (bool_decide (r ∈ owned s));; modify (set_owned (filter (fun x => x <> r) (owned s))).
(** Freeing the structure also ends the life of what is embedded in it. *)
Definition kmfree_proc (p : Z) : M kst unit :=
  release (RObj p);;
  modify (fun s => set_waitqs (delete (ChildWq p) (waitqs s)) (set_procs (delete p (procs s)) s)).

Definition free_proc (p : Z) : M kst unit :=
  v ← get_proc p;
  del_sibling p;;
  del_all_list p;;
  del_pid_link p;;
  (if negb (pagetable v =? NULL) then
     release (RVmas (pagetable v));;
     release (RTable (pagetable v));;
     release (RPage (trapframe v))
   else mret tt);;
  release (RPage (kstack v));;
  kmfree_proc p.

(** The scan of the children; a zombie is returned with its lock held. *)
Fixpoint find_zombie (l : list Z) : M kst (option Z) :=
  match l with
  | [] => mret None
  | child :: l' =>
      spin_lock (ProcLock child);;
      v ← get_proc child;
      if bool_decide (pstate v = PROC_ZOMBIE) then mret (Some child)
      else spin_unlock (ProcLock child);; find_zombie l'
  end.

(** One iteration of the loop of [proc_wait]: returns [Some (pid, status)], or
    [None] after switching to the scheduler. *)
Definition proc_wait_iter (irq : bool) : M kst (option (Z * Z)) :=
  p ← this_proc;
  v ← get_proc p;
  match children v with
  | [] => spin_unlock_irqrestore WaitLock irq;; mret (Some (-1, 0))
  | _ =>
      z ← find_zombie (children v);
      match z with
      | Some child =>
          c ← get_proc child;
          spin_unlock (ProcLock child);;
          free_proc child;;
          spin_unlock_irqrestore WaitLock irq;;
          mret (Some (pid c, exit_status c))
      | None =>
          if killed v then spin_unlock_irqrestore WaitLock irq;; proc_exit (-1);; mret None
          else wq_sleep (ChildWq p) WaitLock (InProcWait irq);; mret None
      end
  end.
Definition proc_wait : M kst (option (Z * Z)) :=
  this_proc;;
  irq ← spin_lock_irqsave WaitLock;
  proc_wait_iter irq.

(** The lookup of [proc_kill] in the PID table. *)
Fixpoint pid_scan (l : list Z) (pid' : Z) : M kst Z :=
  match l with
  | [] => mret NULL
  | p :: l' => v ← get_proc p; if pid v =? pid' then mret p else pid_scan l' pid'
  end.
Definition pid_lookup (pid' : Z) : M kst Z :=
  t ← gets pid_table;
  match t !! hash_index PID_HASH_BITS (hash_int pid') with
  | Some l => pid_scan l pid'
  | None => undefined
  end.
(** [proc_kill] once the process is found. *)
Definition kill_found (p : Z) : M kst Z :=
  irq ← spin_lock_irqsave TsleepLock;
  spin_lock (ProcLock p);;
  upd_proc p (set_killed true);;
  v ← get_proc p;
  (if bool_decide (pstate v = PROC_SLEEPING) then
     e ← tsleep_link_empty p;
     (if negb (e : bool) then del_init_tsleep_link p else del_wait_link p);;
     upd_proc p (set_pstate PROC_RUNNABLE);;
     run_queue_add p
   else mret tt);;
  spin_unlock (ProcLock p);;
  spin_unlock_irqrestore TsleepLock irq;;
  mret 0.
Definition proc_kill (pid' : Z) : M kst Z :=
  p ← pid_lookup pid';
  if p =? NULL then mret (-1) else kill_found p.

(** * proc.c: creation *)

(** An allocator call: [r] is its result, NULL or a fresh address. *)
Definition acquire (mk : Z -> res) (r : Z) : M kst Z :=
  if r =? NULL then mret NULL else
  s ← get; require (bool_decide (mk r ∉ owned s));; modify (set_owned (mk r :: owned s));; mret r.

Definition wq_init (w : wq_id) : M kst unit := modify (fun s => set_waitqs (<[w := []]> (waitqs s)) s).

Definition kthread_start : M kst unit :=
  p ← this_proc; spin_unlock (ProcLock p);; modify (set_sie true).

Definition proc_create (fn : entry) (nm : string) (r_obj r_kstack : Z) : M kst Z :=
  p ← acquire RObj r_obj;
  if p =? NULL then mret NULL else
  pid' ← alloc_pid;
  ks ← acquire RPage r_kstack;
  if ks =? NULL then release (RObj p);; mret NULL else
  modify (fun s => set_procs (<[p := mk_proc pid' (String.substring 0 (PROC_NAME_LEN - 1) nm) PROC_RUNNABLE NULL [] (AtStart fn) ks NULL NULL false 0 0]> (procs s)) s);;
  wq_init (ChildWq p);;
  init ← gets init_proc;
  (if negb (init =? NULL) then upd_proc p (set_parent init);; add_sibling p init else mret tt);;
  mret p.

(** The block that publishes a process. *)
Definition publish (p : Z) : M kst unit :=
  upd_proc p (set_pstate PROC_RUNNABLE);;
  add_all_list p;;
  run_queue_add p;;
  v ← get_proc p;
  add_pid_link p (hash_int (pid v)).

Definition proc_create_kernel (fn : entry) (nm : string) (r_obj r_kstack : Z) : M kst Z :=
  p ← proc_create fn nm r_obj r_kstack;
  if p =? NULL then panic "proc_create_kernel: out of memory" else
  publish p;;
  mret p.

Definition proc_init : M kst unit :=
  modify (set_pid_table (list_to_map (map (fun i => (Z.of_nat i, [])) (seq 0 (Z.to_nat (HT_SIZE PID_HASH_BITS))))));;
  modify (set_cpu_proc NULL);;
  modify (set_need_resched false);;
  modify (set_held []).

(** The four results are those of the allocators for idle and init. *)
Definition proc_bootstrap (obj0 stack0 obj1 stack1 : Z) : M kst unit :=
  proc_create_kernel idle_thread "idle" obj0 stack0;;
  p ← proc_create_kernel init_start "init" obj1 stack1;
  modify (set_init_proc p).

(** * Timed sleep *)

(** The expired prefix of the sleepers, in order. *)
Fixpoint wake_sleepers (l : list Z) (now : Z) : M kst unit :=
  match l with
  | [] => mret tt
  | pos :: l' =>
      v ← get_proc pos;
      if now <? wake_time v then mret tt else
      del_init_tsleep_link pos;;
      spin_lock (ProcLock pos);;
      upd_proc pos (set_pstate PROC_RUNNABLE);;
      run_queue_add pos;;
      spin_unlock (ProcLock pos);;
      wake_sleepers l' now
  end.
Definition wake_expired_sleepers : M kst unit :=
  spin_lock TsleepLock;;
  now ← gets mtime;
  l ← gets tsleep_list;
  wake_sleepers l now;;
  spin_unlock TsleepLock.

(** The search for the insertion point and the insertion before it. *)
Fixpoint tsleep_insert (l : list Z) (p wt : Z) : M kst (list Z) :=
  match l with
  | [] => mret [p]
  | pos :: l' =>
      v ← get_proc pos;
      if wt <? wake_time v then mret (p :: pos :: l') else
      r ← tsleep_insert l' p wt; mret (pos :: r)
  end.
Definition sys_sleep (ms : Z) : M kst unit :=
  p ← this_proc;
  let ticks := MS_TO_MTIME (if ms <? SLEEP_MS_MAX then ms else SLEEP_MS_MAX) in
  now ← gets mtime;
  upd_proc p (set_wake_time (u64 (now + ticks)));;
  irq ← spin_lock_irqsave TsleepLock;
  v ← get_proc p;
  l ← gets tsleep_list;
  require (bool_decide (p ∉ l));;
  l' ← tsleep_insert l p (wake_time v);
  modify (set_tsleep_list l');;
  spin_lock (ProcLock p);;
  upd_proc p (set_pstate PROC_SLEEPING);;
  spin_unlock TsleepLock;;
  sched (InSysSleep irq).

(** * User processes *)

(** [r_tf] and [r_pt] are the results of [kalloc] and [proc_pagetable]. *)
Definition proc_create_user (r_obj r_kstack r_tf r_pt : Z) : M kst Z :=
  p ← proc_create user_proc_start "" r_obj r_kstack;
  if p =? NULL then mret NULL else
  tf ← acquire RPage r_tf;
  v ← get_proc p;
  if tf =? NULL then
    del_sibling p;; release (RPage (kstack v));; kmfree_proc p;; mret NULL
  else
  upd_proc p (set_trapframe tf);;
  modify (fun s => set_tf_mem (upd (tf_mem s) tf (fun _ => 0)) s);;
  pt ← acquire RTable r_pt;
  upd_proc p (set_pagetable pt);;
  if pt =? NULL then
    del_sibling p;; release (RPage tf);; release (RPage (kstack v));; kmfree_proc p;; mret NULL
  else mret p.

(** [vma_dup_all]: on success the child's page table holds VMAs and user pages;
    on failure it has given back what it had taken. *)
Definition vma_dup (ok : bool) (pt : Z) : M kst Z :=
  if ok then acquire RVmas pt;; mret 0 else mret (-1).

(** Offsets of the trapframe. *)
Definition TF_kernel_satp : Z := 0.
Definition TF_kernel_sp : Z := 8.
Definition TF_user_trap : Z := 16.
Definition TF_hartid : Z := 24.
Definition TF_epc : Z := 32.
Definition TF_a0 : Z := 112.
Definition child_frame (parent : Z -> Z) (kernel_sp satp user_trap : Z) : Z -> Z :=
  upd (upd (upd (upd (upd parent TF_a0 0) TF_kernel_sp kernel_sp) TF_kernel_satp satp) TF_user_trap user_trap) TF_hartid 0.

Record fork_env := mk_fork_env { r_obj : Z; r_kstack : Z; r_tf : Z; r_pt : Z; r_dup : bool; satp : Z; user_trap : Z }.

Definition proc_fork (e : fork_env) : M kst Z :=
  parent ← this_proc;
  child ← proc_create_user (r_obj e) (r_kstack e) (r_tf e) (r_pt e);
  if child =? NULL then mret (-1) else
  v ← get_proc child;
  r ← vma_dup (r_dup e) (pagetable v);
  if r <? 0 then
    del_sibling child;;
    release (RTable (pagetable v));; release (RPage (trapframe v));; release (RPage (kstack v));;
    kmfree_proc child;;
    mret (-1)
  else
  pv ← get_proc parent;
  require (negb (trapframe pv =? NULL));;
  modify (fun s => set_tf_mem (upd (tf_mem s) (trapframe v)
    (child_frame (tf_mem s (trapframe pv)) (u64 (kstack v + PG_SIZE)) (satp e) (user_trap e))) s);;
  upd_proc child (set_name (name pv));;
  irq ← spin_lock_irqsave WaitLock;
  del_sibling child;;
  upd_proc child (set_parent parent);;
  add_sibling child parent;;
  spin_unlock_irqrestore WaitLock irq;;
  pirq ← gets sie;
  modify (set_sie false);;
  publish child;;
  (if (pirq : bool) then modify (set_sie true) else mret tt);;
  mret (pid v).

(** * exec.c, as far as the process is concerned

    The loader's results are arguments: the trapframe page and the page table
    allocated, whether the binary was found, and whether segments, heap, stack and
    [argv] could be built in the new page table; on success its user pages and VMAs
    replace the old ones. *)
Record exec_env := mk_exec_env { x_tf : Z; x_found : bool; x_pt : Z; x_built : bool; x_argc : Z; x_sp : Z; x_entry : Z; x_path : string; x_satp : Z; x_user_trap : Z }.
Definition TF_sp : Z := 48.
Definition TF_a1 : Z := 120.
Definition ENOENT : Z := 2.
Definition ENOMEM : Z := 12.
Definition exec_frame (old : Z -> Z) (e : exec_env) (kernel_sp : Z) : Z -> Z :=
  upd (upd (upd (upd (upd (upd (upd (upd old TF_epc (x_entry e)) TF_sp (x_sp e)) TF_a0 (x_argc e)) TF_a1 (x_sp e))
    TF_kernel_satp (x_satp e)) TF_kernel_sp kernel_sp) TF_user_trap (x_user_trap e)) TF_hartid 0.

(** Step 1: the trapframe; [None] when there is no memory for one. *)
Definition exec_trapframe (e : exec_env) : M kst (option Z) :=
  p ← this_proc;
  v ← get_proc p;
  if trapframe v =? NULL then
    tf ← acquire RPage (x_tf e);
    upd_proc p (set_trapframe tf);;
    if tf =? NULL then mret None else
    modify (fun s => set_tf_mem (upd (tf_mem s) tf (fun _ => 0)) s);;
    mret (Some tf)
  else mret (Some (trapframe v)).

(** The commit: free the old address space, install the new one. *)
Definition exec_commit (p tf : Z) (e : exec_env) : M kst Z :=
  v ← get_proc p;
  (if negb (pagetable v =? NULL) then release (RVmas (pagetable v));; release (RTable (pagetable v)) else mret tt);;
  upd_proc p (set_pagetable (x_pt e));;
  modify (fun s => set_tf_mem (upd (tf_mem s) tf (exec_frame (tf_mem s tf) e (u64 (kstack v + PG_SIZE)))) s);;
  upd_proc p (set_name (String.substring 0 (PROC_NAME_LEN - 1) (x_path e)));;
  mret (x_argc e).

Definition proc_exec (e : exec_env) : M kst Z :=
  p ← this_proc;
  otf ← exec_trapframe e;
  match otf with
  | None => mret (- ENOMEM)
  | Some tf =>
      if negb (x_found e) then mret (- ENOENT) else
      pt ← acquire RTable (x_pt e);
      if pt =? NULL then mret (- ENOMEM) else
      if negb (x_built e) then release (RTable pt);; mret (-1) else
      acquire RVmas pt;;
      exec_commit p tf e
  end.

(** * sleeplock.c *)
Definition get_sl (sl : Z) : M kst sleeplock :=
  m ← gets sleeplocks; match m !! sl with Some v => mret v | None => undefined end.
Definition set_sl (sl : Z) (v : sleeplock) : M kst unit := modify (fun s => set_sleeplocks (<[sl := v]> (sleeplocks s)) s).

Definition sleep_init (sl : Z) : M kst unit :=
  set_sl sl (mk_sleeplock false 0);; wq_init (SleepWq sl);; spin_unlock (SleepLk sl).

(** One test of the loop of [sleep_lock]; [true] when the lock is taken. *)
Definition sleep_lock_iter (sl : Z) (irq : bool) : M kst bool :=
  v ← get_sl sl;
  if locked v then wq_sleep (SleepWq sl) (SleepLk sl) (InSleepLock sl irq);; mret false
  else
    p ← this_proc;
    pv ← get_proc p;
    set_sl sl (mk_sleeplock true (pid pv));;
    spin_unlock_irqrestore (SleepLk sl) irq;;
    mret true.
Definition sleep_lock (sl : Z) : M kst bool :=
  irq ← spin_lock_irqsave (SleepLk sl); sleep_lock_iter sl irq.

Definition sleep_unlock (sl : Z) : M kst unit :=
  irq ← spin_lock_irqsave (SleepLk sl);
  set_sl sl (mk_sleeplock false 0);;
  wq_wake_one (SleepWq sl);;
  spin_unlock_irqrestore (SleepLk sl) irq.

(** [sleep_holding] in two halves: an interrupt may come between them, since it
    takes the lock without disabling interrupts. *)
Definition sleep_holding_read (sl : Z) : M kst bool :=
  spin_lock (SleepLk sl);;
  v ← get_sl sl;
  p ← this_proc;
  pv ← get_proc p;
  mret (locked v && (sl_pid v =? pid pv)).
Definition sleep_holding (sl : Z) : M kst bool :=
  h ← sleep_holding_read sl; spin_unlock (SleepLk sl);; mret h.

(** * Resumption: the code after [sched] *)
Definition resume_proc : M kst unit :=
  p ← this_proc;
  v ← get_proc p;
  modify (set_mode Running);;
  match context v with
  | AtStart user_proc_start => spin_unlock (ProcLock p)
  | AtStart _ => kthread_start
  | InYield irq => spin_unlock_irqrestore (ProcLock p) irq
  | InSysSleep irq => upd_proc p (set_wake_time 0);; spin_unlock_irqrestore (ProcLock p) irq
  | InWqSleep lk k =>
      spin_unlock (ProcLock p);;
      spin_lock lk;;
      match k with
      | InProcWait irq => proc_wait_iter irq;; mret tt
      | InSleepLock sl irq => sleep_lock_iter sl irq;; mret tt
      | InOther irq => spin_unlock_irqrestore lk irq
      end
  | InExit => panic "zombie exit"
  end.

(** * trap.c: the timer interrupt and the return from a trap *)
Definition timer_interrupt : M kst unit :=
  modify (set_timer (2 ^ 64 - 1));;
  wake_expired_sleepers;;
  c ← gets cpu_proc;
  if c =? NULL then mret tt else modify (set_need_resched true).

(** [kernel_trap_ret]; phase 1 of [user_trap_ret] is the same. *)
Definition trap_ret : M kst unit :=
  c ← gets cpu_proc;
  n ← gets need_resched;
  if c =? NULL then mret tt else
  v ← get_proc c;
  if killed v then proc_exit (-1)
  else if (n : bool) then modify (set_need_resched false);; yield
  else mret tt.
