(* ===== verification/ProcInv.v ===== *)
(** The invariant of the process subsystem, clause by clause, and what its clauses
    read of the process structures. *)
From stdpp Require Import gmap sorting.
From S2P Require Import Prelude Layout Hash Proc.

(** * The clauses

    Each takes the part of the process structures it reads, as a map. *)
Abbreviation ptr := Z (only parsing).

(** The run queue holds exactly the runnable processes. *)
Record run_ok (S : gmap ptr proc_state) (rq : list ptr) : Prop := {
  ru_nodup : NoDup rq;
  ru_iff : forall p, p ∈ rq <-> S !! p = Some PROC_RUNNABLE
}.

(** At most one process is RUNNING, the one on the hart. *)
Definition cpu_ok (S : gmap ptr proc_state) (on_cpu : option ptr) : Prop :=
  forall p, S !! p = Some PROC_RUNNING <-> on_cpu = Some p.

(** A sleeping process is on exactly one of the sleep lists: [tsleep_list] or a
    single wait queue. *)
Record sleep_ok (S : gmap ptr proc_state) (ts : list ptr) (W : gmap wq_id (list ptr)) : Prop := {
  sp_ts_nodup : NoDup ts;
  sp_wq_nodup : forall w l, W !! w = Some l -> NoDup l;
  sp_ts : forall p, p ∈ ts -> S !! p = Some PROC_SLEEPING;
  sp_wq : forall w l p, W !! w = Some l -> p ∈ l -> S !! p = Some PROC_SLEEPING;
  sp_one_wq : forall w w' l l' p, W !! w = Some l -> W !! w' = Some l' -> p ∈ l -> p ∈ l' -> w = w';
  sp_ts_wq : forall w l p, W !! w = Some l -> p ∈ l -> p ∉ ts;
  sp_some : forall p, S !! p = Some PROC_SLEEPING -> p ∈ ts \/ exists w l, W !! w = Some l /\ p ∈ l
}.

(** The sleepers are sorted by deadline. *)
Definition deadline (T : gmap ptr Z) (p : ptr) : Z := default 0 (T !! p).
Definition sorted_ok (T : gmap ptr Z) (ts : list ptr) : Prop := StronglySorted (fun p q => deadline T p <= deadline T q) ts.

(** [children] and [parent] describe the same forest; only idle and init have no
    parent. *)
Record fam := mk_fam { f_pid : Z; f_parent : ptr; f_children : list ptr }.
Definition fam_of (v : proc) : fam := mk_fam (pid v) (parent v) (children v).
Record family_ok (F : gmap ptr fam) : Prop := {
  fa_nodup : forall p v, F !! p = Some v -> NoDup (f_children v);
  fa_down : forall p v c, F !! p = Some v -> c ∈ f_children v -> exists vc, F !! c = Some vc /\ f_parent vc = p;
  fa_up : forall c vc, F !! c = Some vc -> f_parent vc <> NULL -> exists v, F !! f_parent vc = Some v /\ c ∈ f_children v;
  fa_root : forall p v, F !! p = Some v -> f_parent v = NULL <-> f_pid v <= 1
}.

(** PIDs are unique, below [next_pid], and entered in the PID table. *)
Definition pid_bucket (n : Z) : Z := hash_index PID_HASH_BITS (hash_int n).
Record pid_ok (N : gmap ptr Z) (tbl : gmap Z (list ptr)) (next : Z) : Prop := {
  pk_range : forall p n, N !! p = Some n -> 0 <= n < next;
  pk_inj : forall p q n, N !! p = Some n -> N !! q = Some n -> p = q;
  pk_buckets : forall b, 0 <= b < HT_SIZE PID_HASH_BITS -> is_Some (tbl !! b);
  pk_nodup : forall b l, tbl !! b = Some l -> NoDup l;
  pk_table : forall b l p, tbl !! b = Some l -> p ∈ l <-> exists n, N !! p = Some n /\ pid_bucket n = b
}.

(** What a process owns; together, exactly what the process layer has allocated. *)
Record mem := mk_mem { m_kstack : Z; m_pt : Z; m_tf : Z }.
Definition mem_of (v : proc) : mem := mk_mem (kstack v) (pagetable v) (trapframe v).
Definition resources (p : ptr) (m : mem) : list res :=
  RObj p :: RPage (m_kstack m) :: (if m_pt m =? NULL then [] else [RPage (m_tf m); RTable (m_pt m); RVmas (m_pt m)]).
Record own_ok (R : gmap ptr mem) (own : list res) : Prop := {
  ow_nodup : NoDup own;
  ow_res_nodup : forall p m, R !! p = Some m -> NoDup (resources p m);
  ow_iff : forall r, r ∈ own <-> exists p m, R !! p = Some m /\ r ∈ resources p m;
  ow_tf : forall p m, R !! p = Some m -> m_pt m <> NULL -> m_tf m <> NULL;
  ow_disj : forall p q m m' r, R !! p = Some m -> R !! q = Some m' -> r ∈ resources p m -> r ∈ resources q m' -> p = q
}.

(** Resume points: a process that has exited is a zombie and the only kind that
    must not be resumed; sleepers in the condition loops name the lock they retake. *)
Record ctx := mk_ctx { c_state : proc_state; c_resume : resume }.
Definition ctx_of (v : proc) : ctx := mk_ctx (pstate v) (context v).
Record ctx_ok (C : gmap ptr ctx) (SL : gmap Z sleeplock) : Prop := {
  cx_exit : forall p c, C !! p = Some c -> c_resume c = InExit <-> c_state c = PROC_ZOMBIE;
  cx_wait : forall p c lk irq, C !! p = Some c -> c_resume c = InWqSleep lk (InProcWait irq) -> lk = WaitLock;
  cx_sleep : forall p c lk sl irq, C !! p = Some c -> c_resume c = InWqSleep lk (InSleepLock sl irq) -> lk = SleepLk sl /\ is_Some (SL !! sl)
}.

(** Every process has a wait queue for its children, on which only it sleeps;
    every sleep-lock has its wait queue. *)
Record wq_ok (D : gset ptr) (W : gmap wq_id (list ptr)) (SL : gmap Z sleeplock) : Prop := {
  wq_child : forall p, p ∈ D <-> is_Some (W !! ChildWq p);
  wq_own : forall p l q, W !! ChildWq p = Some l -> q ∈ l -> q = p;
  wq_sl : forall sl, is_Some (SL !! sl) -> is_Some (W !! SleepWq sl)
}.

(** idle exists and is never asleep or dead; init exists and never exits. *)
Record ids := mk_ids { i_pid : Z; i_state : proc_state }.
Definition ids_of (v : proc) : ids := mk_ids (pid v) (pstate v).
Record boot_ok (I : gmap ptr ids) (init : ptr) : Prop := {
  bo_idle : exists p v, I !! p = Some v /\ i_pid v = 0;
  bo_idle_on : forall p v, I !! p = Some v -> i_pid v = 0 -> i_state v = PROC_RUNNABLE \/ i_state v = PROC_RUNNING;
  bo_init : exists v, I !! init = Some v /\ i_pid v = 1;
  bo_init_on : forall p v, I !! p = Some v -> i_pid v <= 1 -> i_state v <> PROC_ZOMBIE
}.

(** idle only ever yields. *)
Definition ic_of (v : proc) : Z * resume := (pid v, context v).
Definition idle_ok (C : gmap ptr (Z * resume)) : Prop :=
  forall p n r, C !! p = Some (n, r) -> n = 0 -> match r with AtStart _ | InYield _ => True | _ => False end.

(** A zombie has no children: they were given to init. *)
Record zc := mk_zc { z_state : proc_state; z_children : list ptr }.
Definition zc_of (v : proc) : zc := mk_zc (pstate v) (children v).
Definition zombie_ok (Z : gmap ptr zc) : Prop := forall p z, Z !! p = Some z -> z_state z = PROC_ZOMBIE -> z_children z = [].

Definition on_cpu (s : kst) : option ptr := match mode s with Switched => None | _ => Some (cpu_proc s) end.

(** The hart: where it is and which locks it holds.  Only the lock of the process
    crosses a switch; none is held while a process runs. *)
Record hart_ok (s : kst) : Prop := {
  ha_sched : sched_p s = cpu_proc s;
  ha_cpu : mode s <> Switched -> cpu_proc s <> NULL;
  ha_held : held s = match mode s with Running => [] | _ => if cpu_proc s =? NULL then [] else [ProcLock (cpu_proc s)] end
}.

(** The invariant but for the locks, which holds in the middle of operations too. *)
Record core_inv (s : kst) : Prop := {
  in_all_nodup : NoDup (all_procs s);
  in_all : forall p, p ∈ all_procs s <-> p ∈ dom (procs s);
  in_null : procs s !! NULL = None;
  in_run : run_ok (pstate <$> procs s) (run_queue s);
  in_cpu : cpu_ok (pstate <$> procs s) (on_cpu s);
  in_sleep : sleep_ok (pstate <$> procs s) (tsleep_list s) (waitqs s);
  in_sorted : sorted_ok (wake_time <$> procs s) (tsleep_list s);
  in_family : family_ok (fam_of <$> procs s);
  in_pid : pid_ok (pid <$> procs s) (pid_table s) (next_pid s);
  in_own : own_ok (mem_of <$> procs s) (owned s);
  in_ctx : ctx_ok (ctx_of <$> procs s) (sleeplocks s);
  in_wq : wq_ok (dom (procs s)) (waitqs s) (sleeplocks s);
  in_boot : boot_ok (ids_of <$> procs s) (init_proc s);
  in_zombie : zombie_ok (zc_of <$> procs s);
  in_idle : idle_ok (ic_of <$> procs s)
}.
Definition proc_inv (s : kst) : Prop := core_inv s /\ hart_ok s.

(** * Frames: an update that keeps what a clause reads *)
Lemma view_upd {A} (g : proc -> A) (P : gmap ptr proc) p v v' : P !! p = Some v -> g v' = g v -> g <$> <[p := v']> P = g <$> P.
Proof. intros Hp Hg. rewrite fmap_insert, Hg. apply insert_id. by rewrite lookup_fmap, Hp. Qed.

Lemma dom_upd {A} (P : gmap ptr A) p v v' : P !! p = Some v -> dom (<[p := v']> P) = dom P.
Proof. intros Hp. rewrite dom_insert_L. apply elem_of_dom_2 in Hp. set_solver. Qed.

(** ** Membership in the lists of a field *)
Lemma on_some_spec {K} `{Countable K} (x : Z) (m : gmap K (list Z)) : on_some x m = true <-> exists k l, m !! k = Some l /\ x ∈ l.
Proof.
  unfold on_some. rewrite existsb_exists. split.
  - intros ([k l] & Hin & Hx). apply bool_decide_eq_true in Hx. exists k, l. split; [|done].
    by apply elem_of_map_to_list, list_elem_of_In.
  - intros (k & l & Hk & Hx). exists (k, l). split; [by apply list_elem_of_In, elem_of_map_to_list|]. by apply bool_decide_eq_true.
Qed.

Lemma on_some_false {K} `{Countable K} (x : Z) (m : gmap K (list Z)) : on_some x m = false <-> forall k l, m !! k = Some l -> x ∉ l.
Proof.
  rewrite <- not_true_iff_false, on_some_spec. naive_solver.
Qed.

Lemma elem_of_without x y l : x ∈ without y l <-> x ∈ l /\ x <> y.
Proof. unfold without. rewrite list_elem_of_filter. tauto. Qed.
Lemma without_id y l : (y ∉ l) -> without y l = l.
Proof.
  unfold without. induction l as [|x l IH]; [done|]. intros [Hx Hl]%not_elem_of_cons. rewrite filter_cons, decide_True by done. by rewrite IH.
Qed.
Lemma without_nodup y l : NoDup l -> NoDup (without y l).
Proof. apply NoDup_filter. Qed.
Lemma without_map_id {K} `{Countable K} y (m : gmap K (list Z)) : on_some y m = false -> without y <$> m = m.
Proof.
  intros Hn. rewrite on_some_false in Hn. apply map_eq. intros k. rewrite lookup_fmap. destruct (m !! k) eqn:E; [|done]. cbn. by rewrite without_id by eauto.
Qed.
Lemma without_app y l l' : without y (l ++ l') = without y l ++ without y l'.
Proof. apply filter_app. Qed.
Lemma without_cons_eq y l : without y (y :: l) = without y l.
Proof. unfold without. rewrite filter_cons, decide_False; naive_solver. Qed.

(** ** Locks *)
Lemma unlock_top (l : lock) h : (l ∉ h) -> filter (fun k => k <> l) (l :: h) = h.
Proof.
  intros Hl. rewrite filter_cons, decide_False by tauto. induction h as [|k h IH]; [done|].
  apply not_elem_of_cons in Hl as [? ?]. rewrite filter_cons, decide_True by done. by rewrite IH.
Qed.

(** * Symbolic execution *)
Ltac ks := cbn [procs all_procs run_queue pid_table tsleep_list waitqs sleeplocks next_pid init_proc cpu_proc need_resched sched_p mode held sie mtime timer owned tf_mem
  set_procs set_all_procs set_run_queue set_pid_table set_tsleep_list set_waitqs set_sleeplocks set_next_pid set_init_proc set_cpu_proc set_need_resched set_sched_p set_mode set_held set_sie set_mtime set_timer set_owned set_tf_mem
  pid name pstate parent children context kstack pagetable trapframe killed exit_status wake_time
  set_pstate set_parent set_children set_context set_name set_pagetable set_trapframe set_killed set_exit_status set_wake_time] in *.

Lemma wp_get_proc p v (Q : proc -> kst -> Prop) s : procs s !! p = Some v -> Q v s -> wp (get_proc p) Q s.
Proof. intros Hp HQ. unfold get_proc. apply wp_bind, wp_gets. by rewrite Hp. Qed.
Lemma wp_upd_proc p v f (Q : unit -> kst -> Prop) s : procs s !! p = Some v -> Q tt (set_procs (<[p := f v]> (procs s)) s) -> wp (upd_proc p f) Q s.
Proof. intros Hp HQ. unfold upd_proc. apply wp_bind. by eapply wp_get_proc. Qed.
Lemma wp_get_wq w l (Q : list Z -> kst -> Prop) s : waitqs s !! w = Some l -> Q l s -> wp (get_wq w) Q s.
Proof. intros Hp HQ. unfold get_wq. apply wp_bind, wp_gets. by rewrite Hp. Qed.
Lemma wp_spin_lock l (Q : unit -> kst -> Prop) s : (l ∉ held s) -> Q tt (set_held (l :: held s) s) -> wp (spin_lock l) Q s.
Proof. intros Hl HQ. unfold spin_lock. apply wp_bind, wp_gets. by rewrite bool_decide_eq_false_2. Qed.
Lemma wp_spin_unlock l h (Q : unit -> kst -> Prop) s : held s = l :: h -> (l ∉ h) -> Q tt (set_held h s) -> wp (spin_unlock l) Q s.
Proof. intros Hh Hl HQ. unfold spin_unlock. apply wp_modify. by rewrite Hh, unlock_top. Qed.
Lemma wp_irqsave l (Q : bool -> kst -> Prop) s : (l ∉ held s) -> Q (sie s) (set_held (l :: held s) (set_sie false s)) -> wp (spin_lock_irqsave l) Q s.
Proof. intros Hl HQ. unfold spin_lock_irqsave. wp_steps. apply wp_spin_lock; [done|]. by wp_steps. Qed.
Lemma wp_irqrestore l h f (Q : unit -> kst -> Prop) s : held s = l :: h -> (l ∉ h) ->
  Q tt (set_held h (set_sie (sie s || f) s)) -> wp (spin_unlock_irqrestore l f) Q s.
Proof.
  intros Hh Hl HQ. unfold spin_unlock_irqrestore. wp_steps. eapply wp_spin_unlock; [done..|].
  destruct f; wp_steps; [rewrite orb_true_r in HQ; exact HQ|]. rewrite orb_false_r in HQ. by destruct s.
Qed.
Lemma unlock_skip (k l : lock) h : k <> l -> filter (fun k => k <> l) (k :: h) = k :: filter (fun k => k <> l) h.
Proof. intros. by rewrite filter_cons, decide_True. Qed.
Lemma wp_this_proc (Q : Z -> kst -> Prop) s : cpu_proc s <> NULL -> Q (cpu_proc s) s -> wp this_proc Q s.
Proof. intros Hc HQ. unfold this_proc. wp_steps. by destruct (Z.eqb_spec (cpu_proc s) NULL). Qed.
Lemma wp_run_queue_add p (Q : unit -> kst -> Prop) s : (RunQueueLock ∉ held s) -> (p ∉ run_queue s) ->
  Q tt (set_run_queue (run_queue s ++ [p]) s) -> wp (run_queue_add p) Q s.
Proof.
  intros Hl Hp HQ. unfold run_queue_add, add_run_list. wp_steps. apply wp_spin_lock; [done|]. wp_steps. apply wp_require; [by apply bool_decide_eq_true|].
  wp_steps. eapply wp_spin_unlock; [done|done|]. by destruct s.
Qed.
