(* ===== verification/ProcMoves.v ===== *)
(** Moves of the process subsystem: how the clauses of the invariant follow a
    change of a process's state together with its queue. *)
From stdpp Require Import gmap sorting.
From S2P Require Import Prelude Layout Hash Proc ProcInv.

(** * Clauses under a change of one process *)
Section clauses.
Implicit Types S : gmap ptr proc_state.

Lemma run_ok_enter S rq p x : S !! p = Some x -> x <> PROC_RUNNABLE -> run_ok S rq -> run_ok (<[p := PROC_RUNNABLE]> S) (rq ++ [p]).
Proof.
  intros Hp Hx [Hn Hi]. assert (p ∉ rq) as Hpr by (rewrite Hi, Hp; congruence). split.
  - apply NoDup_app. split_and!; [done| |apply NoDup_singleton]. intros y Hy ->%list_elem_of_singleton. done.
  - intros q. rewrite elem_of_app, list_elem_of_singleton, lookup_insert, Hi. case_decide; naive_solver.
Qed.
Lemma run_ok_stay S rq p x y : S !! p = Some x -> x <> PROC_RUNNABLE -> y <> PROC_RUNNABLE -> run_ok S rq -> run_ok (<[p := y]> S) rq.
Proof. intros Hp Hx Hy [Hn Hi]. split; [done|]. intros q. rewrite lookup_insert, Hi. case_decide; naive_solver. Qed.
Lemma run_ok_pick S rq p y : y <> PROC_RUNNABLE -> run_ok S (p :: rq) -> run_ok (<[p := y]> S) rq.
Proof.
  intros Hy [Hn Hi]. apply NoDup_cons in Hn as [Hp Hn]. split; [done|]. intros q. specialize (Hi q). rewrite elem_of_cons in Hi. rewrite lookup_insert. case_decide; naive_solver.
Qed.

Lemma cpu_ok_leave S p y : y <> PROC_RUNNING -> cpu_ok S (Some p) -> cpu_ok (<[p := y]> S) None.
Proof. intros Hy Hc q. specialize (Hc q). rewrite lookup_insert. case_decide; naive_solver. Qed.
Lemma cpu_ok_enter S p : cpu_ok S None -> cpu_ok (<[p := PROC_RUNNING]> S) (Some p).
Proof. intros Hc q. specialize (Hc q). rewrite lookup_insert. case_decide; naive_solver. Qed.
Lemma cpu_ok_stay S p x y o : S !! p = Some x -> x <> PROC_RUNNING -> y <> PROC_RUNNING -> cpu_ok S o -> cpu_ok (<[p := y]> S) o.
Proof. intros Hp Hx Hy Hc q. pose proof (Hc q). rewrite lookup_insert. case_decide; naive_solver. Qed.

Lemma sleep_ok_wake S ts W p y : y <> PROC_SLEEPING -> sleep_ok S ts W -> sleep_ok (<[p := y]> S) (without p ts) (without p <$> W).
Proof.
  intros Hy [H1 H2 H3 H4 H5 H6 H7].
  assert (forall w l q, (without p <$> W) !! w = Some l -> q ∈ l -> q <> p /\ exists l', W !! w = Some l' /\ q ∈ l') as Hw.
  { intros w l q. rewrite lookup_fmap. destruct (W !! w) as [l'|] eqn:E; [|done]. intros [= <-] [Hq Hne]%elem_of_without. eauto. }
  split.
  - by apply without_nodup.
  - intros w l. rewrite lookup_fmap. destruct (W !! w) eqn:E; [|done]. intros [= <-]. by eapply without_nodup, H2.
  - intros q [Hq Hne]%elem_of_without. rewrite lookup_insert_ne by done. by apply H3.
  - intros w l q Hl Hq. destruct (Hw w l q Hl Hq) as (Hne & l' & Hl' & Hq'). rewrite lookup_insert_ne by done. by eapply H4.
  - intros w w' l l' q Hl Hl' Hq Hq'. destruct (Hw w l q Hl Hq) as (_ & k & ? & ?), (Hw w' l' q Hl' Hq') as (_ & k' & ? & ?). by eapply H5.
  - intros w l q Hl Hq [Hts _]%elem_of_without. destruct (Hw w l q Hl Hq) as (_ & k & ? & ?). by eapply H6.
  - intros q. rewrite lookup_insert. case_decide as E; [naive_solver|]. intros Hq. destruct (H7 q Hq) as [Hts|(w & l & Hl & Hin)].
    + left. by apply elem_of_without.
    + right. exists w, (without p l). rewrite lookup_fmap, Hl. split; [done|]. by apply elem_of_without.
Qed.
Lemma sleep_ok_out S ts W p x : S !! p = Some x -> x <> PROC_SLEEPING -> sleep_ok S ts W -> (p ∉ ts) /\ forall w l, W !! w = Some l -> p ∉ l.
Proof.
  intros Hp Hx Hs. split; [intros Hin; by pose proof (sp_ts _ _ _ Hs p Hin); naive_solver|]. intros w l Hl Hin. pose proof (sp_wq _ _ _ Hs w l p Hl Hin). naive_solver.
Qed.
Lemma sleep_ok_stay S ts W p x y : S !! p = Some x -> x <> PROC_SLEEPING -> y <> PROC_SLEEPING -> sleep_ok S ts W -> sleep_ok (<[p := y]> S) ts W.
Proof.
  intros Hp Hx Hy Hs. destruct (sleep_ok_out S ts W p x Hp Hx Hs) as [Hts Hw].
  rewrite <- (without_id p ts Hts), <- (without_map_id p W) by (by apply on_some_false). by apply sleep_ok_wake.
Qed.
Lemma sleep_ok_wq S ts W p x w l : S !! p = Some x -> x <> PROC_SLEEPING -> W !! w = Some l -> sleep_ok S ts W ->
  sleep_ok (<[p := PROC_SLEEPING]> S) ts (<[w := l ++ [p]]> W).
Proof.
  intros Hp Hx Hl Hs. destruct (sleep_ok_out S ts W p x Hp Hx Hs) as [Hts Hw]. pose proof Hs as [H1 H2 H3 H4 H5 H6 H7].
  assert (forall w' l' q, <[w := l ++ [p]]> W !! w' = Some l' -> q ∈ l' -> (q = p /\ w' = w) \/ (exists k, W !! w' = Some k /\ q ∈ k)) as Hin.
  { intros w' l' q. rewrite lookup_insert. case_decide as E; [|eauto]. subst w'. intros [= <-]. rewrite elem_of_app, list_elem_of_singleton. naive_solver. }
  split; [done|..].
  - intros w' l'. rewrite lookup_insert. case_decide; [|by apply H2]. intros [= <-]. apply NoDup_app. split_and!; [by eapply H2| |apply NoDup_singleton].
    intros y Hy ->%list_elem_of_singleton. by eapply Hw.
  - intros q Hq. rewrite lookup_insert. case_decide; [done|]. by apply H3.
  - intros w' l' q Hl' Hq. rewrite lookup_insert. case_decide; [done|]. destruct (Hin w' l' q Hl' Hq) as [[-> _]|(k & ? & ?)]; [done|by eapply H4].
  - intros w1 w2 l1 l2 q Hl1 Hl2 Hq1 Hq2.
    destruct (Hin _ _ _ Hl1 Hq1) as [[-> ->]|(k1 & ? & ?)], (Hin _ _ _ Hl2 Hq2) as [[? ->]|(k2 & ? & ?)]; subst; try done.
    + by destruct (Hw w2 k2 ltac:(done)).
    + by destruct (Hw w1 k1 ltac:(done)).
    + by eapply H5.
  - intros w' l' q Hl' Hq. destruct (Hin _ _ _ Hl' Hq) as [[-> ->]|(k & ? & ?)]; [done|by eapply H6].
  - intros q. rewrite lookup_insert. case_decide as E.
    + intros _. right. exists w, (l ++ [p]). subst. rewrite lookup_insert_eq. split; [done|]. apply elem_of_app. right. by left.
    + intros Hq. destruct (H7 q Hq) as [|(w' & l' & Hl' & Hq')]; [by left|right]. destruct (decide (w' = w)) as [->|Hne].
      * exists w, (l ++ [p]). rewrite lookup_insert_eq. split; [done|]. apply elem_of_app. left. naive_solver.
      * exists w', l'. by rewrite lookup_insert_ne.
Qed.
Lemma sleep_ok_ts S ts ts' W p x : S !! p = Some x -> x <> PROC_SLEEPING -> ts' ≡ₚ p :: ts -> sleep_ok S ts W -> sleep_ok (<[p := PROC_SLEEPING]> S) ts' W.
Proof.
  intros Hp Hx Hperm Hs. destruct (sleep_ok_out S ts W p x Hp Hx Hs) as [Hts Hw]. pose proof Hs as [H1 H2 H3 H4 H5 H6 H7]. split; [|done|..].
  - rewrite Hperm. by apply NoDup_cons.
  - intros q. rewrite Hperm, elem_of_cons, lookup_insert. case_decide; [done|]. naive_solver.
  - intros w l q Hl Hq. rewrite lookup_insert. case_decide; [done|]. by eapply H4.
  - done.
  - intros w l q Hl Hq. rewrite Hperm, elem_of_cons. intros [->|Hq']; [by eapply Hw|by eapply H6].
  - intros q. rewrite Hperm, elem_of_cons, lookup_insert. case_decide as E; [naive_solver|]. intros Hq. destruct (H7 q Hq); tauto.
Qed.

Lemma sorted_ok_without T ts p : sorted_ok T ts -> sorted_ok T (without p ts).
Proof.
  unfold sorted_ok, without. induction 1 as [|x l Hs IH Hf]; [constructor|]. rewrite filter_cons. case_decide; [|done]. constructor; [done|].
  rewrite Forall_forall in *. intros y [_ Hy]%list_elem_of_filter. auto.
Qed.
Lemma sorted_ok_stay T ts p x : (p ∉ ts) -> sorted_ok T ts -> sorted_ok (<[p := x]> T) ts.
Proof.
  unfold sorted_ok. induction ts as [|y ts IH]; [constructor|]. intros [Hy Hts]%not_elem_of_cons [Hs Hf]%StronglySorted_inv. constructor; [by apply IH|].
  rewrite Forall_forall in *. intros z Hz. unfold deadline. rewrite !lookup_insert_ne; [by apply Hf|by intros ->|by intros ->].
Qed.

Lemma ctx_ok_upd C SL p c : ctx_ok C SL -> (c_resume c = InExit <-> c_state c = PROC_ZOMBIE) ->
  (forall lk irq, c_resume c = InWqSleep lk (InProcWait irq) -> lk = WaitLock) ->
  (forall lk sl irq, c_resume c = InWqSleep lk (InSleepLock sl irq) -> lk = SleepLk sl /\ is_Some (SL !! sl)) ->
  ctx_ok (<[p := c]> C) SL.
Proof.
  intros [H1 H2 H3] Hx Hw Hs. split.
  - intros q k. rewrite lookup_insert. case_decide; [by intros [= <-]|by apply H1].
  - intros q k lk irq. rewrite lookup_insert. case_decide; [intros [= <-]; by apply Hw|by apply H2].
  - intros q k lk sl irq. rewrite lookup_insert. case_decide; [intros [= <-]; by apply Hs|by apply H3].
Qed.
(** A new state for the same resume point, neither of them a zombie's. *)
Lemma ctx_ok_state C SL p st st' r : C !! p = Some (mk_ctx st r) -> st <> PROC_ZOMBIE -> st' <> PROC_ZOMBIE -> ctx_ok C SL -> ctx_ok (<[p := mk_ctx st' r]> C) SL.
Proof.
  intros Hp Hs Hs' HC. pose proof HC as [H1 H2 H3]. apply ctx_ok_upd; [done|..]; cbn.
  - specialize (H1 p _ Hp). cbn in H1. tauto.
  - intros lk irq. by apply (H2 p _ lk irq Hp).
  - intros lk sl irq. by apply (H3 p _ lk sl irq Hp).
Qed.

Lemma boot_ok_upd I init p v st : boot_ok I init -> I !! p = Some v ->
  (i_pid v = 0 -> st = PROC_RUNNABLE \/ st = PROC_RUNNING) -> (i_pid v <= 1 -> st <> PROC_ZOMBIE) ->
  boot_ok (<[p := mk_ids (i_pid v) st]> I) init.
Proof.
  intros [H1 H2 H3 H4] Hp Hi Hz.
  assert (forall q u, <[p := mk_ids (i_pid v) st]> I !! q = Some u -> (q = p /\ u = mk_ids (i_pid v) st) \/ I !! q = Some u) as Hq.
  { intros q u. rewrite lookup_insert. case_decide; naive_solver. }
  assert (forall q u, I !! q = Some u -> exists u', <[p := mk_ids (i_pid v) st]> I !! q = Some u' /\ i_pid u' = i_pid u) as Hq'.
  { intros q u Hu. rewrite lookup_insert. case_decide; subst; eexists; (split; [done|]); cbn; congruence. }
  split.
  - destruct H1 as (q & u & Hu & H0). destruct (Hq' q u Hu) as (u' & ? & ?). exists q, u'. split; congruence.
  - intros q u Hu H0. destruct (Hq q u Hu) as [[-> ->]|Hu']; [by apply Hi|by eapply H2].
  - destruct H3 as (u & Hu & H0). destruct (Hq' init u Hu) as (u' & ? & ?). exists u'. split; congruence.
  - intros q u Hu H0. destruct (Hq q u Hu) as [[-> ->]|Hu']; [by apply Hz|by eapply H4].
Qed.

Lemma zombie_ok_upd (Z : gmap ptr zc) p z : zombie_ok Z -> (z_state z = PROC_ZOMBIE -> z_children z = []) -> zombie_ok (<[p := z]> Z).
Proof. intros HZ Hz q u. rewrite lookup_insert. case_decide; [by intros [= <-]|by apply HZ]. Qed.

Lemma idle_ok_upd (C : gmap ptr (Z * resume)) p n r : idle_ok C -> (n = 0 -> match r with AtStart _ | InYield _ => True | _ => False end) -> idle_ok (<[p := (n, r)]> C).
Proof. intros HC Hr q m k. rewrite lookup_insert. case_decide; [by intros [= <- <-]|apply HC]. Qed.

Lemma wq_ok_same D W W' SL : (forall w, is_Some (W' !! w) <-> is_Some (W !! w)) ->
  (forall p l q, W' !! ChildWq p = Some l -> q ∈ l -> q = p) -> wq_ok D W SL -> wq_ok D W' SL.
Proof. intros Hw Ho [H1 H2 H3]. split; [intros p; rewrite Hw; apply H1|done|]. intros sl Hsl. by apply Hw, H3. Qed.
Lemma wq_ok_without D W SL p : wq_ok D W SL -> wq_ok D (without p <$> W) SL.
Proof.
  intros HW. eapply wq_ok_same; [| |exact HW].
  - intros w. rewrite lookup_fmap. by rewrite fmap_is_Some.
  - intros q l x. rewrite lookup_fmap. destruct (W !! ChildWq q) eqn:E; [|done]. intros [= <-] [Hx _]%elem_of_without. by eapply HW.
Qed.
End clauses.

(** * Accessing the clauses at a process *)
Section at_proc.
Context (s : kst) (HI : core_inv s) (p : ptr) (v : proc) (Hp : procs s !! p = Some v).

Lemma st_at : (pstate <$> procs s) !! p = Some (pstate v).
Proof using Hp. by rewrite lookup_fmap, Hp. Qed.
Lemma ctx_at : (ctx_of <$> procs s) !! p = Some (mk_ctx (pstate v) (context v)).
Proof using Hp. by rewrite lookup_fmap, Hp. Qed.
Lemma ids_at : (ids_of <$> procs s) !! p = Some (mk_ids (pid v) (pstate v)).
Proof using Hp. by rewrite lookup_fmap, Hp. Qed.

Lemma not_null : p <> NULL.
Proof using HI Hp. intros ->. pose proof (in_null s HI). congruence. Qed.
Lemma not_queued : pstate v <> PROC_RUNNABLE -> p ∉ run_queue s.
Proof using HI Hp. intros Hs. rewrite (ru_iff _ _ (in_run s HI)), st_at. congruence. Qed.
Lemma not_asleep : pstate v <> PROC_SLEEPING -> (p ∉ tsleep_list s) /\ on_some p (waitqs s) = false.
Proof using HI Hp.
  intros Hs. destruct (sleep_ok_out _ _ _ p _ st_at Hs (in_sleep s HI)) as [H1 H2]. split; [done|]. by apply on_some_false.
Qed.
End at_proc.

(** Solves the clauses that do not read what changed. *)
Ltac frame Hp := rewrite ?(view_upd _ _ _ _ _ Hp) by done; rewrite ?(dom_upd _ _ _ _ Hp); try done.

(** What [core_inv] does not read. *)
Lemma core_frame s s' : core_inv s -> procs s' = procs s -> all_procs s' = all_procs s -> run_queue s' = run_queue s -> pid_table s' = pid_table s ->
  tsleep_list s' = tsleep_list s -> waitqs s' = waitqs s -> sleeplocks s' = sleeplocks s -> next_pid s' = next_pid s -> init_proc s' = init_proc s ->
  on_cpu s' = on_cpu s -> owned s' = owned s -> core_inv s'.
Proof.
  intros [] E1 E2 E3 E4 E5 E6 E7 E8 E9 E10 E11. split; rewrite ?E1, ?E2, ?E3, ?E4, ?E5, ?E6, ?E7, ?E8, ?E9, ?E10, ?E11; done.
Qed.

Lemma core_held s h : core_inv s -> core_inv (set_held h s).
Proof. intros HI. by apply (core_frame s). Qed.

(** Fields of a process that no clause reads. *)
Lemma core_upd_proc s p v v' : core_inv s -> procs s !! p = Some v ->
  pstate v' = pstate v -> wake_time v' = wake_time v -> fam_of v' = fam_of v -> pid v' = pid v -> mem_of v' = mem_of v -> context v' = context v ->
  core_inv (set_procs (<[p := v']> (procs s)) s).
Proof.
  intros [] Hp E1 E2 E3 E4 E5 E6. assert (ctx_of v' = ctx_of v) by (unfold ctx_of; congruence). assert (ids_of v' = ids_of v) by (unfold ids_of; congruence).
  assert (zc_of v' = zc_of v) by (unfold zc_of; injection E3; congruence). assert (ic_of v' = ic_of v) by (unfold ic_of; congruence).
  split; ks; rewrite ?(view_upd _ _ _ _ _ Hp) by done; rewrite ?(dom_upd _ _ _ _ Hp); try done.
  rewrite lookup_insert_ne; [done|]. intros ->. congruence.
Qed.

(** * A sleeper becomes runnable *)
Definition woken (p : ptr) (v : proc) (s : kst) : kst :=
  set_procs (<[p := set_pstate PROC_RUNNABLE v]> (procs s)) (set_run_queue (run_queue s ++ [p])
    (set_waitqs (without p <$> waitqs s) (set_tsleep_list (without p (tsleep_list s)) s))).

Lemma core_woken s p v : core_inv s -> procs s !! p = Some v -> pstate v = PROC_SLEEPING -> core_inv (woken p v s).
Proof.
  intros HI Hp Hs. pose proof (st_at s p v Hp) as Hst. rewrite Hs in Hst. pose proof (ctx_at s p v Hp) as Hcx. pose proof (ids_at s p v Hp) as Hid.
  pose proof (not_null s HI p v Hp) as Hnn. destruct HI. unfold woken. split; ks; frame Hp.
  - by rewrite lookup_insert_ne.
  - rewrite fmap_insert. by eapply run_ok_enter.
  - rewrite fmap_insert. by eapply cpu_ok_stay.
  - rewrite fmap_insert. by apply sleep_ok_wake.
  - by apply sorted_ok_without.
  - rewrite fmap_insert. eapply (ctx_ok_state _ _ p (pstate v)); [done|by rewrite Hs|done|done].
  - by apply wq_ok_without.
  - rewrite fmap_insert. eapply (boot_ok_upd _ _ p (mk_ids (pid v) (pstate v))); [done|done|by left|done].
  - rewrite fmap_insert. by apply zombie_ok_upd.
Qed.

(** * The process on the hart gives it up *)
Section leave.
Context (s : kst) (HI : core_inv s) (p : ptr) (v : proc) (Hp : procs s !! p = Some v) (Hc : on_cpu s = Some p).

Lemma cpu_running : pstate v = PROC_RUNNING.
Proof using HI Hp Hc. pose proof (proj2 (in_cpu s HI p) Hc) as H. rewrite (st_at s p v Hp) in H. by injection H. Qed.

Definition yielded (irq : bool) : kst :=
  set_mode Switched (set_run_queue (run_queue s ++ [p])
    (set_procs (<[p := set_context (InYield irq) (set_pstate PROC_RUNNABLE v)]> (procs s)) s)).
Lemma core_yielded irq : core_inv (yielded irq).
Proof using HI Hp Hc.
  pose proof cpu_running as Hs. pose proof (st_at s p v Hp) as Hst. rewrite Hs in Hst. pose proof (ids_at s p v Hp) as Hid. pose proof (not_null s HI p v Hp) as Hnn.
  destruct HI. unfold yielded. split; ks; frame Hp.
  - by rewrite lookup_insert_ne.
  - rewrite fmap_insert. by eapply run_ok_enter.
  - rewrite fmap_insert. apply cpu_ok_leave; [done|]. by rewrite <- Hc.
  - rewrite fmap_insert. by eapply sleep_ok_stay.
  - rewrite fmap_insert. by apply ctx_ok_upd.
  - rewrite fmap_insert. eapply (boot_ok_upd _ _ p (mk_ids (pid v) (pstate v))); [done|done|by left|done].
  - rewrite fmap_insert. by apply zombie_ok_upd.
  - rewrite fmap_insert. by apply idle_ok_upd.
Qed.

(** Sleeping on a wait queue. *)
Definition parked (w : wq_id) (l : list ptr) (lk : lock) (k : caller) : kst :=
  set_mode Switched (set_waitqs (<[w := l ++ [p]]> (waitqs s))
    (set_procs (<[p := set_context (InWqSleep lk k) (set_pstate PROC_SLEEPING v)]> (procs s)) s)).
Definition good_caller (w : wq_id) (lk : lock) (k : caller) : Prop :=
  match k with
  | InProcWait _ => w = ChildWq p /\ lk = WaitLock
  | InSleepLock sl _ => w = SleepWq sl /\ lk = SleepLk sl /\ is_Some (sleeplocks s !! sl)
  | InOther _ => exists a, w = OtherWq a /\ lk = OtherLock a
  end.
Lemma core_parked w l lk k : waitqs s !! w = Some l -> good_caller w lk k -> pid v <> 0 -> core_inv (parked w l lk k).
Proof using HI Hp Hc.
  intros Hw Hg Hi. pose proof cpu_running as Hs. pose proof (st_at s p v Hp) as Hst. rewrite Hs in Hst. pose proof (ids_at s p v Hp) as Hid. pose proof (not_null s HI p v Hp) as Hnn.
  pose proof (in_wq s HI) as Hwq. destruct HI. unfold parked. split; ks; frame Hp.
  - by rewrite lookup_insert_ne.
  - rewrite fmap_insert. by eapply run_ok_stay.
  - rewrite fmap_insert. apply cpu_ok_leave; [done|]. by rewrite <- Hc.
  - rewrite fmap_insert. by eapply sleep_ok_wq.
  - rewrite fmap_insert. apply ctx_ok_upd; [done|done|..]; cbn; unfold good_caller in Hg.
    + intros lk' irq [= -> ->]. by destruct Hg.
    + intros lk' sl irq [= -> ->]. by destruct Hg as (_ & -> & ?).
  - eapply wq_ok_same; [| |done].
    + intros w'. rewrite lookup_insert. case_decide; [|done]. subst. rewrite Hw. split; eauto.
    + intros q l' x. rewrite lookup_insert. case_decide as E; [|by apply Hwq].
      intros [= <-]. rewrite elem_of_app, list_elem_of_singleton. intros [Hx| ->]; [subst w; by eapply Hwq|].
      destruct k; [destruct Hg as [-> _]; congruence|destruct Hg as [-> _]; congruence|]. destruct Hg as (? & -> & _). congruence.
  - rewrite fmap_insert. by eapply (boot_ok_upd _ _ p (mk_ids (pid v) (pstate v))).
  - rewrite fmap_insert. by apply zombie_ok_upd.
  - rewrite fmap_insert. by apply idle_ok_upd.
Qed.

(** Sleeping until a deadline: [ts'] is [tsleep_list] with [p] inserted. *)
Definition timed (wt : Z) (ts' : list ptr) (irq : bool) : kst :=
  set_mode Switched (set_tsleep_list ts'
    (set_procs (<[p := set_context (InSysSleep irq) (set_pstate PROC_SLEEPING (set_wake_time wt v))]> (procs s)) s)).
Lemma core_timed wt ts' irq : ts' ≡ₚ p :: tsleep_list s -> sorted_ok (<[p := wt]> (wake_time <$> procs s)) ts' -> pid v <> 0 -> core_inv (timed wt ts' irq).
Proof using HI Hp Hc.
  intros Hperm Hso Hi. pose proof cpu_running as Hs. pose proof (st_at s p v Hp) as Hst. rewrite Hs in Hst. pose proof (ids_at s p v Hp) as Hid. pose proof (not_null s HI p v Hp) as Hnn.
  destruct HI. unfold timed. split; ks; frame Hp.
  - by rewrite lookup_insert_ne.
  - rewrite fmap_insert. by eapply run_ok_stay.
  - rewrite fmap_insert. apply cpu_ok_leave; [done|]. by rewrite <- Hc.
  - rewrite fmap_insert. by eapply sleep_ok_ts.
  - by rewrite fmap_insert.
  - rewrite fmap_insert. by apply ctx_ok_upd.
  - rewrite fmap_insert. by eapply (boot_ok_upd _ _ p (mk_ids (pid v) (pstate v))).
  - rewrite fmap_insert. by apply zombie_ok_upd.
  - rewrite fmap_insert. by apply idle_ok_upd.
Qed.

(** Exiting. *)
Definition exited (status : Z) : kst :=
  set_mode Switched (set_procs (<[p := set_context InExit (set_pstate PROC_ZOMBIE (set_exit_status status v))]> (procs s)) s).
Lemma core_exited status : 1 < pid v -> children v = [] -> core_inv (exited status).
Proof using HI Hp Hc.
  intros Hi Hch. pose proof cpu_running as Hs. pose proof (st_at s p v Hp) as Hst. rewrite Hs in Hst. pose proof (ids_at s p v Hp) as Hid. pose proof (not_null s HI p v Hp) as Hnn.
  destruct HI. unfold exited. split; ks; frame Hp.
  - by rewrite lookup_insert_ne.
  - rewrite fmap_insert. by eapply run_ok_stay.
  - rewrite fmap_insert. apply cpu_ok_leave; [done|]. by rewrite <- Hc.
  - rewrite fmap_insert. by eapply sleep_ok_stay.
  - rewrite fmap_insert. by apply ctx_ok_upd.
  - rewrite fmap_insert. eapply (boot_ok_upd _ _ p (mk_ids (pid v) (pstate v))); try done; cbn; lia.
  - rewrite fmap_insert. by apply zombie_ok_upd.
  - rewrite fmap_insert. apply idle_ok_upd; [done|]. cbn. lia.
Qed.
End leave.

(** * The scheduler takes the first runnable process *)
Definition dispatched (p : ptr) (v : proc) (rq : list ptr) (tm : Z) (s : kst) : kst :=
  set_mode Dispatched (set_sched_p p (set_timer tm (set_cpu_proc p (set_run_queue rq (set_procs (<[p := set_pstate PROC_RUNNING v]> (procs s)) s))))).
Lemma core_dispatched s p v rq tm : core_inv s -> mode s = Switched -> run_queue s = p :: rq -> procs s !! p = Some v -> core_inv (dispatched p v rq tm s).
Proof.
  intros HI Hm Hrq Hp. pose proof (st_at s p v Hp) as Hst. pose proof (ctx_at s p v Hp) as Hcx. pose proof (ids_at s p v Hp) as Hid. pose proof (not_null s HI p v Hp) as Hnn.
  assert (pstate v = PROC_RUNNABLE) as Hs.
  { pose proof (proj1 (ru_iff _ _ (in_run s HI) p)) as H. rewrite Hrq, Hst in H. specialize (H (list_elem_of_here _ _)). by injection H. }
  rewrite Hs in Hst. destruct HI. unfold dispatched. split; ks; frame Hp.
  - by rewrite lookup_insert_ne.
  - rewrite fmap_insert. apply run_ok_pick; [done|]. by rewrite <- Hrq.
  - unfold on_cpu in *. ks. rewrite Hm in *. rewrite fmap_insert. by apply cpu_ok_enter.
  - rewrite fmap_insert. by eapply sleep_ok_stay.
  - rewrite fmap_insert. eapply (ctx_ok_state _ _ p (pstate v)); [done|by rewrite Hs|done|done].
  - rewrite fmap_insert. eapply (boot_ok_upd _ _ p (mk_ids (pid v) (pstate v))); [done|done|by right|done].
  - rewrite fmap_insert. by apply zombie_ok_upd.
Qed.
