(* ===== verification/ProcOps.v ===== *)
(** The operations of the process subsystem against its invariant: each runs to
    completion (no undefined access, no lock it would spin on for ever) and ends in
    the state its move describes. *)
From stdpp Require Import gmap sorting.
From S2P Require Import Prelude Layout Hash Proc ProcInv ProcMoves.

(** Locks that may be held around a wakeup. *)
Definition outer (h : list lock) : Prop := Forall (fun l => match l with RunQueueLock | ProcLock _ | WqLock _ => False | _ => True end) h.
Lemma outer_not h l : outer h -> match l with RunQueueLock | ProcLock _ | WqLock _ => True | _ => False end -> l ∉ h.
Proof. unfold outer. rewrite Forall_forall. intros H Hl Hin. specialize (H l Hin). by destruct l. Qed.

Ltac lks := ks; rewrite ?not_elem_of_cons; repeat split; solve [congruence|apply not_elem_of_nil|done|by apply outer_not|by eauto using not_elem_of_nil].

Lemma running_proc s p : core_inv s -> on_cpu s = Some p -> exists v, procs s !! p = Some v /\ pstate v = PROC_RUNNING /\ p <> NULL.
Proof.
  intros HI Hc. pose proof (proj2 (in_cpu s HI p) Hc) as H. rewrite lookup_fmap in H. destruct (procs s !! p) as [v|] eqn:Hp; [|done].
  exists v. split_and!; [done|by injection H|]. by apply (not_null s HI p v).
Qed.

Lemma queued_proc s p : core_inv s -> p ∈ run_queue s -> exists v, procs s !! p = Some v /\ pstate v = PROC_RUNNABLE.
Proof.
  intros HI Hq. apply (ru_iff _ _ (in_run s HI)) in Hq. rewrite lookup_fmap in Hq. destruct (procs s !! p) as [v|]; [|done]. injection Hq. eauto.
Qed.

Lemma sleeping_proc s p : core_inv s -> (p ∈ tsleep_list s \/ on_some p (waitqs s) = true) -> exists v, procs s !! p = Some v /\ pstate v = PROC_SLEEPING.
Proof.
  intros HI Hq. assert ((pstate <$> procs s) !! p = Some PROC_SLEEPING) as H.
  { destruct Hq as [Hq|(w & l & Hl & Hin)%on_some_spec]; [by apply (sp_ts _ _ _ (in_sleep s HI))|by eapply (sp_wq _ _ _ (in_sleep s HI))]. }
  rewrite lookup_fmap in H. destruct (procs s !! p) as [v|]; [|done]. injection H. eauto.
Qed.

(** ** yield *)
Lemma yield_spec s p v : core_inv s -> held s = [] -> on_cpu s = Some p -> cpu_proc s = p -> procs s !! p = Some v ->
  yield s = Ok (tt, set_held [ProcLock p] (set_sie false (yielded s p v (sie s)))).
Proof.
  intros HI Hh Hc Hcp Hp. pose proof (cpu_running s HI p v Hp Hc) as Hs. pose proof (not_null s HI p v Hp) as Hnn.
  pose proof (not_queued s HI p v Hp ltac:(by rewrite Hs)) as Hq.
  enough (wp yield (fun _ s' => s' = set_held [ProcLock p] (set_sie false (yielded s p v (sie s)))) s) as Hw.
  { apply wp_elim in Hw as ([] & s' & E & ->). done. }
  unfold yield. wp_steps. apply wp_this_proc; [by rewrite Hcp|]. rewrite Hcp. wp_steps. apply wp_irqsave; [rewrite Hh; apply not_elem_of_nil|].
  rewrite Hh. wp_steps. eapply wp_upd_proc; [done|]. ks. wp_steps. apply wp_run_queue_add; [lks|done|]. ks.
  unfold sched. wp_steps. apply wp_this_proc; [by ks; rewrite Hcp|]. ks. rewrite Hcp. wp_steps. eapply wp_upd_proc; [by ks; rewrite lookup_insert_eq|]. wp_steps.
  unfold yielded. ks. by rewrite insert_insert_eq.
Qed.

(** ** wake_proc, wq_wake_one, wq_wake_all *)
Lemma wake_proc_spec s p v (Q : unit -> kst -> Prop) : core_inv s -> (ProcLock p ∉ held s) -> (RunQueueLock ∉ held s) -> on_some p (waitqs s) = true ->
  procs s !! p = Some v -> Q tt (woken p v s) -> wp (wake_proc p) Q s.
Proof.
  intros HI Hl1 Hl2 Hw Hp HQ. destruct (sleeping_proc s p HI (or_intror Hw)) as (v' & Hp' & Hs). assert (v' = v) as -> by congruence.
  pose proof (not_queued s HI p v Hp ltac:(by rewrite Hs)) as Hq.
  assert (p ∉ tsleep_list s) as Hts. { apply on_some_spec in Hw as (w & l & Hl & Hin). by eapply (sp_ts_wq _ _ _ (in_sleep s HI)). }
  unfold wake_proc, del_wait_link. wp_steps. apply wp_require; [done|]. wp_steps. apply wp_spin_lock; [done|]. wp_steps.
  eapply wp_upd_proc; [done|]. wp_steps. eapply wp_spin_unlock; [done|done|]. ks. apply wp_run_queue_add; [done|done|]. ks.
  unfold woken in HQ. rewrite without_id in HQ by done. by destruct s.
Qed.

Lemma wake_one_spec s w l (Q : Z -> kst -> Prop) : core_inv s -> outer (held s) -> waitqs s !! w = Some l ->
  (l = [] -> Q 0 s) -> (forall p l' v, l = p :: l' -> procs s !! p = Some v -> pstate v = PROC_SLEEPING -> Q 1 (woken p v s)) -> wp (wq_wake_one w) Q s.
Proof.
  intros HI Ho Hw HQ0 HQ1. unfold wq_wake_one. wp_steps. apply wp_irqsave; [by apply outer_not|]. wp_steps. eapply wp_get_wq; [done|].
  assert (set_held (held s) (set_sie (sie s) (set_held (WqLock w :: held s) (set_sie false s))) = s) as Es by by destruct s.
  destruct l as [|p l'].
  - wp_steps. eapply wp_irqrestore; [done|by apply outer_not|]. wp_steps. ks. rewrite orb_false_l, Es. by apply HQ0.
  - assert (on_some p (waitqs s) = true) as Hon by (apply on_some_spec; exists w, (p :: l'); split; [done|by left]).
    destruct (sleeping_proc s p HI (or_intror Hon)) as (v & Hp & Hs). wp_steps.
    eapply (wake_proc_spec _ p v); [|by ks; apply not_elem_of_cons; split; [done|apply outer_not]..| | |].
    + eapply core_frame; [exact HI|done..].
    + done.
    + done.
    + wp_steps. eapply wp_irqrestore; [done|by apply outer_not|]. wp_steps. ks. rewrite orb_false_l.
      assert (forall a b, a = b -> Q 1 b -> Q 1 a) as Heq by (by intros ? ? ->). eapply Heq; [|by apply (HQ1 p l' v)]. by destruct s.
Qed.

(** The state after waking the processes of [l] in order. *)
Fixpoint woken_all (l : list ptr) (s : kst) : kst :=
  match l with
  | [] => s
  | p :: l' => woken_all l' (match procs s !! p with Some v => woken p v s | None => s end)
  end.
Lemma woken_keeps p v s : held (woken p v s) = held s /\ mode (woken p v s) = mode s /\ cpu_proc (woken p v s) = cpu_proc s /\ sched_p (woken p v s) = sched_p s /\ sie (woken p v s) = sie s.
Proof. done. Qed.
Lemma woken_wq p v s w l : waitqs s !! w = Some l -> waitqs (woken p v s) !! w = Some (without p l).
Proof. intros Hw. cbn. by rewrite lookup_fmap, Hw. Qed.


(** Neither the run queue nor any process is locked. *)
Definition inner_free (h : list lock) : Prop := (RunQueueLock ∉ h) /\ forall p, ProcLock p ∉ h.
Lemma outer_inner h w : outer h -> inner_free (WqLock w :: h).
Proof. intros Ho. split; [|intros p]; apply not_elem_of_cons; (split; [done|by apply outer_not]). Qed.

Lemma wake_all_loop_spec w : forall l s (Q : unit -> kst -> Prop), core_inv s -> inner_free (held s) -> waitqs s !! w = Some l ->
  (core_inv (woken_all l s) -> Q tt (woken_all l s)) -> wp (wake_all_loop (length l) w) Q s.
Proof.
  induction l as [|p l IH]; intros s Q HI [Hf1 Hf2] Hw HQ; cbn [wake_all_loop length]; wp_steps; (eapply wp_get_wq; [done|]); [by wp_steps; apply HQ|].
  assert (on_some p (waitqs s) = true) as Hon by (apply on_some_spec; exists w, (p :: l); split; [done|by left]).
  destruct (sleeping_proc s p HI (or_intror Hon)) as (v & Hp & Hs). wp_steps.
  apply (wake_proc_spec s p v); [done|done|done|done|done|]. cbn [woken_all] in HQ. rewrite Hp in HQ.
  pose proof (sp_wq_nodup _ _ _ (in_sleep s HI) w _ Hw) as [Hpl Hnd]%NoDup_cons.
  apply IH; [by apply core_woken|done| |done]. rewrite (woken_wq p v s w _ Hw), without_cons_eq, without_id by done. done.
Qed.

Lemma woken_all_frame h b : forall l s, woken_all l (set_held h (set_sie b s)) = set_held h (set_sie b (woken_all l s)).
Proof.
  induction l as [|p l IH]; intros s; [done|]. cbn [woken_all]. ks. destruct (procs s !! p) as [v|]; [|apply IH]. rewrite <- IH. by f_equal.
Qed.
Lemma woken_all_keeps : forall l s, held (woken_all l s) = held s /\ mode (woken_all l s) = mode s /\ cpu_proc (woken_all l s) = cpu_proc s /\ sie (woken_all l s) = sie s.
Proof. induction l as [|p l IH]; intros s; [done|]. cbn [woken_all]. destruct (procs s !! p) as [v|]; [exact (IH (woken p v s))|apply IH]. Qed.

Lemma wake_all_spec s w l (Q : unit -> kst -> Prop) : core_inv s -> outer (held s) -> waitqs s !! w = Some l ->
  (core_inv (woken_all l s) -> Q tt (woken_all l s)) -> wp (wq_wake_all w) Q s.
Proof.
  intros HI Ho Hw HQ. unfold wq_wake_all. wp_steps. apply wp_irqsave; [by apply outer_not|]. wp_steps. eapply wp_get_wq; [done|]. wp_steps.
  apply wake_all_loop_spec; [eapply core_frame; [exact HI|done..]|by apply outer_inner|done|]. rewrite woken_all_frame. intros HI'.
  wp_steps. eapply wp_irqrestore; [done|by apply outer_not|]. ks.
  destruct (woken_all_keeps l s) as (Eh & _ & _ & Es). assert (set_held (held s) (set_sie (sie s) (woken_all l s)) = woken_all l s) as E.
  { rewrite <- Eh, <- Es. by destruct (woken_all l s). }
  ks. rewrite orb_false_l. unfold set_held, set_sie in *. ks. rewrite E. apply HQ. eapply core_frame; [exact HI'|done..].
Qed.

(** ** wq_sleep *)
Lemma unlock_three (a b c : lock) : a <> b -> c <> a -> c <> b ->
  filter (fun k => k <> b) (filter (fun k => k <> c) [a; b; c]) = [a].
Proof. intros. rewrite (unlock_skip a c), (unlock_skip b c), (unlock_top c []), unlock_skip, unlock_top; try done; apply not_elem_of_nil. Qed.
Lemma wq_sleep_spec s p v w l lk k (Q : unit -> kst -> Prop) : core_inv s -> held s = [lk] -> outer [lk] -> on_cpu s = Some p -> cpu_proc s = p ->
  procs s !! p = Some v -> waitqs s !! w = Some l -> Q tt (set_held [ProcLock p] (parked s p v w l lk k)) -> wp (wq_sleep w lk k) Q s.
Proof.
  intros HI Hh Ho Hc Hcp Hp Hw HQ. pose proof (cpu_running s HI p v Hp Hc) as Hs. pose proof (not_null s HI p v Hp) as Hnn.
  destruct (not_asleep s HI p v Hp ltac:(by rewrite Hs)) as [_ Hns].
  unfold wq_sleep. wp_steps. apply wp_this_proc; [by rewrite Hcp|]. rewrite Hcp. wp_steps. apply wp_spin_lock; [rewrite Hh; by apply outer_not|]. rewrite Hh.
  wp_steps. apply wp_spin_lock; [ks; apply not_elem_of_cons; split; [done|by apply outer_not]|]. ks.
  unfold add_wait_link. wp_steps. ks. apply wp_require; [by rewrite Hns|]. wp_steps. eapply wp_get_wq; [done|]. wp_steps. eapply wp_upd_proc; [done|]. wp_steps.
  unfold spin_unlock. wp_steps. ks. unfold sched. wp_steps. apply wp_this_proc; [by ks; rewrite Hcp|]. ks. rewrite Hcp. wp_steps. eapply wp_upd_proc; [by ks; rewrite lookup_insert_eq|]. wp_steps. ks.
  assert (lk <> WqLock w /\ lk <> ProcLock p) as [Hn1 Hn2] by (split; intros ->; by inversion_clear Ho).
  rewrite unlock_three by done. unfold parked in HQ. ks. by rewrite insert_insert_eq.
Qed.
