(* ===== verification/ProcSched.v ===== *)
(** The scheduler, [proc_kill] and timed sleep against the invariant. *)
From stdpp Require Import gmap sorting.
From S2P Require Import Prelude Layout Hash Proc ProcInv ProcMoves ProcOps.

(** ** The scheduler *)

(** idle is runnable whenever no process is on the hart. *)
Lemma run_queue_nonempty s : core_inv s -> on_cpu s = None -> exists p rq v, run_queue s = p :: rq /\ procs s !! p = Some v.
Proof.
  intros HI Hc. destruct (bo_idle _ _ (in_boot s HI)) as (p & i & Hp & H0). pose proof (bo_idle_on _ _ (in_boot s HI) p i Hp H0) as Hon.
  rewrite lookup_fmap in Hp. destruct (procs s !! p) as [v|] eqn:Ep; [|done]. injection Hp as <-. cbn in *.
  assert (p ∈ run_queue s) as Hq.
  { apply (ru_iff _ _ (in_run s HI)). rewrite lookup_fmap, Ep. cbn. destruct Hon as [->|Hr]; [done|]. exfalso.
    pose proof (proj1 (in_cpu s HI p)) as H. rewrite lookup_fmap, Ep in H. cbn in H. rewrite Hr, Hc in H. by specialize (H eq_refl). }
  destruct (run_queue s) as [|q rq] eqn:Erq; [by apply elem_of_nil in Hq|].
  destruct (queued_proc s q HI ltac:(rewrite Erq; by left)) as (vq & Hvq & _). eauto 10.
Qed.

(** The deadline armed: the earlier of the end of the quantum and the first
    sleeper's deadline. *)
Definition armed (s : kst) : Z :=
  let d := u64 (mtime s + TIMER_INTERVAL) in
  match tsleep_list s with [] => d | q :: _ => Z.min (deadline (wake_time <$> procs s) q) d end.

Lemma timer_deadline_spec s (Q : Z -> kst -> Prop) : (forall q l, tsleep_list s = q :: l -> is_Some (procs s !! q)) -> (TsleepLock ∉ held s) -> Q (armed s) s -> wp timer_deadline Q s.
Proof.
  intros HI Hl HQ. unfold timer_deadline. wp_steps. apply wp_spin_lock; [done|]. wp_steps. ks.
  unfold armed in HQ. destruct (tsleep_list s) as [|q l] eqn:El.
  - wp_steps. eapply wp_spin_unlock; [done|done|]. wp_steps. by destruct s.
  - destruct (HI q l eq_refl) as [v Hv]. wp_steps. eapply wp_get_proc; [done|]. wp_steps.
    eapply wp_spin_unlock; [done|done|]. wp_steps. unfold deadline in HQ. rewrite lookup_fmap, Hv in HQ. cbn [fmap option_fmap option_map default] in HQ.
    replace (if wake_time v <? _ then _ else _) with (Z.min (wake_time v) (u64 (mtime s + TIMER_INTERVAL))) by (destruct (Z.ltb_spec (wake_time v) (u64 (mtime s + TIMER_INTERVAL))); lia).
    by destruct s.
Qed.

Lemma dispatch_spec s p rq v (Q : unit -> kst -> Prop) : core_inv s -> mode s = Switched -> held s = [] -> run_queue s = p :: rq -> procs s !! p = Some v ->
  Q tt (set_held [ProcLock p] (dispatched p v rq (armed s) s)) -> wp scheduler_dispatch Q s.
Proof.
  intros HI Hm Hh Hrq Hp HQ. destruct (queued_proc s p HI ltac:(rewrite Hrq; by left)) as (v' & Hv' & Hs). assert (v' = v) as -> by congruence.
  unfold scheduler_dispatch. wp_steps. apply wp_spin_lock; [rewrite Hh; apply not_elem_of_nil|]. rewrite Hh.
  unfold pick_next. wp_steps. ks. rewrite Hrq. wp_steps. eapply wp_spin_unlock; [done|apply not_elem_of_nil|]. ks. wp_steps.
  apply wp_spin_lock; [ks; apply not_elem_of_nil|]. ks. wp_steps. eapply wp_upd_proc; [done|]. ks. wp_steps. ks.
  apply timer_deadline_spec; [|lks|].
  - ks. intros q l El. destruct (sleeping_proc s q HI ltac:(left; rewrite El; by left)) as (u & Hu & _). rewrite lookup_insert. case_decide; eauto.
  - wp_steps. unfold dispatched in HQ. ks. unfold armed in *. ks. by rewrite (view_upd _ _ _ _ _ Hp).
Qed.

Lemma scheduler_spec s : proc_inv s -> mode s = Switched -> exists p rq v, run_queue s = p :: rq /\ procs s !! p = Some v /\ pstate v = PROC_RUNNABLE /\
  scheduler s = Ok (tt, set_held [ProcLock p] (dispatched p v rq (armed s) s)) /\ proc_inv (set_held [ProcLock p] (dispatched p v rq (armed s) s)).
Proof.
  intros [HI [Hsp _ Hheld]] Hm. destruct (run_queue_nonempty s HI ltac:(unfold on_cpu; by rewrite Hm)) as (p & rq & v & Hrq & Hp). exists p, rq, v.
  destruct (queued_proc s p HI ltac:(rewrite Hrq; by left)) as (v' & Hv' & Hs). assert (v' = v) as -> by congruence. split_and!; [done..| |].
  - enough (wp scheduler (fun _ s' => s' = set_held [ProcLock p] (dispatched p v rq (armed s) s)) s) as Hw by (apply wp_elim in Hw as ([] & s' & E & ->); done).
    unfold scheduler. wp_steps. unfold spin_unlock. wp_steps. ks.
    assert (filter (fun k => k <> ProcLock (sched_p s)) (held s) = []) as ->.
    { rewrite Hheld, Hm, Hsp. destruct (cpu_proc s =? NULL); [done|]. apply unlock_top, not_elem_of_nil. }
    eapply (dispatch_spec _ p rq v); [eapply core_frame; [exact HI|try done..]; unfold on_cpu; ks; by rewrite Hm|done|done|done|done|done].
  - split; [by apply core_held, core_dispatched|].
    pose proof (not_null s HI p v Hp) as Hnn. split; [done|done|]. unfold dispatched. ks. by destruct (Z.eqb_spec p NULL).
Qed.

(** ** proc_kill *)
Lemma pid_scan_spec s n : forall l (Q : Z -> kst -> Prop), (forall p, p ∈ l -> is_Some (procs s !! p)) ->
  (forall p v, p ∈ l -> procs s !! p = Some v -> pid v = n -> p <> NULL -> Q p s) -> ((forall p v, p ∈ l -> procs s !! p = Some v -> pid v <> n) -> Q NULL s) ->
  (NULL ∉ l) -> wp (pid_scan l n) Q s.
Proof.
  induction l as [|p l IH]; intros Q Hl Hf Hn H0; cbn [pid_scan]; [wp_steps; apply Hn; by intros p v []%elem_of_nil|].
  destruct (Hl p ltac:(by left)) as [v Hv]. apply not_elem_of_cons in H0 as [Hp0 H0]. wp_steps. eapply wp_get_proc; [done|]. destruct (Z.eqb_spec (pid v) n) as [E|E].
  - wp_steps. apply (Hf p v); [by left|done..|congruence].
  - apply IH; [intros q Hq; apply Hl; by right|intros q u Hq; apply Hf; by right| |done]. intros Hnn. apply Hn.
    intros q u [->|Hq]%elem_of_cons Hu; [congruence|by apply (Hnn q)].
Qed.

(** The lookup finds the process with the PID, if there is one. *)
Lemma pid_lookup_spec s n (Q : Z -> kst -> Prop) : core_inv s ->
  (forall p v, procs s !! p = Some v -> pid v = n -> p <> NULL -> Q p s) -> ((forall p v, procs s !! p = Some v -> pid v <> n) -> Q NULL s) ->
  wp (pid_lookup n) Q s.
Proof.
  intros HI Hf Hn. unfold pid_lookup. wp_steps. set (b := hash_index _ _).
  destruct (pk_buckets _ _ _ (in_pid s HI) b) as [l Hl]; [apply hash_index_range; done|]. rewrite Hl.
  assert (forall p, p ∈ l <-> exists v, procs s !! p = Some v /\ pid_bucket (pid v) = b) as Hin.
  { intros p. rewrite (pk_table _ _ _ (in_pid s HI) b l p Hl). setoid_rewrite lookup_fmap. split.
    - intros (m & Hm & Hb). destruct (procs s !! p) as [v|]; [|done]. injection Hm as <-. eauto.
    - intros (v & -> & Hb). eauto. }
  apply pid_scan_spec.
  - intros p (v & Hv & _)%Hin. eauto.
  - intros p v _. apply Hf.
  - intros Hno. apply Hn. intros p v Hv <-. apply (Hno p v); [|done|done]. apply Hin. eauto.
  - intros (v & Hv & _)%Hin. pose proof (in_null s HI). congruence.
Qed.

Definition killed_at (p : ptr) (v : proc) (s : kst) : kst := set_procs (<[p := set_killed true v]> (procs s)) s.
Lemma core_killed s p v : core_inv s -> procs s !! p = Some v -> core_inv (killed_at p v s).
Proof. intros HI Hp. by apply (core_upd_proc s p v (set_killed true v)). Qed.

(** The state after [proc_kill] of [p]. *)
Definition after_kill (p : ptr) (v : proc) (s : kst) : kst :=
  if bool_decide (pstate v = PROC_SLEEPING) then woken p (set_killed true v) (killed_at p v s) else killed_at p v s.
Lemma core_after_kill s p v : core_inv s -> procs s !! p = Some v -> core_inv (after_kill p v s).
Proof.
  intros HI Hp. pose proof (core_killed s p v HI Hp) as HI'. unfold after_kill. case_bool_decide; [|done].
  apply core_woken; [done|unfold killed_at; ks; by rewrite lookup_insert_eq|done].
Qed.

Lemma sleeping_where s p v : core_inv s -> procs s !! p = Some v -> pstate v = PROC_SLEEPING ->
  (p ∈ tsleep_list s /\ on_some p (waitqs s) = false) \/ ((p ∉ tsleep_list s) /\ on_some p (waitqs s) = true).
Proof.
  intros HI Hp Hs. pose proof (st_at s p v Hp) as Hst. rewrite Hs in Hst. pose proof (in_sleep s HI) as HS.
  destruct (sp_some _ _ _ HS p Hst) as [Hts|(w & l & Hl & Hin)].
  - left. split; [done|]. apply on_some_false. intros w l Hl Hin. by apply (sp_ts_wq _ _ _ HS w l p).
  - right. split; [by eapply (sp_ts_wq _ _ _ HS)|]. apply on_some_spec. eauto.
Qed.

Lemma kill_found_spec s p v (Q : Z -> kst -> Prop) : core_inv s -> held s = [] -> procs s !! p = Some v -> Q 0 (after_kill p v s) -> wp (kill_found p) Q s.
Proof.
  intros HI Hh Hp HQ. unfold kill_found. wp_steps. apply wp_irqsave; [rewrite Hh; apply not_elem_of_nil|]. rewrite Hh. wp_steps. apply wp_spin_lock; [lks|]. ks. wp_steps.
  eapply wp_upd_proc; [done|]. wp_steps. eapply wp_get_proc; [by ks; rewrite lookup_insert_eq|]. ks.
  assert (forall s', set_held [] (set_sie (sie s) (set_held [ProcLock p; TsleepLock] (set_sie false s'))) = set_held [] (set_sie (sie s) s')) as Hcl by done.
  unfold after_kill in HQ. case_bool_decide as Hs.
  - pose proof (not_queued s HI p v Hp ltac:(by rewrite Hs)) as Hq. destruct (sleeping_where s p v HI Hp Hs) as [[Hts Hw]|[Hts Hw]].
    + unfold tsleep_link_empty. wp_steps. ks. rewrite bool_decide_eq_false_2 by tauto. cbn [negb]. unfold del_init_tsleep_link. wp_steps.
      eapply wp_upd_proc; [by ks; rewrite lookup_insert_eq|]. wp_steps. apply wp_run_queue_add; [lks|done|]. wp_steps.
      eapply wp_spin_unlock; [done|lks|]. wp_steps. eapply wp_irqrestore; [done|apply not_elem_of_nil|]. wp_steps.
      unfold woken, killed_at in HQ. ks. rewrite orb_false_l. rewrite without_map_id in HQ by done. rewrite insert_insert_eq in *. rewrite <- Hh. by destruct s.
    + unfold tsleep_link_empty. wp_steps. ks. rewrite bool_decide_eq_true_2 by done. cbn [negb]. unfold del_wait_link. wp_steps. apply wp_require; [done|]. wp_steps.
      eapply wp_upd_proc; [by ks; rewrite lookup_insert_eq|]. wp_steps. apply wp_run_queue_add; [lks|done|]. wp_steps.
      eapply wp_spin_unlock; [done|lks|]. wp_steps. eapply wp_irqrestore; [done|apply not_elem_of_nil|]. wp_steps.
      unfold woken, killed_at in HQ. ks. rewrite orb_false_l. rewrite without_id in HQ by done. rewrite insert_insert_eq in *. rewrite <- Hh. by destruct s.
  - wp_steps. eapply wp_spin_unlock; [done|lks|]. wp_steps. eapply wp_irqrestore; [done|apply not_elem_of_nil|]. wp_steps.
    unfold killed_at in HQ. ks. rewrite orb_false_l, <- Hh. by destruct s.
Qed.

(** ** Timed sleep *)

(** The expired sleepers: the longest prefix whose deadlines have passed. *)
Fixpoint expired (T : gmap ptr Z) (now : Z) (l : list ptr) : list ptr :=
  match l with
  | [] => []
  | p :: l' => if now <? deadline T p then [] else p :: expired T now l'
  end.

Lemma woken_wake_time p v s : procs s !! p = Some v -> wake_time <$> procs (woken p v s) = wake_time <$> procs s.
Proof. intros Hp. cbn. by rewrite (view_upd _ _ _ _ _ Hp) by done. Qed.

Lemma wake_sleepers_spec now : forall l s (Q : unit -> kst -> Prop), core_inv s -> inner_free (held s) -> NoDup l -> (forall p, p ∈ l -> p ∈ tsleep_list s) ->
  (core_inv (woken_all (expired (wake_time <$> procs s) now l) s) -> Q tt (woken_all (expired (wake_time <$> procs s) now l) s)) -> wp (wake_sleepers l now) Q s.
Proof.
  induction l as [|p l IH]; intros s Q HI Hf Hnd Hl HQ; cbn [wake_sleepers expired] in *; [wp_steps; by apply HQ|].
  destruct (sleeping_proc s p HI ltac:(left; apply Hl; by left)) as (v & Hv & Hs). wp_steps. eapply wp_get_proc; [done|].
  assert (deadline (wake_time <$> procs s) p = wake_time v) as Hd by (unfold deadline; by rewrite lookup_fmap, Hv). rewrite Hd in HQ.
  destruct (now <? wake_time v); [wp_steps; by apply HQ|]. cbn [woken_all] in HQ. rewrite Hv in HQ.
  apply NoDup_cons in Hnd as [Hpl Hnd]. destruct Hf as [Hf1 Hf2].
  destruct (sleeping_where s p v HI Hv Hs) as [[Hts Hw]|[Hts _]]; [|destruct Hts; apply Hl; by left].
  pose proof (not_queued s HI p v Hv ltac:(by rewrite Hs)) as Hq.
  unfold del_init_tsleep_link. wp_steps. apply wp_spin_lock; [apply Hf2|]. wp_steps. eapply wp_upd_proc; [done|]. wp_steps.
  apply wp_run_queue_add; [lks|done|]. wp_steps. eapply wp_spin_unlock; [done|apply Hf2|].
  assert (forall a b, a = b -> wp (wake_sleepers l now) Q b -> wp (wake_sleepers l now) Q a) as Heq by (by intros ? ? ->).
  eapply Heq; [|apply (IH (woken p v s))].
  - unfold woken. ks. rewrite without_map_id by done. by destruct s.
  - by apply core_woken.
  - done.
  - done.
  - intros q Hql. cbn. apply elem_of_without. split; [apply Hl; by right|]. by intros ->.
  - by rewrite (woken_wake_time p v s Hv).
Qed.

Lemma wake_expired_spec s (Q : unit -> kst -> Prop) : core_inv s -> held s = [] ->
  (core_inv (woken_all (expired (wake_time <$> procs s) (mtime s) (tsleep_list s)) s) -> Q tt (woken_all (expired (wake_time <$> procs s) (mtime s) (tsleep_list s)) s)) ->
  wp wake_expired_sleepers Q s.
Proof.
  intros HI Hh HQ. unfold wake_expired_sleepers. wp_steps. apply wp_spin_lock; [rewrite Hh; apply not_elem_of_nil|]. rewrite Hh. wp_steps. ks. set (s1 := set_held [TsleepLock] s).
  assert (s1 = set_held [TsleepLock] (set_sie (sie s) s)) as Es1 by by destruct s.
  apply wake_sleepers_spec; [eapply core_frame; [exact HI|done..]|split; [|intros p]; cbn; apply not_elem_of_cons; (split; [done|apply not_elem_of_nil])|apply (sp_ts_nodup _ _ _ (in_sleep s HI))|done|].
  set (e := expired _ _ _). change (expired (wake_time <$> procs s) (mtime s) (tsleep_list s)) with e in HQ.
  rewrite Es1, woken_all_frame. intros HI'. eapply wp_spin_unlock; [done|apply not_elem_of_nil|].
  destruct (woken_all_keeps e s) as (Eh & _ & _ & Es). assert (set_held [] (set_held [TsleepLock] (set_sie (sie s) (woken_all e s))) = woken_all e s) as ->.
  { rewrite <- Es, <- Hh, <- Eh. by destruct (woken_all e s). }
  apply HQ. eapply core_frame; [exact HI'|done..].
Qed.

(** Insertion by deadline. *)
Fixpoint insert_by (T : gmap ptr Z) (p wt : Z) (l : list ptr) : list ptr :=
  match l with
  | [] => [p]
  | q :: l' => if wt <? deadline T q then p :: q :: l' else q :: insert_by T p wt l'
  end.
Lemma insert_by_perm T p wt l : insert_by T p wt l ≡ₚ p :: l.
Proof. induction l as [|q l IH]; [done|]. cbn. destruct (wt <? _); [done|]. rewrite IH. constructor. Qed.
Lemma insert_by_sorted T p wt l : (p ∉ l) -> sorted_ok T l -> sorted_ok (<[p := wt]> T) (insert_by T p wt l).
Proof.
  unfold sorted_ok. induction l as [|q l IH]; cbn [insert_by]; [by repeat constructor|]. intros Hpl Hso. pose proof (sorted_ok_stay T (q :: l) p wt Hpl Hso) as Hso'.
  apply not_elem_of_cons in Hpl as [Hpq Hpl]. pose proof Hso as [Hs Hf]%StronglySorted_inv.
  assert (forall x, x <> p -> deadline (<[p := wt]> T) x = deadline T x) as Hd by (intros x Hx; unfold deadline; by rewrite lookup_insert_ne).
  assert (deadline (<[p := wt]> T) p = wt) as Hdp by (unfold deadline; by rewrite lookup_insert_eq).
  destruct (Z.ltb_spec wt (deadline T q)) as [Hlt|Hge].
  - constructor; [done|]. rewrite Forall_forall in *. rewrite Hdp. intros x [->|Hx]%elem_of_cons; [rewrite Hd by done; lia|].
    rewrite Hd by (by intros ->). specialize (Hf x Hx). lia.
  - constructor; [by apply IH|]. rewrite Forall_forall in *. intros x. rewrite insert_by_perm, elem_of_cons. rewrite (Hd q) by done.
    intros [->|Hx]; [by rewrite Hdp|]. rewrite Hd by (by intros ->). auto.
Qed.

Lemma tsleep_insert_spec s p wt T : forall l (Q : list Z -> kst -> Prop), (forall q, q ∈ l -> exists v, procs s !! q = Some v /\ deadline T q = wake_time v) -> Q (insert_by T p wt l) s -> wp (tsleep_insert l p wt) Q s.
Proof.
  induction l as [|q l IH]; intros Q Hl HQ; cbn [tsleep_insert insert_by] in *; [by wp_steps|].
  destruct (Hl q ltac:(by left)) as (v & Hv & Hd). wp_steps. eapply wp_get_proc; [done|]. rewrite Hd in HQ. destruct (wt <? wake_time v); [by wp_steps|].
  wp_steps. apply IH; [intros x Hx; apply Hl; by right|]. by wp_steps.
Qed.

(** The deadline [sys_sleep] computes. *)
Definition sleep_until (now ms : Z) : Z := u64 (now + MS_TO_MTIME (if ms <? SLEEP_MS_MAX then ms else SLEEP_MS_MAX)).

Lemma sys_sleep_spec s p v ms (Q : unit -> kst -> Prop) : core_inv s -> held s = [] -> on_cpu s = Some p -> cpu_proc s = p -> procs s !! p = Some v ->
  let wt := sleep_until (mtime s) ms in
  Q tt (set_held [ProcLock p] (set_sie false (timed s p v wt (insert_by (wake_time <$> procs s) p wt (tsleep_list s)) (sie s)))) -> wp (sys_sleep ms) Q s.
Proof.
  intros HI Hh Hc Hcp Hp wt HQ. pose proof (cpu_running s HI p v Hp Hc) as Hs. pose proof (not_null s HI p v Hp) as Hnn.
  destruct (not_asleep s HI p v Hp ltac:(by rewrite Hs)) as [Hts _].
  unfold sys_sleep. wp_steps. apply wp_this_proc; [by rewrite Hcp|]. rewrite Hcp. wp_steps. fold (sleep_until (mtime s) ms). fold wt. eapply wp_upd_proc; [done|]. wp_steps.
  apply wp_irqsave; [ks; rewrite Hh; apply not_elem_of_nil|]. ks. rewrite Hh. wp_steps. eapply wp_get_proc; [by ks; rewrite lookup_insert_eq|]. wp_steps. ks. apply wp_require; [by apply bool_decide_eq_true|]. wp_steps.
  apply (tsleep_insert_spec _ _ _ (wake_time <$> procs s)).
  { intros q Hq. destruct (sleeping_proc s q HI (or_introl Hq)) as (u & Hu & _). exists u. unfold deadline. rewrite lookup_fmap, Hu. split; [|done]. ks. rewrite lookup_insert_ne; [done|by intros ->]. }
  wp_steps. apply wp_spin_lock; [lks|]. wp_steps. eapply wp_upd_proc; [by ks; rewrite lookup_insert_eq|]. wp_steps. unfold spin_unlock. wp_steps. ks.
  unfold sched. wp_steps. apply wp_this_proc; [by ks; rewrite Hcp|]. ks. rewrite Hcp. wp_steps. eapply wp_upd_proc; [by ks; rewrite !insert_insert_eq, lookup_insert_eq|]. wp_steps. ks.
  rewrite unlock_skip, unlock_top by (done || apply not_elem_of_nil). unfold timed in HQ. ks. by rewrite !insert_insert_eq.
Qed.
