(* ===== verification/ProcLife.v ===== *)
(** [proc_exit], [proc_wait] and [free_proc] against the invariant. *)
From stdpp Require Import gmap sorting.
From S2P Require Import Prelude Layout Hash Proc ProcInv ProcMoves ProcOps.

(** * Changes of the family only *)
Definition agrees (v v' : proc) : Prop :=
  pstate v' = pstate v /\ context v' = context v /\ pid v' = pid v /\ wake_time v' = wake_time v /\ mem_of v' = mem_of v.
Definition same_procs (P P' : gmap ptr proc) : Prop := forall q, option_Forall2 agrees (P !! q) (P' !! q).

Lemma same_view {A} (g : proc -> A) P P' : (forall v v', agrees v v' -> g v' = g v) -> same_procs P P' -> g <$> P' = g <$> P.
Proof. intros Hg HS. apply map_eq. intros q. rewrite !lookup_fmap. destruct (HS q) as [v v' Ha|]; [|done]. cbn. f_equal. by apply Hg. Qed.
Lemma same_dom P P' : same_procs P P' -> dom P' = dom P.
Proof. intros HS. apply set_eq. intros q. rewrite !elem_of_dom. destruct (HS q); split; eauto; by intros [? ?]. Qed.

Lemma core_family s P' : core_inv s -> same_procs (procs s) P' -> family_ok (fam_of <$> P') -> zombie_ok (zc_of <$> P') -> core_inv (set_procs P' s).
Proof.
  intros [] HS HF HZ. split; ks; rewrite ?(same_dom _ _ HS); try done;
    try (match goal with |- context [?g <$> P'] => rewrite (same_view g _ _ ltac:(intros v v' (? & ? & ? & ? & ?); try done; unfold ctx_of, ids_of, ic_of; congruence) HS) end; done).
  specialize (HS NULL). rewrite in_null in HS. by inversion HS.
Qed.

(** * Moving a child to another parent *)
Definition move_fn (c new q : ptr) (v : proc) : proc :=
  set_children (without c (children v) ++ (if decide (q = new) then [c] else [])) (if decide (q = c) then set_parent new v else v).
Definition moved (c new : ptr) (P : gmap ptr proc) : gmap ptr proc := map_imap (fun q v => Some (move_fn c new q v)) P.
Lemma moved_lookup c new P q : moved c new P !! q = move_fn c new q <$> P !! q.
Proof. unfold moved. rewrite map_lookup_imap. by destruct (P !! q). Qed.
Lemma moved_same c new P : same_procs P (moved c new P).
Proof. intros q. rewrite moved_lookup. destruct (P !! q) as [v|]; cbn; constructor. unfold move_fn. repeat case_decide; by split_and!. Qed.

Lemma family_moved c new P : family_ok (fam_of <$> P) -> is_Some (P !! new) -> new <> NULL ->
  (forall vc, P !! c = Some vc -> 1 < pid vc) -> is_Some (P !! c) -> family_ok (fam_of <$> moved c new P).
Proof.
  intros [F1 F2 F3 F4] [vn Hn] Hnn Hc [vc Hvc].
  assert (forall q f, (fam_of <$> moved c new P) !! q = Some f -> exists v, P !! q = Some v /\ (fam_of <$> P) !! q = Some (fam_of v) /\ f = fam_of (move_fn c new q v)) as Hlk.
  { intros q f. rewrite lookup_fmap, moved_lookup. destruct (P !! q) as [v|] eqn:E; [|done]. intros [= <-]. exists v. by rewrite lookup_fmap, E. }
  assert (forall q v, P !! q = Some v -> (fam_of <$> moved c new P) !! q = Some (fam_of (move_fn c new q v))) as Hin.
  { intros q v Hv. by rewrite lookup_fmap, moved_lookup, Hv. }
  assert (forall q v, f_children (fam_of (move_fn c new q v)) = without c (children v) ++ (if decide (q = new) then [c] else [])) as Hch by (intros; unfold move_fn; by repeat case_decide).
  assert (forall q v, f_parent (fam_of (move_fn c new q v)) = if decide (q = c) then new else parent v) as Hpar by (intros; unfold move_fn; by repeat case_decide).
  assert (forall q v, f_pid (fam_of (move_fn c new q v)) = pid v) as Hpid by (intros; unfold move_fn; by repeat case_decide).
  split.
  - intros q f (v & Hv & Hf & ->)%Hlk. rewrite Hch. apply NoDup_app. split_and!; [by eapply without_nodup, (F1 q _ Hf)| |case_decide; [apply NoDup_singleton|constructor]].
    intros x [_ Hx]%elem_of_without. case_decide; [by rewrite list_elem_of_singleton|apply not_elem_of_nil].
  - intros q f x (v & Hv & Hf & ->)%Hlk. rewrite Hch, elem_of_app, elem_of_without. intros [[Hx Hxc]|Hx].
    + destruct (F2 q _ x Hf Hx) as (fx & Hfx & Hp). rewrite lookup_fmap in Hfx. destruct (P !! x) as [vx|] eqn:Ex; [|done]. injection Hfx as <-.
      eexists. split; [by apply Hin|]. rewrite Hpar. by rewrite decide_False.
    + case_decide as E; [|by apply elem_of_nil in Hx]. apply list_elem_of_singleton in Hx as ->. subst q. eexists. split; [by apply Hin|]. by rewrite Hpar, decide_True.
  - intros q f (v & Hv & Hf & ->)%Hlk. rewrite Hpar. case_decide as E.
    + subst q. intros _. eexists. split; [by apply Hin|]. rewrite Hch, elem_of_app. right. rewrite decide_True by done. by left.
    + intros Hp0. destruct (F3 q _ Hf Hp0) as (fp & Hfp & Hcin). cbn in Hfp. rewrite lookup_fmap in Hfp. destruct (P !! parent v) as [vp|] eqn:Ep; [|done]. injection Hfp as <-.
      eexists. split; [by apply Hin|]. rewrite Hch, elem_of_app, elem_of_without. by left.
  - intros q f (v & Hv & Hf & ->)%Hlk. rewrite Hpar, Hpid. case_decide as E; [|apply (F4 q _ Hf)]. subst q. specialize (Hc v Hv). split; [done|lia].
Qed.

Lemma zombie_moved c new P vn : zombie_ok (zc_of <$> P) -> P !! new = Some vn -> pstate vn <> PROC_ZOMBIE -> zombie_ok (zc_of <$> moved c new P).
Proof.
  intros HZ Hn Hs q z. rewrite lookup_fmap, moved_lookup. destruct (P !! q) as [v|] eqn:E; [|done]. intros [= <-]. unfold zc_of. cbn [z_state z_children].
  intros Hz. assert (pstate v = PROC_ZOMBIE) as Hv by (revert Hz; unfold move_fn; by repeat case_decide).
  assert (q <> new) as Hne by congruence. unfold move_fn. cbn. rewrite (decide_False _ _ Hne), app_nil_r.
  specialize (HZ q (zc_of v)). rewrite lookup_fmap, E in HZ. assert (children v = []) as Hc by by apply HZ. by rewrite Hc.
Qed.

(** The code: unlink from the old parent's list, link at the end of the new one's. *)
Lemma children_on_some s c : on_some c (children_of s) = true <-> exists q v, procs s !! q = Some v /\ c ∈ children v.
Proof.
  rewrite on_some_spec. unfold children_of. split.
  - intros (q & l & Hl & Hc). rewrite lookup_fmap in Hl. destruct (procs s !! q) as [v|] eqn:E; [|done]. injection Hl as <-. eauto.
  - intros (q & v & Hv & Hc). exists q, (children v). by rewrite lookup_fmap, Hv.
Qed.
Lemma children_off s c : on_some c (children_of s) = false <-> forall q v, procs s !! q = Some v -> c ∉ children v.
Proof. rewrite <- not_true_iff_false, children_on_some. naive_solver. Qed.

Definition unlinked (c : ptr) (P : gmap ptr proc) : gmap ptr proc := (fun v => set_children (without c (children v)) v) <$> P.
Lemma unlinked_off s c : on_some c (children_of (set_procs (unlinked c (procs s)) s)) = false.
Proof.
  apply children_off. ks. intros q v. unfold unlinked. rewrite lookup_fmap. destruct (procs s !! q); [|done]. intros [= <-]. cbn. rewrite elem_of_without. tauto.
Qed.

Lemma wp_del_sibling c (Q : unit -> kst -> Prop) s : on_some c (children_of s) = true -> Q tt (set_procs (unlinked c (procs s)) s) -> wp (del_sibling c) Q s.
Proof. intros Hc HQ. unfold del_sibling. wp_steps. apply wp_require; [done|]. by wp_steps. Qed.
Lemma wp_add_sibling c q v (Q : unit -> kst -> Prop) s : on_some c (children_of s) = false -> procs s !! q = Some v ->
  Q tt (set_procs (<[q := set_children (children v ++ [c]) v]> (procs s)) s) -> wp (add_sibling c q) Q s.
Proof. intros Hc Hq HQ. unfold add_sibling. wp_steps. apply wp_require; [by rewrite Hc|]. by eapply wp_upd_proc. Qed.

Lemma move_step_spec s c new vc (Q : unit -> kst -> Prop) : procs s !! c = Some vc -> is_Some (procs s !! new) -> on_some c (children_of s) = true ->
  Q tt (set_procs (moved c new (procs s)) s) ->
  wp (upd_proc c (set_parent new);; del_sibling c;; add_sibling c new) Q s.
Proof.
  intros Hc [vn Hn] Hon HQ. wp_steps. eapply wp_upd_proc; [done|]. wp_steps. set (s1 := set_procs _ s).
  assert (on_some c (children_of s1) = true) as Hon1.
  { apply children_on_some in Hon as (q & v & Hv & Hin). apply children_on_some. unfold s1. ks. destruct (decide (q = c)) as [->|].
    - exists c, (set_parent new vc). rewrite lookup_insert_eq. split; [done|]. cbn. by replace vc with v by congruence.
    - exists q, v. by rewrite lookup_insert_ne. }
  apply wp_del_sibling; [done|]. destruct (procs s1 !! new) as [u|] eqn:Eu; [|unfold s1 in Eu; ks; rewrite lookup_insert in Eu; case_decide; congruence].
  eapply wp_add_sibling; [apply unlinked_off|by ks; unfold unlinked; rewrite lookup_fmap, Eu|]. unfold s1 in *. ks.
  match goal with |- Q tt (set_procs ?P _) => assert (P = moved c new (procs s)) as -> end; [|exact HQ].
  apply map_eq. intros q. rewrite moved_lookup. unfold unlinked, move_fn. rewrite lookup_insert, lookup_fmap, !lookup_insert.
  destruct (decide (new = q)) as [<-|Hnq].
  - rewrite (decide_True _ _ (eq_refl new)). rewrite lookup_insert in Eu. destruct (decide (c = new)) as [->|Hcn].
    + rewrite Hc. injection Eu as <-. cbn. by rewrite decide_True.
    + rewrite Hn in *. injection Eu as <-. cbn. by rewrite decide_False by congruence.
  - destruct (decide (c = q)) as [<-|Hcq].
    + rewrite Hc. cbn. rewrite (decide_False (P := c = new)) by congruence. rewrite decide_True by done. by rewrite app_nil_r.
    + destruct (procs s !! q); cbn; [|done]. rewrite !decide_False by congruence. by rewrite app_nil_r.
Qed.

(** * reparent *)
Fixpoint moved_all (l : list ptr) (new : ptr) (P : gmap ptr proc) : gmap ptr proc :=
  match l with [] => P | c :: l' => moved_all l' new (moved c new P) end.

Lemma init_at s : core_inv s -> exists vi, procs s !! init_proc s = Some vi /\ pid vi = 1 /\ pstate vi <> PROC_ZOMBIE /\ init_proc s <> NULL.
Proof.
  intros HI. destruct (bo_init _ _ (in_boot s HI)) as (i & Hi & H1). rewrite lookup_fmap in Hi. destruct (procs s !! init_proc s) as [vi|] eqn:E; [|done].
  exists vi. injection Hi as <-. cbn in H1. split_and!; [done|done| |by eapply not_null].
  apply (bo_init_on _ _ (in_boot s HI) (init_proc s) (ids_of vi)); [by rewrite lookup_fmap, E|cbn; lia].
Qed.

(** A child has a parent, so it is neither idle nor init. *)
Lemma child_facts s p v c : core_inv s -> procs s !! p = Some v -> c ∈ children v ->
  exists vc, procs s !! c = Some vc /\ parent vc = p /\ 1 < pid vc /\ on_some c (children_of s) = true.
Proof.
  intros HI Hp Hc. pose proof (in_family s HI) as HF. destruct (fa_down _ HF p (fam_of v) c) as (fc & Hfc & Hpar); [by rewrite lookup_fmap, Hp|done|].
  rewrite lookup_fmap in Hfc. destruct (procs s !! c) as [vc|] eqn:E; [|done]. injection Hfc as <-. exists vc. split_and!; [done|done| |].
  - pose proof (fa_root _ HF c (fam_of vc) ltac:(by rewrite lookup_fmap, E)) as Hr. cbn in *. pose proof (not_null s HI p v Hp).
    destruct (Z.lt_ge_cases 1 (pid vc)) as [|Hle]; [done|]. destruct H. rewrite <- Hpar. apply Hr. lia.
  - apply children_on_some. eauto.
Qed.

Lemma core_moved s c new vn : core_inv s -> procs s !! new = Some vn -> pstate vn <> PROC_ZOMBIE -> is_Some (procs s !! c) -> (forall vc, procs s !! c = Some vc -> 1 < pid vc) ->
  core_inv (set_procs (moved c new (procs s)) s).
Proof.
  intros HI Hn Hs Hc Hpid. apply core_family; [done|apply moved_same| |by eapply zombie_moved; [apply in_zombie|..]].
  apply family_moved; [by apply in_family|by eauto|by eapply not_null|done|done].
Qed.

Lemma reparent_spec p : forall l s v (Q : unit -> kst -> Prop), core_inv s -> procs s !! p = Some v -> children v = l -> p <> init_proc s ->
  (core_inv (set_procs (moved_all l (init_proc s) (procs s)) s) -> Q tt (set_procs (moved_all l (init_proc s) (procs s)) s)) -> wp (reparent (length l) p (init_proc s)) Q s.
Proof.
  induction l as [|c l IH]; intros s v Q HI Hp Hch Hpi HQ; cbn [reparent length moved_all] in *; wp_steps; (eapply wp_get_proc; [done|]); rewrite Hch.
  - wp_steps. replace (set_procs (procs s) s) with s in HQ by by destruct s. by apply HQ.
  - destruct (child_facts s p v c HI Hp ltac:(rewrite Hch; by left)) as (vc & Hc & Hpar & Hpid & Hon). destruct (init_at s HI) as (vi & Hi & _ & His & _).
    assert (core_inv (set_procs (moved c (init_proc s) (procs s)) s)) as HI' by (eapply core_moved; eauto; intros vc' Hvc'; congruence).
    eapply (wp_mono (upd_proc c (set_parent (init_proc s));; del_sibling c;; add_sibling c (init_proc s);; reparent (length l) p (init_proc s))); [|done].
    assert (forall A (m1 m2 m3 : M kst unit) (m4 : M kst A) Q s, wp ((m1;; m2;; m3);; m4) Q s -> wp (m1;; m2;; m3;; m4) Q s) as Hassoc.
    { intros A m1 m2 m3 m4 Q0 s0. unfold wp, mbind, M_bind. destruct (m1 s0) as [[? s1]| | |]; [|done..]. destruct (m2 s1) as [[? s2]| | |]; done. }
    apply Hassoc, wp_bind. eapply move_step_spec; [done|by eauto|done|].
    assert (NoDup (c :: l)) as [Hcl _]%NoDup_cons. { rewrite <- Hch. apply (fa_nodup _ (in_family s HI) p (fam_of v)). by rewrite lookup_fmap, Hp. }
    apply (IH (set_procs (moved c (init_proc s) (procs s)) s) (move_fn c (init_proc s) p v)); ks; [done|by rewrite moved_lookup, Hp| |done|done].
    unfold move_fn. cbn. rewrite (decide_False _ _ Hpi), app_nil_r. rewrite Hch, without_cons_eq. by apply without_id.
Qed.

(** What moving the children leaves alone, and where they end up. *)
Lemma moved_all_same new : forall l P, same_procs P (moved_all l new P).
Proof.
  induction l as [|c l IH]; intros P q; cbn [moved_all].
  - destruct (P !! q); constructor. by split_and!.
  - pose proof (moved_same c new P q) as H1. pose proof (IH (moved c new P) q) as H2. destruct H1 as [v v' (?&?&?&?&?)|]; inversion H2 as [? v'' (?&?&?&?&?)|]; constructor.
    split_and!; congruence.
Qed.
Lemma moved_all_children new : forall l P p v, P !! p = Some v -> p <> new -> exists v', moved_all l new P !! p = Some v' /\ children v' = foldl (fun a c => without c a) (children v) l.
Proof.
  induction l as [|c l IH]; intros P p v Hp Hpn; cbn [moved_all foldl]; [eauto|].
  destruct (IH (moved c new P) p (move_fn c new p v)) as (v' & Hv' & Hch); [by rewrite moved_lookup, Hp|done|]. exists v'. split; [done|]. rewrite Hch. f_equal.
  unfold move_fn. cbn. by rewrite (decide_False _ _ Hpn), app_nil_r.
Qed.
Lemma without_all l : forall a, (forall x, x ∈ a -> x ∈ l) -> foldl (fun a c => without c a) a l = [].
Proof.
  induction l as [|c l IH]; intros a Ha; cbn [foldl]; [destruct a as [|x a]; [done|]; by specialize (Ha x (list_elem_of_here _ _)); apply elem_of_nil in Ha|].
  apply IH. intros x [Hx Hne]%elem_of_without. specialize (Ha x Hx). by apply elem_of_cons in Ha as [?|?].
Qed.

(** * proc_exit *)

(** [wq_wake_one] as a relation. *)
Definition woke_first (w : wq_id) (s s' : kst) : Prop :=
  (waitqs s !! w = Some [] /\ s' = s) \/ exists q l v, waitqs s !! w = Some (q :: l) /\ procs s !! q = Some v /\ pstate v = PROC_SLEEPING /\ s' = woken q v s.

Lemma core_woke_first w s s' : core_inv s -> woke_first w s s' -> core_inv s'.
Proof. intros HI [[_ ->]|(q & l & v & _ & Hq & Hs & ->)]; [done|by apply core_woken]. Qed.
Lemma woke_first_keeps w s s' : woke_first w s s' -> held s' = held s /\ mode s' = mode s /\ cpu_proc s' = cpu_proc s /\ sie s' = sie s /\ sched_p s' = sched_p s /\ init_proc s' = init_proc s /\ sleeplocks s' = sleeplocks s.
Proof. by intros [[_ ->]|(q & l & v & _ & Hq & Hs & ->)]. Qed.
Lemma woke_first_running w s s' p v : woke_first w s s' -> procs s !! p = Some v -> pstate v <> PROC_SLEEPING -> procs s' !! p = Some v.
Proof. intros [[_ ->]|(q & l & u & _ & Hq & Hs & ->)] Hp Hn; [done|]. cbn. rewrite lookup_insert_ne; [done|]. intros ->. congruence. Qed.
Lemma wake_one_rel s w : core_inv s -> outer (held s) -> is_Some (waitqs s !! w) -> wp (wq_wake_one w) (fun r s' => woke_first w s s') s.
Proof.
  intros HI Ho [l Hl]. eapply wake_one_spec; [done|done|done| |].
  - intros ->. by left.
  - intros p l' v -> Hp Hs. right. eauto 10.
Qed.

Definition reparented (s : kst) (v : proc) : kst := set_procs (moved_all (children v) (init_proc s) (procs s)) (set_held [WaitLock] (set_sie false s)).
(** The state after [proc_exit]: the children moved to init, the parent woken, the
    process a zombie whose lock crosses to the scheduler. *)
Definition exit_post (status : Z) (s : kst) (p : ptr) (v : proc) (s' : kst) : Prop :=
  exists v1 s2, procs (reparented s v) !! p = Some v1 /\ children v1 = [] /\ woke_first (ChildWq (parent v1)) (reparented s v) s2 /\
    s' = set_held [ProcLock p] (exited s2 p v1 status).

Section exit.
Context (s : kst) (p : ptr) (v : proc) (HI : core_inv s) (Hh : held s = []) (Hc : on_cpu s = Some p) (Hcp : cpu_proc s = p) (Hsp : sched_p s = p) (Hp : procs s !! p = Some v) (Hpid : 1 < pid v).

Lemma exit_not_init : p <> init_proc s.
Proof using HI Hp Hpid. destruct (init_at s HI) as (vi & Hi & H1 & _ & _). intros E. rewrite <- E in Hi. assert (vi = v) as Ev by congruence. rewrite Ev in H1. lia. Qed.

Lemma reparented_at : exists v1, procs (reparented s v) !! p = Some v1 /\ children v1 = [] /\ agrees v v1.
Proof using HI Hp Hpid.
  unfold reparented. ks. destruct (moved_all_children (init_proc s) (children v) (procs s) p v Hp exit_not_init) as (v1 & Hv1 & Hch). exists v1. split_and!; [done| |].
  - rewrite Hch. by apply without_all.
  - pose proof (moved_all_same (init_proc s) (children v) (procs s) p) as H. rewrite Hp, Hv1 in H. by inversion H.
Qed.

Lemma proc_exit_spec status : wp (proc_exit status) (fun _ s' => exit_post status s p v s' /\ proc_inv s' /\ mode s' = Switched) s.
Proof using HI Hh Hc Hcp Hsp Hp Hpid.
  destruct reparented_at as (v1 & Hv1 & Hch1 & Hag). pose proof exit_not_init as Hpi. pose proof (not_null s HI p v Hp) as Hnn.
  pose proof (cpu_running s HI p v Hp Hc) as Hrun. assert (pstate v1 = PROC_RUNNING /\ pid v1 = pid v) as [Hr1 Hpid1] by (destruct Hag as (? & _ & ? & _); split; congruence).
  unfold proc_exit. wp_steps. apply wp_this_proc; [by rewrite Hcp|]. rewrite Hcp. wp_steps. eapply wp_get_proc; [done|]. destruct (Z.leb_spec (pid v) 1) as [|_]; [lia|].
  wp_steps. apply wp_irqsave; [rewrite Hh; apply not_elem_of_nil|]. rewrite Hh. wp_steps. set (s0 := set_held [WaitLock] (set_sie false s)).
  apply (reparent_spec p (children v) s0 v); [eapply core_frame; [exact HI|done..]|done|done|done|].
  change (set_procs (moved_all (children v) (init_proc s0) (procs s0)) s0) with (reparented s v). intros HI1.
  wp_steps. eapply wp_get_proc; [exact Hv1|]. wp_steps.
  assert (is_Some (waitqs (reparented s v) !! ChildWq (parent v1))) as Hwq.
  { apply (wq_child _ _ _ (in_wq _ HI1)). destruct (fa_up _ (in_family _ HI1) p (fam_of v1)) as (fp & Hfp & _); [by rewrite lookup_fmap, Hv1| |].
    - intros E. apply (fa_root _ (in_family _ HI1) p (fam_of v1)) in E; [cbn in E; lia|by rewrite lookup_fmap, Hv1].
    - change (f_parent (fam_of v1)) with (parent v1) in Hfp. rewrite lookup_fmap in Hfp. apply elem_of_dom. destruct (procs (reparented s v) !! parent v1); [eauto|done]. }
  eapply wp_mono; [apply wake_one_rel; [done|by repeat constructor|done]|]. intros r s2 Hw2. cbv beta in Hw2.
  pose proof (core_woke_first _ _ _ HI1 Hw2) as HI2. destruct (woke_first_keeps _ _ _ Hw2) as (Eh & Em & Ec & Esie & Esp & _ & _).
  pose proof (woke_first_running _ _ _ p v1 Hw2 Hv1 ltac:(by rewrite Hr1)) as Hv2.
  wp_steps. apply wp_spin_lock; [rewrite Eh; cbn; apply not_elem_of_cons; split; [done|apply not_elem_of_nil]|]. rewrite Eh. cbn [reparented held set_procs set_held].
  wp_steps. eapply wp_upd_proc; [exact Hv2|]. wp_steps. eapply wp_upd_proc; [by ks; rewrite lookup_insert_eq|]. wp_steps. unfold spin_unlock. wp_steps. ks.
  assert (cpu_proc s2 = p) as Ecp by (rewrite Ec; exact Hcp).
  unfold sched. wp_steps. apply wp_this_proc; [by ks; rewrite Ecp|]. ks. rewrite Ecp. wp_steps. eapply wp_upd_proc; [by ks; rewrite !insert_insert_eq, lookup_insert_eq|]. wp_steps. ks.
  rewrite unlock_skip, unlock_top by (done || apply not_elem_of_nil). rewrite !insert_insert_eq.
  assert (on_cpu s2 = Some p) as Hc2. { unfold on_cpu in *. rewrite Em, Ecp. cbn. rewrite Hcp in Hc. exact Hc. }
  split_and!; [|split|done].
  - exists v1, s2. by split_and!.
  - eapply core_frame; [apply (core_exited s2 HI2 p v1 Hv2 Hc2 status); [lia|done]|done..].
  - split; cbn; [|done|by rewrite Ecp; destruct (Z.eqb_spec p NULL)]. rewrite Esp, Ec. cbn. congruence.
Qed.
End exit.
