(* ===== verification/ProcWait.v ===== *)
(** Reaping: [free_proc] and [proc_wait] against the invariant. *)
From stdpp Require Import gmap sorting.
From S2P Require Import Prelude Layout Hash Proc ProcInv ProcMoves ProcOps ProcLife.

(** * Giving resources back *)
Definition released (rs : list res) (own : list res) : list res := foldl (fun o r => filter (fun x => x <> r) o) own rs.
Lemma elem_of_released rs : forall own r, r ∈ released rs own <-> r ∈ own /\ r ∉ rs.
Proof.
  induction rs as [|x rs IH]; intros own r; cbn [released foldl].
  - split; [|tauto]. intros H. split; [done|apply not_elem_of_nil].
  - change (foldl _ _ rs) with (released rs (filter (fun y => y <> x) own)). rewrite IH, list_elem_of_filter, not_elem_of_cons. tauto.
Qed.
Lemma released_nodup rs : forall own, NoDup own -> NoDup (released rs own).
Proof. induction rs as [|x rs IH]; intros own H; [done|]. cbn. by apply IH, NoDup_filter. Qed.

Lemma wp_release r (Q : unit -> kst -> Prop) s : r ∈ owned s -> Q tt (set_owned (filter (fun x => x <> r) (owned s)) s) -> wp (release r) Q s.
Proof. intros Hr HQ. unfold release. wp_steps. apply wp_require; [by apply bool_decide_eq_true|]. by wp_steps. Qed.

(** The order in which [free_proc] gives back what the process owned. *)
Definition free_order (c : ptr) (m : mem) : list res :=
  (if m_pt m =? NULL then [] else [RVmas (m_pt m); RTable (m_pt m); RPage (m_tf m)]) ++ [RPage (m_kstack m); RObj c].
Lemma free_order_iff c m r : r ∈ free_order c m <-> r ∈ resources c m.
Proof. unfold free_order, resources. destruct (m_pt m =? NULL); rewrite !elem_of_cons, ?elem_of_app, ?elem_of_cons, ?elem_of_nil; tauto. Qed.

Definition freed (c : ptr) (vc : proc) (s : kst) : kst :=
  set_procs (delete c (unlinked c (procs s))) (set_all_procs (without c (all_procs s)) (set_pid_table (without c <$> pid_table s)
    (set_waitqs (delete (ChildWq c) (waitqs s)) (set_owned (released (free_order c (mem_of vc)) (owned s)) s)))).

Section clauses.
Implicit Types S : gmap ptr proc_state.
Lemma run_ok_delete S rq c : S !! c <> Some PROC_RUNNABLE -> run_ok S rq -> run_ok (delete c S) rq.
Proof. intros Hc [Hn Hi]. split; [done|]. intros q. rewrite lookup_delete, Hi. case_decide; naive_solver. Qed.
Lemma cpu_ok_delete S o c : S !! c <> Some PROC_RUNNING -> cpu_ok S o -> cpu_ok (delete c S) o.
Proof. intros Hc Hi q. rewrite lookup_delete, <- (Hi q). case_decide; naive_solver. Qed.
Lemma sleep_ok_delete S ts W c w : S !! c <> Some PROC_SLEEPING -> (forall l q, W !! w = Some l -> q ∈ l -> False) -> sleep_ok S ts W -> sleep_ok (delete c S) ts (delete w W).
Proof.
  intros Hc Hw [H1 H2 H3 H4 H5 H6 H7].
  assert (forall q, S !! q = Some PROC_SLEEPING -> delete c S !! q = Some PROC_SLEEPING) as Hd by (intros q Hq; rewrite lookup_delete; case_decide; naive_solver).
  assert (forall w' l, delete w W !! w' = Some l -> W !! w' = Some l) as Hl by (intros w' l; rewrite lookup_delete; by case_decide).
  split; [done|intros w' l Hw'; by eapply H2, Hl|auto|intros w' l q Hw' Hq; by eapply Hd, H4; [apply Hl|]|intros w1 w2 l1 l2 q Ha Hb; apply Hl in Ha, Hb; by eapply H5|intros w' l q Ha; by apply Hl in Ha; eapply H6|].
  intros q. rewrite lookup_delete. case_decide; [done|]. intros Hq. destruct (H7 q Hq) as [|(w' & l & Hl' & Hin)]; [by left|right].
  exists w', l. split; [|done]. rewrite lookup_delete. case_decide as E; [|done]. subst. by destruct (Hw l q Hl').
Qed.
Lemma sorted_ok_delete T ts c : (c ∉ ts) -> sorted_ok T ts -> sorted_ok (delete c T) ts.
Proof.
  unfold sorted_ok. induction ts as [|y ts IH]; [constructor|]. intros [Hy Hts]%not_elem_of_cons [Hs Hf]%StronglySorted_inv. constructor; [by apply IH|].
  rewrite Forall_forall in *. intros z Hz. unfold deadline. rewrite !lookup_delete_ne; [by apply Hf|by intros ->|by intros ->].
Qed.
Lemma pid_ok_delete N tbl next c : pid_ok N tbl next -> pid_ok (delete c N) (without c <$> tbl) next.
Proof.
  intros [H1 H2 H3 H4 H5].
  assert (forall q n, delete c N !! q = Some n <-> q <> c /\ N !! q = Some n) as Hd by (intros q n; rewrite lookup_delete; case_decide; naive_solver).
  split.
  - intros q n [_ Hq]%Hd. by eapply H1.
  - intros q q' n [_ Hq]%Hd [_ Hq']%Hd. by eapply H2.
  - intros b Hb. rewrite lookup_fmap, fmap_is_Some. by apply H3.
  - intros b l. rewrite lookup_fmap. destruct (tbl !! b) as [l0|] eqn:E; [|done]. intros [= <-]. by eapply without_nodup, H4.
  - intros b l q. rewrite lookup_fmap. destruct (tbl !! b) as [l0|] eqn:E; [|done]. intros [= <-]. rewrite elem_of_without, (H5 b l0 q E). setoid_rewrite Hd. naive_solver.
Qed.
Lemma own_ok_delete R own c m : R !! c = Some m -> own_ok R own -> own_ok (delete c R) (released (free_order c m) own).
Proof.
  intros Hc [H1 H2 H3 Ht H4].
  assert (forall q n, delete c R !! q = Some n <-> q <> c /\ R !! q = Some n) as Hd by (intros q n; rewrite lookup_delete; case_decide; naive_solver).
  split.
  - by apply released_nodup.
  - intros q n [_ Hq]%Hd. by eapply H2.
  - intros r. rewrite elem_of_released, free_order_iff, H3. split.
    + intros [(q & n & Hq & Hr) Hn]. exists q, n. split; [|done]. apply Hd. split; [|done]. intros ->. naive_solver.
    + intros (q & n & [Hqc Hq]%Hd & Hr). split; [by eauto|]. intros Hr'. by destruct (H4 q c n m r).
  - intros q n [_ Hq]%Hd. by eapply Ht.
  - intros q q' n n' r [_ Hq]%Hd [_ Hq']%Hd. by eapply H4.
Qed.
Lemma ctx_ok_delete C SL c : ctx_ok C SL -> ctx_ok (delete c C) SL.
Proof.
  intros [H1 H2 H3]. split; intros q k; rewrite lookup_delete; (case_decide; [done|]); [apply H1|apply H2|apply H3].
Qed.
Lemma wq_ok_delete D W SL c : wq_ok D W SL -> wq_ok (D ∖ {[c]}) (delete (ChildWq c) W) SL.
Proof.
  intros [H1 H2 H3]. split.
  - intros p. rewrite elem_of_difference, elem_of_singleton, H1, lookup_delete. case_decide as E; [|naive_solver]. injection E as ->. split; [tauto|]. by intros [? ?].
  - intros p l q. rewrite lookup_delete. case_decide; [done|]. apply H2.
  - intros sl Hsl. rewrite lookup_delete_ne by done. by apply H3.
Qed.
Lemma boot_ok_delete I init c v : I !! c = Some v -> 1 < i_pid v -> boot_ok I init -> boot_ok (delete c I) init.
Proof.
  intros Hc Hv [H1 H2 H3 H4].
  assert (forall q n, delete c I !! q = Some n <-> q <> c /\ I !! q = Some n) as Hd by (intros q n; rewrite lookup_delete; case_decide; naive_solver).
  split.
  - destruct H1 as (q & i & Hq & H0). exists q, i. split; [|done]. apply Hd. split; [|done]. intros ->. assert (i = v) by congruence. subst. lia.
  - intros q i [_ Hq]%Hd. by apply (H2 q).
  - destruct H3 as (i & Hq & H0). exists i. split; [|done]. apply Hd. split; [|done]. intros ->. assert (i = v) by congruence. subst. lia.
  - intros q i [_ Hq]%Hd. by apply (H4 q).
Qed.
Lemma family_delete P c vc : family_ok (fam_of <$> P) -> P !! c = Some vc -> children vc = [] -> family_ok (fam_of <$> delete c (unlinked c P)).
Proof.
  intros [F1 F2 F3 F4] Hc Hch.
  assert (forall q f, (fam_of <$> delete c (unlinked c P)) !! q = Some f -> exists v, q <> c /\ P !! q = Some v /\ (fam_of <$> P) !! q = Some (fam_of v) /\ f = mk_fam (pid v) (parent v) (without c (children v))) as Hlk.
  { intros q f. rewrite lookup_fmap, lookup_delete. case_decide; [done|]. unfold unlinked. rewrite lookup_fmap. destruct (P !! q) as [v|] eqn:E; [|done]. intros [= <-]. exists v. split_and!; [done|done|by rewrite lookup_fmap, E|done]. }
  assert (forall q v, q <> c -> P !! q = Some v -> (fam_of <$> delete c (unlinked c P)) !! q = Some (mk_fam (pid v) (parent v) (without c (children v)))) as Hin.
  { intros q v Hq Hv. rewrite lookup_fmap, lookup_delete_ne by done. unfold unlinked. by rewrite lookup_fmap, Hv. }
  split.
  - intros q f (v & _ & _ & Hf & ->)%Hlk. cbn. by eapply without_nodup, (F1 q _ Hf).
  - intros q f x (v & Hqc & _ & Hf & ->)%Hlk. cbn. rewrite elem_of_without. intros [Hx Hxc]. destruct (F2 q _ x Hf Hx) as (fx & Hfx & Hp).
    rewrite lookup_fmap in Hfx. destruct (P !! x) as [vx|] eqn:Ex; [|done]. injection Hfx as <-. eexists. split; [by apply Hin|done].
  - intros q f (v & Hqc & Hv & Hf & ->)%Hlk. cbn. intros Hp0. destruct (F3 q _ Hf Hp0) as (fp & Hfp & Hcin). cbn in Hfp. rewrite lookup_fmap in Hfp.
    destruct (P !! parent v) as [vp|] eqn:Ep; [|done]. injection Hfp as <-. cbn in Hcin.
    assert (parent v <> c) as Hpc. { intros E. rewrite E in Ep. assert (vp = vc) as -> by congruence. rewrite Hch in Hcin. by apply elem_of_nil in Hcin. }
    eexists. split; [by apply Hin|]. cbn. by apply elem_of_without.
  - intros q f (v & _ & _ & Hf & ->)%Hlk. apply (F4 q _ Hf).
Qed.
End clauses.

Lemma view_freed {A} (g : proc -> A) (P : gmap ptr proc) c : (forall v l, g (set_children l v) = g v) -> g <$> delete c (unlinked c P) = delete c (g <$> P).
Proof.
  intros Hg. rewrite fmap_delete. f_equal. unfold unlinked. rewrite <- map_fmap_compose. apply map_fmap_ext. intros q v _. apply Hg.
Qed.

Lemma core_freed s c vc : core_inv s -> procs s !! c = Some vc -> pstate vc = PROC_ZOMBIE -> core_inv (freed c vc s).
Proof.
  intros HI Hc Hz. pose proof (st_at s c vc Hc) as Hst. rewrite Hz in Hst.
  destruct (not_asleep s HI c vc Hc ltac:(by rewrite Hz)) as [Hts Hnw]. rewrite on_some_false in Hnw.
  assert (1 < pid vc) as Hpid.
  { destruct (Z.lt_ge_cases 1 (pid vc)) as [|Hle]; [done|]. by destruct (bo_init_on _ _ (in_boot s HI) c (ids_of vc)); [rewrite lookup_fmap, Hc|cbn; lia|]. }
  assert (children vc = []) as Hch by (apply (in_zombie s HI c (zc_of vc)); [by rewrite lookup_fmap, Hc|done]).
  assert (dom (delete c (unlinked c (procs s))) = dom (procs s) ∖ {[c]}) as Hdom by (unfold unlinked; by rewrite dom_delete_L, dom_fmap_L).
  destruct HI. unfold freed. split; ks; rewrite ?Hdom, ?view_freed by done; try done.
  - by apply without_nodup.
  - intros p. rewrite elem_of_without, elem_of_difference, elem_of_singleton, in_all. done.
  - rewrite lookup_delete. case_decide; [done|]. unfold unlinked. by rewrite lookup_fmap, in_null.
  - apply run_ok_delete; [congruence|done].
  - apply cpu_ok_delete; [congruence|done].
  - apply sleep_ok_delete; [congruence| |done]. intros l q Hl Hq. assert (q = c) as -> by by eapply in_wq. by eapply Hnw.
  - by apply sorted_ok_delete.
  - by eapply family_delete.
  - by apply pid_ok_delete.
  - apply own_ok_delete; [by rewrite lookup_fmap, Hc|done].
  - by apply ctx_ok_delete.
  - by apply wq_ok_delete.
  - eapply boot_ok_delete; [by rewrite lookup_fmap, Hc|done|done].
  - intros q z. rewrite lookup_fmap, lookup_delete. case_decide; [done|]. unfold unlinked. rewrite lookup_fmap. destruct (procs s !! q) as [v|] eqn:E; [|done]. intros [= <-]. cbn.
    intros Hzv. specialize (in_zombie q (zc_of v)). rewrite lookup_fmap, E in in_zombie. assert (children v = []) as -> by by apply in_zombie. done.
  - intros q n r. rewrite lookup_delete. case_decide; [done|]. apply in_idle.
Qed.

(** * free_proc *)
Lemma in_pid_table s c vc : core_inv s -> procs s !! c = Some vc -> on_some c (pid_table s) = true.
Proof.
  intros HI Hc. pose proof (in_pid s HI) as HP. destruct (pk_buckets _ _ _ HP (pid_bucket (pid vc))) as [l Hl]; [by apply hash_index_range|].
  apply on_some_spec. exists (pid_bucket (pid vc)), l. split; [done|]. apply (pk_table _ _ _ HP _ _ c Hl). exists (pid vc). by rewrite lookup_fmap, Hc.
Qed.

Lemma owned_res s c vc r : core_inv s -> procs s !! c = Some vc -> r ∈ resources c (mem_of vc) -> r ∈ owned s.
Proof. intros HI Hc Hr. apply (ow_iff _ _ (in_own s HI)). exists c, (mem_of vc). by rewrite lookup_fmap, Hc. Qed.

Lemma resources_nodup s c vc : core_inv s -> procs s !! c = Some vc -> NoDup (resources c (mem_of vc)).
Proof. intros HI Hc. apply (ow_res_nodup _ _ (in_own s HI)). by rewrite lookup_fmap, Hc. Qed.

Lemma free_proc_spec s c vc (Q : unit -> kst -> Prop) : core_inv s -> procs s !! c = Some vc -> on_some c (children_of s) = true ->
  Q tt (freed c vc s) -> wp (free_proc c) Q s.
Proof.
  intros HI Hc Hsib HQ. pose proof (resources_nodup s c vc HI Hc) as Hnd. assert (forall r, r ∈ resources c (mem_of vc) -> r ∈ owned s) as Hown by (intros; by eapply owned_res).
  unfold free_proc. wp_steps. eapply wp_get_proc; [done|]. wp_steps. apply wp_del_sibling; [done|].
  unfold del_all_list. wp_steps. ks. apply wp_require; [apply bool_decide_eq_true, (in_all s HI), elem_of_dom; eauto|]. wp_steps.
  unfold del_pid_link. wp_steps. ks. apply wp_require; [by eapply in_pid_table|]. wp_steps.
  unfold freed, free_order, resources, mem_of in *. cbn [m_pt m_tf m_kstack] in *. destruct (pagetable vc =? NULL); cbn [negb app released foldl] in *.
  - wp_steps. rewrite !NoDup_cons, !not_elem_of_cons in Hnd. apply wp_release; [apply Hown; rewrite !elem_of_cons; tauto|]. wp_steps. unfold kmfree_proc. wp_steps.
    apply wp_release; [ks; apply list_elem_of_filter; split; [done|apply Hown; rewrite !elem_of_cons; tauto]|]. wp_steps. exact HQ.
  - rewrite !NoDup_cons, !not_elem_of_cons in Hnd. destruct Hnd as ((? & ? & ? & ? & _) & (? & ? & ? & _) & (? & ? & _) & (? & _) & _).
    wp_steps. apply wp_release; [apply Hown; rewrite !elem_of_cons; tauto|]. wp_steps.
    apply wp_release; [ks; rewrite !list_elem_of_filter; split_and?; [done|apply Hown; rewrite !elem_of_cons; tauto]|]. wp_steps.
    apply wp_release; [ks; rewrite !list_elem_of_filter; split_and?; [done..|apply Hown; rewrite !elem_of_cons; tauto]|]. wp_steps.
    apply wp_release; [ks; rewrite !list_elem_of_filter; split_and?; [congruence..|apply Hown; rewrite !elem_of_cons; tauto]|]. unfold kmfree_proc. wp_steps.
    apply wp_release; [ks; rewrite !list_elem_of_filter; split_and?; [done..|apply Hown; rewrite !elem_of_cons; tauto]|]. wp_steps. exact HQ.
Qed.

(** * The scan of the children *)
Definition is_zombie (s : kst) (c : ptr) : Prop := exists v, procs s !! c = Some v /\ pstate v = PROC_ZOMBIE.

Lemma find_zombie_spec s h : held s = h -> inner_free h -> forall l (Q : option Z -> kst -> Prop), (forall c, c ∈ l -> is_Some (procs s !! c)) ->
  (forall l1 c l2, l = l1 ++ c :: l2 -> (forall d, d ∈ l1 -> ~ is_zombie s d) -> is_zombie s c -> Q (Some c) (set_held (ProcLock c :: h) s)) ->
  ((forall d, d ∈ l -> ~ is_zombie s d) -> Q None s) -> wp (find_zombie l) Q s.
Proof.
  intros Hh [_ Hf]. induction l as [|c l IH]; intros Q Hl HS HN; cbn [find_zombie]; [wp_steps; apply HN; by intros d []%elem_of_nil|].
  destruct (Hl c ltac:(by left)) as [v Hv]. wp_steps. apply wp_spin_lock; [rewrite Hh; apply Hf|]. rewrite Hh. wp_steps. eapply wp_get_proc; [done|]. case_bool_decide as Hz.
  - wp_steps. apply (HS [] c l); [done|by intros d []%elem_of_nil|by exists v].
  - assert (~ is_zombie s c) as Hnz by (intros (u & Hu & Hzu); congruence). wp_steps. eapply wp_spin_unlock; [done|apply Hf|].
    replace (set_held h (set_held (ProcLock c :: h) s)) with s by (rewrite <- Hh; by destruct s). apply IH.
    + intros d Hd. apply Hl. by right.
    + intros l1 d l2 -> Hl1 Hd. apply (HS (c :: l1) d l2); [done| |done]. intros x [->|Hx]%elem_of_cons; [done|by apply Hl1].
    + intros Hn. apply HN. intros d [->|Hd]%elem_of_cons; [done|by apply Hn].
Qed.

(** * proc_wait

    What an iteration does, from a state that holds [wait_lock]. *)
Inductive wait_outcome (irq : bool) (p : ptr) (v : proc) (s : kst) : option (Z * Z) -> kst -> Prop :=
| wait_no_child : children v = [] -> wait_outcome irq p v s (Some (-1, 0)) (set_held [] (set_sie (sie s || irq) s))
| wait_reaped l1 c l2 vc : children v = l1 ++ c :: l2 -> (forall d, d ∈ l1 -> ~ is_zombie s d) -> procs s !! c = Some vc -> pstate vc = PROC_ZOMBIE ->
    wait_outcome irq p v s (Some (pid vc, exit_status vc)) (set_held [] (set_sie (sie s || irq) (freed c vc s)))
| wait_killed s' : children v <> [] -> (forall d, d ∈ children v -> ~ is_zombie s d) -> killed v = true ->
    exit_post (-1) (set_held [] (set_sie (sie s || irq) s)) p v s' -> wait_outcome irq p v s None s'
| wait_sleeps l : children v <> [] -> (forall d, d ∈ children v -> ~ is_zombie s d) -> killed v = false -> waitqs s !! ChildWq p = Some l ->
    wait_outcome irq p v s None (set_held [ProcLock p] (parked s p v (ChildWq p) l WaitLock (InProcWait irq))).

(** A running state in which all locks are free again. *)
Lemma hart_running s : mode s = Running -> held s = [] -> sched_p s = cpu_proc s -> cpu_proc s <> NULL -> hart_ok s.
Proof. intros Hm Hh Hs Hc. split; [done|done|]. by rewrite Hm, Hh. Qed.
Lemma hart_switched s p : mode s = Switched -> held s = [ProcLock p] -> sched_p s = p -> cpu_proc s = p -> p <> NULL -> hart_ok s.
Proof. intros Hm Hh Hs Hc Hp. split; [congruence|by rewrite Hc|]. rewrite Hm, Hh, Hc. by destruct (Z.eqb_spec p NULL). Qed.
Lemma on_cpu_running s : mode s = Running -> on_cpu s = Some (cpu_proc s).
Proof. unfold on_cpu. by intros ->. Qed.

Section wait.
Context (irq : bool) (s : kst) (p : ptr) (v : proc) (HI : core_inv s) (Hh : held s = [WaitLock]) (Hm : mode s = Running) (Hcp : cpu_proc s = p) (Hsp : sched_p s = p) (Hp : procs s !! p = Some v).

(** An iteration ends in a legal outcome, unless idle or init has been killed. *)
Lemma wait_iter_spec : pid v <> 0 -> (killed v = true -> 1 < pid v) -> wp (proc_wait_iter irq) (fun r s' => wait_outcome irq p v s r s' /\ proc_inv s') s.
Proof using HI Hh Hm Hcp Hsp Hp.
  intros Hidle Hkill. pose proof (not_null s HI p v Hp) as Hnn. pose proof (on_cpu_running s Hm) as Hc. rewrite Hcp in Hc.
  assert (inner_free [WaitLock]) as Hif by (split; [|intros q]; apply not_elem_of_cons; (split; [done|apply not_elem_of_nil])).
  unfold proc_wait_iter. wp_steps. apply wp_this_proc; [by rewrite Hcp|]. rewrite Hcp. wp_steps. eapply wp_get_proc; [done|].
  destruct (children v) as [|c0 cs] eqn:Hch.
  { wp_steps. eapply wp_irqrestore; [done|apply not_elem_of_nil|]. wp_steps. split; [by constructor|]. split; [eapply core_frame; [exact HI|done..]|]. apply hart_running; cbn; congruence. }
  wp_steps. rewrite <- Hch. apply (find_zombie_spec s [WaitLock] Hh Hif).
  - intros d Hd. destruct (child_facts s p v d HI Hp Hd) as (vd & Hvd & _). eauto.
  - intros l1 c l2 Hl Hl1 (vc & Hvc & Hz). wp_steps. eapply wp_get_proc; [done|]. wp_steps. eapply wp_spin_unlock; [done|apply Hif|].
    destruct (child_facts s p v c HI Hp ltac:(rewrite Hl; apply elem_of_app; right; by left)) as (vc' & Hvc' & _ & _ & Hon).
    replace (set_held [WaitLock] (set_held [ProcLock c; WaitLock] s)) with s by (rewrite <- Hh; by destruct s).
    wp_steps. apply (free_proc_spec s c vc); [done..|]. pose proof (core_freed s c vc HI Hvc Hz) as HF. wp_steps. eapply wp_irqrestore; [exact Hh|apply not_elem_of_nil|]. wp_steps. split.
    + exact (wait_reaped irq p v s l1 c l2 vc Hl Hl1 Hvc Hz).
    + split; [eapply core_frame; [exact HF|done..]|]. apply hart_running; cbn; congruence.
  - intros Hnz. destruct (killed v) eqn:Ek.
    + wp_steps. eapply wp_irqrestore; [done|apply not_elem_of_nil|]. wp_steps. set (s0 := set_held [] (set_sie (sie s || irq) s)).
      eapply wp_mono; [apply (proc_exit_spec s0 p v); try done; [eapply core_frame; [exact HI|done..]|by apply Hkill]|]. intros [] s' (He & Hi & _). wp_steps. split; [|done].
      eapply wait_killed; [by rewrite Hch|done..].
    + wp_steps. destruct (proj1 (wq_child _ _ _ (in_wq s HI) p)) as [l Hl]; [apply elem_of_dom; eauto|].
      eapply (wq_sleep_spec s p v); try done; [by repeat constructor|]. wp_steps. split; [eapply wait_sleeps; try done; by rewrite Hch|]. split.
      * eapply core_frame; [by eapply (core_parked s HI p v Hp Hc (ChildWq p) l WaitLock (InProcWait irq))|done..].
      * apply (hart_switched _ p); cbn; congruence.
Qed.
End wait.
