(* ===== verification/ProcFork.v ===== *)
(** Process creation and [proc_fork] against the invariant. *)
From stdpp Require Import gmap sorting.
From S2P Require Import Prelude Layout Hash Proc ProcInv ProcMoves ProcOps ProcLife ProcWait.

(** * proc_create *)

(** The new structure is at an address nothing refers to. *)
Record unused (s : kst) (c : ptr) : Prop := {
  un_null : c <> NULL;
  un_proc : procs s !! c = None;
  un_child : forall q v, procs s !! q = Some v -> c ∉ children v;
  un_wq : waitqs s !! ChildWq c = None;
  un_res : RObj c ∉ owned s
}.

Definition linked (c init : ptr) (P : gmap ptr proc) : gmap ptr proc :=
  match P !! init with Some vi => <[init := set_children (children vi ++ [c]) vi]> P | None => P end.
Definition new_proc (s : kst) (fn : entry) (nm : string) (ks : Z) : proc :=
  mk_proc (next_pid s) (String.substring 0 (PROC_NAME_LEN - 1) nm) PROC_RUNNABLE (init_proc s) [] (AtStart fn) ks NULL NULL false 0 0.
Definition created (s : kst) (fn : entry) (nm : string) (c ks : Z) : kst :=
  set_procs (<[c := new_proc s fn nm ks]> (linked c (init_proc s) (procs s))) (set_waitqs (<[ChildWq c := []]> (waitqs s))
    (set_owned (RPage ks :: RObj c :: owned s) (set_next_pid (next_pid s + 1) s))).

Lemma wp_alloc_pid s (Q : Z -> kst -> Prop) : (PidLock ∉ held s) -> next_pid s < INT_MAX -> Q (next_pid s) (set_next_pid (next_pid s + 1) s) -> wp alloc_pid Q s.
Proof.
  intros Hl Hn HQ. unfold alloc_pid. wp_steps. apply wp_spin_lock; [done|]. wp_steps. ks. apply wp_require; [by apply Z.ltb_lt|]. wp_steps.
  eapply wp_spin_unlock; [done|done|]. wp_steps. by destruct s.
Qed.
Lemma wp_acquire mk r (Q : Z -> kst -> Prop) s : (r <> NULL -> mk r ∉ owned s) -> (r = NULL -> Q NULL s) -> (r <> NULL -> Q r (set_owned (mk r :: owned s) s)) -> wp (acquire mk r) Q s.
Proof.
  intros Hf H0 H1. unfold acquire. destruct (Z.eqb_spec r NULL); [wp_steps; by apply H0|]. wp_steps. apply wp_require; [apply bool_decide_eq_true; by apply Hf|]. wp_steps. by apply H1.
Qed.

Lemma release_top r own : (r ∉ own) -> filter (fun x : res => x <> r) (r :: own) = own.
Proof.
  intros Hr. rewrite filter_cons, decide_False by naive_solver. induction own as [|k own IH]; [done|].
  apply not_elem_of_cons in Hr as [? ?]. rewrite filter_cons, decide_True by done. by rewrite IH.
Qed.

Lemma proc_create_spec s fn nm c ks (Q : Z -> kst -> Prop) : (PidLock ∉ held s) -> next_pid s < INT_MAX ->
  (c <> NULL -> unused s c) -> (ks <> NULL -> RPage ks ∉ owned s) -> procs s !! NULL = None -> (init_proc s = NULL \/ is_Some (procs s !! init_proc s)) ->
  (c = NULL -> Q NULL s) -> (c <> NULL -> ks = NULL -> Q NULL (set_next_pid (next_pid s + 1) s)) -> (c <> NULL -> ks <> NULL -> Q c (created s fn nm c ks)) ->
  wp (proc_create fn nm c ks) Q s.
Proof.
  intros Hl Hn Hc Hks Hnull Hinit H0 H1 H2. unfold proc_create. wp_steps. apply wp_acquire; [intros E; by apply Hc| |].
  { intros ->. cbn. wp_steps. by apply H0. }
  intros Hcn. destruct (Hc Hcn) as [_ Hp Hch Hwq Hro]. destruct (Z.eqb_spec c NULL) as [|_]; [done|]. wp_steps. apply wp_alloc_pid; [done..|]. wp_steps.
  apply wp_acquire; [intros E; ks; apply not_elem_of_cons; split; [done|by apply Hks]| |].
  { intros ->. cbn [Z.eqb NULL]. wp_steps. apply wp_release; [ks; by left|]. wp_steps. ks. rewrite release_top by done.
    specialize (H1 Hcn eq_refl). by destruct s. }
  intros Hksn. destruct (Z.eqb_spec ks NULL) as [|_]; [done|]. wp_steps. unfold wq_init. wp_steps. ks. specialize (H2 Hcn Hksn). unfold created, linked, new_proc in H2.
  destruct Hinit as [Hi|[vi Hi]].
  - rewrite Hi in *. cbn [Z.eqb NULL negb]. wp_steps. rewrite Hnull in H2. exact H2.
  - destruct (Z.eqb_spec (init_proc s) NULL) as [E|Hin]; [rewrite E in Hi; congruence|]. cbn [negb]. wp_steps. eapply wp_upd_proc; [by ks; rewrite lookup_insert_eq|]. ks.
    assert (c <> init_proc s) as Hci by (intros ->; congruence).
    eapply wp_add_sibling; [|by ks; rewrite insert_insert_eq, lookup_insert_ne|].
    { apply children_off. ks. intros q v. rewrite insert_insert_eq, lookup_insert. case_decide; [intros [= <-]; apply not_elem_of_nil|]. by apply Hch. }
    wp_steps. ks. rewrite Hi in H2. rewrite insert_insert_eq, insert_insert_ne by done. exact H2.
Qed.

(** * Undoing a creation *)
Lemma unlinked_fresh c P : (forall q v, P !! q = Some v -> c ∉ children v) -> unlinked c P = P.
Proof.
  intros Hc. apply map_eq. intros q. unfold unlinked. rewrite lookup_fmap. destruct (P !! q) as [v|] eqn:E; [|done]. cbn. rewrite without_id by by eapply Hc. by destruct v.
Qed.
Lemma unlinked_linked c init P : (forall q v, P !! q = Some v -> c ∉ children v) -> unlinked c (linked c init P) = P.
Proof.
  intros Hc. unfold linked. destruct (P !! init) as [vi|] eqn:Ei; [|by apply unlinked_fresh].
  assert (forall a, unlinked c (<[init := a]> P) = <[init := set_children (without c (children a)) a]> (unlinked c P)) as -> by (intros; unfold unlinked; by rewrite fmap_insert).
  rewrite unlinked_fresh by done. cbn [children set_children]. rewrite without_app, without_cons_eq, (without_id c (children vi)), app_nil_r by by eapply Hc. apply insert_id. rewrite Ei. by destruct vi.
Qed.
Lemma unlinked_insert c a v P : unlinked c (<[a := v]> P) = <[a := set_children (without c (children v)) v]> (unlinked c P).
Proof. unfold unlinked. by rewrite fmap_insert. Qed.
(** The linked child is on a list of children. *)
Lemma linked_on P c v init vi : P !! init = Some vi -> c <> init -> on_some c (children <$> <[c := v]> (linked c init P)) = true.
Proof.
  intros Hi Hci. apply on_some_spec. exists init, (children vi ++ [c]). rewrite lookup_fmap, lookup_insert_ne by done. unfold linked. rewrite Hi, lookup_insert_eq.
  split; [done|]. apply elem_of_app. right. by left.
Qed.

(** * proc_create_user *)

(** What the allocators promise of their results. *)
Record env_fresh (s : kst) (e : fork_env) : Prop := {
  ef_obj : r_obj e <> NULL -> RObj (r_obj e) ∉ owned s;
  ef_kstack : r_kstack e <> NULL -> RPage (r_kstack e) ∉ owned s;
  ef_tf : r_tf e <> NULL -> (RPage (r_tf e) ∉ owned s) /\ r_tf e <> r_kstack e;
  ef_pt : r_pt e <> NULL -> (RTable (r_pt e) ∉ owned s) /\ RVmas (r_pt e) ∉ owned s
}.

Lemma unused_of s c : core_inv s -> c <> NULL -> (RObj c ∉ owned s) -> unused s c.
Proof.
  intros HI Hc Hr. assert (procs s !! c = None) as Hp.
  { destruct (procs s !! c) as [v|] eqn:E; [|done]. destruct Hr. eapply owned_res; [done|done|by left]. }
  split; [done|done| | |done].
  - intros q v Hv Hin. destruct (child_facts s q v c HI Hv Hin) as (vc & Hvc & _). congruence.
  - destruct (waitqs s !! ChildWq c) eqn:E; [|done]. assert (c ∈ dom (procs s)) as Hd by (apply (wq_child _ _ _ (in_wq s HI)); eauto). apply elem_of_dom in Hd as [? ?]. congruence.
Qed.

(** A failed creation: a PID may have been used up and the trapframe page written. *)
Definition undone (tf : Z) (s s' : kst) : Prop :=
  exists n m, (n = next_pid s \/ n = next_pid s + 1) /\ (forall q, q <> tf -> m q = tf_mem s q) /\ s' = set_tf_mem m (set_next_pid n s).

Definition user_proc (s : kst) (e : fork_env) : proc := set_pagetable (r_pt e) (set_trapframe (r_tf e) (new_proc s user_proc_start "" (r_kstack e))).
Definition user_created (s : kst) (e : fork_env) : kst :=
  let c := r_obj e in
  set_procs (<[c := user_proc s e]> (linked c (init_proc s) (procs s))) (set_waitqs (<[ChildWq c := []]> (waitqs s))
    (set_owned (RTable (r_pt e) :: RPage (r_tf e) :: RPage (r_kstack e) :: RObj c :: owned s) (set_next_pid (next_pid s + 1)
      (set_tf_mem (upd (tf_mem s) (r_tf e) (fun _ => 0)) s)))).

Lemma undone_same tf s : undone tf s s.
Proof. exists (next_pid s), (tf_mem s). split_and!; [by left|done|]. by destruct s. Qed.
Lemma undone_pid tf s : undone tf s (set_next_pid (next_pid s + 1) s).
Proof. exists (next_pid s + 1), (tf_mem s). split_and!; [by right|done|]. by destruct s. Qed.

(** Tearing down a half-built child gives the old state back, but for the PID. *)
Lemma teardown s c v tf m s' : unused s c -> (forall q, q <> tf -> m q = tf_mem s q) ->
  s' = set_procs (delete c (unlinked c (<[c := v]> (linked c (init_proc s) (procs s))))) (set_waitqs (delete (ChildWq c) (<[ChildWq c := []]> (waitqs s)))
    (set_owned (owned s) (set_tf_mem m (set_next_pid (next_pid s + 1) s)))) -> undone tf s s'.
Proof.
  intros [_ Hp Hch Hw _] Hm ->. exists (next_pid s + 1), m. split_and!; [by right|done|]. rewrite unlinked_insert, unlinked_linked by done. rewrite !delete_insert_id by done. by destruct s.
Qed.

(** All allocations of the creation succeed. *)
Definition user_ok (e : fork_env) : Prop := r_obj e <> NULL /\ r_kstack e <> NULL /\ r_tf e <> NULL /\ r_pt e <> NULL.
Definition fork_ok (e : fork_env) : Prop := user_ok e /\ r_dup e = true.

Section user.
Context (s : kst) (e : fork_env) (HI : core_inv s) (Hl : PidLock ∉ held s) (Hn : next_pid s < INT_MAX) (He : env_fresh s e).

Lemma create_user_spec (Q : Z -> kst -> Prop) : (~ user_ok e -> forall s', undone (r_tf e) s s' -> Q NULL s') ->
  (r_obj e <> NULL -> r_kstack e <> NULL -> r_tf e <> NULL -> r_pt e <> NULL -> Q (r_obj e) (user_created s e)) ->
  wp (proc_create_user (r_obj e) (r_kstack e) (r_tf e) (r_pt e)) Q s.
Proof using HI Hl Hn He.
  intros HF HS. unfold user_ok in HF. destruct (init_at s HI) as (vi & Hi & _ & _ & Hin). destruct He as [E1 E2 E3 E4]. set (c := r_obj e) in *. set (ks := r_kstack e) in *. set (tf := r_tf e) in *. set (pt := r_pt e) in *.
  unfold proc_create_user. wp_steps. apply proc_create_spec; try done; [intros Hc; apply unused_of; auto|by apply in_null|eauto|..].
  - intros E. cbn. wp_steps. apply HF, undone_same. tauto.
  - intros _ E. cbn. wp_steps. apply HF, undone_pid. tauto.
  - intros Hc Hks. destruct (Z.eqb_spec c NULL) as [|_]; [done|]. pose proof (unused_of s c HI Hc (E1 Hc)) as Hu.
    assert (c <> init_proc s) as Hci by (intros E; pose proof (un_proc _ _ Hu); congruence). pose proof (un_res _ _ Hu) as Hro.
    assert (forall v (s' : kst), procs s' = <[c := v]> (linked c (init_proc s) (procs s)) -> on_some c (children_of s') = true) as Hon.
    { intros v s' Hs'. unfold children_of. rewrite Hs'. by eapply linked_on. }
    wp_steps. apply wp_acquire; [intros Htf; destruct (E3 Htf) as [? ?]; cbn; rewrite !not_elem_of_cons; split_and!; congruence| |].
    + intros Htf. wp_steps. eapply wp_get_proc; [cbn; by rewrite lookup_insert_eq|]. cbn [Z.eqb NULL]. wp_steps.
      apply wp_del_sibling; [by eapply Hon|]. wp_steps. apply wp_release; [by left|]. unfold kmfree_proc. wp_steps. cbn [created owned set_procs set_waitqs set_owned set_next_pid kstack new_proc].
      rewrite release_top by (apply not_elem_of_cons; split; [done|by apply E2]).
      apply wp_release; [by left|]. wp_steps. cbn [owned set_owned]. rewrite release_top by done. apply HF; [tauto|].
      eapply (teardown s c (new_proc s user_proc_start "" ks) tf (tf_mem s)); [done|done|]. by destruct s.
    + intros Htf. destruct (E3 Htf) as [Htf1 Htf2]. wp_steps. eapply wp_get_proc; [cbn; by rewrite lookup_insert_eq|]. destruct (Z.eqb_spec tf NULL) as [|_]; [done|].
      wp_steps. eapply wp_upd_proc; [cbn; by rewrite lookup_insert_eq|]. wp_steps.
      apply wp_acquire; [intros Hpt; destruct (E4 Hpt) as [? ?]; cbn; rewrite !not_elem_of_cons; split_and!; congruence| |].
      * intros Hpt. wp_steps. eapply wp_upd_proc; [cbn; by rewrite lookup_insert_eq|]. cbn [Z.eqb NULL]. wp_steps.
        apply wp_del_sibling; [eapply Hon; cbn; by rewrite !insert_insert_eq|]. wp_steps. apply wp_release; [by left|]. wp_steps.
        cbn [created owned set_procs set_waitqs set_owned set_next_pid set_tf_mem kstack new_proc]. rewrite release_top by (rewrite !not_elem_of_cons; split_and!; congruence).
        apply wp_release; [by left|]. unfold kmfree_proc. wp_steps. cbn [owned set_owned]. rewrite release_top by (apply not_elem_of_cons; split; [done|by apply E2]).
        apply wp_release; [by left|]. wp_steps. cbn [owned set_owned]. rewrite release_top by done. apply HF; [tauto|].
        eapply (teardown s c (set_pagetable NULL (set_trapframe tf (new_proc s user_proc_start "" ks))) tf (upd (tf_mem s) tf (fun _ => 0))); [done|intros q Hq; by rewrite upd_ne by congruence|].
        cbn [procs set_procs set_owned set_tf_mem created]. rewrite !insert_insert_eq. by destruct s.
      * intros Hpt. wp_steps. eapply wp_upd_proc; [cbn; by rewrite lookup_insert_eq|]. destruct (Z.eqb_spec pt NULL) as [|_]; [done|]. wp_steps.
        specialize (HS Hc Hks Htf Hpt). unfold user_created, user_proc in HS. fold c ks tf pt in HS. cbn [procs set_procs set_owned set_tf_mem created]. rewrite !insert_insert_eq. exact HS.
Qed.
End user.

(** * proc_fork: the state after a successful fork *)
Definition child_proc (s : kst) (e : fork_env) (p : ptr) (pv : proc) : proc := set_parent p (set_name (name pv) (user_proc s e)).
Definition forked (s : kst) (e : fork_env) (p : ptr) (pv : proc) : kst :=
  let c := r_obj e in
  let b := pid_bucket (next_pid s) in
  set_procs (<[c := child_proc s e p pv]> (<[p := set_children (children pv ++ [c]) pv]> (procs s)))
  (set_all_procs (all_procs s ++ [c]) (set_run_queue (run_queue s ++ [c]) (set_pid_table (<[b := c :: default [] (pid_table s !! b)]> (pid_table s))
  (set_waitqs (<[ChildWq c := []]> (waitqs s)) (set_next_pid (next_pid s + 1)
  (set_owned (RVmas (r_pt e) :: RTable (r_pt e) :: RPage (r_tf e) :: RPage (r_kstack e) :: RObj c :: owned s)
  (set_tf_mem (upd (upd (tf_mem s) (r_tf e) (fun _ => 0)) (r_tf e)
     (child_frame (tf_mem s (trapframe pv)) (u64 (r_kstack e + PG_SIZE)) (satp e) (user_trap e))) s))))))).

Section clauses.
Implicit Types S : gmap ptr proc_state.
Lemma run_ok_new S rq c : S !! c = None -> run_ok S rq -> run_ok (<[c := PROC_RUNNABLE]> S) (rq ++ [c]).
Proof.
  intros Hc [Hn Hi]. split.
  - apply NoDup_app. split_and!; [done| |apply NoDup_singleton]. intros y Hy ->%list_elem_of_singleton. apply Hi in Hy. congruence.
  - intros q. rewrite elem_of_app, list_elem_of_singleton, lookup_insert, Hi. case_decide; naive_solver.
Qed.
Lemma cpu_ok_new S o c st : st <> PROC_RUNNING -> S !! c = None -> cpu_ok S o -> cpu_ok (<[c := st]> S) o.
Proof. intros Hs Hc Ho q. pose proof (Ho q). rewrite lookup_insert. case_decide; naive_solver. Qed.
Lemma sleep_ok_new S ts W c w : S !! c = None -> W !! w = None -> sleep_ok S ts W -> sleep_ok (<[c := PROC_RUNNABLE]> S) ts (<[w := []]> W).
Proof.
  intros Hc Hw [H1 H2 H3 H4 H5 H6 H7].
  assert (forall w' l q, <[w := []]> W !! w' = Some l -> q ∈ l -> W !! w' = Some l) as Hl.
  { intros w' l q. rewrite lookup_insert. case_decide; [|done]. intros [= <-] []%elem_of_nil. }
  assert (forall q, S !! q = Some PROC_SLEEPING -> <[c := PROC_RUNNABLE]> S !! q = Some PROC_SLEEPING) as Hs by (intros q Hq; rewrite lookup_insert_ne; [done|congruence]).
  split; [done|..].
  - intros w' l. rewrite lookup_insert. case_decide; [intros [= <-]; constructor|apply H2].
  - auto.
  - intros w' l q Hwl Hq. by eapply Hs, H4; [eapply Hl|].
  - intros w1 w2 l1 l2 q Ha Hb Hq1 Hq2. eapply H5; [eapply Hl|eapply Hl|..]; done.
  - intros w' l q Ha Hq. by eapply H6; [eapply Hl|].
  - intros q. rewrite lookup_insert. case_decide; [done|]. intros Hq. destruct (H7 q Hq) as [|(w' & l & Hl' & Hin)]; [by left|right].
    exists w', l. split; [|done]. rewrite lookup_insert. case_decide; [|done]. congruence.
Qed.
Lemma pid_ok_new N tbl next c l : N !! c = None -> tbl !! pid_bucket next = Some l -> 0 <= next -> pid_ok N tbl next ->
  pid_ok (<[c := next]> N) (<[pid_bucket next := c :: l]> tbl) (next + 1).
Proof.
  intros Hc Hl Hn0 [H1 H2 H3 H4 H5]. split.
  - intros q n. rewrite lookup_insert. case_decide; [intros [= <-]; lia|]. intros Hq. specialize (H1 q n Hq). lia.
  - intros q q' n. rewrite !lookup_insert. case_decide; case_decide; subst; try congruence; [intros [= <-] Hq|intros Hq [= <-]|apply H2]; apply H1 in Hq; lia.
  - intros b Hb. rewrite lookup_insert. case_decide; eauto.
  - intros b k. rewrite lookup_insert. case_decide; [|by apply H4]. intros [= <-]. apply NoDup_cons. split; [|by eapply H4]. rewrite (H5 _ l c Hl). intros (n & Hn & _). congruence.
  - intros b k q. rewrite lookup_insert. case_decide as Eb; [intros [= <-]|intros Hk]; rewrite ?elem_of_cons.
    + rewrite (H5 _ l q Hl), lookup_insert. case_decide as Eq; [subst; naive_solver|]. subst b. naive_solver.
    + rewrite (H5 _ k q Hk), lookup_insert. case_decide as Eq; [|done]. subst q. split; [intros (n & Hn & _); congruence|]. intros (n & [= <-] & Hb). congruence.
Qed.
Lemma own_ok_new R own c m : R !! c = None -> own_ok R own -> (forall r, r ∈ resources c m -> r ∉ own) -> NoDup (resources c m) -> (m_pt m <> NULL -> m_tf m <> NULL) ->
  forall own', own' ≡ₚ resources c m ++ own -> own_ok (<[c := m]> R) own'.
Proof.
  intros Hc [H1 H2 H3 Ht H4] Hf Hnd Htf own' Hp. split.
  - rewrite Hp. apply NoDup_app. by split_and!.
  - intros q n. rewrite lookup_insert. case_decide; [intros [= <-]; by subst|apply H2].
  - intros r. rewrite Hp, elem_of_app, H3. split.
    + intros [Hr|(q & n & Hq & Hr)]; [exists c, m; by rewrite lookup_insert_eq|]. exists q, n. rewrite lookup_insert_ne; [done|]. congruence.
    + intros (q & n & Hq & Hr). rewrite lookup_insert in Hq. case_decide; [left; naive_solver|right; eauto].
  - intros q n. rewrite lookup_insert. case_decide; [by intros [= <-]|apply Ht].
  - intros q q' n n' r. rewrite !lookup_insert. case_decide; case_decide; subst; try done.
    + intros [= <-] Hq' Hr Hr'. exfalso. apply (Hf r Hr), H3. eauto.
    + intros Hq [= <-] Hr Hr'. exfalso. apply (Hf r Hr'), H3. eauto.
    + apply H4.
Qed.
Lemma wq_ok_new D W SL c : (c ∉ D) -> wq_ok D W SL -> wq_ok ({[c]} ∪ D) (<[ChildWq c := []]> W) SL.
Proof.
  intros Hc [H1 H2 H3]. split.
  - intros q. rewrite elem_of_union, elem_of_singleton, lookup_insert. case_decide as E; [injection E as ->; naive_solver|]. rewrite <- H1. naive_solver.
  - intros q l x. rewrite lookup_insert. case_decide; [intros [= <-] []%elem_of_nil|apply H2].
  - intros sl Hsl. rewrite lookup_insert_ne by done. by apply H3.
Qed.
Lemma boot_ok_new I init c i : I !! c = None -> 1 < i_pid i -> boot_ok I init -> boot_ok (<[c := i]> I) init.
Proof.
  intros Hc Hi [H1 H2 H3 H4]. split.
  - destruct H1 as (q & j & Hq & H0). exists q, j. rewrite lookup_insert_ne; [done|congruence].
  - intros q j. rewrite lookup_insert. case_decide; [intros [= <-]; lia|apply H2].
  - destruct H3 as (j & Hq & H0). exists j. rewrite lookup_insert_ne; [done|congruence].
  - intros q j. rewrite lookup_insert. case_decide; [intros [= <-]; lia|apply H4].
Qed.
Lemma family_new P c p pv f : family_ok (fam_of <$> P) -> P !! c = None -> P !! p = Some pv -> p <> NULL -> (forall q v, P !! q = Some v -> parent v <> c) -> (forall q v, P !! q = Some v -> c ∉ children v) ->
  parent f = p -> children f = [] -> 1 < pid f -> family_ok (fam_of <$> <[c := f]> (<[p := set_children (children pv ++ [c]) pv]> P)).
Proof.
  intros [F1 F2 F3 F4] Hc Hp Hp0 Hnp Hnc Hf1 Hf2 Hf3. assert (c <> p) as Hcp by congruence.
  rewrite !fmap_insert. set (F := fam_of <$> P) in *. assert (F !! c = None) as HFc by (unfold F; by rewrite lookup_fmap, Hc).
  assert (F !! p = Some (fam_of pv)) as HFp by (unfold F; by rewrite lookup_fmap, Hp).
  assert (forall q g, <[c := fam_of f]> (<[p := fam_of (set_children (children pv ++ [c]) pv)]> F) !! q = Some g ->
    (q = c /\ g = fam_of f) \/ (q = p /\ g = mk_fam (pid pv) (parent pv) (children pv ++ [c])) \/ (q <> c /\ q <> p /\ F !! q = Some g)) as Hlk.
  { intros q g. rewrite !lookup_insert. case_decide; [naive_solver|]. case_decide; naive_solver. }
  assert (forall q g, F !! q = Some g -> exists g', <[c := fam_of f]> (<[p := fam_of (set_children (children pv ++ [c]) pv)]> F) !! q = Some g' /\ f_parent g' = f_parent g /\ f_pid g' = f_pid g /\ forall x, x ∈ f_children g -> x ∈ f_children g') as Hup.
  { intros q g Hq. rewrite !lookup_insert. case_decide; [congruence|]. case_decide; [|eauto 10]. subst q. assert (g = fam_of pv) as -> by congruence. eexists. split_and!; [done..|]. intros x Hx. cbn. apply elem_of_app. by left. }
  assert (forall q g x, F !! q = Some g -> x ∈ f_children g -> exists gx, <[c := fam_of f]> (<[p := fam_of (set_children (children pv ++ [c]) pv)]> F) !! x = Some gx /\ f_parent gx = q) as Hdn.
  { intros q g x Hq Hx. destruct (F2 q g x Hq Hx) as (gx & Hgx & Hpx). destruct (Hup x gx Hgx) as (g' & Hg' & Hp' & _). exists g'. split; [done|congruence]. }
  split.
  - intros q g [[-> ->]|[[-> ->]|(_ & _ & Hq)]]%Hlk; [cbn; rewrite Hf2; constructor| |by eapply F1]. cbn. apply NoDup_app. split_and!; [by apply (F1 p (fam_of pv))| |apply NoDup_singleton].
    intros x Hx ->%list_elem_of_singleton. by eapply Hnc.
  - intros q g x [[-> ->]|[[-> ->]|(_ & _ & Hq)]]%Hlk; [cbn; rewrite Hf2; by intros []%elem_of_nil| |by apply Hdn]. cbn. rewrite elem_of_app, list_elem_of_singleton. intros [Hx| ->]; [by eapply (Hdn p (fam_of pv))|].
    exists (fam_of f). rewrite lookup_insert_eq. done.
  - intros q g [[-> ->]|[[-> ->]|(_ & _ & Hq)]]%Hlk; cbn.
    + intros _. rewrite Hf1. eexists. split; [by rewrite lookup_insert_ne, lookup_insert_eq|]. cbn. apply elem_of_app. right. by left.
    + intros Hpp. destruct (F3 p (fam_of pv) HFp Hpp) as (gp & Hgp & Hin). cbn in Hgp. destruct (Hup _ _ Hgp) as (g' & Hg' & _ & _ & Hsub). eauto.
    + intros Hpp. destruct (F3 q g Hq Hpp) as (gp & Hgp & Hin). destruct (Hup _ _ Hgp) as (g' & Hg' & _ & _ & Hsub). eauto.
  - intros q g [[-> ->]|[[-> ->]|(_ & _ & Hq)]]%Hlk; cbn; [rewrite Hf1; split; [done|lia]|apply (F4 p (fam_of pv) HFp)|exact (F4 q g Hq)].
Qed.
End clauses.

Lemma init_pid_pos s : core_inv s -> 1 < next_pid s.
Proof.
  intros HI. destruct (init_at s HI) as (vi & Hi & H1 & _). pose proof (pk_range _ _ _ (in_pid s HI) (init_proc s) (pid vi)) as H. rewrite lookup_fmap, Hi in H. specialize (H eq_refl). lia.
Qed.

Lemma core_forked s e p pv : core_inv s -> env_fresh s e -> procs s !! p = Some pv -> pstate pv = PROC_RUNNING ->
  r_obj e <> NULL -> r_kstack e <> NULL -> r_tf e <> NULL -> r_pt e <> NULL -> core_inv (forked s e p pv).
Proof.
  intros HI [E1 E2 E3 E4] Hp Hrun Hc Hks Htf Hpt. set (c := r_obj e) in *. pose proof (unused_of s c HI Hc (E1 Hc)) as [_ Hpc Hch Hw Hro]. pose proof (not_null s HI p pv Hp) as Hpn.
  assert (c <> p) as Hcp by congruence. pose proof (init_pid_pos s HI) as Hnp. destruct (E3 Htf) as [Htf1 Htf2]. destruct (E4 Hpt) as [Hpt1 Hpt2].
  destruct (pk_buckets _ _ _ (in_pid s HI) (pid_bucket (next_pid s))) as [l Hl]; [by apply hash_index_range|].
  assert (forall {A} (g : proc -> A), g (set_children (children pv ++ [c]) pv) = g pv -> g <$> <[c := child_proc s e p pv]> (<[p := set_children (children pv ++ [c]) pv]> (procs s)) = <[c := g (child_proc s e p pv)]> (g <$> procs s)) as Hview.
  { intros A g Hg. rewrite !fmap_insert, Hg. f_equal. apply insert_id. by rewrite lookup_fmap, Hp. }
  assert (forall {A} (g : proc -> A), (g <$> procs s) !! c = None) as Hnone by (intros; by rewrite lookup_fmap, Hpc).
  assert (dom (<[c := child_proc s e p pv]> (<[p := set_children (children pv ++ [c]) pv]> (procs s))) = {[c]} ∪ dom (procs s)) as Hdom by (rewrite dom_insert_L; f_equal; by eapply dom_upd).
  assert (c ∉ dom (procs s)) as Hcd by by apply not_elem_of_dom.
  pose proof (in_family s HI) as HF. pose proof (in_sleep s HI) as HS. destruct HI. unfold forked. fold c. split; ks; rewrite ?Hdom; try (rewrite Hview by done); try done.
  - apply NoDup_app. split_and!; [done| |apply NoDup_singleton]. intros x Hx ->%list_elem_of_singleton. by apply in_all in Hx.
  - intros x. rewrite elem_of_app, list_elem_of_singleton, elem_of_union, elem_of_singleton, in_all. tauto.
  - by rewrite !lookup_insert_ne.
  - by apply run_ok_new.
  - by apply cpu_ok_new.
  - by apply sleep_ok_new.
  - apply sorted_ok_stay; [|done]. intros Hts. by apply (sp_ts _ _ _ HS) in Hts; rewrite Hnone in Hts.
  - eapply family_new; try done. intros q v Hv Hpar. destruct (fa_up _ HF q (fam_of v)) as (g & Hg & _); [by rewrite lookup_fmap, Hv|by cbn; rewrite Hpar|]. cbn in Hg. rewrite Hpar, Hnone in Hg. done.
  - rewrite Hl. apply pid_ok_new; [done|done|lia|done].
  - eapply own_ok_new; [done|done| | |done|].
    + intros r. unfold resources, child_proc, user_proc, mem_of. cbn. destruct (Z.eqb_spec (r_pt e) NULL); [done|]. rewrite !elem_of_cons. intros [->|[->|[->|[->|[->|[]%elem_of_nil]]]]]; auto.
    + unfold resources, child_proc, user_proc, mem_of. cbn. destruct (Z.eqb_spec (r_pt e) NULL); [done|]. rewrite !NoDup_cons, !not_elem_of_cons. split_and!; try congruence; try apply not_elem_of_nil. constructor.
    + unfold resources, child_proc, user_proc, mem_of. cbn. destruct (Z.eqb_spec (r_pt e) NULL); [done|]. fold c. solve_Permutation.
  - by apply ctx_ok_upd.
  - by apply wq_ok_new.
  - apply boot_ok_new; [done|cbn; lia|done].
  - rewrite !fmap_insert. apply zombie_ok_upd; [|done]. apply zombie_ok_upd; [done|]. cbn. congruence.
  - apply idle_ok_upd; [done|]. cbn. lia.
Qed.

(** ** Publishing *)
Lemma publish_spec s c v l (Q : unit -> kst -> Prop) : procs s !! c = Some v -> pstate v = PROC_RUNNABLE -> (c ∉ all_procs s) -> (c ∉ run_queue s) -> (RunQueueLock ∉ held s) ->
  on_some c (pid_table s) = false -> pid_table s !! pid_bucket (pid v) = Some l ->
  Q tt (set_all_procs (all_procs s ++ [c]) (set_run_queue (run_queue s ++ [c]) (set_pid_table (<[pid_bucket (pid v) := c :: l]> (pid_table s)) s))) -> wp (publish c) Q s.
Proof.
  intros Hc Hs Ha Hr Hl Ht Hb HQ. unfold publish. wp_steps. eapply wp_upd_proc; [done|]. assert (set_pstate PROC_RUNNABLE v = v) as -> by (rewrite <- Hs; by destruct v). rewrite insert_id by done.
  unfold add_all_list. wp_steps. ks. apply wp_require; [by apply bool_decide_eq_true|]. wp_steps. apply wp_run_queue_add; [done|done|]. wp_steps. eapply wp_get_proc; [done|].
  unfold add_pid_link. wp_steps. ks. apply wp_require; [by rewrite Ht|]. fold (pid_bucket (pid v)). rewrite Hb. wp_steps. ks. by destruct s.
Qed.

Lemma not_in_tables s c : core_inv s -> procs s !! c = None -> (c ∉ all_procs s) /\ (c ∉ run_queue s) /\ on_some c (pid_table s) = false.
Proof.
  intros HI Hc. split_and!.
  - by rewrite (in_all s HI), not_elem_of_dom.
  - rewrite (ru_iff _ _ (in_run s HI)), lookup_fmap, Hc. done.
  - apply on_some_false. intros b l Hl. rewrite (pk_table _ _ _ (in_pid s HI) b l c Hl), lookup_fmap, Hc. naive_solver.
Qed.

(** * proc_fork *)
Definition fork_post (s : kst) (e : fork_env) (p : ptr) (pv : proc) (r : Z) (s' : kst) : Prop :=
  (r = -1 /\ ~ fork_ok e /\ undone (r_tf e) s s') \/
  (r = next_pid s /\ r_obj e <> NULL /\ r_kstack e <> NULL /\ r_tf e <> NULL /\ r_pt e <> NULL /\ r_dup e = true /\ s' = forked s e p pv).

(** The part of [proc_fork] after the address space has been copied. *)
Definition fork_finish (parent child : Z) (v : proc) (e : fork_env) : M kst Z :=
  pv ← get_proc parent;
  require (negb (trapframe pv =? NULL));;
  modify (fun s => set_tf_mem (upd (tf_mem s) (trapframe v) (child_frame (tf_mem s (trapframe pv)) (u64 (kstack v + PG_SIZE)) (satp e) (user_trap e))) s);;
  upd_proc child (set_name (name pv));;
  irq ← spin_lock_irqsave WaitLock;
  del_sibling child;;
  upd_proc child (set_parent parent);;
  add_sibling child parent;;
  spin_unlock_irqrestore WaitLock irq;;
  pirq ← gets sie;
  modify (set_sie false);;
  publish child;;
  (if (pirq : bool) then modify (set_sie true) else mret tt);;
  mret (pid v).

Definition finished (s : kst) (P0 : gmap ptr proc) (p c : ptr) (pv v : proc) (e : fork_env) (l : list Z) : kst :=
  set_procs (<[p := set_children (children pv ++ [c]) pv]> (<[c := set_parent p (set_name (name pv) v)]> P0))
  (set_all_procs (all_procs s ++ [c]) (set_run_queue (run_queue s ++ [c]) (set_pid_table (<[pid_bucket (pid v) := c :: l]> (pid_table s))
  (set_tf_mem (upd (tf_mem s) (trapframe v) (child_frame (tf_mem s (trapframe pv)) (u64 (kstack v + PG_SIZE)) (satp e) (user_trap e))) s)))).

Lemma fork_finish_spec s P0 p c pv pv' v e l (Q : Z -> kst -> Prop) :
  procs s !! c = Some v -> procs s !! p = Some pv' -> trapframe pv' = trapframe pv -> name pv' = name pv -> unlinked c (procs s) = <[c := v]> P0 -> P0 !! p = Some pv -> c <> p ->
  pstate v = PROC_RUNNABLE -> children v = [] -> (forall q u, P0 !! q = Some u -> c ∉ children u) -> on_some c (children_of s) = true -> held s = [] ->
  (c ∉ all_procs s) -> (c ∉ run_queue s) -> on_some c (pid_table s) = false -> pid_table s !! pid_bucket (pid v) = Some l ->
  trapframe pv <> NULL -> Q (pid v) (finished s P0 p c pv v e l) -> wp (fork_finish p c v e) Q s.
Proof.
  intros Hc Hp' Etf Enm Hun Hp Hcp Hst Hch Hno Hon Hh Ha Hr Ht Hl Htf0 HQ. unfold fork_finish. wp_steps. eapply wp_get_proc; [exact Hp'|]. rewrite Etf, Enm. wp_steps.
  apply wp_require; [by apply negb_true_iff, Z.eqb_neq|]. wp_steps.
  eapply wp_upd_proc; [exact Hc|]. ks. wp_steps. apply wp_irqsave; [ks; rewrite Hh; apply not_elem_of_nil|]. ks. rewrite Hh. wp_steps.
  assert (unlinked c (<[c := set_name (name pv) v]> (procs s)) = <[c := set_name (name pv) v]> P0) as Hun'.
  { rewrite unlinked_insert, Hun, insert_insert_eq. cbn [children set_name]. rewrite Hch. change (without c []) with (@nil Z). assert (set_children [] (set_name (name pv) v) = set_name (name pv) v) as ->; [|done]. clear -Hch. destruct v; cbn in Hch; subst; reflexivity. }
  apply wp_del_sibling.
  { unfold children_of. ks. apply on_some_spec in Hon as (q & k & Hq & Hin). apply on_some_spec. unfold children_of in Hq. rewrite lookup_fmap in Hq. destruct (procs s !! q) as [u|] eqn:Eu; [|done]. injection Hq as <-.
    exists q, (children u). rewrite lookup_fmap, lookup_insert. case_decide; [|by rewrite Eu]. subst q. assert (u = v) as -> by congruence. done. }
  ks. rewrite Hun'. wp_steps. eapply wp_upd_proc; [by ks; rewrite lookup_insert_eq|]. ks. rewrite insert_insert_eq. wp_steps.
  eapply wp_add_sibling; [|by ks; rewrite lookup_insert_ne|].
  { apply children_off. ks. intros q u. rewrite lookup_insert. case_decide; [intros [= <-]; cbn; rewrite Hch; apply not_elem_of_nil|]. by apply Hno. }
  ks. wp_steps. eapply wp_irqrestore; [done|apply not_elem_of_nil|]. ks. rewrite orb_false_l. wp_steps.
  eapply (publish_spec _ c (set_parent p (set_name (name pv) v)) l); [ks; rewrite lookup_insert_ne by done; by rewrite lookup_insert_eq|done|done|done|cbn; apply not_elem_of_nil|done|done|].
  ks. unfold finished in HQ. rewrite <- Hh in *. destruct s as [x1 x2 x3 x4 x5 x6 x7 x8 x9 x10 x11 x12 x13 x14 sie0 x16 x17 x18 x19]. destruct sie0; wp_steps; exact HQ.
Qed.

Lemma forked_eq s e p pv l : procs s !! r_obj e = None -> procs s !! p = Some pv -> r_obj e <> p -> trapframe pv <> r_tf e -> pid_table s !! pid_bucket (next_pid s) = Some l ->
  finished (set_owned (RVmas (r_pt e) :: owned (user_created s e)) (user_created s e)) (procs s) p (r_obj e) pv (user_proc s e) e l = forked s e p pv.
Proof.
  intros Hc Hp Hcp Htf Hl. unfold finished, forked. rewrite Hl. cbn [default]. rewrite insert_insert_ne by done. unfold user_created. ks.
  unfold user_proc, child_proc, new_proc. ks. rewrite (upd_ne _ (r_tf e) (trapframe pv)) by congruence. reflexivity.
Qed.

(** Freeing the half-built child gives the old state back, but for the PID. *)
Lemma fork_teardown s e : core_inv s -> env_fresh s e -> r_obj e <> NULL -> r_kstack e <> NULL -> r_tf e <> NULL -> r_pt e <> NULL ->
  wp (del_sibling (r_obj e);; release (RTable (r_pt e));; release (RPage (r_tf e));; release (RPage (r_kstack e));; kmfree_proc (r_obj e)) (fun _ s' => undone (r_tf e) s s') (user_created s e).
Proof.
  intros HI [E1 E2 E3 E4] Hc Hks Htfn Hpt. destruct (init_at s HI) as (vi & Hi & _ & _ & Hin). pose proof (unused_of s (r_obj e) HI Hc (E1 Hc)) as Hu. pose proof Hu as [_ Hpc Hch Hw Hro].
  assert (r_obj e <> init_proc s) as Hci by congruence. destruct (E3 Htfn) as [Htf1 Htf2], (E4 Hpt) as [Hpt1 Hpt2]. specialize (E2 Hks).
  wp_steps. apply wp_del_sibling; [unfold children_of, user_created; ks; by eapply linked_on|]. unfold user_created. ks. wp_steps.
  apply wp_release; [by left|]. ks. rewrite release_top by (rewrite !not_elem_of_cons; split_and!; congruence). wp_steps.
  apply wp_release; [by left|]. ks. rewrite release_top by (rewrite !not_elem_of_cons; split_and!; congruence). wp_steps.
  apply wp_release; [by left|]. ks. rewrite release_top by (rewrite !not_elem_of_cons; split_and!; congruence). unfold kmfree_proc. wp_steps.
  apply wp_release; [by left|]. ks. rewrite release_top by done. wp_steps. ks.
  eapply (teardown s (r_obj e) (user_proc s e) (r_tf e) (upd (tf_mem s) (r_tf e) (fun _ => 0))); [done|intros q Hq; by rewrite upd_ne by congruence|]. by destruct s.
Qed.

Section fork.
Context (s : kst) (e : fork_env) (p : ptr) (pv : proc) (HI : core_inv s) (Hh : held s = []) (Hcp : cpu_proc s = p) (Hn : next_pid s < INT_MAX) (He : env_fresh s e)
  (Hp : procs s !! p = Some pv) (Htf : trapframe pv <> r_tf e) (Htf0 : trapframe pv <> NULL).

Lemma proc_fork_spec : wp (proc_fork e) (fork_post s e p pv) s.
Proof using HI Hh Hcp Hn He Hp Htf Htf0.
  pose proof (not_null s HI p pv Hp) as Hpn. destruct (init_at s HI) as (vi & Hi & _ & _ & Hin).
  unfold proc_fork. wp_steps. apply wp_this_proc; [by rewrite Hcp|]. rewrite Hcp. wp_steps.
  apply (create_user_spec s e HI ltac:(rewrite Hh; apply not_elem_of_nil) Hn He).
  { intros Hno s' Hu. cbn [Z.eqb NULL]. wp_steps. left. split_and!; [done| |done]. by intros [? _]. }
  intros Hc Hks Htfn Hpt. pose proof (unused_of s (r_obj e) HI Hc (ef_obj _ _ He Hc)) as Hu. pose proof Hu as [_ Hpc Hch Hw Hro].
  assert (r_obj e <> p /\ r_obj e <> init_proc s) as [Hcpn Hci] by (split; congruence).
  destruct (Z.eqb_spec (r_obj e) NULL) as [|_]; [done|]. wp_steps. eapply (wp_get_proc _ (user_proc s e)); [unfold user_created; ks; by rewrite lookup_insert_eq|].
  change (pagetable (user_proc s e)) with (r_pt e). unfold vma_dup. destruct (r_dup e) eqn:Edup.
  - wp_steps. apply wp_acquire; [intros _; destruct (ef_pt _ _ He Hpt); unfold user_created; ks; rewrite !not_elem_of_cons; split_and!; congruence|done|]. intros _. wp_steps. change (0 <? 0) with false. cbv iota.
    fold (fork_finish p (r_obj e) (user_proc s e) e). set (s1 := set_owned _ _).
    assert (exists pv', procs s1 !! p = Some pv' /\ trapframe pv' = trapframe pv /\ name pv' = name pv) as (pv' & Hpv' & Hpt' & Hpn').
    { unfold s1, user_created. ks. rewrite lookup_insert_ne by done. unfold linked. rewrite Hi. destruct (decide (p = init_proc s)) as [->|].
      - rewrite lookup_insert_eq. eexists. split; [done|]. assert (vi = pv) as -> by congruence. done.
      - rewrite lookup_insert_ne by done. eauto. }
    destruct (not_in_tables s (r_obj e) HI Hpc) as (Ha & Hr & Ht). destruct (pk_buckets _ _ _ (in_pid s HI) (pid_bucket (next_pid s))) as [l Hl]; [by apply hash_index_range|].
    apply (fork_finish_spec s1 (procs s) p (r_obj e) pv pv' (user_proc s e) e l); try done.
    + unfold s1, user_created. ks. by rewrite lookup_insert_eq.
    + unfold s1, user_created. ks. by rewrite unlinked_insert, unlinked_linked by done.
    + unfold s1, user_created, children_of. ks. by eapply linked_on.
    + right. split_and!; try done. by apply forked_eq.
  - wp_steps. change (-1 <? 0) with true. cbv iota.
    change (trapframe (user_proc s e)) with (r_tf e). change (kstack (user_proc s e)) with (r_kstack e).
    pose proof (wp_elim _ _ _ (fork_teardown s e HI He Hc Hks Htfn Hpt)) as ([] & s' & Et & Hu').
    eapply wp_intro; [|left; split_and!; [done|by intros [_ ?]; congruence|exact Hu']]. revert Et. unfold mbind, M_bind.
    destruct (del_sibling (r_obj e) (user_created s e)) as [[? ?]| | |]; [|done..]. destruct (release (RTable (r_pt e)) _) as [[? ?]| | |]; [|done..].
    destruct (release (RPage (r_tf e)) _) as [[? ?]| | |]; [|done..]. destruct (release (RPage (r_kstack e)) _) as [[? ?]| | |]; [|done..]. by intros ->.
Qed.
End fork.
