(* ===== verification/ProcExec.v ===== *)
(** Sleep-locks and [proc_exec] against the invariant. *)
From stdpp Require Import gmap sorting.
From S2P Require Import Prelude Layout Hash Proc ProcInv ProcMoves ProcOps ProcLife ProcWait ProcFork.

(** * Sleep-locks *)
Lemma core_set_sl s sl v : core_inv s -> is_Some (sleeplocks s !! sl) -> core_inv (set_sleeplocks (<[sl := v]> (sleeplocks s)) s).
Proof.
  intros HI Hsl. pose proof (in_ctx s HI) as [C1 C2 C3]. pose proof (in_wq s HI) as [W1 W2 W3]. destruct HI.
  assert (forall x, is_Some (<[sl := v]> (sleeplocks s) !! x) <-> is_Some (sleeplocks s !! x)) as Hx.
  { intros x. rewrite lookup_insert. case_decide; [|done]. subst. split; eauto. }
  split; ks; try done.
  - split; [done|done|]. intros p c lk sl' irq Hc Hr. rewrite Hx. by eapply C3.
  - split; [done|done|]. intros sl' Hs. by apply W3, Hx.
Qed.

Lemma core_new_wq s w : core_inv s -> match w with ChildWq _ => False | _ => True end -> (waitqs s !! w = None \/ waitqs s !! w = Some []) -> core_inv (set_waitqs (<[w := []]> (waitqs s)) s).
Proof.
  intros HI Hw Hn.
  assert (forall w' l, <[w := []]> (waitqs s) !! w' = Some l -> (w' = w /\ l = []) \/ waitqs s !! w' = Some l) as Hl.
  { intros w' l. rewrite lookup_insert. case_decide; naive_solver. }
  pose proof (in_sleep s HI) as [H1 H2 H3 H4 H5 H6 H7]. pose proof (in_wq s HI) as [W1 W2 W3]. destruct HI. split; ks; try done.
  - split; [done|..].
    + intros w' l [[_ ->]|Hw']%Hl; [constructor|by eapply H2].
    + done.
    + intros w' l q [[_ ->]|Hw']%Hl Hq; [by apply elem_of_nil in Hq|by eapply H4].
    + intros w1 w2 l1 l2 q [[_ ->]|Ha]%Hl [[_ ->]|Hb]%Hl Hq1 Hq2; [by apply elem_of_nil in Hq1|by apply elem_of_nil in Hq1|by apply elem_of_nil in Hq2|by eapply H5].
    + intros w' l q [[_ ->]|Hw']%Hl Hq; [by apply elem_of_nil in Hq|by eapply H6].
    + intros q Hq. destruct (H7 q Hq) as [|(w' & l & Hl' & Hin)]; [by left|right]. exists w', l. split; [|done]. rewrite lookup_insert. case_decide; [|done]. subst.
      destruct Hn as [Hn|Hn]; rewrite Hn in Hl'; [done|]. injection Hl' as <-. by apply elem_of_nil in Hin.
  - split.
    + intros p. rewrite lookup_insert. case_decide; [by subst w|apply W1].
    + intros p l q [[E _]|Hw']%Hl Hq; [by subst w|by eapply W2].
    + intros sl Hsl. rewrite lookup_insert. case_decide; [eauto|by apply W3].
Qed.

Lemma core_sleep_init s sl : core_inv s -> (waitqs s !! SleepWq sl = None \/ waitqs s !! SleepWq sl = Some []) ->
  core_inv (set_sleeplocks (<[sl := mk_sleeplock false 0]> (sleeplocks s)) (set_waitqs (<[SleepWq sl := []]> (waitqs s)) s)).
Proof.
  intros HI Hn. pose proof (core_new_wq s (SleepWq sl) HI I Hn) as HI'. pose proof (in_ctx _ HI') as [C1 C2 C3]. pose proof (in_wq _ HI') as [W1 W2 W3]. destruct HI'. split; ks; try done.
  - split; [done|done|]. intros p c lk sl' irq Hc Hr. destruct (C3 p c lk sl' irq Hc Hr) as [? ?]. split; [done|]. rewrite lookup_insert. case_decide; eauto.
  - split; [done|done|]. intros sl'. rewrite !lookup_insert. case_decide; case_decide; subst; try congruence; [intros _; eauto|]. intros Hs. specialize (W3 sl' Hs). rewrite lookup_insert_ne in W3; [done|congruence].
Qed.

(** The state after an uncontended acquisition. *)
Definition acquired (sl : Z) (n : Z) (s : kst) : kst := set_sleeplocks (<[sl := mk_sleeplock true n]> (sleeplocks s)) s.
(** Outcomes of a test of the loop of [sleep_lock], from a state holding the
    internal lock. *)
Inductive sleep_lock_outcome (sl : Z) (irq : bool) (p : ptr) (v : proc) (s : kst) : bool -> kst -> Prop :=
| sl_taken n : sleeplocks s !! sl = Some (mk_sleeplock false n) -> sleep_lock_outcome sl irq p v s true (set_held [] (set_sie (sie s || irq) (acquired sl (pid v) s)))
| sl_parks n l : sleeplocks s !! sl = Some (mk_sleeplock true n) -> waitqs s !! SleepWq sl = Some l ->
    sleep_lock_outcome sl irq p v s false (set_held [ProcLock p] (parked s p v (SleepWq sl) l (SleepLk sl) (InSleepLock sl irq))).

Lemma sleep_lock_iter_spec sl irq s p v : core_inv s -> held s = [SleepLk sl] -> mode s = Running -> cpu_proc s = p -> sched_p s = p -> procs s !! p = Some v -> is_Some (sleeplocks s !! sl) -> pid v <> 0 ->
  wp (sleep_lock_iter sl irq) (fun r s' => sleep_lock_outcome sl irq p v s r s' /\ proc_inv s') s.
Proof.
  intros HI Hh Hm Hcp Hsp Hp [[b n] Hsl] Hi. pose proof (not_null s HI p v Hp) as Hnn. pose proof (on_cpu_running s Hm) as Hc. rewrite Hcp in Hc.
  unfold sleep_lock_iter, get_sl. wp_steps. rewrite Hsl. wp_steps. cbn [locked]. destruct b.
  - destruct (wq_sl _ _ _ (in_wq s HI) sl ltac:(eauto)) as [l Hl]. wp_steps. eapply (wq_sleep_spec s p v); try done; [by repeat constructor|]. wp_steps. split; [by econstructor|]. split.
    + eapply core_frame; [eapply (core_parked s HI p v Hp Hc (SleepWq sl) l (SleepLk sl) (InSleepLock sl irq)); try done; by split_and!; eauto|done..].
    + apply (hart_switched _ p); cbn; congruence.
  - wp_steps. apply wp_this_proc; [by rewrite Hcp|]. rewrite Hcp. wp_steps. eapply wp_get_proc; [done|]. unfold set_sl. wp_steps. eapply wp_irqrestore; [exact Hh|apply not_elem_of_nil|]. wp_steps. split; [by econstructor|].
    split; [eapply core_frame; [apply (core_set_sl s sl (mk_sleeplock true (pid v)) HI); eauto|done..]|]. apply hart_running; cbn; congruence.
Qed.

Lemma sleep_unlock_spec sl s : core_inv s -> held s = [] -> is_Some (sleeplocks s !! sl) ->
  wp (sleep_unlock sl) (fun _ s' => woke_first (SleepWq sl) (set_sleeplocks (<[sl := mk_sleeplock false 0]> (sleeplocks s)) s) s') s.
Proof.
  intros HI Hh Hsl. unfold sleep_unlock, set_sl. wp_steps. apply wp_irqsave; [rewrite Hh; apply not_elem_of_nil|]. wp_steps. ks. rewrite Hh.
  set (s1 := set_sleeplocks (<[sl := mk_sleeplock false 0]> (sleeplocks s)) s). pose proof (core_set_sl s sl (mk_sleeplock false 0) HI Hsl) as HI1. fold s1 in HI1.
  change (set_sleeplocks _ _) with (set_held [SleepLk sl] (set_sie false s1)).
  destruct (wq_sl _ _ _ (in_wq s HI) sl Hsl) as [l Hl].
  eapply (wake_one_spec _ _ l); [eapply core_frame; [exact HI1|done..]|by repeat constructor|done| |].
  - intros ->. wp_steps. eapply wp_irqrestore; [done|apply not_elem_of_nil|]. left. split; [done|]. ks. rewrite orb_false_l, <- Hh. unfold s1. by destruct s.
  - intros q l' u -> Hq Hs. wp_steps. eapply wp_irqrestore; [done|apply not_elem_of_nil|]. right. exists q, l', u. split_and!; [done..|]. ks. rewrite orb_false_l, <- Hh. unfold s1. by destruct s.
Qed.

(** * proc_exec *)
Lemma own_ok_exec R own p m m' own' : R !! p = Some m -> own_ok R own -> NoDup (resources p m') -> (m_pt m' <> NULL -> m_tf m' <> NULL) ->
  (forall r, r ∈ resources p m' -> (r ∈ own) -> r ∈ resources p m) -> NoDup own' -> (forall r, r ∈ own' <-> r ∈ resources p m' \/ (r ∈ own /\ r ∉ resources p m)) ->
  own_ok (<[p := m']> R) own'.
Proof.
  intros Hp HO Hnd Htf Hf Hnd' Hin. pose proof (own_ok_delete R own p m Hp HO) as HD. rewrite <- (insert_delete_eq R p m').
  eapply own_ok_new; [by rewrite lookup_delete_eq|exact HD| |done|done|].
  - intros r Hr [Hro Hnr]%elem_of_released. rewrite free_order_iff in Hnr. by apply Hnr, Hf.
  - apply NoDup_Permutation; [done|apply NoDup_app; split_and!; [done| |apply released_nodup, HO]|].
    + intros r Hr [Hro Hnr]%elem_of_released. rewrite free_order_iff in Hnr. by apply Hnr, Hf.
    + intros r. rewrite Hin, elem_of_app, elem_of_released, free_order_iff. tauto.
Qed.

(** What the allocators promise of the results used by exec. *)
Record exec_fresh (s : kst) (e : exec_env) : Prop := {
  xf_tf : x_tf e <> NULL -> RPage (x_tf e) ∉ owned s;
  xf_pt : x_pt e <> NULL -> (RTable (x_pt e) ∉ owned s) /\ RVmas (x_pt e) ∉ owned s
}.

(** The loader succeeds. *)
Definition exec_ok (v : proc) (e : exec_env) : Prop := x_found e = true /\ x_pt e <> NULL /\ x_built e = true /\ (trapframe v = NULL -> x_tf e <> NULL).
Definition exec_tf (v : proc) (e : exec_env) : Z := if trapframe v =? NULL then x_tf e else trapframe v.
Definition exec_base (v : proc) (e : exec_env) (s : kst) : Z -> Z := if trapframe v =? NULL then (fun _ => 0) else tf_mem s (trapframe v).

Record exec_done (s : kst) (p : ptr) (v : proc) (e : exec_env) (s' : kst) : Prop := {
  xd_procs : procs s' = <[p := set_name (String.substring 0 (PROC_NAME_LEN - 1) (x_path e)) (set_pagetable (x_pt e) (set_trapframe (exec_tf v e) v))]> (procs s);
  xd_own : exists own1, owned s' = released (if pagetable v =? NULL then [] else [RVmas (pagetable v); RTable (pagetable v)]) (RVmas (x_pt e) :: RTable (x_pt e) :: own1) /\
    own1 = (if trapframe v =? NULL then RPage (x_tf e) :: owned s else owned s);
  xd_tf : forall q, tf_mem s' q = if q =? exec_tf v e then exec_frame (exec_base v e s) e (u64 (kstack v + PG_SIZE)) else tf_mem s q;
  xd_same : s' = set_procs (procs s') (set_owned (owned s') (set_tf_mem (tf_mem s') s))
}.

Lemma set_trapframe_id v : set_trapframe (trapframe v) v = v.
Proof. by destruct v. Qed.

Lemma exec_commit_spec s1 p v1 tf e (Q : Z -> kst -> Prop) : procs s1 !! p = Some v1 ->
  (pagetable v1 <> NULL -> RVmas (pagetable v1) ∈ owned s1 /\ RTable (pagetable v1) ∈ owned s1) ->
  Q (x_argc e) (set_procs (<[p := set_name (String.substring 0 (PROC_NAME_LEN - 1) (x_path e)) (set_pagetable (x_pt e) v1)]> (procs s1))
    (set_owned (released (if pagetable v1 =? NULL then [] else [RVmas (pagetable v1); RTable (pagetable v1)]) (owned s1))
      (set_tf_mem (upd (tf_mem s1) tf (exec_frame (tf_mem s1 tf) e (u64 (kstack v1 + PG_SIZE)))) s1))) -> wp (exec_commit p tf e) Q s1.
Proof.
  intros Hp Hown HQ. unfold exec_commit. wp_steps. eapply wp_get_proc; [done|]. destruct (Z.eqb_spec (pagetable v1) NULL) as [E|E]; cbn [negb released foldl] in *.
  - wp_steps. eapply wp_upd_proc; [done|]. wp_steps. eapply wp_upd_proc; [by ks; rewrite lookup_insert_eq|]. wp_steps. ks. rewrite insert_insert_eq. by destruct s1.
  - destruct (Hown E) as [H1 H2]. wp_steps. apply wp_release; [done|]. wp_steps. apply wp_release; [ks; by apply list_elem_of_filter|]. wp_steps. eapply wp_upd_proc; [done|]. wp_steps. eapply wp_upd_proc; [by ks; rewrite lookup_insert_eq|]. wp_steps. ks. rewrite insert_insert_eq. by destruct s1.
Qed.

Section exec.
Context (s : kst) (e : exec_env) (p : ptr) (v : proc) (HI : core_inv s) (Hcp : cpu_proc s = p) (Hp : procs s !! p = Some v) (Hf : exec_fresh s e).

Lemma old_space : pagetable v <> NULL -> trapframe v <> NULL /\ RVmas (pagetable v) ∈ owned s /\ RTable (pagetable v) ∈ owned s /\ RPage (trapframe v) ∈ owned s.
Proof using HI Hp.
  intros Hpt. split; [apply (ow_tf _ _ (in_own s HI) p (mem_of v)); [by rewrite lookup_fmap, Hp|done]|].
  assert (forall r, r ∈ resources p (mem_of v) -> r ∈ owned s) as Ho by (intros; by eapply owned_res).
  unfold resources, mem_of in Ho. cbn in Ho. destruct (Z.eqb_spec (pagetable v) NULL); [done|]. split_and!; apply Ho; rewrite !elem_of_cons; tauto.
Qed.

Lemma exec_success_spec (Q : Z -> kst -> Prop) : exec_ok v e -> (forall s', exec_done s p v e s' -> Q (x_argc e) s') -> wp (proc_exec e) Q s.
Proof using HI Hcp Hp Hf.
  intros (Hfound & Hpt & Hbuilt & Htf) HQ. pose proof (not_null s HI p v Hp) as Hnn. destruct (xf_pt _ _ Hf Hpt) as [Hpt1 Hpt2]. pose proof old_space as Hold.
  unfold proc_exec, exec_trapframe. wp_steps. apply wp_this_proc; [by rewrite Hcp|]. rewrite Hcp. wp_steps. apply wp_this_proc; [by rewrite Hcp|]. rewrite Hcp. wp_steps. eapply wp_get_proc; [done|].
  destruct (Z.eqb_spec (trapframe v) NULL) as [E|E].
  - specialize (Htf E). pose proof (xf_tf _ _ Hf Htf) as Hxt. wp_steps. apply wp_acquire; [done|done|]. intros _. wp_steps. eapply wp_upd_proc; [done|]. ks. destruct (Z.eqb_spec (x_tf e) NULL); [done|]. wp_steps. ks. rewrite Hfound. cbn [negb].
    wp_steps. apply wp_acquire; [intros _; ks; by apply not_elem_of_cons|done|]. intros _. destruct (Z.eqb_spec (x_pt e) NULL); [done|]. rewrite Hbuilt. cbn [negb]. wp_steps.
    apply wp_acquire; [intros _; ks; rewrite !not_elem_of_cons; by split_and!|done|]. intros _. ks.
    eapply exec_commit_spec; [by ks; rewrite lookup_insert_eq|ks; intros Hpv; by destruct (Hold Hpv) as [? _]|]. ks. apply HQ. rewrite insert_insert_eq, !upd_eq. split; ks.
    + unfold exec_tf. rewrite (proj2 (Z.eqb_eq _ _) E). done.
    + eexists. split; [reflexivity|]. by rewrite (proj2 (Z.eqb_eq _ _) E).
    + intros q. unfold exec_tf, exec_base. rewrite (proj2 (Z.eqb_eq _ _) E), !upd_case. destruct (Z.eqb_spec q (x_tf e)); repeat case_decide; try congruence; done.
    + done.
  - wp_steps. rewrite Hfound. cbn [negb]. wp_steps. apply wp_acquire; [by intros _|done|]. intros _. destruct (Z.eqb_spec (x_pt e) NULL); [done|]. rewrite Hbuilt. cbn [negb]. wp_steps.
    apply wp_acquire; [intros _; ks; by apply not_elem_of_cons|done|]. intros _. ks.
    eapply exec_commit_spec; [done|ks; intros Hpv; destruct (Hold Hpv) as (? & ? & ? & _); split; by do 2 right|]. ks. apply HQ. split; ks.
    + unfold exec_tf. rewrite (proj2 (Z.eqb_neq _ _) E). by rewrite set_trapframe_id.
    + eexists. split; [reflexivity|]. by rewrite (proj2 (Z.eqb_neq _ _) E).
    + intros q. unfold exec_tf, exec_base. rewrite (proj2 (Z.eqb_neq _ _) E), !upd_case. destruct (Z.eqb_spec q (trapframe v)); repeat case_decide; try congruence; done.
    + done.
Qed.

(** A failing exec of a process that has an address space changes nothing. *)
Lemma exec_failure_spec (Q : Z -> kst -> Prop) : pagetable v <> NULL -> ~ exec_ok v e -> (forall r, r < 0 -> Q r s) -> wp (proc_exec e) Q s.
Proof using HI Hcp Hp Hf.
  intros Hpv Hno HQ. pose proof (not_null s HI p v Hp) as Hnn. destruct (old_space Hpv) as (E & _).
  unfold proc_exec, exec_trapframe. wp_steps. apply wp_this_proc; [by rewrite Hcp|]. rewrite Hcp. wp_steps. apply wp_this_proc; [by rewrite Hcp|]. rewrite Hcp. wp_steps. eapply wp_get_proc; [done|].
  destruct (Z.eqb_spec (trapframe v) NULL) as [|_]; [done|]. wp_steps. destruct (x_found e) eqn:Ef; cbn [negb]; [|wp_steps; by apply HQ].
  wp_steps. apply wp_acquire; [intros Hpt; by apply (xf_pt _ _ Hf)| |].
  - intros _. cbn [Z.eqb NULL]. wp_steps. by apply HQ.
  - intros Hpt. destruct (Z.eqb_spec (x_pt e) NULL); [done|]. destruct (x_built e) eqn:Eb; cbn [negb]; [destruct Hno; by split_and!|]. wp_steps.
    apply wp_release; [by left|]. wp_steps. ks. rewrite release_top by by apply (xf_pt _ _ Hf).
    assert (set_owned (owned s) (set_owned (RTable (x_pt e) :: owned s) s) = s) as -> by (clear; by destruct s). by apply HQ.
Qed.

Lemma core_exec s' : exec_ok v e -> exec_done s p v e s' -> (pagetable v = NULL -> trapframe v = NULL) -> core_inv s'.
Proof using HI Hp Hf Hcp.
  intros (Hfound & Hpt & Hbuilt & Htf) [Hpr (own1 & Hown & Ho1) _ Hsame] Hkt. pose proof old_space as Hold. destruct (xf_pt _ _ Hf Hpt) as [Hpt1 Hpt2].
  set (v' := set_name _ _) in Hpr. assert (pstate v' = pstate v /\ pid v' = pid v) as [Es Ei] by done.
  assert (own_ok (mem_of <$> procs s') (owned s')) as HO.
  { rewrite Hpr, fmap_insert. pose proof (in_own s HI) as HO. assert ((mem_of <$> procs s) !! p = Some (mem_of v)) as Hm by by rewrite lookup_fmap, Hp.
    pose proof (ow_res_nodup _ _ HO p _ Hm) as Hrn. assert (forall r, r ∈ resources p (mem_of v) -> r ∈ owned s) as Hin by (intros; by eapply owned_res).
    assert (m_pt (mem_of v') = x_pt e /\ m_tf (mem_of v') = exec_tf v e /\ m_kstack (mem_of v') = kstack v) as (M1 & M2 & M3) by done.
    destruct (Z.eqb_spec (pagetable v) NULL) as [Epv|Epv].
    - specialize (Hkt Epv). rewrite (proj2 (Z.eqb_eq _ _) Hkt) in Ho1. specialize (Htf Hkt). pose proof (xf_tf _ _ Hf Htf) as Hxt.
      unfold exec_tf in M2. rewrite (proj2 (Z.eqb_eq _ _) Hkt) in M2.
      assert (resources p (mem_of v) = [RObj p; RPage (kstack v)]) as Er by (unfold resources; cbn; by rewrite Epv).
      assert (resources p (mem_of v') = [RObj p; RPage (kstack v); RPage (x_tf e); RTable (x_pt e); RVmas (x_pt e)]) as Er' by (unfold resources; rewrite M1, M2, M3; by destruct (Z.eqb_spec (x_pt e) NULL)).
      assert (RPage (kstack v) ∈ owned s /\ RObj p ∈ owned s) as [Hk Hob] by (rewrite Er in Hin; split; apply Hin; rewrite !elem_of_cons; tauto).
      eapply own_ok_exec; [exact Hm|exact HO|..].
      + rewrite Er'. rewrite !NoDup_cons, !not_elem_of_cons. split_and!; try congruence; try apply not_elem_of_nil; try constructor.
      + by rewrite M2.
      + rewrite Er, Er'. intros r. rewrite !elem_of_cons. intros [->|[->|[->|[->|[->|[]%elem_of_nil]]]]]; tauto.
      + rewrite Hown, Ho1. cbn. rewrite !NoDup_cons, !not_elem_of_cons. split_and!; try done. apply HO.
      + intros r. rewrite Hown, Ho1, Er, Er'. cbn. rewrite !elem_of_cons, !elem_of_nil. destruct (decide (r = RObj p)), (decide (r = RPage (kstack v))); subst; tauto.
    - destruct (Hold Epv) as (Etf & _). rewrite (proj2 (Z.eqb_neq _ _) Etf) in Ho1. unfold exec_tf in M2. rewrite (proj2 (Z.eqb_neq _ _) Etf) in M2.
      assert (resources p (mem_of v) = [RObj p; RPage (kstack v); RPage (trapframe v); RTable (pagetable v); RVmas (pagetable v)]) as Er by (unfold resources; cbn; by destruct (Z.eqb_spec (pagetable v) NULL)).
      assert (resources p (mem_of v') = [RObj p; RPage (kstack v); RPage (trapframe v); RTable (x_pt e); RVmas (x_pt e)]) as Er' by (unfold resources; rewrite M1, M2, M3; by destruct (Z.eqb_spec (x_pt e) NULL)).
      assert (RTable (pagetable v) ∈ owned s /\ RVmas (pagetable v) ∈ owned s /\ RPage (kstack v) ∈ owned s /\ RObj p ∈ owned s /\ RPage (trapframe v) ∈ owned s) as (Ht & Hv & Hk & Hob & Htf') by (rewrite Er in Hin; split_and!; apply Hin; rewrite !elem_of_cons; tauto).
      assert (pagetable v <> x_pt e) as Hne by congruence.
      rewrite Er in Hrn. rewrite !NoDup_cons, !not_elem_of_cons in Hrn.
      eapply own_ok_exec; [exact Hm|exact HO|..].
      + rewrite Er'. rewrite !NoDup_cons, !not_elem_of_cons. split_and!; try apply Hrn; try congruence; try apply not_elem_of_nil; try constructor.
      + by rewrite M2.
      + rewrite Er, Er'. intros r. rewrite !elem_of_cons. intros [->|[->|[->|[->|[->|[]%elem_of_nil]]]]]; tauto.
      + rewrite Hown, Ho1. apply released_nodup. rewrite !NoDup_cons, !not_elem_of_cons. split_and!; try done. apply HO.
      + intros r. rewrite Hown, Ho1, elem_of_released, Er, Er'. rewrite !elem_of_cons, !elem_of_nil.
        destruct (decide (r = RObj p)), (decide (r = RPage (kstack v))), (decide (r = RPage (trapframe v))), (decide (r = RTable (x_pt e))), (decide (r = RVmas (x_pt e))); subst; try (split; [tauto|]; intros _; split; [tauto|]; intros [?|[?|?]]; congruence); tauto. }
  assert (forall {A} (g : proc -> A), g v' = g v -> g <$> procs s' = g <$> procs s) as Hview by (intros A g Hg; rewrite Hpr; by apply (view_upd g _ _ v)).
  assert (dom (procs s') = dom (procs s)) as Hdom by (rewrite Hpr; by eapply dom_upd).
  pose proof (not_null s HI p v Hp) as Hnn. assert (procs s' !! NULL = None) as Hnull by (rewrite Hpr, lookup_insert_ne by done; by apply in_null).
  rewrite Hsame. destruct HI. split; ks; rewrite ?Hdom; try (rewrite (Hview _ _) by done); done.
Qed.
End exec.
