(* ===== verification/ProcStep.v ===== *)
(** The process subsystem as a state machine: what the hart can do in each mode, and
    that the invariant holds in all reachable states.

    Boot: [proc_init] and [proc_bootstrap] establish the invariant. *)
From stdpp Require Import gmap sorting relations.
From S2P Require Import ProcSched ProcExec Prelude Layout Hash Proc ProcInv ProcMoves ProcOps ProcLife ProcWait ProcFork.

(** * Operations

    [OSched] and [OResume] are the scheduler and the code after [sched]; the others
    are what the running process, or an interrupt in it, does. *)
Inductive op :=
| OSched | OResume
| OTick (now : Z)
| OTrapRet | OYield
| OExit (status : Z) | OWait | OKill (n : Z) | OSleep (ms : Z)
| OFork (e : fork_env) | OExec (e : exec_env)
| OSleepInit (sl : Z) | OSleepLock (sl : Z) | OSleepUnlock (sl : Z)
| OWqInit (a : Z) | OWqSleep (a : Z) | OWakeOne (a : Z) | OWakeAll (a : Z).

Definition discard {A} (m : M kst A) : M kst unit := m;; mret tt.

(** The timer interrupt: [kernel_trap] or [user_trap], then the return path. *)
Definition tick (now : Z) : M kst unit := modify (set_mtime now);; timer_interrupt;; trap_ret.

Definition run_op (o : op) : M kst unit :=
  match o with
  | OSched => scheduler
  | OResume => resume_proc
  | OTick now => tick now
  | OTrapRet => trap_ret
  | OYield => yield
  | OExit status => proc_exit status
  | OWait => discard proc_wait
  | OKill n => discard (proc_kill n)
  | OSleep ms => sys_sleep ms
  | OFork e => discard (proc_fork e)
  | OExec e => discard (proc_exec e)
  | OSleepInit sl => sleep_init sl
  | OSleepLock sl => discard (sleep_lock sl)
  | OSleepUnlock sl => sleep_unlock sl
  | OWqInit a => wq_init (OtherWq a)
  | OWqSleep a => irq ← spin_lock_irqsave (OtherLock a); wq_sleep (OtherWq a) (OtherLock a) (InOther irq)
  | OWakeOne a => discard (wq_wake_one (OtherWq a))
  | OWakeAll a => wq_wake_all (OtherWq a)
  end.

#[export] Instance op_is_sched_dec (o : op) : Decision (o = OSched).
Proof. refine (match o with OSched => left eq_refl | _ => right _ end); discriminate. Defined.

(** The process on the hart. *)
Definition cur_is (s : kst) (f : proc -> Prop) : Prop := exists v, procs s !! cpu_proc s = Some v /\ f v.
Definition uninit (s : kst) (w : wq_id) : Prop := waitqs s !! w = None \/ waitqs s !! w = Some [].

(** When an operation may happen: in which mode, and the callers' obligations.
    idle does not block; only processes with an address space fork; a thread
    without one execs once, successfully ([init_start] panics otherwise). *)
Definition enabled (o : op) (s : kst) : Prop :=
  match o with
  | OSched => mode s = Switched
  | OResume => mode s = Dispatched
  | _ => mode s = Running
  end /\
  match o with
  | OTick now => mtime s <= now
  | OExit _ => cur_is s (fun v => 1 < pid v)
  | OWait | OSleep _ => cur_is s (fun v => pid v <> 0)
  | OFork e => cur_is s (fun v => pagetable v <> NULL) /\ env_fresh s e /\ next_pid s < INT_MAX
  | OExec e => cur_is s (fun v => (pagetable v = NULL -> trapframe v = NULL /\ exec_ok v e)) /\ exec_fresh s e
  | OSleepInit sl => uninit s (SleepWq sl)
  | OSleepLock sl => cur_is s (fun v => pid v <> 0) /\ is_Some (sleeplocks s !! sl)
  | OSleepUnlock sl => is_Some (sleeplocks s !! sl)
  | OWqInit a => uninit s (OtherWq a)
  | OWqSleep a => cur_is s (fun v => pid v <> 0) /\ is_Some (waitqs s !! OtherWq a)
  | OWakeOne a | OWakeAll a => is_Some (waitqs s !! OtherWq a)
  | _ => True
  end.

(** idle or init has been killed: the kernel is going to panic. *)
Definition doomed (s : kst) : Prop := exists p v, procs s !! p = Some v /\ pid v <= 1 /\ killed v = true.

(** * The invariant is preserved, and the run queue is first in, first out *)

(** Processes are only added at the end of the run queue. *)
Definition appends (s s' : kst) : Prop := run_queue s `prefix_of` run_queue s'.
(** The scheduler, and only it, takes a process from the run queue: the first. *)
Definition fifo (o : op) (s s' : kst) : Prop :=
  match o with
  | OSched => run_queue s = cpu_proc s' :: run_queue s'
  | _ => appends s s'
  end.

Lemma appends_refl s s' : run_queue s' = run_queue s -> appends s s'.
Proof. unfold appends. by intros ->. Qed.
Lemma appends_trans s1 s2 s3 : appends s1 s2 -> appends s2 s3 -> appends s1 s3.
Proof. unfold appends. apply transitivity. Qed.
Lemma appends_snoc s s' p : run_queue s' = run_queue s ++ [p] -> appends s s'.
Proof. unfold appends. intros ->. by apply prefix_app_r. Qed.
Lemma appends_woken_all : forall l s, appends s (woken_all l s).
Proof.
  induction l as [|q l IH]; intros s; cbn [woken_all]; [by apply appends_refl|]. destruct (procs s !! q) as [v|]; [|apply IH].
  eapply appends_trans; [|apply IH]. by eapply appends_snoc.
Qed.
Lemma appends_woke w s s' : woke_first w s s' -> appends s s'.
Proof. intros [[_ ->]|(q & l & v & _ & _ & _ & ->)]; [by apply appends_refl|by eapply appends_snoc]. Qed.
Lemma appends_exit status s p v s' : exit_post status s p v s' -> appends s s'.
Proof. intros (v1 & s2 & _ & _ & Hw & ->). apply (appends_trans s (reparented s v)); [by apply appends_refl|]. apply (appends_trans _ s2); [by eapply appends_woke|by apply appends_refl]. Qed.
Lemma appends_wait irq p v s r s' : wait_outcome irq p v s r s' -> appends s s'.
Proof. intros []; try by apply appends_refl. by eapply (appends_trans s (set_held [] (set_sie (sie s || irq) s))); [apply appends_refl|eapply appends_exit]. Qed.
Lemma appends_sleep_lock sl irq p v s r s' : sleep_lock_outcome sl irq p v s r s' -> appends s s'.
Proof. intros []; by apply appends_refl. Qed.
Lemma appends_kill p v s : appends s (after_kill p v s).
Proof. unfold after_kill. case_bool_decide; [by eapply appends_snoc|by apply appends_refl]. Qed.

Definition follows (s : kst) (s' : kst) : Prop := proc_inv s' /\ appends s s'.

Section preserve.
Context (s : kst) (HP : proc_inv s).

Lemma cur_facts : mode s <> Switched -> exists v, procs s !! cpu_proc s = Some v /\ pstate v = PROC_RUNNING /\ cpu_proc s <> NULL /\ on_cpu s = Some (cpu_proc s).
Proof using HP.
  intros Hm. destruct HP as [HI _]. assert (on_cpu s = Some (cpu_proc s)) as Hc by (unfold on_cpu; by destruct (mode s)).
  destruct (running_proc s _ HI Hc) as (v & Hv & Hr & Hn). eauto 10.
Qed.

Lemma killed_above v : ~ doomed s -> procs s !! cpu_proc s = Some v -> killed v = true -> 1 < pid v.
Proof using Type. intros Hd Hv Hk. destruct (Z.lt_ge_cases 1 (pid v)) as [|Hle]; [done|]. destruct Hd. exists (cpu_proc s), v. split_and!; [done|lia|done]. Qed.

(** Running to running: the locks are free before and after. *)
Lemma inv_running s' : core_inv s' -> mode s = Running -> mode s' = mode s -> held s' = held s -> cpu_proc s' = cpu_proc s -> sched_p s' = sched_p s -> proc_inv s'.
Proof using HP.
  intros HI' Hm Em Eh Ec Es. destruct HP as [_ [H1 H2 H3]]. split; [done|]. split; [congruence|rewrite Em, Ec; apply H2|]. by rewrite Em, Eh, Ec, H3.
Qed.
Lemma running_held : mode s = Running -> held s = [].
Proof using HP. intros Hm. destruct HP as [_ [_ _ H]]. by rewrite H, Hm. Qed.

Lemma inv_yield v : mode s = Running -> procs s !! cpu_proc s = Some v -> wp yield (fun _ => follows s) s.
Proof using HP.
  intros Hm Hv. pose proof HP as [HI [Hsp _ _]]. pose proof (on_cpu_running s Hm) as Hc. pose proof (not_null s HI _ v Hv) as Hn.
  eapply wp_intro; [apply (yield_spec s _ v HI (running_held Hm) Hc eq_refl Hv)|]. split; [|by eapply appends_snoc]. split; [eapply core_frame; [by apply (core_yielded s HI _ v Hv Hc (sie s))|done..]|].
  apply (hart_switched _ (cpu_proc s)); done.
Qed.

Lemma inv_exit status v : mode s = Running -> procs s !! cpu_proc s = Some v -> 1 < pid v -> wp (proc_exit status) (fun _ => follows s) s.
Proof using HP.
  intros Hm Hv Hp. pose proof HP as [HI [Hsp _ _]]. eapply wp_mono; [apply (proc_exit_spec s _ v HI (running_held Hm) (on_cpu_running s Hm) eq_refl Hsp Hv Hp)|]. intros [] s' (He & Hi & _). split; [done|by eapply appends_exit].
Qed.

End preserve.

Lemma inv_trap_ret s : proc_inv s -> ~ doomed s -> mode s = Running -> wp trap_ret (fun _ => follows s) s.
Proof.
  intros HP Hd Hm. destruct (cur_facts s HP ltac:(by rewrite Hm)) as (v & Hv & _ & Hn & _).
  unfold trap_ret. wp_steps. destruct (Z.eqb_spec (cpu_proc s) NULL) as [|_]; [done|]. wp_steps. eapply wp_get_proc; [done|].
  destruct (killed v) eqn:Ek; [by eapply inv_exit; [..|eapply killed_above]|]. destruct (need_resched s); [|wp_steps; split; [done|by apply appends_refl]].
  wp_steps. apply (inv_yield (set_need_resched false s)) with v; [|done|done]. destruct HP as [HI Hh]. split; [eapply core_frame; [exact HI|done..]|]. by destruct Hh.
Qed.

Lemma doomed_same s s' : (forall p v', procs s' !! p = Some v' -> exists v, procs s !! p = Some v /\ pid v' = pid v /\ killed v' = killed v) -> ~ doomed s -> ~ doomed s'.
Proof. intros Hs Hd (p & v' & Hv' & H1 & H2). destruct (Hs p v' Hv') as (v & Hv & E1 & E2). apply Hd. exists p, v. split_and!; [done|lia|congruence]. Qed.

Lemma woken_all_same l : forall s p v', procs (woken_all l s) !! p = Some v' -> exists v, procs s !! p = Some v /\ pid v' = pid v /\ killed v' = killed v.
Proof.
  induction l as [|q l IH]; intros s p v' Hv'; cbn [woken_all] in Hv'; [eauto|]. destruct (procs s !! q) as [u|] eqn:E; [|by eapply IH].
  destruct (IH _ _ _ Hv') as (v & Hv & E1 & E2). cbn in Hv. rewrite lookup_insert in Hv. case_decide; [|eauto]. subst. injection Hv as <-. eauto.
Qed.

Lemma woken_all_sched : forall l s, sched_p (woken_all l s) = sched_p s.
Proof. induction l as [|q l IH]; intros s; [done|]. cbn [woken_all]. destruct (procs s !! q); [exact (IH (woken q p s))|apply IH]. Qed.

Lemma inv_tick s now : proc_inv s -> ~ doomed s -> mode s = Running -> wp (tick now) (fun _ => follows s) s.
Proof.
  intros HP Hd Hm. unfold tick, timer_interrupt. wp_steps. pose proof HP as [HI Hh]. pose proof (running_held s HP Hm) as Hh0.
  apply wake_expired_spec; [eapply core_frame; [exact HI|done..]|done|]. set (s1 := set_timer _ _). set (e := expired _ _ _). intros HI1. wp_steps.
  destruct (woken_all_keeps e s1) as (Kh & Km & Kc & Ks). destruct (cur_facts s HP ltac:(by rewrite Hm)) as (v & Hv & _ & Hn & _).
  pose proof (woken_all_sched e s1) as Ksp.
  rewrite Kc. change (cpu_proc s1) with (cpu_proc s). destruct (Z.eqb_spec (cpu_proc s) NULL) as [|_]; [done|]. wp_steps.
  eapply wp_mono; [apply inv_trap_ret|intros [] s' [Hi Ha]; split; [done|]; eapply appends_trans; [|exact Ha]; exact (appends_woken_all e s1)].
  - split; [eapply core_frame; [exact HI1|done..]|]. apply hart_running; [exact (eq_trans Km Hm)|exact (eq_trans Kh Hh0)|exact (eq_trans Ksp (eq_trans (ha_sched _ Hh) (eq_sym Kc)))|change (cpu_proc (woken_all e s1) <> NULL); by rewrite Kc].
  - eapply doomed_same; [|exact Hd]. intros p v' Hv'. by eapply (woken_all_same e s1).
  - exact (eq_trans Km Hm).
Qed.

Lemma exec_ok_dec v e : exec_ok v e \/ ~ exec_ok v e.
Proof.
  unfold exec_ok. destruct (x_found e), (x_built e), (Z.eq_dec (x_pt e) NULL), (Z.eq_dec (trapframe v) NULL), (Z.eq_dec (x_tf e) NULL);
    (left; tauto) || (right; tauto) || (right; intros (? & ? & ? & ?); congruence) || (right; intros (? & ? & ? & Ht); by apply Ht).
Qed.

Lemma core_wake_time s p v x : core_inv s -> procs s !! p = Some v -> pstate v <> PROC_SLEEPING -> core_inv (set_procs (<[p := set_wake_time x v]> (procs s)) s).
Proof.
  intros HI Hp Hs. destruct (not_asleep s HI p v Hp Hs) as [Hts _]. pose proof (not_null s HI p v Hp) as Hnn. destruct HI. split; ks; frame Hp.
  - by rewrite lookup_insert_ne.
  - rewrite fmap_insert. by apply sorted_ok_stay.
Qed.

Lemma inv_resume s : proc_inv s -> ~ doomed s -> mode s = Dispatched -> wp resume_proc (fun _ => follows s) s.
Proof.
  intros HP Hd Hm. destruct (cur_facts s HP ltac:(by rewrite Hm)) as (v & Hv & Hr & Hn & Hc). pose proof HP as [HI [Hsp _ Hh]]. rewrite Hm in Hh. destruct (Z.eqb_spec (cpu_proc s) NULL) as [|_]; [done|].
  set (p := cpu_proc s) in *. assert (forall b h, core_inv (set_held h (set_sie b (set_mode Running s)))) as HI' by (intros; eapply core_frame; [exact HI|try done..]; unfold on_cpu in *; ks; by rewrite Hm).
  assert (forall b, follows s (set_held [] (set_sie b (set_mode Running s)))) as HP' by (intros; split; [split; [apply HI'|by apply hart_running]|by apply appends_refl]).
  assert (forall Q : unit -> kst -> Prop, Q tt (set_held [] (set_sie (sie s) (set_mode Running s))) -> wp (spin_unlock (ProcLock p)) Q (set_mode Running s)) as Hul.
  { intros Q HQ. eapply wp_spin_unlock; [exact Hh|apply not_elem_of_nil|]. by destruct s. }
  unfold resume_proc. wp_steps. apply wp_this_proc; [done|]. fold p. wp_steps. eapply wp_get_proc; [done|]. wp_steps.
  pose proof (in_ctx s HI) as [C1 C2 C3]. assert ((ctx_of <$> procs s) !! p = Some (ctx_of v)) as Hcx by by rewrite lookup_fmap, Hv.
  assert (pid v = 0 -> match context v with AtStart _ | InYield _ => True | _ => False end) as Hidle by (apply (in_idle s HI p (pid v) (context v)); by rewrite lookup_fmap, Hv).
  destruct (context v) as [fn|irq|lk k|irq|] eqn:Ectx.
  - destruct fn; try (unfold kthread_start; wp_steps; apply wp_this_proc; [done|]; cbn [cpu_proc set_mode]; fold p; wp_steps; apply Hul; wp_steps; exact (HP' true)). apply Hul. exact (HP' (sie s)).
  - eapply wp_irqrestore; [exact Hh|apply not_elem_of_nil|]. exact (HP' (sie s || irq)).
  - wp_steps. apply Hul. wp_steps. apply wp_spin_lock; [apply not_elem_of_nil|]. cbn [held set_held].
    set (s1 := set_held [lk] _). assert (core_inv s1) as HI1 by (eapply core_frame; [apply (HI' (sie s) [])|done..]).
    assert (pid v <> 0) as Hp0 by (intros E; by specialize (Hidle E)).
    destruct k as [irq|sl irq|irq].
    + assert (lk = WaitLock) as -> by by eapply (C2 p _ lk irq Hcx). wp_steps.
      eapply wp_mono; [apply (wait_iter_spec irq s1 p v HI1); try done; intros Hk; by eapply (killed_above s)|]. intros r s' [Ho H]. wp_steps. split; [done|]. exact (appends_wait _ _ _ _ _ _ Ho).
    + destruct (C3 p _ lk sl irq Hcx Ectx) as [-> Hsl]. wp_steps.
      eapply wp_mono; [apply (sleep_lock_iter_spec sl irq s1 p v HI1); done|]. intros r s' [Ho H]. wp_steps. split; [done|]. exact (appends_sleep_lock _ _ _ _ _ _ _ Ho).
    + eapply wp_irqrestore; [done|apply not_elem_of_nil|]. exact (HP' (sie s || irq)).
  - wp_steps. eapply wp_upd_proc; [done|]. eapply wp_irqrestore; [exact Hh|apply not_elem_of_nil|]. split; [|by apply appends_refl]. split.
    + eapply core_frame; [apply (core_wake_time _ p v 0 (HI' true [])); [done|by rewrite Hr]|done..].
    + by apply hart_running.
  - exfalso. pose proof (proj1 (C1 p _ Hcx) Ectx) as Hz. cbn in Hz. congruence.
Qed.

Lemma run_op_follows o s : o <> OSched -> proc_inv s -> ~ doomed s -> enabled o s -> wp (run_op o) (fun _ => follows s) s.
Proof.
  intros Hos HP Hd [Hm He]. pose proof HP as [HI [Hsp Hcn _]].
  assert (mode s = Running -> held s = []) as Hh by by apply running_held.
  assert (mode s = Running -> forall s', core_inv s' -> mode s' = mode s -> held s' = held s -> cpu_proc s' = cpu_proc s -> sched_p s' = sched_p s -> appends s s' -> follows s s') as Hrun by (intros; split; [by eapply inv_running|done]).
  destruct o; cbn [run_op enabled] in *; unfold discard; [done|by apply inv_resume|by apply inv_tick|by apply inv_trap_ret|..].
  - destruct (cur_facts s HP ltac:(by rewrite Hm)) as (v & Hv & _). by eapply inv_yield.
  - destruct He as (v & Hv & Hp). by eapply inv_exit.
  - destruct He as (v & Hv & Hp). unfold proc_wait. wp_steps. apply wp_this_proc; [apply Hcn; by rewrite Hm|]. wp_steps. apply wp_irqsave; [rewrite Hh by done; apply not_elem_of_nil|]. rewrite Hh by done.
    eapply wp_mono; [apply (wait_iter_spec (sie s) (set_held [WaitLock] (set_sie false s)) (cpu_proc s) v); try done; [eapply core_frame; [exact HI|done..]|intros Hk; by eapply (killed_above s)]|].
    intros r s' [Ho H]. wp_steps. split; [done|]. exact (appends_wait _ _ _ _ _ _ Ho).
  - unfold proc_kill. wp_steps. apply pid_lookup_spec; [done| |].
    + intros p v Hp _ Hpn. destruct (Z.eqb_spec p NULL) as [|_]; [done|]. apply (kill_found_spec s p v); [done|by apply Hh|done|]. wp_steps.
      apply Hrun; try done; [by apply core_after_kill|unfold after_kill; by case_bool_decide..|apply appends_kill].
    + intros _. cbn [Z.eqb NULL]. wp_steps. split; [done|by apply appends_refl].
  - destruct He as (v & Hv & Hp). pose proof (on_cpu_running s Hm) as Hc. pose proof (not_null s HI _ v Hv) as Hn. pose proof (cpu_running s HI _ v Hv Hc) as Hr. destruct (not_asleep s HI _ v Hv ltac:(by rewrite Hr)) as [Hts _].
    apply (sys_sleep_spec s (cpu_proc s) v ms); [done|by apply Hh|done..|]. split; [|by apply appends_refl]. split.
    + eapply core_frame; [apply (core_timed s HI (cpu_proc s) v Hv Hc (sleep_until (mtime s) ms) (insert_by (wake_time <$> procs s) (cpu_proc s) (sleep_until (mtime s) ms) (tsleep_list s)) (sie s)); [apply insert_by_perm| |done]|done..]. by apply insert_by_sorted; [|apply in_sorted].
    + apply (hart_switched _ (cpu_proc s)); done.
  - destruct He as ((v & Hv & Hpt) & Hf & Hnp). destruct (cur_facts s HP ltac:(by rewrite Hm)) as (v' & Hv' & Hr & _). assert (v' = v) as -> by congruence.
    destruct (old_space s (cpu_proc s) v HI Hv Hpt) as (Htf & _ & _ & Htfo).
    assert (trapframe v <> r_tf e) as Htf'. { intros E. by destruct (ef_tf _ _ Hf ltac:(congruence)) as [Hno _]; rewrite <- E in Hno. }
    wp_steps. eapply wp_mono; [apply (proc_fork_spec s e (cpu_proc s) v HI (Hh Hm) eq_refl Hnp Hf Hv Htf' Htf)|].
    intros r s' [(_ & _ & n & m & Hn & Hm' & ->)|(_ & H1 & H2 & H3 & H4 & _ & ->)]; wp_steps; apply Hrun; try done; [|by apply appends_refl|by apply core_forked|by eapply appends_snoc].
    destruct Hn as [->| ->]; [eapply core_frame; [exact HI|done..]|]. pose proof (in_pid s HI) as [P1 P2 P3 P4 P5]. destruct HI. split; ks; try done. split; try done. intros p n Hp. specialize (P1 p n Hp). lia.
  - destruct He as ((v & Hv & Hx) & Hf). wp_steps.
    assert (forall s', exec_ok v e -> exec_done s (cpu_proc s) v e s' -> (pagetable v = NULL -> trapframe v = NULL) -> follows s s') as Hdone.
    { intros s' Hok Hdn Hk. pose proof (core_exec s e (cpu_proc s) v HI eq_refl Hv Hf s' Hok Hdn Hk) as HI'. destruct Hdn as [_ _ _ Es]. apply Hrun; [done|done|by rewrite Es..|apply appends_refl; by rewrite Es]. }
    destruct (exec_ok_dec v e) as [Hok|Hno].
    + apply (exec_success_spec s e (cpu_proc s) v HI eq_refl Hv Hf); [done|]. intros s' Hdn. wp_steps. apply Hdone; try done. intros E. by apply Hx.
    + apply (exec_failure_spec s e (cpu_proc s) v HI eq_refl Hv Hf); [|done|]; [intros E; by apply Hno, Hx|]. intros r _. wp_steps. split; [done|by apply appends_refl].
  - unfold sleep_init, set_sl, wq_init, spin_unlock. wp_steps. ks. rewrite (Hh Hm). apply Hrun; try done; [|by ks; rewrite (Hh Hm)|by apply appends_refl]. eapply core_frame; [by apply (core_sleep_init s sl)|done..].
  - destruct He as ((v & Hv & Hp) & Hsl). unfold sleep_lock. wp_steps. apply wp_irqsave; [rewrite Hh by done; apply not_elem_of_nil|]. rewrite Hh by done.
    eapply wp_mono; [apply (sleep_lock_iter_spec sl (sie s) (set_held [SleepLk sl] (set_sie false s)) (cpu_proc s) v); try done; eapply core_frame; [exact HI|done..]|].
    intros r s' [Ho H]. wp_steps. split; [done|]. exact (appends_sleep_lock _ _ _ _ _ _ _ Ho).
  - eapply wp_mono; [by apply sleep_unlock_spec; [|apply Hh|]|]. intros [] s' Hw. destruct (woke_first_keeps _ _ _ Hw) as (E1 & E2 & E3 & E4 & E5 & _). apply Hrun; try done; [|exact (appends_woke _ _ _ Hw)]. eapply core_woke_first; [|exact Hw]. by apply core_set_sl.
  - unfold wq_init. wp_steps. apply Hrun; try done; [by apply core_new_wq|by apply appends_refl].
  - destruct He as ((v & Hv & Hp) & [l Hl]). pose proof (on_cpu_running s Hm) as Hc. pose proof (not_null s HI _ v Hv) as Hn. wp_steps. apply wp_irqsave; [rewrite Hh by done; apply not_elem_of_nil|]. rewrite Hh by done.
    set (s1 := set_held [OtherLock a] (set_sie false s)). assert (core_inv s1) as HI1 by (eapply core_frame; [exact HI|done..]).
    eapply (wq_sleep_spec s1 (cpu_proc s) v); try done; [by repeat constructor|]. split; [|by apply appends_refl]. split.
    + eapply core_frame; [apply (core_parked s1 HI1 (cpu_proc s) v Hv Hc (OtherWq a) l (OtherLock a) (InOther (sie s)) Hl); [by exists a|done]|done..].
    + apply (hart_switched _ (cpu_proc s)); done.
  - wp_steps. eapply wp_mono; [apply wake_one_rel; [done|rewrite Hh by done; constructor|done]|]. intros r s' Hw. cbv beta in Hw. wp_steps. destruct (woke_first_keeps _ _ _ Hw) as (E1 & E2 & E3 & E4 & E5 & _).
    apply Hrun; try done; [by eapply core_woke_first|by eapply appends_woke].
  - destruct He as [l Hl]. eapply wake_all_spec; [done|rewrite Hh by done; constructor|done|]. intros HI'. destruct (woken_all_keeps l s) as (E1 & E2 & E3 & _). apply Hrun; try done; [apply woken_all_sched|apply appends_woken_all].
Qed.

Lemma run_op_preserves o s : proc_inv s -> ~ doomed s -> enabled o s -> wp (run_op o) (fun _ s' => proc_inv s' /\ fifo o s s') s.
Proof.
  intros HP Hd He. destruct (decide (o = OSched)) as [->|Hne].
  - destruct He as [Hm _]. destruct (scheduler_spec s HP Hm) as (p & rq & v & Hrq & _ & _ & E & HP'). by eapply wp_intro.
  - eapply wp_mono; [by apply run_op_follows|]. intros [] s' [HP' Ha]. split; [done|]. by destruct o.
Qed.

(** * The start *)

(** The zero-initialised globals, with the hart in [kmain]. *)
Definition kernel_zero : kst :=
  mk_kst ∅ [] [] ∅ [] ∅ ∅ 0 NULL NULL false NULL Switched [] false 0 0 [] (fun _ _ => 0).
Definition boot (obj0 stack0 obj1 stack1 : Z) : M kst unit := proc_init;; proc_bootstrap obj0 stack0 obj1 stack1.

(** Results of the four allocations: non-NULL, and distinct objects and pages. *)
Definition boot_results (obj0 stack0 obj1 stack1 : Z) : Prop :=
  obj0 <> NULL /\ stack0 <> NULL /\ obj1 <> NULL /\ stack1 <> NULL /\ obj0 <> obj1 /\ stack0 <> stack1.

Definition empty_table : gmap Z (list Z) := list_to_map (map (fun i => (Z.of_nat i, [])) (seq 0 (Z.to_nat (HT_SIZE PID_HASH_BITS)))).
Lemma empty_table_lookup b l : empty_table !! b = Some l -> l = [].
Proof.
  unfold empty_table. intros H%elem_of_list_to_map_2. apply list_elem_of_fmap in H as (i & [= _ ->] & _). done.
Qed.
Lemma empty_table_buckets b : 0 <= b < HT_SIZE PID_HASH_BITS -> empty_table !! b = Some [].
Proof.
  intros Hb. unfold empty_table. apply elem_of_list_to_map_1.
  - rewrite <- list_fmap_compose. apply NoDup_fmap_2; [|apply NoDup_seq]. intros i j. cbn. lia.
  - apply list_elem_of_fmap. exists (Z.to_nat b). split; [f_equal; lia|]. apply elem_of_seq. lia.
Qed.
Lemma pid_ok_empty : pid_ok ∅ empty_table 0.
Proof.
  split.
  - intros p n. by rewrite lookup_empty.
  - intros p q n. by rewrite lookup_empty.
  - intros b Hb. rewrite empty_table_buckets by done. eauto.
  - intros b l ->%empty_table_lookup. constructor.
  - intros b l p ->%empty_table_lookup. rewrite lookup_empty, elem_of_nil. naive_solver.
Qed.

Section boot.
Context (o0 k0 o1 k1 : Z) (Hr : boot_results o0 k0 o1 k1).
Let idle := mk_proc 0 "idle" PROC_RUNNABLE NULL [] (AtStart idle_thread) k0 NULL NULL false 0 0.
Let init := mk_proc 1 "init" PROC_RUNNABLE NULL [] (AtStart init_start) k1 NULL NULL false 0 0.

Definition booted : kst :=
  mk_kst (<[o1 := init]> (<[o0 := idle]> ∅)) [o0; o1] [o0; o1] (<[pid_bucket 1 := [o1]]> (<[pid_bucket 0 := [o0]]> empty_table)) []
    (<[ChildWq o1 := []]> (<[ChildWq o0 := []]> ∅)) ∅ 2 o1 NULL false NULL Switched [] false 0 0 [RPage k1; RObj o1; RPage k0; RObj o0] (fun _ _ => 0).

Lemma create_kernel_spec s fn nm c ks l (Q : Z -> kst -> Prop) : c <> NULL -> ks <> NULL -> held s = [] -> 0 <= next_pid s < INT_MAX -> unused s c -> (RPage ks ∉ owned s) ->
  procs s !! NULL = None -> init_proc s = NULL -> (c ∉ all_procs s) -> (c ∉ run_queue s) -> on_some c (pid_table s) = false -> pid_table s !! pid_bucket (next_pid s) = Some l ->
  Q c (set_all_procs (all_procs s ++ [c]) (set_run_queue (run_queue s ++ [c]) (set_pid_table (<[pid_bucket (next_pid s) := c :: l]> (pid_table s)) (created s fn nm c ks)))) ->
  wp (proc_create_kernel fn nm c ks) Q s.
Proof using Type.
  intros Hc Hks Hh Hn Hu Hk Hnull Hi Ha Hrq Ht Hb HQ. unfold proc_create_kernel. wp_steps. apply proc_create_spec; try done; [rewrite Hh; apply not_elem_of_nil|lia|by left|].
  intros _ _. destruct (Z.eqb_spec c NULL) as [|_]; [done|]. wp_steps.
  eapply (publish_spec _ c (new_proc s fn nm ks) l); [cbn; by rewrite lookup_insert_eq|done|done|done|cbn; rewrite Hh; apply not_elem_of_nil|done|done|]. wp_steps. exact HQ.
Qed.

Lemma boot_runs : boot o0 k0 o1 k1 kernel_zero = Ok (tt, booted).
Proof using Hr.
  destruct Hr as (Ho0 & Hk0 & Ho1 & Hk1 & Hoo & Hkk).
  enough (wp (boot o0 k0 o1 k1) (fun _ s' => s' = booted) kernel_zero) as Hw by (apply wp_elim in Hw as ([] & s' & E & ->); done).
  unfold boot, proc_init, proc_bootstrap. wp_steps. change (list_to_map _) with empty_table. ks.
  assert (0 <= pid_bucket 0 < HT_SIZE PID_HASH_BITS /\ 0 <= pid_bucket 1 < HT_SIZE PID_HASH_BITS) as [Hb0 Hb1] by (split; by apply hash_index_range).
  assert (forall x, on_some x empty_table = false) as Hoff by (intros x; apply on_some_false; intros k l ->%empty_table_lookup; apply not_elem_of_nil).
  eapply (create_kernel_spec _ _ _ o0 k0 []); [done|done|done|by vm_compute|split; cbn; [done|done|by intros q v|done|apply not_elem_of_nil]|apply not_elem_of_nil|done|done|apply not_elem_of_nil|apply not_elem_of_nil|by apply Hoff|by apply empty_table_buckets|].
  wp_steps. unfold created, linked, new_proc. cbn [procs init_proc kernel_zero set_cpu_proc set_pid_table set_need_resched set_held]. rewrite lookup_empty. ks.
  set (t0 := <[_ := _]> _). assert (t0 !! pid_bucket 1 = Some []) as Hl1.
  { unfold t0. rewrite lookup_insert_ne by (intros E; vm_compute in E; discriminate). by apply empty_table_buckets. }
  assert (on_some o1 t0 = false) as Hoff1.
  { apply on_some_false. intros b l. unfold t0. cbn. rewrite lookup_insert. case_decide; [intros [= <-]; rewrite list_elem_of_singleton; congruence|]. intros ->%empty_table_lookup. apply not_elem_of_nil. }
  eapply (create_kernel_spec _ _ _ o1 k1 []); [done|done|done|by vm_compute|..|done|]; cbn.
  - split; cbn; [done|by rewrite lookup_insert_ne|intros q v; rewrite lookup_insert; case_decide; [by intros [= <-]; apply not_elem_of_nil|done]|by rewrite lookup_insert_ne by congruence|rewrite !not_elem_of_cons; split_and!; [done|congruence|apply not_elem_of_nil]].
  - rewrite !not_elem_of_cons; split_and!; [congruence|done|apply not_elem_of_nil].
  - by rewrite lookup_insert_ne.
  - done.
  - rewrite list_elem_of_singleton. congruence.
  - rewrite list_elem_of_singleton. congruence.
  - exact Hoff1.
  - wp_steps. unfold created, linked, new_proc, booted. cbn [procs init_proc kernel_zero set_cpu_proc set_pid_table set_need_resched set_held set_procs set_all_procs set_run_queue set_waitqs set_owned set_next_pid]. rewrite lookup_insert_ne, lookup_empty by done. ks.
    reflexivity.
Qed.

Lemma booted_inv : proc_inv booted.
Proof using Hr.
  destruct Hr as (Ho0 & Hk0 & Ho1 & Hk1 & Hoo & Hkk).
  assert (pid_bucket 0 <> pid_bucket 1) as Hbb by (intros E; vm_compute in E; discriminate).
  assert (0 <= pid_bucket 0 < HT_SIZE PID_HASH_BITS /\ 0 <= pid_bucket 1 < HT_SIZE PID_HASH_BITS) as [Hb0 Hb1] by (split; by apply hash_index_range).
  assert (forall {A} (x : A), <[o0 := x]> (∅ : gmap ptr A) !! o1 = None) as Hn1 by (intros; by rewrite lookup_insert_ne).
  split; [|by split]. unfold booted. split; ks; rewrite ?fmap_insert, ?fmap_empty, ?dom_insert_L, ?dom_empty_L.
  - rewrite NoDup_cons, list_elem_of_singleton. split; [done|apply NoDup_singleton].
  - intros p. rewrite !elem_of_cons, elem_of_nil, !elem_of_union, !elem_of_singleton, elem_of_empty. tauto.
  - by rewrite !lookup_insert_ne, lookup_empty by done.
  - apply (run_ok_new _ [o0] o1 (Hn1 _ _)), (run_ok_new ∅ [] o0); [done|]. split; [constructor|]. intros p. rewrite lookup_empty, elem_of_nil. naive_solver.
  - apply cpu_ok_new; [done|apply Hn1|]. apply cpu_ok_new; [done|done|]. intros p. by rewrite lookup_empty.
  - apply sleep_ok_new; [apply Hn1|by rewrite lookup_insert_ne by congruence|]. apply sleep_ok_new; [done|done|]. split; try done; try constructor; by setoid_rewrite elem_of_nil.
  - constructor.
  - assert (forall p f, <[o1 := fam_of init]> (<[o0 := fam_of idle]> (∅ : gmap ptr fam)) !! p = Some f -> f_children f = [] /\ f_parent f = NULL /\ f_pid f <= 1) as Hf.
    { intros p f. rewrite !lookup_insert. repeat case_decide; (intros [= <-]; cbn; split_and!; try done; lia) || done. }
    split; intros p f; [intros (-> & _)%Hf; constructor|intros c (-> & _)%Hf []%elem_of_nil|intros (_ & -> & _)%Hf; done|intros (_ & -> & ?)%Hf; done].
  - apply (pid_ok_new _ _ 1 o1 []); [apply Hn1|rewrite lookup_insert_ne by done; by apply empty_table_buckets|lia|]. apply (pid_ok_new ∅ _ 0 o0 []); [done|by apply empty_table_buckets|lia|apply pid_ok_empty].
  - apply (own_ok_new _ [RPage k0; RObj o0] o1); [apply Hn1|apply (own_ok_new ∅ [] o0); try done| | |done|unfold resources, init; cbn; solve_Permutation].
    + split; try done; [constructor|]. intros r. rewrite elem_of_nil. split; [done|]. by intros (p & m & Hm & _).
    + intros r _. apply not_elem_of_nil.
    + unfold resources, idle, init. cbn. rewrite !NoDup_cons, !not_elem_of_cons. split_and!; try done; try apply not_elem_of_nil. constructor.
    + unfold resources, idle. cbn. solve_Permutation.
    + intros r. unfold resources, init. cbn. rewrite !elem_of_cons, !elem_of_nil. intros [->|[->|[]]]; intros [E|[E|[]]]; congruence.
    + unfold resources, idle, init. cbn. rewrite !NoDup_cons, !not_elem_of_cons. split_and!; try done; try apply not_elem_of_nil. constructor.
  - apply ctx_ok_upd; try done. apply ctx_ok_upd; try done.
  - apply wq_ok_new; [rewrite elem_of_union, elem_of_singleton, elem_of_empty; naive_solver|]. apply wq_ok_new; [apply not_elem_of_empty|]. split; [|done|]; [intros p; rewrite lookup_empty; split; [by intros []%not_elem_of_empty|by intros [? ?]]|]. intros sl. rewrite lookup_empty. by intros [? ?].
  - assert (forall p i, <[o1 := ids_of init]> (<[o0 := ids_of idle]> (∅ : gmap ptr ids)) !! p = Some i -> i_state i = PROC_RUNNABLE) as Hs.
    { intros p i. rewrite !lookup_insert. repeat case_decide; by intros [= <-]. }
    split.
    + exists o0, (ids_of idle). rewrite lookup_insert_ne, lookup_insert_eq by done. done.
    + intros p i Hi _. left. by eapply Hs.
    + exists (ids_of init). by rewrite lookup_insert_eq.
    + intros p i Hi _. rewrite (Hs p i Hi). done.
  - apply zombie_ok_upd; [|done]. apply zombie_ok_upd; [|done]. intros p z. by rewrite lookup_empty.
  - apply idle_ok_upd; [|done]. apply idle_ok_upd; [|done]. intros p n r. by rewrite lookup_empty.
Qed.
End boot.
