(* ===== verification/ProcThm.v ===== *)
(** The theorems on processes, the scheduler, wait queues and locks. *)
From stdpp Require Import gmap sorting relations.
From S2P Require Import Prelude Layout Hash Proc ProcInv ProcMoves ProcOps ProcSched ProcLife ProcWait ProcFork ProcExec ProcStep.

(** * Runs of the state machine *)
Inductive step (s s' : kst) : Prop :=
| step_op o : enabled o s -> ~ doomed s -> run_op o s = Ok (tt, s') -> step s s'.

Inductive trace : list op -> kst -> kst -> Prop :=
| trace_nil s : trace [] s s
| trace_cons o ops s s1 s2 : enabled o s -> ~ doomed s -> run_op o s = Ok (tt, s1) -> trace ops s1 s2 -> trace (o :: ops) s s2.

Lemma step_inv s s' : proc_inv s -> step s s' -> proc_inv s'.
Proof. intros HP [o He Hd E]. destruct (wp_elim _ _ _ (run_op_preserves o s HP Hd He)) as ([] & s1 & E1 & HP1 & _). congruence. Qed.

(** ** Concrete runs *)
Definition run1 (o : op) (s : kst) : kst := match run_op o s with Ok (_, s') => s' | _ => s end.
Definition runs (ops : list op) (s : kst) : kst := foldl (fun s o => run1 o s) s ops.
Definition booted1 : kst := booted 4096 8192 12288 16384.

Lemma boot_results1 : boot_results 4096 8192 12288 16384.
Proof. by split_and!. Qed.

Lemma trace_step o ops s : proc_inv s -> enabled o s -> ~ doomed s -> (forall s1, proc_inv s1 -> s1 = run1 o s -> trace ops s1 (runs ops s1) /\ proc_inv (runs ops s1)) ->
  trace (o :: ops) s (runs (o :: ops) s) /\ proc_inv (runs (o :: ops) s).
Proof.
  intros HP He Hd Hn. destruct (wp_elim _ _ _ (run_op_preserves o s HP Hd He)) as ([] & s1 & E & HP1 & _).
  assert (s1 = run1 o s) as -> by (unfold run1; by rewrite E). destruct (Hn _ HP1 eq_refl) as [Ht Hi]. split; [|done]. by eapply trace_cons.
Qed.

(** Decides [doomed] on concrete states. *)
Definition doomedb (s : kst) : bool := existsb (fun kv : Z * proc => (pid kv.2 <=? 1) && killed kv.2) (map_to_list (procs s)).
Lemma doomedb_spec s : doomedb s = false -> ~ doomed s.
Proof.
  intros Hb (p & v & Hp & Hi & Hk). apply not_true_iff_false in Hb. apply Hb. unfold doomedb. apply existsb_exists. exists (p, v). split; [by apply list_elem_of_In, elem_of_map_to_list|]. cbn. rewrite Hk, andb_true_r. by apply Z.leb_le.
Qed.

Definition exec1 : exec_env := mk_exec_env 20480 true 24576 true 0 0x3fffffd000 0x1000 "init" 1 2.
Definition fork1 : fork_env := mk_fork_env 32768 36864 40960 45056 true 1 2.

(** Boot, then dispatch idle, which yields to init; init execs. *)
Definition to_init : list op := [OSched; OResume; OYield; OSched; OResume; OExec exec1].
Definition s_init : kst := runs to_init booted1.
(** init forks PID 2 and yields; after idle, PID 2 is dispatched. *)
Definition to_fork : list op := [OFork fork1; OYield; OSched; OResume; OYield; OSched; OResume].
Definition s_child : kst := runs to_fork s_init.

(** The obligations of a concrete operation are decided by evaluation. *)
Ltac decide_it := apply (bool_decide_unpack _); vm_compute; exact I.
Ltac cur_tac := eexists; split; [vm_compute; reflexivity|].
Ltac run_step := apply trace_step; [assumption|split; [vm_compute; reflexivity|try exact I]|apply doomedb_spec; vm_compute; reflexivity|].

Lemma s_init_run : trace to_init booted1 s_init /\ proc_inv s_init.
Proof.
  pose proof (booted_inv _ _ _ _ boot_results1) as H0. fold booted1 in H0. unfold s_init, to_init.
  run_step. intros s1 H1 ->. run_step. intros s2 H2 ->. run_step. intros s3 H3 ->. run_step. intros s4 H4 ->. run_step. intros s5 H5 ->.
  run_step; [|intros s6 H6 _; split; [constructor|exact H6]]. split; [cur_tac; intros _; split; [reflexivity|by split_and!]|].
  split; [intros _; decide_it|intros _; split; decide_it].
Qed.

Lemma s_child_run : trace to_fork s_init s_child /\ proc_inv s_child.
Proof.
  pose proof (proj2 s_init_run) as H0. unfold s_child, to_fork.
  run_step; [split; [cur_tac; by vm_compute|]; split; [|by vm_compute]; split; intros _; [decide_it|decide_it|split; [decide_it|done]|split; decide_it]|]. intros s1 H1 ->.
  run_step. intros s2 H2 ->. run_step. intros s3 H3 ->. run_step. intros s4 H4 ->. run_step. intros s5 H5 ->. run_step. intros s6 H6 ->. run_step. intros s7 H7 _. split; [constructor|exact H7].
Qed.

Lemma trace_rtc ops s s' : trace ops s s' -> rtc step s s'.
Proof. induction 1 as [s|o ops s s1 s2 He Hd E _ IH]; [done|]. eapply rtc_l; [by eapply step_op|done]. Qed.

(** * Boot and safety *)

(** proc_init and proc_bootstrap, given the results of the four allocations
    they make, build the initial state: idle with PID 0 and init with PID 1, both
    runnable in that order, entered in the PID table, and the invariant of the
    process subsystem holds of it. *)
Lemma boot_establishes obj0 stack0 obj1 stack1 : boot_results obj0 stack0 obj1 stack1 ->
  exists s, boot obj0 stack0 obj1 stack1 kernel_zero = Ok (tt, s) /\ proc_inv s /\ ~ doomed s /\ run_queue s = [obj0; obj1] /\ init_proc s = obj1 /\ next_pid s = 2 /\
    pid_lookup 0 s = Ok (obj0, s) /\ pid_lookup 1 s = Ok (obj1, s).
Proof.
  intros Hr. exists (booted obj0 stack0 obj1 stack1). pose proof (booted_inv _ _ _ _ Hr) as HP. split_and!; try done; [by apply boot_runs|..].
  - intros (p & v & Hp & _ & Hk). cbn in Hp. rewrite !lookup_insert in Hp. repeat case_decide; try (injection Hp as <-; done). done.
  - destruct Hr as (H0 & _ & H1 & _ & Hne & _). enough (wp (pid_lookup 0) (fun r s' => r = obj0 /\ s' = booted obj0 stack0 obj1 stack1) (booted obj0 stack0 obj1 stack1)) as Hw by (apply wp_elim in Hw as (r & s' & E & -> & ->); done).
    apply pid_lookup_spec; [apply HP| |].
    + intros p v Hp Hv _. split; [|done]. cbn in Hp. rewrite !lookup_insert in Hp. repeat case_decide; try (injection Hp as <-); try done.
    + intros Hno. exfalso. eapply (Hno obj0); [cbn; rewrite lookup_insert_ne, lookup_insert_eq by done; reflexivity|done].
  - destruct Hr as (H0 & _ & H1 & _ & Hne & _). enough (wp (pid_lookup 1) (fun r s' => r = obj1 /\ s' = booted obj0 stack0 obj1 stack1) (booted obj0 stack0 obj1 stack1)) as Hw by (apply wp_elim in Hw as (r & s' & E & -> & ->); done).
    apply pid_lookup_spec; [apply HP| |].
    + intros p v Hp Hv _. split; [|done]. cbn in Hp. rewrite !lookup_insert in Hp. repeat case_decide; try (injection Hp as <-); try done.
    + intros Hno. exfalso. eapply (Hno obj1); [cbn; rewrite lookup_insert_eq; reflexivity|done].
Qed.




(** * The scheduler *)
Definition is_sched (o : op) : bool := match o with OSched => true | _ => false end.
Definition switches (ops : list op) : nat := length (filter (fun o => is_sched o = true) ops).

Lemma switches_cons o ops : switches (o :: ops) = ((if is_sched o then 1 else 0) + switches ops)%nat.
Proof. unfold switches. rewrite filter_cons. destruct (is_sched o); case_decide; try done; congruence. Qed.

(** C17: the scheduler is first in, first out, so that waiting is bounded: a process
    with i processes before it in the run queue is the one dispatched by the
    (i+1)-th switch from then on, whatever operations happen in between. *)
Theorem bounded_waiting ops s s' p i : proc_inv s -> trace ops s s' -> run_queue s !! i = Some p -> (i < switches ops)%nat ->
  exists ops1 ops2 s1, ops = ops1 ++ OSched :: ops2 /\ switches ops1 = i /\ trace (ops1 ++ [OSched]) s s1 /\ cpu_proc s1 = p /\ mode s1 = Dispatched.
Proof.
  intros HP Ht. revert HP i. induction Ht as [s|o ops s s1 s2 He Hd E Ht IH]; intros HP i Hi Hn; [cbn in Hn; lia|]. rewrite switches_cons in Hn.
  destruct (wp_elim _ _ _ (run_op_preserves o s HP Hd He)) as ([] & s1' & E' & HP1 & Hf). assert (s1' = s1) as -> by congruence.
  destruct (decide (o = OSched)) as [->|Hne].
  - cbn [fifo] in Hf. destruct i as [|i].
    + rewrite Hf in Hi. injection Hi as Hi. exists [], ops, s1. split_and!; [done|done|eapply trace_cons; [done..|constructor]|done|].
      destruct He as [Hm _]. destruct (scheduler_spec s HP Hm) as (q & rq & v & _ & _ & _ & E2 & _). cbn in E. rewrite E2 in E. injection E as <-. done.
    + rewrite Hf in Hi. cbn in Hi. destruct (IH HP1 i Hi ltac:(cbn in Hn; lia)) as (ops1 & ops2 & s3 & -> & Hsw & Htr & Hc & Hm).
      exists (OSched :: ops1), ops2, s3. split_and!; [done|rewrite switches_cons; cbn; lia|by eapply trace_cons|done|done].
  - assert (run_queue s1 !! i = Some p) as Hi1 by (eapply prefix_lookup_Some; [exact Hi|]; by destruct o).
    assert (is_sched o = false) as Es by by destruct o. rewrite Es in Hn.
    destruct (IH HP1 i Hi1 ltac:(lia)) as (ops1 & ops2 & s3 & -> & Hsw & Htr & Hc & Hm).
    exists (o :: ops1), ops2, s3. split_and!; [done|by rewrite switches_cons, Es|by eapply trace_cons|done|done].
Qed.

Lemma bounded_waiting_witness : exists ops1 ops2 s1, to_fork = ops1 ++ OSched :: ops2 /\ switches ops1 = 0%nat /\ trace (ops1 ++ [OSched]) s_init s1 /\ cpu_proc s1 = 4096 /\ mode s1 = Dispatched.
Proof.
  apply (bounded_waiting to_fork s_init s_child 4096 0 (proj2 s_init_run) (proj1 s_child_run)); [vm_compute; reflexivity|vm_compute; apply le_S, le_n].
Defined.
