(* ===== verification/LifeThm.v ===== *)
(** The theorems on wakeups, timed sleep, and the life of a process: exit, wait,
    kill, fork, exec, and sleep-locks. *)
From stdpp Require Import gmap sorting relations.
From S2P Require Import Prelude Layout Hash Proc ProcInv ProcMoves ProcOps ProcSched ProcLife ProcWait ProcFork ProcExec ProcStep ProcThm.

(** * Wakeups *)

(** [l] without the members of [rs]. *)
Definition minus (rs l : list ptr) : list ptr := filter (fun p => p ∉ rs) l.
Lemma minus_nil l : minus [] l = l.
Proof. unfold minus. induction l as [|x l IH]; [done|]. rewrite filter_cons, decide_True by apply not_elem_of_nil. by rewrite IH. Qed.
Lemma minus_cons p rs l : minus (p :: rs) l = minus rs (without p l).
Proof.
  unfold minus, without. induction l as [|x l IH]; [done|]. rewrite !filter_cons. destruct (decide (x = p)) as [->|Hne].
  - rewrite decide_False by (rewrite not_elem_of_cons; naive_solver). rewrite (decide_False (P := p <> p)) by naive_solver. done.
  - rewrite (decide_True (P := x <> p)) by done. rewrite filter_cons. destruct (decide (x ∉ rs)) as [Hx|Hx]; [rewrite decide_True by (by apply not_elem_of_cons)|rewrite decide_False by (rewrite not_elem_of_cons; tauto)]; by rewrite IH.
Qed.
Lemma minus_id rs l : (forall p, p ∈ rs -> p ∉ l) -> minus rs l = l.
Proof.
  revert l. induction rs as [|p rs IH]; intros l H; [apply minus_nil|]. rewrite minus_cons, without_id by (apply H; by left). apply IH. intros q Hq. apply H. by right.
Qed.
Lemma minus_all l : minus l l = [].
Proof. destruct (minus l l) as [|x k] eqn:E; [done|]. assert (x ∈ minus l l) as Hx by (rewrite E; by left). unfold minus in Hx. apply list_elem_of_filter in Hx. tauto. Qed.

Definition runnable (v : proc) : proc := set_pstate PROC_RUNNABLE v.

(** Waking a list of sleepers, in order. *)
Lemma woken_all_spec : forall l s, core_inv s -> NoDup l -> (forall p, p ∈ l -> exists v, procs s !! p = Some v /\ pstate v = PROC_SLEEPING) ->
  let s' := woken_all l s in
  core_inv s' /\ run_queue s' = run_queue s ++ l /\ tsleep_list s' = minus l (tsleep_list s) /\ waitqs s' = minus l <$> waitqs s /\
  (forall p v, procs s !! p = Some v -> procs s' !! p = Some (if decide (p ∈ l) then runnable v else v)) /\ (forall p, procs s !! p = None -> procs s' !! p = None).
Proof.
  induction l as [|q l IH]; intros s HI Hnd Hs s'.
  - unfold s'. cbn. rewrite app_nil_r, minus_nil. split_and!; try done.
    + apply map_eq. intros w. rewrite lookup_fmap. destruct (waitqs s !! w); cbn; [by rewrite minus_nil|done].
  - apply NoDup_cons in Hnd as [Hql Hnd]. destruct (Hs q ltac:(by left)) as (u & Hu & Hsu). unfold s'. cbn [woken_all]. rewrite Hu.
    destruct (IH (woken q u s)) as (H1 & H2 & H3 & H4 & H5 & H6); [by apply core_woken|done| |].
    { intros p Hp. destruct (Hs p ltac:(by right)) as (v & Hv & Hsv). exists v. cbn. rewrite lookup_insert_ne by (by intros ->). done. }
    split_and!; [done| | | | |].
    + rewrite H2. cbn. by rewrite <- app_assoc.
    + rewrite H3. cbn. by rewrite minus_cons.
    + rewrite H4. cbn. rewrite <- map_fmap_compose. apply map_fmap_ext. intros w k _. cbn. by rewrite minus_cons.
    + intros p v Hp. destruct (decide (p = q)) as [->|Hpq].
      * assert (v = u) as -> by congruence. rewrite (H5 q (runnable u)) by (cbn; by rewrite lookup_insert_eq). rewrite decide_False, decide_True by (done || by left). done.
      * rewrite (H5 p v) by (cbn; by rewrite lookup_insert_ne). f_equal. destruct (decide (p ∈ l)); [rewrite decide_True by by right|rewrite decide_False by (by apply not_elem_of_cons)]; done.
    + intros p Hp. apply H6. cbn. rewrite lookup_insert_ne; [done|]. intros ->. congruence.
Qed.

Lemma queue_sleeps s w l : core_inv s -> waitqs s !! w = Some l -> NoDup l /\ forall p, p ∈ l -> exists v, procs s !! p = Some v /\ pstate v = PROC_SLEEPING.
Proof.
  intros HI Hw. split; [by eapply (sp_wq_nodup _ _ _ (in_sleep s HI))|]. intros p Hp. apply (sleeping_proc s p HI). right. apply on_some_spec. eauto.
Qed.

(** Only the processes of [l] changed, from sleeping to runnable, and joined the
    run queue in this order; [w] lost them, no other list did. *)
Record woke (l : list ptr) (s s' : kst) : Prop := {
  wo_run : run_queue s' = run_queue s ++ l;
  wo_procs : forall p v, procs s !! p = Some v -> procs s' !! p = Some (if decide (p ∈ l) then runnable v else v);
  wo_inv : proc_inv s'
}.

(** wq_wake_all makes all the waiters of the queue runnable, in the order in
    which they went to sleep, and leaves the queue empty; wq_wake_one does so with
    the first waiter and reports whether there was one; sleepers elsewhere sleep on. *)
Lemma wakeup_correct s w l : proc_inv s -> mode s = Running -> waitqs s !! w = Some l ->
  (exists s', wq_wake_all w s = Ok (tt, s') /\ woke l s s' /\ waitqs s' !! w = Some [] /\ tsleep_list s' = tsleep_list s /\ forall w' k, w' <> w -> waitqs s !! w' = Some k -> waitqs s' !! w' = Some k) /\
  match l with
  | [] => wq_wake_one w s = Ok (0, s)
  | p :: l' => exists s', wq_wake_one w s = Ok (1, s') /\ woke [p] s s' /\ waitqs s' !! w = Some l' /\ tsleep_list s' = tsleep_list s /\ forall w' k, w' <> w -> waitqs s !! w' = Some k -> waitqs s' !! w' = Some k
  end.
Proof.
  intros HP Hm Hw. pose proof HP as [HI [Hsp _ _]]. pose proof (running_held s HP Hm) as Hh. assert (outer (held s)) as Ho by (rewrite Hh; constructor).
  destruct (queue_sleeps s w l HI Hw) as [Hnd Hsl].
  assert (forall rs, (forall p, p ∈ rs -> p ∈ l) -> NoDup rs -> woke rs s (woken_all rs s) /\ waitqs (woken_all rs s) !! w = Some (minus rs l) /\ tsleep_list (woken_all rs s) = tsleep_list s /\
    forall w' k, w' <> w -> waitqs s !! w' = Some k -> waitqs (woken_all rs s) !! w' = Some k) as Hgen.
  { intros rs Hrs Hnr. destruct (woken_all_spec rs s HI Hnr) as (H1 & H2 & H3 & H4 & H5 & _); [intros p Hp; by apply Hsl, Hrs|]. destruct (woken_all_keeps rs s) as (K1 & K2 & K3 & _). split_and!.
    - split; [done|done|]. eapply inv_running; try done. apply woken_all_sched.
    - by rewrite H4, lookup_fmap, Hw.
    - rewrite H3. apply minus_id. intros p Hp. eapply (sp_ts_wq _ _ _ (in_sleep s HI)); [exact Hw|by apply Hrs].
    - intros w' k Hne Hk. rewrite H4, lookup_fmap, Hk. cbn. f_equal. apply minus_id. intros p Hp Hin. apply Hne. by eapply (sp_one_wq _ _ _ (in_sleep s HI)); [exact Hk|exact Hw|exact Hin|apply Hrs]. }
  split.
  - destruct (Hgen l ltac:(done) Hnd) as (G1 & G2 & G3 & G4). rewrite minus_all in G2. exists (woken_all l s). split_and!; try done.
    enough (wp (wq_wake_all w) (fun _ s' => s' = woken_all l s) s) as Hq by (apply wp_elim in Hq as ([] & s' & E & ->); done). by eapply wake_all_spec.
  - destruct l as [|p l'].
    + enough (wp (wq_wake_one w) (fun r s' => r = 0 /\ s' = s) s) as Hq by (apply wp_elim in Hq as (r & s' & E & -> & ->); done). by eapply wake_one_spec.
    + apply NoDup_cons in Hnd as [Hpl Hnd]. destruct (Hgen [p]) as (G1 & G2 & G3 & G4); [intros q ->%list_elem_of_singleton; by left|apply NoDup_singleton|].
      destruct (Hsl p ltac:(by left)) as (v & Hv & _). cbn [woken_all] in *. rewrite Hv in *. exists (woken p v s).
      rewrite minus_cons, minus_nil, without_cons_eq, without_id in G2 by done. split_and!; try done.
      enough (wp (wq_wake_one w) (fun r s' => r = 1 /\ s' = woken p v s) s) as Hq by (apply wp_elim in Hq as (r & s' & E & -> & ->); done).
      eapply wake_one_spec; [done|done|done|done|]. intros q k u [= <- <-] Hq _. split; [done|]. congruence.
Qed.

(** PID 2 sleeps on a wait queue; init runs. *)
Definition to_waiting : list op := [OWqInit 7; OWqSleep 7; OSched; OResume].
Definition s_waiting : kst := runs to_waiting s_child.
Lemma s_waiting_run : trace to_waiting s_child s_waiting /\ proc_inv s_waiting.
Proof.
  pose proof (proj2 s_child_run) as H0. unfold s_waiting, to_waiting. run_step; [left; vm_compute; reflexivity|]. intros s1 H1 ->.
  run_step; [split; [cur_tac; by vm_compute|vm_compute; eauto]|]. intros s2 H2 ->. run_step. intros s3 H3 ->. run_step. intros s4 H4 _. split; [constructor|exact H4].
Qed.


(** * Timed sleep *)
Lemma expired_filter T now l : sorted_ok T l -> expired T now l = filter (fun p => deadline T p <= now) l.
Proof.
  unfold sorted_ok. induction 1 as [|p l Hs IH Hf]; [done|]. cbn [expired]. rewrite filter_cons. destruct (Z.ltb_spec now (deadline T p)) as [Hlt|Hge].
  - rewrite decide_False by lia. symmetry. destruct (filter _ l) as [|x k] eqn:E; [done|]. assert (x ∈ filter (fun p => deadline T p <= now) l) as Hx by (rewrite E; by left).
    apply list_elem_of_filter in Hx as [Hx1 Hx2]. rewrite Forall_forall in Hf. specialize (Hf x Hx2). lia.
  - rewrite decide_True by lia. by rewrite IH.
Qed.
Lemma minus_filter (f : ptr -> Prop) `{forall p, Decision (f p)} l : minus (filter f l) l = filter (fun p => ~ f p) l.
Proof.
  unfold minus. assert (forall k : list ptr, (forall p, p ∈ k -> p ∈ l) -> filter (fun p => p ∉ filter f l) k = filter (fun p => ~ f p) k) as Hk; [|by apply Hk].
  induction k as [|x k IH]; intros Hk; [done|]. rewrite !filter_cons, IH by (intros p Hp; apply Hk; by right).
  assert (x ∉ filter f l <-> ~ f x) as Hx by (rewrite list_elem_of_filter; specialize (Hk x (list_elem_of_here _ _)); tauto). destruct (decide (x ∉ filter f l)), (decide (~ f x)); tauto.
Qed.

(** sys_sleep computes its deadline without overflow (the argument is clamped
    to an hour), puts the caller to sleep in a list that stays sorted by deadline
    and switches away; a timer tick wakes exactly the sleepers whose deadline has
    passed, in order of their deadlines, and no others. *)
Lemma timed_sleep_correct s ms v : proc_inv s -> mode s = Running -> procs s !! cpu_proc s = Some v -> pid v <> 0 -> 0 <= ms < 2 ^ 64 -> 0 <= mtime s < 2 ^ 63 ->
  (exists s' v', sys_sleep ms s = Ok (tt, s') /\ proc_inv s' /\ mode s' = Switched /\ procs s' !! cpu_proc s = Some v' /\ pstate v' = PROC_SLEEPING /\
     wake_time v' = mtime s + 10000 * Z.min ms 3600000 /\ tsleep_list s' ≡ₚ cpu_proc s :: tsleep_list s) /\
  (exists s', wake_expired_sleepers s = Ok (tt, s') /\
     woke (filter (fun p => deadline (wake_time <$> procs s) p <= mtime s) (tsleep_list s)) s s' /\
     tsleep_list s' = filter (fun p => ~ deadline (wake_time <$> procs s) p <= mtime s) (tsleep_list s)).
Proof.
  intros HP Hm Hv Hp Hms Hnow. pose proof HP as [HI [Hsp _ _]]. pose proof (running_held s HP Hm) as Hh. split.
  - pose proof (on_cpu_running s Hm) as Hc. pose proof (not_null s HI _ v Hv) as Hn. pose proof (cpu_running s HI _ v Hv Hc) as Hr. destruct (not_asleep s HI _ v Hv ltac:(by rewrite Hr)) as [Hts _].
    set (ts' := insert_by (wake_time <$> procs s) (cpu_proc s) (sleep_until (mtime s) ms) (tsleep_list s)).
    set (s' := set_held [ProcLock (cpu_proc s)] (set_sie false (timed s (cpu_proc s) v (sleep_until (mtime s) ms) ts' (sie s)))).
    assert (sleep_until (mtime s) ms = mtime s + 10000 * Z.min ms 3600000) as Hwt.
    { unfold sleep_until, MS_TO_MTIME, SLEEP_MS_MAX. change (MTIME_FREQ / 1000) with 10000. change (60 * 60 * 1000) with 3600000.
      replace (if ms <? 3600000 then ms else 3600000) with (Z.min ms 3600000) by (destruct (Z.ltb_spec ms 3600000); lia). rewrite (u64_small (_ * _)) by lia. rewrite u64_small by lia. lia. }
    exists s', (set_context (InSysSleep (sie s)) (set_pstate PROC_SLEEPING (set_wake_time (sleep_until (mtime s) ms) v))). split_and!.
    + enough (wp (sys_sleep ms) (fun _ s1 => s1 = s') s) as Hw by (apply wp_elim in Hw as ([] & s1 & E & ->); done). by apply (sys_sleep_spec s (cpu_proc s) v ms).
    + split; [|by apply (hart_switched _ (cpu_proc s))]. eapply core_frame; [apply (core_timed s HI (cpu_proc s) v Hv Hc (sleep_until (mtime s) ms) ts' (sie s)); [apply insert_by_perm|by apply insert_by_sorted; [|apply in_sorted]|done]|done..].
    + done.
    + cbn. by rewrite lookup_insert_eq.
    + done.
    + exact Hwt.
    + apply insert_by_perm.
  - set (T := wake_time <$> procs s). pose proof (expired_filter T (mtime s) (tsleep_list s) (in_sorted s HI)) as He. set (ws := filter _ _) in *.
    assert (NoDup ws) as Hnd by apply NoDup_filter, (sp_ts_nodup _ _ _ (in_sleep s HI)).
    destruct (woken_all_spec ws s HI Hnd) as (H1 & H2 & H3 & H4 & H5 & _); [intros p [_ Hin]%list_elem_of_filter; apply (sleeping_proc s p HI); by left|].
    destruct (woken_all_keeps ws s) as (K1 & K2 & K3 & _). exists (woken_all ws s). split_and!.
    + enough (wp wake_expired_sleepers (fun _ s1 => s1 = woken_all ws s) s) as Hw by (apply wp_elim in Hw as ([] & s1 & E & ->); done). apply wake_expired_spec; [done|done|]. fold T. by rewrite He.
    + split; [done|done|]. eapply inv_running; try done. apply woken_all_sched.
    + rewrite H3. apply minus_filter.
Qed.


(** C18: wq_wake_all makes all the waiters of the queue runnable, in the order in
    which they went to sleep, and leaves the queue empty; wq_wake_one does so with
    the first waiter and reports whether there was one; sleepers elsewhere sleep on.
    sys_sleep computes its deadline without overflow (the argument is clamped
    to an hour), puts the caller to sleep in a list that stays sorted by deadline
    and switches away; a timer tick wakes exactly the sleepers whose deadline has
    passed, in order of their deadlines, and no others. *)
Theorem waking_correct s : proc_inv s -> mode s = Running ->
  (forall w l, waitqs s !! w = Some l ->
  (exists s', wq_wake_all w s = Ok (tt, s') /\ woke l s s' /\ waitqs s' !! w = Some [] /\ tsleep_list s' = tsleep_list s /\ forall w' k, w' <> w -> waitqs s !! w' = Some k -> waitqs s' !! w' = Some k) /\
  match l with
  | [] => wq_wake_one w s = Ok (0, s)
  | p :: l' => exists s', wq_wake_one w s = Ok (1, s') /\ woke [p] s s' /\ waitqs s' !! w = Some l' /\ tsleep_list s' = tsleep_list s /\ forall w' k, w' <> w -> waitqs s !! w' = Some k -> waitqs s' !! w' = Some k
  end) /\
  (forall ms v, procs s !! cpu_proc s = Some v -> pid v <> 0 -> 0 <= ms < 2 ^ 64 -> 0 <= mtime s < 2 ^ 63 ->
  (exists s' v', sys_sleep ms s = Ok (tt, s') /\ proc_inv s' /\ mode s' = Switched /\ procs s' !! cpu_proc s = Some v' /\ pstate v' = PROC_SLEEPING /\
     wake_time v' = mtime s + 10000 * Z.min ms 3600000 /\ tsleep_list s' ≡ₚ cpu_proc s :: tsleep_list s) /\
  (exists s', wake_expired_sleepers s = Ok (tt, s') /\
     woke (filter (fun p => deadline (wake_time <$> procs s) p <= mtime s) (tsleep_list s)) s s' /\
     tsleep_list s' = filter (fun p => ~ deadline (wake_time <$> procs s) p <= mtime s) (tsleep_list s))).
Proof. intros HP Hm. split; intros; [by apply wakeup_correct|by eapply timed_sleep_correct]. Qed.

Lemma waking_correct_witness : (exists s', wq_wake_one (OtherWq 7) s_waiting = Ok (1, s') /\ woke [32768] s_waiting s' /\ waitqs s' !! OtherWq 7 = Some []) /\
  exists s' v', sys_sleep 5 s_waiting = Ok (tt, s') /\ procs s' !! cpu_proc s_waiting = Some v' /\ wake_time v' = 50000.
Proof.
  destruct (waking_correct s_waiting (proj2 s_waiting_run)) as [H1 H2]; [vm_compute; reflexivity|]. split.
  - destruct (H1 (OtherWq 7) [32768]) as [_ (s' & E & Hw & Hq & _)]; [vm_compute; reflexivity|]. exists s'. split; [exact E|]. split; [exact Hw|exact Hq].
  - destruct (procs s_waiting !! cpu_proc s_waiting) as [v|] eqn:Hv; [|vm_compute in Hv; discriminate].
    destruct (H2 5 v) as [(s' & v' & E & _ & _ & Hv' & _ & Hw & _) _];
      [reflexivity|vm_compute in Hv; injection Hv as <-; discriminate|lia|vm_compute; split; [discriminate|reflexivity]|].
    exists s', v'. split; [exact E|]. split; [exact Hv'|]. rewrite Hw. vm_compute. reflexivity.
Defined.

(** * Exit *)
Lemma moved_parent c new P q v : moved c new P !! q = Some v -> exists v0, P !! q = Some v0 /\ parent v = if decide (q = c) then new else parent v0.
Proof. rewrite moved_lookup. destruct (P !! q) as [v0|]; [|done]. intros [= <-]. exists v0. split; [done|]. unfold move_fn. cbn. by destruct (decide (q = c)). Qed.
Lemma moved_all_parent new : forall l P q v, moved_all l new P !! q = Some v -> exists v0, P !! q = Some v0 /\ (q ∈ l -> parent v = new) /\ (q ∉ l -> parent v = parent v0) /\ (parent v0 = new -> parent v = new).
Proof.
  induction l as [|c l IH]; intros P q v Hv; cbn [moved_all] in Hv.
  - exists v. split_and!; try done. by intros ?%elem_of_nil.
  - destruct (IH _ _ _ Hv) as (v1 & Hv1 & H1 & H2 & H3). destruct (moved_parent c new P q v1 Hv1) as (v0 & Hv0 & Hp). exists v0. split; [done|]. rewrite elem_of_cons. case_decide as E.
    + pose proof (H3 Hp). subst. tauto.
    + rewrite Hp in *. tauto.
Qed.

Lemma moved_all_some new : forall l P q v, P !! q = Some v -> exists v', moved_all l new P !! q = Some v'.
Proof. induction l as [|c l IH]; intros P q v Hv; cbn [moved_all]; [eauto|]. apply (IH _ _ (move_fn c new q v)). by rewrite moved_lookup, Hv. Qed.

(** At most the process itself is on its [child_wq]. *)
Lemma child_queue s q l : core_inv s -> waitqs s !! ChildWq q = Some l -> l = [] \/ l = [q].
Proof.
  intros HI Hl. pose proof (sp_wq_nodup _ _ _ (in_sleep s HI) _ _ Hl) as Hnd. pose proof (fun x => wq_own _ _ _ (in_wq s HI) q l x Hl) as Hq.
  destruct l as [|a [|b l]]; [by left|right; rewrite (Hq a) by (by left); done|]. apply NoDup_cons in Hnd as [Hab _]. destruct Hab. rewrite (Hq a), (Hq b) by (rewrite !elem_of_cons; tauto). by left.
Qed.
Lemma woke_child_empty s s' q : core_inv s -> woke_first (ChildWq q) s s' -> waitqs s' !! ChildWq q = Some [].
Proof.
  intros HI [[Hl ->]|(x & l & v & Hl & _ & _ & ->)]; [done|]. destruct (child_queue s q _ HI Hl) as [|E]; [done|]. injection E as -> ->.
  cbn. rewrite lookup_fmap, Hl. cbn [fmap option_fmap option_map]. by rewrite without_cons_eq.
Qed.
Lemma woke_child_runs s s' q l x : core_inv s -> woke_first (ChildWq q) s s' -> waitqs s !! ChildWq q = Some l -> x ∈ l -> x ∈ run_queue s'.
Proof.
  intros HI [[Hl ->]|(y & l' & v & Hl & _ & _ & ->)] Hl2; rewrite Hl in Hl2; injection Hl2 as <-; [by intros ?%elem_of_nil|].
  destruct (child_queue s q _ HI Hl) as [|E]; [done|]. injection E as -> ->. intros ->%list_elem_of_singleton. cbn. apply elem_of_app. right. by left.
Qed.
Lemma woke_first_views w s s' p v : woke_first w s s' -> procs s !! p = Some v -> exists v', procs s' !! p = Some v' /\ parent v' = parent v /\ children v' = children v /\ pid v' = pid v.
Proof. intros [[_ ->]|(q & l & u & _ & Hq & _ & ->)] Hp; [eauto|]. cbn. rewrite lookup_insert. case_decide; [|eauto]. subst. assert (u = v) as -> by congruence. eauto. Qed.

(** C19: proc_exit makes the process a zombie that keeps its PID and exit status and
    is on no run queue, gives all its children to init, makes the parent runnable if
    it slept in proc_wait (nobody is left on the parent's child queue), and switches
    to the scheduler holding only its own lock. *)
Theorem exit_correct s v status : proc_inv s -> mode s = Running -> procs s !! cpu_proc s = Some v -> 1 < pid v ->
  exists s' v', proc_exit status s = Ok (tt, s') /\ proc_inv s' /\ mode s' = Switched /\ held s' = [ProcLock (cpu_proc s)] /\
    procs s' !! cpu_proc s = Some v' /\ pstate v' = PROC_ZOMBIE /\ exit_status v' = status /\ children v' = [] /\ pid v' = pid v /\ (cpu_proc s ∉ run_queue s') /\
    (forall c, c ∈ children v -> c <> cpu_proc s -> exists vc, procs s' !! c = Some vc /\ parent vc = init_proc s) /\
    waitqs s' !! ChildWq (parent v') = Some [] /\
    (forall l q, waitqs s !! ChildWq (parent v') = Some l -> q ∈ l -> q ∈ run_queue s').
Proof.
  intros HP Hm Hv Hp. pose proof HP as [HI [Hsp _ _]]. pose proof (running_held s HP Hm) as Hh. pose proof (on_cpu_running s Hm) as Hc.
  destruct (wp_elim _ _ _ (proc_exit_spec s (cpu_proc s) v HI Hh Hc eq_refl Hsp Hv Hp status)) as ([] & s' & E & (v1 & s2 & Hv1 & Hch & Hw & ->) & HP' & Hm').
  destruct (reparented_at s (cpu_proc s) v HI Hv Hp) as (v1' & Hv1' & _ & Hag). assert (v1' = v1) as -> by congruence. destruct Hag as (_ & _ & Hpid & _).
  assert (core_inv (reparented s v)) as HI1.
  { assert (core_inv (set_held [WaitLock] (set_sie false s))) as H0 by (eapply core_frame; [exact HI|done..]).
    pose proof (reparent_spec (cpu_proc s) (children v) (set_held [WaitLock] (set_sie false s)) v (fun _ s1 => s1 = reparented s v /\ core_inv s1) H0 Hv eq_refl (exit_not_init s (cpu_proc s) v HI Hv Hp) (fun H => conj eq_refl H)) as Hr.
    by apply wp_elim in Hr as ([] & s1 & _ & -> & Hr). }
  eexists _, (set_context InExit (set_pstate PROC_ZOMBIE (set_exit_status status v1))). split; [exact E|]. split_and!; try done.
  - cbn. by rewrite lookup_insert_eq.
  - intros Hq. destruct HP' as [HI' _]. apply (ru_iff _ _ (in_run _ HI')) in Hq. cbn in Hq. rewrite lookup_fmap, lookup_insert_eq in Hq. done.
  - intros c Hc' Hne. destruct (child_facts s (cpu_proc s) v c HI Hv Hc') as (vc & Hvc & _).
    destruct (moved_all_some (init_proc s) (children v) (procs s) c vc Hvc) as (vc1 & Hvc1). destruct (moved_all_parent _ _ _ _ _ Hvc1) as (_ & _ & Hpar & _).
    destruct (woke_first_views _ _ _ c vc1 Hw Hvc1) as (vc2 & Hvc2 & Hpar2 & _). exists vc2. split; [|rewrite Hpar2; auto]. cbn. by rewrite lookup_insert_ne.
  - cbn. by eapply woke_child_empty.
  - cbn. intros l q Hl Hq. eapply woke_child_runs; [exact HI1|exact Hw|exact Hl|exact Hq].
Qed.

Lemma exit_correct_witness : exists s' v', proc_exit 7 s_child = Ok (tt, s') /\ procs s' !! cpu_proc s_child = Some v' /\ pstate v' = PROC_ZOMBIE /\ exit_status v' = 7.
Proof.
  destruct (procs s_child !! cpu_proc s_child) as [v|] eqn:Hv; [|vm_compute in Hv; discriminate].
  destruct (exit_correct s_child v 7 (proj2 s_child_run)) as (s' & v' & E & _ & _ & _ & Hv' & Hz & He & _);
    [vm_compute; reflexivity|exact Hv|vm_compute in Hv; injection Hv as <-; reflexivity|].
  exists s', v'. split; [exact E|]. split; [exact Hv'|]. split; [exact Hz|exact He].
Defined.
