(* ===== verification/FamilyThm.v ===== *)
(** The theorems on the life of a process after its exit: wait and kill, and what
    kill does to idle and init. *)
From stdpp Require Import gmap sorting relations.
From S2P Require Import Prelude Layout Hash Proc ProcInv ProcMoves ProcOps ProcSched ProcLife ProcWait ProcFork ProcExec ProcStep ProcThm LifeThm.

(** * Wait *)
Lemma proc_wait_spec s v : proc_inv s -> mode s = Running -> procs s !! cpu_proc s = Some v -> pid v <> 0 -> (killed v = true -> 1 < pid v) ->
  exists r s', proc_wait s = Ok (r, s') /\ wait_outcome (sie s) (cpu_proc s) v (set_held [WaitLock] (set_sie false s)) r s' /\ proc_inv s'.
Proof.
  intros HP Hm Hv H0 Hk. pose proof HP as [HI [Hsp Hcn _]]. pose proof (running_held s HP Hm) as Hh.
  apply (wp_elim _ (fun r s' => wait_outcome (sie s) (cpu_proc s) v (set_held [WaitLock] (set_sie false s)) r s' /\ proc_inv s')).
  unfold proc_wait. wp_steps. apply wp_this_proc; [apply Hcn; by rewrite Hm|]. wp_steps. apply wp_irqsave; [rewrite Hh; apply not_elem_of_nil|]. rewrite Hh.
  apply wait_iter_spec; try done. eapply core_frame; [exact HI|done..].
Qed.

Lemma released_state s c vc : held s = [] -> set_held [] (set_sie (false || sie s) (freed c vc (set_held [WaitLock] (set_sie false s)))) = freed c vc s.
Proof. intros Hh. destruct s. cbn in Hh. by subst. Qed.
Lemma restored_state s : held s = [] -> set_held [] (set_sie (false || sie s) (set_held [WaitLock] (set_sie false s))) = s.
Proof. intros Hh. destruct s. cbn in Hh. by subst. Qed.

(** The process is gone: no table, list or queue names it, and exactly the memory
    it owned has been given back. *)
Record reaped (c : ptr) (vc : proc) (s s' : kst) : Prop := {
  re_procs : procs s' !! c = None;
  re_others : forall q v, q <> c -> procs s !! q = Some v -> procs s' !! q = Some (set_children (without c (children v)) v);
  re_all : all_procs s' = without c (all_procs s);
  re_owned : forall r, r ∈ owned s' <-> r ∈ owned s /\ r ∉ resources c (mem_of vc);
  re_pid : pid_lookup (pid vc) s' = Ok (NULL, s')
}.

Lemma freed_reaped s c vc : proc_inv s -> procs s !! c = Some vc -> core_inv (freed c vc s) -> reaped c vc s (freed c vc s).
Proof.
  intros [HI _] Hc HF. split.
  - cbn. apply lookup_delete_eq.
  - intros q v Hq Hv. cbn. rewrite lookup_delete_ne by done. unfold unlinked. by rewrite lookup_fmap, Hv.
  - done.
  - intros r. cbn. by rewrite elem_of_released, free_order_iff.
  - enough (wp (pid_lookup (pid vc)) (fun r s' => r = NULL /\ s' = freed c vc s) (freed c vc s)) as Hw by (apply wp_elim in Hw as (r & s' & E & -> & ->); done).
    apply pid_lookup_spec; [done| |done]. intros q v Hq Hpid _. exfalso. cbn in Hq. rewrite lookup_delete in Hq. case_decide as E; [done|]. unfold unlinked in Hq. rewrite lookup_fmap in Hq.
    destruct (procs s !! q) as [u|] eqn:Eu; [|done]. injection Hq as <-. cbn in Hpid. apply E. symmetry.
    apply (pk_inj _ _ _ (in_pid s HI) q c (pid vc)); rewrite lookup_fmap; [rewrite Eu; cbn; congruence|by rewrite Hc].
Qed.

(** The first zombie of a list is determined. *)
Lemma first_zombie s : forall l1 l1' c c' l2 l2', (forall d, d ∈ l1 -> ~ is_zombie s d) -> (forall d, d ∈ l1' -> ~ is_zombie s d) -> is_zombie s c -> is_zombie s c' ->
  l1 ++ c :: l2 = l1' ++ c' :: l2' -> l1' = l1 /\ c' = c.
Proof.
  induction l1 as [|x l1 IH]; intros [|x' l1'] c c' l2 l2' H1 H1' Hc Hc' E; cbn in E; injection E as E1 E2; subst.
  - done.
  - destruct (H1' x'); [by left|done].
  - destruct (H1 c'); [by left|done].
  - destruct (IH l1' c c' l2 l2') as [-> ->]; try done; intros d Hd; [apply H1|apply H1']; by right.
Qed.

(** proc_wait returns -1 at once, changing nothing, when there is no child;
    when a child is a zombie it returns the PID and exit status of the first one in
    the list, removes it from every table and gives back exactly what it owned;
    otherwise it sleeps on its own child queue (a killed process exits instead). *)
Lemma wait_correct s v : proc_inv s -> mode s = Running -> procs s !! cpu_proc s = Some v -> pid v <> 0 -> (killed v = true -> 1 < pid v) ->
  (children v = [] -> proc_wait s = Ok (Some (-1, 0), s)) /\
  (forall l1 c l2 vc, children v = l1 ++ c :: l2 -> (forall d, d ∈ l1 -> ~ is_zombie s d) -> procs s !! c = Some vc -> pstate vc = PROC_ZOMBIE ->
     exists s', proc_wait s = Ok (Some (pid vc, exit_status vc), s') /\ proc_inv s' /\ mode s' = Running /\ reaped c vc s s') /\
  (children v <> [] -> (forall d, d ∈ children v -> ~ is_zombie s d) ->
     exists s' v', proc_wait s = Ok (None, s') /\ proc_inv s' /\ mode s' = Switched /\ procs s' !! cpu_proc s = Some v' /\
       if killed v then pstate v' = PROC_ZOMBIE /\ exit_status v' = -1
       else pstate v' = PROC_SLEEPING /\ context v' = InWqSleep WaitLock (InProcWait (sie s)) /\ exists l, waitqs s' !! ChildWq (cpu_proc s) = Some (l ++ [cpu_proc s])).
Proof.
  intros HP Hm Hv H0 Hk. pose proof (running_held s HP Hm) as Hh. destruct (proc_wait_spec s v HP Hm Hv H0 Hk) as (r & s' & E & Ho & HP'). rewrite E.
  assert (forall l1 c l2, children v = l1 ++ c :: l2 -> c ∈ children v) as Hel by (intros l1 c l2 ->; apply elem_of_app; right; by left).
  inversion Ho as [Hn Hr Hs|l1 c l2 vc Hl Hl1 Hc Hz Hr Hs|s0 Hne Hnz Hkl Hx Hr Hs|l Hne Hnz Hkl Hq Hr Hs]; subst; cbn [sie set_held set_sie] in *; split_and!.
  - intros _. by rewrite restored_state.
  - intros l1 c l2 vc Hl. rewrite Hn in Hl. by destruct l1.
  - done.
  - rewrite Hl. by destruct l1.
  - intros l1' c' l2' vc' Hl' Hl1' Hc' Hz'. assert (l1' = l1 /\ c' = c) as [-> ->]. { apply (first_zombie s l1 l1' c c' l2 l2'); [exact Hl1|exact Hl1'|by exists vc|by exists vc'|]. by rewrite <- Hl, <- Hl'. }
    assert (Some vc' = Some vc) as [= ->] by (etransitivity; [symmetry; exact Hc'|exact Hc]). rewrite released_state in * by done. exists (freed c vc s). split_and!; [done|done|done|]. apply freed_reaped; [done|done|apply HP'].
  - intros _ Hnz. exfalso. apply (Hnz c); [by eapply Hel|by exists vc].
  - done.
  - intros l1 c l2 vc Hl _ Hc Hz. exfalso. apply (Hnz c); [by eapply Hel|by exists vc].
  - intros _ _. destruct Hx as (v1 & s2 & Hv1 & Hch & Hw & ->). eexists _, _. rewrite Hkl. split_and!; [done|done|done|cbn; by rewrite lookup_insert_eq|done|done].
  - done.
  - intros l1 c l2 vc Hl _ Hc Hz. exfalso. apply (Hnz c); [by eapply Hel|by exists vc].
  - intros _ _. eexists _, _. rewrite Hkl. split_and!; [done|done|done|cbn; by rewrite lookup_insert_eq|done|done|]. exists l. cbn. by rewrite lookup_insert_eq.
Qed.

(** PID 2 exits; init, dispatched again, waits. *)
Definition to_zombie : list op := [OExit 7; OSched; OResume].
Definition s_zombie : kst := runs to_zombie s_child.
Lemma s_zombie_run : trace to_zombie s_child s_zombie /\ proc_inv s_zombie.
Proof.
  pose proof (proj2 s_child_run) as H0. unfold s_zombie, to_zombie. run_step; [cur_tac; vm_compute; reflexivity|]. intros s1 H1 ->.
  run_step. intros s2 H2 ->. run_step. intros s3 H3 _. split; [constructor|exact H3].
Qed.


(** * Kill *)

(** C20: proc_kill of an existing PID marks the process killed and nothing else of
    it, and, when it sleeps, takes it off its wait queue or the timed-sleep list and
    makes it runnable; processes already queued keep their places. A PID that no
    process has gives -1 and changes nothing. *)
Theorem kill_correct s n : proc_inv s -> mode s = Running ->
  (forall p v, procs s !! p = Some v -> pid v = n ->
     exists s', proc_kill n s = Ok (0, s') /\ proc_inv s' /\
       (forall q u, procs s !! q = Some u -> q <> p -> procs s' !! q = Some u) /\
       if bool_decide (pstate v = PROC_SLEEPING) then
         procs s' !! p = Some (set_pstate PROC_RUNNABLE (set_killed true v)) /\ run_queue s' = run_queue s ++ [p] /\
         (forall w l, waitqs s' !! w = Some l -> p ∉ l) /\ (p ∉ tsleep_list s')
       else procs s' !! p = Some (set_killed true v) /\ run_queue s' = run_queue s /\ waitqs s' = waitqs s /\ tsleep_list s' = tsleep_list s) /\
  ((forall p v, procs s !! p = Some v -> pid v <> n) -> proc_kill n s = Ok (-1, s)).
Proof.
  intros HP Hm. pose proof HP as [HI _]. pose proof (running_held s HP Hm) as Hh. split.
  - intros p v Hp Hn. exists (after_kill p v s).
    assert (proc_kill n s = Ok (0, after_kill p v s)) as E.
    { enough (wp (proc_kill n) (fun r s' => r = 0 /\ s' = after_kill p v s) s) as Hw by (apply wp_elim in Hw as (r & s' & E & -> & ->); done).
      unfold proc_kill. wp_steps. apply pid_lookup_spec; [done| |].
      - intros q u Hq Hu Hqn. assert (q = p) as -> by (apply (pk_inj _ _ _ (in_pid s HI) q p n); rewrite lookup_fmap; [rewrite Hq|rewrite Hp]; cbn; congruence). assert (u = v) as -> by congruence.
        destruct (Z.eqb_spec p NULL) as [|_]; [done|]. by apply (kill_found_spec s p v).
      - intros Hno. by destruct (Hno p v). }
    split; [done|]. split; [eapply inv_running; try done; [by apply core_after_kill|unfold after_kill; by case_bool_decide..]|]. unfold after_kill. split.
    + intros q u Hq Hne. case_bool_decide; cbn; by rewrite ?insert_insert_eq, lookup_insert_ne.
    + case_bool_decide; [|cbn; by rewrite lookup_insert_eq]. unfold woken, killed_at. ks. rewrite lookup_insert_eq. split_and!; try done.
      * intros w l. rewrite lookup_fmap. destruct (waitqs s !! w); [|done]. intros [= <-]. rewrite elem_of_without. tauto.
      * rewrite elem_of_without. tauto.
  - intros Hno. enough (wp (proc_kill n) (fun r s' => r = -1 /\ s' = s) s) as Hw by (apply wp_elim in Hw as (r & s' & E & -> & ->); done).
    unfold proc_kill. wp_steps. apply pid_lookup_spec; [done| |].
    + intros p v Hp Hn _. by destruct (Hno p v).
    + intros _. by wp_steps.
Qed.

Lemma s_waiting_child : exists vc, procs s_waiting !! 32768 = Some vc /\ pid vc = 2 /\ pstate vc = PROC_SLEEPING.
Proof. eexists. split; [vm_compute; reflexivity|]. split; reflexivity. Qed.

Lemma kill_correct_witness : (exists s', proc_kill 2 s_waiting = Ok (0, s') /\ 32768 ∈ run_queue s') /\ proc_kill 99 s_waiting = Ok (-1, s_waiting).
Proof.
  destruct s_waiting_child as (vc & Hvc & Hpid & Hsl). split.
  - destruct (kill_correct s_waiting 2 (proj2 s_waiting_run)) as [H _]; [vm_compute; reflexivity|].
    destruct (H 32768 vc Hvc Hpid) as (s' & E & _ & _ & Hs). exists s'. split; [exact E|]. rewrite bool_decide_true in Hs by exact Hsl. destruct Hs as (_ & -> & _). apply elem_of_app. right. constructor.
  - apply kill_correct; [exact (proj2 s_waiting_run)|vm_compute; reflexivity|]. intros p v Hp Hp99. apply elem_of_map_to_list in Hp.
    assert (existsb (fun kv : Z * proc => pid kv.2 =? 99) (map_to_list (procs s_waiting)) = false) as Hb by (vm_compute; reflexivity).
    apply not_true_iff_false in Hb. apply Hb, existsb_exists. exists (p, v). split; [exact (proj1 (list_elem_of_In _ _) Hp)|exact (proj2 (Z.eqb_eq _ _) Hp99)].
Defined.
