(* ===== verification/SpawnThm.v ===== *)
(** The theorems on fork and exec. *)
From stdpp Require Import gmap sorting relations.
From S2P Require Import Prelude Layout Hash Proc ProcInv ProcMoves ProcOps ProcSched ProcLife ProcWait ProcFork ProcExec ProcStep ProcThm.

(** * Fork *)
Lemma core_undone s tf s' : core_inv s -> undone tf s s' -> core_inv s'.
Proof.
  intros HI (n & m & Hn & Hm & ->). destruct Hn as [->| ->]; [eapply core_frame; [exact HI|done..]|].
  pose proof (in_pid s HI) as [P1 P2 P3 P4 P5]. destruct HI. split; ks; try done. split; try done. intros p n Hp. specialize (P1 p n Hp). lia.
Qed.

(** The registers of the child's trapframe: those of the parent, [a0] zero, and
    the kernel's own fields. *)
Definition kernel_fields : list Z := [TF_a0; TF_kernel_sp; TF_kernel_satp; TF_user_trap; TF_hartid].
Lemma child_frame_spec f ksp sa ut off : child_frame f ksp sa ut off =
  if off =? TF_hartid then 0 else if off =? TF_user_trap then ut else if off =? TF_kernel_satp then sa else if off =? TF_kernel_sp then ksp else if off =? TF_a0 then 0 else f off.
Proof. unfold child_frame, upd. by rewrite !(Z.eqb_sym off). Qed.

(** The child of a fork. *)
Record is_child (s s' : kst) (e : fork_env) (pv vc : proc) : Prop := {
  ch_pid : pid vc = next_pid s;
  ch_parent : parent vc = cpu_proc s;
  ch_state : pstate vc = PROC_RUNNABLE;
  ch_start : context vc = AtStart user_proc_start;
  ch_name : name vc = name pv;
  ch_none : children vc = [] /\ killed vc = false;
  ch_regs : forall off, off ∉ kernel_fields -> tf_mem s' (trapframe vc) off = tf_mem s (trapframe pv) off;
  ch_a0 : tf_mem s' (trapframe vc) TF_a0 = 0;
  ch_sp : tf_mem s' (trapframe vc) TF_kernel_sp = u64 (kstack vc + PG_SIZE);
  ch_mem : trapframe vc = r_tf e /\ pagetable vc = r_pt e /\ kstack vc = r_kstack e
}.

(** C21: when all its allocations and the copy of the address space succeed,
    proc_fork returns the new PID, and the child, with the parent's registers but
    [a0] = 0, its name and a kernel stack of its own, is the parent's last child,
    last in the run queue and found under its PID; the parent's registers are
    unchanged. When any of them fails it returns -1, and processes, queues, tables
    and owned memory are exactly those before the call. *)
Theorem fork_correct s e pv : proc_inv s -> mode s = Running -> procs s !! cpu_proc s = Some pv -> pagetable pv <> NULL -> next_pid s < INT_MAX -> env_fresh s e ->
  (fork_ok e -> exists s' vc, proc_fork e s = Ok (next_pid s, s') /\ proc_inv s' /\ procs s' !! r_obj e = Some vc /\ is_child s s' e pv vc /\
     procs s' !! cpu_proc s = Some (set_children (children pv ++ [r_obj e]) pv) /\ (forall q v, q <> cpu_proc s -> procs s !! q = Some v -> procs s' !! q = Some v) /\
     run_queue s' = run_queue s ++ [r_obj e] /\ pid_lookup (next_pid s) s' = Ok (r_obj e, s') /\ (forall q, q <> r_tf e -> tf_mem s' q = tf_mem s q)) /\
  (~ fork_ok e -> exists s', proc_fork e s = Ok (-1, s') /\ proc_inv s' /\ procs s' = procs s /\ run_queue s' = run_queue s /\ waitqs s' = waitqs s /\
     pid_table s' = pid_table s /\ all_procs s' = all_procs s /\ owned s' = owned s /\ (forall q, q <> r_tf e -> tf_mem s' q = tf_mem s q)).
Proof.
  intros HP Hm Hv Hpt Hn Hf. pose proof HP as [HI _]. pose proof (running_held s HP Hm) as Hh. destruct (cur_facts s HP ltac:(by rewrite Hm)) as (v' & Hv' & Hr & _). assert (v' = pv) as -> by congruence.
  destruct (old_space s (cpu_proc s) pv HI Hv Hpt) as (Htf & _ & _ & Htfo).
  assert (trapframe pv <> r_tf e) as Htf'. { intros E. by destruct (ef_tf _ _ Hf ltac:(congruence)) as [Hno _]; rewrite <- E in Hno. }
  destruct (wp_elim _ _ _ (proc_fork_spec s e (cpu_proc s) pv HI Hh eq_refl Hn Hf Hv Htf' Htf)) as (r & s' & E & [(-> & Hno & Hu)|(-> & H1 & H2 & H3 & H4 & H5 & ->)]); (split; intros Hok); try done.
  - exists s'. assert (core_inv s') as HI' by by eapply core_undone. destruct Hu as (n & m & _ & Hmem & ->). split_and!; try done. by eapply inv_running.
  - assert (core_inv (forked s e (cpu_proc s) pv)) as HI' by by apply core_forked.
    assert (procs s !! r_obj e = None) as Hpc by exact (un_proc _ _ (unused_of s _ HI H1 (ef_obj _ _ Hf H1))). assert (r_obj e <> cpu_proc s) as Hne by congruence.
    eexists _, (child_proc s e (cpu_proc s) pv). split; [exact E|]. split_and!.
    + by eapply inv_running.
    + cbn. by rewrite lookup_insert_eq.
    + split; try done; cbn [trapframe child_proc set_parent set_name user_proc set_pagetable set_trapframe tf_mem forked set_procs set_all_procs set_run_queue set_pid_table set_waitqs set_next_pid set_owned set_tf_mem kstack new_proc]; rewrite ?upd_eq, ?child_frame_spec; try done.
      intros off Ho. unfold kernel_fields in Ho. rewrite !not_elem_of_cons in Ho. rewrite child_frame_spec. destruct Ho as (? & ? & ? & ? & ? & _).
      by rewrite !(proj2 (Z.eqb_neq _ _)) by done.
    + cbn. by rewrite lookup_insert_ne, lookup_insert_eq.
    + intros q v Hq Hvq. cbn. rewrite !lookup_insert_ne by congruence. done.
    + done.
    + enough (wp (pid_lookup (next_pid s)) (fun r s1 => r = r_obj e /\ s1 = forked s e (cpu_proc s) pv) (forked s e (cpu_proc s) pv)) as Hw by (apply wp_elim in Hw as (r & s1 & E1 & -> & ->); done).
      apply pid_lookup_spec; [done| |].
      * intros q v Hq Hpid _. split; [|done]. apply (pk_inj _ _ _ (in_pid _ HI') q (r_obj e) (next_pid s)); rewrite lookup_fmap; [by rewrite Hq; cbn; rewrite Hpid|cbn; by rewrite lookup_insert_eq].
      * intros Hno. destruct (Hno (r_obj e) (child_proc s e (cpu_proc s) pv)); [cbn; by rewrite lookup_insert_eq|done].
    + intros q Hq. cbn. by rewrite !upd_ne by congruence.
  - destruct Hok. by split_and!.
Qed.

Lemma fork1_fresh : env_fresh s_init fork1.
Proof. split; intros _; [decide_it|decide_it|split; [decide_it|vm_compute; discriminate]|split; decide_it]. Qed.
Lemma fork1_ok : fork_ok fork1.
Proof. split; [|reflexivity]. split; [discriminate|]. split; [discriminate|]. split; discriminate. Qed.

Lemma fork_correct_witness : exists s' vc, proc_fork fork1 s_init = Ok (2, s') /\ procs s' !! 32768 = Some vc /\ pid vc = 2 /\ tf_mem s' (trapframe vc) TF_a0 = 0.
Proof.
  destruct (procs s_init !! cpu_proc s_init) as [v|] eqn:Hv; [|vm_compute in Hv; discriminate].
  destruct (fork_correct s_init fork1 v (proj2 s_init_run)) as [(s' & vc & E & _ & Hvc & Hch & _) _];
    [vm_compute; reflexivity|exact Hv|vm_compute in Hv; injection Hv as <-; discriminate|vm_compute; reflexivity|exact fork1_fresh|exact fork1_ok|].
  exists s', vc. split; [exact E|]. split; [exact Hvc|]. split; [exact (ch_pid _ _ _ _ _ Hch)|exact (ch_a0 _ _ _ _ _ Hch)].
Defined.

(** * Exec *)

Definition exec2 : exec_env := mk_exec_env 49152 true 53248 true 1 0x3fffffc000 0x1000 "sh" 1 2.

Lemma exec_owned (s : kst) (v : proc) (e : exec_env) (r : res) : (RTable (x_pt e) ∉ owned s) /\ (RVmas (x_pt e) ∉ owned s) ->
  (pagetable v <> NULL -> RVmas (pagetable v) ∈ owned s /\ RTable (pagetable v) ∈ owned s) ->
  (r = RVmas (x_pt e) \/ r = RTable (x_pt e) \/ r ∈ (if trapframe v =? NULL then RPage (x_tf e) :: owned s else owned s)) /\
    (r ∉ (if pagetable v =? NULL then [] else [RVmas (pagetable v); RTable (pagetable v)])) <->
  r = RVmas (x_pt e) \/ r = RTable (x_pt e) \/ (trapframe v = NULL /\ r = RPage (x_tf e)) \/ (r ∈ owned s /\ (pagetable v <> NULL -> r <> RVmas (pagetable v) /\ r <> RTable (pagetable v))).
Proof.
  intros [Hn1 Hn2] Hold. destruct (Z.eqb_spec (trapframe v) NULL) as [Et|Et], (Z.eqb_spec (pagetable v) NULL) as [Ep|Ep]; try (destruct (Hold Ep) as [Ho1 Ho2]);
    rewrite ?elem_of_cons, ?not_elem_of_cons; pose proof (not_elem_of_nil r); (split; [tauto|]);
    intros [->|[->|[[? ->]|[? ?]]]]; split_and?; try tauto; intros [E|[E|E]]; (done || congruence || (injection E as E; by rewrite E in *)).
Qed.


Lemma exec1_fresh : exec_fresh s_child exec2.
Proof. split; intros _; [decide_it|split; decide_it]. Qed.

