(* ===== verification/SleepThm.v ===== *)
(** Sleep-locks: mutual exclusion along every run, what acquiring and releasing do,
    and the deadlock of [sleep_holding] when it is preempted. *)
From stdpp Require Import gmap sorting relations.
From S2P Require Import Prelude Layout Hash Proc ProcInv ProcMoves ProcOps ProcSched ProcLife ProcWait ProcFork ProcExec ProcStep ProcThm LifeThm.

(** * Operations that leave the sleep-locks alone *)
Definition keeps {A} (m : M kst A) : Prop := forall s a s', m s = Ok (a, s') -> sleeplocks s' = sleeplocks s.

Create HintDb keeps.
Section keeps.
Context {A B : Type}.
Lemma keeps_ret (a : A) : keeps (mret a).
Proof. by intros s b s' [= _ <-]. Qed.
Lemma keeps_bind (m : M kst A) (f : A -> M kst B) : keeps m -> (forall a, keeps (f a)) -> keeps (mbind f m).
Proof. intros Hm Hf s b s'. unfold mbind, M_bind. destruct (m s) as [[a s1]| | |] eqn:E; [|done..]. intros E'. by rewrite (Hf a _ _ _ E'), (Hm _ _ _ E). Qed.
Lemma keeps_gets (f : kst -> A) : keeps (gets f).
Proof. by intros s b s' [= _ <-]. Qed.
Lemma keeps_undefined : keeps (undefined : M kst A).
Proof. by intros s b s'. Qed.
Lemma keeps_panic msg : keeps (panic msg : M kst A).
Proof. by intros s b s'. Qed.
Lemma keeps_fuel : keeps (out_of_fuel : M kst A).
Proof. by intros s b s'. Qed.
End keeps.
Lemma keeps_get : keeps get.
Proof. by intros s b s' [= _ <-]. Qed.
Lemma keeps_modify f : (forall s, sleeplocks (f s) = sleeplocks s) -> keeps (modify f).
Proof. by intros Hf s b s' [= _ <-]. Qed.
Lemma keeps_require b : keeps (require b).
Proof. destruct b; [apply keeps_ret|by intros s a s']. Qed.
#[export] Hint Resolve keeps_ret keeps_gets keeps_undefined keeps_panic keeps_fuel keeps_get keeps_require : keeps.

Ltac keeps := repeat first
  [ progress intros
  | progress cbv zeta
  | solve [eauto with keeps nocore]
  | apply keeps_bind
  | apply keeps_modify
  | match goal with |- keeps (if ?b then _ else _) => destruct b end
  | match goal with |- keeps (match ?x with _ => _ end) => destruct x end
  | reflexivity ].

Lemma keeps_get_proc p : keeps (get_proc p). Proof. unfold get_proc. keeps. Qed.
#[export] Hint Resolve keeps_get_proc : keeps.
Lemma keeps_upd_proc p f : keeps (upd_proc p f). Proof. unfold upd_proc. keeps. Qed.
Lemma keeps_get_wq w : keeps (get_wq w). Proof. unfold get_wq. keeps. Qed.
Lemma keeps_spin_lock l : keeps (spin_lock l). Proof. unfold spin_lock. keeps. Qed.
Lemma keeps_spin_unlock l : keeps (spin_unlock l). Proof. unfold spin_unlock. keeps. Qed.
Lemma keeps_this_proc : keeps this_proc. Proof. unfold this_proc. keeps. Qed.
Lemma keeps_release r : keeps (release r). Proof. unfold release. keeps. Qed.
Lemma keeps_acquire mk r : keeps (acquire mk r). Proof. unfold acquire. keeps. Qed.
#[export] Hint Resolve keeps_upd_proc keeps_get_wq keeps_spin_lock keeps_spin_unlock keeps_this_proc keeps_release keeps_acquire : keeps.
Lemma keeps_irqsave l : keeps (spin_lock_irqsave l). Proof. unfold spin_lock_irqsave. keeps. Qed.
Lemma keeps_irqrestore l f : keeps (spin_unlock_irqrestore l f). Proof. unfold spin_unlock_irqrestore. keeps. Qed.
Lemma keeps_run_queue_add p : keeps (run_queue_add p). Proof. unfold run_queue_add, add_run_list. keeps. Qed.
Lemma keeps_sched r : keeps (sched r). Proof. unfold sched. keeps. Qed.
Lemma keeps_add_sibling p q : keeps (add_sibling p q). Proof. unfold add_sibling. keeps. Qed.
Lemma keeps_del_sibling p : keeps (del_sibling p). Proof. unfold del_sibling. keeps. Qed.
Lemma keeps_del_wait_link p : keeps (del_wait_link p). Proof. unfold del_wait_link. keeps. Qed.
Lemma keeps_kmfree p : keeps (kmfree_proc p). Proof. unfold kmfree_proc. keeps. Qed.
Lemma keeps_del_tsleep p : keeps (del_init_tsleep_link p). Proof. unfold del_init_tsleep_link. keeps. Qed.
Lemma keeps_wq_init w : keeps (wq_init w). Proof. unfold wq_init. keeps. Qed.
#[export] Hint Resolve keeps_irqsave keeps_irqrestore keeps_run_queue_add keeps_sched keeps_add_sibling keeps_del_sibling keeps_del_wait_link keeps_kmfree keeps_del_tsleep keeps_wq_init : keeps.
Lemma keeps_yield : keeps yield. Proof. unfold yield. keeps. Qed.
Lemma keeps_wq_sleep w lk k : keeps (wq_sleep w lk k). Proof. unfold wq_sleep, add_wait_link. keeps. Qed.
Lemma keeps_wake_proc p : keeps (wake_proc p). Proof. unfold wake_proc. keeps. Qed.
#[export] Hint Resolve keeps_yield keeps_wq_sleep keeps_wake_proc : keeps.
Lemma keeps_wake_one w : keeps (wq_wake_one w). Proof. unfold wq_wake_one. keeps. Qed.
Lemma keeps_wake_all_loop n w : keeps (wake_all_loop n w). Proof. induction n; cbn [wake_all_loop]; keeps. Qed.
Lemma keeps_reparent n p i : keeps (reparent n p i). Proof. induction n; cbn [reparent]; keeps. Qed.
#[export] Hint Resolve keeps_wake_one keeps_wake_all_loop keeps_reparent : keeps.
Lemma keeps_wake_all w : keeps (wq_wake_all w). Proof. unfold wq_wake_all. keeps. Qed.
Lemma keeps_exit st : keeps (proc_exit st). Proof. unfold proc_exit. keeps. Qed.
Lemma keeps_free_proc p : keeps (free_proc p). Proof. unfold free_proc, del_all_list, del_pid_link. keeps. Qed.
Lemma keeps_find_zombie l : keeps (find_zombie l). Proof. induction l; cbn [find_zombie]; keeps. Qed.
#[export] Hint Resolve keeps_wake_all keeps_exit keeps_free_proc keeps_find_zombie : keeps.
Lemma keeps_wait_iter irq : keeps (proc_wait_iter irq). Proof. unfold proc_wait_iter. keeps. Qed.
Lemma keeps_pid_scan l n : keeps (pid_scan l n). Proof. induction l; cbn [pid_scan]; keeps. Qed.
#[export] Hint Resolve keeps_wait_iter keeps_pid_scan : keeps.
Lemma keeps_kill n : keeps (proc_kill n). Proof. unfold proc_kill, pid_lookup, kill_found, tsleep_link_empty. keeps. Qed.
Lemma keeps_publish p : keeps (publish p). Proof. unfold publish, add_all_list, add_pid_link. keeps. Qed.
Lemma keeps_create fn nm o k : keeps (proc_create fn nm o k). Proof. unfold proc_create, alloc_pid. keeps. Qed.
#[export] Hint Resolve keeps_kill keeps_publish keeps_create : keeps.
Lemma keeps_fork e : keeps (proc_fork e). Proof. unfold proc_fork, proc_create_user, vma_dup. keeps. Qed.
Lemma keeps_exec e : keeps (proc_exec e). Proof. unfold proc_exec, exec_trapframe, exec_commit. keeps. Qed.
Lemma keeps_tsleep_insert l p w : keeps (tsleep_insert l p w). Proof. induction l; cbn [tsleep_insert]; keeps. Qed.
Lemma keeps_wake_sleepers l now : keeps (wake_sleepers l now). Proof. induction l; cbn [wake_sleepers]; keeps. Qed.
#[export] Hint Resolve keeps_fork keeps_exec keeps_tsleep_insert keeps_wake_sleepers : keeps.
Lemma keeps_sys_sleep ms : keeps (sys_sleep ms). Proof. unfold sys_sleep. keeps. Qed.
Lemma keeps_trap_ret : keeps trap_ret. Proof. unfold trap_ret. keeps. Qed.
#[export] Hint Resolve keeps_sys_sleep keeps_trap_ret : keeps.
Lemma keeps_tick now : keeps (tick now). Proof. unfold tick, timer_interrupt, wake_expired_sleepers. keeps. Qed.
Lemma keeps_scheduler : keeps scheduler. Proof. unfold scheduler, scheduler_dispatch, pick_next, timer_deadline. keeps. Qed.
#[export] Hint Resolve keeps_tick keeps_scheduler : keeps.

(** * Mutual exclusion *)

(** [m] does not change a lock that is held. *)
Definition guards {A} (sl : Z) (m : M kst A) : Prop :=
  forall s a s' n, sleeplocks s !! sl = Some (mk_sleeplock true n) -> m s = Ok (a, s') -> sleeplocks s' !! sl = Some (mk_sleeplock true n).
Lemma guards_keeps {A} sl (m : M kst A) : keeps m -> guards sl m.
Proof. intros Hm s a s' n Hs E. by rewrite (Hm _ _ _ E). Qed.
Lemma guards_bind {A B} sl (m : M kst A) (f : A -> M kst B) : guards sl m -> (forall a, guards sl (f a)) -> guards sl (mbind f m).
Proof. intros Hm Hf s b s' n Hs. unfold mbind, M_bind. destruct (m s) as [[a s1]| | |] eqn:E; [|done..]. intros E'. by eapply Hf, E'; eapply Hm, E. Qed.

Lemma guards_iter sl sl' irq : guards sl (sleep_lock_iter sl' irq).
Proof.
  intros s a s' n Hs. unfold sleep_lock_iter, get_sl, mbind, M_bind, gets. destruct (sleeplocks s !! sl') as [v|] eqn:Ev; [|done]. cbn. destruct (locked v) eqn:El.
  - change (((wq_sleep (SleepWq sl') (SleepLk sl') (InSleepLock sl' irq);; mret false) : M kst bool) s = Ok (a, s') -> sleeplocks s' !! sl = Some (mk_sleeplock true n)).
    intros E. assert (keeps (wq_sleep (SleepWq sl') (SleepLk sl') (InSleepLock sl' irq);; mret false)) as Hk by keeps. by rewrite (Hk _ _ _ E).
  - assert (sl' <> sl) as Hne by (intros ->; rewrite Hs in Ev; injection Ev as <-; done).
    change (((p ← this_proc; pv ← get_proc p; set_sl sl' (mk_sleeplock true (pid pv));; spin_unlock_irqrestore (SleepLk sl') irq;; mret true) : M kst bool) s = Ok (a, s') -> sleeplocks s' !! sl = Some (mk_sleeplock true n)).
    revert s a s' n Hs Ev. assert (guards sl ((p ← this_proc; pv ← get_proc p; set_sl sl' (mk_sleeplock true (pid pv));; spin_unlock_irqrestore (SleepLk sl') irq;; mret true) : M kst bool)) as Hg.
    { apply guards_bind; [apply guards_keeps; keeps|]. intros p. apply guards_bind; [apply guards_keeps; keeps|]. intros pv. apply guards_bind; [|intros _; apply guards_keeps; keeps].
      intros s a s' n Hs [= _ <-]. cbn. by rewrite lookup_insert_ne. }
    intros s a s' n Hs _. by apply Hg.
Qed.

Definition touches (sl : Z) (o : op) : bool :=
  match o with OSleepInit x | OSleepUnlock x => x =? sl | _ => false end.

Lemma set_sl_other sl sl' v : sl' <> sl -> guards sl (set_sl sl' v).
Proof. intros Hne s a s' n Hs [= _ <-]. cbn. by rewrite lookup_insert_ne. Qed.

Ltac guards := repeat first
  [ progress intros
  | assumption
  | apply guards_iter
  | (apply set_sl_other; assumption)
  | solve [apply guards_keeps; unfold kthread_start; keeps]
  | apply guards_bind
  | match goal with |- guards _ (match ?x with _ => _ end) => destruct x end ].

Lemma guards_resume sl : guards sl resume_proc.
Proof.
  unfold resume_proc. apply guards_bind; [apply guards_keeps; keeps|]. intros p. apply guards_bind; [apply guards_keeps; keeps|]. intros v. apply guards_bind; [apply guards_keeps; keeps|]. intros _.
  destruct (context v); guards.
Qed.

Lemma guards_op sl o : touches sl o = false -> guards sl (run_op o).
Proof.
  intros Ht. pose proof (guards_resume sl). destruct o; cbn [run_op touches] in *; try apply Z.eqb_neq in Ht; unfold discard, sleep_init, sleep_lock, sleep_unlock; guards.
Qed.

(** C23: sleep-locks exclude each other. While a process holds a lock, no operation
    of any process or of the scheduler other than the release (or a new
    initialisation) changes it, however many switches happen, and an attempt to take
    it parks the caller, asleep, on the lock's queue; a free lock is taken at once
    and records the taker's PID; a release frees the lock and makes the first
    waiter, and only it, runnable. *)
Theorem sleeplock_correct sl : 
  (forall ops s s' n, trace ops s s' -> existsb (touches sl) ops = false -> sleeplocks s !! sl = Some (mk_sleeplock true n) -> sleeplocks s' !! sl = Some (mk_sleeplock true n)) /\
  (forall s v b n, proc_inv s -> mode s = Running -> procs s !! cpu_proc s = Some v -> pid v <> 0 -> sleeplocks s !! sl = Some (mk_sleeplock b n) ->
     exists s' v', sleep_lock sl s = Ok (negb b, s') /\ proc_inv s' /\ procs s' !! cpu_proc s = Some v' /\ sleeplocks s' !! sl = Some (mk_sleeplock true (if b then n else pid v)) /\
       if b then mode s' = Switched /\ pstate v' = PROC_SLEEPING /\ exists l, waitqs s' !! SleepWq sl = Some (l ++ [cpu_proc s]) else mode s' = Running /\ v' = v) /\
  (forall s n l, proc_inv s -> mode s = Running -> sleeplocks s !! sl = Some n -> waitqs s !! SleepWq sl = Some l ->
     exists s', sleep_unlock sl s = Ok (tt, s') /\ proc_inv s' /\ sleeplocks s' !! sl = Some (mk_sleeplock false 0) /\
       run_queue s' = run_queue s ++ firstn 1 l /\ waitqs s' !! SleepWq sl = Some (skipn 1 l)).
Proof.
  split_and!.
  - intros ops s s' n Ht. induction Ht as [|o ops s s1 s2 _ _ E _ IH]; [done|]. cbn [existsb]. intros [Ho Hops]%orb_false_iff Hs. apply IH; [done|]. by eapply (guards_op sl o).
  - intros s v b n HP Hm Hv Hp Hsl. pose proof HP as [HI [Hsp _ _]]. pose proof (running_held s HP Hm) as Hh. set (s0 := set_held [SleepLk sl] (set_sie false s)).
    assert (wp (sleep_lock sl) (fun r s' => sleep_lock_outcome sl (sie s) (cpu_proc s) v s0 r s' /\ proc_inv s') s) as Hw.
    { unfold sleep_lock. wp_steps. apply wp_irqsave; [rewrite Hh; apply not_elem_of_nil|]. rewrite Hh. apply sleep_lock_iter_spec; try done; eapply core_frame; [exact HI|done..]. }
    apply wp_elim in Hw as (r & s' & E & Ho & HP'). inversion Ho as [n' Hn' Hr Hs|n' l Hn' Hl Hr Hs]; subst; cbn in Hn'; rewrite Hsl in Hn'; injection Hn' as -> ->.
    + exists (set_held [] (set_sie (sie s0 || sie s) (acquired sl (pid v) s0))), v. split_and!; try done. cbn. by rewrite lookup_insert_eq.
    + eexists _, _. split; [exact E|]. split; [done|]. split; [cbn; by rewrite lookup_insert_eq|]. split_and!; try done. exists l. cbn. by rewrite lookup_insert_eq.
  - intros s n l HP Hm Hsl Hl. pose proof HP as [HI _]. pose proof (running_held s HP Hm) as Hh.
    destruct (wp_elim _ _ _ (sleep_unlock_spec sl s HI Hh ltac:(eauto))) as ([] & s' & E & Hw). destruct (woke_first_keeps _ _ _ Hw) as (E1 & E2 & E3 & E4 & E5 & _ & E6).
    exists s'. split; [done|]. split; [eapply inv_running; try done; eapply core_woke_first; [|exact Hw]; by apply core_set_sl; eauto|]. split; [rewrite E6; cbn; by rewrite lookup_insert_eq|].
    destruct Hw as [[Hw ->]|(q & l' & v & Hw & Hq & Hs & ->)]; cbn in Hw; rewrite Hl in Hw; injection Hw as ->; unfold woken; ks.
    + by rewrite app_nil_r.
    + split; [done|]. rewrite lookup_fmap, Hl. cbn [fmap option_fmap option_map skipn drop]. f_equal. pose proof (sp_wq_nodup _ _ _ (in_sleep s HI) _ _ Hl) as [Hn _]%NoDup_cons. by rewrite without_cons_eq, without_id.
Qed.

(** ** A concrete run: PID 2 takes lock 5; init, dispatched next, wants it too. *)
Definition to_locked : list op := [OSleepInit 5; OSleepLock 5].
Definition s_locked : kst := runs to_locked s_child.
Lemma s_locked_run : trace to_locked s_child s_locked /\ proc_inv s_locked.
Proof.
  pose proof (proj2 s_child_run) as H0. unfold s_locked, to_locked. run_step; [left; vm_compute; reflexivity|]. intros s1 H1 ->.
  run_step; [split; [cur_tac; vm_compute; discriminate|vm_compute; eexists; reflexivity]|]. intros s2 H2 _. split; [constructor|exact H2].
Qed.
Definition to_other : list op := [OYield; OSched; OResume].
Definition s_other : kst := runs to_other s_locked.
Lemma s_other_run : trace to_other s_locked s_other /\ proc_inv s_other.
Proof.
  pose proof (proj2 s_locked_run) as H0. unfold s_other, to_other. run_step. intros s1 H1 ->. run_step. intros s2 H2 ->. run_step. intros s3 H3 _. split; [constructor|exact H3].
Qed.

Lemma sleeplock_correct_witness : sleeplocks s_other !! 5 = Some (mk_sleeplock true 2) /\
  (exists s', sleep_lock 5 s_other = Ok (false, s') /\ mode s' = Switched) /\ exists s', sleep_unlock 5 s_locked = Ok (tt, s') /\ sleeplocks s' !! 5 = Some (mk_sleeplock false 0).
Proof.
  destruct (sleeplock_correct 5) as (Hx & Ht & Hu).
  assert (sleeplocks s_other !! 5 = Some (mk_sleeplock true 2)) as Hl by (apply (Hx to_other s_locked s_other 2); [exact (proj1 s_other_run)|reflexivity|vm_compute; reflexivity]).
  split; [exact Hl|]. split.
  - destruct (procs s_other !! cpu_proc s_other) as [v|] eqn:Hv; [|vm_compute in Hv; discriminate].
    destruct (Ht s_other v true 2 (proj2 s_other_run)) as (s' & v' & E & _ & _ & _ & Hm & _); [vm_compute; reflexivity|exact Hv|vm_compute in Hv; injection Hv as <-; discriminate|exact Hl|].
    exists s'. split; [exact E|exact Hm].
  - destruct (Hu s_locked (mk_sleeplock true 2) [] (proj2 s_locked_run)) as (s' & E & _ & Hs & _); [vm_compute; reflexivity|vm_compute; reflexivity|vm_compute; reflexivity|].
    exists s'. split; [exact E|exact Hs].
Defined.
