(* ===== verification/HazardThm.v ===== *)
(** Hazards of the code, each proved of the definitions: killing idle or init panics
    the kernel; [proc_kill] may use a process structure its parent has just freed;
    [sleep_holding], preempted while it holds the lock's spinlock, leaves the next
    taker of the sleep-lock spinning for ever. *)
From stdpp Require Import gmap sorting relations.
From S2P Require Import Prelude Layout Hash Proc ProcInv ProcMoves ProcOps ProcSched ProcLife ProcWait ProcFork ProcExec ProcStep ProcThm LifeThm FamilyThm SleepThm.

(** * kill of idle or init *)

(** The check of the return path finds the mark and exits. *)
Lemma trap_ret_panics s v : cpu_proc s <> NULL -> procs s !! cpu_proc s = Some v -> pid v <= 1 -> killed v = true -> trap_ret s = Panic "idle or init exiting".
Proof.
  intros Hn Hv Hp Hk. unfold trap_ret, get_proc, proc_exit, this_proc, mbind, M_bind, gets. rewrite (proj2 (Z.eqb_neq _ _) Hn), Hv. cbn [mret M_ret]. unfold mret, M_ret. rewrite Hk.
  unfold proc_exit, this_proc, get_proc, mbind, M_bind, gets. rewrite (proj2 (Z.eqb_neq _ _) Hn). unfold mret, M_ret. rewrite Hv. by rewrite (proj2 (Z.leb_le _ _) Hp).
Qed.

(** Any process may kill PID 0 or 1: the call succeeds, and when the victim next
    returns from a trap the kernel panics. *)
Theorem kill_init_panics s p v : proc_inv s -> mode s = Running -> procs s !! p = Some v -> pid v <= 1 ->
  exists s' v', proc_kill (pid v) s = Ok (0, s') /\ procs s' !! p = Some v' /\ pid v' = pid v /\ killed v' = true /\
    forall s2 v2, procs s2 !! cpu_proc s2 = Some v2 -> cpu_proc s2 <> NULL -> pid v2 = pid v' -> killed v2 = true -> trap_ret s2 = Panic "idle or init exiting".
Proof.
  intros HP Hm Hv Hp. pose proof HP as [HI _]. pose proof (running_held s HP Hm) as Hh.
  assert (wp (proc_kill (pid v)) (fun r s' => r = 0 /\ s' = after_kill p v s) s) as Hw.
  { unfold proc_kill. wp_steps. apply pid_lookup_spec; [done| |].
    - intros q u Hq Hu Hqn. assert (q = p) as -> by (apply (pk_inj _ _ _ (in_pid s HI) q p (pid v)); rewrite lookup_fmap; [rewrite Hq|rewrite Hv]; cbn; congruence). assert (u = v) as -> by congruence.
      destruct (Z.eqb_spec p NULL) as [|_]; [done|]. by apply (kill_found_spec s p v).
    - intros Hno. by destruct (Hno p v). }
  apply wp_elim in Hw as (r & s' & E & -> & ->). assert (exists v', procs (after_kill p v s) !! p = Some v' /\ pid v' = pid v /\ killed v' = true) as (v' & Hv' & Hi & Hk).
  { unfold after_kill. case_bool_decide; cbn; rewrite lookup_insert_eq; eauto. }
  exists (after_kill p v s), v'. split_and!; try done. intros s2 v2 H2 Hn Hp2 Hk2. apply (trap_ret_panics s2 v2); try done. lia.
Qed.

(** * kill of a process that is reaped meanwhile *)

(** [proc_kill] finds the process without a lock and with interrupts as they are; if
    the parent reaps it before [p->lock] is taken, the structure is gone. *)
Theorem kill_after_reap s c vc s' : proc_inv s -> procs s !! c = Some vc -> pstate vc = PROC_ZOMBIE -> reaped c vc s s' -> (TsleepLock ∉ held s') -> (ProcLock c ∉ held s') ->
  pid_lookup (pid vc) s = Ok (c, s) /\ kill_found c s' = Undefined.
Proof.
  intros [HI _] Hc Hz Hr Ht Hp. split.
  - assert (wp (pid_lookup (pid vc)) (fun r s1 => r = c /\ s1 = s) s) as Hw.
    { apply pid_lookup_spec; [done| |].
      - intros q u Hq Hu _. split; [|done]. apply (pk_inj _ _ _ (in_pid s HI) q c (pid vc)); rewrite lookup_fmap; [rewrite Hq|rewrite Hc]; cbn; congruence.
      - intros Hno. by destruct (Hno c vc). }
    by apply wp_elim in Hw as (r & s1 & E & -> & ->).
  - unfold kill_found, spin_lock_irqsave, spin_lock, upd_proc, get_proc, mbind, M_bind, gets, modify, mret, M_ret. cbn. rewrite bool_decide_false by done. cbn. rewrite bool_decide_false by (by apply not_elem_of_cons). cbn. by rewrite (re_procs _ _ _ _ Hr).
Qed.

(** The zombie child of init, reaped by [proc_wait]. *)
Lemma kill_after_reap_instance : exists s', proc_wait s_zombie = Ok (Some (2, 7), s') /\ pid_lookup 2 s_zombie = Ok (32768, s_zombie) /\ kill_found 32768 s' = Undefined.
Proof.
  destruct (proc_wait s_zombie) as [[r s']| | |] eqn:E; [|vm_compute in E; discriminate..]. exists s'.
  assert (match proc_wait s_zombie with Ok (r, s') => r = Some (2, 7) /\ match kill_found 32768 s' with Undefined => True | _ => False end | _ => False end) as H by (vm_compute; split; exact eq_refl || exact I).
  rewrite E in H. destruct H as [-> Hk]. split; [reflexivity|]. split; [vm_compute; reflexivity|]. destruct (kill_found 32768 s'); [destruct Hk..|reflexivity|destruct Hk].
Qed.

(** * sleep_holding preempted *)

(** A process whose interrupts are on, as they are in system calls, is in
    [sleep_holding]; the timer preempts it there. *)
Definition in_holding : kst := match sleep_holding_read 5 (set_sie true s_locked) with Ok (_, s) => s | _ => s_locked end.

(** While the spinlock of a sleep-lock is held by a process that is not running,
    every attempt on the sleep-lock spins: the loop of [spin_lock] never ends. *)
Lemma sleep_lock_spins sl s : SleepLk sl ∈ held s -> sleep_lock sl s = OutOfFuel.
Proof. intros Hl. unfold sleep_lock, spin_lock_irqsave, spin_lock, mbind, M_bind, gets, modify. cbn. by rewrite bool_decide_true. Qed.

(** PID 2 holds sleep-lock 5 and asks [sleep_holding]; a timer interrupt switches to
    init, which asks for the lock: it spins with interrupts off, for ever. *)
Theorem sleep_holding_deadlock : sleep_holding_read 5 (set_sie true s_locked) = Ok (true, in_holding) /\ sie in_holding = true /\
  (run_op (OTick 1);; run_op OSched;; run_op OResume;; sleep_lock 5) in_holding = OutOfFuel.
Proof. split; [vm_compute; reflexivity|]. split; vm_compute; reflexivity. Qed.
