(* ===== verification/Virtio.v ===== *)
(** The virtio block driver (drivers/virtio_blk.c): descriptors, the request ring,
    completions and the handshake.

    The state is [struct disk] with the three queue structures it shares with the
    device, the fields of the buffers the driver uses, and a log of the register
    writes.  Processes that wait for the disk are on [d_wq]; a call that sleeps
    returns [false] with the lock released and is tried again when it is woken.
    What the device does is not code of the kernel: it is the relation [device]. *)
From stdpp Require Import gmap.
From S2P Require Import Prelude Layout.

(** * virtio.h *)
Definition VIRTIO_MMIO_MAGIC_VALUE : Z := 0x000.
Definition VIRTIO_MMIO_VERSION : Z := 0x004.
Definition VIRTIO_MMIO_DEVICE_ID : Z := 0x008.
Definition VIRTIO_MMIO_DRIVER_FEATURES : Z := 0x020.
Definition VIRTIO_MMIO_DRIVER_FEATURES_SEL : Z := 0x024.
Definition VIRTIO_MMIO_QUEUE_SEL : Z := 0x030.
Definition VIRTIO_MMIO_QUEUE_NUM_MAX : Z := 0x034.
Definition VIRTIO_MMIO_QUEUE_NUM : Z := 0x038.
Definition VIRTIO_MMIO_QUEUE_READY : Z := 0x044.
Definition VIRTIO_MMIO_QUEUE_NOTIFY : Z := 0x050.
Definition VIRTIO_MMIO_INTERRUPT_STATUS : Z := 0x060.
Definition VIRTIO_MMIO_INTERRUPT_ACK : Z := 0x064.
Definition VIRTIO_MMIO_STATUS : Z := 0x070.
Definition VIRTIO_MMIO_QUEUE_DESC_LOW : Z := 0x080.
Definition VIRTIO_MMIO_QUEUE_DRIVER_LOW : Z := 0x090.
Definition VIRTIO_MMIO_QUEUE_DEVICE_LOW : Z := 0x0a0.
Definition VIRTIO_MAGIC : Z := 0x74726976.
Definition VIRTIO_VERSION : Z := 2.
Definition VIRTIO_DEV_BLOCK : Z := 2.
Definition VIRTIO_STATUS_ACKNOWLEDGE : Z := Z.shiftl 1 0.
Definition VIRTIO_STATUS_DRIVER : Z := Z.shiftl 1 1.
Definition VIRTIO_STATUS_FEATURES_OK : Z := Z.shiftl 1 3.
Definition VIRTIO_STATUS_DRIVER_OK : Z := Z.shiftl 1 2.
Definition VIRTQ_DESC_F_NEXT : Z := Z.shiftl 1 0.
Definition VIRTQ_DESC_F_WRITE : Z := Z.shiftl 1 1.
Definition VIRTIO_MMIO_INT_VRING : Z := Z.shiftl 1 0.
Definition VIRTIO_MMIO_INT_CONFIG : Z := Z.shiftl 1 1.
Definition VIRTIO_BLK_T_IN : Z := 0.
Definition VIRTIO_BLK_T_OUT : Z := 1.
Definition VIRTIO_BLK_S_OK : Z := 0.
Definition NUM_DESC : Z := 8.
Definition BSIZE : Z := 4096.
Definition SECTOR_SIZE : Z := 512.
Definition SECTORS_PER_BLOCK : Z := BSIZE / SECTOR_SIZE.
Definition VNULL : Z := 0.

Record virtq_desc := mk_desc { d_addr : Z; d_len : Z; d_flags : Z; d_next : Z }.

(** The fields of [struct buf] the driver uses, and where the embedded ones are. *)
Record vbuf := mk_vbuf { b_blockno : Z; b_type : Z; b_reserved : Z; b_sector : Z; b_status : Z; b_disk : Z }.
Definition DATA_OFF : Z := 8.
Definition REQ_OFF : Z := 4104.
Definition SIZEOF_REQ : Z := 16.
Definition STATUS_OFF : Z := 4120.
Definition set_sector (v : Z) (b : vbuf) : vbuf := mk_vbuf (b_blockno b) (b_type b) 0 v (b_status b) (b_disk b).
Definition set_disk (v : Z) (b : vbuf) : vbuf := mk_vbuf (b_blockno b) (b_type b) (b_reserved b) (b_sector b) (b_status b) v.
Definition set_status (v : Z) (b : vbuf) : vbuf := mk_vbuf (b_blockno b) (b_type b) (b_reserved b) (b_sector b) v (b_disk b).

(** [avail_idx], [avail_ring], [u_idx] and [u_ring] are the two rings; the last two
    belong to the device. *)
Record disk := mk_disk {
  desc : Z -> virtq_desc;
  avail_idx : Z; avail_ring : Z -> Z;
  u_idx : Z; u_ring : Z -> Z;
  used_idx : Z;
  free : Z -> bool;
  info : Z -> Z;
  d_locked : bool;
  d_wq : list Z;
  bufs : gmap Z vbuf;
  mmio : list (Z * Z)
}.
Definition set_desc v s := mk_disk v (avail_idx s) (avail_ring s) (u_idx s) (u_ring s) (used_idx s) (free s) (info s) (d_locked s) (d_wq s) (bufs s) (mmio s).
Definition set_avail i r s := mk_disk (desc s) i r (u_idx s) (u_ring s) (used_idx s) (free s) (info s) (d_locked s) (d_wq s) (bufs s) (mmio s).
Definition set_used i r s := mk_disk (desc s) (avail_idx s) (avail_ring s) i r (used_idx s) (free s) (info s) (d_locked s) (d_wq s) (bufs s) (mmio s).
Definition set_used_idx v s := mk_disk (desc s) (avail_idx s) (avail_ring s) (u_idx s) (u_ring s) v (free s) (info s) (d_locked s) (d_wq s) (bufs s) (mmio s).
Definition set_free v s := mk_disk (desc s) (avail_idx s) (avail_ring s) (u_idx s) (u_ring s) (used_idx s) v (info s) (d_locked s) (d_wq s) (bufs s) (mmio s).
Definition set_info v s := mk_disk (desc s) (avail_idx s) (avail_ring s) (u_idx s) (u_ring s) (used_idx s) (free s) v (d_locked s) (d_wq s) (bufs s) (mmio s).
Definition set_locked v s := mk_disk (desc s) (avail_idx s) (avail_ring s) (u_idx s) (u_ring s) (used_idx s) (free s) (info s) v (d_wq s) (bufs s) (mmio s).
Definition set_wq v s := mk_disk (desc s) (avail_idx s) (avail_ring s) (u_idx s) (u_ring s) (used_idx s) (free s) (info s) (d_locked s) v (bufs s) (mmio s).
Definition set_bufs v s := mk_disk (desc s) (avail_idx s) (avail_ring s) (u_idx s) (u_ring s) (used_idx s) (free s) (info s) (d_locked s) (d_wq s) v (mmio s).
Definition set_mmio v s := mk_disk (desc s) (avail_idx s) (avail_ring s) (u_idx s) (u_ring s) (used_idx s) (free s) (info s) (d_locked s) (d_wq s) (bufs s) v.

(** * Registers, lock and buffers *)
Definition virtio_write (off val : Z) : M disk unit := modify (fun s => set_mmio (mmio s ++ [(off, u32 val)]) s).
Definition virtio_write_addr (low ptr : Z) : M disk unit :=
  virtio_write low (u32 ptr);; virtio_write (low + 4) (u32 (Z.shiftr ptr 32)).

Definition lock_disk : M disk unit :=
  l ← gets d_locked; if (l : bool) then out_of_fuel else modify (set_locked true).
Definition unlock_disk : M disk unit := modify (set_locked false).
(** [wq_sleep(&disk.wq, &disk.lock)], up to the switch. *)
Definition sleep_disk (p : Z) : M disk unit := modify (fun s => set_wq (d_wq s ++ [p]) s);; unlock_disk.

Definition get_buf (b : Z) : M disk vbuf :=
  bs ← gets bufs; match bs !! b with Some v => mret v | None => undefined end.
Definition upd_buf (b : Z) (f : vbuf -> vbuf) : M disk unit :=
  v ← get_buf b; modify (fun s => set_bufs (<[b := f v]> (bufs s)) s).
(** An access to an array of [NUM_DESC] entries. *)
Definition in_desc (i : Z) : M disk unit := require ((0 <=? i) && (i <? NUM_DESC)).

(** * Descriptors *)
Fixpoint count_from (n : nat) (i : Z) (f : Z -> bool) : Z :=
  match n with O => 0 | S n' => (if f i then 1 else 0) + count_from n' (i + 1) f end.
Definition count_free : M disk Z := gets (fun s => count_from (Z.to_nat NUM_DESC) 0 (free s)).

Fixpoint alloc_from (n : nat) (i : Z) : M disk Z :=
  match n with
  | O => mret (-1)
  | S n' => f ← gets free; if (f i : bool) then modify (set_free (upd f i false));; mret i else alloc_from n' (i + 1)
  end.
Definition alloc_desc : M disk Z := alloc_from (Z.to_nat NUM_DESC) 0.

Definition free_desc (i : Z) : M disk unit :=
  in_desc i;;
  f ← gets free;
  if (f i : bool) then panic "free_desc: attempt to double free" else modify (set_free (upd f i true)).

(** The walk of a chain has no bound in the code; [fuel] is the number of
    descriptors, more than a chain of distinct ones can have. *)
Fixpoint free_chain_loop (fuel : nat) (i : Z) : M disk unit :=
  match fuel with
  | O => out_of_fuel
  | S n =>
      in_desc i;;
      d ← gets (fun s => desc s i);
      free_desc i;;
      if Z.land (d_flags d) VIRTQ_DESC_F_NEXT =? 0 then mret tt else free_chain_loop n (d_next d)
  end.
Definition free_chain (i : Z) : M disk unit := free_chain_loop (Z.to_nat NUM_DESC) i.

(** * Initialisation

    [rd] gives what the device answers when a register is read, [pg_desc],
    [pg_avail] and [pg_used] are the results of the three calls of [kalloc]. *)
Definition virtio_blk_init (rd : Z -> Z) (pg_desc pg_avail pg_used : Z) : M disk unit :=
  modify (set_locked false);;
  modify (set_wq []);;
  if negb (rd VIRTIO_MMIO_MAGIC_VALUE =? VIRTIO_MAGIC) || negb (rd VIRTIO_MMIO_VERSION =? VIRTIO_VERSION) || negb (rd VIRTIO_MMIO_DEVICE_ID =? VIRTIO_DEV_BLOCK)
  then panic "virtio_blk_init: no virtio block device at VIRTIO0" else
  let status := 0 in
  virtio_write VIRTIO_MMIO_STATUS status;;
  let status := Z.lor status VIRTIO_STATUS_ACKNOWLEDGE in
  virtio_write VIRTIO_MMIO_STATUS status;;
  let status := Z.lor status VIRTIO_STATUS_DRIVER in
  virtio_write VIRTIO_MMIO_STATUS status;;
  for_range 2 0 (fun word => virtio_write VIRTIO_MMIO_DRIVER_FEATURES_SEL word;; virtio_write VIRTIO_MMIO_DRIVER_FEATURES 0);;
  let status := Z.lor status VIRTIO_STATUS_FEATURES_OK in
  virtio_write VIRTIO_MMIO_STATUS status;;
  if Z.land (rd VIRTIO_MMIO_STATUS) VIRTIO_STATUS_FEATURES_OK =? 0 then panic "virtio_blk_init: FEATURES_OK cannot be set" else
  virtio_write VIRTIO_MMIO_QUEUE_SEL 0;;
  let num_max := rd VIRTIO_MMIO_QUEUE_NUM_MAX in
  if num_max =? 0 then panic "virtio_blk_init: queue unavailable" else
  if num_max <? NUM_DESC then panic "virtio_blk_init: device depth" else
  if (pg_desc =? VNULL) || (pg_avail =? VNULL) || (pg_used =? VNULL) then panic "virtio_blk_init: failed to kalloc desc, avail or used" else
  modify (set_desc (fun _ => mk_desc 0 0 0 0));;
  modify (set_avail 0 (fun _ => 0));;
  modify (set_used 0 (fun _ => 0));;
  for_range (Z.to_nat NUM_DESC) 0 (fun i => modify (fun s => set_free (upd (free s) i true) s));;
  virtio_write VIRTIO_MMIO_QUEUE_NUM NUM_DESC;;
  virtio_write_addr VIRTIO_MMIO_QUEUE_DESC_LOW pg_desc;;
  virtio_write_addr VIRTIO_MMIO_QUEUE_DRIVER_LOW pg_avail;;
  virtio_write_addr VIRTIO_MMIO_QUEUE_DEVICE_LOW pg_used;;
  virtio_write VIRTIO_MMIO_QUEUE_READY 1;;
  let status := Z.lor status VIRTIO_STATUS_DRIVER_OK in
  virtio_write VIRTIO_MMIO_STATUS status.

(** * Requests *)

(** The body of [virtio_blk_submit] once there are three descriptors. *)
Definition submit_chain (b : Z) : M disk unit :=
  d0 ← alloc_desc;
  d1 ← alloc_desc;
  d2 ← alloc_desc;
  in_desc d0;; in_desc d1;; in_desc d2;;
  v ← get_buf b;
  upd_buf b (set_sector (u64 (b_blockno v * SECTORS_PER_BLOCK)));;
  modify (fun s => set_desc (upd (desc s) d0 (mk_desc (b + REQ_OFF) SIZEOF_REQ VIRTQ_DESC_F_NEXT (u16 d1))) s);;
  modify (fun s => set_desc (upd (desc s) d1 (mk_desc (b + DATA_OFF) BSIZE
    (Z.lor VIRTQ_DESC_F_NEXT (if b_type v =? VIRTIO_BLK_T_OUT then VIRTQ_DESC_F_WRITE else 0)) (u16 d2))) s);;
  modify (fun s => set_desc (upd (desc s) d2 (mk_desc (b + STATUS_OFF) 1 VIRTQ_DESC_F_WRITE 0)) s);;
  modify (fun s => set_info (upd (info s) d0 b) s);;
  upd_buf b (set_disk 1);;
  modify (fun s => set_avail (avail_idx s) (upd (avail_ring s) (avail_idx s mod NUM_DESC) (u16 d0)) s);;
  modify (fun s => set_avail (u16 (avail_idx s + 1)) (avail_ring s) s);;
  virtio_write VIRTIO_MMIO_QUEUE_NOTIFY 0.

(** One test of [while (count_free() < 3)], with the lock held. *)
Definition submit_iter (p b : Z) : M disk bool :=
  n ← count_free;
  if n <? 3 then sleep_disk p;; mret false else submit_chain b;; unlock_disk;; mret true.
Definition virtio_blk_submit (p b : Z) : M disk bool := lock_disk;; submit_iter p b.

(** The second half of [virtio_blk_rw]: one test of [while (b->disk == 1)], and the
    check of the status when it is over. *)
Definition rw_iter (p b : Z) : M disk bool :=
  v ← get_buf b;
  if b_disk v =? 1 then sleep_disk p;; mret false
  else
    unlock_disk;;
    w ← get_buf b;
    if negb (b_status w =? VIRTIO_BLK_S_OK) then panic "virtio_blk_rw: block failed" else mret true.
Definition rw_wait (p b : Z) : M disk bool := lock_disk;; rw_iter p b.

(** * The interrupt *)
Definition reap_one : M disk unit :=
  k ← gets used_idx;
  r ← gets u_ring;
  let id := r (k mod NUM_DESC) in
  in_desc id;;
  b ← gets (fun s => info s id);
  upd_buf b (set_disk 0);;
  free_chain id;;
  modify (fun s => set_info (upd (info s) id VNULL) s);;
  modify (fun s => set_used_idx (u16 (used_idx s + 1)) s).
(** [while (disk.used_idx != disk.used->idx)]: the 16-bit counter reaches the
    device's after their distance modulo 2^16. *)
Fixpoint reap_loop (fuel : nat) : M disk unit :=
  s ← get;
  if used_idx s =? u_idx s then mret tt else
  match fuel with O => out_of_fuel | S n => reap_one;; reap_loop n end.
Definition virtio_blk_intr (isr : Z) : M disk unit :=
  lock_disk;;
  virtio_write VIRTIO_MMIO_INTERRUPT_ACK (Z.land isr (Z.lor VIRTIO_MMIO_INT_VRING VIRTIO_MMIO_INT_CONFIG));;
  s ← get;
  reap_loop (Z.to_nat (u16 (u_idx s - used_idx s)));;
  modify (set_wq []);;
  unlock_disk.
