(* ===== verification/VirtioInv.v ===== *)
(** The invariant of the block driver and its operations: requests in flight own
    disjoint chains of descriptors, and both rings say where they are. *)
From stdpp Require Import gmap.
From S2P Require Import Prelude Layout Virtio.

(** * Requests in flight *)
Record flight := mk_flight { f0 : Z; f1 : Z; f2 : Z; fb : Z }.
Definition chain (c : flight) : list Z := [f0 c; f1 c; f2 c].
Definition chains (fl : list flight) : list Z := fl ≫= chain.

(** What the device may hold: its position in the available ring and the heads it
    has taken from it. *)
Record vdev := mk_vdev { v_next : Z; v_work : list Z }.

Definition built (d : Z -> virtq_desc) (t : Z) (c : flight) : Prop :=
  d (f0 c) = mk_desc (fb c + REQ_OFF) SIZEOF_REQ VIRTQ_DESC_F_NEXT (f1 c) /\
  d (f1 c) = mk_desc (fb c + DATA_OFF) BSIZE (Z.lor VIRTQ_DESC_F_NEXT (if t =? VIRTIO_BLK_T_OUT then VIRTQ_DESC_F_WRITE else 0)) (f2 c) /\
  d (f2 c) = mk_desc (fb c + STATUS_OFF) 1 VIRTQ_DESC_F_WRITE 0.

(** [todo]: published and not yet taken by the device, in ring order; [v_work dv]:
    taken; [pend]: completed and not yet reaped, in ring order. *)
Record vinv (fl : list flight) (todo pend : list Z) (dv : vdev) (s : disk) : Prop := {
  vi_nodup : NoDup (chains fl);
  vi_range : forall i, i ∈ chains fl -> 0 <= i < NUM_DESC;
  vi_free : forall i, 0 <= i < NUM_DESC -> free s i = true <-> i ∉ chains fl;
  vi_built : forall c, c ∈ fl -> exists t, built (desc s) t c;
  vi_info : forall c, c ∈ fl -> info s (f0 c) = fb c;
  vi_owner : NoDup (fb <$> fl);
  vi_bufs : forall c, c ∈ fl -> is_Some (bufs s !! fb c);
  vi_disk : forall b v, bufs s !! b = Some v -> b_disk v = if decide (b ∈ fb <$> fl) then 1 else 0;
  vi_heads : f0 <$> fl ≡ₚ todo ++ v_work dv ++ pend;
  vi_avail : forall k id, todo !! k = Some id -> avail_ring s ((v_next dv + Z.of_nat k) mod NUM_DESC) = id;
  vi_aidx : avail_idx s = u16 (v_next dv + Z.of_nat (length todo));
  vi_used : forall k id, pend !! k = Some id -> u_ring s ((used_idx s + Z.of_nat k) mod NUM_DESC) = id;
  vi_uidx : u_idx s = u16 (used_idx s + Z.of_nat (length pend));
  vi_words : 0 <= v_next dv < 2 ^ 16 /\ 0 <= used_idx s < 2 ^ 16
}.

#[export] Instance vinv_proper : Proper ((≡ₚ) ==> eq ==> eq ==> eq ==> eq ==> impl) vinv.
Proof.
  intros fl fl' Hp todo _ <- pend _ <- dv _ <- s _ <- []. assert (chains fl ≡ₚ chains fl') as Hc by (unfold chains; by rewrite Hp).
  split; try done.
  - by rewrite <- Hc.
  - intros i. rewrite <- Hc. auto.
  - intros i Hi. rewrite <- Hc. auto.
  - intros c. rewrite <- Hp. auto.
  - intros c. rewrite <- Hp. auto.
  - by rewrite <- Hp.
  - intros c. rewrite <- Hp. auto.
  - intros b v Hb. rewrite (vi_disk0 b v Hb). apply decide_ext. by rewrite Hp.
  - by rewrite <- Hp.
Qed.

Lemma elem_of_chains i fl : i ∈ chains fl <-> exists c, c ∈ fl /\ i ∈ chain c.
Proof. unfold chains. rewrite list_elem_of_bind. naive_solver. Qed.
Lemma chains_cons c fl : chains (c :: fl) = chain c ++ chains fl.
Proof. done. Qed.
Lemma chains_length fl : length (chains fl) = (3 * length fl)%nat.
Proof. induction fl as [|c fl IH]; [done|]. rewrite chains_cons, length_app, IH. cbn. lia. Qed.
Lemma head_in c fl : c ∈ fl -> f0 c ∈ chains fl.
Proof. intros Hc. apply elem_of_chains. exists c. split; [done|]. by left. Qed.

(** * Counting free descriptors *)
Lemma count_from_filter f : forall n i, count_from n i f = Z.of_nat (length (filter (fun j => f j = true) (seqZ i (Z.of_nat n)))).
Proof.
  induction n as [|n IH]; intros i; cbn [count_from]; [done|]. rewrite seqZ_cons by lia. replace (Z.pred (Z.of_nat (S n))) with (Z.of_nat n) by lia.
  rewrite filter_cons, IH. replace (Z.succ i) with (i + 1) by lia. destruct (f i); case_decide; try done; cbn [length]; lia.
Qed.

Lemma count_free_flights fl todo pend dv s : vinv fl todo pend dv s -> count_from (Z.to_nat NUM_DESC) 0 (free s) = NUM_DESC - 3 * Z.of_nat (length fl).
Proof.
  intros Hi. rewrite count_from_filter. change (Z.of_nat (Z.to_nat NUM_DESC)) with NUM_DESC.
  assert (filter (fun j => ~ free s j = true) (seqZ 0 NUM_DESC) ≡ₚ chains fl) as Hp.
  { apply NoDup_Permutation; [apply NoDup_filter, NoDup_seqZ|apply (vi_nodup _ _ _ _ _ Hi)|]. intros j. rewrite list_elem_of_filter, elem_of_seqZ. split.
    - intros [Hf Hj]. rewrite (vi_free _ _ _ _ _ Hi) in Hf by lia. by apply dec_stable.
    - intros Hj. pose proof (vi_range _ _ _ _ _ Hi j Hj). split; [|lia]. rewrite (vi_free _ _ _ _ _ Hi) by lia. tauto. }
  apply Permutation_length in Hp. rewrite chains_length in Hp.
  pose proof (Permutation_length (filter_app_complement (fun j => free s j = true) (seqZ 0 NUM_DESC))) as Hl. rewrite length_app, length_seqZ in Hl. change (Z.to_nat NUM_DESC) with 8%nat in Hl. unfold NUM_DESC in *. lia.
Qed.

Lemma few_flights fl todo pend dv s : vinv fl todo pend dv s -> (length fl <= 2)%nat.
Proof.
  intros Hi. assert (length (chains fl) <= length (seqZ 0 NUM_DESC))%nat as Hl.
  { apply submseteq_length, NoDup_submseteq; [apply (vi_nodup _ _ _ _ _ Hi)|]. intros i Hin. apply elem_of_seqZ. pose proof (vi_range _ _ _ _ _ Hi i Hin). lia. }
  rewrite chains_length, length_seqZ in Hl. change (Z.to_nat NUM_DESC) with 8%nat in Hl. lia.
Qed.

(** * Allocating descriptors *)
Lemma alloc_from_spec : forall n i s (Q : Z -> disk -> Prop), (exists j, i <= j < i + Z.of_nat n /\ free s j = true) ->
  (forall j, i <= j < i + Z.of_nat n -> free s j = true -> Q j (set_free (upd (free s) j false) s)) -> wp (alloc_from n i) Q s.
Proof.
  induction n as [|n IH]; intros i s Q (j & Hj & Hf) HQ; [lia|]. cbn [alloc_from]. wp_steps. destruct (free s i) eqn:E.
  - wp_steps. apply HQ; [lia|done].
  - apply IH; [exists j; split; [|done]; assert (j <> i) by congruence; lia|]. intros k Hk. apply HQ. lia.
Qed.

Lemma count_upd f j : 0 <= j < NUM_DESC -> f j = true -> count_from (Z.to_nat NUM_DESC) 0 (upd f j false) = count_from (Z.to_nat NUM_DESC) 0 f - 1.
Proof.
  intros Hj Hf. rewrite !count_from_filter. change (Z.of_nat (Z.to_nat NUM_DESC)) with NUM_DESC.
  assert (filter (fun k => f k = true) (seqZ 0 NUM_DESC) ≡ₚ j :: filter (fun k => upd f j false k = true) (seqZ 0 NUM_DESC)) as ->; [|cbn [length]; lia].
  apply NoDup_Permutation; [apply NoDup_filter, NoDup_seqZ| |].
  - apply NoDup_cons. split; [|apply NoDup_filter, NoDup_seqZ]. rewrite list_elem_of_filter, upd_eq. naive_solver.
  - intros k. rewrite elem_of_cons, !list_elem_of_filter, elem_of_seqZ, upd_case. case_decide; [subst; naive_solver lia|naive_solver].
Qed.

Lemma count_pos f : 0 < count_from (Z.to_nat NUM_DESC) 0 f -> exists j, 0 <= j < 0 + Z.of_nat (Z.to_nat NUM_DESC) /\ f j = true.
Proof.
  rewrite count_from_filter. change (Z.of_nat (Z.to_nat NUM_DESC)) with NUM_DESC. destruct (filter _ _) as [|j l] eqn:E; [done|]. intros _.
  assert (j ∈ filter (fun k => f k = true) (seqZ 0 NUM_DESC)) as [Hf Hj%elem_of_seqZ]%list_elem_of_filter by (rewrite E; by left). exists j. split; [lia|done].
Qed.

Lemma alloc_desc_spec s (Q : Z -> disk -> Prop) : 0 < count_from (Z.to_nat NUM_DESC) 0 (free s) ->
  (forall j, 0 <= j < NUM_DESC -> free s j = true -> count_from (Z.to_nat NUM_DESC) 0 (upd (free s) j false) = count_from (Z.to_nat NUM_DESC) 0 (free s) - 1 ->
     Q j (set_free (upd (free s) j false) s)) -> wp alloc_desc Q s.
Proof.
  intros Hc HQ. apply alloc_from_spec; [by apply count_pos|]. intros j Hj Hf. change (0 + Z.of_nat (Z.to_nat NUM_DESC)) with NUM_DESC in Hj. apply HQ; [done|done|by apply count_upd].
Qed.

Lemma wp_in_desc i (Q : unit -> disk -> Prop) s : 0 <= i < NUM_DESC -> Q tt s -> wp (in_desc i) Q s.
Proof. intros Hi HQ. apply wp_require; [|done]. apply andb_true_iff. split; [apply Z.leb_le|apply Z.ltb_lt]; lia. Qed.
Lemma wp_get_buf b v (Q : vbuf -> disk -> Prop) s : bufs s !! b = Some v -> Q v s -> wp (get_buf b) Q s.
Proof. intros Hb HQ. unfold get_buf. wp_steps. rewrite Hb. by wp_steps. Qed.
Lemma wp_upd_buf b v f (Q : unit -> disk -> Prop) s : bufs s !! b = Some v -> Q tt (set_bufs (<[b := f v]> (bufs s)) s) -> wp (upd_buf b f) Q s.
Proof. intros Hb HQ. unfold upd_buf. wp_steps. eapply wp_get_buf; [done|]. by wp_steps. Qed.

(** * Submitting a request *)
Definition submitted (b : Z) (v : vbuf) (c : flight) (s : disk) : disk :=
  mk_disk
    (upd (upd (upd (desc s) (f0 c) (mk_desc (b + REQ_OFF) SIZEOF_REQ VIRTQ_DESC_F_NEXT (f1 c)))
       (f1 c) (mk_desc (b + DATA_OFF) BSIZE (Z.lor VIRTQ_DESC_F_NEXT (if b_type v =? VIRTIO_BLK_T_OUT then VIRTQ_DESC_F_WRITE else 0)) (f2 c)))
       (f2 c) (mk_desc (b + STATUS_OFF) 1 VIRTQ_DESC_F_WRITE 0))
    (u16 (avail_idx s + 1)) (upd (avail_ring s) (avail_idx s mod NUM_DESC) (f0 c)) (u_idx s) (u_ring s) (used_idx s)
    (upd (upd (upd (free s) (f0 c) false) (f1 c) false) (f2 c) false)
    (upd (info s) (f0 c) b) (d_locked s) (d_wq s)
    (<[b := set_disk 1 (set_sector (u64 (b_blockno v * SECTORS_PER_BLOCK)) v)]> (bufs s))
    (mmio s ++ [(VIRTIO_MMIO_QUEUE_NOTIFY, 0)]).

(** Three distinct free descriptors are taken. *)
Record taken (s : disk) (c : flight) : Prop := {
  tk_range : forall i, i ∈ chain c -> 0 <= i < NUM_DESC;
  tk_free : forall i, i ∈ chain c -> free s i = true;
  tk_nodup : NoDup (chain c)
}.

Lemma u16_desc i : 0 <= i < NUM_DESC -> u16 i = i.
Proof. intros Hi. unfold u16, NUM_DESC in *. apply Z.mod_small. lia. Qed.

Ltac ds := cbn [desc avail_idx avail_ring u_idx u_ring used_idx free info d_locked d_wq bufs mmio set_desc set_avail set_used set_used_idx set_free set_info set_locked set_wq set_bufs set_mmio].

Lemma submit_chain_spec s b v (Q : unit -> disk -> Prop) : bufs s !! b = Some v -> 3 <= count_from (Z.to_nat NUM_DESC) 0 (free s) ->
  (forall c, fb c = b -> taken s c -> Q tt (submitted b v c s)) -> wp (submit_chain b) Q s.
Proof.
  intros Hb Hn HQ. unfold submit_chain. wp_steps. apply alloc_desc_spec; [lia|]. intros d0 H0 F0 C0. wp_steps. apply alloc_desc_spec; [ds; lia|]. ds. intros d1 H1 F1 C1. wp_steps.
  apply alloc_desc_spec; [ds; lia|]. ds. intros d2 H2 F2 _.
  assert (d0 <> d1) as N01 by (intros ->; by rewrite upd_eq in F1). rewrite upd_ne in F1 by done.
  assert (d1 <> d2) as N12 by (intros ->; by rewrite upd_eq in F2). rewrite upd_ne in F2 by done.
  assert (d0 <> d2) as N02 by (intros ->; by rewrite upd_eq in F2). rewrite upd_ne in F2 by done.
  wp_steps. apply wp_in_desc; [done|]. wp_steps. apply wp_in_desc; [done|]. wp_steps. apply wp_in_desc; [done|]. wp_steps. eapply wp_get_buf; [exact Hb|]. wp_steps.
  eapply wp_upd_buf; [exact Hb|]. wp_steps. eapply wp_upd_buf; [by ds; rewrite lookup_insert_eq|]. unfold virtio_write. wp_steps. ds.
  rewrite insert_insert_eq, (u16_desc d0), (u16_desc d1), (u16_desc d2) by done. apply (HQ (mk_flight d0 d1 d2 b)); [done|]. split; unfold chain; cbn [f0 f1 f2].
  - intros i. rewrite !elem_of_cons, elem_of_nil. naive_solver.
  - intros i. rewrite !elem_of_cons, elem_of_nil. naive_solver.
  - rewrite !NoDup_cons, !not_elem_of_cons. split_and!; (done || apply not_elem_of_nil || constructor).
Qed.

Lemma u16_range x : 0 <= u16 x < 2 ^ 16.
Proof. unfold u16. apply Z.mod_pos_bound. lia. Qed.
Lemma u16_mod x : u16 x mod NUM_DESC = x mod NUM_DESC.
Proof. unfold u16, NUM_DESC. change (2 ^ 16) with 65536. mlia. Qed.
Lemma u16_add x y : u16 (u16 x + y) = u16 (x + y).
Proof. unfold u16. by rewrite Z.add_mod_idemp_l by lia. Qed.

Lemma built_keep (d d' : Z -> virtq_desc) t c : (forall i, i ∈ chain c -> d' i = d i) -> built d t c -> built d' t c.
Proof. intros H (H0 & H1 & H2). unfold built. rewrite !H; [done|..]; unfold chain; rewrite !elem_of_cons; tauto. Qed.
Lemma built_submitted s b v c : fb c = b -> NoDup (chain c) -> built (desc (submitted b v c s)) (b_type v) c.
Proof.
  intros <-. unfold chain. rewrite !NoDup_cons, !not_elem_of_cons. intros ((N1 & N2 & _) & (N3 & _) & _). cbn. split_and!.
  - by rewrite !upd_ne, upd_eq by congruence.
  - by rewrite upd_ne, upd_eq by congruence.
  - by rewrite upd_eq.
Qed.

Lemma submitted_inv fl todo pend dv s b v c : vinv fl todo pend dv s -> bufs s !! b = Some v -> b_disk v = 0 -> fb c = b -> taken s c ->
  vinv (c :: fl) (todo ++ [f0 c]) pend dv (submitted b v c s).
Proof.
  intros Hi Hb Hd Hfb [Hr Hf Hn]. assert (length todo <= 2)%nat as Ht.
  { pose proof (few_flights _ _ _ _ _ Hi). pose proof (Permutation_length (vi_heads _ _ _ _ _ Hi)) as Hl. rewrite length_fmap, !length_app in Hl. lia. }
  destruct Hi. assert (forall i, i ∈ chain c -> i ∉ chains fl) as Hout by (intros i Hic; apply vi_free0; auto).
  assert (b ∉ fb <$> fl) as Hbo by (rewrite (vi_disk0 b v Hb) in Hd; by case_decide).
  assert (forall i, 0 <= i < NUM_DESC -> upd (upd (upd (free s) (f0 c) false) (f1 c) false) (f2 c) false i = true <-> free s i = true /\ i ∉ chain c) as Hfree.
  { intros i Hir. rewrite !upd_case. unfold chain. rewrite !not_elem_of_cons. repeat case_decide; subst; try (split; [done|naive_solver]). pose proof (not_elem_of_nil i). naive_solver. }
  split; cbn [free desc info bufs avail_ring avail_idx u_ring u_idx used_idx d_locked submitted]; try done.
  - rewrite chains_cons. apply NoDup_app. split_and!; [done|intros i Hi; by apply Hout|done].
  - intros i. rewrite chains_cons, elem_of_app. intros [?|?]; auto.
  - intros i Hir. rewrite Hfree by done. rewrite chains_cons, elem_of_app, vi_free0 by done. tauto.
  - intros c' [->|Hc]%elem_of_cons; [exists (b_type v); by apply (built_submitted s)|]. destruct (vi_built0 c' Hc) as [t Ht']. exists t. eapply built_keep; [|exact Ht']. intros i Hic.
    assert (i ∉ chain c) as Hic'. { intros Hx. eapply (Hout i Hx). apply elem_of_chains. eauto. } unfold chain in Hic'. rewrite !not_elem_of_cons in Hic'. destruct Hic' as (? & ? & ? & _). by rewrite !upd_ne by congruence.
  - intros c' [->|Hc]%elem_of_cons; [by rewrite upd_eq|]. rewrite upd_ne; [auto|]. intros E. apply (Hout (f0 c)); [by left|]. rewrite E. by apply head_in.
  - cbn [fmap list_fmap]. rewrite Hfb. by apply NoDup_cons.
  - intros c' [->|Hc]%elem_of_cons; [rewrite Hfb, lookup_insert_eq; eauto|]. rewrite lookup_insert. case_decide; [eauto|auto].
  - intros b' v'. rewrite lookup_insert. cbn [fmap list_fmap]. case_decide as E.
    + intros [= <-]. cbn. rewrite decide_True; [done|]. subst. by left.
    + intros Hb'. rewrite (vi_disk0 b' v' Hb'). apply decide_ext. rewrite elem_of_cons. naive_solver.
  - cbn [fmap list_fmap]. change (list_fmap flight Z f0 fl) with (f0 <$> fl). rewrite vi_heads0. rewrite <- app_assoc. cbn. by rewrite <- Permutation_middle.
  - intros k id Hk. rewrite vi_aidx0. rewrite u16_mod. apply lookup_app_Some in Hk as [Hk|[Hk1 Hk2]].
    + pose proof (lookup_lt_Some _ _ _ Hk). rewrite upd_ne; [by apply vi_avail0|]. unfold NUM_DESC. mlia.
    + apply list_lookup_singleton_Some in Hk2 as [Hk2 <-]. replace k with (length todo) by lia. by rewrite upd_eq.
  - rewrite vi_aidx0, u16_add, length_app. cbn [length]. f_equal. lia.
Qed.

(** * Reaping completions *)
Lemma free_desc_spec i (Q : unit -> disk -> Prop) s : 0 <= i < NUM_DESC -> free s i = false -> Q tt (set_free (upd (free s) i true) s) -> wp (free_desc i) Q s.
Proof. intros Hi Hf HQ. unfold free_desc. wp_steps. apply wp_in_desc; [done|]. wp_steps. rewrite Hf. by wp_steps. Qed.

Definition freed_chain (c : flight) (s : disk) : disk := set_free (upd (upd (upd (free s) (f0 c) true) (f1 c) true) (f2 c) true) s.
(** A chain as built has three links: the walk ends after them. *)
Lemma free_chain_spec s t c (Q : unit -> disk -> Prop) : built (desc s) t c -> (forall i, i ∈ chain c -> 0 <= i < NUM_DESC /\ free s i = false) -> NoDup (chain c) ->
  Q tt (freed_chain c s) -> wp (free_chain (f0 c)) Q s.
Proof.
  intros (H0 & H1 & H2) Hc Hn HQ. unfold chain in *. rewrite !NoDup_cons, !not_elem_of_cons in Hn. destruct Hn as ((N1 & N2 & _) & (N3 & _) & _).
  destruct (Hc (f0 c)) as [R0 F0]; [by left|]. destruct (Hc (f1 c)) as [R1 F1]; [by right; left|]. destruct (Hc (f2 c)) as [R2 F2]; [by do 2 right; left|].
  unfold free_chain. change (Z.to_nat NUM_DESC) with 8%nat. cbn [free_chain_loop].
  wp_steps. apply wp_in_desc; [done|]. wp_steps. rewrite H0. apply free_desc_spec; [done|done|]. cbn [d_flags d_next]. change (Z.land VIRTQ_DESC_F_NEXT VIRTQ_DESC_F_NEXT =? 0) with false. cbv iota. ds.
  wp_steps. apply wp_in_desc; [done|]. wp_steps. ds. rewrite H1. apply free_desc_spec; [done|ds; by rewrite upd_ne|]. cbn [d_flags d_next].
  replace (Z.land (Z.lor VIRTQ_DESC_F_NEXT (if t =? VIRTIO_BLK_T_OUT then VIRTQ_DESC_F_WRITE else 0)) VIRTQ_DESC_F_NEXT =? 0) with false by (by destruct (t =? VIRTIO_BLK_T_OUT)). cbv iota. ds.
  wp_steps. apply wp_in_desc; [done|]. wp_steps. ds. rewrite H2. apply free_desc_spec; [done|ds; by rewrite !upd_ne|]. cbn [d_flags]. change (Z.land VIRTQ_DESC_F_WRITE VIRTQ_DESC_F_NEXT =? 0) with true. cbv iota. wp_steps. exact HQ.
Qed.

Definition reaped_one (c : flight) (v : vbuf) (s : disk) : disk :=
  set_used_idx (u16 (used_idx s + 1)) (set_info (upd (info s) (f0 c) VNULL) (freed_chain c (set_bufs (<[fb c := set_disk 0 v]> (bufs s)) s))).

Lemma head_of fl todo pend dv s id : vinv fl todo pend dv s -> id ∈ pend -> exists c fl', fl ≡ₚ c :: fl' /\ f0 c = id.
Proof.
  intros Hi Hp. assert (id ∈ f0 <$> fl) as (c & -> & Hc)%list_elem_of_fmap by (rewrite (vi_heads _ _ _ _ _ Hi), !elem_of_app; tauto).
  apply list_elem_of_split in Hc as (l1 & l2 & ->). exists c, (l1 ++ l2). split; [by rewrite Permutation_middle|done].
Qed.

Lemma heads_inj c c' fl todo pend dv s : vinv (c :: fl) todo pend dv s -> c' ∈ fl -> f0 c <> f0 c'.
Proof.
  intros Hi Hc E. pose proof (vi_nodup _ _ _ _ _ Hi) as Hn. rewrite chains_cons in Hn. apply NoDup_app in Hn as (_ & Hn & _). apply (Hn (f0 c)); [by left|]. rewrite E. by apply head_in.
Qed.

Lemma reaped_inv c fl todo id pend dv s v : vinv (c :: fl) todo (id :: pend) dv s -> f0 c = id -> bufs s !! fb c = Some v -> vinv fl todo pend dv (reaped_one c v s).
Proof.
  intros Hi Hid Hb. pose proof (fun c' => heads_inj c c' _ _ _ _ _ Hi) as Hinj. assert (length pend <= 1)%nat as Hl.
  { pose proof (few_flights _ _ _ _ _ Hi). pose proof (Permutation_length (vi_heads _ _ _ _ _ Hi)) as Hl. rewrite length_fmap, !length_app in Hl. cbn [length] in *. lia. }
  destruct Hi. rewrite chains_cons in *. apply NoDup_app in vi_nodup0 as (Hn1 & Hn2 & Hn3). cbn [fmap list_fmap] in vi_owner0. apply NoDup_cons in vi_owner0 as [Ho1 Ho2].
  assert (forall i, 0 <= i < NUM_DESC -> upd (upd (upd (free s) (f0 c) true) (f1 c) true) (f2 c) true i = true <-> free s i = true \/ i ∈ chain c) as Hfree.
  { intros i Hir. rewrite !upd_case. unfold chain. rewrite !elem_of_cons, elem_of_nil. repeat case_decide; subst; naive_solver. }
  unfold reaped_one, freed_chain. split; ds; try done.
  - intros i Hi. apply vi_range0, elem_of_app. by right.
  - intros i Hir. rewrite Hfree, vi_free0, elem_of_app by done. split; [intros [?|Hx]; [tauto|by apply Hn2]|]. intros Hx. destruct (decide (i ∈ chain c)); [by right|left; tauto].
  - intros c' Hc. apply vi_built0. by right.
  - intros c' Hc. rewrite upd_ne by by apply Hinj. apply vi_info0. by right.
  - intros c' Hc. rewrite lookup_insert. case_decide; [eauto|]. apply vi_bufs0. by right.
  - intros b v'. rewrite lookup_insert. case_decide as E.
    + intros [= <-]. cbn. rewrite decide_False; [done|]. by rewrite <- E.
    + intros Hb'. rewrite (vi_disk0 b v' Hb'). apply decide_ext. cbn [fmap list_fmap]. rewrite elem_of_cons. naive_solver.
  - cbn [fmap list_fmap] in vi_heads0. rewrite Hid in vi_heads0. rewrite <- !Permutation_middle in vi_heads0. by apply Permutation_cons_inv in vi_heads0.
  - intros k id' Hk. rewrite <- (vi_used0 (S k) id' Hk). f_equal. rewrite <- Z.add_mod_idemp_l, u16_mod, Z.add_mod_idemp_l by done. f_equal. lia.
  - rewrite vi_uidx0. rewrite u16_add. cbn [length]. f_equal. lia.
  - split; [apply vi_words0|apply u16_range].
Qed.

Lemma reap_one_spec fl todo id pend dv s : vinv fl todo (id :: pend) dv s ->
  wp reap_one (fun _ s' => exists c fl', fl ≡ₚ c :: fl' /\ f0 c = id /\ vinv fl' todo pend dv s' /\ mmio s' = mmio s /\ d_wq s' = d_wq s /\ avail_ring s' = avail_ring s) s.
Proof.
  intros Hi. destruct (head_of _ _ _ _ _ id Hi) as (c & fl' & Hp & Hid); [by left|]. rewrite Hp in Hi. pose proof (vi_used _ _ _ _ _ Hi 0%nat id eq_refl) as Hu. change (Z.of_nat 0) with 0 in Hu. rewrite Z.add_0_r in Hu.
  destruct (vi_bufs _ _ _ _ _ Hi c) as [v Hv]; [by left|]. destruct (vi_built _ _ _ _ _ Hi c) as [t Ht]; [by left|].
  unfold reap_one. wp_steps. rewrite Hu, <- Hid. apply wp_in_desc; [apply (vi_range _ _ _ _ _ Hi), head_in; by left|]. wp_steps. rewrite (vi_info _ _ _ _ _ Hi) by by left.
  eapply wp_upd_buf; [exact Hv|]. wp_steps. eapply (free_chain_spec _ t c); [exact Ht| | |].
  - intros i Hic. assert (i ∈ chains (c :: fl')) as Hin by (rewrite chains_cons, elem_of_app; by left). pose proof (vi_range _ _ _ _ _ Hi i Hin) as Hir. split; [done|]. ds.
    apply not_true_is_false. rewrite (vi_free _ _ _ _ _ Hi i Hir). tauto.
  - pose proof (vi_nodup _ _ _ _ _ Hi) as Hn. rewrite chains_cons in Hn. by apply NoDup_app in Hn as (? & _).
  - wp_steps. exists c, fl'. split_and!; try done. by apply (reaped_inv c fl' todo id pend dv s v).
Qed.

(** [fl'] is [fl] without the requests with heads [pend]. *)
Definition left_over (fl fl' : list flight) (pend : list Z) : Prop := exists l, fl ≡ₚ fl' ++ l /\ (f0 <$> l) ≡ₚ pend.

Lemma reap_loop_spec todo dv : forall pend fl s, vinv fl todo pend dv s ->
  wp (reap_loop (length pend)) (fun _ s' => exists fl', vinv fl' todo [] dv s' /\ left_over fl fl' pend /\ d_wq s' = d_wq s) s.
Proof.
  induction pend as [|id pend IH]; intros fl s Hi; cbn [reap_loop length]; wp_steps; pose proof (vi_uidx _ _ _ _ _ Hi) as Hu; pose proof (vi_words _ _ _ _ _ Hi) as [_ Hw].
  - rewrite Hu. change (Z.of_nat (length [])) with 0. unfold u16. rewrite Z.add_0_r, Z.mod_small by done. rewrite Z.eqb_refl. wp_steps. exists fl. split_and!; [done| |done]. exists []. by rewrite app_nil_r.
  - assert (length (id :: pend) <= 2)%nat as Hl.
    { pose proof (few_flights _ _ _ _ _ Hi). pose proof (Permutation_length (vi_heads _ _ _ _ _ Hi)) as Hl. rewrite length_fmap, !length_app in Hl. lia. }
    destruct (Z.eqb_spec (used_idx s) (u_idx s)) as [E|_].
    { exfalso. rewrite Hu in E. unfold u16 in E. change (2 ^ 16) with 65536 in *. cbn [length] in *. mlia. }
    wp_steps. eapply wp_mono; [by apply reap_one_spec|]. intros [] s' (c & fl' & Hp & Hid & Hi' & _ & Hq & _). eapply wp_mono; [by apply IH|]. intros [] s'' (fl'' & Hi'' & Hp' & Hq'). exists fl''. split_and!; [done| |congruence].
    destruct Hp' as (l & Hl1 & Hl2). exists (c :: l). rewrite Hp, Hl1. cbn [fmap list_fmap]. rewrite Hid. split; [by rewrite Permutation_middle|]. by apply Permutation_cons.
Qed.

(** The lock, the wait queue and the log are not part of the invariant. *)
Lemma vinv_frame fl todo pend dv s s' : vinv fl todo pend dv s -> desc s' = desc s -> avail_idx s' = avail_idx s -> avail_ring s' = avail_ring s -> u_idx s' = u_idx s -> u_ring s' = u_ring s ->
  used_idx s' = used_idx s -> free s' = free s -> info s' = info s -> bufs s' = bufs s -> vinv fl todo pend dv s'.
Proof. intros [] E1 E2 E3 E4 E5 E6 E7 E8 E9. split; rewrite ?E1, ?E2, ?E3, ?E4, ?E5, ?E6, ?E7, ?E8, ?E9; done. Qed.

Lemma intr_spec fl todo pend dv s isr : vinv fl todo pend dv s -> d_locked s = false ->
  wp (virtio_blk_intr isr) (fun _ s' => exists fl', vinv fl' todo [] dv s' /\ d_locked s' = false /\ left_over fl fl' pend /\ d_wq s' = []) s.
Proof.
  intros Hi Hlk. unfold virtio_blk_intr, lock_disk, virtio_write, unlock_disk. wp_steps. rewrite Hlk. wp_steps. ds.
  assert (Z.to_nat (u16 (u_idx s - used_idx s)) = length pend) as ->.
  { rewrite (vi_uidx _ _ _ _ _ Hi). pose proof (vi_words _ _ _ _ _ Hi) as [_ Hw]. pose proof (few_flights _ _ _ _ _ Hi). pose proof (Permutation_length (vi_heads _ _ _ _ _ Hi)) as Hl. rewrite length_fmap, !length_app in Hl.
    unfold u16. rewrite Zminus_mod_idemp_l. replace (used_idx s + Z.of_nat (length pend) - used_idx s) with (Z.of_nat (length pend)) by lia. rewrite Z.mod_small by (change (2 ^ 16) with 65536; lia). lia. }
  eapply wp_mono; [apply (reap_loop_spec todo dv pend fl); eapply vinv_frame; [exact Hi|done..]|].
  intros [] s' (fl' & Hi' & Hp & _). wp_steps. exists fl'. split_and!; try done. eapply vinv_frame; [exact Hi'|done..].
Qed.

(** The requests left after an interrupt are those not completed. *)
Lemma reaped_members fl fl' todo pend dv s c : vinv fl todo pend dv s -> left_over fl fl' pend -> c ∈ fl' <-> c ∈ fl /\ f0 c ∉ pend.
Proof.
  intros Hi (l & Hl & Hp). rewrite Hl in Hi. pose proof (vi_nodup _ _ _ _ _ Hi) as Hn. unfold chains in Hn. rewrite bind_app in Hn. apply NoDup_app in Hn as (_ & Hn & _). rewrite Hl, elem_of_app, <- Hp. split.
  - intros Hc. split; [by left|]. intros (c' & E & Hc')%list_elem_of_fmap. apply (Hn (f0 c)); [by apply head_in|]. rewrite E. by apply head_in.
  - intros [[?|Hc] Hx]; [done|]. destruct Hx. by apply list_elem_of_fmap_2.
Qed.

Lemma intr_reaped fl todo pend dv s isr : vinv fl todo pend dv s -> d_locked s = false ->
  wp (virtio_blk_intr isr) (fun _ s' => exists fl', vinv fl' todo [] dv s' /\ d_wq s' = [] /\ forall c, c ∈ fl' <-> c ∈ fl /\ f0 c ∉ pend) s.
Proof.
  intros Hi Hlk. eapply wp_mono; [by apply intr_spec|]. intros [] s' (fl' & Hi' & _ & Hlo & Hq). exists fl'. split_and!; [done|done|]. intros c. by apply (reaped_members fl fl' todo pend dv s).
Qed.

(** * Waiting and the device *)
Lemma submit_spec fl todo pend dv s p b v : vinv fl todo pend dv s -> d_locked s = false -> bufs s !! b = Some v -> b_disk v = 0 ->
  wp (virtio_blk_submit p b) (fun r s' => d_locked s' = false /\
    if (length fl <=? 1)%nat then r = true /\ exists c, fb c = b /\ taken s c /\ vinv (c :: fl) (todo ++ [f0 c]) pend dv s' /\ s' = submitted b v c s
    else r = false /\ vinv fl todo pend dv s' /\ s' = set_wq (d_wq s ++ [p]) s) s.
Proof.
  intros Hi Hlk Hb Hd. unfold virtio_blk_submit, lock_disk, submit_iter, count_free, sleep_disk, unlock_disk. wp_steps. rewrite Hlk. wp_steps. ds. rewrite (count_free_flights _ _ _ _ _ Hi). unfold NUM_DESC.
  destruct (Nat.leb_spec (length fl) 1) as [Hl|Hl]; destruct (Z.ltb_spec (8 - 3 * Z.of_nat (length fl)) 3) as [Hc|Hc]; try lia.
  - wp_steps. eapply submit_chain_spec; [exact Hb|ds; rewrite (count_free_flights _ _ _ _ _ Hi); unfold NUM_DESC; lia|]. intros c Hfb [T1 T2 T3]. assert (taken s c) as Ht by by split. wp_steps. split; [done|]. split; [done|]. exists c. split_and!; try done.
    + eapply vinv_frame; [by apply (submitted_inv fl todo pend dv s b v c)|done..].
    + unfold submitted. destruct s. cbn in *. by subst.
  - wp_steps. split; [done|]. split; [done|]. split; [eapply vinv_frame; [exact Hi|done..]|]. destruct s. cbn in *. by subst.
Qed.

Lemma rw_wait_spec fl todo pend dv s p b v : vinv fl todo pend dv s -> d_locked s = false -> bufs s !! b = Some v ->
  (b ∉ fb <$> fl -> b_status v = VIRTIO_BLK_S_OK) ->
  wp (rw_wait p b) (fun r s' => r = bool_decide (b ∉ fb <$> fl) /\ s' = if r then s else set_wq (d_wq s ++ [p]) s) s.
Proof.
  intros Hi Hlk Hb Hs. unfold rw_wait, rw_iter, lock_disk, sleep_disk, unlock_disk. wp_steps. rewrite Hlk. wp_steps. eapply wp_get_buf; [exact Hb|]. rewrite (vi_disk _ _ _ _ _ Hi b v Hb). case_decide as E.
  - rewrite bool_decide_false by tauto. change (1 =? 1) with true. cbv iota. wp_steps. split; [done|]. destruct s. cbn in *. by subst.
  - rewrite bool_decide_true by done. change (0 =? 1) with false. cbv iota. wp_steps. eapply wp_get_buf; [exact Hb|]. rewrite (Hs E). cbn. split; [done|]. destruct s. cbn in *. by subst.
Qed.

(** The device: it takes heads from the available ring in order, completes what it
    has taken in any order, writing the status byte and the used ring. *)
Inductive device (s : disk) (dv : vdev) : disk -> vdev -> Prop :=
| dev_fetch : v_next dv <> avail_idx s -> device s dv s (mk_vdev (u16 (v_next dv + 1)) (avail_ring s (v_next dv mod NUM_DESC) :: v_work dv))
| dev_complete l1 id l2 st b v : v_work dv = l1 ++ id :: l2 -> d_addr (desc s (d_next (desc s (d_next (desc s id))))) = b + STATUS_OFF -> bufs s !! b = Some v ->
    device s dv (set_used (u16 (u_idx s + 1)) (upd (u_ring s) (u_idx s mod NUM_DESC) id) (set_bufs (<[b := set_status st v]> (bufs s)) s)) (mk_vdev (v_next dv) (l1 ++ l2)).

Lemma device_inv fl todo pend dv s s' dv' : vinv fl todo pend dv s -> device s dv s' dv' ->
  exists todo' pend', vinv fl todo' pend' dv' s' /\ d_locked s' = d_locked s /\ d_wq s' = d_wq s.
Proof.
  intros Hi Hd. assert (length todo + length (v_work dv) + length pend <= 2)%nat as Hl.
  { pose proof (few_flights _ _ _ _ _ Hi). pose proof (Permutation_length (vi_heads _ _ _ _ _ Hi)) as Hl. rewrite length_fmap, !length_app in Hl. lia. }
  destruct Hd as [Hn|l1 id l2 st b v Hw Ha Hb].
  - destruct todo as [|id todo]; [exfalso; apply Hn; rewrite (vi_aidx _ _ _ _ _ Hi); pose proof (vi_words _ _ _ _ _ Hi) as [Hx _]; change (Z.of_nat (length [])) with 0; unfold u16; rewrite Z.add_0_r, Z.mod_small by done; done|].
    exists todo, pend. split_and!; try done. pose proof (vi_avail _ _ _ _ _ Hi 0%nat id eq_refl) as Hr. change (Z.of_nat 0) with 0 in Hr. rewrite Z.add_0_r in Hr. rewrite Hr. destruct Hi. split; cbn [v_next v_work]; try done.
    + rewrite vi_heads0. cbn. by rewrite <- Permutation_middle.
    + intros k id' Hk. rewrite <- (vi_avail0 (S k) id' Hk). f_equal. rewrite <- Z.add_mod_idemp_l, u16_mod, Z.add_mod_idemp_l by done. f_equal. lia.
    + rewrite vi_aidx0, u16_add. cbn [length]. f_equal. lia.
    + split; [apply u16_range|apply vi_words0].
  - exists todo, (pend ++ [id]). split_and!; try done. destruct Hi. split; ds; cbn [v_next v_work]; try done.
    + intros c Hc. rewrite lookup_insert. case_decide; [eauto|auto].
    + intros b' v'. rewrite lookup_insert. case_decide as E; [|auto]. intros [= <-]. cbn. subst. by apply vi_disk0.
    + rewrite vi_heads0, Hw. apply Permutation_app_head. rewrite <- (Permutation_middle l1 l2 id). rewrite (app_assoc (l1 ++ l2) pend [id]). apply Permutation_cons_append.
    + intros k id' Hk. rewrite vi_uidx0, u16_mod. apply lookup_app_Some in Hk as [Hk|[Hk1 Hk2]].
      * pose proof (lookup_lt_Some _ _ _ Hk). rewrite upd_ne; [by apply vi_used0|]. unfold NUM_DESC. rewrite Hw, length_app in Hl. cbn [length] in Hl. mlia.
      * apply list_lookup_singleton_Some in Hk2 as [Hk2 <-]. replace k with (length pend) by lia. by rewrite upd_eq.
    + rewrite vi_uidx0, u16_add, length_app. cbn [length]. f_equal. lia.
Qed.
