(* ===== verification/VirtioThm.v ===== *)
(** The theorems on the block driver: the handshake, the layout of a request, and
    safety of every interleaving of processes, device and interrupts. *)
From stdpp Require Import gmap relations.
From S2P Require Import Prelude Layout Virtio VirtioInv.

(** * Initialisation *)

(** What a working device answers. *)
Definition device_present (rd : Z -> Z) : Prop :=
  rd VIRTIO_MMIO_MAGIC_VALUE = VIRTIO_MAGIC /\ rd VIRTIO_MMIO_VERSION = VIRTIO_VERSION /\ rd VIRTIO_MMIO_DEVICE_ID = VIRTIO_DEV_BLOCK /\
  Z.land (rd VIRTIO_MMIO_STATUS) VIRTIO_STATUS_FEATURES_OK <> 0 /\ NUM_DESC <= rd VIRTIO_MMIO_QUEUE_NUM_MAX.

(** The register writes the virtio specification prescribes: reset, acknowledge,
    driver, features, features_ok, the queue, and driver_ok last. *)
Definition handshake (pd pa pu : Z) : list (Z * Z) :=
  [(VIRTIO_MMIO_STATUS, 0); (VIRTIO_MMIO_STATUS, 1); (VIRTIO_MMIO_STATUS, 3);
   (VIRTIO_MMIO_DRIVER_FEATURES_SEL, 0); (VIRTIO_MMIO_DRIVER_FEATURES, 0); (VIRTIO_MMIO_DRIVER_FEATURES_SEL, 1); (VIRTIO_MMIO_DRIVER_FEATURES, 0);
   (VIRTIO_MMIO_STATUS, 11); (VIRTIO_MMIO_QUEUE_SEL, 0); (VIRTIO_MMIO_QUEUE_NUM, NUM_DESC);
   (VIRTIO_MMIO_QUEUE_DESC_LOW, u32 pd); (VIRTIO_MMIO_QUEUE_DESC_LOW + 4, u32 (Z.shiftr pd 32));
   (VIRTIO_MMIO_QUEUE_DRIVER_LOW, u32 pa); (VIRTIO_MMIO_QUEUE_DRIVER_LOW + 4, u32 (Z.shiftr pa 32));
   (VIRTIO_MMIO_QUEUE_DEVICE_LOW, u32 pu); (VIRTIO_MMIO_QUEUE_DEVICE_LOW + 4, u32 (Z.shiftr pu 32));
   (VIRTIO_MMIO_QUEUE_READY, 1); (VIRTIO_MMIO_STATUS, 15)].

Lemma u32_idem x : u32 (u32 x) = u32 x.
Proof. unfold u32. by rewrite Z.mod_mod by lia. Qed.

Definition quiet (bs : gmap Z vbuf) : Prop := forall b v, bs !! b = Some v -> b_disk v = 0.

(** Register writes only extend the log. *)
Lemma wp_vwrite off val l s (Q : unit -> disk -> Prop) : Q tt (set_mmio (l ++ [(off, u32 val)]) s) -> wp (virtio_write off val) Q (set_mmio l s).
Proof. done. Qed.
Lemma wp_vwrite_addr low ptr l s (Q : unit -> disk -> Prop) : Q tt (set_mmio (l ++ [(low, u32 ptr); (low + 4, u32 (Z.shiftr ptr 32))]) s) -> wp (virtio_write_addr low ptr) Q (set_mmio l s).
Proof. intros HQ. unfold virtio_write_addr. apply wp_bind, wp_vwrite, wp_vwrite. rewrite !u32_idem, <- app_assoc. exact HQ. Qed.
Ltac vwrite := repeat (match goal with
  | |- wp (mbind _ (virtio_write _ _)) _ _ => apply wp_bind, wp_vwrite
  | |- wp (mbind _ (virtio_write_addr _ _)) _ _ => apply wp_bind, wp_vwrite_addr
  end; cbv beta).

Lemma mark_free l s (Q : unit -> disk -> Prop) : (forall f, (forall i, 0 <= i < NUM_DESC -> f i = true) -> Q tt (set_mmio l (set_free f s))) ->
  wp (for_range (Z.to_nat NUM_DESC) 0 (fun i => modify (fun s => set_free (upd (free s) i true) s))) Q (set_mmio l s).
Proof.
  intros HQ. apply (wp_for_range (fun j s' => exists f, s' = set_mmio l (set_free f s) /\ forall i, 0 <= i < j -> f i = true)).
  - exists (free s). split; [by destruct s|]. intros i Hi. lia.
  - intros j s' Hj (f & -> & Hf). apply wp_modify. exists (upd f j true). split; [done|]. intros i Hi. rewrite upd_case. case_decide; [done|]. apply Hf. lia.
  - intros s' (f & -> & Hf). apply HQ. intros i Hi. apply Hf. exact Hi.
Qed.

Lemma virtio_init_spec rd pd pa pu s : device_present rd -> pd <> VNULL -> pa <> VNULL -> pu <> VNULL -> quiet (bufs s) -> used_idx s = 0 ->
  wp (virtio_blk_init rd pd pa pu) (fun _ s' => mmio s' = mmio s ++ handshake pd pa pu /\ vinv [] [] [] (mk_vdev 0 []) s' /\ d_locked s' = false /\ d_wq s' = [] /\ bufs s' = bufs s) s.
Proof.
  intros (H1 & H2 & H3 & H4 & H5) Hd Ha Hu Hq Hui. unfold virtio_blk_init. apply wp_bind, wp_modify, wp_bind, wp_modify. change (set_wq [] (set_locked false s)) with (set_mmio (mmio s) (set_wq [] (set_locked false s))).
  rewrite H1, H2, H3. change (negb (VIRTIO_MAGIC =? VIRTIO_MAGIC) || negb (VIRTIO_VERSION =? VIRTIO_VERSION) || negb (VIRTIO_DEV_BLOCK =? VIRTIO_DEV_BLOCK)) with false. cbv zeta iota. vwrite.
  apply wp_bind. cbn [for_range]. apply wp_bind. vwrite. apply wp_vwrite. apply wp_bind, wp_bind. vwrite. apply wp_vwrite, wp_ret. vwrite.
  rewrite (proj2 (Z.eqb_neq _ _) H4). cbv iota. vwrite. destruct (Z.eqb_spec (rd VIRTIO_MMIO_QUEUE_NUM_MAX) 0) as [E|_]; [rewrite E in H5; by destruct H5|]. rewrite (proj2 (Z.ltb_ge _ _) H5).
  rewrite (proj2 (Z.eqb_neq _ _) Hd), (proj2 (Z.eqb_neq _ _) Ha), (proj2 (Z.eqb_neq _ _) Hu). cbn [orb]. do 3 apply wp_bind, wp_modify.
  match goal with |- wp _ _ (set_used ?i ?r (set_avail ?i ?r (set_desc ?d (set_mmio ?l ?s0)))) => change (set_used i r (set_avail i r (set_desc d (set_mmio l s0)))) with (set_mmio l (set_used i r (set_avail i r (set_desc d s0)))) end.
  apply wp_bind, mark_free. intros f Hf. vwrite. apply wp_vwrite. split; [|split; [|done]].
  - ds. rewrite <- !app_assoc. reflexivity.
  - split; ds; try done; try (by intros c ?%elem_of_nil); try constructor; try by rewrite Hui.
    + intros _. apply not_elem_of_nil.
    + intros _. by apply Hf.
    + cbn. lia.
Qed.

(** * Runs *)

(** Processes prepare and submit requests and wait for them (a call that had to
    sleep comes again), the device works, interrupts arrive, in any order.  A
    process only touches a buffer the device does not own. *)
Inductive vstep : disk * vdev -> disk * vdev -> Prop :=
| vs_prepare s dv b v n t : bufs s !! b = Some v -> b_disk v = 0 ->
    vstep (s, dv) (set_bufs (<[b := mk_vbuf n t (b_reserved v) (b_sector v) (b_status v) 0]> (bufs s)) s, dv)
| vs_submit s dv s' p b v r : bufs s !! b = Some v -> b_disk v = 0 -> virtio_blk_submit p b s = Ok (r, s') -> vstep (s, dv) (s', dv)
| vs_wait s dv s' p b r : rw_wait p b s = Ok (r, s') -> vstep (s, dv) (s', dv)
| vs_device s dv s' dv' : device s dv s' dv' -> vstep (s, dv) (s', dv')
| vs_intr s dv s' isr : virtio_blk_intr isr s = Ok (tt, s') -> vstep (s, dv) (s', dv).

Definition sys_inv (x : disk * vdev) : Prop := exists fl todo pend, vinv fl todo pend x.2 x.1 /\ d_locked x.1 = false.

Lemma prepare_inv fl todo pend dv s b v n t : vinv fl todo pend dv s -> bufs s !! b = Some v -> b_disk v = 0 ->
  vinv fl todo pend dv (set_bufs (<[b := mk_vbuf n t (b_reserved v) (b_sector v) (b_status v) 0]> (bufs s)) s).
Proof.
  intros Hi Hb Hd. destruct Hi. split; ds; try done.
  - intros c Hc. rewrite lookup_insert. case_decide; [by eexists|by apply vi_bufs].
  - intros b' v'. rewrite lookup_insert. case_decide as E; [|by apply vi_disk]. intros [= <-]. subst. cbn [b_disk]. by rewrite <- (vi_disk _ _ Hb).
Qed.

Lemma wait_keeps p b s r s' : d_locked s = false -> rw_wait p b s = Ok (r, s') -> d_locked s' = false /\ s' = set_wq (d_wq s') s.
Proof.
  intros Hl. unfold rw_wait, rw_iter, lock_disk, sleep_disk, unlock_disk, get_buf, mbind, M_bind, gets, modify, mret, M_ret. rewrite Hl. cbn. destruct (bufs s !! b) as [v|]; [|done]. destruct (b_disk v =? 1).
  - intros [= _ <-]. destruct s. cbn in *. by subst.
  - cbn. destruct (bufs s !! b) as [w|]; [|done]. destruct (negb _); [done|]. intros [= _ <-]. destruct s. cbn in *. by subst.
Qed.

Lemma vstep_inv x y : sys_inv x -> vstep x y -> sys_inv y.
Proof.
  intros (fl & todo & pend & Hi & Hl) Hs. destruct Hs as [s dv b v n t Hb Hd|s dv s' p b v r Hb Hd E|s dv s' p b r E|s dv s' dv' E|s dv s' isr E]; cbn [fst snd] in *.
  - exists fl, todo, pend. split; [|done]. by apply prepare_inv.
  - destruct (wp_elim _ _ _ (submit_spec fl todo pend dv s p b v Hi Hl Hb Hd)) as (r' & s1 & E1 & Hl' & Hp). rewrite E in E1. injection E1 as <- <-. destruct (length fl <=? 1)%nat.
    + destruct Hp as (_ & c & _ & _ & Hi' & _). exists (c :: fl), (todo ++ [f0 c]), pend. done.
    + destruct Hp as (_ & Hi' & _). exists fl, todo, pend. done.
  - destruct (wait_keeps _ _ _ _ _ Hl E) as [Hl' Es]. exists fl, todo, pend. split; [|done]. cbn. rewrite Es. eapply vinv_frame; [exact Hi|done..].
  - destruct (device_inv _ _ _ _ _ _ _ Hi E) as (todo' & pend' & Hi' & Hl' & _). exists fl, todo', pend'. split; [done|]. cbn. congruence.
  - destruct (wp_elim _ _ _ (intr_spec fl todo pend dv s isr Hi Hl)) as ([] & s1 & E1 & fl' & Hi' & Hl' & _). rewrite E in E1. injection E1 as <-. exists fl', todo, []. done.
Qed.

(** * The layout of a request *)

(** with at least three free descriptors virtio_blk_submit returns at once:
    it takes three distinct free descriptors and no others, links header, data and
    status of the buffer in this order, records the owner and marks the buffer in
    flight, computes the sector without overflow, publishes the head in the slot the
    device reads next and only then rings the doorbell.  The data descriptor carries
    the flag WRITE, by which the device may write the block, exactly for requests of
    type OUT: the opposite of what the direction of the transfer needs. *)
Lemma virtio_submit_correct fl todo pend dv s p b v : vinv fl todo pend dv s -> d_locked s = false -> bufs s !! b = Some v -> b_disk v = 0 -> 0 <= b_blockno v < 2 ^ 32 -> (length fl <= 1)%nat ->
  exists s' c, virtio_blk_submit p b s = Ok (true, s') /\ vinv (c :: fl) (todo ++ [f0 c]) pend dv s' /\ fb c = b /\ taken s c /\
    desc s' (f0 c) = mk_desc (b + REQ_OFF) SIZEOF_REQ VIRTQ_DESC_F_NEXT (f1 c) /\
    d_addr (desc s' (f1 c)) = b + DATA_OFF /\ d_len (desc s' (f1 c)) = BSIZE /\ d_next (desc s' (f1 c)) = f2 c /\
    (Z.testbit (d_flags (desc s' (f1 c))) 1 = true <-> b_type v = VIRTIO_BLK_T_OUT) /\
    desc s' (f2 c) = mk_desc (b + STATUS_OFF) 1 VIRTQ_DESC_F_WRITE 0 /\
    (forall i, i ∉ chain c -> desc s' i = desc s i /\ free s' i = free s i) /\
    (exists v', bufs s' = <[b := v']> (bufs s) /\ b_disk v' = 1 /\ b_sector v' = 8 * b_blockno v /\ b_type v' = b_type v) /\
    avail_ring s' (avail_idx s mod NUM_DESC) = f0 c /\ avail_idx s' = u16 (avail_idx s + 1) /\ mmio s' = mmio s ++ [(VIRTIO_MMIO_QUEUE_NOTIFY, 0)].
Proof.
  intros Hi Hl Hb Hd Hn Hfl. destruct (wp_elim _ _ _ (submit_spec fl todo pend dv s p b v Hi Hl Hb Hd)) as (r & s' & E & _ & Hp). rewrite (proj2 (Nat.leb_le _ _) Hfl) in Hp. destruct Hp as (-> & c & Hfb & Ht & Hi' & Hs).
  exists s', c. pose proof (built_submitted s b v c Hfb (tk_nodup _ _ Ht)) as (B0 & B1 & B2). rewrite <- Hs, Hfb in B0, B1, B2. split_and!; try done; rewrite ?B1; try done.
  - cbn [d_flags]. destruct (Z.eqb_spec (b_type v) VIRTIO_BLK_T_OUT) as [E1|E1]; split; done.
  - intros i Hic. unfold chain in Hic. rewrite !not_elem_of_cons in Hic. destruct Hic as (? & ? & ? & _). rewrite Hs. cbn. by rewrite !upd_ne by congruence.
  - eexists. split; [by rewrite Hs|]. split; [done|]. split; [|done]. cbn. change SECTORS_PER_BLOCK with 8. rewrite u64_small by lia. lia.
  - rewrite Hs. cbn. by rewrite upd_eq.
  - by rewrite Hs.
  - by rewrite Hs.
Qed.

(** * Safety of all interleavings *)

(** The buffers whose requests the device has completed. *)
Definition in_flight (s : disk) (b : Z) : Prop := exists v, bufs s !! b = Some v /\ b_disk v = 1.

Lemma in_flight_iff fl todo pend dv s b : vinv fl todo pend dv s -> in_flight s b <-> b ∈ fb <$> fl.
Proof.
  intros Hi. split.
  - intros (v & Hb & Hd). rewrite (vi_disk _ _ _ _ _ Hi b v Hb) in Hd. by case_decide.
  - intros Hin. apply list_elem_of_fmap in Hin as (c & -> & Hc). destruct (vi_bufs _ _ _ _ _ Hi c Hc) as [v Hv]. exists v. split; [done|]. rewrite (vi_disk _ _ _ _ _ Hi _ v Hv), decide_True; [done|]. by apply list_elem_of_fmap_2.
Qed.

(** after a successful virtio_blk_init, in every state any interleaving of
    processes, device and interrupts can reach, no descriptor belongs to two
    requests or is both free and in use, at most two requests are in flight, and
    both ring counters are consistent across the wrap of their 16 bits.  The next
    interrupt is always handled: virtio_blk_intr terminates without panic or double
    free, takes exactly the completed requests out of flight and wakes every
    waiter; virtio_blk_submit of an idle buffer always returns, and sleeps exactly
    when two requests are in flight. *)
Lemma virtio_safe rd pd pa pu s0 s1 s dv : virtio_blk_init rd pd pa pu s0 = Ok (tt, s1) -> device_present rd -> pd <> VNULL -> pa <> VNULL -> pu <> VNULL -> quiet (bufs s0) -> used_idx s0 = 0 ->
  rtc vstep (s1, mk_vdev 0 []) (s, dv) ->
  exists fl todo pend, vinv fl todo pend dv s /\ (length fl <= 2)%nat /\
    (forall isr, exists s', virtio_blk_intr isr s = Ok (tt, s') /\ d_wq s' = [] /\ used_idx s' = u_idx s' /\
       forall b, in_flight s' b <-> exists c, c ∈ fl /\ fb c = b /\ f0 c ∉ pend) /\
    (forall p b v, bufs s !! b = Some v -> b_disk v = 0 -> exists s', virtio_blk_submit p b s = Ok (bool_decide (length fl <= 1)%nat, s')).
Proof.
  intros E Hd Hpd Hpa Hpu Hq Hu Hr. destruct (wp_elim _ _ _ (virtio_init_spec rd pd pa pu s0 Hd Hpd Hpa Hpu Hq Hu)) as ([] & s1' & E1 & _ & Hv & Hl & _). rewrite E in E1. injection E1 as <-.
  assert (sys_inv (s1, mk_vdev 0 [])) as H1 by (exists [], [], []; done).
  assert (sys_inv (s, dv)) as (fl & todo & pend & Hi & Hlk). { clear -H1 Hr. remember (s1, mk_vdev 0 []) as x. remember (s, dv) as y. clear Heqx Heqy. induction Hr as [|x z y Hst _ IH]; [done|]. by apply IH, (vstep_inv x). }
  cbn [fst snd] in *. exists fl, todo, pend. split_and!; [done|by eapply few_flights| |].
  - intros isr. destruct (wp_elim _ _ _ (intr_reaped fl todo pend dv s isr Hi Hlk)) as ([] & s' & E1 & fl' & Hi' & Hq' & Hfl'). exists s'. split_and!; try done.
    + rewrite (vi_uidx _ _ _ _ _ Hi'). change (Z.of_nat (length [])) with 0. rewrite Z.add_0_r. unfold u16. pose proof (vi_words _ _ _ _ _ Hi') as [_ Hw]. by rewrite Z.mod_small.
    + intros b. rewrite (in_flight_iff _ _ _ _ _ b Hi'), list_elem_of_fmap. setoid_rewrite Hfl'. naive_solver.
  - intros p b v Hb Hbd. destruct (wp_elim _ _ _ (submit_spec fl todo pend dv s p b v Hi Hlk Hb Hbd)) as (r & s' & E1 & _ & Hp). exists s'. rewrite E1. destruct (Nat.leb_spec (length fl) 1) as [Hle|Hgt]; destruct Hp as (-> & _).
    + by rewrite bool_decide_true.
    + by rewrite bool_decide_false by lia.
Qed.

(** A run: two requests are submitted, the device takes both and completes the
    second first. *)
Definition demo_rd (off : Z) : Z :=
  if off =? VIRTIO_MMIO_MAGIC_VALUE then VIRTIO_MAGIC else if off =? VIRTIO_MMIO_VERSION then 2 else if off =? VIRTIO_MMIO_DEVICE_ID then 2 else
  if off =? VIRTIO_MMIO_STATUS then 11 else if off =? VIRTIO_MMIO_QUEUE_NUM_MAX then 256 else 0.
Definition demo0 : disk := mk_disk (fun _ => mk_desc 0 0 0 0) 0 (fun _ => 0) 0 (fun _ => 0) 0 (fun _ => false) (fun _ => 0) false [] {[ 10000 := mk_vbuf 5 1 0 0 0 0; 20000 := mk_vbuf 9 0 0 0 0 0 ]} [].
Definition after {A} (m : M disk A) (s : disk) : disk := match m s with Ok (_, s') => s' | _ => s end.
Definition demo1 : disk := after (virtio_blk_init demo_rd 4096 8192 12288) demo0.
Definition demo2 : disk := after (virtio_blk_submit 1 10000) demo1.

Lemma demo_quiet : quiet (bufs demo0).
Proof.
  intros b v Hb. assert (map_Forall (fun _ v => b_disk v = 0) (bufs demo0)) as Hf by (apply (bool_decide_unpack _); vm_compute; exact I). exact (Hf b v Hb).
Qed.
Lemma demo_present : device_present demo_rd.
Proof. split_and!; try done. Qed.


