(* ===== verification/Bio.v ===== *)
(** The buffer cache (bio.c): lookup, recycling, reference counts and the buffers'
    locks.

    The pool is the array [bcache.buf]; the list [lru] holds the indices, most
    recently used first.  The disk behind the driver is a parameter, known by the
    interface [BlockDevice].  A call that has to sleep on a buffer's lock returns
    [false] and comes again. *)
From stdpp Require Import gmap.
From S2P Require Import Prelude.

(** * The block device

    What [virtio_blk_rw] promises: a transfer of type IN gives the block, one of type
    OUT replaces it, and no other block changes. *)
Definition block : Type := list Z.
Class BlockDevice (D : Type) := {
  dev_read : D -> Z -> Z -> block;
  dev_write : D -> Z -> Z -> block -> D;
  read_write : forall d dev b x, dev_read (dev_write d dev b x) dev b = x;
  read_write_ne : forall d dev b x dev' b', (dev', b') <> (dev, b) -> dev_read (dev_write d dev b x) dev' b' = dev_read d dev' b'
}.

(** A disk as a finite map, all other blocks zero. *)
#[export] Program Instance map_device : BlockDevice (gmap (Z * Z) block) := {
  dev_read d dev b := default [] (d !! (dev, b));
  dev_write d dev b x := <[(dev, b) := x]> d
}.
Next Obligation. intros d dev b x. cbn. by rewrite lookup_insert_eq. Qed.
Next Obligation. intros d dev b x dev' b' Hne. cbn. by rewrite lookup_insert_ne by congruence. Qed.

Definition NBUF : Z := 30.

(** The fields of [struct buf] the cache uses; [b_locked] and [b_pid] are its
    sleep-lock. *)
Record buf := mk_buf { dev : Z; blockno : Z; data : block; valid : bool; refcnt : Z; b_locked : bool; b_pid : Z }.
Definition with_key (d n : Z) (b : buf) : buf := mk_buf d n (data b) (valid b) (refcnt b) (b_locked b) (b_pid b).
Definition with_data (x : block) (b : buf) : buf := mk_buf (dev b) (blockno b) x (valid b) (refcnt b) (b_locked b) (b_pid b).
Definition with_valid (v : bool) (b : buf) : buf := mk_buf (dev b) (blockno b) (data b) v (refcnt b) (b_locked b) (b_pid b).
Definition with_refcnt (n : Z) (b : buf) : buf := mk_buf (dev b) (blockno b) (data b) (valid b) n (b_locked b) (b_pid b).
Definition with_lock (l : bool) (p : Z) (b : buf) : buf := mk_buf (dev b) (blockno b) (data b) (valid b) (refcnt b) l p.

Section bio.
Context {D : Type} `{!BlockDevice D}.

Record bcache := mk_bcache { pool : Z -> buf; lru : list Z; ddev : D }.
Definition set_pool (f : Z -> buf) (s : bcache) : bcache := mk_bcache f (lru s) (ddev s).
Definition set_lru (l : list Z) (s : bcache) : bcache := mk_bcache (pool s) l (ddev s).
Definition set_ddev (d : D) (s : bcache) : bcache := mk_bcache (pool s) (lru s) d.

Definition upd_buf (b : Z) (f : buf -> buf) : M bcache unit := modify (fun s => set_pool (upd (pool s) b (f (pool s b))) s).

Definition binit : M bcache unit :=
  modify (set_lru []);;
  for_range (Z.to_nat NBUF) 0 (fun i => upd_buf i (with_lock false 0);; modify (fun s => set_lru (i :: lru s) s)).

(** The buffer's sleep-lock: [false] when the caller has to sleep. *)
Definition lock_buf (p b : Z) : M bcache bool :=
  v ← gets (fun s => pool s b);
  if b_locked v then mret false else upd_buf b (with_lock true p);; mret true.
Definition unlock_buf (b : Z) : M bcache unit := upd_buf b (with_lock false 0).
Definition holding_buf (p b : Z) : M bcache bool := gets (fun s => b_locked (pool s b) && (b_pid (pool s b) =? p)).

(** The two loops of [bget], over the list and over its reverse. *)
Fixpoint find_key (f : Z -> buf) (l : list Z) (d n : Z) : option Z :=
  match l with
  | [] => None
  | b :: l' => if (dev (f b) =? d) && (blockno (f b) =? n) then Some b else find_key f l' d n
  end.
Fixpoint find_unused (f : Z -> buf) (l : list Z) : option Z :=
  match l with
  | [] => None
  | b :: l' => if refcnt (f b) =? 0 then Some b else find_unused f l'
  end.

(** [bget] up to the release of [bcache.lock]; [sleep_lock] follows. *)
Definition bget_index (d n : Z) : M bcache Z :=
  s ← get;
  match find_key (pool s) (lru s) d n with
  | Some b => upd_buf b (fun v => with_refcnt (refcnt v + 1) v);; mret b
  | None =>
      match find_unused (pool s) (reverse (lru s)) with
      | Some b =>
          upd_buf b (fun v => with_refcnt 1 (with_valid false (with_key d n v)));;
          mret b
      | None => panic "bget: no buffers"
      end
  end.

(** The transfer of [virtio_blk_rw], by the request's direction. *)
Definition rw_in (b : Z) : M bcache unit :=
  s ← get; upd_buf b (with_data (dev_read (ddev s) (dev (pool s b)) (blockno (pool s b)))).
Definition rw_out (b : Z) : M bcache unit :=
  modify (fun s => set_ddev (dev_write (ddev s) (dev (pool s b)) (blockno (pool s b)) (data (pool s b))) s).

(** The rest of [bread], once the buffer is locked. *)
Definition bread_fill (b : Z) : M bcache unit :=
  v ← gets (fun s => valid (pool s b));
  if (v : bool) then mret tt else rw_in b;; upd_buf b (with_valid true).

Definition bwrite (p b : Z) : M bcache unit :=
  h ← holding_buf p b;
  if negb (h : bool) then panic "bwrite: buf not locked" else rw_out b.

(** [brelse] in its two critical sections. *)
Definition brelse_unlock (p b : Z) : M bcache unit :=
  h ← holding_buf p b;
  if negb (h : bool) then panic "brelse: buf not locked" else unlock_buf b.
Definition brelse_drop (b : Z) : M bcache unit :=
  upd_buf b (fun v => with_refcnt (refcnt v - 1) v);;
  s ← get;
  if refcnt (pool s b) =? 0 then modify (set_lru (b :: filter (fun x => x <> b) (lru s))) else mret tt.
Definition brelse (p b : Z) : M bcache unit := brelse_unlock p b;; brelse_drop b.

Definition bpin (b : Z) : M bcache unit := upd_buf b (fun v => with_refcnt (refcnt v + 1) v).
Definition bunpin (b : Z) : M bcache unit := upd_buf b (fun v => with_refcnt (refcnt v - 1) v).

(** [bread] when nobody else holds the buffer. *)
Definition bread (p d n : Z) : M bcache (option Z) :=
  b ← bget_index d n;
  l ← lock_buf p b;
  if (l : bool) then bread_fill b;; mret (Some b) else mret None.
End bio.
Arguments bcache : clear implicits.
