(* ===== verification/BioInv.v ===== *)
(** The invariant of the buffer cache and its operations. *)
From stdpp Require Import gmap.
From S2P Require Import Prelude Bio.

(** * Users of buffers

    Everyone who has counted a reference: waiting for the buffer's lock, holding it
    (and whether the data was changed since it was read or written), about to drop
    the reference, or pinning. *)
Inductive phase := Want | Hold (dirty : bool) | Drop | Pin.
Record client := mk_client { c_pid : Z; c_buf : Z; c_dev : Z; c_blk : Z; c_phase : phase }.
#[export] Instance phase_eq_dec : EqDecision phase.
Proof. solve_decision. Defined.

Definition is_hold (f : phase) : bool := match f with Hold _ => true | _ => false end.
Definition uses (b : Z) (cl : list client) : list client := filter (fun c => c_buf c = b) cl.
Definition holders (b : Z) (cl : list client) : list client := filter (fun c => c_buf c = b /\ is_hold (c_phase c) = true) cl.

Definition before (l : list Z) (i j : Z) : Prop := exists l1 l2, l = l1 ++ i :: l2 /\ j ∈ l2.

Lemma before_cons l x i j : before (x :: l) i j <-> (i = x /\ j ∈ l) \/ before l i j.
Proof.
  split.
  - intros ([|y l1] & l2 & E & Hj); injection E as -> ->; [by left|]. right. by exists l1, l2.
  - intros [[-> Hj]|(l1 & l2 & -> & Hj)]; [by exists [], l|]. by exists (x :: l1), l2.
Qed.
Lemma precedes_in l i j : before l i j -> i ∈ l /\ j ∈ l.
Proof. intros (l1 & l2 & -> & Hj). rewrite !elem_of_app, !elem_of_cons. tauto. Qed.
Lemma before_ne l i j : NoDup l -> before l i j -> i <> j.
Proof. intros Hn (l1 & l2 & -> & Hj) ->. apply NoDup_app in Hn as (_ & _ & Hn). by apply NoDup_cons in Hn as [? _]. Qed.
Lemma before_filter P `{!forall x, Decision (P x)} l i j : before (filter P l) i j -> before l i j.
Proof.
  induction l as [|x l IH]; [done|]. rewrite filter_cons. case_decide; rewrite !before_cons; [|tauto]. intros [[-> Hj]|?]; [|tauto]. left. split; [done|]. by apply list_elem_of_filter in Hj as [_ ?].
Qed.
Lemma before_total l i j : i ∈ l -> j ∈ l -> i <> j -> before l i j \/ before l j i.
Proof.
  induction l as [|x l IH]; [by intros ?%elem_of_nil|]. rewrite !elem_of_cons, !before_cons. intros [->|Hi] [->|Hj] Hne; [done|tauto..|]. destruct (IH Hi Hj Hne); tauto.
Qed.

Lemma app_pivot_eq (b : Z) : forall l1 l2 k1 k2, NoDup (l1 ++ b :: l2) -> l1 ++ b :: l2 = k1 ++ b :: k2 -> l1 = k1 /\ l2 = k2.
Proof.
  induction l1 as [|x l1 IH]; intros l2 [|y k1] k2 Hn E; cbn in *; simplify_eq; try done; apply NoDup_cons in Hn as [Hx Hn].
  - destruct Hx. apply elem_of_app. right. by left.
  - destruct Hx. apply elem_of_app. right. by left.
  - destruct (IH l2 k1 k2 Hn ltac:(done)) as [-> ->]. done.
Qed.
Lemma before_pivot b i l2 : forall l1, NoDup (l1 ++ b :: l2) -> before (l1 ++ b :: l2) i b -> i ∈ l1.
Proof.
  induction l1 as [|x l1 IH]; cbn; rewrite before_cons; intros [Hx Hn]%NoDup_cons.
  - intros [[-> ?]|Hb]; [done|]. by destruct (precedes_in _ _ _ Hb).
  - intros [[-> _]|Hb]; [by left|]. right. by apply IH.
Qed.

Section inv.
Context {D : Type} `{!BlockDevice D}.
Implicit Types s : bcache D.

Definition key_of s (b : Z) : Z * Z := (dev (pool s b), blockno (pool s b)).
Definition content s (b : Z) : block := dev_read (ddev s) (dev (pool s b)) (blockno (pool s b)).
Definition dead s (b : Z) : Prop := refcnt (pool s b) = 0 /\ valid (pool s b) = false.

Record binv (cl : list client) s : Prop := {
  bi_lru : lru s ≡ₚ seqZ 0 NBUF;
  bi_range : forall c, c ∈ cl -> 0 <= c_buf c < NBUF;
  bi_count : forall b, 0 <= b < NBUF -> refcnt (pool s b) = Z.of_nat (length (uses b cl));
  bi_key : forall c, c ∈ cl -> key_of s (c_buf c) = (c_dev c, c_blk c);
  (* of the buffers with one key only the first in the list is alive *)
  bi_first : forall i j, before (lru s) i j -> key_of s i = key_of s j -> dead s j;
  bi_lock : forall b, 0 <= b < NBUF -> length (holders b cl) = if b_locked (pool s b) then 1%nat else 0%nat;
  bi_owner : forall c, c ∈ cl -> is_hold (c_phase c) = true -> b_pid (pool s (c_buf c)) = c_pid c;
  bi_clean : forall b, 0 <= b < NBUF -> valid (pool s b) = true -> (forall c, c ∈ cl -> c_buf c = b -> c_phase c <> Hold true) -> data (pool s b) = content s b;
  bi_dirty : forall c, c ∈ cl -> c_phase c = Hold true -> valid (pool s (c_buf c)) = true
}.

#[export] Instance binv_proper : Proper ((≡ₚ) ==> eq ==> impl) binv.
Proof.
  intros cl cl' Hp s _ <- []. split; try done.
  - intros c. rewrite <- Hp. auto.
  - intros b Hb. unfold uses. rewrite <- Hp. by apply bi_count0.
  - intros c. rewrite <- Hp. auto.
  - intros b Hb. unfold holders. rewrite <- Hp. by apply bi_lock0.
  - intros c. rewrite <- Hp. auto.
  - intros b Hb Hv Hd. apply bi_clean0; [done|done|]. intros c. rewrite Hp. auto.
  - intros c. rewrite <- Hp. auto.
Qed.

Lemma in_lru cl s b : binv cl s -> b ∈ lru s <-> 0 <= b < NBUF.
Proof. intros Hi. rewrite (bi_lru _ _ Hi), elem_of_seqZ. lia. Qed.
Lemma lru_nodup cl s : binv cl s -> NoDup (lru s).
Proof. intros Hi. rewrite (bi_lru _ _ Hi). apply NoDup_seqZ. Qed.

(** A buffer that is referenced or valid is the only live one with its key. *)
Lemma live_unique cl s b j : binv cl s -> 0 <= b < NBUF -> 0 <= j < NBUF -> ~ dead s b -> j <> b -> key_of s j = key_of s b -> dead s j.
Proof.
  intros Hi Hb Hj Hl Hne Hk. destruct (before_total (lru s) b j) as [H|H]; [by apply (in_lru cl)..|done| |].
  - by apply (bi_first _ _ Hi b j H).
  - destruct Hl. by apply (bi_first _ _ Hi j b H).
Qed.
Lemma used_live cl s c : binv cl s -> c ∈ cl -> refcnt (pool s (c_buf c)) > 0 /\ ~ dead s (c_buf c).
Proof.
  intros Hi Hc. enough (refcnt (pool s (c_buf c)) > 0) by (split; [done|intros [? _]; lia]). rewrite (bi_count _ _ Hi) by by apply (bi_range _ _ Hi).
  assert (c ∈ uses (c_buf c) cl) as Hu by by apply list_elem_of_filter. destruct (uses (c_buf c) cl); [by apply elem_of_nil in Hu|]. cbn. lia.
Qed.

(** Two users of one block use one buffer. *)
Lemma one_copy cl s c c' : binv cl s -> c ∈ cl -> c' ∈ cl -> c_dev c = c_dev c' -> c_blk c = c_blk c' -> c_buf c = c_buf c'.
Proof.
  intros Hi Hc Hc' Hd Hb. destruct (decide (c_buf c = c_buf c')) as [|Hne]; [done|]. exfalso. destruct (used_live cl s c' Hi Hc') as [_ Hl']. apply Hl'.
  apply (live_unique cl s (c_buf c) (c_buf c')); [done|by apply (bi_range _ _ Hi)|by apply (bi_range _ _ Hi)|by apply (used_live cl s c)|congruence|]. rewrite !(bi_key _ _ Hi) by done. congruence.
Qed.

(** * The searches *)
Lemma find_key_spec (f : Z -> buf) l d n : match find_key f l d n with
  | Some b => exists l1 l2, l = l1 ++ b :: l2 /\ (dev (f b), blockno (f b)) = (d, n) /\ forall j, j ∈ l1 -> (dev (f j), blockno (f j)) <> (d, n)
  | None => forall j, j ∈ l -> (dev (f j), blockno (f j)) <> (d, n) end.
Proof.
  induction l as [|b l IH]; cbn [find_key]; [by intros j ?%elem_of_nil|]. destruct (Z.eqb_spec (dev (f b)) d) as [E1|E1]; destruct (Z.eqb_spec (blockno (f b)) n) as [E2|E2]; cbn [andb].
  1: { exists [], l. split_and!; [done|congruence|by intros j ?%elem_of_nil]. }
  all: destruct (find_key f l d n) as [b'|]; [destruct IH as (l1 & l2 & -> & Hk & Hn); exists (b :: l1), l2; split_and!; [done|done|]|]; intros j [->|Hj]%elem_of_cons; try congruence; by auto.
Qed.
Lemma find_unused_spec (f : Z -> buf) l : match find_unused f l with
  | Some b => exists l1 l2, l = l1 ++ b :: l2 /\ refcnt (f b) = 0 /\ forall j, j ∈ l1 -> refcnt (f j) <> 0
  | None => forall j, j ∈ l -> refcnt (f j) <> 0 end.
Proof.
  induction l as [|b l IH]; cbn [find_unused]; [by intros j ?%elem_of_nil|]. destruct (Z.eqb_spec (refcnt (f b)) 0) as [E|E].
  - exists [], l. split_and!; [done|done|by intros j ?%elem_of_nil].
  - destruct (find_unused f l) as [b'|]; [destruct IH as (l1 & l2 & -> & Hk & Hn); exists (b :: l1), l2; split_and!; [done|done|]|]; intros j [->|Hj]%elem_of_cons; by auto.
Qed.

(** Only the values of the pool matter. *)
Lemma binv_ext cl s s' : binv cl s -> lru s' = lru s -> ddev s' = ddev s -> (forall j, pool s' j = pool s j) -> binv cl s'.
Proof.
  intros [] El Ed Ep. assert (forall j, key_of s' j = key_of s j) as Hk by (intros j; unfold key_of; by rewrite Ep). assert (forall j, content s' j = content s j) as Hc by (intros j; unfold content; by rewrite Ep, Ed).
  split; unfold dead; try setoid_rewrite Ep; try setoid_rewrite Hk; try setoid_rewrite Hc; rewrite ?El; done.
Qed.

(** * Changing one buffer *)
Lemma uses_app b l1 l2 : uses b (l1 ++ l2) = uses b l1 ++ uses b l2.
Proof. apply filter_app. Qed.
Lemma holders_app b l1 l2 : holders b (l1 ++ l2) = holders b l1 ++ holders b l2.
Proof. apply filter_app. Qed.
Lemma uses_all b l : Forall (fun c => c_buf c = b) l -> uses b l = l.
Proof. induction 1 as [|c l Hc _ IH]; [done|]. unfold uses in *. rewrite filter_cons, decide_True by done. by rewrite IH. Qed.
Lemma uses_none b j l : j <> b -> Forall (fun c => c_buf c = b) l -> uses j l = [] /\ holders j l = [].
Proof.
  intros Hj. induction 1 as [|c l Hc _ [IH1 IH2]]; [done|]. unfold uses, holders in *. rewrite !filter_cons, !decide_False by (intros [? ?] || intros ?; congruence). done.
Qed.

(** The users [cs] of buffer [b] become [cs'] and the buffer becomes [v'], which
    keeps its key; the conditions are those on this buffer alone. *)
Record change (l cs cs' : list client) s (b : Z) (v' : buf) : Prop := {
  cg_range : 0 <= b < NBUF;
  cg_key : (dev v', blockno v') = key_of s b;
  cg_old : Forall (fun c => c_buf c = b) cs;
  cg_new : Forall (fun c => c_buf c = b) cs';
  cg_newkey : forall c, c ∈ cs' -> (c_dev c, c_blk c) = key_of s b;
  cg_count : refcnt v' + Z.of_nat (length cs) = refcnt (pool s b) + Z.of_nat (length cs');
  cg_lock : ((if b_locked v' then 1 else 0) + length (holders b cs) = (if b_locked (pool s b) then 1 else 0) + length (holders b cs'))%nat;
  cg_owner : forall c, c ∈ cs' -> is_hold (c_phase c) = true -> b_pid v' = c_pid c;
  cg_others : forall c, c ∈ l -> c_buf c = b -> is_hold (c_phase c) = true -> b_pid v' = b_pid (pool s b);
  cg_first : forall i, before (lru s) i b -> key_of s i = key_of s b -> refcnt v' = 0 /\ valid v' = false;
  cg_clean : valid v' = true -> (forall c, c ∈ cs' ++ l -> c_buf c = b -> c_phase c <> Hold true) -> data v' = content s b;
  cg_dirty : forall c, c ∈ cs' ++ l -> c_buf c = b -> c_phase c = Hold true -> valid v' = true
}.

Lemma binv_change l cs cs' s b v' : binv (cs ++ l) s -> change l cs cs' s b v' -> binv (cs' ++ l) (set_pool (upd (pool s) b v') s).
Proof.
  intros Hi []. set (s' := set_pool (upd (pool s) b v') s).
  assert (forall j, key_of s' j = key_of s j) as Hk. { intros j. unfold key_of, s'. cbn. rewrite upd_case. case_decide; [by subst|done]. }
  assert (forall j, content s' j = content s j) as Hc. { intros j. unfold content, s'. cbn. rewrite upd_case. case_decide; [|done]. subst. unfold key_of in cg_key0. injection cg_key0 as -> ->. done. }
  rewrite Forall_forall in cg_new0. destruct Hi. split.
  - done.
  - intros c [Hc'|Hc']%elem_of_app; [by rewrite cg_new0|]. apply bi_range0, elem_of_app. by right.
  - intros j Hj. specialize (bi_count0 j Hj). rewrite uses_app, length_app in *. unfold s'. cbn. rewrite upd_case. case_decide as E.
    + subst j. rewrite uses_all in * by (done || by apply Forall_forall). lia.
    + rewrite (proj1 (uses_none b j cs ltac:(congruence) cg_old0)), (proj1 (uses_none b j cs' ltac:(congruence) ltac:(by apply Forall_forall))) in *. done.
  - intros c [Hc'|Hc']%elem_of_app; rewrite Hk; [rewrite (cg_new0 c Hc'); symmetry; by apply cg_newkey0|]. apply bi_key0, elem_of_app. by right.
  - intros i j Hb. rewrite !Hk. intros Hij. unfold dead, s'. cbn. rewrite upd_case. case_decide as E; [subst; by apply (cg_first0 i)|]. by apply (bi_first0 i j).
  - intros j Hj. specialize (bi_lock0 j Hj). rewrite holders_app, length_app in *. unfold s'. cbn. rewrite upd_case. case_decide as E; [subst j; destruct (b_locked v'), (b_locked (pool s b)); lia|].
    rewrite (proj2 (uses_none b j cs ltac:(congruence) cg_old0)), (proj2 (uses_none b j cs' ltac:(congruence) ltac:(by apply Forall_forall))) in *. done.
  - intros c [Hc'|Hc']%elem_of_app Hh; unfold s'; cbn; rewrite upd_case; case_decide as E; [by apply cg_owner0|by rewrite cg_new0 in E|rewrite (cg_others0 c) by done; rewrite E|]; apply bi_owner0; try done; apply elem_of_app; by right.
  - intros j Hj Hv Hd. rewrite Hc. unfold s' in *. cbn in *. rewrite upd_case in *. case_decide as E; [subst; by apply cg_clean0|]. apply bi_clean0; [done|done|]. intros c [Hc'|Hc']%elem_of_app Hcj.
    + rewrite Forall_forall in cg_old0. rewrite cg_old0 in Hcj by done. done.
    + apply Hd; [apply elem_of_app; by right|done].
  - intros c Hc' Hd. unfold s'. cbn. rewrite upd_case. case_decide as E; [by apply (cg_dirty0 c)|]. apply elem_of_app in Hc' as [Hc'|Hc']; [by rewrite cg_new0 in E|]. apply bi_dirty0; [apply elem_of_app; by right|done].
Qed.
End inv.
