(* ===== verification/BioThm.v ===== *)
(** The theorems on the buffer cache: what bget returns, and that all interleavings
    of its users keep one coherent copy of each block. *)
From stdpp Require Import gmap relations.
From S2P Require Import Prelude Bio BioInv.

Section ops.
Context {D : Type} `{!BlockDevice D}.
Implicit Types s : bcache D.

(** * One step of a user *)
Lemma client_first cl s c i : binv cl s -> c ∈ cl -> before (lru s) i (c_buf c) -> key_of s i = key_of s (c_buf c) -> False.
Proof. intros Hi Hc Hb Hk. destruct (used_live cl s c Hi Hc) as [_ Hl]. by apply Hl, (bi_first _ _ Hi i). Qed.

Lemma holder_in b cl c : c ∈ cl -> c_buf c = b -> is_hold (c_phase c) = true -> (0 < length (holders b cl))%nat.
Proof. intros Hc Hb Hh. assert (c ∈ holders b cl) as Hin by by apply list_elem_of_filter. destruct (holders b cl); [by apply elem_of_nil in Hin|]. cbn. lia. Qed.

Lemma only_holder c l s c' : binv (c :: l) s -> is_hold (c_phase c) = true -> c' ∈ l -> c_buf c' = c_buf c -> is_hold (c_phase c') = true -> False.
Proof.
  intros Hi Hh Hc' Hb Hh'. pose proof (bi_lock _ _ Hi (c_buf c) ltac:(apply (bi_range _ _ Hi); by left)) as Hl. change (c :: l) with ([c] ++ l) in Hl. rewrite holders_app, length_app in Hl.
  pose proof (holder_in (c_buf c) [c] c ltac:(by left) eq_refl Hh). pose proof (holder_in (c_buf c) l c' Hc' Hb Hh'). destruct (b_locked _); lia.
Qed.
Lemma holder_locked c l s : binv (c :: l) s -> is_hold (c_phase c) = true -> b_locked (pool s (c_buf c)) = true.
Proof.
  intros Hi Hh. pose proof (bi_lock _ _ Hi (c_buf c) ltac:(apply (bi_range _ _ Hi); by left)) as Hl. pose proof (holder_in (c_buf c) (c :: l) c ltac:(by left) eq_refl Hh). destruct (b_locked _); [done|lia].
Qed.
Lemma free_no_holder cl s b c : binv cl s -> 0 <= b < NBUF -> b_locked (pool s b) = false -> c ∈ cl -> c_buf c = b -> is_hold (c_phase c) = true -> False.
Proof. intros Hi Hb Hl Hc Hcb Hh. pose proof (bi_lock _ _ Hi b Hb) as Hx. rewrite Hl in Hx. pose proof (holder_in b cl c Hc Hcb Hh). lia. Qed.

Definition at_phase (f : phase) (c : client) : client := mk_client (c_pid c) (c_buf c) (c_dev c) (c_blk c) f.

Lemma holders_one b p d n f : length (holders b [mk_client p b d n f]) = if is_hold f then 1%nat else 0%nat.
Proof. unfold holders. rewrite filter_cons. cbn [c_buf c_phase]. destruct (is_hold f); case_decide; naive_solver. Qed.

(** The user changes its phase and the buffer in place. *)
Lemma binv_phase c l s f v' : binv (c :: l) s -> (dev v', blockno v') = key_of s (c_buf c) -> refcnt v' = refcnt (pool s (c_buf c)) ->
  ((if b_locked v' then 1 else 0) + (if is_hold (c_phase c) then 1 else 0) = (if b_locked (pool s (c_buf c)) then 1 else 0) + (if is_hold f then 1 else 0))%nat ->
  (is_hold f = true -> b_pid v' = c_pid c) ->
  (forall c', c' ∈ l -> c_buf c' = c_buf c -> is_hold (c_phase c') = true -> b_pid v' = b_pid (pool s (c_buf c))) ->
  (valid v' = true -> f <> Hold true -> (forall c', c' ∈ l -> c_buf c' = c_buf c -> c_phase c' <> Hold true) -> data v' = content s (c_buf c)) ->
  (f = Hold true -> valid v' = true) -> (forall c', c' ∈ l -> c_buf c' = c_buf c -> c_phase c' = Hold true -> valid v' = true) ->
  binv (at_phase f c :: l) (set_pool (upd (pool s) (c_buf c) v') s).
Proof.
  intros Hi Hk Hr Hl Ho Hoth Hcl Hd Hd'. apply (binv_change l [c] [at_phase f c]); [done|]. split.
  - apply (bi_range _ _ Hi). by left.
  - done.
  - by apply Forall_singleton.
  - by apply Forall_singleton.
  - intros c' ->%list_elem_of_singleton. cbn. symmetry. apply (bi_key _ _ Hi). by left.
  - rewrite Hr. done.
  - destruct c as [p b d n g]. unfold at_phase. cbn [c_pid c_buf c_dev c_blk c_phase] in *. by rewrite !holders_one.
  - intros c' ->%list_elem_of_singleton. cbn. auto.
  - done.
  - intros i Hb Hki. exfalso. apply (client_first (c :: l) s c i Hi); [by left|done|done].
  - intros Hv Hno. apply Hcl; [done|apply (Hno (at_phase f c)); [by left|done]|]. intros c' Hc'. apply Hno. by right.
  - intros c' [->|Hc']%elem_of_cons; [intros _; cbn; auto|]. by apply Hd'.
Qed.

Lemma lock_inv c l s : binv (c :: l) s -> c_phase c = Want ->
  wp (lock_buf (c_pid c) (c_buf c)) (fun r s' => r = negb (b_locked (pool s (c_buf c))) /\ binv ((if r then at_phase (Hold false) c else c) :: l) s') s.
Proof.
  intros Hi Hw. assert (0 <= c_buf c < NBUF) as Hr by (apply (bi_range _ _ Hi); by left). unfold lock_buf. wp_steps. destruct (b_locked (pool s (c_buf c))) eqn:El; wp_steps; [done|]. unfold upd_buf. wp_steps. split; [done|].
  apply binv_phase; try done; cbn.
  - rewrite El, Hw. done.
  - intros c' Hc' Hb Hh. exfalso. eapply (free_no_holder (c :: l) s _ c'); try done. by right.
  - intros Hv _ Hno. apply (bi_clean _ _ Hi); [done|done|]. intros c' [->|Hc']%elem_of_cons Hb; [by rewrite Hw|]. by apply Hno.
  - intros c' Hc' Hb Hd. exfalso. eapply (free_no_holder (c :: l) s _ c'); try done; [by right|by rewrite Hd].
Qed.

Lemma fill_inv c l s g : binv (c :: l) s -> c_phase c = Hold g ->
  wp (bread_fill (c_buf c)) (fun _ s' => binv (c :: l) s' /\ valid (pool s' (c_buf c)) = true /\ (g = false -> data (pool s' (c_buf c)) = content s' (c_buf c)) /\ lru s' = lru s /\ ddev s' = ddev s) s.
Proof.
  intros Hi Hg. assert (0 <= c_buf c < NBUF) as Hr by (apply (bi_range _ _ Hi); by left). pose proof (fun c' => only_holder c l s c' Hi ltac:(by rewrite Hg)) as Hoth.
  unfold bread_fill. wp_steps. destruct (valid (pool s (c_buf c))) eqn:Ev.
  - wp_steps. split_and!; try done. intros ->. apply (bi_clean _ _ Hi); [done|done|]. intros c' [->|Hc']%elem_of_cons Hb; [by rewrite Hg|]. intros Hd. apply (Hoth c'); try done. by rewrite Hd.
  - assert (g = false) as ->. { destruct g; [|done]. by rewrite (bi_dirty _ _ Hi c) in Ev by (done || by left). }
    unfold rw_in, upd_buf. wp_steps. cbn [pool set_pool]. rewrite upd_eq. replace c with (at_phase (Hold false) c) at 1 by (destruct c; cbn in *; by subst).
    set (v' := with_valid true _). replace (set_pool (upd (upd (pool s) (c_buf c) _) (c_buf c) v') (set_pool _ s)) with (set_pool (upd (upd (pool s) (c_buf c) (with_data (content s (c_buf c)) (pool s (c_buf c)))) (c_buf c) v') s) by done.
    split_and!; try done; cbn [pool set_pool lru ddev].
    + assert (binv (at_phase (Hold false) c :: l) (set_pool (upd (pool s) (c_buf c) v') s)) as Hb.
      { apply binv_phase; try done; cbn.
        - rewrite (holder_locked c l s Hi), Hg by (by rewrite Hg). done.
        - intros _. apply (bi_owner _ _ Hi); [by left|by rewrite Hg]. }
      eapply binv_ext; [exact Hb|done|done|]. intros j. cbn. rewrite !upd_case. by repeat case_decide.
    + by rewrite upd_eq.
    + intros _. unfold content. cbn. rewrite !upd_eq. done.
Qed.

(** The holder changes the data of a filled buffer. *)
Definition set_data (b : Z) (x : block) s : bcache D := set_pool (upd (pool s) b (with_data x (pool s b))) s.
Lemma modify_inv c l s g x : binv (c :: l) s -> c_phase c = Hold g -> valid (pool s (c_buf c)) = true -> binv (at_phase (Hold true) c :: l) (set_data (c_buf c) x s).
Proof.
  intros Hi Hg Hv. apply binv_phase; try done; cbn.
  - by rewrite Hg.
  - intros _. apply (bi_owner _ _ Hi); [by left|by rewrite Hg].
Qed.

Lemma holding_true c l s : binv (c :: l) s -> is_hold (c_phase c) = true -> b_locked (pool s (c_buf c)) && (b_pid (pool s (c_buf c)) =? c_pid c) = true.
Proof. intros Hi Hh. rewrite (holder_locked c l s Hi Hh). apply Z.eqb_eq, (bi_owner _ _ Hi); [by left|done]. Qed.

Definition written s (b : Z) : bcache D := set_ddev (dev_write (ddev s) (dev (pool s b)) (blockno (pool s b)) (data (pool s b))) s.
Lemma write_inv c l s g : binv (c :: l) s -> c_phase c = Hold g -> wp (bwrite (c_pid c) (c_buf c)) (fun _ s' => s' = written s (c_buf c) /\ binv (at_phase (Hold false) c :: l) s') s.
Proof.
  intros Hi Hg. unfold bwrite, holding_buf. wp_steps. rewrite (holding_true c l s Hi) by by rewrite Hg. cbn [negb]. unfold rw_out. wp_steps. split; [done|]. fold (written s (c_buf c)).
  assert (forall j, content (written s (c_buf c)) j = if decide (key_of s j = key_of s (c_buf c)) then data (pool s (c_buf c)) else content s j) as Hc.
  { intros j. unfold content, written, key_of. cbn. case_decide as E; [injection E as -> ->; apply read_write|]. by apply read_write_ne. }
  destruct (used_live _ s c Hi ltac:(by left)) as [_ Hlive]. assert (0 <= c_buf c < NBUF) as Hr by (apply (bi_range _ _ Hi); by left).
  assert (binv (c :: l) (written s (c_buf c))) as Hi'.
  { pose proof Hi as [H1 H2 H3 H4 H5 H6 H7 H8 H9]. split; try done. intros j Hj Hv Hno. rewrite Hc. case_decide as E; [|by apply H8].
    destruct (decide (j = c_buf c)) as [->|Hne]; [done|]. exfalso. destruct (live_unique _ s (c_buf c) j Hi Hr Hj Hlive Hne E) as [_ Hx]. cbn in Hv. by rewrite Hx in Hv. }
  pose proof (binv_phase c l (written s (c_buf c)) (Hold false) (pool s (c_buf c)) Hi') as Hp. eapply binv_ext; [apply Hp; try done|done|done|].
  - by rewrite Hg.
  - intros _. apply (bi_owner _ _ Hi); [by left|by rewrite Hg].
  - intros _ _ _. rewrite Hc. by rewrite decide_True.
  - intros c' Hc' Hb Hd. apply (only_holder c l s c' Hi) in Hb; try done; [by rewrite Hg|by rewrite Hd].
  - intros j. cbn. rewrite upd_case. case_decide; [by subst|done].
Qed.

Lemma unlock_inv c l s : binv (c :: l) s -> c_phase c = Hold false -> wp (brelse_unlock (c_pid c) (c_buf c)) (fun _ s' => binv (at_phase Drop c :: l) s') s.
Proof.
  intros Hi Hg. unfold brelse_unlock, holding_buf. wp_steps. rewrite (holding_true c l s Hi) by by rewrite Hg. cbn [negb]. unfold unlock_buf, upd_buf. wp_steps. pose proof (fun c' => only_holder c l s c' Hi ltac:(by rewrite Hg)) as Hoth.
  apply binv_phase; try done; cbn.
  - rewrite (holder_locked c l s Hi), Hg by (by rewrite Hg). done.
  - intros c' Hc' Hb Hh. by destruct (Hoth c' Hc' Hb Hh).
  - intros Hv _ Hno. apply (bi_clean _ _ Hi); [apply (bi_range _ _ Hi); by left|done|]. intros c' [->|Hc']%elem_of_cons Hb; [by rewrite Hg|]. by apply Hno.
  - intros c' Hc' Hb Hd. destruct (Hoth c' Hc' Hb). by rewrite Hd.
Qed.

(** Removing a user that does not hold the buffer's lock. *)
Lemma remove_inv c l s : binv (c :: l) s -> is_hold (c_phase c) = false -> binv l (set_pool (upd (pool s) (c_buf c) (with_refcnt (refcnt (pool s (c_buf c)) - 1) (pool s (c_buf c)))) s).
Proof.
  intros Hi Hh. assert (0 <= c_buf c < NBUF) as Hr by (apply (bi_range _ _ Hi); by left). apply (binv_change l [c] []); [done|]. split; try done.
  - by apply Forall_singleton.
  - by intros c' ?%elem_of_nil.
  - cbn. lia.
  - destruct c as [p b d n g]. cbn [c_pid c_buf c_dev c_blk c_phase with_refcnt b_locked] in *. rewrite holders_one, Hh. cbn. lia.
  - by intros c' ?%elem_of_nil.
  - intros i Hb Hk. destruct (client_first (c :: l) s c i Hi); [by left|done|done].
  - intros Hv Hno. apply (bi_clean _ _ Hi); [done|done|]. intros c' [->|Hc']%elem_of_cons Hb; [intros Hd; by rewrite Hd in Hh|]. by apply Hno.
  - intros c' Hc' Hb Hd. rewrite <- Hb. apply (bi_dirty _ _ Hi); [by right|done].
Qed.
(** Adding a reference to a buffer in use. *)
Lemma pin_inv c cl s p : binv cl s -> c ∈ cl -> binv (mk_client p (c_buf c) (c_dev c) (c_blk c) Pin :: cl) (set_pool (upd (pool s) (c_buf c) (with_refcnt (refcnt (pool s (c_buf c)) + 1) (pool s (c_buf c)))) s).
Proof.
  intros Hi Hc. pose proof (bi_range _ _ Hi c Hc) as Hr. apply (binv_change cl [] [mk_client p (c_buf c) (c_dev c) (c_blk c) Pin]); [done|]. split; try done.
  - by apply Forall_singleton.
  - intros c' ->%list_elem_of_singleton. cbn. symmetry. by apply (bi_key _ _ Hi).
  - cbn. lia.
  - rewrite holders_one. cbn. lia.
  - by intros c' ->%list_elem_of_singleton.
  - intros i Hb Hk. by destruct (client_first cl s c i Hi).
  - intros Hv Hno. apply (bi_clean _ _ Hi); [done|done|]. intros c' Hc' Hb. apply Hno; [by right|done].
  - intros c' [->|Hc']%elem_of_cons Hb Hd; [done|]. rewrite <- Hb. by apply (bi_dirty _ _ Hi).
Qed.

(** Moving an unused buffer to the front keeps the first one with its key live. *)
Lemma front_inv cl s b : binv cl s -> 0 <= b < NBUF -> (forall j, 0 <= j < NBUF -> j <> b -> key_of s j = key_of s b -> dead s j) -> binv cl (set_lru (b :: filter (fun x => x <> b) (lru s)) s).
Proof.
  intros Hi Hb Hu. pose proof (lru_nodup cl s Hi) as Hn. pose proof (in_lru cl s b Hi) as Hin. assert (b :: filter (fun x => x <> b) (lru s) ≡ₚ lru s) as Hp.
  { apply NoDup_Permutation; [|done|].
    - apply NoDup_cons. split; [rewrite list_elem_of_filter; naive_solver|by apply NoDup_filter].
    - intros x. rewrite elem_of_cons, list_elem_of_filter. destruct (decide (x = b)) as [->|]; [|naive_solver]. rewrite Hin. naive_solver. }
  pose proof Hi as [H1 H2 H3 H4 H5 H6 H7 H8 H9]. split; try done; cbn.
  - by rewrite Hp.
  - intros i j. rewrite before_cons. intros [[-> [Hne Hj]%list_elem_of_filter]|Hbe%before_filter] Hk; [|by apply (H5 i)]. apply Hu; [by apply (in_lru cl s)|done|done].
Qed.

Lemma drop_inv c l s : binv (c :: l) s -> c_phase c = Drop ->
  wp (brelse_drop (c_buf c)) (fun _ s' => binv l s' /\ lru s' = if decide (uses (c_buf c) l = []) then c_buf c :: filter (fun x => x <> c_buf c) (lru s) else lru s) s.
Proof.
  intros Hi Hd. assert (0 <= c_buf c < NBUF) as Hr by (apply (bi_range _ _ Hi); by left). pose proof (remove_inv c l s Hi ltac:(by rewrite Hd)) as Hi'. unfold brelse_drop, upd_buf. wp_steps. cbn [pool set_pool]. rewrite upd_eq. cbn [refcnt with_refcnt].
  set (s1 := set_pool _ s) in *. pose proof (bi_count _ _ Hi' (c_buf c) Hr) as Hcnt. unfold s1 in Hcnt. cbn in Hcnt. rewrite upd_eq in Hcnt. cbn in Hcnt. rewrite Hcnt. destruct (used_live _ s c Hi ltac:(by left)) as [_ Hlive].
  assert (forall j, key_of s1 j = key_of s j) as Hk. { intros j. unfold key_of, s1. cbn. rewrite upd_case. case_decide; [by subst|done]. }
  destruct (uses (c_buf c) l) as [|u us] eqn:Eu.
  - change (Z.of_nat (length (@nil client)) =? 0) with true. cbv iota. wp_steps. split; [|done]. apply front_inv; [done|done|]. intros j Hj Hne. rewrite !Hk. intros Hkj. destruct (live_unique _ s (c_buf c) j Hi Hr Hj Hlive Hne Hkj) as [E1 E2].
    unfold dead, s1. cbn. rewrite upd_ne by congruence. done.
  - destruct (Z.eqb_spec (Z.of_nat (length (u :: us))) 0) as [E|_]; [cbn in E; lia|]. wp_steps. split; [done|]. by rewrite decide_False.
Qed.

(** * bget *)
Definition counted s (b : Z) : bcache D := set_pool (upd (pool s) b (with_refcnt (refcnt (pool s b) + 1) (pool s b))) s.
Definition recycled s (b d n : Z) : bcache D := set_pool (upd (pool s) b (with_refcnt 1 (with_valid false (with_key d n (pool s b))))) s.

Lemma hit_inv cl s p l1 b l2 d n : binv cl s -> lru s = l1 ++ b :: l2 -> key_of s b = (d, n) -> (forall j, j ∈ l1 -> key_of s j <> (d, n)) -> binv (mk_client p b d n Want :: cl) (counted s b).
Proof.
  intros Hi El Hk Hn. assert (0 <= b < NBUF) as Hr by (apply (in_lru cl s b Hi); rewrite El; apply elem_of_app; right; by left).
  apply (binv_change cl [] [mk_client p b d n Want]); [done|]. split; try done.
  - by apply Forall_singleton.
  - by intros c ->%list_elem_of_singleton.
  - cbn. lia.
  - rewrite holders_one. cbn. lia.
  - by intros c ->%list_elem_of_singleton.
  - intros i Hb Hki. exfalso. pose proof (lru_nodup cl s Hi) as Hnd. rewrite El in Hb, Hnd. apply (Hn i); [by eapply before_pivot|]. by rewrite Hki.
  - intros Hv Hno. apply (bi_clean _ _ Hi); [done|done|]. intros c Hc Hb. apply Hno; [by right|done].
  - intros c [->|Hc]%elem_of_cons Hb Hd; [done|]. rewrite <- Hb. by apply (bi_dirty _ _ Hi).
Qed.

Lemma unused_no_client cl s b c : binv cl s -> refcnt (pool s b) = 0 -> c ∈ cl -> c_buf c <> b.
Proof. intros Hi Hr Hc <-. destruct (used_live cl s c Hi Hc). lia. Qed.

Lemma recycle_inv cl s p b d n : binv cl s -> 0 <= b < NBUF -> refcnt (pool s b) = 0 -> (forall j, 0 <= j < NBUF -> key_of s j <> (d, n)) -> binv (mk_client p b d n Want :: cl) (recycled s b d n).
Proof.
  intros Hi Hr H0 Hn. pose proof (fun c => unused_no_client cl s b c Hi H0) as Hnc. set (c0 := mk_client p b d n Want).
  assert (forall j, key_of (recycled s b d n) j = if decide (b = j) then (d, n) else key_of s j) as Hk by (intros j; unfold key_of, recycled; cbn; rewrite upd_case; by case_decide).
  assert (uses b cl = [] /\ holders b cl = []) as [Hu Hh].
  { split; [destruct (uses b cl) as [|c u] eqn:E|destruct (holders b cl) as [|c u] eqn:E]; try done; exfalso; apply (Hnc c).
    - assert (c ∈ uses b cl) as [_ ?]%list_elem_of_filter by (rewrite E; by left). done.
    - assert (c ∈ uses b cl) as [? _]%list_elem_of_filter by (rewrite E; by left). done.
    - assert (c ∈ holders b cl) as [_ ?]%list_elem_of_filter by (rewrite E; by left). done.
    - assert (c ∈ holders b cl) as [[? _] _]%list_elem_of_filter by (rewrite E; by left). done. }
  pose proof Hi as [H1 H2 H3 H4 H5 H6 H7 H8 H9]. change (c0 :: cl) with ([c0] ++ cl). split.
  - done.
  - intros c [->|Hc]%elem_of_cons; [done|by apply H2].
  - intros j Hj. rewrite uses_app, length_app. unfold recycled. cbn [pool set_pool]. rewrite upd_case. case_decide as E.
    + subst j. rewrite Hu, uses_all by by apply Forall_singleton. done.
    + rewrite (proj1 (uses_none b j [c0] ltac:(congruence) ltac:(by apply Forall_singleton))). by apply H3.
  - intros c [->|Hc]%elem_of_cons; rewrite Hk; [by rewrite decide_True|]. rewrite decide_False by (intros E; by apply (Hnc c Hc)). by apply H4.
  - intros i j Hb. cbn in Hb. rewrite !Hk. destruct (precedes_in _ _ _ Hb) as [Hi1 Hj1]. pose proof (before_ne _ _ _ (lru_nodup cl s Hi) Hb) as Hne. apply (in_lru cl s) in Hi1, Hj1; [|done..].
    repeat case_decide; subst; try done; [intros E; by destruct (Hn j Hj1)|intros E; by destruct (Hn i Hi1)|]. intros E. destruct (H5 i j Hb E) as [? ?]. unfold dead. cbn. rewrite upd_ne by done. done.
  - intros j Hj. rewrite holders_app, length_app. specialize (H6 j Hj). unfold recycled. cbn [pool set_pool]. rewrite upd_case. case_decide as E.
    + subst j. rewrite Hh in *. unfold c0. rewrite holders_one. exact H6.
    + rewrite (proj2 (uses_none b j [c0] ltac:(congruence) ltac:(by apply Forall_singleton))). done.
  - intros c [->|Hc]%elem_of_cons Hhd; [done|]. cbn. rewrite upd_ne by (intros E; by apply (Hnc c Hc)). by apply H7.
  - intros j Hj Hv Hno. unfold content. cbn in *. rewrite upd_case in *. case_decide as E; [done|]. apply H8; [done|done|]. intros c Hc. apply Hno. by right.
  - intros c [->|Hc]%elem_of_cons Hd; [done|]. cbn. rewrite upd_ne by (intros E; by apply (Hnc c Hc)). by apply H9.
Qed.

(** What bget selects. *)
Inductive selected s (d n : Z) : Z -> bcache D -> Prop :=
| sel_hit l1 b l2 : lru s = l1 ++ b :: l2 -> key_of s b = (d, n) -> (forall j, j ∈ l1 -> key_of s j <> (d, n)) -> selected s d n b (counted s b)
| sel_miss l1 b l2 : lru s = l1 ++ b :: l2 -> (forall j, j ∈ lru s -> key_of s j <> (d, n)) -> refcnt (pool s b) = 0 -> (forall j, j ∈ l2 -> refcnt (pool s j) <> 0) -> selected s d n b (recycled s b d n).

Lemma bget_spec cl s d n p : binv cl s ->
  match bget_index d n s with
  | Ok (b, s') => selected s d n b s' /\ binv (mk_client p b d n Want :: cl) s'
  | Panic _ => (forall j, j ∈ lru s -> refcnt (pool s j) <> 0) /\ (forall j, j ∈ lru s -> key_of s j <> (d, n))
  | _ => False
  end.
Proof.
  intros Hi. unfold bget_index, mbind, M_bind, get, upd_buf, modify, mret, M_ret. pose proof (find_key_spec (pool s) (lru s) d n) as Hf. destruct (find_key (pool s) (lru s) d n) as [b|].
  - destruct Hf as (l1 & l2 & El & Hk & Hn). split; [by eapply sel_hit|by eapply hit_inv].
  - pose proof (find_unused_spec (pool s) (reverse (lru s))) as Hu. destruct (find_unused (pool s) (reverse (lru s))) as [b|].
    + destruct Hu as (l1 & l2 & El & H0 & Hn). assert (lru s = reverse l2 ++ b :: reverse l1) as El' by (rewrite <- (reverse_involutive (lru s)), El, reverse_app, reverse_cons, <- app_assoc; done).
      assert (0 <= b < NBUF) as Hr by (apply (in_lru cl s b Hi); rewrite El'; apply elem_of_app; right; by left). 
      split; [|by apply recycle_inv; [..|intros j Hj; apply Hf, (in_lru cl s)]]. eapply (sel_miss s d n (reverse l2) b (reverse l1)); try done. intros j Hj. apply Hn. by rewrite elem_of_reverse in Hj.
    + split; [|done]. intros j Hj. apply Hu. by apply elem_of_reverse.
Qed.
End ops.

(** * Runs *)
Section runs.
Context {D : Type} `{!BlockDevice D}.
Implicit Types s : bcache D.

(** The critical sections of the cache, by any number of processes in any order.  A
    process works on a buffer only while it holds its lock; the callers' contract is
    that changed data is written back before the buffer is released. *)
Inductive bstep : bcache D * list client -> bcache D * list client -> Prop :=
| bs_get s s' cl p d n b : bget_index d n s = Ok (b, s') -> bstep (s, cl) (s', mk_client p b d n Want :: cl)
| bs_lock s s' l c r cl : cl ≡ₚ c :: l -> c_phase c = Want -> lock_buf (c_pid c) (c_buf c) s = Ok (r, s') -> bstep (s, cl) (s', (if r then at_phase (Hold false) c else c) :: l)
| bs_fill s s' l c g cl : cl ≡ₚ c :: l -> c_phase c = Hold g -> bread_fill (c_buf c) s = Ok (tt, s') -> bstep (s, cl) (s', cl)
| bs_modify s l c g cl x : cl ≡ₚ c :: l -> c_phase c = Hold g -> valid (pool s (c_buf c)) = true -> bstep (s, cl) (set_data (c_buf c) x s, at_phase (Hold true) c :: l)
| bs_write s s' l c g cl : cl ≡ₚ c :: l -> c_phase c = Hold g -> bwrite (c_pid c) (c_buf c) s = Ok (tt, s') -> bstep (s, cl) (s', at_phase (Hold false) c :: l)
| bs_unlock s s' l c cl : cl ≡ₚ c :: l -> c_phase c = Hold false -> brelse_unlock (c_pid c) (c_buf c) s = Ok (tt, s') -> bstep (s, cl) (s', at_phase Drop c :: l)
| bs_drop s s' l c cl : cl ≡ₚ c :: l -> c_phase c = Drop -> brelse_drop (c_buf c) s = Ok (tt, s') -> bstep (s, cl) (s', l)
| bs_pin s s' c cl p : c ∈ cl -> bpin (c_buf c) s = Ok (tt, s') -> bstep (s, cl) (s', mk_client p (c_buf c) (c_dev c) (c_blk c) Pin :: cl)
| bs_unpin s s' l c cl : cl ≡ₚ c :: l -> c_phase c = Pin -> bunpin (c_buf c) s = Ok (tt, s') -> bstep (s, cl) (s', l).

Lemma wp_run {A} (m : M (bcache D) A) (Q : A -> bcache D -> Prop) s a s' : wp m Q s -> m s = Ok (a, s') -> Q a s'.
Proof. unfold wp. by intros H E; rewrite E in H. Qed.

Lemma bstep_inv x y : binv x.2 x.1 -> bstep x y -> binv y.2 y.1.
Proof.
  intros Hi Hs. destruct Hs as [s s' cl p d n b E|s s' l c r cl Hp Hph E|s s' l c g cl Hp Hph E|s l c g cl x Hp Hph Hv|s s' l c g cl Hp Hph E|s s' l c cl Hp Hph E|s s' l c cl Hp Hph E|s s' c cl p Hc E|s s' l c cl Hp Hph E]; cbn [fst snd] in *; try rewrite Hp in Hi.
  - pose proof (bget_spec cl s d n p Hi) as Hg. rewrite E in Hg. by destruct Hg.
  - by destruct (wp_run _ _ _ _ _ (lock_inv c l s Hi Hph) E) as [_ ?].
  - rewrite Hp. by destruct (wp_run _ _ _ _ _ (fill_inv c l s g Hi Hph) E) as [? _].
  - by eapply modify_inv.
  - by destruct (wp_run _ _ _ _ _ (write_inv c l s g Hi Hph) E) as [_ ?].
  - exact (wp_run _ _ _ _ _ (unlock_inv c l s Hi Hph) E).
  - by destruct (wp_run _ _ _ _ _ (drop_inv c l s Hi Hph) E) as [? _].
  - injection E as <-. by apply pin_inv.
  - injection E as <-. apply remove_inv; [done|by rewrite Hph].
Qed.

(** * Initialisation *)
Definition zeroed s : Prop := forall b, refcnt (pool s b) = 0 /\ valid (pool s b) = false.

Lemma binit_spec s : zeroed s -> wp binit (fun _ s' => binv [] s' /\ ddev s' = ddev s) s.
Proof.
  intros Hz. unfold binit. apply wp_bind, wp_modify.
  apply (wp_for_range (fun j s' => lru s' = reverse (seqZ 0 j) /\ zeroed s' /\ (forall b, 0 <= b < j -> b_locked (pool s' b) = false) /\ ddev s' = ddev s)).
  - split_and!; [done|exact Hz|intros b Hb; lia|done].
  - intros j s' Hj (El & Hz' & Hl & Ed). unfold upd_buf. wp_steps. cbn. split_and!; [| | |done].
    + rewrite El. rewrite seqZ_app by lia. rewrite reverse_app. done.
    + intros b. cbn. rewrite upd_case. case_decide; [|apply Hz']. cbn. subst. apply Hz'.
    + intros b Hb. rewrite upd_case. case_decide; [done|]. apply Hl. lia.
  - intros s' (El & Hz' & Hl & Ed). split; [|done]. change (0 + Z.of_nat (Z.to_nat NBUF)) with NBUF in *. split; try (by intros c ?%elem_of_nil).
    + by rewrite El, reverse_Permutation.
    + intros b Hb. by destruct (Hz' b).
    + intros i j _ _. apply Hz'.
    + intros b Hb. by rewrite Hl.
    + intros b _ Hv. destruct (Hz' b) as [_ E]. by rewrite E in Hv.
Qed.

(** * Theorems *)

(** What bget promises to process [p]: the buffer of the block if the block is
    resident, and otherwise the least recently released buffer nobody uses, marked not
    valid so that it will be read; the caller is counted, no other buffer changes and
    nobody's buffer is taken away.  It panics exactly when the block is not resident and
    all buffers are in use. *)
Definition bget_contract (cl : list client) (s : bcache D) (d n p : Z) : Prop :=
  (forall b, b ∈ lru s -> key_of s b = (d, n) -> exists b' s', bget_index d n s = Ok (b', s') /\ key_of s' b' = (d, n) /\ (~ dead s b -> b' = b) /\
     (forall j, pool s' j = if decide (j = b') then with_refcnt (refcnt (pool s b') + 1) (pool s b') else pool s j) /\ binv (mk_client p b' d n Want :: cl) s') /\
  (forall l1 b l2, (forall j, j ∈ lru s -> key_of s j <> (d, n)) -> lru s = l1 ++ b :: l2 -> refcnt (pool s b) = 0 -> (forall j, j ∈ l2 -> refcnt (pool s j) <> 0) ->
     exists s', bget_index d n s = Ok (b, s') /\ key_of s' b = (d, n) /\ valid (pool s' b) = false /\ refcnt (pool s' b) = 1 /\
     (forall j, j <> b -> pool s' j = pool s j) /\ (forall c, c ∈ cl -> c_buf c <> b) /\ binv (mk_client p b d n Want :: cl) s') /\
  ((exists msg, bget_index d n s = Panic msg) <-> forall j, j ∈ lru s -> key_of s j <> (d, n) /\ refcnt (pool s j) <> 0).
Lemma bget_meets cl s d n p : binv cl s -> bget_contract cl s d n p.
Proof.
  intros Hi. unfold bget_contract. pose proof (bget_spec cl s d n p Hi) as Hg. pose proof (lru_nodup cl s Hi) as Hnd. destruct (bget_index d n s) as [[b0 s0]|msg| |] eqn:E; [|split_and!|done..].
  - destruct Hg as [Hsel Hi']. split_and!.
    + intros b Hb Hk. destruct Hsel as [l1 b' l2 El Hk' Hn|l1 b' l2 El Hn H0 Hl]; [|by destruct (Hn b Hb)]. exists b', (counted s b'). split_and!; try done.
      * unfold key_of, counted. cbn. by rewrite upd_eq.
      * intros Hlive. destruct (decide (b' = b)) as [|Hne]; [done|]. destruct Hlive. apply (bi_first _ _ Hi b'); [|congruence]. rewrite El in Hb. apply elem_of_app in Hb as [Hb|[->|Hb]%elem_of_cons]; [by destruct (Hn b Hb)|done|]. by exists l1, l2.
      * intros j. cbn. rewrite upd_case. case_decide; [by subst; rewrite decide_True|by rewrite decide_False].
    + intros l1 b l2 Hn El H0 Hl. destruct Hsel as [l3 b' l4 El' Hk' _|l3 b' l4 El' Hn' H0' Hl'].
      * exfalso. apply (Hn b'); [rewrite El'; apply elem_of_app; right; by left|done].
      * assert (b' = b) as ->. { destruct (decide (b' = b)) as [|Hne]; [done|exfalso]. destruct (before_total (lru s) b b') as [(k1 & k2 & Ek & Hin)|(k1 & k2 & Ek & Hin)]; [rewrite El; apply elem_of_app; right; by left|rewrite El'; apply elem_of_app; right; by left|done| |].
          - apply (Hl b'); [|done]. rewrite El in Ek, Hnd. destruct (app_pivot_eq b l1 l2 k1 k2 Hnd Ek) as [_ ->]. done.
          - apply (Hl' b); [|done]. rewrite El' in Ek, Hnd. destruct (app_pivot_eq b' l3 l4 k1 k2 Hnd Ek) as [_ ->]. done. }
        exists (recycled s b d n). unfold key_of, recycled. cbn. rewrite !upd_eq. split_and!; try done; [intros j Hj; by rewrite upd_ne by congruence|]. intros c Hc. exact (unused_no_client cl s b c Hi H0 Hc).
    + split; [by intros [? ?]|]. intros Hall. exfalso. destruct Hsel as [l3 b' l4 El' Hk' _|l3 b' l4 El' Hn' H0' Hl']; (destruct (Hall b') as [? ?]; [rewrite El'; apply elem_of_app; right; by left|done]).
  - intros b Hb Hk. by destruct (proj2 Hg b Hb).
  - intros l1 b l2 _ El H0. exfalso. apply (proj1 Hg b); [rewrite El; apply elem_of_app; right; by left|done].
  - split; [|eauto]. intros _ j Hj. split; by apply Hg.
Qed.

(** Every buffer in use has a user of its own. *)
Lemma all_used_users cl s : binv cl s -> (forall j, j ∈ lru s -> refcnt (pool s j) <> 0) -> NBUF <= Z.of_nat (length cl).
Proof.
  intros Hi Hall. assert (seqZ 0 NBUF ⊆+ map c_buf cl) as Hs%submseteq_length.
  { apply NoDup_submseteq; [apply NoDup_seqZ|]. intros b Hb. rewrite <- (bi_lru _ _ Hi) in Hb. pose proof (Hall b Hb) as Hr. rewrite (bi_count _ _ Hi) in Hr by by apply (in_lru cl s).
    destruct (uses b cl) as [|c u] eqn:E; [done|]. assert (c ∈ uses b cl) as [<- Hc]%list_elem_of_filter by (rewrite E; by left). by apply list_elem_of_fmap_2. }
  rewrite length_map, length_seqZ in Hs. change (Z.to_nat NBUF) with 30%nat in Hs. unfold NBUF. lia.
Qed.

Lemma brun_inv x y : rtc bstep x y -> binv x.2 x.1 -> binv y.2 y.1.
Proof. induction 1 as [|x y z Hs _ IH]; [done|]. intros Hi. apply IH. by eapply bstep_inv. Qed.

Lemma wp_ok {A} (m : M (bcache D) A) (Q : A -> bcache D -> Prop) s : wp m Q s -> exists a s', m s = Ok (a, s') /\ Q a s'.
Proof. unfold wp. destruct (m s) as [[a s']| | |]; try done. eauto. Qed.

End runs.

(** * Witnesses

    A machine started from zeroed memory, and a run in which two processes want
    block 5 of device 1; the first one reads it. *)
Definition buf0 : buf := mk_buf 0 0 [] false 0 false 0.
Definition disk0 : gmap (Z * Z) block := {[ (1, 5) := [7; 8] ]}.
Definition zero0 : bcache (gmap (Z * Z) block) := mk_bcache (fun _ => buf0) [] disk0.

Definition after {A} (m : M (bcache (gmap (Z * Z) block)) A) (s : bcache (gmap (Z * Z) block)) : bcache (gmap (Z * Z) block) :=
  match m s with Ok (_, s') => s' | _ => s end.
Lemma after_ok {A} (m : M (bcache (gmap (Z * Z) block)) A) s a : match m s with Ok (a', _) => a' = a | _ => False end -> m s = Ok (a, after m s).
Proof. unfold after. destruct (m s) as [[a' s']| | |]; [by intros ->|done..]. Qed.
Definition start1 := after binit zero0.
Definition got1 := after (bget_index 1 5) start1.
Definition locked1 := after (lock_buf 7 0) got1.
Definition got2 := after (bget_index 1 5) locked1.

Lemma zero0_zeroed : zeroed zero0.
Proof. intros b. split; reflexivity. Qed.
Lemma start1_ok : binit zero0 = Ok (tt, start1).
Proof. apply (after_ok binit zero0 tt). vm_compute. reflexivity. Qed.
Lemma start1_inv : binv [] start1.
Proof. exact (proj1 (wp_run binit _ zero0 tt start1 (binit_spec zero0 zero0_zeroed) start1_ok)). Qed.
Lemma start1_keys j : j ∈ lru start1 -> key_of start1 j <> (1, 5).
Proof.
  assert (forallb (fun j => negb (bool_decide (key_of start1 j = (1, 5)))) (lru start1) = true) as H by (vm_compute; reflexivity).
  rewrite forallb_forall in H. intros Hj%list_elem_of_In%H Hk. by rewrite bool_decide_eq_true_2 in Hj.
Qed.
Lemma got1_ok : bget_index 1 5 start1 = Ok (0, got1).
Proof. apply (after_ok (bget_index 1 5) start1 0). vm_compute. reflexivity. Qed.
Lemma locked1_ok : lock_buf 7 0 got1 = Ok (true, locked1).
Proof. apply (after_ok (lock_buf 7 0) got1 true). vm_compute. reflexivity. Qed.
Lemma got2_ok : bget_index 1 5 locked1 = Ok (0, got2).
Proof. apply (after_ok (bget_index 1 5) locked1 0). vm_compute. reflexivity. Qed.
Lemma run1_steps : rtc bstep (start1, []) (got2, [mk_client 8 0 1 5 Want; mk_client 7 0 1 5 (Hold false)]).
Proof.
  eapply rtc_l; [exact (bs_get start1 got1 [] 7 1 5 0 got1_ok)|]. eapply rtc_l; [exact (bs_lock got1 locked1 [] (mk_client 7 0 1 5 Want) true _ (reflexivity _) eq_refl locked1_ok)|].
  eapply rtc_l; [exact (bs_get locked1 got2 _ 8 1 5 0 got2_ok)|]. apply rtc_refl.
Qed.

Lemma run1_exists : exists s1 s, binit zero0 = Ok (tt, s1) /\ rtc bstep (s1, []) (s, [mk_client 8 0 1 5 Want; mk_client 7 0 1 5 (Hold false)]) /\ dev_read (ddev s) 1 5 = [7; 8].
Proof. exists start1, got2. split; [exact start1_ok|]. split; [exact run1_steps|]. vm_compute. reflexivity. Qed.

Lemma start1_miss : bget_contract [] start1 1 5 7 -> exists s', bget_index 1 5 start1 = Ok (0, s') /\ key_of s' 0 = (1, 5) /\ valid (pool s' 0) = false /\ refcnt (pool s' 0) = 1.
Proof.
  intros (_ & Hmiss & _). destruct (Hmiss (reverse (seqZ 1 29)) 0 []) as (s' & E' & Hk & Hv & Hr & _); [intros j Hj; exact (start1_keys j Hj)|vm_compute; reflexivity|vm_compute; reflexivity|intros j Hj; by apply elem_of_nil in Hj|].
  exists s'. exact (conj E' (conj Hk (conj Hv Hr))).
Qed.
Lemma start1_only s : binit zero0 = Ok (tt, s) -> s = start1.
Proof. rewrite start1_ok. by intros [= <-]. Qed.

