(* ===== verification/Uart.v ===== *)
(** [kernel/drivers/uart.c]: the serial port.

    The device is not part of the kernel: it is a parameter, a type of device
    states with reads and writes of its addresses ([UartPort]).  What the driver
    relies on is the documented behaviour of a 16550 ([Uart16550]): the registers
    and what shares an address with what, the line status, and that a character
    put into the transmitter is sent after a bounded number of polls.  [sim_uart]
    is a device with this behaviour.

    [Console] is what the rest of the kernel uses: a place characters are sent
    to; [uart_console] shows that the driver provides it. *)
From S2P Require Import Prelude Layout.

Definition RHR : Z := 0.
Definition THR : Z := 0.
Definition DLL : Z := 0.
Definition IER : Z := 1.
Definition DLM : Z := 1.
Definition FCR : Z := 2.
Definition LCR : Z := 3.
Definition LSR : Z := 5.
Definition LSR_RX_READY : Z := Z.shiftl 1 0.
Definition LSR_TX_IDLE : Z := Z.shiftl 1 5.

(** * The device *)
Class UartPort (D : Type) := {
  port_rd : Z -> D -> Z * D;
  port_wr : Z -> Z -> D -> D;
  (** Polls of the line status after which the transmitter is empty at the latest. *)
  tx_bound : nat
}.

(** The registers, the characters received and not yet read, and those sent. *)
Record uart_regs := mk_uart_regs { r_ier : Z; r_lcr : Z; r_dll : Z; r_dlm : Z; r_fcr : Z; r_rx : list Z; r_sent : list Z }.
(** The divisor latch access bit: offsets 0 and 1 are the divisor. *)
Definition dlab (r : uart_regs) : bool := Z.testbit (r_lcr r) 7.
Definition with_ier v r := mk_uart_regs v (r_lcr r) (r_dll r) (r_dlm r) (r_fcr r) (r_rx r) (r_sent r).
Definition with_lcr v r := mk_uart_regs (r_ier r) v (r_dll r) (r_dlm r) (r_fcr r) (r_rx r) (r_sent r).
Definition with_dll v r := mk_uart_regs (r_ier r) (r_lcr r) v (r_dlm r) (r_fcr r) (r_rx r) (r_sent r).
Definition with_dlm v r := mk_uart_regs (r_ier r) (r_lcr r) (r_dll r) v (r_fcr r) (r_rx r) (r_sent r).
Definition with_fcr v r := mk_uart_regs (r_ier r) (r_lcr r) (r_dll r) (r_dlm r) v (r_rx r) (r_sent r).
Definition with_rx v r := mk_uart_regs (r_ier r) (r_lcr r) (r_dll r) (r_dlm r) (r_fcr r) v (r_sent r).
Definition with_sent v r := mk_uart_regs (r_ier r) (r_lcr r) (r_dll r) (r_dlm r) (r_fcr r) (r_rx r) v.
#[global] Arguments dlab : simpl never.

Class Uart16550 (D : Type) `{UartPort D} := {
  regs : D -> uart_regs;
  (** Polls until the transmit holding register is empty. *)
  tx_wait : D -> nat;
  tx_wait_bound d : (tx_wait d <= tx_bound)%nat;
  wr_0_dlab d v : dlab (regs d) = true -> regs (port_wr (UART0_BASE + 0) v d) = with_dll v (regs d);
  (** Only a write to an empty transmitter is defined: the character is sent. *)
  wr_0_thr d v : dlab (regs d) = false -> tx_wait d = O -> regs (port_wr (UART0_BASE + 0) v d) = with_sent (r_sent (regs d) ++ [v]) (regs d);
  wr_1 d v : regs (port_wr (UART0_BASE + 1) v d) = if dlab (regs d) then with_dlm v (regs d) else with_ier v (regs d);
  (** Bit 1 of the FIFO control register empties the receiver. *)
  wr_2 d v : regs (port_wr (UART0_BASE + 2) v d) = with_fcr v (with_rx (if Z.testbit v 1 then [] else r_rx (regs d)) (regs d));
  wr_3 d v : regs (port_wr (UART0_BASE + 3) v d) = with_lcr v (regs d);
  (** Line status; while the register is read characters may arrive. *)
  rd_5 d : let '(v, d') := port_rd (UART0_BASE + 5) d in
    0 <= v < 2 ^ 8 /\ Z.testbit v 0 = bool_decide (r_rx (regs d) <> []) /\ Z.testbit v 5 = bool_decide (tx_wait d = O) /\
    (exists new, regs d' = with_rx (r_rx (regs d) ++ new) (regs d)) /\ (tx_wait d' <= pred (tx_wait d))%nat;
  rd_0 d c l : dlab (regs d) = false -> r_rx (regs d) = c :: l -> let '(v, d') := port_rd (UART0_BASE + 0) d in
    v = u8 c /\ exists new, regs d' = with_rx (l ++ new) (regs d)
}.

(** * The driver *)
Section driver.
Context {D : Type} `{UartPort D}.

Definition uart_read_reg (reg : Z) : M D Z := fun d => let '(v, d') := port_rd (UART0_BASE + reg) d in Ok (u8 v, d').
Definition uart_write_reg (reg val : Z) : M D unit := modify (port_wr (UART0_BASE + reg) (u8 val)).

Definition uart_init : M D unit :=
  uart_write_reg IER 0;;
  uart_write_reg LCR 0x80;;
  uart_write_reg DLL 0x03;;
  uart_write_reg DLM 0;;
  uart_write_reg LCR 0x03;;
  uart_write_reg FCR 0x07.

(** [while (!(uart_read_reg(LSR) & LSR_TX_IDLE));] *)
Fixpoint uart_wait (fuel : nat) : M D unit :=
  v ← uart_read_reg LSR;
  if negb (Z.land v LSR_TX_IDLE =? 0) then mret tt else
  match fuel with O => out_of_fuel | S fuel' => uart_wait fuel' end.
Definition uart_putc (c : Z) : M D unit := uart_wait tx_bound;; uart_write_reg THR c.

Definition uart_getc : M D Z :=
  v ← uart_read_reg LSR;
  if Z.land v LSR_RX_READY =? 0 then mret (-1) else uart_read_reg RHR.
End driver.

(** * What the kernel uses *)
Class Console (S : Type) := {
  putc : Z -> M S unit;
  con_ready : S -> Prop;
  con_sent : S -> list Z;
  putc_spec s c : con_ready s -> wp (putc c) (fun _ s' => con_ready s' /\ con_sent s' = con_sent s ++ [u8 c]) s
}.

(** * The driver meets it *)
Lemma land_flag v k : 0 <= k -> (Z.land v (Z.shiftl 1 k) =? 0) = negb (Z.testbit v k).
Proof.
  intros Hk. rewrite Z.shiftl_1_l. destruct (Z.testbit v k) eqn:Hb; cbn [negb].
  - apply Z.eqb_neq. intros H0. apply (f_equal (fun z => Z.testbit z k)) in H0.
    by rewrite Z.land_spec, Hb, Z.pow2_bits_true, Z.bits_0 in H0 by done.
  - by apply Z.eqb_eq, land_pow2_clear.
Qed.

Section driver_spec.
Context {D : Type} `{Uart16550 D}.

Lemma wp_write_reg reg val (Q : unit -> D -> Prop) d : Q tt (port_wr (UART0_BASE + reg) (u8 val) d) -> wp (uart_write_reg reg val) Q d.
Proof. done. Qed.

Lemma wp_read_lsr (Q : Z -> D -> Prop) d :
  (forall v d' new, Z.testbit v 0 = bool_decide (r_rx (regs d) <> []) -> Z.testbit v 5 = bool_decide (tx_wait d = O) ->
    regs d' = with_rx (r_rx (regs d) ++ new) (regs d) -> (tx_wait d' <= pred (tx_wait d))%nat -> Q v d') ->
  wp (uart_read_reg LSR) Q d.
Proof.
  intros HQ. unfold wp, uart_read_reg, LSR. pose proof (rd_5 d) as Hrd. destruct (port_rd (UART0_BASE + 5) d) as [v d'].
  destruct Hrd as (Hv & Hb0 & Hb5 & (new & Hr) & Hw). rewrite u8_small by done. by apply (HQ v d' new).
Qed.

(** The wait loop ends with an empty transmitter and changes nothing but what has
    been received. *)
Lemma uart_wait_spec n d : (tx_wait d <= n)%nat ->
  wp (uart_wait n) (fun _ d' => tx_wait d' = O /\ exists new, regs d' = with_rx (r_rx (regs d) ++ new) (regs d)) d.
Proof.
  revert d. induction n as [|n IH]; intros d Hn; cbn [uart_wait]; apply wp_bind, wp_read_lsr; intros v d' new _ H5 Hr Hw;
    unfold LSR_TX_IDLE; rewrite land_flag, negb_involutive, H5 by lia; case_bool_decide as Ht; try lia.
  - apply wp_ret. split; [lia|by exists new].
  - apply wp_ret. split; [lia|by exists new].
  - eapply wp_mono; [apply IH; lia|]. cbv beta. intros _ d2 [H2 (new2 & Hr2)]. split; [done|]. exists (new ++ new2).
    rewrite Hr2, Hr. cbn. by rewrite app_assoc.
Qed.

Lemma uart_putc_spec d c : dlab (regs d) = false ->
  wp (uart_putc c) (fun _ d' => exists new, regs d' = with_sent (r_sent (regs d) ++ [u8 c]) (with_rx (r_rx (regs d) ++ new) (regs d))) d.
Proof.
  intros Hd. unfold uart_putc. apply wp_bind. eapply wp_mono; [apply uart_wait_spec, tx_wait_bound|]. cbv beta.
  intros _ d1 [Hw (new & Hr)]. apply wp_write_reg. exists new. unfold THR. rewrite wr_0_thr; [by rewrite Hr|by rewrite Hr|done].
Qed.

#[export] Program Instance uart_console : Console D := {
  putc := uart_putc; con_ready d := dlab (regs d) = false; con_sent d := r_sent (regs d) }.
Next Obligation.
  intros d c Hd. eapply wp_mono; [by apply uart_putc_spec|]. cbv beta. intros _ d' [new ->]. done.
Qed.
End driver_spec.

(** * A device with this behaviour

    It sends a character [sim_delay] polls after it was written. *)
Definition sim_delay : nat := 2.
Record sim_uart := mk_sim { sim_regs : uart_regs; sim_wait : nat }.
Definition sim_lsr (d : sim_uart) : Z :=
  (if decide (r_rx (sim_regs d) = []) then 0 else 1) + (if decide (sim_wait d = O) then 2 ^ 5 else 0).
Definition sim_rd (a : Z) (d : sim_uart) : Z * sim_uart :=
  let r := sim_regs d in
  if a =? UART0_BASE + 5 then (sim_lsr d, mk_sim r (pred (Nat.min (sim_wait d) sim_delay)))
  else if a =? UART0_BASE + 0 then
    if dlab r then (r_dll r, d) else
    match r_rx r with [] => (0, d) | c :: l => (u8 c, mk_sim (with_rx l r) (sim_wait d)) end
  else (0, d).
Definition sim_wr (a v : Z) (d : sim_uart) : sim_uart :=
  let r := sim_regs d in
  if a =? UART0_BASE + 0 then
    if dlab r then mk_sim (with_dll v r) (sim_wait d)
    else if decide (sim_wait d = O) then mk_sim (with_sent (r_sent r ++ [v]) r) sim_delay else d
  else if a =? UART0_BASE + 1 then mk_sim (if dlab r then with_dlm v r else with_ier v r) (sim_wait d)
  else if a =? UART0_BASE + 2 then mk_sim (with_fcr v (with_rx (if Z.testbit v 1 then [] else r_rx r) r)) (sim_wait d)
  else if a =? UART0_BASE + 3 then mk_sim (with_lcr v r) (sim_wait d)
  else d.

#[export] Instance sim_port : UartPort sim_uart := {| port_rd := sim_rd; port_wr := sim_wr; tx_bound := sim_delay |}.
#[export] Program Instance sim_16550 : Uart16550 sim_uart := {| regs := sim_regs; tx_wait d := Nat.min (sim_wait d) sim_delay |}.
Next Obligation. intros d. cbn. lia. Qed.
Next Obligation. intros d v Hd. cbn. unfold sim_wr. cbn. by rewrite Hd. Qed.
Next Obligation.
  intros d v Hd Hw. cbn. unfold sim_wr. cbn. rewrite Hd. destruct (decide (sim_wait d = O)); [done|]. unfold sim_delay in Hw. lia.
Qed.
Next Obligation. done. Qed.
Next Obligation. done. Qed.
Next Obligation. done. Qed.
Next Obligation.
  intros d. change (port_rd (UART0_BASE + 5) d) with (sim_lsr d, mk_sim (sim_regs d) (pred (Nat.min (sim_wait d) sim_delay))). cbn [sim_regs sim_wait]. unfold sim_lsr.
  assert (bool_decide (Nat.min (sim_wait d) sim_delay = O) = bool_decide (sim_wait d = O)) as -> by (apply bool_decide_ext; unfold sim_delay; split; lia).
  assert (exists new, sim_regs d = with_rx (r_rx (sim_regs d) ++ new) (sim_regs d)) as Hr by (exists []; rewrite app_nil_r; by destruct (sim_regs d)).
  destruct (decide (r_rx (sim_regs d) = [])) as [E|E], (decide (sim_wait d = O)) as [W|W];
    rewrite ?(bool_decide_true (_ = O)), ?(bool_decide_false (_ = O)) by done;
    rewrite ?(bool_decide_true (r_rx _ <> [])), ?(bool_decide_false (r_rx _ <> [])) by naive_solver; split_and!; done || lia.
Qed.
Next Obligation.
  intros d c l Hd Hr. cbn. unfold sim_rd. cbn. rewrite Hd, Hr. split; [done|]. exists []. by rewrite app_nil_r.
Qed.
