(* ===== verification/Kprintf.v ===== *)
(** [kernel/lib/kprintf.c]: formatted output, over a [Console].

    Characters are their codes; a C string is the list of its characters without
    the terminator.  The variable arguments are a list of typed values: fetching
    one with a type that does not match is undefined, as in C (an [int] may be
    fetched as [unsigned int] and conversely when the value is in both ranges; a
    pointer may be fetched as [unsigned long]).

    [renders] says, as a relation, which text a format string stands for;
    [fmt_typed] checks a format string against its arguments. *)
From Stdlib Require Import Ascii.
From S2P Require Import Prelude Uart.

Fixpoint chars (s : string) : list Z :=
  match s with
  | EmptyString => []
  | String c s' => Z.of_N (N_of_ascii c) :: chars s'
  end.
Definition ch (c : ascii) : Z := Z.of_N (N_of_ascii c).
Arguments ch c%_char_scope.

Definition digits : list Z := chars "0123456789abcdef".

Inductive va := VInt (v : Z) | VUint (v : Z) | VUlong (v : Z) | VPtr (a : Z) | VStr (str : option (list Z)).
Definition as_int (a : va) : option Z :=
  match a with VInt v => Some v | VUint v => if v <? 2 ^ 31 then Some v else None | _ => None end.
Definition as_uint (a : va) : option Z :=
  match a with VUint v => Some v | VInt v => if 0 <=? v then Some v else None | _ => None end.
Definition as_ulong (a : va) : option Z :=
  match a with VUlong v | VPtr v => Some v | _ => None end.
Definition as_str (a : va) : option (option (list Z)) :=
  match a with VStr str => Some str | _ => None end.

Definition BUF_LEN : Z := 20.
Definition null_text : list Z := chars "(null)".

Section engine.
Context {S : Type} `{Console S}.

(** [va_arg]. *)
Definition va_arg {A} (conv : va -> option A) (ap : list va) : M S (A * list va) :=
  match ap with
  | [] => undefined
  | a :: ap' => match conv a with Some v => mret (v, ap') | None => undefined end
  end.

(** The [do ... while (val)] loop; [buf] is the part of [buf] written so far. *)
Fixpoint digit_loop (fuel : nat) (val base : Z) (buf : list Z) : M S (list Z) :=
  match fuel with
  | O => out_of_fuel
  | Datatypes.S fuel' =>
      require (Z.of_nat (length buf) <? BUF_LEN);;
      match digits !! Z.to_nat (val mod base) with
      | None => undefined
      | Some c =>
          let val := val / base in
          if negb (val =? 0) then digit_loop fuel' val base (buf ++ [c]) else mret (buf ++ [c])
      end
  end.
(** [while (--i >= 0) uart_putc(buf[i]);] *)
Fixpoint put_down (i : nat) (buf : list Z) : M S unit :=
  match i with
  | O => mret tt
  | Datatypes.S i' => match buf !! i' with Some c => putc c;; put_down i' buf | None => undefined end
  end.
Definition print_uint (val base : Z) : M S unit :=
  buf ← digit_loop (Z.to_nat BUF_LEN + 1) val base [];
  put_down (length buf) buf.

(** [-val] of the smallest [long] overflows. *)
Definition print_int (val base : Z) : M S unit :=
  if negb (base =? 10) || (0 <=? val) then print_uint (u64 val) base else
  putc (ch "-");;
  require (negb (val =? - 2 ^ 63));;
  print_uint (u64 (- val)) base.

(** [while ( *s) uart_putc( *s++);] *)
Fixpoint put_str (str : list Z) : M S unit :=
  match str with
  | [] => mret tt
  | c :: str' => if c =? 0 then mret tt else putc c;; put_str str'
  end.

(** The cases of the switch that continue the loop; the arguments left. *)
Definition print_conv (c : Z) (ap : list va) : M S (list va) :=
  if c =? ch "d" then '(v, ap) ← va_arg as_int ap; print_int v 10;; mret ap
  else if c =? ch "u" then '(v, ap) ← va_arg as_uint ap; print_uint v 10;; mret ap
  else if c =? ch "x" then '(v, ap) ← va_arg as_uint ap; print_uint v 16;; mret ap
  else if c =? ch "p" then '(v, ap) ← va_arg as_ulong ap; putc (ch "0");; putc (ch "x");; print_uint v 16;; mret ap
  else if c =? ch "s" then '(str, ap) ← va_arg as_str ap; put_str (default null_text str);; mret ap
  else if c =? ch "c" then '(v, ap) ← va_arg as_int ap; putc (u8 v);; mret ap
  else if c =? ch "%" then putc (ch "%");; mret ap
  else putc (ch "%");; putc c;; mret ap.

Fixpoint vprintfmt (fmt : list Z) (ap : list va) : M S unit :=
  match fmt with
  | [] => mret tt
  | c :: fmt =>
      if c =? 0 then mret tt
      else if negb (c =? ch "%") then putc c;; vprintfmt fmt ap
      else
        match fmt with
        | [] => mret tt
        | c :: fmt => if c =? 0 then mret tt else ap ← print_conv c ap; vprintfmt fmt ap
        end
  end.

Definition kprintf (fmt : list Z) (ap : list va) : M S unit := vprintfmt fmt ap.

(** What [panic] prints, and the halt. *)
Definition panic_text (fmt : list Z) (ap : list va) : M S unit :=
  kprintf (chars "PANIC: ") [];; vprintfmt fmt ap;; kprintf [10] [].
Definition kpanic {A} (fmt : string) (ap : list va) : M S A :=
  panic_text (chars fmt) ap;; panic fmt.
End engine.

(** * Numerals *)
Definition digit_val (c : Z) : option Z :=
  if (ch "0" <=? c) && (c <=? ch "9") then Some (c - ch "0")
  else if (ch "a" <=? c) && (c <=? ch "f") then Some (c - ch "a" + 10)
  else None.
(** Reading digits from left to right. *)
Fixpoint value_of (base acc : Z) (l : list Z) : option Z :=
  match l with
  | [] => Some acc
  | c :: l' => d ← digit_val c; if d <? base then value_of base (acc * base + d) l' else None
  end.
(** [l] is the numeral of [v] without leading zeroes. *)
Definition canonical (base : Z) (l : list Z) (v : Z) : Prop :=
  l <> [] /\ value_of base 0 l = Some v /\ (head l = Some (ch "0") -> l = [ch "0"]).
Definition signed (l : list Z) (v : Z) : Prop :=
  if decide (0 <= v) then canonical 10 l v else exists l', l = ch "-" :: l' /\ canonical 10 l' (- v).

Lemma digit_val_inj c c' d : digit_val c = Some d -> digit_val c' = Some d -> c = c'.
Proof.
  unfold digit_val. change (ch "0") with 48. change (ch "9") with 57. change (ch "a") with 97. change (ch "f") with 102.
  intros H1 H2. repeat case_match; simplify_eq; lia.
Qed.
Lemma digits_lookup d : 0 <= d < 16 -> exists c, digits !! Z.to_nat d = Some c /\ digit_val c = Some d /\ 0 < c < 256.
Proof.
  intros Hd. assert (forallb (fun i => match digits !! i with Some c => bool_decide (digit_val c = Some (Z.of_nat i) /\ 0 < c < 256) | None => false end) (seq 0 16) = true) as Ha by reflexivity.
  rewrite forallb_forall in Ha. specialize (Ha (Z.to_nat d)). rewrite in_seq in Ha. specialize (Ha ltac:(lia)).
  destruct (digits !! Z.to_nat d) as [c|]; [|done]. apply bool_decide_eq_true in Ha. rewrite Z2Nat.id in Ha by lia. eauto.
Qed.

Lemma digit_val_nonneg c d : digit_val c = Some d -> 0 <= d.
Proof. unfold digit_val. change (ch "0") with 48. change (ch "9") with 57. change (ch "a") with 97. change (ch "f") with 102. intros. repeat case_match; simplify_eq; lia. Qed.

Lemma value_of_snoc base l c acc : value_of base acc (l ++ [c]) =
  v ← value_of base acc l; d ← digit_val c; if d <? base then Some (v * base + d) else None.
Proof.
  revert acc. induction l as [|x l IH]; intros acc; cbn [app value_of].
  - cbn. destruct (digit_val c) as [d|]; [|done]. cbn. by destruct (d <? base).
  - destruct (digit_val x) as [d|]; [|done]. cbn. destruct (d <? base); [|done]. apply IH.
Qed.
Lemma value_of_ge base l acc v : 0 < base -> 0 <= acc -> value_of base acc l = Some v -> acc <= v.
Proof.
  intros Hb. revert acc. induction l as [|x l IH]; intros acc Ha Hv; cbn in Hv; [by simplify_eq|].
  destruct (digit_val x) as [d|] eqn:Hd; [|done]. cbn in Hv. destruct (d <? base); [|done].
  apply digit_val_nonneg in Hd. apply IH in Hv; nia.
Qed.
(** A numeral with value zero starts with zero. *)
Lemma value_of_zero base l : 0 < base -> l <> [] -> value_of base 0 l = Some 0 -> head l = Some (ch "0").
Proof.
  destruct l as [|x l]; [done|]. intros Hb _ Hv. cbn in Hv. destruct (digit_val x) as [d|] eqn:Hd; [|done]. cbn in Hv.
  destruct (d <? base); [|done]. pose proof (digit_val_nonneg _ _ Hd). apply value_of_ge in Hv; [|done|lia].
  assert (d = 0) as -> by lia. cbn. f_equal. by apply (digit_val_inj x _ 0).
Qed.

Lemma canonical_snoc base l c v d : 0 < base -> digit_val c = Some d -> d < base -> 0 < v -> canonical base l v -> canonical base (l ++ [c]) (v * base + d).
Proof.
  intros Hb Hd Hdb Hv (Hne & Hl & Hh). split_and!.
  - by destruct l.
  - rewrite value_of_snoc, Hl. cbn. rewrite Hd. cbn. by rewrite (proj2 (Z.ltb_lt _ _) Hdb).
  - destruct l as [|x l]; [done|]. intros Hx. cbn in Hx. rewrite Hh in Hl by done. change (value_of base 0 [ch "0"]) with (if 0 <? base then Some (0 * base + 0) else None) in Hl. destruct (0 <? base); simplify_eq; lia.
Qed.
Lemma canonical_digit base c d : digit_val c = Some d -> d < base -> canonical base [c] d.
Proof. intros Hd Hb. split_and!; [done| |cbn; congruence]. cbn. rewrite Hd. cbn. by rewrite (proj2 (Z.ltb_lt _ _) Hb). Qed.

(** There is one canonical numeral of a number. *)
Lemma canonical_unique base l : 0 < base -> forall l' v, canonical base l v -> canonical base l' v -> l = l'.
Proof.
  intros Hb. induction l as [|c l IH] using rev_ind; intros l' v (Hn & Hv & Hh) (Hn' & Hv' & Hh'); [done|].
  destruct l' as [|c' l' _] using rev_ind; [done|]. rewrite value_of_snoc in Hv, Hv'.
  destruct (value_of base 0 l) as [u|] eqn:Hu; [|done]. destruct (value_of base 0 l') as [u'|] eqn:Hu'; [|done]. cbn in Hv, Hv'.
  destruct (digit_val c) as [d|] eqn:Hd; [|done]. destruct (digit_val c') as [d'|] eqn:Hd'; [|done]. cbn in Hv, Hv'.
  destruct (Z.ltb_spec d base), (Z.ltb_spec d' base); simplify_eq.
  pose proof (digit_val_nonneg _ _ Hd). pose proof (digit_val_nonneg _ _ Hd').
  assert (u = u' /\ d = d') as [<- <-] by (apply (Z.div_mod_unique base); lia). assert (c = c') as <- by (by eapply digit_val_inj). f_equal.
  assert (forall k, k <> [] -> value_of base 0 k = Some 0 -> (head (k ++ [c]) = Some (ch "0") -> k ++ [c] = [ch "0"]) -> False) as Hz.
  { intros k Hk Hkv Hkh. pose proof (value_of_zero base k Hb Hk Hkv) as Hk0. destruct k as [|x k]; [done|]. specialize (Hkh Hk0). by destruct k. }
  destruct (decide (l = [])) as [->|Hl], (decide (l' = [])) as [->|Hl']; [done| | |].
  - cbn in Hu. simplify_eq. by destruct (Hz l').
  - cbn in Hu'. simplify_eq. by destruct (Hz l).
  - apply (IH l' u); split_and!; try done.
    + intros Hx. destruct l as [|x l]; [done|]. cbn in Hx, Hh. specialize (Hh Hx). by destruct l.
    + intros Hx. destruct l' as [|x l']; [done|]. cbn in Hx, Hh'. specialize (Hh' Hx). by destruct l'.
Qed.
