(* ===== verification/ConsoleThm.v ===== *)
(** Theorems on the console: the serial port driver (Uart) and formatted output
    (Kprintf). *)
From Stdlib Require Import Ascii.
From S2P Require Import Prelude Layout Uart Kprintf.

(** * What a format string stands for *)

(** The bytes of a C string. *)
Definition text (l : list Z) : Prop := Forall (fun c => 0 < c < 256) l.
Definition va_ok (a : va) : Prop :=
  match a with
  | VInt v => - 2 ^ 31 <= v < 2 ^ 31
  | VUint v => 0 <= v < 2 ^ 32
  | VUlong v | VPtr v => 0 <= v < 2 ^ 64
  | VStr str => match str with Some l => text l | None => True end
  end.

(** One conversion: the character after [%], the arguments, the text, the
    arguments left. *)
Inductive conv : Z -> list va -> list Z -> list va -> Prop :=
| conv_d a v t ap : as_int a = Some v -> signed t v -> conv (ch "d") (a :: ap) t ap
| conv_u a v t ap : as_uint a = Some v -> canonical 10 t v -> conv (ch "u") (a :: ap) t ap
| conv_x a v t ap : as_uint a = Some v -> canonical 16 t v -> conv (ch "x") (a :: ap) t ap
| conv_p a v t ap : as_ulong a = Some v -> canonical 16 t v -> conv (ch "p") (a :: ap) (chars "0x" ++ t) ap
| conv_s a t ap : as_str a = Some (Some t) -> conv (ch "s") (a :: ap) t ap
| conv_null a ap : as_str a = Some None -> conv (ch "s") (a :: ap) (chars "(null)") ap
| conv_c a v ap : as_int a = Some v -> conv (ch "c") (a :: ap) [u8 v] ap
| conv_percent ap : conv (ch "%") ap (chars "%") ap
| conv_other c ap : c ∉ chars "duxpsc%" -> conv c ap [ch "%"; c] ap.
Inductive renders : list Z -> list va -> list Z -> Prop :=
| rn_end ap : renders [] ap []
| rn_lit c fmt ap t : c <> ch "%" -> renders fmt ap t -> renders (c :: fmt) ap (c :: t)
| rn_cut ap : renders [ch "%"] ap []
| rn_conv c fmt ap t ap' t' : conv c ap t ap' -> renders fmt ap' t' -> renders (ch "%" :: c :: fmt) ap (t ++ t').

(** The argument a conversion takes, if it takes one. *)
Definition conv_arg (c : Z) : option (va -> bool) :=
  if (c =? ch "d") || (c =? ch "c") then Some (fun a => bool_decide (is_Some (as_int a)))
  else if (c =? ch "u") || (c =? ch "x") then Some (fun a => bool_decide (is_Some (as_uint a)))
  else if c =? ch "p" then Some (fun a => bool_decide (is_Some (as_ulong a)))
  else if c =? ch "s" then Some (fun a => bool_decide (is_Some (as_str a)))
  else None.
(** The check of a format string against its arguments. *)
Fixpoint fmt_typed (fmt : list Z) (ap : list va) : bool :=
  match fmt with
  | [] => true
  | c :: fmt =>
      if negb (c =? ch "%") then fmt_typed fmt ap else
      match fmt with
      | [] => true
      | c :: fmt =>
          match conv_arg c, ap with
          | None, _ => fmt_typed fmt ap
          | Some ok, a :: ap => ok a && fmt_typed fmt ap
          | Some _, [] => false
          end
      end
  end.

(** * Numbers *)
Section console.
Context {S : Type} `{Console S}.
Implicit Types s : S.

(** [m] sends the text [t] and returns [r]. *)
Definition sends {A} (m : M S A) (r : A) (t : list Z) : Prop :=
  forall s, con_ready s -> wp m (fun a s' => a = r /\ con_ready s' /\ con_sent s' = con_sent s ++ t) s.

Lemma sends_ret {A} (a : A) : sends (mret a) a [].
Proof. intros s Hs. apply wp_ret. by rewrite app_nil_r. Qed.
Lemma sends_bind {A B} (m : M S A) (f : A -> M S B) r r' t t' : sends m r t -> sends (f r) r' t' -> sends (m ≫= f) r' (t ++ t').
Proof.
  intros Hm Hf s Hs. apply wp_bind. eapply wp_mono; [by apply Hm|]. cbv beta. intros ? s1 (-> & Hs1 & E1).
  eapply wp_mono; [by apply Hf|]. cbv beta. intros ? s2 (-> & Hs2 & E2). by rewrite E2, E1, app_assoc.
Qed.
Lemma sends_putc c : 0 <= c < 256 -> sends (putc c) tt [c].
Proof. intros Hc s Hs. eapply wp_mono; [by apply putc_spec|]. cbv beta. intros [] s' [? E]. by rewrite E, (u8_small c). Qed.
Lemma sends_eq {A} (m : M S A) r t t' : sends m r t -> t = t' -> sends m r t'.
Proof. by intros ? <-. Qed.
(** A prefix that sends nothing and succeeds. *)
Lemma sends_require {A} b (m : M S A) r t : b = true -> sends m r t -> sends (require b;; m) r t.
Proof. intros -> Hm s Hs. apply wp_bind, wp_require; [done|]. by apply Hm. Qed.

Lemma digit_loop_spec base : 1 < base <= 16 -> forall k fuel val buf, 0 <= val < base ^ Z.of_nat k -> (1 <= k <= fuel)%nat ->
  Z.of_nat (length buf + k) <= BUF_LEN ->
  exists l, sends (digit_loop fuel val base buf) (buf ++ rev l) [] /\ canonical base l val /\ (length l <= k)%nat /\ text l.
Proof.
  intros Hb. induction k as [|k IH]; intros [|fuel] val buf Hv Hk Hl; try lia. cbn [digit_loop].
  destruct (digits_lookup (val mod base)) as (c & Hc & Hd & Hcr); [pose proof (Z.mod_pos_bound val base); lia|].
  rewrite Hc. cbv zeta. pose proof (Z.div_mod val base ltac:(lia)) as Hdm. pose proof (Z.mod_pos_bound val base ltac:(lia)).
  pose proof (Z.div_pos val base ltac:(lia) ltac:(lia)). destruct (Z.eqb_spec (val / base) 0) as [E|E]; cbn [negb].
  - exists [c]. split_and!; [|rewrite Hdm, E, Z.mul_0_r, Z.add_0_l; apply canonical_digit; lia || done|cbn; lia|by apply Forall_singleton].
    apply sends_require; [apply Z.ltb_lt; lia|]. apply sends_ret.
  - assert (val / base < base ^ Z.of_nat k) as Hlt by (apply Z.div_lt_upper_bound; [lia|]; rewrite Nat2Z.inj_succ, Z.pow_succ_r in Hv; lia).
    assert (k <> O) as Hk0 by (intros ->; cbn in Hlt; lia).
    destruct (IH fuel (val / base) (buf ++ [c])) as (l & Hs & Hcl & Hll & Ht); [lia..|rewrite length_app; cbn [length]; lia|].
    exists (l ++ [c]). split_and!.
    + apply sends_require; [apply Z.ltb_lt; lia|]. by rewrite rev_app_distr, (app_assoc buf).
    + rewrite Hdm, Z.mul_comm. apply canonical_snoc; [lia|done|lia..|done].
    + rewrite length_app. cbn. lia.
    + apply Forall_app. split; [done|by apply Forall_singleton].
Qed.

Lemma put_down_spec l : text l -> forall rest, sends (put_down (length l) (rev l ++ rest)) tt l.
Proof.
  induction 1 as [|c l Hc Hl IH]; intros rest; cbn [length put_down rev]; [apply sends_ret|].
  rewrite <- app_assoc. rewrite lookup_app_r by (rewrite length_rev; lia). rewrite length_rev, Nat.sub_diag. cbn [app lookup list_lookup].
  apply (sends_bind _ _ tt tt [c] l); [apply sends_putc; lia|]. apply IH.
Qed.

Lemma print_uint_spec val base k : 1 < base <= 16 -> 0 <= val < base ^ Z.of_nat k -> (1 <= k <= 20)%nat ->
  exists l, sends (print_uint val base) tt l /\ canonical base l val /\ (length l <= k)%nat /\ text l.
Proof.
  intros Hb Hv Hk. destruct (digit_loop_spec base Hb k (Z.to_nat BUF_LEN + 1) val []) as (l & Hs & Hc & Hl & Ht); [done|unfold BUF_LEN; cbn [length]; lia..|].
  exists l. split_and!; [|done..]. cbn [app] in Hs. unfold print_uint. apply (sends_bind _ _ (rev l) tt [] l); [done|].
  rewrite length_rev, <- (app_nil_r (rev l)). by apply put_down_spec.
Qed.
Lemma print_dec val : 0 <= val < 2 ^ 64 -> exists l, sends (print_uint val 10) tt l /\ canonical 10 l val /\ (length l <= 20)%nat /\ text l.
Proof. intros. apply print_uint_spec; lia. Qed.
Lemma print_hex val : 0 <= val < 2 ^ 64 -> exists l, sends (print_uint val 16) tt l /\ canonical 16 l val /\ (length l <= 16)%nat /\ text l.
Proof. intros. apply print_uint_spec; lia. Qed.

Lemma print_int_spec val : - 2 ^ 63 < val < 2 ^ 63 -> exists l, sends (print_int val 10) tt l /\ signed l val.
Proof.
  intros Hv. unfold print_int, signed. cbn [Z.eqb Pos.eqb negb orb]. change (10 =? 10) with true. cbn [negb orb].
  destruct (Z.leb_spec 0 val) as [Hp|Hn].
  - rewrite u64_small by lia. destruct (print_dec val) as (l & Hs & Hc & _); [lia|]. exists l. destruct (decide (0 <= val)); [done|lia].
  - rewrite u64_small by lia. destruct (print_dec (- val)) as (l & Hs & Hc & _); [lia|]. exists (ch "-" :: l).
    destruct (decide (0 <= val)); [lia|]. split; [|by exists l].
    apply (sends_bind _ _ tt tt [ch "-"] l); [by apply sends_putc|]. apply sends_require; [|done].
    apply negb_true_iff, Z.eqb_neq. lia.
Qed.

Lemma put_str_spec l : text l -> sends (put_str l) tt l.
Proof.
  induction 1 as [|c l Hc Hl IH]; cbn [put_str]; [apply sends_ret|]. destruct (Z.eqb_spec c 0); [lia|].
  apply (sends_bind _ _ tt tt [c] l); [apply sends_putc; lia|done].
Qed.

(** ** One conversion *)
Definition stuck {A} (m : M S A) : Prop := forall s, m s = Undefined.

Lemma va_arg_some {A B} (f : va -> option A) a ap v (k : A * list va -> M S B) r t : f a = Some v -> sends (k (v, ap)) r t -> sends (va_arg f (a :: ap) ≫= k) r t.
Proof. intros Hf Hk s Hs. apply wp_bind. cbn. rewrite Hf. apply wp_ret. by apply Hk. Qed.
Lemma va_arg_none {A B} (f : va -> option A) ap (k : A * list va -> M S B) : match ap with [] => True | a :: _ => f a = None end -> stuck (va_arg f ap ≫= k).
Proof. intros Hf s. unfold mbind, M_bind, va_arg. destruct ap as [|a ap]; [done|]. by rewrite Hf. Qed.
Lemma sends_then {A} (m : M S unit) (r : A) t : sends m tt t -> sends (m;; mret r) r t.
Proof. intros Hm. eapply sends_eq; [apply (sends_bind _ _ tt r t []); [done|apply sends_ret]|apply app_nil_r]. Qed.

Definition conv_outcome (c : Z) (ap : list va) : Prop :=
  match conv_arg c, ap with
  | None, _ => exists t, sends (print_conv c ap) ap t /\ conv c ap t ap
  | Some ok, a :: ap' => if ok a then exists t, sends (print_conv c ap) ap' t /\ conv c ap t ap' else stuck (print_conv c ap)
  | Some _, [] => stuck (print_conv c ap)
  end.

Lemma as_int_range a v : va_ok a -> as_int a = Some v -> - 2 ^ 31 <= v < 2 ^ 31.
Proof. destruct a; cbn; intros; repeat case_match; simplify_eq; lia. Qed.
Lemma as_uint_range a v : va_ok a -> as_uint a = Some v -> 0 <= v < 2 ^ 32.
Proof. destruct a; cbn; intros; repeat case_match; simplify_eq; lia. Qed.
Lemma as_ulong_range a v : va_ok a -> as_ulong a = Some v -> 0 <= v < 2 ^ 64.
Proof. destruct a; cbn; intros; repeat case_match; simplify_eq; lia. Qed.

(** The shape shared by the conversions that take an argument. *)
Lemma conv_with_arg {A} c (f : va -> option A) ap (k : A * list va -> M S (list va)) :
  conv_arg c = Some (fun a => bool_decide (is_Some (f a))) -> print_conv c ap = va_arg f ap ≫= k ->
  (forall a v ap', ap = a :: ap' -> f a = Some v -> exists t, sends (k (v, ap')) ap' t /\ conv c ap t ap') ->
  conv_outcome c ap.
Proof.
  intros Hc Hp Hk. unfold conv_outcome. rewrite Hc, Hp. destruct ap as [|a ap']; [by apply va_arg_none|].
  case_bool_decide as Ha.
  - destruct Ha as [v Hv]. destruct (Hk a v ap' eq_refl Hv) as (t & Ht & Hcv). exists t. split; [|done]. by apply (va_arg_some _ _ _ v).
  - apply va_arg_none. by destruct (f a) as [v|]; [destruct Ha; eauto|].
Qed.

Lemma print_conv_spec c ap : 0 < c < 256 -> Forall va_ok ap -> conv_outcome c ap.
Proof.
  intros Hc Hap. assert (forall a ap', ap = a :: ap' -> va_ok a) as Ha by (intros a ap' ->; by apply Forall_cons in Hap as [? _]).
  destruct (Z.eqb_spec c (ch "d")) as [->|Nd].
  { eapply (conv_with_arg _ as_int); [done..|]. intros a v ap' E Hv. pose proof (as_int_range a v (Ha _ _ E) Hv).
    destruct (print_int_spec v) as (l & Hs & Hl); [lia|]. exists l. split; [by apply sends_then|]. subst. by eapply conv_d. }
  destruct (Z.eqb_spec c (ch "u")) as [->|Nu].
  { eapply (conv_with_arg _ as_uint); [done..|]. intros a v ap' E Hv. pose proof (as_uint_range a v (Ha _ _ E) Hv).
    destruct (print_dec v) as (l & Hs & Hl & _); [lia|]. exists l. split; [by apply sends_then|]. subst. by eapply conv_u. }
  destruct (Z.eqb_spec c (ch "x")) as [->|Nx].
  { eapply (conv_with_arg _ as_uint); [done..|]. intros a v ap' E Hv. pose proof (as_uint_range a v (Ha _ _ E) Hv).
    destruct (print_hex v) as (l & Hs & Hl & _); [lia|]. exists l. split; [by apply sends_then|]. subst. by eapply conv_x. }
  destruct (Z.eqb_spec c (ch "p")) as [->|Np].
  { eapply (conv_with_arg _ as_ulong); [done..|]. intros a v ap' E Hv. pose proof (as_ulong_range a v (Ha _ _ E) Hv).
    destruct (print_hex v) as (l & Hs & Hl & _); [lia|]. exists (chars "0x" ++ l). split; [|subst; by eapply conv_p].
    apply (sends_bind _ _ tt ap' [ch "0"] (ch "x" :: l)); [by apply sends_putc|].
    apply (sends_bind _ _ tt ap' [ch "x"] l); [by apply sends_putc|]. by apply sends_then. }
  destruct (Z.eqb_spec c (ch "s")) as [->|Ns].
  { eapply (conv_with_arg _ as_str); [done..|]. intros a v ap' E Hv. specialize (Ha _ _ E). subst. destruct a; try done. cbn in Hv, Ha. simplify_eq.
    destruct v as [l|]; cbn [default].
    - exists l. split; [by apply sends_then, put_str_spec|]. by apply conv_s.
    - exists (chars "(null)"). split; [apply sends_then, put_str_spec; by repeat constructor|]. by apply conv_null. }
  destruct (Z.eqb_spec c (ch "c")) as [->|Nc].
  { eapply (conv_with_arg _ as_int); [done..|]. intros a v ap' E Hv. exists [u8 v]. split; [|subst; by eapply conv_c].
    apply sends_then, sends_putc. unfold u8. apply Z.mod_pos_bound. lia. }
  apply Z.eqb_neq in Nd, Nu, Nx, Np, Ns, Nc. unfold conv_outcome, conv_arg, print_conv. rewrite Nd, Nu, Nx, Np, Ns, Nc. cbn [orb].
  destruct (Z.eqb_spec c (ch "%")) as [->|Npc].
  - exists [ch "%"]. split; [by apply sends_then, sends_putc|apply conv_percent].
  - exists [ch "%"; c]. split.
    + apply (sends_bind _ _ tt ap [ch "%"] [c]); [by apply sends_putc|]. apply sends_then, sends_putc. lia.
    + apply conv_other. rewrite Z.eqb_neq in *. set_solver.
Qed.

(** ** Format strings *)
Lemma stuck_bind {A B} (m : M S A) (f : A -> M S B) : stuck m -> stuck (m ≫= f).
Proof. intros Hm s. unfold mbind, M_bind. by rewrite Hm. Qed.
(** Stuck after some output. *)
Definition sticks {A} (m : M S A) : Prop := forall s, con_ready s -> m s = Undefined.
Lemma sends_sticks {A B} (m : M S A) (f : A -> M S B) r t : sends m r t -> sticks (f r) -> sticks (m ≫= f).
Proof.
  intros Hm Hf s Hs. destruct (wp_elim _ _ _ (Hm s Hs)) as (a & s1 & E & -> & Hs1 & _). unfold mbind, M_bind. rewrite E. by apply Hf.
Qed.

Lemma vprintfmt_spec n : forall fmt ap, (length fmt <= n)%nat -> text fmt -> Forall va_ok ap ->
  if fmt_typed fmt ap then exists t, sends (vprintfmt fmt ap) tt t /\ renders fmt ap t else sticks (vprintfmt fmt ap).
Proof.
  induction n as [|n IH]; intros [|c fmt] ap Hn Ht Hap; cbn [length] in Hn; try lia;
    [exists []; split; [apply sends_ret|constructor]..|].
  apply Forall_cons in Ht as [Hc Ht]. cbn [fmt_typed vprintfmt]. destruct (Z.eqb_spec c 0); [lia|].
  destruct (Z.eqb_spec c (ch "%")) as [->|Nc]; cbn [negb].
  - destruct fmt as [|c fmt]; [exists []; split; [apply sends_ret|constructor]|]. apply Forall_cons in Ht as [Hc2 Ht]. cbn [length] in Hn.
    destruct (Z.eqb_spec c 0); [lia|]. pose proof (print_conv_spec c ap Hc2 Hap) as Ho. unfold conv_outcome in Ho.
    assert (forall ap' t, Forall va_ok ap' -> sends (print_conv c ap) ap' t -> conv c ap t ap' ->
      if fmt_typed fmt ap' then exists t', sends (ap'' ← print_conv c ap; vprintfmt fmt ap'') tt t' /\ renders (ch "%" :: c :: fmt) ap t'
      else sticks (ap'' ← print_conv c ap; vprintfmt fmt ap'')) as Hgo.
    { intros ap' t Hap' Hs Hcv. specialize (IH fmt ap' ltac:(lia) Ht Hap'). destruct (fmt_typed fmt ap').
      - destruct IH as (t' & Hs' & Hr). exists (t ++ t'). split; [by apply (sends_bind _ _ ap')|by eapply rn_conv].
      - by eapply sends_sticks. }
    destruct (conv_arg c) as [ok|]; [destruct ap as [|a ap]|].
    + intros s Hs. by apply stuck_bind.
    + apply Forall_cons in Hap as [_ Hap]. destruct (ok a); cbn [andb].
      * destruct Ho as (t & Hs & Hcv). by apply (Hgo ap t).
      * intros s Hs. by apply stuck_bind.
    + destruct Ho as (t & Hs & Hcv). by apply (Hgo ap t).
  - specialize (IH fmt ap ltac:(lia) Ht Hap). assert (sends (putc c) tt [c]) as Hp by (apply sends_putc; lia).
    destruct (fmt_typed fmt ap).
    + destruct IH as (t & Hs & Hr). exists (c :: t). split; [by apply (sends_bind _ _ tt tt [c] t)|by constructor].
    + by eapply sends_sticks.
Qed.
End console.

(** A format string stands for one text. *)
Lemma signed_unique l l' v : signed l v -> signed l' v -> l = l'.
Proof.
  unfold signed. case_decide; [by apply canonical_unique|]. intros (k & -> & Hk) (k' & -> & Hk'). f_equal. by apply (canonical_unique 10 k ltac:(lia) k' (- v)).
Qed.
Lemma conv_det c ap t1 ap1 t2 ap2 : conv c ap t1 ap1 -> conv c ap t2 ap2 -> t1 = t2 /\ ap1 = ap2.
Proof.
  intros H1 H2. destruct H1; inversion H2; simplify_eq;
    try done;
    try (match goal with H : ch _ ∉ chars _ |- _ => exfalso; apply H; refine (bool_decide_unpack _ _); vm_compute; exact I end);
    split; try done; try f_equal; try (by eapply signed_unique); try (by eapply (canonical_unique 10)); try by eapply (canonical_unique 16).
Qed.
Lemma renders_det fmt ap t1 t2 : renders fmt ap t1 -> renders fmt ap t2 -> t1 = t2.
Proof.
  intros H1. revert t2. induction H1 as [|c fmt ap t Hc _ IH| |c fmt ap t ap' t' Hc _ IH]; intros t2 H2; inversion H2; simplify_eq; try done.
  - f_equal. by apply IH.
  - match goal with H : conv c ap _ _ |- _ => destruct (conv_det _ _ _ _ _ _ Hc H) as [<- <-] end. f_equal. by apply IH.
Qed.

Lemma i32_range x : - 2 ^ 31 <= i32 x < 2 ^ 31.
Proof. unfold i32. pose proof (Z.mod_pos_bound x (2 ^ 32) ltac:(lia)). destruct (Z.ltb_spec (x mod 2 ^ 32) (2 ^ 31)); lia. Qed.

(** * The claims *)

(** print_uint of any 64-bit value in base 10 or 16 returns (so its buffer of 20
    characters suffices), and sends a numeral that reads back as the value, the
    only one without leading zeroes, of at most 20 or 16 digits. *)
Lemma print_uint_roundtrip {S} `{Console S} (s : S) (val base : Z) : con_ready s -> base = 10 \/ base = 16 -> 0 <= val < 2 ^ 64 ->
  exists s' l, print_uint val base s = Ok (tt, s') /\ con_ready s' /\ con_sent s' = con_sent s ++ l /\ value_of base 0 l = Some val /\
    Z.of_nat (length l) <= (if decide (base = 10) then 20 else 16) /\ (forall l', canonical base l' val <-> l' = l).
Proof.
  intros Hs Hb Hv.
  assert (exists l, sends (print_uint val base) tt l /\ canonical base l val /\ Z.of_nat (length l) <= (if decide (base = 10) then 20 else 16)) as (l & Hl & Hc & Hn).
  { destruct Hb as [-> | ->]; [destruct (print_dec val Hv) as (l & ? & ? & ? & _)|destruct (print_hex val Hv) as (l & ? & ? & ? & _)];
      exists l; split_and!; try done; destruct (decide _); lia. }
  destruct (wp_elim _ _ _ (Hl s Hs)) as ([] & s' & E & _ & Hs' & Hsent). exists s', l. split_and!; [done..|by apply Hc|done|].
  intros l'. split; [|by intros ->]. intros Hl'. by apply (canonical_unique base l' ltac:(lia) l val).
Qed.

(** Text without conversions is sent as it is. *)
Lemma literal_sends {S} `{Console S} l : text l -> ch "%" ∉ l -> sends (S := S) (kprintf l []) tt l.
Proof.
  intros Hl Hn. pose proof (vprintfmt_spec (S := S) (length l) l [] ltac:(lia) Hl (Forall_nil_2 _)) as Hk.
  assert (fmt_typed l [] = true /\ renders l [] l) as [E Hr].
  { clear - Hn. induction l as [|c l IH]; [split; [done|constructor]|]. apply not_elem_of_cons in Hn as [Hc Hn]. destruct (IH Hn).
    cbn [fmt_typed]. rewrite (proj2 (Z.eqb_neq _ _)) by done. split; [done|by constructor]. }
  rewrite E in Hk. destruct Hk as (t & Hk & Hr'). apply (sends_eq _ _ t); [exact Hk|]. by apply (renders_det l []).
Qed.
Lemma prefix_sends {S} `{Console S} : sends (S := S) (kprintf (chars "PANIC: ") []) tt (chars "PANIC: ").
Proof. apply literal_sends; [by repeat constructor|by apply (bool_decide_unpack _)]. Qed.
Lemma panic_text_sends {S} `{Console S} fmt ap t : sends (S := S) (vprintfmt fmt ap) tt t -> sends (S := S) (panic_text fmt ap) tt (chars "PANIC: " ++ t ++ [10]).
Proof. intros Hst. apply (sends_bind _ _ tt); [apply prefix_sends|]. apply (sends_bind _ _ tt); [done|]. apply literal_sends; [by repeat constructor|by apply (bool_decide_unpack _)]. Qed.

(** kprintf is defined exactly when the format string fits the arguments:
    [fmt_typed] accepts it, and then the call returns and sends the one text the
    format string stands for (and panic the same between its prefix and a
    newline); otherwise an argument is fetched that is missing or of another type. *)
Lemma kprintf_correct {S} `{Console S} (s : S) (fmt : list Z) (ap : list va) : con_ready s -> text fmt -> Forall va_ok ap ->
  (fmt_typed fmt ap = true -> exists t, renders fmt ap t /\ (forall t', renders fmt ap t' -> t' = t) /\
    (exists s', kprintf fmt ap s = Ok (tt, s') /\ con_ready s' /\ con_sent s' = con_sent s ++ t) /\
    (exists s', panic_text fmt ap s = Ok (tt, s') /\ con_sent s' = con_sent s ++ chars "PANIC: " ++ t ++ [10])) /\
  (fmt_typed fmt ap = false -> kprintf fmt ap s = Undefined /\ panic_text fmt ap s = Undefined).
Proof.
  intros Hs Ht Hap. pose proof (vprintfmt_spec (length fmt) fmt ap ltac:(lia) Ht Hap) as Hv.
  split; intros Hty; rewrite Hty in Hv.
  - destruct Hv as (t & Hst & Hr). exists t. split_and!; [done|by intros; eapply renders_det| |].
    + destruct (wp_elim _ _ _ (Hst s Hs)) as ([] & s' & E & _ & ? & ?). by exists s'.
    + destruct (wp_elim _ _ _ (panic_text_sends fmt ap t Hst s Hs)) as ([] & s' & E & _ & _ & ?). by exists s'.
  - split; [by apply Hv|]. eapply sends_sticks; [apply prefix_sends| |done]. intros s1 Hs1. unfold mbind, M_bind. by rewrite Hv.
Qed.

(** C26: print_uint of any 64-bit value in base 10 or 16 returns (so its buffer of 20
    characters suffices), and sends a numeral that reads back as the value, the
    only one without leading zeroes, of at most 20 or 16 digits.  kprintf is defined
    exactly when the format string fits the arguments: [fmt_typed] accepts it, and then
    the call returns and sends the one text the format string stands for (and panic the
    same between its prefix and a newline); otherwise an argument is fetched that is
    missing or of another type. *)
Theorem printing_correct {S} `{Console S} (s : S) : con_ready s ->
  (forall val base, base = 10 \/ base = 16 -> 0 <= val < 2 ^ 64 ->
  exists s' l, print_uint val base s = Ok (tt, s') /\ con_ready s' /\ con_sent s' = con_sent s ++ l /\ value_of base 0 l = Some val /\
    Z.of_nat (length l) <= (if decide (base = 10) then 20 else 16) /\ (forall l', canonical base l' val <-> l' = l)) /\
  (forall fmt ap, text fmt -> Forall va_ok ap ->
  (fmt_typed fmt ap = true -> exists t, renders fmt ap t /\ (forall t', renders fmt ap t' -> t' = t) /\
    (exists s', kprintf fmt ap s = Ok (tt, s') /\ con_ready s' /\ con_sent s' = con_sent s ++ t) /\
    (exists s', panic_text fmt ap s = Ok (tt, s') /\ con_sent s' = con_sent s ++ chars "PANIC: " ++ t ++ [10])) /\
  (fmt_typed fmt ap = false -> kprintf fmt ap s = Undefined /\ panic_text fmt ap s = Undefined)).
Proof. intros Hs. split; intros; [by apply print_uint_roundtrip|by apply kprintf_correct]. Qed.

Lemma uart_init_spec {D} `{Uart16550 D} (d : D) : dlab (regs d) = false ->
  exists d', uart_init d = Ok (tt, d') /\ regs d' = mk_uart_regs 0 3 3 0 7 [] (r_sent (regs d)) /\ con_ready d'.
Proof.
  intros Hd. eexists. split; [reflexivity|]. change (con_ready ?d') with (dlab (regs d') = false). unfold IER, LCR, DLL, DLM, FCR.
  set (d1 := port_wr (UART0_BASE + 1) (u8 0) d). set (d2 := port_wr (UART0_BASE + 3) (u8 0x80) d1). set (d3 := port_wr (UART0_BASE + 0) (u8 0x03) d2).
  assert (regs d1 = with_ier 0 (regs d)) as E1 by (unfold d1; by rewrite wr_1, Hd).
  assert (regs d2 = with_lcr 0x80 (regs d1)) as E2 by apply wr_3.
  assert (regs d3 = with_dll 3 (regs d2)) as E3 by (apply wr_0_dlab; by rewrite E2).
  rewrite wr_2, wr_3, wr_1, E3, E2, E1. done.
Qed.

(** C27: uart_init leaves the port at 8 data bits, no parity, one stop bit, divisor 3,
    with interrupts off and the FIFOs on and empty; uart_putc returns after the
    transmitter has become empty, never overruns it, and sends exactly its byte;
    uart_getc takes the oldest character received, or returns -1 and takes none. *)
Theorem uart_correct {D} `{Uart16550 D} (d : D) : dlab (regs d) = false ->
  (exists d', uart_init d = Ok (tt, d') /\ regs d' = mk_uart_regs 0 3 3 0 7 [] (r_sent (regs d)) /\ con_ready d') /\
  (forall c, exists d' new, uart_putc c d = Ok (tt, d') /\ regs d' = with_sent (r_sent (regs d) ++ [u8 c]) (with_rx (r_rx (regs d) ++ new) (regs d))) /\
  (exists d' v new, uart_getc d = Ok (v, d') /\
    match r_rx (regs d) with
    | [] => v = -1 /\ regs d' = with_rx new (regs d)
    | c :: l => v = u8 c /\ regs d' = with_rx (l ++ new) (regs d)
    end).
Proof.
  intros Hd. split_and!.
  - by apply uart_init_spec.
  - intros c. destruct (wp_elim _ _ _ (uart_putc_spec d c Hd)) as ([] & d' & E & new & Hr). by exists d', new.
  - assert (wp uart_getc (fun v d' => exists new, match r_rx (regs d) with
      | [] => v = -1 /\ regs d' = with_rx new (regs d)
      | c :: l => v = u8 c /\ regs d' = with_rx (l ++ new) (regs d) end) d) as Hw.
    { unfold uart_getc. apply wp_bind, wp_read_lsr. intros v d1 new H0' _ Hr _. unfold LSR_RX_READY. rewrite land_flag, H0' by lia.
      destruct (r_rx (regs d)) as [|c l] eqn:E; cbn [negb bool_decide]; [rewrite bool_decide_false by naive_solver|rewrite bool_decide_true by done]; cbn [negb].
      - apply wp_ret. exists new. by rewrite Hr.
      - unfold wp, uart_read_reg, RHR. pose proof (rd_0 d1 c (l ++ new)) as Hrd. destruct (port_rd (UART0_BASE + 0) d1) as [v' d2].
        destruct Hrd as (-> & new2 & Hr2); [by rewrite Hr|by rewrite Hr|]. exists (new ++ new2). rewrite u8_small by apply Z.mod_pos_bound, eq_refl.
        split; [done|]. rewrite Hr2, Hr. cbn. by rewrite app_assoc. }
    destruct (wp_elim _ _ _ Hw) as (v & d' & E & new & Hr). by exists d', v, new.
Qed.

(** * Witnesses *)
Definition sim0 : sim_uart := mk_sim (mk_uart_regs 0 3 3 0 7 [104; 105] []) 1.
Lemma sim0_ready : con_ready sim0.
Proof. hnf. reflexivity. Qed.


Definition demo_fmt : list Z := chars "pid=%d at %p: %s%%".
Definition demo_args : list va := [VInt (-7); VPtr 0x80000000; VStr (Some (chars "ok"))].


Lemma printing_correct_witness : (exists (s' : sim_uart) l, print_uint (2 ^ 64 - 1) 10 sim0 = Ok (tt, s') /\ value_of 10 0 l = Some (2 ^ 64 - 1) /\ Z.of_nat (length l) <= 20) /\
  exists t, renders demo_fmt demo_args t /\ (exists s' : sim_uart, kprintf demo_fmt demo_args sim0 = Ok (tt, s') /\ con_sent s' = con_sent sim0 ++ t).
Proof.
  destruct (printing_correct sim0 sim0_ready) as [H1 H2]. split.
  - destruct (H1 (2 ^ 64 - 1) 10 (or_introl eq_refl) ltac:(lia)) as (s' & l & E & _ & _ & Hv & Hl & _).
    exists s', l. split; [exact E|]. split; [exact Hv|exact Hl].
  - assert (text demo_fmt) as Ht by (repeat constructor).
    assert (Forall va_ok demo_args) as Ha by (do 3 (apply Forall_cons_2; [cbn; repeat constructor; lia|]); apply Forall_nil_2).
    destruct (H2 demo_fmt demo_args Ht Ha) as [Hok _].
    destruct (Hok eq_refl) as (t & Hr & _ & (s' & E & _ & Hs) & _). exists t. split; [exact Hr|]. exists s'. split; [exact E|exact Hs].
Defined.

Lemma uart_correct_witness : exists (d' : sim_uart) v new, uart_getc sim0 = Ok (v, d') /\ v = 104 /\ regs d' = with_rx ([105] ++ new) (regs sim0).
Proof.
  destruct (uart_correct sim0 sim0_ready) as (_ & _ & d' & v & new & E & Hv & Hr). exists d', v, new. split; [exact E|]. split; [exact Hv|exact Hr].
Defined.

(** The text of the example. *)
Example demo_text : match kprintf demo_fmt demo_args sim0 with Ok (_, s') => con_sent s' = chars "pid=-7 at 0x80000000: ok%" | _ => False end.
Proof. vm_compute. reflexivity. Qed.
