(* ===== verification/Syscall.v ===== *)
(** [kernel/syscall.c]: the system calls.

    The handlers run in the process on the hart and use all the components below
    them, so the state puts these side by side: the process subsystem ([kst]), the
    memory with the address space of each process, and the console.  [on_ps],
    [on_mem] and [on_con] run a computation of one component.

    The buffers of the handlers are on the kernel stack of the process; their
    addresses are a parameter.  As in Proc, what the allocators answer to fork and
    exec is a parameter, for exec as a function of the path and the arguments.  A
    handler that does not come back ([exit], or one that went to sleep and has
    switched to the scheduler) returns [None]; what it does after it has been woken
    is [resume_proc] of Proc and, for wait, [sys_wait_ret]. *)
From stdpp Require Import gmap.
From S2P Require Import Prelude Mem Layout Hash Kalloc Kmalloc Proc Vm Vma Sbrk Uart.

Definition ENOSYS : Z := 38.
Definition EBADF : Z := 9.
Definition EINVAL : Z := 22.
Definition SYS_write : Z := 1.
Definition SYS_exit : Z := 2.
Definition SYS_fork : Z := 3.
Definition SYS_exec : Z := 4.
Definition SYS_wait : Z := 5.
Definition SYS_getpid : Z := 6.
Definition SYS_kill : Z := 7.
Definition SYS_sleep : Z := 8.
Definition SYS_sbrk : Z := 9.
Definition NSYSCALL : Z := 10.
Definition TF_a2 : Z := 128.
Definition TF_a7 : Z := 168.

(** Sizes of the local buffers. *)
Definition WRITE_MAX : Z := 1024.
Definition KBUF_LEN : Z := 128.
Definition PATH_LEN : Z := 64.
Definition KARGV_LEN : Z := 512.
Definition ARGV_LEN : Z := 16.

Section syscalls.
Context {C : Type} `{Console C}.

Record sysst := mk_sysst { ps : kst; km : kmem; spaces : Z -> aspace; con : C }.
Definition with_ps (v : kst) (s : sysst) : sysst := mk_sysst v (km s) (spaces s) (con s).
Definition with_km (v : kmem) (s : sysst) : sysst := mk_sysst (ps s) v (spaces s) (con s).
Definition with_space (p : Z) (v : aspace) (s : sysst) : sysst := mk_sysst (ps s) (km s) (upd (spaces s) p v) (con s).
Definition with_con (v : C) (s : sysst) : sysst := mk_sysst (ps s) (km s) (spaces s) v.

Definition on_ps {A} : M kst A -> M sysst A := zoom ps with_ps.
Definition on_mem {A} : M kmem A -> M sysst A := zoom km with_km.
Definition on_con {A} : M C A -> M sysst A := zoom con with_con.

(** The kernel-stack buffers, and what the allocators answer. *)
Record call_env := mk_env { kbuf_at : Z; path_at : Z; kargv_at : Z; argva_at : Z; kstatus_at : Z; on_fork : fork_env; on_exec : list Z -> list (list Z) -> exec_env }.

(** [this_proc()->trapframe->...] *)
Definition tf_reg (off : Z) : M sysst Z :=
  p ← on_ps this_proc;
  v ← on_ps (get_proc p);
  require (negb (trapframe v =? Proc.NULL));;
  gets (fun s => tf_mem (ps s) (trapframe v) off).
Definition this_space : M sysst aspace := p ← on_ps this_proc; gets (fun s => spaces s p).

(** [for (uint64 i = 0; i < n; i++) uart_putc(kbuf[i]);] *)
Definition put_range (a n : Z) : M sysst unit :=
  for_range (Z.to_nat n) 0 (fun i => c ← on_mem (load8 (a + i)); on_con (putc c)).

Fixpoint write_loop (fuel : nat) (sp : aspace) (kb uaddr len written : Z) : M sysst Z :=
  if written <? len then
    match fuel with
    | O => out_of_fuel
    | S fuel' =>
        let n := len - written in
        let n := if KBUF_LEN <? n then KBUF_LEN else n in
        r ← on_mem (copyin sp kb (u64 (uaddr + written)) n);
        if r <? 0 then mret (- EFAULT) else
        put_range kb n;;
        write_loop fuel' sp kb uaddr len (written + n)
    end
  else mret written.

Definition sys_write (e : call_env) : M sysst Z :=
  fd ← tf_reg TF_a0;
  uaddr ← tf_reg TF_a1;
  len ← tf_reg TF_a2;
  if negb (i32 fd =? 1) then mret (- EBADF) else
  if WRITE_MAX <? len then mret (- EINVAL) else
  sp ← this_space;
  write_loop (Z.to_nat (WRITE_MAX / KBUF_LEN)) sp (kbuf_at e) uaddr len 0.

Definition sys_exit : M sysst unit := status ← tf_reg TF_a0; on_ps (proc_exit (i32 status)).
Definition sys_fork (e : call_env) : M sysst Z := on_ps (proc_fork (on_fork e)).

(** [strlen] of a kernel string of fewer than [n] bytes, and the string itself as
    the function it is passed to reads it. *)
Definition kstrlen (n a : Z) : M kmem Z :=
  s ← get; match KString.strlen (Z.to_nat n) (ram s) a with Some l => require (ram_ok s a (l + 1));; mret l | None => out_of_fuel end.
Definition kstring (n a : Z) : M kmem (list Z) :=
  len ← kstrlen n a; s ← get; mret ((fun i => ld8 (ram s) (a + i)) <$> seqZ 0 len).

(** The loop that collects [argv]: the error, or the addresses of the strings.  [n]
    is [argc] counted down. *)
Fixpoint fetch_args (n : nat) (sp : aspace) (e : call_env) (uargv argc off : Z) (argv : list Z) : M sysst (Z + list Z) :=
  match n with
  | O => mret (inr argv)
  | S n' =>
      r ← on_mem (copyin sp (argva_at e) (u64 (uargv + argc * 8)) 8);
      if r <? 0 then mret (inl (- EFAULT)) else
      arg_va ← on_mem (load64 (argva_at e));
      if arg_va =? 0 then mret (inr argv) else
      let a := kargv_at e + off in
      r ← on_mem (copyinstr sp a arg_va (u64 (KARGV_LEN - off)));
      if r <? 0 then mret (inl (- EFAULT)) else
      len ← on_mem (kstrlen KARGV_LEN a);
      fetch_args n' sp e uargv (argc + 1) (off + len + 1) (argv ++ [a])
  end.

(** Path and arguments of [exec]: the error, or the strings. *)
Definition exec_args (e : call_env) : M sysst (Z + list Z * list (list Z)) :=
  upath ← tf_reg TF_a0;
  uargv ← tf_reg TF_a1;
  sp ← this_space;
  r ← on_mem (copyinstr sp (path_at e) upath PATH_LEN);
  if r <? 0 then mret (inl (- EFAULT)) else
  a ← fetch_args (Z.to_nat (ARGV_LEN - 1)) sp e uargv 0 0 [];
  match a with
  | inl err => mret (inl err)
  | inr argv =>
      path ← on_mem (kstring PATH_LEN (path_at e));
      args ← mapM (fun a => on_mem (kstring KARGV_LEN a)) argv;
      mret (inr (path, args))
  end.
Definition sys_exec (e : call_env) : M sysst Z :=
  a ← exec_args e;
  match a with
  | inl err => mret err
  | inr (path, args) => on_ps (proc_exec (on_exec e path args))
  end.

(** [*status = child->exit_status] *)
Definition store32 (a v : Z) : M kmem unit := s ← get; require (ram_ok s a 4);; modify (set_ram (st 4 (ram s) a v)).
(** After [proc_wait] has returned; it writes the status when it reaps a child. *)
Definition sys_wait_ret (e : call_env) (pid' status : Z) : M sysst Z :=
  (if 0 <? pid' then on_mem (store32 (kstatus_at e) status) else mret tt);;
  ustatus ← tf_reg TF_a0;
  if (0 <? pid') && negb (ustatus =? 0) then
    sp ← this_space;
    r ← on_mem (copyout sp ustatus (kstatus_at e) 4);
    if r <? 0 then mret (- EFAULT) else mret pid'
  else mret pid'.
Definition sys_wait (e : call_env) : M sysst (option Z) :=
  r ← on_ps proc_wait;
  match r with
  | None => mret None
  | Some (pid', status) => v ← sys_wait_ret e pid' status; mret (Some v)
  end.

Definition sys_getpid : M sysst Z := p ← on_ps this_proc; v ← on_ps (get_proc p); mret (pid v).
Definition sys_kill : M sysst Z := a ← tf_reg TF_a0; on_ps (proc_kill (i32 a)).
Definition sys_sbrk : M sysst Z :=
  n ← tf_reg TF_a0;
  p ← on_ps this_proc;
  sp ← this_space;
  '(r, sp') ← on_mem (proc_sbrk sp (i64 n));
  modify (with_space p sp');;
  mret r.

(** * Dispatch *)
Definition returns {S} (m : M S Z) : M S (option Z) := v ← m; mret (Some v).
Definition syscalls (e : call_env) : list (option (M sysst (option Z))) :=
  [None;
   Some (returns (sys_write e));
   Some (sys_exit;; mret None);
   Some (returns (sys_fork e));
   Some (returns (sys_exec e));
   Some (sys_wait e);
   Some (returns sys_getpid);
   Some (returns sys_kill);
   Some (ms ← tf_reg TF_a0; on_ps (sys_sleep ms);; mret None);
   Some (returns sys_sbrk)].

Definition syscall (e : call_env) : M sysst (option Z) :=
  num ← tf_reg TF_a7;
  let num := i32 num in
  if (0 <? num) && (num <? NSYSCALL) then
    match syscalls e !! Z.to_nat num with
    | Some (Some handler) => handler
    | Some None => mret (Some (- ENOSYS))
    | None => undefined
    end
  else mret (Some (- ENOSYS)).
End syscalls.
#[global] Arguments sysst C : clear implicits.
