(* ===== verification/SyscallProof.v ===== *)
(** Proofs on the system calls: registers, [sys_write], the arguments of [sys_exec], the
    status of [sys_wait].

    Every system call keeps the invariants of the components, and a call that returns
    leaves the process running. *)
From stdpp Require Import gmap.
From S2P Require Import ProcInv ProcMoves ProcOps ProcSched ProcLife ProcWait ProcFork ProcExec ProcStep FamilyThm.
From S2P Require Import Prelude Mem Layout Hash Kalloc Buddy KallocInv KallocAlloc KallocSpec KallocThm Kmalloc Proc.
From S2P Require Import Vm VmInv VmWalk VmMap VmThm Vma VmaProof VmaThm UserMem UserCopy UserStr Sbrk SbrkThm Uart Syscall.

(** * Registers *)
Section lift.
Context {C : Type} `{Console C}.
Implicit Types s : sysst C.

(** The process on the hart and its registers. *)
Record on_hart (s : sysst C) (p : Z) (v : proc) : Prop := {
  ru_cpu : cpu_proc (ps s) = p;
  ru_null : p <> Proc.NULL;
  ru_proc : procs (ps s) !! p = Some v;
  ru_tf : trapframe v <> Proc.NULL
}.
Definition reg (s : sysst C) (v : proc) (off : Z) : Z := tf_mem (ps s) (trapframe v) off.

Lemma wp_this {Q : Z -> sysst C -> Prop} s p v : on_hart s p v -> Q p s -> wp (on_ps this_proc) Q s.
Proof using Type.
  intros [] HQ. apply wp_zoom. unfold this_proc. wp_steps. rewrite ru_cpu0, (proj2 (Z.eqb_neq _ _) ru_null0). wp_steps. by destruct s.
Qed.
Lemma wp_cur {Q : proc -> sysst C -> Prop} s p v : on_hart s p v -> Q v s -> wp (on_ps (get_proc p)) Q s.
Proof using Type. intros [] HQ. apply wp_zoom. unfold get_proc. wp_steps. rewrite ru_proc0. wp_steps. by destruct s. Qed.
Lemma wp_tf_reg {Q : Z -> sysst C -> Prop} s p v off : on_hart s p v -> Q (reg s v off) s -> wp (tf_reg off) Q s.
Proof using Type.
  intros Hr HQ. unfold tf_reg. apply wp_bind, (wp_this s p v Hr), wp_bind, (wp_cur s p v Hr), wp_bind, wp_require; [by apply negb_true_iff, Z.eqb_neq, (ru_tf s p v)|]. by wp_steps.
Qed.
Lemma wp_this_space {Q : aspace -> sysst C -> Prop} s p v : on_hart s p v -> Q (spaces s p) s -> wp this_space Q s.
Proof using Type. intros Hr HQ. unfold this_space. apply wp_bind, (wp_this s p v Hr). by wp_steps. Qed.

(** * Steps that only touch memory and the console *)

(** The subsystem and the address spaces are as before; the memory has changed in
    the bytes [R] of the kernel only, as the process sees it; [t] has been sent. *)
Record quiet (p : Z) (R : Z -> Prop) (t : list Z) (s s' : sysst C) : Prop := {
  q_ps : ps s' = ps s;
  q_spaces : spaces s' = spaces s;
  q_mem : transparent (inv:=kalloc_inv) (spaces s p) R (km s) (km s');
  q_ready : con_ready (con s');
  q_sent : con_sent (con s') = con_sent (con s) ++ t
}.
Lemma quiet_on_hart p R t s s' q v : quiet p R t s s' -> on_hart s q v -> on_hart s' q v.
Proof using Type. intros [] []. split; by rewrite ?q_ps0. Qed.
Lemma quiet_trans p R t1 t2 s1 s2 s3 : quiet p R t1 s1 s2 -> quiet p R t2 s2 s3 -> quiet p R (t1 ++ t2) s1 s3.
Proof using Type.
  intros [] []. split; [congruence|congruence| |done|by rewrite q_sent1, q_sent0, app_assoc]. rewrite q_spaces0 in q_mem1. by eapply transparent_trans.
Qed.
Lemma quiet_mono p (R R' : Z -> Prop) t s s' : (forall x, R x -> R' x) -> quiet p R t s s' -> quiet p R' t s s'.
Proof using Type. intros HR []. split; try done. by eapply transparent_mono. Qed.
Lemma quiet_mem p R s m : con_ready (con s) -> transparent (inv:=kalloc_inv) (spaces s p) R (km s) m -> quiet p R [] s (with_km m s).
Proof using Type. intros Hc Ht. split; try done. by rewrite app_nil_r. Qed.

Lemma readable_kept {inv} sp R m m' va : transparent (inv:=inv) sp R m m' -> 0 <= va < MAX_VA -> readable sp m va -> readable sp m' va.
Proof using Type. intros [] Hva (e & He & HU). destruct (tr_valid va e Hva He) as (e' & He' & HU'). exists e'. auto. Qed.

(** Sending the bytes of a kernel buffer. *)
Definition bytes_at (m : mem) (a n : Z) : list Z := (fun i => ld8 m (a + i)) <$> seqZ 0 n.
Lemma bytes_at_lookup m a n i c : bytes_at m a n !! i = Some c -> Z.of_nat i < n /\ c = ld8 m (a + Z.of_nat i).
Proof using Type. intros Hi. unfold bytes_at in Hi. rewrite list_lookup_fmap in Hi. apply fmap_Some in Hi as (x & Hx & ->). apply lookup_seqZ in Hx as [-> Hlt]. split; [lia|done]. Qed.
Lemma bytes_at_length m a n : 0 <= n -> Z.of_nat (length (bytes_at m a n)) = n.
Proof using Type. intros. unfold bytes_at. rewrite length_fmap, length_seqZ. lia. Qed.

Lemma put_range_spec s a n (Q : unit -> sysst C -> Prop) : con_ready (con s) -> free_start (km s) <= a -> a + n <= PHYS_STOP -> 0 <= n ->
  (forall c', con_ready c' -> con_sent c' = con_sent (con s) ++ bytes_at (ram (km s)) a n -> Q tt (with_con c' s)) -> wp (put_range a n) Q s.
Proof using Type.
  intros Hc Hf Hp Hn HQ. unfold put_range.
  apply (wp_for_range (fun i s' => exists c', s' = with_con c' s /\ con_ready c' /\ con_sent c' = con_sent (con s) ++ bytes_at (ram (km s)) a i)).
  - exists (con s). split_and!; [by destruct s|done|by rewrite app_nil_r].
  - intros j s' Hj (c' & -> & Hc' & Hs'). apply wp_bind, wp_zoom. unfold load8. wp_steps. apply wp_require; [apply ram_ok_true; cbn; lia|]. wp_steps. apply wp_zoom.
    eapply wp_mono; [by apply putc_spec|]. cbv beta. intros _ c2 [Hc2 Hs2]. exists c2. split_and!; [done|done|]. rewrite Hs2. cbn [con km with_con with_km]. rewrite Hs', <- app_assoc. f_equal.
    unfold bytes_at. rewrite seqZ_app, fmap_app by lia. f_equal. change (seqZ (0 + j) 1) with [j]. cbn [fmap list_fmap]. rewrite u8_small by apply ld8_range. done.
  - intros s' (c' & -> & Hc' & Hs'). apply HQ; [done|]. rewrite Hs'. do 2 f_equal. lia.
Qed.

(** * Copies *)
Context (p : Z) (a k : Z).
(** The address space of the process is sound and the block at [a] is the kernel's. *)
Record sound (s : sysst C) : Prop := {
  so_space : uspace (inv:=kalloc_inv) (spaces s p) (km s);
  so_kbuf : kbuf (spaces s p) (km s) a k;
  so_con : con_ready (con s)
}.
Lemma quiet_sound R t s s' : quiet p R t s s' -> sound s -> sound s'.
Proof using Type. intros [] []. split; [rewrite q_spaces0; by apply tr_space in q_mem0|rewrite q_spaces0; by eapply kbuf_kept|done]. Qed.
Lemma quiet_view R t s s' va : quiet p R t s s' -> 0 <= va < TRAPFRAME -> uview (spaces s' p) (km s') va = uview (spaces s p) (km s) va.
Proof using Type. intros [] Hva. rewrite q_spaces0. by apply (tr_view _ _ _ _ q_mem0). Qed.
Lemma quiet_readable R t s s' va : quiet p R t s s' -> 0 <= va < MAX_VA -> readable (spaces s p) (km s) va -> readable (spaces s' p) (km s') va.
Proof using Type. intros [] Hva. rewrite q_spaces0. by eapply readable_kept. Qed.
(** Bytes of the kernel block that the step does not own keep their value. *)
Lemma quiet_byte R t s s' x : quiet p R t s s' -> sound s -> covers a k x -> ~ R x -> ld8 (ram (km s')) x = ld8 (ram (km s)) x.
Proof using Type. intros [] [? (Hl & Hnt & _) ?] Hx HR. unfold ld8. f_equal. by apply (tr_contents _ _ _ _ q_mem0 a k). Qed.
Lemma sound_room s : sound s -> free_start (km s) <= a /\ a + bsz k <= PHYS_STOP /\ 0 <= a.
Proof using Type. intros [Hs (Hl & _) _]. exact (block_room _ _ a k Hs Hl). Qed.

Lemma wp_copyin s dst va len (Q : Z -> sysst C -> Prop) : sound s -> a <= dst -> dst + len <= a + bsz k -> 0 <= len -> 0 <= va -> va + len <= MAX_VA ->
  (forall r s', quiet p (fun x => dst <= x < dst + len) [] s s' -> r = 0 \/ r = - EFAULT -> (r = 0 -> 0 < len -> va + len <= TRAPFRAME) ->
     (r = 0 -> forall i, 0 <= i < len -> uview (spaces s p) (km s) (va + i) = Some (ld8 (ram (km s')) (dst + i))) ->
     ((forall i, 0 <= i < len -> readable (spaces s p) (km s) (va + i)) -> r = 0) -> Q r s') ->
  wp (on_mem (copyin (spaces s p) dst va len)) Q s.
Proof using Type.
  intros [Hs Hk Hc] Hd1 Hd2 Hlen Hva Hmax HQ. apply wp_zoom. eapply wp_mono; [apply (copyin_loop_spec (spaces s p) a k (copy_fuel len) dst va len (km s) Hs Hk Hd1 Hd2 Hlen Hva Hmax (fuel_enough va len Hva))|].
  cbv beta. intros r m (Ht & Hr & Hend & Hby & Hall). apply HQ; [by apply quiet_mem|done..].
Qed.

Lemma wp_copyinstr s dst va max (Q : Z -> sysst C -> Prop) : sound s -> a <= dst -> dst + max <= a + bsz k -> 0 <= max -> 0 <= va -> va + max <= MAX_VA ->
  (forall r s', quiet p (fun x => dst <= x < dst + max) [] s s' -> r = 0 \/ r < 0 ->
     (r = 0 -> exists l, ustring (spaces s p) (km s) va l /\ Z.of_nat (length l) < max /\ va + Z.of_nat (length l) < TRAPFRAME /\ KString.cstr (ram (km s')) dst l) -> Q r s') ->
  wp (on_mem (copyinstr (spaces s p) dst va max)) Q s.
Proof using Type.
  intros [Hs Hk Hc] Hd1 Hd2 Hlen Hva Hmax HQ. apply wp_zoom. eapply wp_mono; [apply (copyinstr_loop_spec (spaces s p) a k (copy_fuel max) dst va max (km s) Hs Hk Hd1 Hd2 Hlen Hva Hmax (fuel_enough va max Hva))|].
  cbv beta. intros r m Hsc. apply HQ; [by apply quiet_mem; [|apply Hsc]|destruct (sc_r _ _ _ _ _ _ _ Hsc) as [?|[->| ->]]; [by left|by right..]|].
  intros ->. destruct (copied_string _ _ _ _ _ _ Hsc) as (l & Hl & Hlen' & Hcs). exists l. split_and!; try done.
  destruct (sc_ok _ _ _ _ _ _ _ Hsc eq_refl) as (j & Hj & Hjt & Heq & Hnz & Hz). destruct Hl as [Hl Hl0].
  destruct (decide (Z.of_nat (length l) <= j)) as [|Hgt]; [lia|]. destruct (lookup_lt_is_Some_2 l (Z.to_nat j) ltac:(lia)) as [c Hcj]. destruct (Hl _ _ Hcj) as [Hc0 Hcv].
  rewrite Z2Nat.id, Heq, Hz in Hcv by lia. congruence.
Qed.

(** * [sys_write] *)
Lemma write_loop_spec kb uaddr len n : forall s written, sound s -> a <= kb -> kb + KBUF_LEN <= a + bsz k -> 0 <= written <= len -> 0 <= uaddr -> uaddr + len <= MAX_VA ->
  written mod KBUF_LEN = 0 \/ written = len -> len - written <= KBUF_LEN * Z.of_nat n ->
  wp (write_loop n (spaces s p) kb uaddr len written) (fun r s' => exists t, quiet p (fun x => kb <= x < kb + KBUF_LEN) t s s' /\
    (forall i c, t !! i = Some c -> uaddr + written + Z.of_nat i < TRAPFRAME /\ uview (spaces s p) (km s) (uaddr + written + Z.of_nat i) = Some c) /\
    ((r = len /\ Z.of_nat (length t) = len - written) \/ (r = - EFAULT /\ Z.of_nat (length t) < len - written /\ (written + Z.of_nat (length t)) mod KBUF_LEN = 0)) /\
    ((forall i, written <= i < len -> readable (spaces s p) (km s) (uaddr + i)) -> r = len)) s.
Proof using Type.
  assert (MAX_VA = 2 ^ 38) as Emax by done. assert (KBUF_LEN = 128) as Ekb by done.
  induction n as [|n IH]; intros s written Hs Hb1 Hb2 Hw Hu Hmax Hal Hfuel; cbn [write_loop].
  all: assert (quiet p (fun x => kb <= x < kb + KBUF_LEN) [] s s) as Hq0 by (split; [done|done|apply transparent_refl, Hs|apply Hs|by rewrite app_nil_r]).
  all: assert (len <= written -> exists t, quiet p (fun x => kb <= x < kb + KBUF_LEN) t s s /\ (forall i c, t !! i = Some c -> uaddr + written + Z.of_nat i < TRAPFRAME /\ uview (spaces s p) (km s) (uaddr + written + Z.of_nat i) = Some c) /\
    ((written = len /\ Z.of_nat (length t) = len - written) \/ (written = - EFAULT /\ Z.of_nat (length t) < len - written /\ (written + Z.of_nat (length t)) mod KBUF_LEN = 0)) /\
    ((forall i, written <= i < len -> readable (spaces s p) (km s) (uaddr + i)) -> written = len)) as Hnil by (intros Hz; exists []; split_and!; [done|done|left; cbn; lia|lia]).
  { destruct (Z.ltb_spec written len); [lia|]. wp_steps. by apply Hnil. }
  destruct (Z.ltb_spec written len) as [Hpos|Hz]; [|wp_steps; by apply Hnil]. clear Hnil.
  set (c := if KBUF_LEN <? len - written then KBUF_LEN else len - written). assert (0 < c <= KBUF_LEN /\ c <= len - written /\ (c = KBUF_LEN \/ c = len - written)) as (Hc & Hcl & Hcc) by (unfold c; destruct (Z.ltb_spec KBUF_LEN (len - written)); lia).
  cbv zeta. fold c. rewrite u64_small by lia. destruct (sound_room s Hs) as (Hr1 & Hr2 & _). apply wp_bind, wp_copyin; [done|lia..|]. intros r s1 Hq1 Hr Hend Hby Hall.
  pose proof (quiet_sound _ _ _ _ Hq1 Hs) as Hs1. assert (quiet p (fun x => kb <= x < kb + KBUF_LEN) [] s s1) as Hq1' by (eapply quiet_mono; [|exact Hq1]; cbv beta; intros; lia).
  destruct Hr as [->| ->]; cycle 1.
  { destruct (Z.ltb_spec (- EFAULT) 0) as [_|Hbad]; [|unfold EFAULT in Hbad; lia]. wp_steps. exists []. split_and!; [done|done|right; cbn; split_and!; [done|lia|rewrite Z.add_0_r; lia]|].
    intros Hrd. exfalso. assert (- EFAULT = 0) as Hbad; [|done]. apply Hall. intros i Hi. rewrite <- Z.add_assoc. apply Hrd. lia. }
  destruct (Z.ltb_spec 0 0) as [|_]; [lia|]. specialize (Hend eq_refl ltac:(lia)). specialize (Hby eq_refl). apply wp_bind.
  assert (free_start (km s1) <= kb) as Hr1'. { destruct (sound_room s1 Hs1). lia. }
  apply put_range_spec; [apply Hs1|done|lia|lia|]. intros c' Hc' Hsent. set (t1 := bytes_at (ram (km s1)) kb c) in *.
  assert (quiet p (fun x => kb <= x < kb + KBUF_LEN) t1 s (with_con c' s1)) as Hq2. { destruct Hq1'. split; try done. cbn. rewrite Hsent, q_sent0. by rewrite app_nil_r. }
  pose proof (quiet_sound _ _ _ _ Hq2 Hs) as Hs2. assert (spaces s p = spaces (with_con c' s1) p) as Esp by (cbn; by rewrite (q_spaces _ _ _ _ _ Hq1)). rewrite Esp.
  eapply wp_mono; [apply (IH (with_con c' s1) (written + c)); try done; try lia|].
  { destruct Hcc as [->| ->]; [left; mlia|right; lia]. }
  cbv beta. intros r s3 (t & Hq3 & Hsee & Hrr & Hrd). exists (t1 ++ t). pose proof (bytes_at_length (ram (km s1)) kb c ltac:(lia)) as Hlen1. fold t1 in Hlen1. rewrite <- Esp in *. split_and!.
  - by eapply quiet_trans.
  - intros i x Hi. apply lookup_app_Some in Hi as [Hi|[Hge Hi]].
    + apply bytes_at_lookup in Hi as [Hlt ->]. split; [lia|]. apply Hby. lia.
    + apply Hsee in Hi as [Hlt Hi]. replace (uaddr + (written + c) + Z.of_nat (i - length t1)) with (uaddr + written + Z.of_nat i) in Hi, Hlt by lia.
      split; [done|]. rewrite <- Hi. symmetry. rewrite Esp at 1. apply (quiet_view _ _ _ _ _ Hq2). lia.
  - rewrite length_app. destruct Hrr as [[-> Hl]|(-> & Hl & Hm)]; [left; lia|right; split_and!; [done|lia|]]. rewrite <- Hm. f_equal. lia.
  - intros Hrdb. apply Hrd. intros i Hi. rewrite Esp. apply (quiet_readable _ _ _ _ _ Hq2); [lia|]. apply Hrdb. lia.
Qed.

(** * The arguments of [sys_exec] *)

(** The little-endian number the process sees in [n] bytes at [va]. *)
Fixpoint uword (n : nat) (sp : aspace) (m : kmem) (va : Z) : option Z :=
  match n with
  | O => Some 0
  | S n' => c ← uview sp m va; r ← uword n' sp m (va + 1); Some (c + 2 ^ 8 * r)
  end.
Lemma uword_ld n : forall sp m va m' dst, (forall i, 0 <= i < Z.of_nat n -> uview sp m (va + i) = Some (ld8 m' (dst + i))) -> uword n sp m va = Some (ld n m' dst).
Proof using Type.
  induction n as [|n IH]; intros sp m va m' dst Hv; [done|]. cbn [uword ld]. pose proof (Hv 0 ltac:(lia)) as H0. rewrite !Z.add_0_r in H0. rewrite H0. cbn.
  rewrite (IH sp m (va + 1) m' (dst + 1)); [done|]. intros i Hi. rewrite <- !Z.add_assoc. apply Hv. lia.
Qed.
Lemma uword_ext n : forall sp m m' va, (forall i, 0 <= i < Z.of_nat n -> uview sp m' (va + i) = uview sp m (va + i)) -> uword n sp m' va = uword n sp m va.
Proof using Type.
  induction n as [|n IH]; intros sp m m' va Hv; [done|]. cbn [uword]. pose proof (Hv 0 ltac:(lia)) as H0. rewrite !Z.add_0_r in H0. rewrite H0.
  rewrite (IH sp m m' (va + 1)); [done|]. intros i Hi. rewrite <- !Z.add_assoc. apply Hv. lia.
Qed.

Lemma cstr_kept m m' x l : KString.cstr m x l -> (forall i, 0 <= i <= Z.of_nat (length l) -> ld8 m' (x + i) = ld8 m (x + i)) -> KString.cstr m' x l.
Proof using Type.
  intros [Hl Hz] Hk. split; [|rewrite Hk by lia; done]. intros i c Hi. destruct (Hl i c Hi) as [? <-]. split; [done|]. apply Hk. apply lookup_lt_Some in Hi. lia.
Qed.
Lemma cstr_bytes m x l : KString.cstr m x l -> (fun i => ld8 m (x + i)) <$> seqZ 0 (Z.of_nat (length l)) = l.
Proof using Type.
  intros [Hl _]. apply list_eq. intros i. rewrite list_lookup_fmap. destruct (decide (i < length l)%nat) as [Hlt|Hge].
  - rewrite lookup_seqZ_lt by lia. destruct (lookup_lt_is_Some_2 l i Hlt) as [c Hc]. rewrite Hc. cbn. destruct (Hl i c Hc) as [_ <-]. do 3 f_equal.
  - rewrite lookup_seqZ_ge by lia. cbn. symmetry. apply lookup_ge_None. lia.
Qed.

Lemma kstrlen_spec n x l m (Q : Z -> kmem -> Prop) : KString.cstr (ram m) x l -> Z.of_nat (length l) < n -> free_start m <= x -> x + Z.of_nat (length l) < PHYS_STOP -> Q (Z.of_nat (length l)) m -> wp (kstrlen n x) Q m.
Proof using Type.
  intros Hc Hn Hf Hp HQ. unfold kstrlen. wp_steps. unfold KString.strlen. rewrite (KString.strlen_from_correct (ram m) l); [|by rewrite Z.add_0_r|lia].
  apply wp_bind, wp_require; [apply ram_ok_true; lia|]. by wp_steps.
Qed.
Lemma kstring_spec n x l m (Q : list Z -> kmem -> Prop) : KString.cstr (ram m) x l -> Z.of_nat (length l) < n -> free_start m <= x -> x + Z.of_nat (length l) < PHYS_STOP -> Q l m -> wp (kstring n x) Q m.
Proof using Type. intros Hc Hn Hf Hp HQ. unfold kstring. apply wp_bind, (kstrlen_spec n x l); [done..|]. wp_steps. by rewrite cstr_bytes. Qed.

(** A string in the buffer [lo, hi) of the kernel block. *)
Definition held_str (m : kmem) (lo hi : Z) (x : Z) (l : list Z) : Prop := lo <= x /\ x + Z.of_nat (length l) < hi /\ KString.cstr (ram m) x l.
Lemma held_kept R t s s' lo hi x l : quiet p R t s s' -> sound s -> a <= lo -> hi <= a + bsz k -> (forall y, lo <= y < hi -> ~ R y) -> held_str (km s) lo hi x l -> held_str (km s') lo hi x l.
Proof using Type.
  intros Hq Hs Hlo Hhi HR (H1 & H2 & Hc). split_and!; [done..|]. eapply cstr_kept; [done|]. intros i Hi. apply (quiet_byte _ _ _ _ _ Hq Hs); [unfold covers; lia|]. apply HR. lia.
Qed.

(** Where the buffers lie. *)
Record buffers_ok (e : call_env) : Prop := {
  bo_kbuf : a <= kbuf_at e /\ kbuf_at e + KBUF_LEN <= a + bsz k;
  bo_path : a <= path_at e /\ path_at e + PATH_LEN <= a + bsz k;
  bo_kargv : a <= kargv_at e /\ kargv_at e + KARGV_LEN <= a + bsz k;
  bo_argva : a <= argva_at e /\ argva_at e + 8 <= a + bsz k;
  bo_kstatus : a <= kstatus_at e /\ kstatus_at e + 4 <= a + bsz k;
  bo_apart : (path_at e + PATH_LEN <= kargv_at e \/ kargv_at e + KARGV_LEN <= path_at e) /\
    (path_at e + PATH_LEN <= argva_at e \/ argva_at e + 8 <= path_at e) /\ (argva_at e + 8 <= kargv_at e \/ kargv_at e + KARGV_LEN <= argva_at e)
}.

(** The [i]-th argument, as the process sees it. *)
Definition uarg (sp : aspace) (m : kmem) (uargv i : Z) (str : list Z) : Prop :=
  uargv + i * 8 + 8 <= TRAPFRAME /\ exists ptr, uword 8 sp m (uargv + i * 8) = Some ptr /\ 0 < ptr /\ ptr + Z.of_nat (length str) < TRAPFRAME /\ ustring sp m ptr str.
(** Pointers that reach no address at which walk would panic. *)
Definition uargv_below (sp : aspace) (m : kmem) (uargv : Z) : Prop :=
  0 <= uargv /\ uargv + 8 * ARGV_LEN <= MAX_VA /\ forall i ptr, 0 <= i < ARGV_LEN -> uargv + i * 8 + 8 <= TRAPFRAME -> uword 8 sp m (uargv + i * 8) = Some ptr -> ptr + KARGV_LEN <= MAX_VA.

Definition fetched (e : call_env) (uargv argc off : Z) (argv : list Z) (n : nat) (s : sysst C) (r : Z + list Z) (s' : sysst C) : Prop :=
  match r with
  | inl err => err = - EFAULT
  | inr argv' => exists new strs, argv' = argv ++ new /\ Forall2 (held_str (km s') (kargv_at e + off) (kargv_at e + KARGV_LEN)) new strs /\ (length new <= n)%nat /\
      (forall i str, strs !! i = Some str -> uarg (spaces s p) (km s) uargv (argc + Z.of_nat i) str) /\
      ((length new < n)%nat -> uargv + (argc + Z.of_nat (length new)) * 8 + 8 <= TRAPFRAME /\ uword 8 (spaces s p) (km s) (uargv + (argc + Z.of_nat (length new)) * 8) = Some 0)
  end.

Lemma ustring_view sp m m' va l : (forall i, 0 <= i <= Z.of_nat (length l) -> uview sp m' (va + i) = uview sp m (va + i)) -> ustring sp m' va l -> ustring sp m va l.
Proof using Type.
  intros Hv [Hl Hz]. split; [|rewrite <- Hv by lia; done]. intros i c Hi. destruct (Hl i c Hi) as [? <-]. split; [done|]. symmetry. apply Hv. apply lookup_lt_Some in Hi. lia.
Qed.

Lemma quiet_uword R t s s' va : quiet p R t s s' -> 0 <= va -> va + 8 <= TRAPFRAME -> uword 8 (spaces s' p) (km s') va = uword 8 (spaces s p) (km s) va.
Proof using Type. intros Hq H1 H2. rewrite (q_spaces _ _ _ _ _ Hq). apply uword_ext. intros i Hi. apply (tr_view _ _ _ _ (q_mem _ _ _ _ _ Hq)). lia. Qed.
Lemma quiet_uarg R t s s' uargv i str : quiet p R t s s' -> 0 <= uargv -> 0 <= i -> uarg (spaces s' p) (km s') uargv i str -> uarg (spaces s p) (km s) uargv i str.
Proof using Type.
  intros Hq Hu Hi (Hb & ptr & Hw & Hp & Hlt & Hs). split; [done|]. exists ptr. rewrite (quiet_uword _ _ _ _ _ Hq) in Hw by lia. split_and!; [done..|].
  rewrite (q_spaces _ _ _ _ _ Hq) in Hs. eapply ustring_view; [|exact Hs]. intros j Hj. apply (tr_view _ _ _ _ (q_mem _ _ _ _ _ Hq)). lia.
Qed.
Lemma quiet_below R t s s' uargv : quiet p R t s s' -> uargv_below (spaces s p) (km s) uargv -> uargv_below (spaces s' p) (km s') uargv.
Proof using Type.
  intros Hq (H1 & H2 & H3). split_and!; [done..|]. intros i ptr Hi Hb. rewrite (quiet_uword _ _ _ _ _ Hq) by lia. by apply H3.
Qed.

(** The bytes the loop writes. *)
Definition arg_bytes (e : call_env) (off x : Z) : Prop := argva_at e <= x < argva_at e + 8 \/ kargv_at e + off <= x < kargv_at e + KARGV_LEN.

Lemma fetch_args_spec e uargv n : buffers_ok e -> forall s argc off argv, sound s -> uargv_below (spaces s p) (km s) uargv -> 0 <= off <= KARGV_LEN -> 0 <= argc -> argc + Z.of_nat n <= ARGV_LEN ->
  wp (fetch_args n (spaces s p) e uargv argc off argv) (fun r s' => quiet p (arg_bytes e off) [] s s' /\ fetched e uargv argc off argv n s r s') s.
Proof using Type.
  intros He. destruct He as [_ _ [Hka1 Hka2] [Hav1 Hav2] _ (_ & _ & Hap)]. assert (KARGV_LEN = 512 /\ ARGV_LEN = 16 /\ MAX_VA = 2 ^ 38) as (EK & EA & EM) by done.
  induction n as [|n IH]; intros s argc off argv Hs Hub Hoff Hargc Hn; cbn [fetch_args].
  { wp_steps. split; [split; [done|done|apply transparent_refl, Hs|apply Hs|by rewrite app_nil_r]|]. exists [], []. rewrite app_nil_r. split_and!; [done|constructor|done|done|intros Hx; cbn in Hx; exfalso; lia]. }
  pose proof Hub as (Hu0 & Hu1 & Hu2). rewrite (u64_small (uargv + argc * 8)) by lia. apply wp_bind, wp_copyin; [done|lia..|]. intros r s1 Hq1 Hr Hend Hby _.
  pose proof (quiet_sound _ _ _ _ Hq1 Hs) as Hs1. assert (quiet p (arg_bytes e off) [] s s1) as Hq1' by (eapply quiet_mono; [|exact Hq1]; cbv beta; intros; by left).
  destruct Hr as [->| ->]; [|wp_steps; by split].
  destruct (Z.ltb_spec 0 0) as [|_]; [lia|]. specialize (Hend eq_refl ltac:(lia)). specialize (Hby eq_refl). destruct (sound_room s1 Hs1) as (Hm1 & Hm2 & _).
  apply wp_bind, wp_zoom, wp_load64; [lia..|]. set (ptr := ld64 (ram (km s1)) (argva_at e)).  replace (with_km (km s1) s1) with s1 by (by destruct s1).
  assert (uword 8 (spaces s p) (km s) (uargv + argc * 8) = Some ptr) as Hptr by (apply uword_ld; exact Hby). pose proof (ld64_range (ram (km s1)) (argva_at e)) as Hpr. fold ptr in Hpr.
  destruct (Z.eqb_spec ptr 0) as [E0|E0].
  { wp_steps. split; [done|]. exists [], []. rewrite app_nil_r. split_and!; [done|constructor|cbn; lia|done|]. intros _. cbn [length]. rewrite Z.add_0_r. split; [lia|congruence]. }
  pose proof (Hu2 argc ptr ltac:(lia) Hend Hptr) as Hpmax. assert (spaces s p = spaces s1 p) as Esp by (by rewrite (q_spaces _ _ _ _ _ Hq1)). rewrite Esp.
  cbv zeta. rewrite (u64_small (KARGV_LEN - off)) by lia. apply wp_bind, wp_copyinstr; [done|lia..|]. intros r s2 Hq2 Hr Hstr.
  pose proof (quiet_sound _ _ _ _ Hq2 Hs1) as Hs2. assert (quiet p (arg_bytes e off) [] s s2) as Hq2'. { apply (quiet_trans p _ [] [] s s1 s2); [done|]. eapply quiet_mono; [|exact Hq2]. cbv beta. intros x Hx. right. lia. }
  destruct (Z.ltb_spec r 0) as [|Hr0]; [wp_steps; by split|]. destruct Hr as [->|]; [|lia]. destruct (Hstr eq_refl) as (l & Hl & Hll & Hlt & Hcs).
  destruct (sound_room s2 Hs2) as (Hn1 & Hn2 & _). apply wp_bind, wp_zoom, (kstrlen_spec _ _ l); [done|lia..|]. replace (with_km (km s2) s2) with s2 by (by destruct s2).
  assert (spaces s1 p = spaces s2 p) as Esp2 by (by rewrite (q_spaces _ _ _ _ _ Hq2)). rewrite Esp2. set (off' := off + Z.of_nat (length l) + 1).
  eapply wp_mono; [apply (IH s2 (argc + 1) off' (argv ++ [kargv_at e + off])); [done|by eapply quiet_below|unfold off'; lia..]|]. cbv beta. intros r s3 [Hq3 Hf].
  assert (quiet p (arg_bytes e off) [] s s3) as Hq. { apply (quiet_trans p _ [] [] s s2 s3); [done|]. eapply quiet_mono; [|exact Hq3]. intros x [?|?]; [by left|right; unfold off' in *; lia]. }
  split; [done|]. destruct r as [err|argv']; [done|]. destruct Hf as (new & strs & -> & Hnew & Hlen & Hargs & Hlast). exists (kargv_at e + off :: new), (l :: strs). split_and!.
  - by rewrite <- app_assoc.
  - constructor.
    + destruct (held_kept _ _ _ _ (kargv_at e + off) (kargv_at e + off') (kargv_at e + off) l Hq3 Hs2) as (H1 & H2 & H3); [lia|unfold off'; lia| |split_and!; [lia|unfold off'; lia|done]|split_and!; [done|unfold off' in *; lia|done]].
      intros y Hy [?|?]; unfold off' in *; lia.
    + eapply Forall2_impl; [exact Hnew|]. intros x str (H1 & H2 & H3). split_and!; [unfold off' in H1; lia|done..].
  - cbn. lia.
  - intros [|i] str Hi; cbn in Hi.
    + simplify_eq. rewrite Z.add_0_r. split; [lia|]. exists ptr. split_and!; [done|lia|lia|]. rewrite <- Esp in Hl. eapply ustring_view; [|exact Hl]. intros j Hj. apply (tr_view _ _ _ _ (q_mem _ _ _ _ _ Hq1)). lia.
    + specialize (Hargs i str Hi). replace (argc + Z.of_nat (S i)) with (argc + 1 + Z.of_nat i) by lia. eapply (quiet_uarg _ _ _ _ _ _ _ Hq2'); [done|lia|done].
  - cbn [length]. intros Hlt'. destruct (Hlast ltac:(lia)) as [Hb Hw]. replace (argc + Z.of_nat (S (length new))) with (argc + 1 + Z.of_nat (length new)) by lia. split; [done|]. by rewrite (quiet_uword _ _ _ _ _ Hq2') in Hw by lia.
Qed.

Lemma mapM_kstring lo hi argv strs s : free_start (km s) <= lo -> hi <= PHYS_STOP -> hi - lo <= KARGV_LEN -> Forall2 (held_str (km s) lo hi) argv strs ->
  wp (mapM (fun x => on_mem (kstring KARGV_LEN x)) argv) (fun r s' => r = strs /\ s' = s) s.
Proof using Type.
  intros Hlo Hhi Hsz. induction 1 as [|x l argv strs (H1 & H2 & Hc) _ IH]; [done|]. cbn [mapM]. apply wp_bind, wp_zoom, (kstring_spec _ _ l); [done|lia..|].
  replace (with_km (km s) s) with s by (by destruct s). apply wp_bind. eapply wp_mono; [apply IH|]. cbv beta. intros ? ? [-> ->]. by wp_steps.
Qed.

(** The strings [sys_exec] hands on are those the process sees. *)
Definition exec_fetched (s : sysst C) (upath uargv : Z) (r : Z + list Z * list (list Z)) : Prop :=
  match r with
  | inl err => err = - EFAULT
  | inr (path, args) => ustring (spaces s p) (km s) upath path /\ Z.of_nat (length path) < PATH_LEN /\ Z.of_nat (length args) < ARGV_LEN /\
      (forall i str, args !! i = Some str -> uarg (spaces s p) (km s) uargv (Z.of_nat i) str) /\
      (Z.of_nat (length args) < ARGV_LEN - 1 -> uword 8 (spaces s p) (km s) (uargv + Z.of_nat (length args) * 8) = Some 0)
  end.
Lemma exec_args_spec e s v : on_hart s p v -> sound s -> buffers_ok e -> let upath := reg s v TF_a0 in let uargv := reg s v TF_a1 in
  0 <= upath -> upath + PATH_LEN <= MAX_VA -> uargv_below (spaces s p) (km s) uargv ->
  wp (exec_args e) (fun r s' => quiet p (covers a k) [] s s' /\ exec_fetched s upath uargv r) s.
Proof using Type.
  intros Hr Hs He upath uargv Hu Hmax Hub. pose proof He as [_ [Hpa1 Hpa2] [Hka1 Hka2] [Hav1 Hav2] _ (Hap1 & Hap2 & _)]. assert (KARGV_LEN = 512 /\ PATH_LEN = 64) as [EK EP] by done.
  unfold exec_args. apply wp_bind, (wp_tf_reg s p v); [done|]. apply wp_bind, (wp_tf_reg s p v); [done|]. apply wp_bind, (wp_this_space s p v); [done|]. fold upath uargv.
  apply wp_bind, wp_copyinstr; [done|lia..|]. intros r s1 Hq1 Hrr Hstr. pose proof (quiet_sound _ _ _ _ Hq1 Hs) as Hs1.
  assert (quiet p (covers a k) [] s s1) as Hq1' by (eapply quiet_mono; [|exact Hq1]; unfold covers; intros; lia). destruct (Z.ltb_spec r 0) as [|Hr0]; [wp_steps; by split|].
  destruct Hrr as [->|]; [|lia]. destruct (Hstr eq_refl) as (path & Hpath & Hpl & Hpt & Hpc). assert (spaces s p = spaces s1 p) as Esp by (by rewrite (q_spaces _ _ _ _ _ Hq1)). rewrite Esp.
  apply wp_bind. eapply wp_mono; [apply (fetch_args_spec e uargv _ He s1); [done|by eapply quiet_below|lia|lia|done]|]. cbv beta. intros rf s2 [Hq2 Hf].
  assert (quiet p (covers a k) [] s s2) as Hq2'. { apply (quiet_trans p _ [] [] s s1 s2); [done|]. eapply quiet_mono; [|exact Hq2]. unfold arg_bytes, covers. intros x Hx. lia. }
  destruct rf as [err|argv]; [wp_steps; by split|]. destruct Hf as (new & strs & -> & Hnew & Hlen & Hargs & Hlast). pose proof (quiet_sound _ _ _ _ Hq2' Hs) as Hs2. destruct (sound_room s2 Hs2) as (Hm1 & Hm2 & _).
  assert (held_str (km s2) (path_at e) (path_at e + PATH_LEN) (path_at e) path) as (_ & Hp2 & Hpc2). { apply (held_kept _ _ _ _ _ _ _ _ Hq2 Hs1); [lia|lia| |split_and!; [lia|lia|done]]. unfold arg_bytes. intros y Hy. lia. }
  apply wp_bind, wp_zoom, (kstring_spec _ _ path); [done|lia..|]. replace (with_km (km s2) s2) with s2 by (by destruct s2).
  apply wp_bind. eapply wp_mono; [apply (mapM_kstring (kargv_at e + 0) (kargv_at e + KARGV_LEN) _ strs); [lia..|done]|]. cbv beta. intros ? ? [-> ->]. wp_steps. split; [done|].
  pose proof (Forall2_length _ _ _ Hnew) as Hll. pose proof (proj1 Hub) as Hu0. split_and!.
  - done.
  - done.
  - unfold ARGV_LEN in *. lia.
  - intros i str Hi. specialize (Hargs i str Hi). rewrite Z.add_0_l in Hargs. eapply (quiet_uarg _ _ _ _ _ _ _ Hq1); [done|lia|done].
  - intros Hlt. rewrite <- Hll in *. destruct Hlast as [Hb Hw]; [unfold ARGV_LEN in *; lia|]. rewrite Z.add_0_l in Hb, Hw. by rewrite (quiet_uword _ _ _ _ _ Hq1) in Hw by lia.
Qed.

(** * The status of [sys_wait] *)
Lemma wait_ret_spec e s v pid' status : on_hart s p v -> sound s -> buffers_ok e -> let ustatus := reg s v TF_a0 in 0 <= ustatus -> ustatus + 4 <= MAX_VA ->
  wp (sys_wait_ret e pid' status) (fun r s' => ps s' = ps s /\ spaces s' = spaces s /\ con s' = con s /\ sound s' /\
    (0 < pid' -> ustatus <> 0 -> (r = pid' \/ r = - EFAULT) /\ exists n, 0 <= n <= 4 /\ (r = pid' -> n = 4) /\
      forall va, 0 <= va < TRAPFRAME -> uview (spaces s p) (km s') va = if decide (ustatus <= va < ustatus + n) then Some (u8 (Z.shiftr status (8 * (va - ustatus)))) else uview (spaces s p) (km s) va) /\
    (~ (0 < pid' /\ ustatus <> 0) -> r = pid' /\ forall va, 0 <= va < TRAPFRAME -> uview (spaces s p) (km s') va = uview (spaces s p) (km s) va)) s.
Proof using Type.
  intros Hr Hs He ustatus Hu Hmax. pose proof He as [_ _ _ _ [Hb1 Hb2] _]. destruct (sound_room s Hs) as (Hm1 & Hm2 & _). unfold sys_wait_ret. pose proof Hs as [Hsp Hk Hc].
  set (m1 := if 0 <? pid' then set_ram (st 4 (ram (km s)) (kstatus_at e) status) (km s) else km s).
  assert (transparent (inv:=kalloc_inv) (spaces s p) (fun x => kstatus_at e <= x < kstatus_at e + 4) (km s) m1) as Ht1.
  { unfold m1. destruct (0 <? pid'); [|by apply transparent_refl]. assert (forall x, ~ kstatus_at e <= x < kstatus_at e + 4 -> st 4 (ram (km s)) (kstatus_at e) status x = ram (km s) x) as Hst by (intros x Hx; unfold st; by rewrite in_range_false).
    apply (kwrite_transparent (spaces s p) _ (km s) a k); try done. intros x Hx. apply Hst. unfold covers in Hx. lia. }
  apply wp_bind. apply (wp_mono _ (fun _ s1 => s1 = with_km m1 s)).
  { unfold m1. destruct (0 <? pid'); [|wp_steps; by destruct s]. apply wp_zoom. unfold store32. wp_steps. apply wp_require; [apply ram_ok_true; lia|]. by wp_steps. }
  intros _ ? ->. assert (on_hart (with_km m1 s) p v) as Hr1 by (destruct Hr; by split). apply wp_bind, (wp_tf_reg _ p v); [done|]. change (reg (with_km m1 s) v TF_a0) with ustatus.
  pose proof (tr_space _ _ _ _ Ht1) as Hsp1. pose proof (kbuf_kept _ _ _ _ _ _ Ht1 Hk) as Hk1.
  destruct (Z.ltb_spec 0 pid') as [Hpid|Hpid]; cbn [andb]; [destruct (Z.eqb_spec ustatus 0) as [E0|E0]; cbn [negb]|].
  - wp_steps. split_and!; [done..|split; done|intros _ ?; done|]. intros _. split; [done|]. intros va Hva. by apply (tr_view _ _ _ _ Ht1).
  - apply wp_bind, (wp_this_space _ p v); [done|]. apply wp_bind, wp_zoom. cbn [km with_km spaces].
    eapply wp_mono; [apply (copyout_loop_spec (spaces s p) a k (fun va => u8 (Z.shiftr status (8 * (va - ustatus)))) (copy_fuel 4) ustatus (kstatus_at e) 4 m1 Hsp1 Hk1); [lia..|apply fuel_enough; lia|]|].
    { intros i Hi. unfold m1, ld8, st. ksimpl. rewrite in_range_true by lia. rewrite u8_idem. do 3 f_equal. lia. }
    cbv beta. intros r m2 (Hrr & (j & Hj & Hw & Hj0) & _). assert (sound (with_km m2 (with_km m1 s))) as Hs2 by (split; [apply (wr_space _ _ _ _ _ _ Hw)|by apply (wr_kbuf _ _ _ _ _ _ Hw)|done]).
    assert (forall va, 0 <= va < TRAPFRAME -> uview (spaces s p) m2 va = if decide (ustatus <= va < ustatus + j) then Some (u8 (Z.shiftr status (8 * (va - ustatus)))) else uview (spaces s p) (km s) va) as Hv.
    { intros va Hva. rewrite (wr_view _ _ _ _ _ _ Hw) by done. destruct (decide _); [done|]. by apply (tr_view _ _ _ _ Ht1). }
    destruct Hrr as [->| ->]; [destruct (Z.ltb_spec 0 0) as [|_]; [lia|]|destruct (Z.ltb_spec (- EFAULT) 0) as [_|]; [|unfold EFAULT in *; lia]]; wp_steps; (split_and!; [done..| |intros Hn; by destruct Hn]); intros _ _.
    + split; [by left|]. exists j. split_and!; try done; try lia; intros; by apply Hj0.
    + split; [by right|]. exists j. split_and!; try done; try lia. unfold EFAULT. lia.
  - wp_steps. split_and!; [done..|split; done|intros ?; lia|]. intros _. split; [done|]. intros va Hva. by apply (tr_view _ _ _ _ Ht1).
Qed.
End lift.

(** * All calls keep the invariants *)

(** * Shared parts *)
Section calls.
Context {C : Type} `{Console C}.
Implicit Types s : sysst C.

(** Running an operation of the process subsystem. *)
Lemma wp_op o {A} (m : M kst A) s (Q : A -> sysst C -> Prop) : proc_inv (ps s) -> ~ doomed (ps s) -> enabled o (ps s) -> o <> OSched -> run_op o = discard m \/ (forall x, run_op o x = discard m x) ->
  (forall r t, m (ps s) = Ok (r, t) -> proc_inv t -> Q r (with_ps t s)) -> wp (on_ps m) Q s.
Proof using Type.
  intros HP Hd He Ho Hm HQ. apply wp_zoom. pose proof (run_op_follows o (ps s) Ho HP Hd He) as Hw. assert (run_op o (ps s) = discard m (ps s)) as E by (destruct Hm as [->|Hm]; auto).
  unfold wp in *. rewrite E in Hw. unfold discard, mbind, M_bind in Hw. destruct (m (ps s)) as [[r t]| | |]; try done. apply HQ; [done|]. apply Hw.
Qed.
Lemma discard_unit (m : M kst unit) x : m x = discard m x.
Proof using Type. unfold discard, mbind, M_bind. by destruct (m x) as [[[] t]| | |]. Qed.

(** What the arguments of a call must be for it not to be a hazard reported
    elsewhere (addresses walk refuses, init exiting), and what the allocators
    answer. *)
Record call_ok s p (v : proc) (e : call_env) : Prop := {
  co_regs : forall off, 0 <= reg s v off < 2 ^ 64;
  co_write : i32 (reg s v TF_a7) = SYS_write -> reg s v TF_a2 <= WRITE_MAX -> reg s v TF_a1 + reg s v TF_a2 <= MAX_VA;
  co_exit : i32 (reg s v TF_a7) = SYS_exit -> 1 < pid v;
  co_fork : i32 (reg s v TF_a7) = SYS_fork -> Proc.pagetable v <> Proc.NULL /\ env_fresh (ps s) (on_fork e) /\ next_pid (ps s) < INT_MAX;
  co_exec : i32 (reg s v TF_a7) = SYS_exec -> reg s v TF_a0 + PATH_LEN <= MAX_VA /\ uargv_below (spaces s p) (km s) (reg s v TF_a1) /\
    Proc.pagetable v <> Proc.NULL /\ forall path args, exec_fresh (ps s) (on_exec e path args);
  co_wait : i32 (reg s v TF_a7) = SYS_wait -> reg s v TF_a0 + 4 <= MAX_VA /\ pid v <> 0;
  co_sleep : i32 (reg s v TF_a7) = SYS_sleep -> pid v <> 0;
  co_sbrk : i32 (reg s v TF_a7) = SYS_sbrk -> reg s v TF_a0 <> 2 ^ 63 /\ covered (spaces s p) (km s) /\ exists h l1 l2, heap_layout (spaces s p) h l1 l2
}.

(** Only exec changes the registers of its caller. *)
Definition not_exec s (v : proc) : Prop := i32 (reg s v TF_a7) <> SYS_exec.
(** The process still runs after the call. *)
Definition back (p : Z) (v : proc) s s' : Prop := mode (ps s') = Running /\ exists v', on_hart s' p v' /\ pid v' = pid v /\ trapframe v' = trapframe v /\ (not_exec s v -> forall off, reg s' v off = reg s v off).
(** The same of the process subsystem alone. *)
Definition stays (same : Prop) (p : Z) (v : proc) (t0 t : kst) : Prop := mode t = Running /\ cpu_proc t = p /\
  exists v', procs t !! p = Some v' /\ pid v' = pid v /\ trapframe v' = trapframe v /\ (same -> forall off, tf_mem t (trapframe v) off = tf_mem t0 (trapframe v) off).
Lemma stays_mono (P Q : Prop) p v t0 t : stays P p v t0 t -> (Q -> P) -> stays Q p v t0 t.
Proof using Type. intros (? & ? & v' & ? & ? & ? & Hr) HQ. split_and!; [done|done|]. exists v'. split_and!; [done..|auto]. Qed.
Lemma back_ps p v s s1 t : on_hart s p v -> stays (not_exec s v) p v (ps s) t -> back p v s (with_ps t s1).
Proof using Type. intros [] (Hm & Hc & v' & Hv & Hp & Ht & Hr). split; [done|]. exists v'. split; [|done]. split; [done..|congruence]. Qed.
Lemma back_same p v s s' : on_hart s p v -> mode (ps s) = Running -> ps s' = ps s -> back p v s s'.
Proof using Type. intros [] Hm E. split; [by rewrite E|]. exists v. split; [split; by rewrite ?E|]. unfold reg. by rewrite E. Qed.

(** What every call leaves. *)
Definition call_done (p : Z) s' : Prop := proc_inv (ps s') /\ uspace (inv:=kalloc_inv) (spaces s' p) (km s') /\ con_ready (con s').

Lemma quiet_done p a k R t s s' : quiet p R t s s' -> sound p a k s -> proc_inv (ps s) -> call_done p s'.
Proof using Type. intros Hq Hs HP. destruct (quiet_sound _ _ _ _ _ _ _ Hq Hs) as [? _ ?]. split_and!; [|done..]. by rewrite (q_ps _ _ _ _ _ Hq). Qed.
Lemma done_ps p a k s t : sound p a k s -> proc_inv t -> call_done p (with_ps t s).
Proof using Type. by intros [? _ ?] ?. Qed.

Lemma i64_neg x : 0 <= x < 2 ^ 64 -> x <> 2 ^ 63 -> - 2 ^ 63 < i64 x < 2 ^ 63.
Proof using Type. intros Hx Hn. unfold i64. rewrite Z.mod_small by lia. destruct (Z.ltb_spec x (2 ^ 63)); lia. Qed.
End calls.

(** ** The handlers one by one *)
Section handlers.
Context {C : Type} `{Console C} (s : sysst C) (p a k : Z) (v : proc) (e : call_env).
Context (HP : proc_inv (ps s)) (Hd : ~ doomed (ps s)) (Hm : mode (ps s) = Running) (Hh : on_hart s p v) (Hs : sound p a k s) (He : buffers_ok a k e) (Hc : call_ok s p v e).

Lemma cur_of (f : proc -> Prop) : f v -> cur_is (ps s) f.
Proof using Hh. intros Hf. exists v. split; [|done]. rewrite (ru_cpu _ _ _ Hh). by apply Hh. Qed.

Lemma safe_write : i32 (reg s v TF_a7) = SYS_write -> wp (sys_write e) (fun _ s' => call_done p s' /\ back p v s s') s.
Proof using HP Hm Hh Hs He Hc.
  intros Hn. destruct (co_regs _ _ _ _ Hc TF_a1) as [H1 _]. destruct (co_regs _ _ _ _ Hc TF_a2) as [H2 _]. unfold sys_write. do 3 (apply wp_bind, (wp_tf_reg s p v); [done|]).
  assert (call_done p s /\ back p v s s) as H0 by (split; [split_and!; [done|apply Hs..]|by eapply back_same]).
  destruct (negb _); [by wp_steps|]. destruct (Z.ltb_spec WRITE_MAX (reg s v TF_a2)) as [|Hle]; [by wp_steps|]. apply wp_bind, (wp_this_space s p v); [done|]. destruct He as [[Hb1 Hb2] _ _ _ _ _].
  pose proof (co_write _ _ _ _ Hc Hn Hle) as Hmax. assert (WRITE_MAX = 1024 /\ KBUF_LEN = 128) as [EW EK] by done.
  eapply wp_mono; [apply (write_loop_spec p a k (kbuf_at e) (reg s v TF_a1) (reg s v TF_a2) _ s 0); try done; [by left|change (Z.to_nat (WRITE_MAX / KBUF_LEN)) with 8%nat; lia]|].
  cbv beta. intros r s' (t & Hq & _). split; [by eapply quiet_done|]. apply (back_same p v s); [done|done|apply Hq].
Qed.
Lemma safe_exit : i32 (reg s v TF_a7) = SYS_exit -> wp sys_exit (fun _ s' => call_done p s' /\ mode (ps s') = Switched) s.
Proof using HP Hd Hm Hh Hs Hc.
  intros Hn. unfold sys_exit. apply wp_bind, (wp_tf_reg s p v); [done|]. apply (wp_op (OExit (i32 (reg s v TF_a0)))); [done..| |done|right; apply discard_unit|].
  - split; [done|]. apply cur_of. by apply (co_exit _ _ _ _ Hc).
  - intros r t E HP'. split; [by eapply done_ps|]. pose proof HP as [HI [Hsp _ _]]. pose proof (ru_cpu _ _ _ Hh) as Hcp. assert (on_cpu (ps s) = Some p) as Hoc by (rewrite <- Hcp; by apply on_cpu_running).
    pose proof (proc_exit_spec (ps s) p v HI (running_held (ps s) HP Hm) Hoc Hcp (eq_trans Hsp Hcp) (ru_proc _ _ _ Hh) (co_exit _ _ _ _ Hc Hn) (i32 (reg s v TF_a0))) as Hw. unfold wp in Hw. rewrite E in Hw. apply Hw.
Qed.
Lemma fork_stays (f : fork_env) : Proc.pagetable v <> Proc.NULL -> env_fresh (ps s) f -> next_pid (ps s) < INT_MAX -> wp (proc_fork f) (fun _ t => stays True p v (ps s) t) (ps s).
Proof using HP Hm Hh.
  clear Hs Hc He Hd.
  intros Hpt Hf Hn. pose proof HP as [HI _]. pose proof Hh as [Hcp Hnn Hv Htf]. assert (procs (ps s) !! cpu_proc (ps s) = Some v) as Hv' by (by rewrite Hcp). destruct (old_space (ps s) (cpu_proc (ps s)) v HI Hv' Hpt) as (_ & _ & _ & Htfo).
  assert (trapframe v <> r_tf f) as Htf'. { intros E. by destruct (ef_tf _ _ Hf ltac:(congruence)) as [Hno _]; rewrite <- E in Hno. }
  eapply wp_mono; [apply (proc_fork_spec (ps s) f (cpu_proc (ps s)) v HI (running_held (ps s) HP Hm) eq_refl Hn Hf Hv' Htf' Htf)|].
  intros r t [(_ & _ & n & m & _ & Hm' & ->)|(_ & H1 & _ & _ & _ & _ & ->)].
  - split_and!; [done|done|]. exists v. split_and!; [done..|]. intros _ off. cbn. by rewrite Hm'.
  - split_and!; [done|done|]. exists (set_children (children v ++ [r_obj f]) v). split_and!; [|done|done|intros _ off; cbn; by rewrite !upd_ne by done]. cbn. rewrite Hcp in *. rewrite lookup_insert_ne, lookup_insert_eq; [done|].
    destruct (unused_of (ps s) (r_obj f) HI H1 (ef_obj _ _ Hf H1)). congruence.
Qed.
Lemma safe_fork : i32 (reg s v TF_a7) = SYS_fork -> wp (sys_fork e) (fun _ s' => call_done p s' /\ back p v s s') s.
Proof using HP Hd Hm Hh Hs Hc.
  intros Hn. unfold sys_fork. destruct (co_fork _ _ _ _ Hc Hn) as (H1 & H2 & H3). apply (wp_op (OFork (on_fork e))); [done..| |done|by left|].
  - split; [done|]. split_and!; [by apply cur_of|done..].
  - intros r t E HP'. split; [by eapply done_ps|]. apply back_ps; [done|]. pose proof (fork_stays _ H1 H2 H3) as Hw. unfold wp in Hw. rewrite E in Hw. by eapply stays_mono.
Qed.
Lemma exec_stays (x : exec_env) : Proc.pagetable v <> Proc.NULL -> exec_fresh (ps s) x -> wp (proc_exec x) (fun _ t => stays False p v (ps s) t) (ps s).
Proof using HP Hm Hh.
  clear Hs Hc He Hd.
  intros Hpt Hf. pose proof HP as [HI _]. pose proof Hh as [Hcp Hnn Hv Htf]. assert (procs (ps s) !! cpu_proc (ps s) = Some v) as Hv' by (by rewrite Hcp). destruct (exec_ok_dec v x) as [Hok|Hno].
  - apply (exec_success_spec (ps s) x (cpu_proc (ps s)) v HI eq_refl Hv' Hf); [done|]. intros t [E1 _ _ Es]. rewrite Hcp in E1. split_and!; [by rewrite Es|by rewrite Es|]. eexists. rewrite E1, lookup_insert_eq. split_and!; [done|done| |done].
    cbn. unfold exec_tf. by rewrite (proj2 (Z.eqb_neq _ _) Htf).
  - apply (exec_failure_spec (ps s) x (cpu_proc (ps s)) v HI eq_refl Hv' Hf); [done|done|]. intros r _. split_and!; [done|done|]. exists v. by split_and!.
Qed.
Lemma safe_exec : i32 (reg s v TF_a7) = SYS_exec -> wp (sys_exec e) (fun _ s' => call_done p s' /\ back p v s s') s.
Proof using HP Hd Hm Hh Hs He Hc.
  intros Hn. destruct (co_exec _ _ _ _ Hc Hn) as (H1 & H2 & H3 & H4). destruct (co_regs _ _ _ _ Hc TF_a0) as [H0 _]. unfold sys_exec. apply wp_bind.
  eapply wp_mono; [by apply (exec_args_spec p a k e s v)|]. cbv beta. intros r s1 [Hq _]. destruct r as [err|[path args]]; [wp_steps; split; [by eapply quiet_done|]; apply (back_same p v s); [done|done|apply Hq]|].
  pose proof (quiet_sound _ _ _ _ _ _ _ Hq Hs) as Hs1. pose proof (q_ps _ _ _ _ _ Hq) as Eps. apply (wp_op (OExec (on_exec e path args))); rewrite ?Eps; [done..| |done|by left|].
  - split; [done|]. split; [|done]. by apply cur_of.
  - intros r t E HP'. split; [by eapply done_ps|]. apply back_ps; [done|]. pose proof (exec_stays _ H3 (H4 path args)) as Hw. unfold wp in Hw. rewrite E in Hw. eapply stays_mono; [exact Hw|by intros []].
Qed.
(** The process and its registers after it has waited. *)
Lemma wait_hart r t : pstate v = PROC_RUNNING -> wait_outcome (sie (ps s)) p v (set_held [WaitLock] (set_sie false (ps s))) (Some r) t ->
  exists v', on_hart (with_ps t s) p v' /\ (forall off, reg (with_ps t s) v' off = reg s v off) /\ pid v' = pid v /\ trapframe v' = trapframe v /\ mode t = mode (ps s).
Proof using Hh.
  clear Hs Hc He HP Hd Hm. intros Hr Ho. destruct Hh as [H1 H2 H3 H4]. inversion Ho; subst; [by exists v|].
  assert (procs (freed c vc (set_held [WaitLock] (set_sie false (ps s)))) !! cpu_proc (ps s) = Some (set_children (without c (children v)) v)) as Hv.
  { cbn. rewrite lookup_delete_ne; [unfold unlinked; by rewrite lookup_fmap, H3|]. intros ->. match goal with H : procs _ !! _ = Some vc |- _ => cbn in H; rewrite H3 in H; simplify_eq end. congruence. }
  exists (set_children (without c (children v)) v). split; [by split|done].
Qed.

Lemma wait_switched irq q u (t t' : kst) : wait_outcome irq q u t None t' -> mode t' = Switched.
Proof using Type. clear. intros Ho. inversion Ho as [| |s0 _ _ _ Hx|]; [|done]. by destruct Hx as (v1 & s2 & _ & _ & _ & ->). Qed.

Lemma sys_wait_spec : pid v <> 0 -> 0 <= reg s v TF_a0 -> reg s v TF_a0 + 4 <= MAX_VA ->
  wp (sys_wait e) (fun (r : option Z) s' => call_done p s' /\ match r with Some _ => back p v s s' | None => mode (ps s') = Switched end /\ exists r0 t, wait_outcome (sie (ps s)) p v (set_held [WaitLock] (set_sie false (ps s))) r0 t /\ ps s' = t /\
    match r0 with
    | None => r = None
    | Some (pid', status) => exists x, r = Some x /\
        (0 < pid' -> reg s v TF_a0 <> 0 -> (x = pid' \/ x = - EFAULT) /\ exists n, 0 <= n <= 4 /\ (x = pid' -> n = 4) /\
          forall va, 0 <= va < TRAPFRAME -> uview (spaces s' p) (km s') va = if decide (reg s v TF_a0 <= va < reg s v TF_a0 + n) then Some (u8 (Z.shiftr status (8 * (va - reg s v TF_a0)))) else uview (spaces s p) (km s) va) /\
        (~ (0 < pid' /\ reg s v TF_a0 <> 0) -> x = pid' /\ forall va, 0 <= va < TRAPFRAME -> uview (spaces s' p) (km s') va = uview (spaces s p) (km s) va)
    end) s.
Proof using HP Hd Hm Hh Hs He.
  intros Hp0 Hu Hmax. unfold sys_wait. apply wp_bind, wp_zoom. pose proof (ru_cpu _ _ _ Hh) as Hcp. destruct (cur_facts (ps s) HP ltac:(by rewrite Hm)) as (v' & Hv' & Hrun & _).
  rewrite Hcp, (ru_proc _ _ _ Hh) in Hv'. injection Hv' as <-.
  destruct (proc_wait_spec (ps s) v HP Hm) as (r0 & t & E & Ho & HP'); [by rewrite Hcp; apply Hh|done|intros Hk; apply (killed_above (ps s) v Hd); [by rewrite Hcp; apply Hh|done]|].
  rewrite Hcp in Ho. unfold wp at 1. rewrite E. destruct r0 as [[pid' status]|]; [|wp_steps; split_and!; [by eapply done_ps|by eapply wait_switched|]; by exists None, t].
  destruct (wait_hart (pid', status) t Hrun Ho) as (v' & Hh' & Er & Epid & Etf & Emode). assert (sound p a k (with_ps t s)) as Hs' by (destruct Hs; by split).
  apply wp_bind. eapply wp_mono; [apply (wait_ret_spec p a k e (with_ps t s) v'); rewrite ?Er; done|]. cbv beta. rewrite Er. intros x s' (H1 & H2 & H3 & H4 & H5 & H6). wp_steps.
  split_and!; [split_and!; [by rewrite H1|apply H4..]| |].
  { split; [rewrite H1; cbn; congruence|]. exists v'. split_and!; [destruct Hh' as [A1 A2 A3 A4]; split; rewrite ?H1; done|done|done|]. intros _ off. rewrite <- Er. unfold reg. by rewrite H1, Etf. }
  exists (Some (pid', status)), t. split_and!; [done|by rewrite H1|]. exists x. rewrite H2. cbn [spaces with_ps] in *. by split_and!.
Qed.
Lemma safe_wait : i32 (reg s v TF_a7) = SYS_wait -> wp (sys_wait e) (fun (r : option Z) s' => call_done p s' /\ match r with Some _ => back p v s s' | None => mode (ps s') = Switched end) s.
Proof using HP Hd Hm Hh Hs He Hc.
  intros Hn. destruct (co_wait _ _ _ _ Hc Hn) as [H1 H2]. destruct (co_regs _ _ _ _ Hc TF_a0) as [H0 _]. eapply wp_mono; [by apply sys_wait_spec|]. by intros r s' (? & ? & _).
Qed.
Lemma kill_stays n : wp (proc_kill n) (fun _ t => stays True p v (ps s) t) (ps s).
Proof using HP Hm Hh.
  clear Hs Hc He Hd.
  pose proof HP as [HI _]. pose proof Hh as [Hcp Hnn Hv Htf]. assert (stays True p v (ps s) (ps s)) as H0 by (split_and!; [done|done|]; exists v; by split_and!).
  unfold proc_kill. wp_steps. apply pid_lookup_spec; [done| |intros _; by wp_steps]. intros q u Hq _ Hqn. destruct (Z.eqb_spec q Proc.NULL) as [|_]; [done|]. apply (kill_found_spec (ps s) q u); [done|by apply running_held|done|].
  assert (forall w, (procs w !! p = procs (ps s) !! p \/ exists u', procs w !! p = Some u' /\ p = q /\ trapframe u' = trapframe u /\ pid u' = pid u) -> cpu_proc w = cpu_proc (ps s) -> mode w = mode (ps s) -> tf_mem w = tf_mem (ps s) -> stays True p v (ps s) w) as Hgo.
  { intros w Hw Ec Em Et. split_and!; [congruence|congruence|]. rewrite Et. destruct Hw as [->|(u' & -> & -> & E1 & E2)]; [exists v; by split_and!|]. exists u'. rewrite Hv in Hq. simplify_eq. by split_and!. }
  unfold after_kill. case_bool_decide; (apply Hgo; [|done..]); cbn; rewrite ?insert_insert_eq; destruct (decide (p = q)) as [->|Hne]; rewrite ?lookup_insert_eq, ?lookup_insert_ne by done; [right; eexists; by split_and!|by left|right; eexists; by split_and!|by left].
Qed.
Lemma safe_kill : wp sys_kill (fun _ s' => call_done p s' /\ back p v s s') s.
Proof using HP Hd Hm Hh Hs.
  unfold sys_kill. apply wp_bind, (wp_tf_reg s p v); [done|]. apply (wp_op (OKill (i32 (reg s v TF_a0)))); [done..|by split|done|by left|].
  intros r t E HP'. split; [by eapply done_ps|]. apply back_ps; [done|]. pose proof (kill_stays (i32 (reg s v TF_a0))) as Hw. unfold wp in Hw. rewrite E in Hw. by eapply stays_mono.
Qed.
Lemma safe_sleep : i32 (reg s v TF_a7) = SYS_sleep -> wp (ms ← tf_reg TF_a0; on_ps (sys_sleep ms)) (fun _ s' => call_done p s' /\ mode (ps s') = Switched) s.
Proof using HP Hd Hm Hh Hs Hc.
  intros Hn. apply wp_bind, (wp_tf_reg s p v); [done|]. apply (wp_op (OSleep (reg s v TF_a0))); [done..| |done|right; apply discard_unit|].
  - split; [done|]. apply cur_of. by apply (co_sleep _ _ _ _ Hc).
  - intros r t E HP'. split; [by eapply done_ps|]. pose proof HP as [HI _]. pose proof (ru_cpu _ _ _ Hh) as Hcp. assert (on_cpu (ps s) = Some p) as Hoc by (rewrite <- Hcp; by apply on_cpu_running).
    pose proof (sys_sleep_spec (ps s) p v (reg s v TF_a0) (fun _ t => mode t = Switched) HI (running_held (ps s) HP Hm) Hoc Hcp (ru_proc _ _ _ Hh) eq_refl) as Hw. unfold wp in Hw. by rewrite E in Hw.
Qed.
Lemma safe_sbrk : i32 (reg s v TF_a7) = SYS_sbrk -> wp sys_sbrk (fun _ s' => call_done p s' /\ back p v s s') s.
Proof using HP Hm Hh Hs Hc.
  intros Hn. destruct (co_sbrk _ _ _ _ Hc Hn) as (H1 & H2 & h & l1 & l2 & H3). unfold sys_sbrk. apply wp_bind, (wp_tf_reg s p v); [done|]. apply wp_bind, (wp_this s p v); [done|]. apply wp_bind, (wp_this_space s p v); [done|].
  destruct (sbrk_spec (spaces s p) (i64 (reg s v TF_a0)) (km s) h l1 l2 (so_space _ _ _ _ Hs) H2 H3) as (r & sp' & m' & E & Hus & _); [apply i64_neg; [apply Hc|done]|].
  apply wp_bind, wp_zoom. unfold wp at 1. rewrite E. wp_steps. split; [split_and!; [done| |apply Hs]; cbn; by rewrite upd_eq|by eapply back_same].
Qed.

(** What the dispatcher leaves: the invariants; the process still runs when there is
    a result. *)
Definition call_post (r : option Z) (s' : sysst C) : Prop := call_done p s' /\ match r with Some _ => back p v s s' | None => mode (ps s') = Switched end /\
  (~ 1 <= i32 (reg s v TF_a7) <= 9 -> r = Some (- ENOSYS) /\ s' = s) /\ (i32 (reg s v TF_a7) = SYS_getpid -> r = Some (pid v) /\ s' = s).

Lemma returns_spec h : wp h (fun _ s' => call_done p s' /\ back p v s s') s -> wp (returns h) (fun (r : option Z) s' => call_done p s' /\ match r with Some _ => back p v s s' | None => mode (ps s') = Switched end) s.
Proof using Type. clear. intros Hw. unfold returns. apply wp_bind. eapply wp_mono; [exact Hw|]. intros x s' [Hx Hb]. by wp_steps. Qed.
Lemma switches_spec (h : M (sysst C) unit) : wp h (fun _ s' => call_done p s' /\ mode (ps s') = Switched) s -> wp (h;; mret None) (fun (r : option Z) s' => call_done p s' /\ match r with Some _ => back p v s s' | None => mode (ps s') = Switched end) s.
Proof using Type. clear. intros Hw. apply wp_bind. eapply wp_mono; [exact Hw|]. intros [] s' Hx. by wp_steps. Qed.

Lemma syscall_spec : wp (syscall e) call_post s.
Proof using HP Hd Hm Hh Hs He Hc.
  unfold call_post, syscall. set (num := i32 (reg s v TF_a7)). assert (call_done p s) as H0 by (split_and!; [done|apply Hs..]). assert (back p v s s) as Hb by (by eapply back_same).
  apply wp_bind, (wp_tf_reg s p v); [done|]. cbv zeta. fold num. destruct ((0 <? num) && (num <? NSYSCALL)) eqn:Er; unfold NSYSCALL in Er; cycle 1.
  { wp_steps. split_and!; [done|done|done|intros En; rewrite En in Er; done]. }
  assert (1 <= num <= 9) as Hr by lia.
  assert (forall h : M (sysst C) (option Z), num <> SYS_getpid -> wp h (fun (r : option Z) s' => call_done p s' /\ match r with Some _ => back p v s s' | None => mode (ps s') = Switched end) s -> wp h call_post s) as Hgo.
  { intros h Hng Hwh. eapply wp_mono; [exact Hwh|]. intros r s' [Hcd Hbk]. split_and!; [done|done|intros Hn; by destruct Hn|intros En; by destruct Hng]. }
  assert (num = 1 \/ num = 2 \/ num = 3 \/ num = 4 \/ num = 5 \/ num = 6 \/ num = 7 \/ num = 8 \/ num = 9) as [En|[En|[En|[En|[En|[En|[En|[En|En]]]]]]]] by lia;
    (let n := match type of En with _ = ?c => eval vm_compute in (Z.to_nat c) end in assert (Z.to_nat num = n) as -> by (by rewrite En)); cbn [syscalls lookup list_lookup].
  - apply Hgo; [by rewrite En|]. by apply returns_spec, safe_write.
  - apply Hgo; [by rewrite En|]. by apply switches_spec, safe_exit.
  - apply Hgo; [by rewrite En|]. by apply returns_spec, safe_fork.
  - apply Hgo; [by rewrite En|]. by apply returns_spec, safe_exec.
  - apply Hgo; [by rewrite En|]. by apply safe_wait.
  - unfold returns, sys_getpid. apply wp_bind, wp_bind, (wp_this s p v); [done|]. apply wp_bind, (wp_cur s p v); [done|]. wp_steps. by split_and!.
  - apply Hgo; [by rewrite En|]. by apply returns_spec, safe_kill.
  - apply Hgo; [by rewrite En|]. pose proof (switches_spec _ (safe_sleep En)) as Hw. unfold wp, mbind, M_bind in Hw |- *. destruct (tf_reg TF_a0 s) as [[ms s1]| | |]; [|done..]. by destruct (on_ps (sys_sleep ms) s1) as [[? ?]| | |].
  - apply Hgo; [by rewrite En|]. by apply returns_spec, safe_sbrk.
Qed.
End handlers.
