(* ===== verification/SyscallThm.v ===== *)
(** Theorems on the system calls. *)
From stdpp Require Import gmap.
From S2P Require Import Prelude Mem Layout Hash Kalloc Buddy KallocInv KallocAlloc KallocSpec KallocThm Kmalloc Proc ProcInv ProcMoves ProcOps ProcSched ProcLife ProcWait ProcFork ProcExec ProcStep ProcThm FamilyThm ConsoleThm.
From S2P Require Import Vm VmInv VmWalk VmMap VmThm Vma VmaProof VmaThm UserMem UserCopy UserStr Sbrk SbrkThm Uart Syscall SyscallProof.

(** The bytes sent by write come from the process, in order. *)
Definition seen_at (sp : aspace) (m : kmem) (va : Z) (t : list Z) : Prop := forall i c, t !! i = Some c -> uview sp m (va + Z.of_nat i) = Some c.





(** * Witnesses: a process of the example runs with the demonstration address space *)
Definition demo_env : call_env := mk_env demo_block (demo_block + 128) (demo_block + 256) (demo_block + 768) (demo_block + 776) fork1 (fun _ _ => exec1).
Lemma demo_buffers : buffers_ok demo_block 1 demo_env.
Proof. split; cbn; unfold KBUF_LEN, PATH_LEN, KARGV_LEN; change (bsz 1) with 8192; lia. Qed.

Lemma demo_call (g : kst) (r : Z -> Z) : proc_inv g -> ~ doomed g -> mode g = Running -> (exists v, procs g !! cpu_proc g = Some v /\ trapframe v <> Proc.NULL) ->
  exists (s : sysst sim_uart) v, on_hart s (cpu_proc g) v /\ procs g !! cpu_proc g = Some v /\ sound (cpu_proc g) demo_block 1 s /\ spaces s (cpu_proc g) = demo_as /\ km s = pt_demo /\ con s = sim0 /\
    (forall off, reg s v off = r off) /\ proc_inv (ps s) /\ ~ doomed (ps s) /\ mode (ps s) = Running /\ procs (ps s) = procs g.
Proof.
  intros HP Hd Hm (v & Hv & Htf). exists (mk_sysst (set_tf_mem (fun _ => r) g) pt_demo (fun _ => demo_as) sim0), v. destruct demo_space as [Hs Hk]. destruct HP as [HI [H1 H2 H3]].
  split_and!; try done; [|split; [eapply core_frame; [exact HI|done..]|by split]]. split; [done| |done..]. apply H2. by rewrite Hm.
Qed.

Definition write_regs (off : Z) : Z := if off =? TF_a1 then 0x1ffe else if off =? TF_a2 then 4 else 1.
Lemma demo_write : exists (s : sysst sim_uart) p v, on_hart s p v /\ sound p demo_block 1 s /\ forall off, reg s v off = write_regs off.
Proof.
  destruct (demo_call s_child write_regs (proj2 s_child_run)) as (s & v & H1 & _ & H2 & _ & _ & _ & H3 & _); [apply doomedb_spec; vm_compute; reflexivity|vm_compute; reflexivity|cur_tac; by vm_compute|].
  by exists s, (cpu_proc s_child), v.
Qed.

(** The demonstration process has touched no page, so it sees zeroes. *)
Lemma demo_zero va c : 0 <= va < TRAPFRAME -> uview demo_as pt_demo va = Some c -> c = 0.
Proof.
  intros Hva Hc. destruct pt_demo_facts as (_ & _ & _ & Hno). unfold uview in Hc. change (pagetable demo_as) with pt_root in Hc. rewrite (Hno va Hva) in Hc. clear - Hc. destruct (vma_find demo_as va); [apply Some_inj in Hc; by rewrite <- Hc|exfalso; exact (None_ne_Some _ Hc)].
Qed.
Lemma demo_words n : forall va x, 0 <= va -> va + Z.of_nat n <= TRAPFRAME -> uword n demo_as pt_demo va = Some x -> x = 0.
Proof.
  induction n as [|n IH]; intros va x Hva Hmax Hx; cbn [uword] in Hx; [apply Some_inj in Hx; by rewrite <- Hx|]. pose proof (demo_zero va) as Hz. specialize (IH (va + 1)). clear - Hva Hmax Hx Hz IH.
  destruct (uview demo_as pt_demo va) as [c|]; [|exfalso; exact (None_ne_Some _ Hx)]. destruct (uword n demo_as pt_demo (va + 1)) as [y|]; [|exfalso; exact (None_ne_Some _ Hx)].
  change (Some (c + 2 ^ 8 * y) = Some x) in Hx. apply Some_inj in Hx. rewrite <- Hx, (Hz c ltac:(lia) eq_refl), (IH y ltac:(lia) ltac:(lia) eq_refl). done.
Qed.
Definition exec_regs (off : Z) : Z := if off =? TF_a0 then 0x1ffe else 0x2000.
Lemma demo_exec : exists (s : sysst sim_uart) p v, on_hart s p v /\ sound p demo_block 1 s /\ (forall off, reg s v off = exec_regs off) /\ uargv_below (spaces s p) (km s) (exec_regs TF_a1).
Proof.
  destruct (demo_call s_child exec_regs (proj2 s_child_run)) as (s & v & H1 & _ & H2 & E1 & E2 & _ & H3 & _); [apply doomedb_spec; vm_compute; reflexivity|vm_compute; reflexivity|cur_tac; by vm_compute|].
  exists s, (cpu_proc s_child), v. split_and!; [done..|]. rewrite E1, E2. split_and!; [done|done|]. intros i ptr Hi Hb Hw. apply demo_words in Hw as ->; [done|change (exec_regs TF_a1) with 0x2000; lia|change (Z.of_nat 8) with 8; lia].
Qed.

(** init, in the state after PID 2 has exited, waits for it. *)
Definition wait_regs (off : Z) : Z := 0x1ffe.
Lemma demo_wait : exists (s : sysst sim_uart) p v vc, proc_inv (ps s) /\ ~ doomed (ps s) /\ mode (ps s) = Running /\ on_hart s p v /\ sound p demo_block 1 s /\ (forall off, reg s v off = wait_regs off) /\
  pid v <> 0 /\ children v = [32768] /\ procs (ps s) !! 32768 = Some vc /\ pstate vc = PROC_ZOMBIE /\ pid vc = 2 /\ exit_status vc = 7.
Proof.
  destruct (demo_call s_zombie wait_regs (proj2 s_zombie_run)) as (s & v & H1 & Hv & H2 & _ & _ & _ & H3 & H4 & H5 & H6 & H7); [apply doomedb_spec; vm_compute; reflexivity|vm_compute; reflexivity|cur_tac; by vm_compute|].
  destruct (procs s_zombie !! 32768) as [vc|] eqn:Hvc; [|vm_compute in Hvc; discriminate]. exists s, (cpu_proc s_zombie), v, vc. rewrite H7.
  assert (pid v <> 0 /\ children v = [32768]) as [A1 A2] by (clear - Hv; vm_compute in Hv; injection Hv as <-; split; [discriminate|reflexivity]).
  assert (pstate vc = PROC_ZOMBIE /\ pid vc = 2 /\ exit_status vc = 7) as A3 by (clear - Hvc; vm_compute in Hvc; injection Hvc as <-; split_and!; reflexivity).
  exact (conj H4 (conj H5 (conj H6 (conj H1 (conj H2 (conj H3 (conj A1 (conj A2 (conj Hvc A3))))))))).
Qed.

Definition call_regs (off : Z) : Z := SYS_getpid.
Lemma demo_getpid : exists (s : sysst sim_uart) p v, proc_inv (ps s) /\ ~ doomed (ps s) /\ mode (ps s) = Running /\ on_hart s p v /\ sound p demo_block 1 s /\ call_ok s p v demo_env /\ i32 (reg s v TF_a7) = SYS_getpid /\ pid v = 2.
Proof.
  destruct (demo_call s_child call_regs (proj2 s_child_run)) as (s & v & H1 & Hv & H2 & _ & _ & _ & H3 & H4 & H5 & H6 & H7); [apply doomedb_spec; vm_compute; reflexivity|vm_compute; reflexivity|cur_tac; by vm_compute|].
  assert (pid v = 2) as A1 by (clear - Hv; vm_compute in Hv; injection Hv as <-; reflexivity). exists s, (cpu_proc s_child), v.
  assert (call_ok s (cpu_proc s_child) v demo_env) as A2 by (clear - H3; split; intros *; rewrite ?H3; [by vm_compute|intros Hn; vm_compute in Hn; discriminate..]).
  assert (i32 (reg s v TF_a7) = SYS_getpid) as A3 by (clear - H3; by rewrite H3). exact (conj H4 (conj H5 (conj H6 (conj H1 (conj H2 (conj A2 (conj A3 A1))))))).
Qed.
