(* ===== verification/Plic.v ===== *)
(** [kernel/drivers/plic.c]: the interrupt controller.

    The controller is a parameter ([PlicPort]); what the driver relies on is its
    documented behaviour ([PlicDevice]): a source has a priority, a context has a
    bitmap of enabled sources and a threshold, reading the claim register takes the
    most urgent source that is pending, enabled and above the threshold, and
    writing it back completes the handling.  [sim_plic] is a controller with this
    behaviour. *)
From S2P Require Import Prelude Layout.

Definition VIRTIO0_IRQ : Z := 1.
Definition UART0_IRQ : Z := 10.
Definition S_CONTEXT : Z := 1.
Definition PLIC_PRIORITY (irq : Z) : Z := PLIC_BASE + 4 * irq.
Definition PLIC_ENABLE (ctx : Z) : Z := PLIC_BASE + 0x2000 + ctx * 0x80.
Definition PLIC_THRESHOLD (ctx : Z) : Z := PLIC_BASE + 0x200000 + ctx * 0x1000.
Definition PLIC_CLAIM (ctx : Z) : Z := PLIC_BASE + 0x200004 + ctx * 0x1000.

(** * The controller *)
Class PlicPort (P : Type) := {
  plic_rd : Z -> P -> Z * P;
  plic_wr : Z -> Z -> P -> P
}.

(** Priorities by source; enabled sources and threshold by context; the sources that
    are pending and those claimed and not completed. *)
Record plic_regs := mk_plic { g_prio : Z -> Z; g_enable : Z -> Z; g_thresh : Z -> Z; g_pending : list Z; g_serving : list Z }.
Definition g_set_prio v r := mk_plic v (g_enable r) (g_thresh r) (g_pending r) (g_serving r).
Definition g_set_enable v r := mk_plic (g_prio r) v (g_thresh r) (g_pending r) (g_serving r).
Definition g_set_thresh v r := mk_plic (g_prio r) (g_enable r) v (g_pending r) (g_serving r).
Definition g_set_irqs v w r := mk_plic (g_prio r) (g_enable r) (g_thresh r) v w.
(** The number of sources and contexts the addresses are those of; the first word of
    the bitmap has the sources below 32. *)
Definition NUM_SOURCES : Z := 32.
Definition NUM_CONTEXTS : Z := 2.

Definition deliverable (ctx : Z) (r : plic_regs) (irq : Z) : bool :=
  bool_decide (irq ∈ g_pending r) && Z.testbit (g_enable r ctx) irq && (g_thresh r ctx <? g_prio r irq).
Definition without_irq (irq : Z) (l : list Z) : list Z := filter (fun x => x <> irq) l.

Class PlicDevice (P : Type) `{PlicPort P} := {
  pregs : P -> plic_regs;
  sources d irq : irq ∈ g_pending (pregs d) -> 1 <= irq < NUM_SOURCES;
  wr_prio d irq v : 1 <= irq < NUM_SOURCES -> pregs (plic_wr (PLIC_BASE + 4 * irq) v d) = g_set_prio (upd (g_prio (pregs d)) irq v) (pregs d);
  wr_enable d ctx v : 0 <= ctx < NUM_CONTEXTS -> pregs (plic_wr (PLIC_BASE + 0x2000 + ctx * 0x80) v d) = g_set_enable (upd (g_enable (pregs d)) ctx v) (pregs d);
  wr_thresh d ctx v : 0 <= ctx < NUM_CONTEXTS -> pregs (plic_wr (PLIC_BASE + 0x200000 + ctx * 0x1000) v d) = g_set_thresh (upd (g_thresh (pregs d)) ctx v) (pregs d);
  rd_claim d ctx : 0 <= ctx < NUM_CONTEXTS -> let '(irq, d') := plic_rd (PLIC_BASE + 0x200004 + ctx * 0x1000) d in
    (irq = 0 /\ pregs d' = pregs d /\ forall i, deliverable ctx (pregs d) i = false) \/
    (deliverable ctx (pregs d) irq = true /\ (forall i, deliverable ctx (pregs d) i = true -> g_prio (pregs d) i <= g_prio (pregs d) irq) /\
     pregs d' = g_set_irqs (without_irq irq (g_pending (pregs d))) (irq :: g_serving (pregs d)) (pregs d));
  wr_complete d ctx irq : 0 <= ctx < NUM_CONTEXTS -> irq ∈ g_serving (pregs d) ->
    pregs (plic_wr (PLIC_BASE + 0x200004 + ctx * 0x1000) irq d) = g_set_irqs (g_pending (pregs d)) (without_irq irq (g_serving (pregs d))) (pregs d)
}.

(** * The driver *)
Section driver.
Context {P : Type} `{PlicPort P}.

Definition plic_write (addr val : Z) : M P unit := modify (plic_wr addr (u32 val)).
Definition plic_read (addr : Z) : M P Z := fun d => let '(v, d') := plic_rd addr d in Ok (u32 v, d').

(** The writes of plic_init to the controller; it then sets SIE_SEIE. *)
Definition plic_setup : M P unit :=
  plic_write (PLIC_PRIORITY VIRTIO0_IRQ) 1;;
  plic_write (PLIC_ENABLE S_CONTEXT) (Z.shiftl 1 VIRTIO0_IRQ);;
  plic_write (PLIC_THRESHOLD S_CONTEXT) 0.
Definition plic_claim : M P Z := v ← plic_read (PLIC_CLAIM S_CONTEXT); mret (i32 v).
Definition plic_complete (irq : Z) : M P unit := plic_write (PLIC_CLAIM S_CONTEXT) irq.
End driver.

(** * What the driver achieves *)
Section driver_spec.
Context {P : Type} `{PlicDevice P}.

(** The state after [plic_init]: the virtio source is the only one delivered. *)
Definition plic_ready (d : P) : Prop :=
  g_prio (pregs d) VIRTIO0_IRQ = 1 /\ g_enable (pregs d) S_CONTEXT = 2 /\ g_thresh (pregs d) S_CONTEXT = 0.

Lemma plic_setup_spec d : wp plic_setup (fun _ d' => plic_ready d' /\ g_pending (pregs d') = g_pending (pregs d) /\ g_serving (pregs d') = g_serving (pregs d)) d.
Proof.
  unfold plic_setup, plic_write, PLIC_PRIORITY, PLIC_ENABLE, PLIC_THRESHOLD. wp_steps. unfold plic_ready.
  rewrite wr_thresh, wr_enable, wr_prio by done. by split_and!.
Qed.

Lemma ready_deliverable d irq : plic_ready d -> deliverable S_CONTEXT (pregs d) irq = bool_decide (irq = VIRTIO0_IRQ /\ VIRTIO0_IRQ ∈ g_pending (pregs d)).
Proof.
  intros (Hp & He & Ht). unfold VIRTIO0_IRQ in *. unfold deliverable. rewrite He, Ht. case_bool_decide as Hin; cbn [andb]; [|rewrite bool_decide_false by naive_solver; done].
  pose proof (sources d irq Hin) as Hr. unfold NUM_SOURCES in Hr. change 2 with (2 ^ 1). rewrite Z.pow2_bits_eqb by lia. destruct (Z.eqb_spec 1 irq) as [<-|Hne].
  - rewrite Hp. by rewrite bool_decide_true.
  - rewrite bool_decide_false; [done|]. intros [? _]. lia.
Qed.

Lemma plic_claim_spec d : plic_ready d -> wp plic_claim (fun irq d' => plic_ready d' /\
  (VIRTIO0_IRQ ∉ g_pending (pregs d) -> irq = 0 /\ pregs d' = pregs d) /\
  (VIRTIO0_IRQ ∈ g_pending (pregs d) -> irq = VIRTIO0_IRQ /\ g_pending (pregs d') = without_irq VIRTIO0_IRQ (g_pending (pregs d)) /\ g_serving (pregs d') = VIRTIO0_IRQ :: g_serving (pregs d))) d.
Proof.
  intros Hr. unfold plic_claim, plic_read, PLIC_CLAIM. apply wp_bind. unfold wp at 1. pose proof (rd_claim d S_CONTEXT ltac:(done)) as Hc. destruct (plic_rd (PLIC_BASE + 0x200004 + S_CONTEXT * 0x1000) d) as [irq d'].
  destruct Hc as [(-> & Hd & Hno)|(Hdel & _ & Hd)]; wp_steps.
  - split; [unfold plic_ready; by rewrite Hd|]. split; [done|]. intros Hin. specialize (Hno VIRTIO0_IRQ). rewrite ready_deliverable in Hno by done. by rewrite bool_decide_true in Hno.
  - rewrite ready_deliverable in Hdel by done. apply bool_decide_eq_true in Hdel as [-> Hin]. split; [unfold plic_ready; by rewrite Hd|]. split; [done|]. intros _. by rewrite Hd.
Qed.

Lemma plic_complete_spec d irq : 0 <= irq < 2 ^ 32 -> irq ∈ g_serving (pregs d) -> wp (plic_complete irq) (fun _ d' => pregs d' = g_set_irqs (g_pending (pregs d)) (without_irq irq (g_serving (pregs d))) (pregs d)) d.
Proof. intros Hi Hin. unfold plic_complete, plic_write, PLIC_CLAIM. wp_steps. unfold u32. rewrite Z.mod_small by done. by apply wr_complete. Qed.
End driver_spec.

(** * A controller with this behaviour *)
Record sim_plic := mk_sim_plic { sim_plic_regs : plic_regs }.
(** The most urgent source of a list. *)
Fixpoint most_urgent (prio : Z -> Z) (l : list Z) : Z :=
  match l with
  | [] => 0
  | i :: l' => let j := most_urgent prio l' in if bool_decide (l' = []) || (prio j <? prio i) then i else j
  end.
Definition sim_pending (r : plic_regs) : list Z := filter (fun i => 1 <= i < NUM_SOURCES) (g_pending r).
Definition sim_claim (ctx : Z) (r : plic_regs) : Z * plic_regs :=
  match filter (fun i => deliverable ctx r i = true) (g_pending r) with
  | [] => (0, r)
  | l => let irq := most_urgent (g_prio r) l in (irq, g_set_irqs (without_irq irq (g_pending r)) (irq :: g_serving r) r)
  end.
Definition clean (r : plic_regs) : plic_regs := g_set_irqs (sim_pending r) (g_serving r) r.
Definition sim_plic_rd (a : Z) (d : sim_plic) : Z * sim_plic :=
  let r := clean (sim_plic_regs d) in
  if a =? PLIC_CLAIM 0 then let '(i, r') := sim_claim 0 r in (i, mk_sim_plic r')
  else if a =? PLIC_CLAIM 1 then let '(i, r') := sim_claim 1 r in (i, mk_sim_plic r')
  else (0, d).
Definition sim_plic_wr (a v : Z) (d : sim_plic) : sim_plic :=
  let r := clean (sim_plic_regs d) in
  let off := a - PLIC_BASE in
  mk_sim_plic (
    if (off <? 4 * NUM_SOURCES) && (off mod 4 =? 0) then g_set_prio (upd (g_prio r) (off / 4) v) r
    else if off =? 0x2000 then g_set_enable (upd (g_enable r) 0 v) r
    else if off =? 0x2080 then g_set_enable (upd (g_enable r) 1 v) r
    else if off =? 0x200000 then g_set_thresh (upd (g_thresh r) 0 v) r
    else if off =? 0x201000 then g_set_thresh (upd (g_thresh r) 1 v) r
    else if (off =? 0x200004) || (off =? 0x201004) then g_set_irqs (g_pending r) (without_irq v (g_serving r)) r
    else r).

Lemma filter_all {A} (P : A -> Prop) `{!forall x, Decision (P x)} l : Forall P l -> filter P l = l.
Proof. induction 1 as [|x l Hx _ IH]; [done|]. rewrite filter_cons_True by done. by rewrite IH. Qed.
Lemma clean_idem r : clean (clean r) = clean r.
Proof. unfold clean, sim_pending, g_set_irqs. cbn. by rewrite list_filter_filter_l. Qed.
Lemma most_urgent_in prio l : l <> [] -> most_urgent prio l ∈ l /\ forall i, i ∈ l -> prio i <= prio (most_urgent prio l).
Proof.
  induction l as [|i l IH]; [done|]. intros _. cbn [most_urgent]. destruct (decide (l = [])) as [->|Hl].
  - cbn. split; [by left|]. intros j Hj. apply list_elem_of_singleton in Hj as ->. done.
  - rewrite (bool_decide_false (l = [])) by done. cbn [orb]. destruct (IH Hl) as [Hin Hmax]. destruct (Z.ltb_spec (prio (most_urgent prio l)) (prio i)).
    + split; [by left|]. intros j [->|Hj]%elem_of_cons; [done|]. specialize (Hmax j Hj). lia.
    + split; [by right|]. intros j [->|Hj]%elem_of_cons; [done|]. by apply Hmax.
Qed.

#[export] Instance sim_plic_port : PlicPort sim_plic := {| plic_rd := sim_plic_rd; plic_wr := sim_plic_wr |}.
(** Every register of the model keeps the list of pending sources in range. *)
Lemma clean_pending r i : i ∈ g_pending (clean r) -> 1 <= i < NUM_SOURCES.
Proof. cbn. unfold sim_pending. by intros [? _]%list_elem_of_filter. Qed.
Lemma clean_same r r' : g_pending r' = g_pending (clean r) -> clean r' = r'.
Proof. intros E. unfold clean, sim_pending, g_set_irqs in *. cbn in E. destruct r' as [a b c d f]. cbn in *. subst d. by rewrite list_filter_filter_l. Qed.
Lemma sim_claim_spec ctx r : let '(irq, r') := sim_claim ctx (clean r) in
  (irq = 0 /\ clean r' = clean r /\ forall i, deliverable ctx (clean r) i = false) \/
  (deliverable ctx (clean r) irq = true /\ (forall i, deliverable ctx (clean r) i = true -> g_prio (clean r) i <= g_prio (clean r) irq) /\
   clean r' = g_set_irqs (without_irq irq (g_pending (clean r))) (irq :: g_serving (clean r)) (clean r)).
Proof.
  unfold sim_claim. destruct (filter (fun i => deliverable ctx (clean r) i = true) (g_pending (clean r))) as [|x l] eqn:E.
  - left. split_and!; [done|apply clean_idem|]. intros i. apply not_true_iff_false. intros Hi. apply (not_elem_of_nil i). rewrite <- E. apply list_elem_of_filter. split; [done|]. unfold deliverable in Hi. apply andb_true_iff in Hi as [Hi _]. apply andb_true_iff in Hi as [Hi _]. by apply bool_decide_eq_true in Hi.
  - right. destruct (most_urgent_in (g_prio (clean r)) (x :: l)) as [Hin Hmax]; [done|]. rewrite <- E in Hin, Hmax. rewrite <- E. set (irq := most_urgent _ _) in *. apply list_elem_of_filter in Hin as [Hd Hp]. split_and!; [done| |].
    + intros i Hi. apply Hmax. apply list_elem_of_filter. split; [done|]. unfold deliverable in Hi. apply andb_true_iff in Hi as [Hi _]. apply andb_true_iff in Hi as [Hi _]. by apply bool_decide_eq_true in Hi.
    + unfold clean at 1, g_set_irqs. cbn [g_prio g_enable g_thresh g_pending g_serving]. f_equal. unfold sim_pending. cbn [g_pending]. apply filter_all.
      unfold without_irq. apply Forall_forall. intros i [_ Hi]%list_elem_of_filter. by apply (clean_pending r).
Qed.

#[export] Program Instance sim_plic_device : PlicDevice sim_plic := {| pregs d := clean (sim_plic_regs d) |}.
Next Obligation. intros d irq. apply clean_pending. Qed.
Next Obligation.
  intros d irq v Hi. cbn [sim_plic_port plic_wr sim_plic_wr sim_plic_regs]. replace (PLIC_BASE + 4 * irq - PLIC_BASE) with (irq * 4) by lia. unfold NUM_SOURCES in *.
  rewrite Z.mod_mul, Z.div_mul by lia. destruct (Z.ltb_spec (irq * 4) (4 * 32)); [|lia]. cbn [andb Z.eqb]. by apply (clean_same (sim_plic_regs d)).
Qed.
Next Obligation. intros d ctx v Hc. unfold NUM_CONTEXTS in Hc. assert (ctx = 0 \/ ctx = 1) as [-> | ->] by lia; by apply (clean_same (sim_plic_regs d)). Qed.
Next Obligation. intros d ctx v Hc. unfold NUM_CONTEXTS in Hc. assert (ctx = 0 \/ ctx = 1) as [-> | ->] by lia; by apply (clean_same (sim_plic_regs d)). Qed.
Next Obligation.
  intros d ctx Hc. unfold NUM_CONTEXTS in Hc. pose proof (sim_claim_spec ctx (sim_plic_regs d)) as Hs.
  assert (plic_rd (PLIC_BASE + 0x200004 + ctx * 0x1000) d = let '(i, r') := sim_claim ctx (clean (sim_plic_regs d)) in (i, mk_sim_plic r')) as -> by (assert (ctx = 0 \/ ctx = 1) as [-> | ->] by lia; reflexivity).
  destruct (sim_claim ctx (clean (sim_plic_regs d))) as [irq r']. exact Hs.
Qed.
Next Obligation. intros d ctx irq Hc _. unfold NUM_CONTEXTS in Hc. assert (ctx = 0 \/ ctx = 1) as [-> | ->] by lia; by apply (clean_same (sim_plic_regs d)). Qed.
