(* ===== verification/Trap.v ===== *)
(** [kernel/trap.c]: the trap dispatcher, over the state of all components.

    The control registers are a record; the interrupt-enable bit of sstatus is the
    flag [sie] of the process subsystem, so that reading and writing sstatus goes
    through both.  The console, the interrupt controller and the block driver are
    components beside the system-call state.  What assembly does (saving the
    registers, the jump of user_ret) is in Asm: here [user_trap_ret] returns the
    address it jumps to with its two arguments, or [None] when the process has
    switched to the scheduler; when it is resumed, [enter_user] is what is left.
    The addresses of the assembly routines are parameters. *)
From stdpp Require Import gmap.
From S2P Require Import Prelude Mem Layout Hash Kalloc Kmalloc Proc Vm Vma Sbrk Uart Kprintf Syscall Virtio Plic.

Definition SSTATUS_SPP : Z := Z.shiftl 1 8.
Definition SSTATUS_SPIE : Z := Z.shiftl 1 5.
Definition SSTATUS_SIE : Z := Z.shiftl 1 1.
Definition SIE_SEIE : Z := Z.shiftl 1 9.
Definition SCAUSE_INTERRUPT : Z := Z.shiftl 1 63.
Definition IRQ_S_TIMER : Z := 5.
Definition IRQ_S_EXT : Z := 9.
Definition EXC_INST_MISALIGN : Z := 0.
Definition EXC_INST_ACCESS : Z := 1.
Definition EXC_ILLEGAL_INST : Z := 2.
Definition EXC_BREAKPOINT : Z := 3.
Definition EXC_LOAD_MISALIGN : Z := 4.
Definition EXC_LOAD_ACCESS : Z := 5.
Definition EXC_STORE_MISALIGN : Z := 6.
Definition EXC_STORE_ACCESS : Z := 7.
Definition EXC_ECALL_U : Z := 8.
Definition EXC_ECALL_S : Z := 9.
Definition EXC_INST_PAGE : Z := 12.
Definition SATP_SV39 : Z := Z.shiftl 8 60.
Definition MAKE_SATP (root_pt : Z) : Z := Z.lor SATP_SV39 (Z.shiftr root_pt 12).

(** * Exception names *)
Definition exc_names : list (option string) :=
  [Some "instruction address misaligned"; Some "instruction access fault"; Some "illegal instruction"; Some "breakpoint";
   Some "load address misaligned"; Some "load access fault"; Some "store/AMO address misaligned"; Some "store/AMO access fault";
   Some "ecall from U-mode"; Some "ecall from S-mode"; None; Some "ecall from M-mode";
   Some "instruction page fault"; Some "load page fault"; None; Some "store/AMO page fault"]%string.
Definition NUM_EXC : Z := 16.
Definition exc_name (scause : Z) : string :=
  if scause <? NUM_EXC then match exc_names !! Z.to_nat scause with Some (Some n) => n | _ => "unknown exception"%string end
  else "unknown exception"%string.

Record csrs := mk_csrs { sepc : Z; scause : Z; stval : Z; sstatus : Z; stvec : Z; sie_reg : Z }.
(** Addresses of the assembly routines. *)
Record vectors := mk_vectors { kernel_vec : Z; user_vec : Z; user_ret : Z }.

Section traps.
Context {C : Type} `{Console C} {P : Type} `{PlicPort P}.

Record mach := mk_mach { sys : sysst C; plic : P; blk : disk; csr : csrs }.
Definition with_sys (v : sysst C) (m : mach) : mach := mk_mach v (plic m) (blk m) (csr m).
Definition with_plic (v : P) (m : mach) : mach := mk_mach (sys m) v (blk m) (csr m).
Definition with_blk (v : disk) (m : mach) : mach := mk_mach (sys m) (plic m) v (csr m).
Definition with_csr (v : csrs) (m : mach) : mach := mk_mach (sys m) (plic m) (blk m) v.
Definition on_sys {A} : M (sysst C) A -> M mach A := zoom sys with_sys.
Definition on_plic {A} : M P A -> M mach A := zoom plic with_plic.
Definition on_blk {A} : M disk A -> M mach A := zoom blk with_blk.
Definition on_proc {A} (m : M kst A) : M mach A := on_sys (on_ps m).

(** * Control registers *)
Definition csrw_sepc (v : Z) : M mach unit := modify (fun m => let r := csr m in with_csr (mk_csrs v (scause r) (stval r) (sstatus r) (stvec r) (sie_reg r)) m).
Definition csrw_stvec (v : Z) : M mach unit := modify (fun m => let r := csr m in with_csr (mk_csrs (sepc r) (scause r) (stval r) (sstatus r) v (sie_reg r)) m).
Definition csrw_sie (v : Z) : M mach unit := modify (fun m => let r := csr m in with_csr (mk_csrs (sepc r) (scause r) (stval r) (sstatus r) (stvec r) v) m).
Definition sstatus_of (m : mach) : Z :=
  Z.lor (Z.land (sstatus (csr m)) (Z.lnot SSTATUS_SIE)) (if sie (ps (sys m)) then SSTATUS_SIE else 0).
Definition csrr_sstatus : M mach Z := gets sstatus_of.
Definition csrw_sstatus (v : Z) : M mach unit :=
  modify (fun m => let r := csr m in with_csr (mk_csrs (sepc r) (scause r) (stval r) v (stvec r) (sie_reg r)) m);;
  on_proc (modify (set_sie (negb (Z.land v SSTATUS_SIE =? 0)))).
Definition intr_on : M mach unit := v ← csrr_sstatus; csrw_sstatus (Z.lor v SSTATUS_SIE).
Definition intr_off : M mach unit := v ← csrr_sstatus; csrw_sstatus (Z.land v (Z.lnot SSTATUS_SIE)).

Definition plic_init : M mach unit := on_plic plic_setup;; v ← gets (fun m => sie_reg (csr m)); csrw_sie (Z.lor v SIE_SEIE).

(** [kprintf] of a line. *)
Definition message (fmt : string) (ap : list va) : M mach unit := on_sys (on_con (kprintf (chars fmt ++ [10]) ap)).
Definition halt {A} (fmt : string) (ap : list va) : M mach A := on_sys (on_con (kpanic fmt ap)).

(** * Device interrupts

    [isr] is what the block device has in its interrupt status register. *)
Definition external_interrupt (isr : Z) : M mach unit :=
  irq ← on_plic plic_claim;
  if irq =? 0 then mret tt else
  (if irq =? VIRTIO0_IRQ then on_blk (virtio_blk_intr isr)
   else message "external_interrupt: unexpected irq=%d" [VInt irq]);;
  on_plic (plic_complete irq).

(** * Traps from the kernel

    The instruction at the saved PC is read before the cause is looked at: outside DRAM
    this is another fault, or a read of a device. *)
Definition kernel_trap (isr : Z) : M mach unit :=
  r ← gets csr;
  let sepc_val := sepc r in
  let scause_val := scause r in
  sstatus_val ← csrr_sstatus;
  let code := Z.land scause_val 0xff in
  if Z.land sstatus_val SSTATUS_SPP =? 0 then halt "kernel_trap: not from S-mode (sepc=%p scause=%p)" [VPtr sepc_val; VPtr scause_val] else
  if negb (Z.land sstatus_val SSTATUS_SIE =? 0) then halt "kernel_trap: interrupts enabled during trap" [] else
  if negb (Z.land scause_val SCAUSE_INTERRUPT =? 0) then
    if code =? IRQ_S_TIMER then on_proc timer_interrupt
    else if code =? IRQ_S_EXT then external_interrupt isr
    else halt "kernel_trap: unexpected interrupt code=%d" [VInt code]
  else
    let name := exc_name scause_val in
    require ((KERN_BASE <=? sepc_val) && (sepc_val + 2 <=? PHYS_STOP));;
    inst ← gets (fun m => ld 2 (ram (km (sys m))) sepc_val);
    let inst_len := if Z.land inst 0x3 =? 0x3 then 4 else 2 in
    if code =? EXC_BREAKPOINT then
      message "kernel_trap: %s at %p" [VStr (Some (chars name)); VPtr sepc_val];;
      csrw_sepc (u64 (sepc_val + inst_len))
    else halt "kernel_trap: %s  scause=%p sepc=%p stval=%p" [VStr (Some (chars name)); VPtr scause_val; VPtr sepc_val; VPtr (stval r)].

(** What it has saved when it yields, to be written back when it is resumed. *)
Definition kernel_trap_ret : M mach (option (Z * Z)) :=
  c ← on_proc (gets cpu_proc);
  k ← on_proc (if c =? Proc.NULL then mret false else v ← get_proc c; mret (killed v));
  if (k : bool) then on_proc (proc_exit (-1));; mret None else
  n ← on_proc (gets need_resched);
  if (n : bool) && negb (c =? Proc.NULL) then
    on_proc (modify (set_need_resched false));;
    sepc_saved ← gets (fun m => sepc (csr m));
    sstatus_saved ← csrr_sstatus;
    on_proc yield;;
    mret (Some (sepc_saved, sstatus_saved))
  else mret None.
Definition kernel_trap_resume (saved : Z * Z) : M mach unit := csrw_sepc saved.1;; csrw_sstatus saved.2.

(** * Traps from user mode *)

(** [p->trapframe->... = v] *)
Definition set_tf (p off v : Z) : M mach unit :=
  u ← on_proc (get_proc p);
  require (negb (trapframe u =? Proc.NULL));;
  on_proc (modify (fun s => set_tf_mem (upd (tf_mem s) (trapframe u) (upd (tf_mem s (trapframe u)) off v)) s)).
Definition get_tf (p off : Z) : M mach Z :=
  u ← on_proc (get_proc p);
  require (negb (trapframe u =? Proc.NULL));;
  on_proc (gets (fun s => tf_mem s (trapframe u) off)).

(** Phase 2 of user_trap_ret. *)
Definition enter_user (vs : vectors) (p : Z) : M mach (Z * Z * Z) :=
  intr_off;;
  csrw_stvec TRAMPOLINE;;
  set_tf p TF_hartid 0;;
  v ← csrr_sstatus;
  csrw_sstatus (Z.lor (Z.land v (Z.lnot SSTATUS_SPP)) SSTATUS_SPIE);;
  epc ← get_tf p TF_epc;
  csrw_sepc epc;;
  u ← on_proc (get_proc p);
  mret (u64 (TRAMPOLINE + u64 (user_ret vs - user_vec vs)), TRAPFRAME, MAKE_SATP (Proc.pagetable u)).

Definition user_trap_ret (vs : vectors) : M mach (option (Z * Z * Z)) :=
  p ← on_proc (gets cpu_proc);
  u ← on_proc (get_proc p);
  if killed u then on_proc (proc_exit (-1));; mret None else
  n ← on_proc (gets need_resched);
  if (n : bool) then on_proc (modify (set_need_resched false));; on_proc yield;; mret None else
  r ← enter_user vs p; mret (Some r).

(** The dispatch of user_trap; [false] when the process has switched away inside a
    system call. *)
Definition user_dispatch (vs : vectors) (e : call_env) (isr : Z) : M mach bool :=
  csrw_stvec (kernel_vec vs);;
  r ← gets csr;
  let scause_val := scause r in
  let stval_val := stval r in
  sstatus_val ← csrr_sstatus;
  let code := Z.land scause_val 0xff in
  p ← on_proc this_proc;
  set_tf p TF_epc (sepc r);;
  if negb (Z.land sstatus_val SSTATUS_SPP =? 0) then halt "user_trap: not from U-mode" [] else
  if negb (Z.land sstatus_val SSTATUS_SIE =? 0) then halt "user_trap: interrupts enabled during trap" [] else
  if negb (Z.land scause_val SCAUSE_INTERRUPT =? 0) then
    if code =? IRQ_S_TIMER then on_proc (modify (set_timer (2 ^ 64 - 1));; wake_expired_sleepers;; modify (set_need_resched true));; mret true
    else if code =? IRQ_S_EXT then external_interrupt isr;; mret true
    else message "user_trap: unexpected interrupt code=%d" [VInt code];; on_proc (upd_proc p (set_killed true));; mret true
  else if code =? EXC_ECALL_U then
    epc ← get_tf p TF_epc;
    set_tf p TF_epc (u64 (epc + 4));;
    intr_on;;
    a ← on_sys (syscall e);
    match a with
    | Some v => set_tf p TF_a0 (u64 v);; mret true
    | None => mret false
    end
  else if (code =? EXC_LOAD_PAGE) || (code =? EXC_STORE_PAGE) then
    f ← on_sys (sp ← gets (fun s => spaces s p); on_mem (handle_page_fault sp code stval_val));
    (if f <? 0 then on_proc (upd_proc p (set_killed true)) else mret tt);; mret true
  else
    epc ← get_tf p TF_epc;
    u ← on_proc (get_proc p);
    message "user_trap: %s pid=%d scause=%p sepc=%p stval=%p" [VStr (Some (chars (exc_name scause_val))); VInt (pid u); VPtr scause_val; VPtr epc; VPtr stval_val];;
    on_proc (upd_proc p (set_killed true));; mret true.
Definition user_trap (vs : vectors) (e : call_env) (isr : Z) : M mach (option (Z * Z * Z)) :=
  ok ← user_dispatch vs e isr;
  if (ok : bool) then user_trap_ret vs else mret None.
End traps.
#[global] Arguments mach C P : clear implicits.
