(* ===== verification/TrapProof.v ===== *)
(** Proofs on the trap dispatcher: control registers, messages, device interrupts, the
    way back to user mode.

    What [user_trap] does for each cause of a trap. *)
From stdpp Require Import gmap.
From S2P Require Import Prelude Mem Layout Hash Kalloc Buddy KallocInv KallocAlloc KallocSpec KallocThm Kmalloc Proc ProcInv ProcMoves ProcOps ProcSched ProcLife ProcWait ProcFork ProcExec.
From S2P Require Import ProcStep Vm VmInv VmWalk VmMap VmThm Vma VmaProof VmaThm UserMem UserCopy UserStr Sbrk Uart Kprintf ConsoleThm Syscall SyscallProof Virtio VirtioInv.
From S2P Require Import Plic Trap.

(** * Names and messages *)
Lemma exc_name_text c : text (chars (exc_name c)).
Proof.
  assert (Forall (fun o => match o with Some n => text (chars n) | None => True end) exc_names) as Hall by (repeat constructor).
  unfold exc_name. destruct (c <? NUM_EXC); [|by repeat constructor]. destruct (exc_names !! Z.to_nat c) as [[n|]|] eqn:E; [|by repeat constructor..]. by apply (Forall_lookup_1 _ _ _ _ Hall E).
Qed.

Section machine.
Context {C : Type} `{Console C} {P : Type} `{PlicDevice P}.
Implicit Types m : mach C P.

Lemma wp_on_proc {A} (c : M kst A) (Q : A -> mach C P -> Prop) m : wp c (fun a t => Q a (with_sys (with_ps t (sys m)) m)) (ps (sys m)) -> wp (on_proc c) Q m.
Proof using Type. intros Hw. by apply wp_zoom, wp_zoom. Qed.
(** The console has sent [t] more. *)
Definition printed (t : list Z) m m' : Prop := exists c, m' = with_sys (with_con c (sys m)) m /\ con_ready c /\ con_sent c = con_sent (con (sys m)) ++ t.

Lemma message_spec fmt ap m (Q : unit -> mach C P -> Prop) : con_ready (con (sys m)) -> text (chars fmt ++ [10]) -> Forall va_ok ap -> fmt_typed (chars fmt ++ [10]) ap = true ->
  (forall t m', printed t m m' -> renders (chars fmt ++ [10]) ap t -> Q tt m') -> wp (message fmt ap) Q m.
Proof using Type.
  intros Hc Ht Ha Hty HQ. unfold message. apply wp_zoom, wp_zoom. pose proof (vprintfmt_spec (S := C) _ _ ap (le_n _) Ht Ha) as Hv. rewrite Hty in Hv. destruct Hv as (t & Hs & Hr).
  eapply wp_mono; [by apply Hs|]. cbv beta. intros [] c (_ & Hc' & He). apply (HQ t); [by exists c|done].
Qed.
Lemma halt_panics {A} fmt ap m : con_ready (con (sys m)) -> text (chars fmt) -> Forall va_ok ap -> fmt_typed (chars fmt) ap = true -> (halt fmt ap : M (mach C P) A) m = Panic fmt.
Proof using Type.
  intros Hc Ht Ha Hty. unfold halt, on_sys, on_con, zoom, kpanic. pose proof (vprintfmt_spec (S := C) _ _ ap (le_n _) Ht Ha) as Hv. rewrite Hty in Hv. destruct Hv as (t & Hs & _).
  destruct (wp_elim _ _ _ (panic_text_sends _ ap t Hs (con (sys m)) Hc)) as ([] & s' & E & _). unfold mbind, M_bind. by rewrite E.
Qed.

(** * Control registers *)
Definition put_status (x : Z) m : mach C P :=
  let r := csr m in
  with_sys (with_ps (set_sie (negb (Z.land x SSTATUS_SIE =? 0)) (ps (sys m))) (sys m)) (with_csr (mk_csrs (sepc r) (scause r) (stval r) x (stvec r) (sie_reg r)) m).
Lemma wp_csrw_sstatus x m (Q : unit -> mach C P -> Prop) : Q tt (put_status x m) -> wp (csrw_sstatus x) Q m.
Proof using Type. intros HQ. unfold csrw_sstatus. wp_steps. by apply wp_on_proc, wp_modify. Qed.
Lemma status_bit x : Z.land x SSTATUS_SIE = if Z.testbit x 1 then SSTATUS_SIE else 0.
Proof using Type.
  apply Z.bits_inj'. intros n Hn. rewrite Z.land_spec. change SSTATUS_SIE with (2 ^ 1). destruct (Z.eq_dec n 1) as [->|Hne].
  - rewrite Z.pow2_bits_true by lia. rewrite andb_true_r. destruct (Z.testbit x 1); [by rewrite Z.pow2_bits_true by lia|by rewrite Z.bits_0].
  - rewrite Z.pow2_bits_false by lia. rewrite andb_false_r. destruct (Z.testbit x 1); [by rewrite Z.pow2_bits_false by lia|by rewrite Z.bits_0].
Qed.
(** A write of sstatus is read back; the flag of the process subsystem is its SIE bit. *)
Lemma status_read x m : sstatus_of (put_status x m) = x.
Proof using Type.
  unfold sstatus_of, put_status. cbn [csr sstatus with_sys with_csr sys ps with_ps sie set_sie]. rewrite (status_bit x). apply Z.bits_inj'. intros n Hn. rewrite Z.lor_spec, Z.land_spec, Z.lnot_spec by lia. change SSTATUS_SIE with (2 ^ 1).
  destruct (Z.eq_dec n 1) as [->|Hne]; [rewrite Z.pow2_bits_true by lia; rewrite andb_false_r; by destruct (Z.testbit x 1)|]. rewrite Z.pow2_bits_false by lia. rewrite andb_true_r. destruct (Z.testbit x 1); [change (negb (2 ^ 1 =? 0)) with true|change (negb (0 =? 0)) with false]; cbv iota; rewrite ?Z.pow2_bits_false, ?Z.bits_0 by lia; by rewrite orb_false_r.
Qed.
Lemma status_sie m : Z.land (sstatus_of m) SSTATUS_SIE = if sie (ps (sys m)) then SSTATUS_SIE else 0.
Proof using Type. unfold sstatus_of. rewrite status_bit, Z.lor_spec, Z.land_spec, Z.lnot_spec by lia. change (Z.testbit SSTATUS_SIE 1) with true. rewrite andb_false_r. by destruct (sie (ps (sys m))). Qed.
Lemma wp_intr_off m (Q : unit -> mach C P -> Prop) : Q tt (put_status (Z.land (sstatus_of m) (Z.lnot SSTATUS_SIE)) m) -> wp intr_off Q m.
Proof using Type. intros HQ. unfold intr_off, csrr_sstatus. wp_steps. by apply wp_csrw_sstatus. Qed.
Lemma wp_intr_on m (Q : unit -> mach C P -> Prop) : Q tt (put_status (Z.lor (sstatus_of m) SSTATUS_SIE) m) -> wp intr_on Q m.
Proof using Type. intros HQ. unfold intr_on, csrr_sstatus. wp_steps. by apply wp_csrw_sstatus. Qed.

(** * The trapframe of the process on the hart *)
Definition put_tf (u : proc) (off x : Z) m : mach C P :=
  let s := ps (sys m) in with_sys (with_ps (set_tf_mem (upd (tf_mem s) (trapframe u) (upd (tf_mem s (trapframe u)) off x)) s) (sys m)) m.
Lemma wp_get_cur p u m (Q : proc -> mach C P -> Prop) : on_hart (sys m) p u -> Q u m -> wp (on_proc (get_proc p)) Q m.
Proof using Type. intros Hh HQ. unfold on_proc. apply wp_zoom. eapply wp_cur; [exact Hh|]. by destruct m. Qed.
Lemma wp_set_tf p u off x m (Q : unit -> mach C P -> Prop) : on_hart (sys m) p u -> Q tt (put_tf u off x m) -> wp (set_tf p off x) Q m.
Proof using Type. intros Hh HQ. unfold set_tf. apply wp_bind, (wp_get_cur p u); [done|]. apply wp_bind, wp_require; [by apply negb_true_iff, Z.eqb_neq, (ru_tf _ _ _ Hh)|]. by apply wp_on_proc, wp_modify. Qed.
Lemma wp_get_tf p u off m (Q : Z -> mach C P -> Prop) : on_hart (sys m) p u -> Q (reg (sys m) u off) m -> wp (get_tf p off) Q m.
Proof using Type. intros Hh HQ. unfold get_tf. apply wp_bind, (wp_get_cur p u); [done|]. apply wp_bind, wp_require; [by apply negb_true_iff, Z.eqb_neq, (ru_tf _ _ _ Hh)|]. apply wp_on_proc, wp_gets. by destruct m as [[] ? ? ?]. Qed.
Lemma reg_put u w off x off' m : trapframe w = trapframe u -> reg (sys (put_tf u off x m)) w off' = if off' =? off then x else reg (sys m) w off'.
Proof using Type. intros E. unfold reg. cbn. rewrite E, upd_eq. destruct (Z.eqb_spec off' off) as [->|]; [by rewrite upd_eq|by rewrite upd_ne]. Qed.

(** Changes of registers keep the process subsystem. *)
Lemma inv_put_tf u off x m : proc_inv (ps (sys m)) -> proc_inv (ps (sys (put_tf u off x m))).
Proof using Type. intros [HI []]. split; [eapply core_frame; [exact HI|done..]|by split]. Qed.
Lemma inv_put_status x m : proc_inv (ps (sys m)) -> proc_inv (ps (sys (put_status x m))).
Proof using Type. intros [HI []]. split; [eapply core_frame; [exact HI|done..]|by split]. Qed.

(** * Device interrupts *)

(** The claimed source is served and completed once; nothing else is touched. *)
Record served (fl : list flight) (todo pend : list Z) (dv : vdev) m m' : Prop := {
  ev_sys : sys m' = sys m;
  ev_csr : csr m' = csr m;
  ev_ready : plic_ready (plic m');
  ev_serving : g_serving (pregs (plic m')) = g_serving (pregs (plic m));
  ev_none : VIRTIO0_IRQ ∉ g_pending (pregs (plic m)) -> blk m' = blk m /\ pregs (plic m') = pregs (plic m);
  ev_irq : VIRTIO0_IRQ ∈ g_pending (pregs (plic m)) -> g_pending (pregs (plic m')) = without_irq VIRTIO0_IRQ (g_pending (pregs (plic m))) /\
    d_locked (blk m') = false /\ d_wq (blk m') = [] /\ exists fl', vinv fl' todo [] dv (blk m') /\ forall c, c ∈ fl' <-> c ∈ fl /\ f0 c ∉ pend
}.
Lemma external_spec isr fl todo pend dv m : plic_ready (plic m) -> VIRTIO0_IRQ ∉ g_serving (pregs (plic m)) -> vinv fl todo pend dv (blk m) -> d_locked (blk m) = false ->
  wp (external_interrupt isr) (fun _ m' => served fl todo pend dv m m') m.
Proof using Type.
  intros Hr Hns Hi Hl. unfold external_interrupt. apply wp_bind, wp_zoom. eapply wp_mono; [by apply plic_claim_spec|]. cbv beta. intros irq d (Hr1 & Hno & Hyes). destruct (decide (VIRTIO0_IRQ ∈ g_pending (pregs (plic m)))) as [Hin|Hn].
  - destruct (Hyes Hin) as (-> & Hp & Hs). change (VIRTIO0_IRQ =? 0) with false. rewrite Z.eqb_refl. cbv iota. apply wp_bind, wp_zoom. eapply wp_mono; [by apply (intr_spec fl todo pend dv)|]. cbv beta. intros [] b (fl' & Hi' & Hl' & Hlo & Hq).
    apply wp_zoom. eapply wp_mono; [apply plic_complete_spec; [done|cbn; rewrite Hs; by left]|]. cbn [plic with_blk with_plic blk]. intros [] d' Hd'. destruct Hr1 as (R1 & R2 & R3).
    split; cbn; [done..|unfold plic_ready; rewrite Hd'; by split_and!| |done|]; rewrite Hd'; cbn; rewrite ?Hs, ?Hp.
    + unfold without_irq. cbn. rewrite decide_False by naive_solver. apply filter_all. apply Forall_forall. intros x Hx ->. done.
    + intros _. split_and!; try done. exists fl'. split; [done|]. intros c. by eapply reaped_members.
  - destruct (Hno Hn) as [-> Hs]. rewrite Z.eqb_refl. wp_steps. split; cbn; try done; by rewrite Hs.
Qed.

(** * The way back to user mode *)
Definition ret_target (vs : vectors) (u : proc) : Z * Z * Z := (u64 (TRAMPOLINE + u64 (user_ret vs - user_vec vs)), TRAPFRAME, MAKE_SATP (Proc.pagetable u)).

Record entered (p : Z) (u : proc) m m' : Prop := {
  en_vec : stvec (csr m') = TRAMPOLINE;
  en_pc : sepc (csr m') = reg (sys m) u TF_epc;
  en_status : forall n, 0 <= n -> Z.testbit (sstatus_of m') n = if decide (n = 1 \/ n = 8) then false else if decide (n = 5) then true else Z.testbit (sstatus_of m) n;
  en_sie : sie (ps (sys m')) = false;
  en_regs : forall off, reg (sys m') u off = if off =? TF_hartid then 0 else reg (sys m) u off;
  en_hart : on_hart (sys m') p u;
  en_inv : proc_inv (ps (sys m'));
  en_mode : mode (ps (sys m')) = mode (ps (sys m));
  en_rest : km (sys m') = km (sys m) /\ spaces (sys m') = spaces (sys m) /\ con (sys m') = con (sys m) /\ plic m' = plic m /\ blk m' = blk m
}.
Lemma user_status y n : 0 <= n -> Z.testbit (Z.lor (Z.land (Z.land y (Z.lnot SSTATUS_SIE)) (Z.lnot SSTATUS_SPP)) SSTATUS_SPIE) n =
  if decide (n = 1 \/ n = 8) then false else if decide (n = 5) then true else Z.testbit y n.
Proof using Type.
  intros Hn. rewrite Z.lor_spec, !Z.land_spec, !Z.lnot_spec by lia. change SSTATUS_SIE with (2 ^ 1). change SSTATUS_SPP with (2 ^ 8). change SSTATUS_SPIE with (2 ^ 5). rewrite !Z.pow2_bits_eqb by lia.
  repeat case_decide; destruct (Z.testbit y n); destruct (Z.eqb_spec 1 n); destruct (Z.eqb_spec 8 n); destruct (Z.eqb_spec 5 n); try lia; done.
Qed.
Lemma enter_user_spec vs p u m : on_hart (sys m) p u -> proc_inv (ps (sys m)) -> wp (enter_user vs p) (fun r m' => r = ret_target vs u /\ entered p u m m') m.
Proof using Type.
  intros Hh HP. unfold enter_user, csrw_stvec, csrw_sepc, csrr_sstatus. apply wp_bind, wp_intr_off. wp_steps. set (m1 := put_status _ m). set (m2 := with_csr _ m1).
  assert (on_hart (sys m2) p u) as Hh2 by (by destruct Hh). apply (wp_set_tf p u); [done|]. set (m3 := put_tf u TF_hartid 0 m2). wp_steps. apply wp_csrw_sstatus.
  assert (sstatus_of m3 = Z.land (sstatus_of m) (Z.lnot SSTATUS_SIE)) as -> by exact (status_read _ m). set (x := Z.lor _ SSTATUS_SPIE). set (m4 := put_status x m3). wp_steps.
  assert (on_hart (sys m4) p u) as Hh4 by (by destruct Hh). apply (wp_get_tf p u); [done|]. wp_steps. apply (wp_get_cur p u); [by destruct Hh4|]. wp_steps. split; [done|].
  assert (forall off, reg (sys m4) u off = if off =? TF_hartid then 0 else reg (sys m) u off) as Hreg by (intros off; exact (reg_put u u TF_hartid 0 off m2 eq_refl)).
  assert (Z.land x SSTATUS_SIE = 0) as Hx by (rewrite status_bit; unfold x; by rewrite user_status by lia).
  split; [done|cbn [csr with_csr sepc]; by rewrite Hreg| |cbn; by rewrite Hx|done|by destruct Hh4|by apply inv_put_status, inv_put_tf, inv_put_status|done|done].
  intros n Hn. rewrite <- (user_status (sstatus_of m) n Hn). f_equal. exact (status_read x m3).
Qed.

Definition at_proc (t : kst) m : mach C P := with_sys (with_ps t (sys m)) m.

(** Killed: exit; preempted: to the end of the run queue; otherwise to user mode. *)
Inductive ret_outcome (vs : vectors) (p : Z) (u : proc) m : option (Z * Z * Z) -> mach C P -> Prop :=
| ret_exits t : killed u = true -> exit_post (-1) (ps (sys m)) p u t -> proc_inv t -> mode t = Switched -> ret_outcome vs p u m None (at_proc t m)
| ret_yields t : killed u = false -> need_resched (ps (sys m)) = true -> t = set_held [ProcLock p] (set_sie false (yielded (set_need_resched false (ps (sys m))) p u (sie (ps (sys m))))) ->
    proc_inv t -> ret_outcome vs p u m None (at_proc t m)
| ret_enters m' : killed u = false -> need_resched (ps (sys m)) = false -> entered p u m m' -> ret_outcome vs p u m (Some (ret_target vs u)) m'.

Lemma exit_zombie p u s t : exit_post (-1) s p u t -> exists u', procs t !! p = Some u' /\ pstate u' = PROC_ZOMBIE /\ exit_status u' = -1.
Proof using Type. intros (v1 & s2 & _ & _ & _ & ->). eexists. split; [cbn; by rewrite lookup_insert_eq|done]. Qed.

Lemma user_trap_ret_spec vs p u m : proc_inv (ps (sys m)) -> mode (ps (sys m)) = Running -> on_hart (sys m) p u -> 1 < pid u -> wp (user_trap_ret vs) (ret_outcome vs p u m) m.
Proof using Type.
  intros HP Hm Hh Hpid. pose proof Hh as [Hc Hn Hu Htf]. pose proof HP as [HI Hha]. unfold user_trap_ret. apply wp_bind, wp_on_proc, wp_gets. rewrite Hc.
  assert (with_sys (with_ps (ps (sys m)) (sys m)) m = m) as -> by (by destruct m as [[] ? ? ?]). apply wp_bind, (wp_get_cur p u); [done|]. destruct (killed u) eqn:Ek.
  - apply wp_bind, wp_on_proc. eapply wp_mono; [apply (proc_exit_spec (ps (sys m)) p u HI (running_held _ HP Hm)); try done; [rewrite <- Hc; by apply on_cpu_running|by rewrite <- Hc; apply Hha]|].
    cbv beta. intros [] t (He & HP' & Hsw). wp_steps. by apply (ret_exits vs p u m t).
  - apply wp_bind, wp_on_proc, wp_gets. assert (with_sys (with_ps (ps (sys m)) (sys m)) m = m) as -> by (by destruct m as [[] ? ? ?]). destruct (need_resched (ps (sys m))) eqn:En.
    + apply wp_bind, wp_on_proc, wp_modify, wp_bind, wp_on_proc. cbn [sys with_sys ps with_ps]. set (s1 := set_need_resched false (ps (sys m))).
      assert (proc_inv s1) as HP1 by (split; [eapply core_frame; [exact HI|done..]|by destruct Hha]). assert (on_cpu s1 = Some p) as Hc1 by (rewrite <- Hc; by apply (on_cpu_running s1)). pose proof (yield_spec s1 p u (proj1 HP1) (running_held s1 HP1 Hm) Hc1 Hc Hu) as Ey.
      assert (procs s1 !! cpu_proc s1 = Some u) as Hu1 by (cbn; by rewrite Hc). pose proof (inv_yield s1 HP1 u Hm Hu1) as Hw. unfold wp in Hw |- *. rewrite Ey in Hw |- *.
      destruct Hw as [HP2 _]. apply (ret_yields vs p u m _ Ek En eq_refl HP2).
    + apply wp_bind. eapply wp_mono; [by apply (enter_user_spec vs p u)|]. cbv beta. intros r m' [-> He]. wp_steps. by apply ret_enters.
Qed.
End machine.

(** * The causes of a trap from user mode *)

(** * Causes *)
Inductive cause := Timer | External | Call | PageFault | Fatal.
Definition cause_of (r : csrs) : cause :=
  let code := Z.land (scause r) 0xff in
  if negb (Z.land (scause r) SCAUSE_INTERRUPT =? 0) then
    if code =? IRQ_S_TIMER then Timer else if code =? IRQ_S_EXT then External else Fatal
  else if code =? EXC_ECALL_U then Call else if (code =? EXC_LOAD_PAGE) || (code =? EXC_STORE_PAGE) then PageFault else Fatal.

Section user.
Context {C : Type} `{Console C} {P : Type} `{PlicDevice P}.
Implicit Types m : mach C P.

(** A trap from an ordinary process (not idle or init). *)
Record user_machine (p : Z) (v : proc) (a k : Z) (fl : list flight) (todo pend : list Z) (dv : vdev) m : Prop := {
  um_inv : proc_inv (ps (sys m));
  um_doom : ~ doomed (ps (sys m));
  um_mode : mode (ps (sys m)) = Running;
  um_hart : on_hart (sys m) p v;
  um_pid : 1 < pid v < 2 ^ 31;
  um_sound : sound p a k (sys m);
  um_plic : plic_ready (plic m);
  um_serving : VIRTIO0_IRQ ∉ g_serving (pregs (plic m));
  um_disk : vinv fl todo pend dv (blk m);
  um_lock : d_locked (blk m) = false;
  um_csrs : 0 <= sepc (csr m) < 2 ^ 64 /\ 0 <= scause (csr m) < 2 ^ 64 /\ 0 <= stval (csr m) < 2 ^ 64;
  um_user : Z.land (sstatus_of m) SSTATUS_SPP = 0;
  um_sie : sie (ps (sys m)) = false
}.

(** ** The state at the dispatch, and when a system call starts *)
Definition trapped (vs : vectors) (v : proc) m : mach C P :=
  let r := csr m in put_tf v TF_epc (sepc r) (with_csr (mk_csrs (sepc r) (scause r) (stval r) (sstatus r) (kernel_vec vs) (sie_reg r)) m).
Definition called (vs : vectors) (v : proc) m : mach C P :=
  let m1 := put_tf v TF_epc (u64 (sepc (csr m) + 4)) (trapped vs v m) in put_status (Z.lor (sstatus_of m1) SSTATUS_SIE) m1.

Context (vs : vectors) (e : call_env) (p : Z) (v : proc) (a k : Z) (fl : list flight) (todo pend : list Z) (dv : vdev) (m : mach C P).
Context (Hu : user_machine p v a k fl todo pend dv m).

Lemma trapped_hart : on_hart (sys (trapped vs v m)) p v.
Proof using Hu. destruct Hu as [_ _ _ [] _ _ _ _ _ _ _ _ _]. by split. Qed.
Lemma trapped_inv : proc_inv (ps (sys (trapped vs v m))).
Proof using Hu. exact (inv_put_tf v TF_epc (sepc (csr m)) _ (um_inv _ _ _ _ _ _ _ _ _ Hu)). Qed.
Lemma trapped_reg off : reg (sys (trapped vs v m)) v off = if off =? TF_epc then sepc (csr m) else reg (sys m) v off.
Proof using Type. exact (reg_put v v TF_epc (sepc (csr m)) off _ eq_refl). Qed.
Lemma called_reg off : reg (sys (called vs v m)) v off = if off =? TF_epc then u64 (sepc (csr m) + 4) else reg (sys m) v off.
Proof using Type. etrans; [exact (reg_put v v TF_epc _ off (trapped vs v m) eq_refl)|]. destruct (off =? TF_epc) eqn:E; [done|]. by rewrite trapped_reg, E. Qed.
Lemma called_hart : on_hart (sys (called vs v m)) p v.
Proof using Hu. destruct Hu as [_ _ _ [] _ _ _ _ _ _ _ _ _]. by split. Qed.
Lemma called_inv : proc_inv (ps (sys (called vs v m))).
Proof using Hu. apply inv_put_status, inv_put_tf, trapped_inv. Qed.
Lemma called_sound : sound p a k (sys (called vs v m)).
Proof using Hu. destruct Hu as [_ _ _ _ _ [] _ _ _ _ _ _ _]. by split. Qed.

(** The conditions on a call hold for the state it starts in. *)
Lemma called_ok : call_ok (sys m) p v e -> call_ok (sys (called vs v m)) p v e.
Proof using Type.
  clear Hu. intros [A1 A2 A3 A4 A5 A6 A7 A8]. assert (forall off, off <> TF_epc -> reg (sys (called vs v m)) v off = reg (sys m) v off) as Hr by (intros off Ho; rewrite called_reg; by destruct (Z.eqb_spec off TF_epc)).
  split; try (rewrite (Hr TF_a7) by done); rewrite ?(Hr TF_a0), ?(Hr TF_a1), ?(Hr TF_a2) by done; try done.
  - intros off. rewrite called_reg. destruct (off =? TF_epc); [unfold u64; apply Z.mod_pos_bound; lia|done].
  - intros En. destruct (A4 En) as (? & [] & ?). by split_and!.
  - intros En. destruct (A5 En) as (? & ? & ? & Hx). split_and!; [done..|]. intros path args. by destruct (Hx path args).
Qed.

(** ** One branch each *)
Definition killed_now m1 : mach C P := at_proc (killed_at p v (ps (sys m1))) m1.
Definition ticked m1 : mach C P :=
  let s := set_timer (2 ^ 64 - 1) (ps (sys m1)) in at_proc (set_need_resched true (woken_all (expired (wake_time <$> procs s) (mtime s) (tsleep_list s)) s)) m1.
Definition fault_mapped (m1 : mach C P) : Prop := exists x, pte_of (ram (km (sys m1))) (pagetable (spaces (sys m) p)) (stval (csr m)) = Some x.

Inductive dispatched : bool -> mach C P -> Prop :=
| di_timer : cause_of (csr m) = Timer -> dispatched true (ticked (trapped vs v m))
| di_external m' : cause_of (csr m) = External -> served fl todo pend dv (trapped vs v m) m' -> dispatched true m'
| di_call x s' : cause_of (csr m) = Call -> syscall e (sys (called vs v m)) = Ok (Some x, s') -> call_post (sys (called vs v m)) p v (Some x) s' -> dispatched true (put_tf v TF_a0 (u64 x) (with_sys s' (called vs v m)))
| di_away s' : cause_of (csr m) = Call -> syscall e (sys (called vs v m)) = Ok (None, s') -> call_post (sys (called vs v m)) p v None s' -> dispatched false (with_sys s' (called vs v m))
| di_fault m' : cause_of (csr m) = PageFault -> (exists kk, transparent (inv:=kalloc_inv) (spaces (sys m) p) (fun _ => False) (km (sys m)) kk /\ m' = with_sys (with_km kk (sys (trapped vs v m))) (trapped vs v m)) ->
    fault_mapped m' -> dispatched true m'
| di_fault_killed m1 : cause_of (csr m) = PageFault -> (exists kk, transparent (inv:=kalloc_inv) (spaces (sys m) p) (fun _ => False) (km (sys m)) kk /\ m1 = with_sys (with_km kk (sys (trapped vs v m))) (trapped vs v m)) ->
    dispatched true (killed_now m1)
| di_fatal t m1 : cause_of (csr m) = Fatal -> printed t (trapped vs v m) m1 -> dispatched true (killed_now m1).

Lemma kill_here b (Q : bool -> mach C P -> Prop) m1 : on_hart (sys m1) p v -> Q b (killed_now m1) -> wp (on_proc (upd_proc p (set_killed true));; mret b) Q m1.
Proof using Type. clear Hu. intros [Hc Hn Hp Ht] HQ. apply wp_bind, wp_on_proc. eapply wp_upd_proc; [exact Hp|]. by wp_steps. Qed.

Lemma timer_branch (Q : bool -> mach C P -> Prop) : Q true (ticked (trapped vs v m)) ->
  wp (on_proc (modify (set_timer (2 ^ 64 - 1));; wake_expired_sleepers;; modify (set_need_resched true));; mret true) Q (trapped vs v m).
Proof using Hu.
  intros HQ. pose proof trapped_inv as HP. apply wp_bind, wp_on_proc. wp_steps. apply wake_expired_spec; [eapply core_frame; [exact (proj1 HP)|done..]|exact (running_held _ HP (um_mode _ _ _ _ _ _ _ _ _ Hu))|]. intros _. by wp_steps.
Qed.
Lemma call_branch (Q : bool -> mach C P -> Prop) : buffers_ok a k e -> call_ok (sys m) p v e ->
  (forall x s', syscall e (sys (called vs v m)) = Ok (Some x, s') -> call_post (sys (called vs v m)) p v (Some x) s' -> Q true (put_tf v TF_a0 (u64 x) (with_sys s' (called vs v m)))) ->
  (forall s', syscall e (sys (called vs v m)) = Ok (None, s') -> call_post (sys (called vs v m)) p v None s' -> Q false (with_sys s' (called vs v m))) ->
  wp (epc ← get_tf p TF_epc; set_tf p TF_epc (u64 (epc + 4));; intr_on;; r ← on_sys (syscall e); match r with Some x => set_tf p TF_a0 (u64 x);; mret true | None => mret false end) Q (trapped vs v m).
Proof using Hu.
  intros Hb Hc HQ HN. apply wp_bind, (wp_get_tf p v); [apply trapped_hart|]. rewrite trapped_reg, Z.eqb_refl. apply wp_bind, (wp_set_tf p v); [apply trapped_hart|]. apply wp_bind, wp_intr_on. fold (called vs v m). apply wp_bind, wp_zoom.
  eapply wp_mono; [apply wp_result, (syscall_spec (sys (called vs v m)) p a k v e called_inv); [exact (um_doom _ _ _ _ _ _ _ _ _ Hu)|exact (um_mode _ _ _ _ _ _ _ _ _ Hu)|apply called_hart|apply called_sound|done|by apply called_ok]|].
  intros [x|] s' [Hp He]; [|wp_steps; by apply HN]. pose proof Hp as (_ & (_ & v' & Hh & _ & Etf & _) & _). apply wp_bind, (wp_set_tf p v'); [exact Hh|]. wp_steps. unfold put_tf. rewrite Etf. exact (HQ x s' He Hp).
Qed.
Lemma fault_branch code (Q : bool -> mach C P -> Prop) :
  (forall kk m1, transparent (inv:=kalloc_inv) (spaces (sys m) p) (fun _ => False) (km (sys m)) kk -> m1 = with_sys (with_km kk (sys (trapped vs v m))) (trapped vs v m) -> (fault_mapped m1 -> Q true m1) /\ Q true (killed_now m1)) ->
  wp (f ← on_sys (sp ← gets (fun s => spaces s p); on_mem (handle_page_fault sp code (stval (csr m)))); (if f <? 0 then on_proc (upd_proc p (set_killed true)) else mret tt);; mret true) Q (trapped vs v m).
Proof using Hu.
  intros HQ. pose proof (so_space _ _ _ _ (um_sound _ _ _ _ _ _ _ _ _ Hu)) as Hs. apply wp_bind, wp_zoom, wp_bind, wp_gets, wp_zoom. pose proof Hs as [].
  eapply wp_mono; [by apply (handle_page_fault_spec (spaces (sys m) p) code (stval (csr m)) (km (sys m)))|]. cbv beta. intros r kk Hf. destruct (fault_transparent _ (fun _ => False) _ _ _ _ _ Hs Hf) as (Ht & Hr & Hok).
  destruct (HQ kk _ Ht eq_refl) as [H1' H2']. destruct Hr as [->| ->]; [change (0 <? 0) with false|change (-1 <? 0) with true]; cbv iota.
  - wp_steps. apply H1'. destruct (Hok eq_refl) as [_ Hx]. exact Hx.
  - apply kill_here; [|exact H2']. destruct trapped_hart. by split.
Qed.

Lemma user_dispatch_spec isr : buffers_ok a k e -> (cause_of (csr m) = Call -> call_ok (sys m) p v e) -> wp (user_dispatch vs e isr) dispatched m.
Proof using Hu.
  intros Hb Hc. pose proof Hu as [U1 U2 U3 U4 U5 U6 U7 U8 U9 U10 (U11 & U12 & U13) U14 U15]. unfold user_dispatch, csrw_stvec, csrr_sstatus. wp_steps. cbn [csr with_csr scause stval sepc].
  set (m0 := with_csr _ m). assert (on_hart (sys m0) p v) as Hh0 by exact U4. assert (sstatus_of m0 = sstatus_of m) as -> by done.
  unfold on_proc at 1. apply wp_zoom. eapply wp_this; [exact Hh0|]. assert (with_sys (sys m0) m0 = m0) as -> by (by destruct m0). apply wp_bind, (wp_set_tf p v); [done|].
  change (put_tf v TF_epc (sepc (csr m)) m0) with (trapped vs v m). rewrite U14, status_sie, U15. cbn [negb Z.eqb].
  pose proof trapped_hart as Hh. assert (con_ready (con (sys (trapped vs v m)))) as Hcr by apply U6.
  assert (0 <= Z.land (scause (csr m)) 255 < 2 ^ 8) as Hcode by (change 255 with (Z.ones 8); rewrite Z.land_ones by lia; by apply Z.mod_pos_bound).
  destruct (negb (Z.land (scause (csr m)) SCAUSE_INTERRUPT =? 0)) eqn:Ei; [destruct (Z.land (scause (csr m)) 255 =? IRQ_S_TIMER) eqn:E1; [|destruct (Z.land (scause (csr m)) 255 =? IRQ_S_EXT) eqn:E2]|
    destruct (Z.land (scause (csr m)) 255 =? EXC_ECALL_U) eqn:E1; [|destruct ((Z.land (scause (csr m)) 255 =? EXC_LOAD_PAGE) || (Z.land (scause (csr m)) 255 =? EXC_STORE_PAGE)) eqn:E2]].
  - apply timer_branch. constructor. unfold cause_of. by rewrite Ei, E1.
  - apply wp_bind. eapply wp_mono; [by apply (external_spec isr fl todo pend dv (trapped vs v m))|]. cbv beta. intros [] m' Hs. wp_steps. apply di_external; [unfold cause_of; by rewrite Ei, E1, E2|done].
  - apply wp_bind. apply message_spec; [done|by repeat constructor|repeat constructor; lia|done|]. intros t m1 Hp _. apply kill_here; [|eapply di_fatal; [unfold cause_of; by rewrite Ei, E1, E2|exact Hp]]. destruct Hp as (c & -> & _). by destruct Hh.
  - assert (cause_of (csr m) = Call) as Ec by (unfold cause_of; by rewrite Ei, E1). apply call_branch; [done|by apply Hc|by intros; apply di_call|by intros; apply di_away].
  - apply fault_branch. intros kk m1 Ht ->. assert (cause_of (csr m) = PageFault) as Ec by (unfold cause_of; by rewrite Ei, E1, E2). split; [intros Hm; apply di_fault; [done|by exists kk|done]|apply di_fault_killed; [done|by exists kk]].
  - apply wp_bind, (wp_get_tf p v); [done|]. rewrite trapped_reg, Z.eqb_refl. apply wp_bind, (wp_get_cur p v); [done|]. apply wp_bind, message_spec; [done|by repeat constructor| |done|].
    + repeat constructor; try lia. apply exc_name_text.
    + intros t m1 Hp _. apply kill_here; [|eapply di_fatal; [unfold cause_of; by rewrite Ei, E1, E2|exact Hp]]. destruct Hp as (c & -> & _). by destruct Hh.
Qed.

(** ** Every branch leaves a sound machine *)
Definition usable (m1 : mach C P) : Prop := proc_inv (ps (sys m1)) /\ uspace (inv:=kalloc_inv) (spaces (sys m1) p) (km (sys m1)) /\ con_ready (con (sys m1)) /\ plic_ready (plic m1) /\ exists fl' pend', vinv fl' todo pend' dv (blk m1).
Definition alive (m1 : mach C P) : Prop := mode (ps (sys m1)) = Running /\ exists u, on_hart (sys m1) p u /\ pid u = pid v /\ trapframe u = trapframe v.

Lemma killed_now_ok m1 : on_hart (sys m1) p v -> mode (ps (sys m1)) = Running -> usable m1 -> usable (killed_now m1) /\ alive (killed_now m1).
Proof using Type.
  clear Hu. intros [Hc Hn Hp Ht] Hm (HP & HR). split; [split; [|done]|].
  - eapply inv_running; [exact HP|by apply core_killed; [apply HP|]|done..].
  - split; [done|]. exists (set_killed true v). split; [|done]. split; [done|done|cbn; by rewrite lookup_insert_eq|done].
Qed.
Lemma woken_all_at : forall l s q u, procs s !! q = Some u -> exists u', procs (woken_all l s) !! q = Some u' /\ pid u' = pid u /\ trapframe u' = trapframe u /\ killed u' = killed u.
Proof using Type.
  induction l as [|x l IH]; intros s q u Hq; cbn [woken_all]; [by exists u|]. destruct (procs s !! x) as [w|] eqn:Ex; [|by apply IH].
  destruct (decide (q = x)) as [->|Hne].
  - rewrite Hq in Ex. injection Ex as <-. destruct (IH (woken x u s) x (set_pstate PROC_RUNNABLE u)) as (u' & ? & ? & ? & ?); [cbn; by rewrite lookup_insert_eq|]. by exists u'.
  - apply (IH (woken x w s)). cbn. by rewrite lookup_insert_ne.
Qed.

Lemma ticked_inv (m1 : mach C P) : proc_inv (ps (sys m1)) -> mode (ps (sys m1)) = Running -> proc_inv (ps (sys (ticked m1))) /\ mode (ps (sys (ticked m1))) = Running.
Proof using Type.
  clear Hu. intros HP Hm. pose proof HP as [HI Hha]. unfold ticked. set (s1 := set_timer _ _). set (l := expired _ _ _). destruct (woken_all_keeps l s1) as (Kh & Km & Kc & _). pose proof (woken_all_sched l s1) as Ks.
  assert (core_inv (woken_all l s1)) as HI1.
  { enough (wp wake_expired_sleepers (fun _ t => core_inv (woken_all l s1)) s1) as Hw by (by apply wp_elim in Hw as (? & ? & _ & ?)).
    apply wake_expired_spec; [eapply core_frame; [exact HI|done..]|exact (running_held _ HP Hm)|done]. }
  split; [|exact (eq_trans Km Hm)]. split; [eapply core_frame; [exact HI1|done..]|]. apply hart_running; [exact (eq_trans Km Hm)|exact (eq_trans Kh (running_held _ HP Hm))|exact (eq_trans Ks (eq_trans (ha_sched _ Hha) (eq_sym Kc)))|].
  change (cpu_proc (woken_all l s1) <> Proc.NULL). rewrite Kc. apply Hha. by rewrite Hm.
Qed.
Lemma ticked_ok m1 : on_hart (sys m1) p v -> mode (ps (sys m1)) = Running -> usable m1 -> usable (ticked m1) /\ alive (ticked m1).
Proof using Type.
  clear Hu. intros [Hc Hn Hp Ht] Hm (HP & HR). destruct (ticked_inv m1 HP Hm) as [HP' Hm']. split; [by split|]. split; [done|]. unfold ticked. set (s1 := set_timer _ _). set (l := expired _ _ _).
  destruct (woken_all_keeps l s1) as (_ & _ & Kc & _). destruct (woken_all_at l s1 p v Hp) as (u & Hu & E1 & E2 & _). exists u. split; [|done]. split; [exact (eq_trans Kc Hc)|done|exact Hu|by rewrite E2].
Qed.
Lemma trapped_usable : usable (trapped vs v m).
Proof using Hu. split; [apply trapped_inv|]. destruct Hu as [_ _ _ _ _ [] ? _ ? _ _ _ _]. split_and!; [done..|by exists fl, pend]. Qed.
Lemma trapped_memory kk : transparent (inv:=kalloc_inv) (spaces (sys m) p) (fun _ => False) (km (sys m)) kk -> usable (with_sys (with_km kk (sys (trapped vs v m))) (trapped vs v m)).
Proof using Hu. intros [Hk _ _ _ _ _ _ _]. destruct trapped_usable as (? & _ & ? & ? & ?). by split_and!. Qed.
Lemma alive_same m1 : ps (sys m1) = ps (sys (trapped vs v m)) -> alive m1.
Proof using Hu. intros E. split; [rewrite E; exact (um_mode _ _ _ _ _ _ _ _ _ Hu)|]. exists v. split; [|done]. destruct trapped_hart. by split; rewrite ?E. Qed.

Lemma dispatched_ok b m1 : dispatched b m1 -> usable m1 /\ if b then alive m1 else mode (ps (sys m1)) = Switched.
Proof using Hu.
  pose proof trapped_usable as Ht. pose proof trapped_hart as Hh. pose proof (um_mode _ _ _ _ _ _ _ _ _ Hu) as Hm.
  intros [Hc|m' Hc [E1 E2 E3 E4 E5 E6]|x s' Hc _ ((HP & Hs & Hr) & (Hm' & u & Hh' & E1 & E2 & _) & _)|s' Hc _ ((HP & Hs & Hr) & Hsw & _)|m' Hc (kk & Hk & ->) Hf|m' Hc (kk & Hk & ->)|t m' Hc (c & -> & Hcr & _)].
  - by apply ticked_ok.
  - split; [|apply alive_same; by rewrite E1]. destruct Ht as (T1 & T2 & T3 & T4 & T5). unfold usable. rewrite E1. split_and!; [done..|]. destruct (decide (VIRTIO0_IRQ ∈ g_pending (pregs (plic (trapped vs v m))))) as [Hi|Hi].
    + destruct (E6 Hi) as (_ & _ & _ & fl' & ? & _). by exists fl', [].
    + destruct (E5 Hi) as [-> _]. done.
  - destruct Ht as (_ & _ & _ & T4 & T5). split; [split_and!; [by apply inv_put_tf|done..]|]. split; [exact Hm'|]. exists u. split; [|done]. by destruct Hh'.
  - destruct Ht as (_ & _ & _ & T4 & T5). split; [by split_and!|done].
  - split; [by apply trapped_memory|by apply alive_same].
  - apply killed_now_ok; [by destruct Hh|done|by apply trapped_memory].
  - apply killed_now_ok; [by destruct Hh|done|]. destruct Ht as (T1 & T2 & T3 & T4 & T5). by split_and!.
Qed.

Lemma user_trap_spec isr : buffers_ok a k e -> (cause_of (csr m) = Call -> call_ok (sys m) p v e) ->
  wp (user_trap vs e isr) (fun r m' => exists b m1, dispatched b m1 /\ if (b : bool) then exists u, on_hart (sys m1) p u /\ pid u = pid v /\ trapframe u = trapframe v /\ ret_outcome vs p u m1 r m' else r = None /\ m' = m1) m.
Proof using Hu.
  intros Hb Hc. unfold user_trap. apply wp_bind. eapply wp_mono; [by apply user_dispatch_spec|]. intros b m1 Hd. destruct (dispatched_ok b m1 Hd) as [(HP & _) Ha]. destruct b; [|wp_steps; by exists false, m1].
  destruct Ha as (Hm & u & Hh & E1 & E2). eapply wp_mono; [apply (user_trap_ret_spec vs p u); try done; pose proof (um_pid _ _ _ _ _ _ _ _ _ Hu); lia|]. intros r m' Ho. exists true, m1. split; [done|]. by exists u.
Qed.
End user.
