(* ===== verification/TrapThm.v ===== *)
(** Theorems on the trap dispatcher. *)
From stdpp Require Import gmap.
From S2P Require Import Prelude Mem Layout Hash Kalloc Buddy KallocInv KallocAlloc KallocSpec KallocThm Kmalloc Proc ProcInv ProcMoves ProcOps ProcSched ProcLife ProcWait ProcFork ProcExec ProcStep ProcThm.
From S2P Require Import Vm VmInv VmWalk VmMap VmThm Vma VmaProof VmaThm UserMem UserCopy UserStr Sbrk Uart Kprintf ConsoleThm Syscall SyscallProof SyscallThm Virtio VirtioInv VirtioThm Plic Trap TrapProof.

Section outcomes.
Context {C : Type} `{Console C} {P : Type} `{PlicDevice P}.
Context (vs : vectors) (e : call_env) (p : Z) (v : proc) (a k : Z) (fl : list flight) (todo pend : list Z) (dv : vdev) (m : mach C P).
Context (Hu : user_machine p v a k fl todo pend dv m).

Lemma killed_now_killed (m1 : mach C P) u : on_hart (sys (killed_now p v m1)) p u -> killed u = true.
Proof using Type. clear Hu. intros [_ _ Hp _]. cbn in Hp. rewrite lookup_insert_eq in Hp. by injection Hp as <-. Qed.
Lemma reg_tf (s : sysst C) u w off : trapframe u = trapframe w -> reg s u off = reg s w off.
Proof using Type. intros E. unfold reg. by rewrite E. Qed.

(** The registers with which the process goes back to user mode. *)
Definition regs_after (x : Z) (off : Z) : Z :=
  if off =? TF_hartid then 0
  else if off =? TF_epc then match cause_of (csr m) with Call => u64 (sepc (csr m) + 4) | _ => sepc (csr m) end
  else match cause_of (csr m) with Call => if off =? TF_a0 then x else reg (sys m) v off | _ => reg (sys m) v off end.

Lemma enters_regs (m1 m' : mach C P) u : dispatched vs e p v fl todo pend dv m true m1 -> on_hart (sys m1) p u -> trapframe u = trapframe v -> killed u = false -> need_resched (ps (sys m1)) = false -> entered p u m1 m' ->
  (cause_of (csr m) = Call -> not_exec (sys m) v) -> exists x, forall off, reg (sys m') v off = regs_after x off.
Proof using Type.
  clear Hu. intros Hd Hh Et Hk Hn He Hx. assert (forall off, reg (sys m') v off = if off =? TF_hartid then 0 else reg (sys m1) v off) as Hr by (intros off; rewrite <- !(reg_tf _ u v off Et); apply He).
  unfold regs_after. inversion Hd as [Hc Em|m2 Hc Hs Em|x s' Hc _ Hp Em|s' Hc _ Hp|m2 Hc (kk & _ & Em2) _ Em|m2 Hc _ Em|t m2 Hc _ Em]; subst; rewrite Hc.
  - done.
  - exists 0. intros off. rewrite Hr, (ev_sys _ _ _ _ _ _ Hs), trapped_reg. done.
  - exists (u64 x). intros off. rewrite Hr. destruct (off =? TF_hartid); [done|]. etrans; [apply (reg_put v v TF_a0 (u64 x) off); done|]. destruct Hp as (_ & (_ & u' & _ & _ & _ & Hs) & _).
    assert (not_exec (sys (called vs v m)) v) as Hne by (unfold not_exec; rewrite called_reg; by apply Hx). cbn [sys with_sys]. rewrite (Hs Hne off), called_reg. destruct (Z.eqb_spec off TF_a0) as [->|]; done.
  - exists 0. intros off. rewrite Hr. cbn [sys with_sys]. change (reg (with_km kk (sys (trapped vs v m))) v off) with (reg (sys (trapped vs v m)) v off). rewrite trapped_reg. done.
  - pose proof (killed_now_killed _ _ Hh). congruence.
  - pose proof (killed_now_killed _ _ Hh). congruence.
Qed.

Lemma ret_ended u (m1 m' : mach C P) r : ret_outcome vs p u m1 r m' -> killed u = true -> r = None /\ exists w, procs (ps (sys m')) !! p = Some w /\ pstate w = PROC_ZOMBIE /\ exit_status w = -1.
Proof using Type. clear Hu. intros [t Hk Hx HP Hm|t Hk Hn _ _|m2 Hk _ _] Hku; [|congruence..]. split; [done|by eapply exit_zombie]. Qed.
Lemma ret_rest u (m1 m' : mach C P) r : ret_outcome vs p u m1 r m' -> km (sys m') = km (sys m1) /\ spaces (sys m') = spaces (sys m1) /\ plic m' = plic m1 /\ blk m' = blk m1.
Proof using Type. clear Hu. intros [t Hk Hx HP Hm|t Hk Hn _ _|m2 Hk _ []]; [done..|]. naive_solver. Qed.
Lemma ret_preempted u (m1 m' : mach C P) r : ret_outcome vs p u m1 r m' -> killed u = false -> need_resched (ps (sys m1)) = true ->
  r = None /\ exists w, procs (ps (sys m')) !! p = Some w /\ pstate w = PROC_RUNNABLE /\ run_queue (ps (sys m')) = run_queue (ps (sys m1)) ++ [p].
Proof using Type. clear Hu. intros [t Hk Hx HP Hm|t Hk Hn -> _|m2 Hk Hn _] Hku Hnr; [congruence| |congruence]. split; [done|]. eexists. split; [cbn; by rewrite lookup_insert_eq|done]. Qed.
Lemma trapped_cur u (m1 : mach C P) : ps (sys m1) = ps (sys (trapped vs v m)) -> on_hart (sys m1) p u -> u = v.
Proof using Hu. intros E [_ _ Hp _]. destruct (trapped_hart vs p v a k fl todo pend dv m Hu) as [_ _ Hv _]. rewrite E, Hv in Hp. by injection Hp as <-. Qed.
End outcomes.



(** * Traps from the kernel *)
Section kernel.
Context {C : Type} `{Console C} {P : Type} `{PlicDevice P}.
Implicit Types m : mach C P.

Record kernel_machine (fl : list flight) (todo pend : list Z) (dv : vdev) m : Prop := {
  nm_inv : proc_inv (ps (sys m));
  nm_mode : mode (ps (sys m)) = Running;
  nm_con : con_ready (con (sys m));
  nm_disk : vinv fl todo pend dv (blk m);
  nm_lock : d_locked (blk m) = false;
  nm_csrs : 0 <= sepc (csr m) < 2 ^ 64 /\ 0 <= scause (csr m) < 2 ^ 64 /\ 0 <= stval (csr m) < 2 ^ 64
}.
Definition from_kernel m : bool := negb (Z.land (sstatus_of m) SSTATUS_SPP =? 0) && negb (sie (ps (sys m))).
Definition pc_in_dram m : bool := (KERN_BASE <=? sepc (csr m)) && (sepc (csr m) + 2 <=? PHYS_STOP).
(** The length of the instruction at the saved PC. *)
Definition inst_len m : Z := if Z.land (ld 2 (ram (km (sys m))) (sepc (csr m))) 3 =? 3 then 4 else 2.

Lemma kernel_timer m : proc_inv (ps (sys m)) -> mode (ps (sys m)) = Running -> on_proc timer_interrupt m = Ok (tt, ticked m).
Proof using Type.
  intros HP Hm. pose proof HP as [HI Hha]. enough (wp (on_proc timer_interrupt) (fun _ m' => m' = ticked m) m) as Hw by (by apply wp_elim in Hw as ([] & ? & ? & ->)).
  apply wp_on_proc. unfold timer_interrupt. wp_steps. apply wake_expired_spec; [eapply core_frame; [exact HI|done..]|exact (running_held _ HP Hm)|]. set (s1 := set_timer _ _). set (l := expired _ _ _). intros _. wp_steps.
  destruct (woken_all_keeps l s1) as (_ & _ & Kc & _). rewrite Kc. destruct (Z.eqb_spec (cpu_proc s1) Proc.NULL) as [E|_]; [destruct (ha_cpu _ Hha); [by rewrite Hm|exact E]|]. by wp_steps.
Qed.
Lemma plic_init_ready m : exists m', plic_init m = Ok (tt, m') /\ plic_ready (plic m') /\ g_pending (pregs (plic m')) = g_pending (pregs (plic m)) /\ g_serving (pregs (plic m')) = g_serving (pregs (plic m)) /\
  sie_reg (csr m') = Z.lor (sie_reg (csr m)) SIE_SEIE /\ sys m' = sys m /\ blk m' = blk m.
Proof using Type.
  enough (wp plic_init (fun _ m' => plic_ready (plic m') /\ g_pending (pregs (plic m')) = g_pending (pregs (plic m)) /\ g_serving (pregs (plic m')) = g_serving (pregs (plic m)) /\
    sie_reg (csr m') = Z.lor (sie_reg (csr m)) SIE_SEIE /\ sys m' = sys m /\ blk m' = blk m) m) as Hw by (apply wp_elim in Hw as ([] & m' & E & Hw); by exists m').
  unfold plic_init, csrw_sie. apply wp_bind, wp_zoom. eapply wp_mono; [apply plic_setup_spec|]. cbv beta. intros [] d (Hr & Hp & Hs). wp_steps. by split_and!.
Qed.
End kernel.


(** C35: kernel_trap_ret is the return path the process subsystem is verified with: it
    ends a killed process, puts one whose time is up at the end of the run queue, and
    otherwise changes nothing.  The PC and the status it saves when it yields are put
    back when the process runs again, whatever other processes did to them. *)
Theorem kernel_trap_ret_correct {C} `{Console C} {P} `{PlicDevice P} (m : mach C P) v :
  proc_inv (ps (sys m)) -> ~ doomed (ps (sys m)) -> mode (ps (sys m)) = Running -> procs (ps (sys m)) !! cpu_proc (ps (sys m)) = Some v ->
  exists r t, kernel_trap_ret m = Ok (r, at_proc t m) /\ trap_ret (ps (sys m)) = Ok (tt, t) /\ proc_inv t /\
    (killed v = true -> r = None /\ mode t = Switched /\ exists u, procs t !! cpu_proc (ps (sys m)) = Some u /\ pstate u = PROC_ZOMBIE) /\
    (killed v = false -> need_resched (ps (sys m)) = false -> r = None /\ t = ps (sys m)) /\
    (killed v = false -> need_resched (ps (sys m)) = true -> mode t = Switched /\ run_queue t = run_queue (ps (sys m)) ++ [cpu_proc (ps (sys m))] /\
      exists saved, r = Some saved /\ forall m2 : mach C P, exists m3, kernel_trap_resume saved m2 = Ok (tt, m3) /\ sepc (csr m3) = sepc (csr m) /\ sstatus_of m3 = sstatus_of m /\ stvec (csr m3) = stvec (csr m2) /\ km (sys m3) = km (sys m2)).
Proof.
  intros HP Hd Hm Hv. pose proof (inv_trap_ret (ps (sys m)) HP Hd Hm) as Hw. apply wp_elim in Hw as ([] & t & Et & [HP' _]). pose proof HP as [HI Hha]. pose proof (not_null _ HI _ _ Hv) as Hnn. pose proof (on_cpu_running _ Hm) as Hoc.
  assert (at_proc (ps (sys m)) m = m) as Hid by (by destruct m as [[] ? ? ?]). set (s := ps (sys m)) in *. set (p := cpu_proc s) in *.
  assert (trap_ret s = if killed v then proc_exit (-1) s else if need_resched s then yield (set_need_resched false s) else Ok (tt, s)) as Er.
  { unfold trap_ret, mbind, M_bind, gets. fold p. rewrite (proj2 (Z.eqb_neq _ _) Hnn). unfold get_proc, mbind, M_bind, gets. rewrite Hv. cbn. destruct (killed v); [done|]. by destruct (need_resched s). }
  enough (wp kernel_trap_ret (fun r m' => m' = at_proc t m /\ r = if killed v then None else if need_resched s then Some (sepc (csr m), sstatus_of m) else None) m) as Hw.
  { apply wp_elim in Hw as (r & m' & E & -> & Hr). exists r, t. split_and!; [done|done|done|..].
    - intros Hk. rewrite Hk in Hr, Er. pose proof (proc_exit_spec s p v HI (running_held _ HP Hm) Hoc eq_refl (ha_sched _ Hha) Hv (killed_above s v Hd Hv Hk) (-1)) as Hx. unfold wp in Hx. rewrite <- Er, Et in Hx. destruct Hx as (Hx & _ & Hsw).
      split_and!; [done|done|]. destruct (exit_zombie _ _ _ _ Hx) as (u & ? & ? & _). by exists u.
    - intros Hk Hn. rewrite Hk, Hn in Hr, Er. split; [done|]. congruence.
    - intros Hk Hn. rewrite Hk, Hn in Hr, Er. assert (core_inv (set_need_resched false s)) as HI1 by (eapply core_frame; [exact HI|done..]).
      rewrite (yield_spec (set_need_resched false s) p v HI1 (running_held _ HP Hm) Hoc eq_refl Hv) in Er. rewrite Et in Er. injection Er as ->. split_and!; [done|done|]. eexists. split; [exact Hr|]. intros m2. eexists. split; [reflexivity|]. split_and!; [done| |done|done].
      exact (status_read (sstatus_of m) _). }
  unfold kernel_trap_ret. apply wp_bind, wp_on_proc, wp_gets. change (with_sys (with_ps (ps (sys m)) (sys m)) m) with (at_proc (ps (sys m)) m). fold s. rewrite Hid. fold p. rewrite (proj2 (Z.eqb_neq _ _) Hnn).
  apply wp_bind, wp_on_proc, wp_bind. eapply wp_get_proc; [exact Hv|]. wp_steps. change (with_sys (with_ps (ps (sys m)) (sys m)) m) with (at_proc s m). rewrite Hid. destruct (killed v) eqn:Ek.
  - apply wp_bind, wp_on_proc. unfold wp. fold s. rewrite <- Er, Et. done.
  - apply wp_bind, wp_on_proc, wp_gets. change (with_sys (with_ps (ps (sys m)) (sys m)) m) with (at_proc s m). rewrite Hid. fold s. destruct (need_resched s) eqn:En; cbn [negb andb].
    + apply wp_bind, wp_on_proc, wp_modify, wp_bind, wp_gets, wp_bind, wp_gets, wp_bind, wp_on_proc. unfold wp. cbn [ps sys with_sys with_ps]. fold s. rewrite <- Er, Et. done.
    + wp_steps. split; [|done]. rewrite Et in Er. injection Er as ->. by rewrite Hid.
Qed.

(** * Witnesses: PID 2 of the example traps *)
Definition demo_plic : sim_plic := mk_sim_plic (mk_plic (fun _ => 1) (fun _ => 2) (fun _ => 0) [VIRTIO0_IRQ] []).
Lemma demo_disk : exists d, vinv [] [] [] (mk_vdev 0 []) d /\ d_locked d = false.
Proof.
  destruct (wp_elim _ _ _ (virtio_init_spec demo_rd 4096 8192 12288 demo0 demo_present ltac:(discriminate) ltac:(discriminate) ltac:(discriminate) demo_quiet eq_refl)) as ([] & d & _ & _ & Hv & Hl & _). by exists d.
Qed.
Definition demo_vectors : vectors := mk_vectors 0x80000000 0x80001000 0x80001080.
Definition demo_csrs (cause status : Z) : csrs := mk_csrs 0x1000 cause 0 status TRAMPOLINE SIE_SEIE.

Lemma demo_machine_of (g : kst) v0 cause status : proc_inv g -> ~ doomed g -> mode g = Running -> procs g !! cpu_proc g = Some v0 -> trapframe v0 <> Proc.NULL ->
  exists (m : mach sim_uart sim_plic), csr m = demo_csrs cause status /\ proc_inv (ps (sys m)) /\ ~ doomed (ps (sys m)) /\ mode (ps (sys m)) = Running /\
  on_hart (sys m) (cpu_proc g) v0 /\ sound (cpu_proc g) demo_block 1 (sys m) /\ plic m = demo_plic /\ vinv [] [] [] (mk_vdev 0 []) (blk m) /\ d_locked (blk m) = false /\ sie (ps (sys m)) = false /\
  (forall off, reg (sys m) v0 off = call_regs off).
Proof.
  intros [HI [H1 H2 H3]] Hdg Hmg Hv0 Ht0. destruct demo_disk as (d & Hd & Hl). destruct demo_space as [Hs Hk].
  exists (mk_mach (mk_sysst (set_sie false (set_tf_mem (fun _ => call_regs) g)) pt_demo (fun _ => demo_as) sim0) demo_plic d (demo_csrs cause status)).
  assert (on_hart (mk_sysst (set_sie false (set_tf_mem (fun _ => call_regs) g)) pt_demo (fun _ => demo_as) sim0) (cpu_proc g) v0) as Hh by (split; [reflexivity|apply H2; by rewrite Hmg|exact Hv0|exact Ht0]).
  split; [reflexivity|]. split; [split; [eapply core_frame; [exact HI|done..]|by split]|]. split; [exact Hdg|]. split; [exact Hmg|]. split; [exact Hh|].
  split; [split; [exact Hs|exact Hk|exact sim0_ready]|]. split; [reflexivity|]. split; [exact Hd|]. split; [exact Hl|]. split; [reflexivity|reflexivity].
Qed.
Lemma demo_machine cause status : exists (m : mach sim_uart sim_plic) p v, csr m = demo_csrs cause status /\ proc_inv (ps (sys m)) /\ ~ doomed (ps (sys m)) /\ mode (ps (sys m)) = Running /\
  on_hart (sys m) p v /\ pid v = 2 /\ killed v = false /\ sound p demo_block 1 (sys m) /\ plic m = demo_plic /\ vinv [] [] [] (mk_vdev 0 []) (blk m) /\ d_locked (blk m) = false /\ sie (ps (sys m)) = false /\
  (forall off, reg (sys m) v off = call_regs off).
Proof.
  destruct (procs s_child !! cpu_proc s_child) as [v|] eqn:Hv; [|vm_compute in Hv; discriminate].
  assert (trapframe v <> Proc.NULL /\ pid v = 2 /\ killed v = false) as (A1 & A2 & A3) by (clear - Hv; vm_compute in Hv; injection Hv as <-; split; [discriminate|split; reflexivity]).
  destruct (demo_machine_of s_child v cause status (proj2 s_child_run)) as (m & H1 & H2 & H3 & H4 & H5 & H6); [apply doomedb_spec; vm_compute; reflexivity|vm_compute; reflexivity|exact Hv|exact A1|].
  exists m, (cpu_proc s_child), v. exact (conj H1 (conj H2 (conj H3 (conj H4 (conj H5 (conj A2 (conj A3 H6))))))).
Qed.

Lemma demo_user cause : 0 <= cause < 2 ^ 64 -> exists (m : mach sim_uart sim_plic) p v, csr m = demo_csrs cause 0 /\ user_machine p v demo_block 1 [] [] [] (mk_vdev 0 []) m /\ call_ok (sys m) p v demo_env /\ (forall off, reg (sys m) v off = call_regs off).
Proof.
  intros Hc. destruct (demo_machine cause 0) as (m & p & v & E & HP & Hd & Hm & Hh & Hp & _ & Hs & El & Hv & Hl & Hi & Hr). exists m, p, v. split; [exact E|]. split; [|split; [|exact Hr]].
  - split; [exact HP|exact Hd|exact Hm|exact Hh|rewrite Hp; lia|exact Hs|rewrite El; split; [reflexivity|split; reflexivity]|rewrite El; intros Hx; apply elem_of_nil in Hx; exact Hx|exact Hv|exact Hl|rewrite E; cbn [demo_csrs sepc scause stval]; lia| |exact Hi].
    unfold sstatus_of. rewrite E, Hi. reflexivity.
  - clear - Hr. split; intros *; rewrite ?Hr; [by vm_compute|intros Hn; vm_compute in Hn; discriminate..].
Qed.


Lemma demo_kernel cause : 0 <= cause < 2 ^ 64 -> exists m : mach sim_uart sim_plic, csr m = demo_csrs cause SSTATUS_SPP /\ kernel_machine [] [] [] (mk_vdev 0 []) m /\ from_kernel m = true /\ ~ doomed (ps (sys m)) /\
  exists v, procs (ps (sys m)) !! cpu_proc (ps (sys m)) = Some v /\ killed v = false.
Proof.
  intros Hc. destruct (demo_machine cause SSTATUS_SPP) as (m & p & v & E & HP & Hd & Hm & [Hcp _ Hp _] & _ & Hk & Hs & El & Hv & Hl & Hi & Hr). exists m. split; [exact E|]. split; [|split; [|split; [exact Hd|exists v; rewrite Hcp; exact (conj Hp Hk)]]].
  - split; [exact HP|exact Hm|apply Hs|exact Hv|exact Hl|rewrite E; cbn [demo_csrs sepc scause stval]; lia].
  - unfold from_kernel, sstatus_of. rewrite E, Hi. reflexivity.
Qed.
Lemma kernel_trap_ret_correct_witness : exists (m : mach sim_uart sim_plic) r t, kernel_trap_ret m = Ok (r, at_proc t m) /\ proc_inv t.
Proof.
  destruct (demo_kernel 3 ltac:(vm_compute; split; congruence)) as (m & _ & [HP Hm _ _ _ _] & _ & Hd & v & Hv & _). destruct (kernel_trap_ret_correct m v HP Hd Hm Hv) as (r & t & E & _ & HP' & _). exists m, r, t. exact (conj E HP').
Defined.
