(* ===== verification/Asm.v ===== *)
(** The assembly of the kernel: [kernel/arch/entry.S], [m_vec.S], [sbi.S], [swtch.S],
    [kernel_vec.S] and [trampoline.S].

    A routine is the list of its instructions as written, pseudo-instructions included,
    with the addresses the linker gives them.  [hart] is the state of the machine they
    run on: the integer registers, the control registers, the privilege mode and
    memory.  Every fetch, load and store goes through the translation the control
    register satp asks for, with the permission bits of the entry; a fault is
    [Undefined].  A call of a C function is a parameter of the run. *)
From S2P Require Import Prelude Mem Layout Kalloc Vm.

Module Asm.

(** * The hart *)
Inductive csr :=
| MHARTID | MSTATUS | MEPC | MCAUSE | MIDELEG | MEDELEG | PMPADDR0 | PMPCFG0 | MTVEC | MENVCFG | MCOUNTEREN
| SATP | SSCRATCH | SEPC.
#[global] Instance csr_eq_dec : EqDecision csr.
Proof. solve_decision. Defined.

Inductive priv := User | Supervisor | Machine.
#[global] Instance priv_eq_dec : EqDecision priv.
Proof. solve_decision. Defined.

Record hart := mk_hart { regs : Z -> Z; csrs : csr -> Z; mode : priv; memory : mem }.
Definition set_regs (v : Z -> Z) (h : hart) : hart := mk_hart v (csrs h) (mode h) (memory h).
Definition set_csrs (v : csr -> Z) (h : hart) : hart := mk_hart (regs h) v (mode h) (memory h).
Definition set_mode (v : priv) (h : hart) : hart := mk_hart (regs h) (csrs h) v (memory h).
Definition set_memory (v : mem) (h : hart) : hart := mk_hart (regs h) (csrs h) (mode h) v.

(** Register x0 is always zero. *)
Definition reg (h : hart) (r : Z) : Z := if r =? 0 then 0 else regs h r.
Definition upd_reg (f : Z -> Z) (r v : Z) : Z -> Z := fun x => if x =? r then v else f x.
Definition upd_csr (f : csr -> Z) (c : csr) (v : Z) : csr -> Z := fun x => if decide (x = c) then v else f x.
Definition get_reg (r : Z) : M hart Z := gets (fun h => reg h r).
Definition put_reg (r v : Z) : M hart unit := modify (fun h => set_regs (upd_reg (regs h) r (u64 v)) h).
Definition get_csr (c : csr) : M hart Z := gets (fun h => csrs h c).
Definition put_csr (c : csr) (v : Z) : M hart unit := modify (fun h => set_csrs (upd_csr (csrs h) c v) h).

(** Names of the registers. *)
Definition zero : Z := 0.
Definition ra : Z := 1.
Definition sp : Z := 2.
Definition tp : Z := 4.
Definition t0 : Z := 5.
Definition t1 : Z := 6.
Definition a0 : Z := 10.
Definition a1 : Z := 11.
Definition a7 : Z := 17.

(** ** Memory accesses

    In M-mode, and with satp = 0, an address is physical.  Otherwise the page table
    whose number satp holds translates it; a page with the U bit belongs to user mode
    only, and A (for a store also D) must be set. *)
Inductive access := Fetch | Load | Store.
Definition root_of (satp : Z) : Z := (satp mod 2 ^ 44) * 4096.
Definition allows (flags : Z) (m : priv) (a : access) : bool :=
  Bool.eqb (has flags PTE_U) (bool_decide (m = User)) && has flags PTE_A &&
  match a with Fetch => has flags PTE_X | Load => has flags PTE_R | Store => has flags PTE_W && has flags PTE_D end.
Definition translate (a : access) (va : Z) (h : hart) : option Z :=
  if decide (mode h = Machine) then Some va else
  if csrs h SATP =? 0 then Some va else
  match Sv39.translate (memory h) (root_of (csrs h SATP)) va with
  | Some (pa, flags) => if allows flags (mode h) a then Some pa else None
  | None => None
  end.
(** Accesses of [n] bytes are aligned, so they stay in one page. *)
Definition physical (a : access) (va n : Z) : M hart Z := fun h =>
  if va mod n =? 0 then match translate a va h with Some pa => Ok (pa, h) | None => Undefined end else Undefined.
Definition load_word (va : Z) : M hart Z := pa ← physical Load va 8; gets (fun h => ld64 (memory h) pa).
Definition store_word (va v : Z) : M hart unit := pa ← physical Store va 8; modify (fun h => set_memory (st64 (memory h) pa v) h).
Definition store_half (va v : Z) : M hart unit := pa ← physical Store va 4; modify (fun h => set_memory (st 4 (memory h) pa v) h).

(** * Instructions

    A label is the index of an instruction of the routine, a symbol a name the linker
    resolves. *)
Inductive instr :=
| SD (rs off base : Z) | LD (rd off base : Z) | SW (rs off base : Z)
| LI (rd imm : Z) | LA (rd : Z) (symbol : string)
| ADDI (rd rs imm : Z) | ANDI (rd rs imm : Z) | AND (rd rs rt : Z) | OR (rd rs rt : Z) | SLLI (rd rs sh : Z)
| CSRR (rd : Z) (c : csr) | CSRW (c : csr) (rs : Z) | CSRRW (rd : Z) (c : csr) (rs : Z)
| BNEZ (rs : Z) (label : nat) | BGEU (rs rt : Z) (label : nat) | J (label : nat)
| BLTZ_TO (rs : Z) (symbol : string) | BNE_TO (rs rt : Z) (symbol : string) | J_TO (symbol : string)
| CALL (symbol : string) | JR (rs : Z) | RET | ECALL | SRET | MRET | SFENCE_VMA | WFI.

(** How control leaves a routine. *)
Inductive leave :=
| To (addr : Z)                 (* an indirect jump *)
| To_symbol (symbol : string)   (* a jump to another routine *)
| Ecall (resume : nat)          (* an environment call; the next instruction *)
| Return_to (m : priv) (addr : Z) (* sret or mret *)
| Waiting (resume : nat).       (* wfi; the next instruction *)
Inductive next := Next | Jump (label : nat) | Leave (l : leave).

Definition bits (hi lo v : Z) : Z := (v / 2 ^ lo) mod 2 ^ (hi - lo + 1).
(** Replace bits [lo .. hi] of [v]. *)
Definition set_bits (hi lo x v : Z) : Z := v - bits hi lo v * 2 ^ lo + x * 2 ^ lo.
Definition priv_of (x : Z) : priv := if x =? 0 then User else if x =? 1 then Supervisor else Machine.

(** sret: privilege from SPP, SIE from SPIE, SPIE set, SPP clear. *)
Definition do_sret : M hart leave :=
  v ← get_csr MSTATUS;
  pc ← get_csr SEPC;
  let m := priv_of (bits 8 8 v) in
  put_csr MSTATUS (set_bits 8 8 0 (set_bits 5 5 1 (set_bits 1 1 (bits 5 5 v) v)));;
  modify (set_mode m);; mret (Return_to m pc).
(** mret: privilege from MPP, MIE from MPIE, MPIE set, MPP clear. *)
Definition do_mret : M hart leave :=
  v ← get_csr MSTATUS;
  pc ← get_csr MEPC;
  let m := priv_of (bits 12 11 v) in
  put_csr MSTATUS (set_bits 12 11 0 (set_bits 7 7 1 (set_bits 3 3 (bits 7 7 v) v)));;
  modify (set_mode m);; mret (Return_to m pc).

Section run.
(** The addresses of the symbols, and what the C functions called do. *)
Context (sym : string -> Z) (call : string -> M hart unit).

Definition exec (k : nat) (i : instr) : M hart next :=
  match i with
  | SD rs off base => b ← get_reg base; v ← get_reg rs; store_word (u64 (b + off)) v;; mret Next
  | LD rd off base => b ← get_reg base; v ← load_word (u64 (b + off)); put_reg rd v;; mret Next
  | SW rs off base => b ← get_reg base; v ← get_reg rs; store_half (u64 (b + off)) v;; mret Next
  | LI rd imm => put_reg rd imm;; mret Next
  | LA rd s => put_reg rd (sym s);; mret Next
  | ADDI rd rs imm => v ← get_reg rs; put_reg rd (v + imm);; mret Next
  | ANDI rd rs imm => v ← get_reg rs; put_reg rd (Z.land v imm);; mret Next
  | AND rd rs rt => v ← get_reg rs; w ← get_reg rt; put_reg rd (Z.land v w);; mret Next
  | OR rd rs rt => v ← get_reg rs; w ← get_reg rt; put_reg rd (Z.lor v w);; mret Next
  | SLLI rd rs sh => v ← get_reg rs; put_reg rd (Z.shiftl v sh);; mret Next
  | CSRR rd c => v ← get_csr c; put_reg rd v;; mret Next
  | CSRW c rs => v ← get_reg rs; put_csr c v;; mret Next
  | CSRRW rd c rs => v ← get_reg rs; o ← get_csr c; put_csr c v;; put_reg rd o;; mret Next
  | BNEZ rs l => v ← get_reg rs; mret (if v =? 0 then Next else Jump l)
  | BGEU rs rt l => v ← get_reg rs; w ← get_reg rt; mret (if w <=? v then Jump l else Next)
  | J l => mret (Jump l)
  | BLTZ_TO rs s => v ← get_reg rs; mret (if i64 v <? 0 then Leave (To_symbol s) else Next)
  | BNE_TO rs rt s => v ← get_reg rs; w ← get_reg rt; mret (if v =? w then Next else Leave (To_symbol s))
  | J_TO s => mret (Leave (To_symbol s))
  | CALL s => call s;; mret Next
  | JR rs => v ← get_reg rs; mret (Leave (To v))
  | RET => v ← get_reg ra; mret (Leave (To v))
  | ECALL => mret (Leave (Ecall (S k)))
  | SRET => l ← do_sret; mret (Leave l)
  | MRET => l ← do_mret; mret (Leave l)
  | SFENCE_VMA => mret Next
  | WFI => mret (Leave (Waiting (S k)))
  end.

(** A routine in memory: the instructions, the virtual address it is entered at, the
    physical address it lies at, and the offset of each instruction. *)
Record routine := mk_routine { code : list instr; r_va : Z; r_pa : Z; offset : nat -> Z }.

Definition fetch (r : routine) (k : nat) : M hart unit := fun h =>
  match translate Fetch (r_va r + offset r k) h with
  | Some pa => if pa =? r_pa r + offset r k then Ok (tt, h) else Undefined
  | None => Undefined
  end.

Fixpoint run (fuel : nat) (r : routine) (k : nat) : M hart leave :=
  match fuel with
  | O => out_of_fuel
  | S n =>
      match code r !! k with
      | None => undefined
      | Some i =>
          fetch r k;;
          d ← exec k i;
          match d with Next => run n r (S k) | Jump l => run n r l | Leave l => mret l end
      end
  end.
End run.

(** * Structures shared with C *)

(** [struct trapframe]: the offset of the saved register x[r]. *)
Definition TF_reg (r : Z) : Z := 40 + 8 * (r - 1).
(** [struct context]: the registers saved, in the order of the fields. *)
Definition context_regs : list Z := [1; 2; 8; 9; 18; 19; 20; 21; 22; 23; 24; 25; 26; 27].

(** * swtch.S *)
Definition swtch : list instr :=
  [SD 1 0 a0; SD 2 8 a0; SD 8 16 a0; SD 9 24 a0; SD 18 32 a0; SD 19 40 a0; SD 20 48 a0; SD 21 56 a0;
   SD 22 64 a0; SD 23 72 a0; SD 24 80 a0; SD 25 88 a0; SD 26 96 a0; SD 27 104 a0;
   LD 1 0 a1; LD 2 8 a1; LD 8 16 a1; LD 9 24 a1; LD 18 32 a1; LD 19 40 a1; LD 20 48 a1; LD 21 56 a1;
   LD 22 64 a1; LD 23 72 a1; LD 24 80 a1; LD 25 88 a1; LD 26 96 a1; LD 27 104 a1;
   RET].

(** * kernel_vec.S *)
Definition kernel_vec : list instr :=
  [ADDI sp sp (-256);
   SD 1 0 sp; SD 3 8 sp; SD 5 16 sp; SD 6 24 sp; SD 7 32 sp; SD 8 40 sp; SD 9 48 sp; SD 10 56 sp; SD 11 64 sp;
   SD 12 72 sp; SD 13 80 sp; SD 14 88 sp; SD 15 96 sp; SD 16 104 sp; SD 17 112 sp; SD 18 120 sp; SD 19 128 sp;
   SD 20 136 sp; SD 21 144 sp; SD 22 152 sp; SD 23 160 sp; SD 24 168 sp; SD 25 176 sp; SD 26 184 sp; SD 27 192 sp;
   SD 28 200 sp; SD 29 208 sp; SD 30 216 sp; SD 31 224 sp;
   CALL "kernel_trap"; CALL "kernel_trap_ret";
   LD 1 0 sp; LD 3 8 sp; LD 5 16 sp; LD 6 24 sp; LD 7 32 sp; LD 8 40 sp; LD 9 48 sp; LD 10 56 sp; LD 11 64 sp;
   LD 12 72 sp; LD 13 80 sp; LD 14 88 sp; LD 15 96 sp; LD 16 104 sp; LD 17 112 sp; LD 18 120 sp; LD 19 128 sp;
   LD 20 136 sp; LD 21 144 sp; LD 22 152 sp; LD 23 160 sp; LD 24 168 sp; LD 25 176 sp; LD 26 184 sp; LD 27 192 sp;
   LD 28 200 sp; LD 29 208 sp; LD 30 216 sp; LD 31 224 sp;
   ADDI sp sp 256; SRET].

(** * trampoline.S *)
Definition user_vec : list instr :=
  [CSRRW a0 SSCRATCH a0;
   SD 1 40 a0; SD 2 48 a0; SD 3 56 a0; SD 4 64 a0; SD 5 72 a0; SD 6 80 a0; SD 7 88 a0; SD 8 96 a0; SD 9 104 a0;
   SD 11 120 a0; SD 12 128 a0; SD 13 136 a0; SD 14 144 a0; SD 15 152 a0; SD 16 160 a0; SD 17 168 a0; SD 18 176 a0;
   SD 19 184 a0; SD 20 192 a0; SD 21 200 a0; SD 22 208 a0; SD 23 216 a0; SD 24 224 a0; SD 25 232 a0; SD 26 240 a0;
   SD 27 248 a0; SD 28 256 a0; SD 29 264 a0; SD 30 272 a0; SD 31 280 a0;
   CSRR t0 SSCRATCH; SD t0 112 a0;
   LD t0 0 a0; LD sp 8 a0; LD t1 16 a0; LD tp 24 a0;
   CSRW SATP t0; SFENCE_VMA; JR t1].

Definition user_ret : list instr :=
  [CSRW SATP a1; SFENCE_VMA; CSRW SSCRATCH a0;
   LD 1 40 a0; LD 2 48 a0; LD 3 56 a0; LD 4 64 a0; LD 5 72 a0; LD 6 80 a0; LD 7 88 a0; LD 8 96 a0; LD 9 104 a0;
   LD 11 120 a0; LD 12 128 a0; LD 13 136 a0; LD 14 144 a0; LD 15 152 a0; LD 16 160 a0; LD 17 168 a0; LD 18 176 a0;
   LD 19 184 a0; LD 20 192 a0; LD 21 200 a0; LD 22 208 a0; LD 23 216 a0; LD 24 224 a0; LD 25 232 a0; LD 26 240 a0;
   LD 27 248 a0; LD 28 256 a0; LD 29 264 a0; LD 30 272 a0; LD 31 280 a0;
   LD 10 112 a0; SRET].

(** * entry.S *)
Definition MSTATUS_MPP_MASK : Z := Z.shiftl 3 11.
Definition MSTATUS_MPP_S : Z := Z.shiftl 1 11.
Definition MEDELEG_ECALL_S : Z := Z.shiftl 1 9.
Definition PMP_NAPOT_ALL : Z := 0x3fffffffffffff.
Definition PMPCFG_TOR_RWX : Z := 0x0f.
Definition MCOUNTEREN_TM : Z := Z.shiftl 1 1.

(** The labels are [bss_clear] = 4, [bss_done] = 8, [park] = 35. *)
Definition entry : list instr :=
  [CSRR t0 MHARTID; BNEZ t0 35;
   LA t0 "_bss_start"; LA t1 "_bss_end";
   BGEU t0 t1 8; SD zero 0 t0; ADDI t0 t0 8; J 4;
   LA sp "stack_top";
   CSRR t0 MSTATUS; LI t1 (Z.lnot MSTATUS_MPP_MASK); AND t0 t0 t1; LI t1 MSTATUS_MPP_S; OR t0 t0 t1; CSRW MSTATUS t0;
   LA t0 "kmain"; CSRW MEPC t0;
   CSRW SATP zero;
   LI t0 0xffff; CSRW MIDELEG t0; ANDI t0 t0 (Z.lnot MEDELEG_ECALL_S); CSRW MEDELEG t0;
   LI t0 PMP_NAPOT_ALL; CSRW PMPADDR0 t0; LI t0 PMPCFG_TOR_RWX; CSRW PMPCFG0 t0;
   LA t0 "m_vec"; CSRW MTVEC t0;
   LI t0 1; SLLI t0 t0 63; CSRW MENVCFG t0; LI t0 MCOUNTEREN_TM; CSRW MCOUNTEREN t0;
   CSRR tp MHARTID;
   MRET;
   WFI; J 35].

(** * m_vec.S and sbi.S *)
Definition EXC_ECALL_S : Z := 9.
Definition SBI_SHUTDOWN : Z := 1.
Definition QEMU_SHUTDOWN_PASS : Z := 0x5555.
Definition m_vec : list instr :=
  [CSRR t0 MCAUSE; BLTZ_TO t0 "park"; ANDI t0 t0 0xff; LI t1 EXC_ECALL_S; BNE_TO t0 t1 "park";
   LI t0 SBI_SHUTDOWN; BNE_TO a7 t0 "park";
   LI t0 QEMU_SHUTDOWN; LI t1 QEMU_SHUTDOWN_PASS; SW t1 0 t0; J_TO "park"].
Definition sbi_shutdown : list instr := [LI a7 SBI_SHUTDOWN; ECALL; RET].
End Asm.
