(* ===== verification/AsmProof.v ===== *)
(** Runs of assembly routines: the rule of one instruction, blocks that save or load
    registers, and what a page table says about the accesses of a hart.

    The context switch, the kernel trap vector and the trampoline, run on any hart whose
    translation reaches the memory they use.

    [kernel/arch/entry.S] and [m_vec.S]: the machine-mode code, which runs without
    translation. *)
From S2P Require Import Prelude Mem Layout Kalloc Vm Asm.
Import Asm.

(** * One instruction *)
Ltac hart_steps := cbn [exec]; unfold get_reg, put_reg, get_csr, put_csr, store_word, load_word; wp_steps.

Definition fetchable (r : routine) (h : hart) : Prop :=
  forall k, (k < length (code r))%nat -> translate Fetch (r_va r + offset r k) h = Some (r_pa r + offset r k).

Section steps.
Context (sym : string -> Z) (call : string -> M hart unit).

Lemma run_step r k n i (Q : leave -> hart -> Prop) h : code r !! k = Some i ->
  translate Fetch (r_va r + offset r k) h = Some (r_pa r + offset r k) ->
  wp (exec sym call k i) (fun d h' => match d with Next => wp (run sym call n r (S k)) Q h' | Jump l => wp (run sym call n r l) Q h' | Leave l => Q l h' end) h ->
  wp (run sym call (S n) r k) Q h.
Proof.
  intros Hi Hf Hw. cbn [run]. rewrite Hi. apply wp_bind. unfold wp, fetch. rewrite Hf, Z.eqb_refl.
  apply wp_bind. eapply wp_mono; [exact Hw|]. intros [|l|l] h' H; done.
Qed.

(** Translation depends on the mode, satp and memory only. *)
Definition same_view (h h' : hart) : Prop := forall a va, translate a va h' = translate a va h.

Lemma fetchable_view r h h' : same_view h h' -> fetchable r h -> fetchable r h'.
Proof using Type. intros Hv Hf k Hk. rewrite Hv. by apply Hf. Qed.

(** Bytes of memory no access of the hart is translated with. *)
Definition passive (h : hart) (pa n : Z) : Prop := forall m', (forall x, ~ pa <= x < pa + n -> m' x = memory h x) -> same_view h (set_memory m' h).

Lemma passive_step h pa n m' : passive h pa n -> (forall x, ~ pa <= x < pa + n -> m' x = memory h x) -> passive (set_memory m' h) pa n.
Proof using Type.
  intros Hp Hm m2 H2 a va. change (set_memory m2 (set_memory m' h)) with (set_memory m2 h). rewrite (Hp m' Hm). apply Hp. intros x Hx. rewrite (H2 x Hx). by apply Hm.
Qed.

Lemma passive_regs h pa n f : passive h pa n -> passive (set_regs f h) pa n.
Proof using Type. intros Hp m' Hm a va. exact (Hp m' Hm a va). Qed.

(** ** Accesses to a mapped range *)
Definition maps (a : access) (h : hart) (va pa n : Z) : Prop :=
  0 <= va /\ va + n <= 2 ^ 64 /\ va mod 8 = 0 /\ forall x, 0 <= x < n -> translate a (va + x) h = Some (pa + x).

Lemma maps_view a h h' va pa n : same_view h h' -> maps a h va pa n -> maps a h' va pa n.
Proof using Type. intros Hv (H0 & H1 & H2 & Ht). split_and!; try done. intros x Hx. rewrite Hv. by apply Ht. Qed.

Definition slot (n off : Z) : Prop := 0 <= off /\ off mod 8 = 0 /\ off + 8 <= n.

Lemma physical_ok a va pa n off h (Q : Z -> hart -> Prop) : maps a h va pa n -> slot n off -> Q (pa + off) h -> wp (physical a (u64 (va + off)) 8) Q h.
Proof using Type.
  intros (H0 & H1 & H2 & Ht) (Hs0 & Hs1 & Hs2) HQ. unfold wp, physical. rewrite u64_small by lia.
  replace ((va + off) mod 8 =? 0) with true by (symmetry; apply Z.eqb_eq; mlia). by rewrite Ht by lia.
Qed.

(** * Saving registers *)
Definition saves (m : mem) (pa : Z) (f : Z -> Z) (l : list (Z * Z)) : mem := foldl (fun m p => st64 m (pa + p.2) (f p.1)) m l.

Lemma saves_out n pa f l m x : Forall (fun p => slot n p.2) l -> ~ pa <= x < pa + n -> saves m pa f l x = m x.
Proof using Type.
  intros Hl Hx. revert m. induction Hl as [|p l (? & ? & ?) Hl IH]; intros m; [done|]. cbn [saves foldl]. unfold saves in IH. rewrite IH. apply st64_out. lia.
Qed.

Lemma saves_ne pa f l m off : off mod 8 = 0 -> Forall (fun p => p.2 mod 8 = 0 /\ p.2 <> off) l -> ld64 (saves m pa f l) (pa + off) = ld64 m (pa + off).
Proof using Type.
  intros Ho Hl. revert m. induction Hl as [|p l [Ha Hn] Hl IH]; intros m; [done|]. cbn [saves foldl]. unfold saves in IH. rewrite IH. apply ld64_st64_ne. mlia.
Qed.

Lemma saves_at pa f l m r off : NoDup l.*2 -> Forall (fun p => p.2 mod 8 = 0) l -> (r, off) ∈ l -> 0 <= f r < 2 ^ 64 -> ld64 (saves m pa f l) (pa + off) = f r.
Proof using Type.
  revert m. induction l as [|[r' o'] l IH]; intros m Hnd Ha Hin Hr; [by apply elem_of_nil in Hin|]. cbn in Hnd. apply NoDup_cons in Hnd as [Hn Hnd]. apply Forall_cons in Ha as [Ha1 Ha]. cbn in Ha1.
  apply elem_of_cons in Hin as [[= -> ->]|Hin]; [|by apply IH].
  cbn [saves foldl fst snd]. fold (saves (st64 m (pa + o') (f r')) pa f l). rewrite saves_ne; [by apply ld64_st64_eq|done|].
  apply Forall_forall. intros p Hp. rewrite Forall_forall in Ha. split; [by apply Ha|]. intros <-. apply Hn. by apply list_elem_of_fmap_2.
Qed.

Definition sds (base : Z) (l : list (Z * Z)) : list instr := map (fun p => SD p.1 p.2 base) l.

Lemma run_saves r base pa n fuel (Q : leave -> hart -> Prop) l : forall k h rest, drop k (code r) = sds base l ++ rest -> Forall (fun p => slot n p.2) l ->
  fetchable r h -> maps Store h (reg h base) pa n -> passive h pa n ->
  (fetchable r (set_memory (saves (memory h) pa (reg h) l) h) -> same_view h (set_memory (saves (memory h) pa (reg h) l) h) ->
    wp (run sym call fuel r (k + length l)) Q (set_memory (saves (memory h) pa (reg h) l) h)) ->
  wp (run sym call (length l + fuel) r k) Q h.
Proof.
  induction l as [|[rs off] l IH]; intros k h rest Hc Hl Hf Hm Hp HQ.
  { cbn [saves foldl] in HQ. replace (k + length [])%nat with k in HQ by (cbn; lia). destruct h. apply HQ; [done|by intros ? ?]. }
  apply Forall_cons in Hl as [Hs Hl]. cbn in Hs.
  assert (code r !! k = Some (SD rs off base)) as Hk by (rewrite <- (Nat.add_0_r k), <- lookup_drop, Hc; done).
  set (h1 := set_memory (st64 (memory h) (pa + off) (reg h rs)) h).
  assert (forall x, ~ pa <= x < pa + n -> st64 (memory h) (pa + off) (reg h rs) x = memory h x) as Hout by (intros x Hx; apply st64_out; destruct Hs as (? & ? & ?); lia).
  assert (same_view h h1) as Hv by (by apply Hp).
  eapply run_step; [exact Hk|apply Hf; by eapply lookup_lt_Some|].
  hart_steps. eapply physical_ok; [exact Hm|exact Hs|]. wp_steps. fold h1.
  apply (IH (S k) h1 rest); [|done|by eapply fetchable_view|by eapply maps_view|by apply passive_step|].
  - change (S k) with (1 + k)%nat. rewrite (Nat.add_comm 1 k), <- drop_drop, Hc. done.
  - intros Hf' Hv'. replace (S k + length l)%nat with (k + length ((rs, off) :: l))%nat by (cbn; lia). apply HQ; [exact Hf'|]. intros a va. rewrite <- Hv. exact (Hv' a va).
Qed.

(** * Loading registers *)
Definition loads (m : mem) (pa : Z) (f : Z -> Z) (l : list (Z * Z)) : Z -> Z := foldl (fun f p => upd_reg f p.1 (ld64 m (pa + p.2))) f l.

Lemma loads_out m pa l f x : x ∉ l.*1 -> loads m pa f l x = f x.
Proof using Type.
  revert f. induction l as [|p l IH]; intros f Hx; [done|]. cbn in Hx. apply not_elem_of_cons in Hx as [Hx1 Hx]. cbn [loads foldl]. unfold loads in IH. rewrite IH by done.
  unfold upd_reg. by destruct (Z.eqb_spec x p.1).
Qed.

Lemma loads_at m pa l f r off : NoDup l.*1 -> (r, off) ∈ l -> loads m pa f l r = ld64 m (pa + off).
Proof using Type.
  revert f. induction l as [|[r' o'] l IH]; intros f Hnd Hin; [by apply elem_of_nil in Hin|]. cbn in Hnd. apply NoDup_cons in Hnd as [Hn Hnd].
  cbn [loads foldl fst snd]. fold (loads m pa (upd_reg f r' (ld64 m (pa + o'))) l).
  apply elem_of_cons in Hin as [[= -> ->]|Hin]; [|by apply IH]. rewrite loads_out by done. unfold upd_reg. by rewrite Z.eqb_refl.
Qed.

Definition lds (base : Z) (l : list (Z * Z)) : list instr := map (fun p => LD p.1 p.2 base) l.

Lemma run_loads r base pa n fuel (Q : leave -> hart -> Prop) l : forall k h rest, drop k (code r) = lds base l ++ rest -> Forall (fun p => slot n p.2) l ->
  base ∉ l.*1 -> fetchable r h -> maps Load h (reg h base) pa n ->
  wp (run sym call fuel r (k + length l)) Q (set_regs (loads (memory h) pa (regs h) l) h) ->
  wp (run sym call (length l + fuel) r k) Q h.
Proof.
  induction l as [|[rd off] l IH]; intros k h rest Hc Hl Hb Hf Hm HQ.
  { cbn [loads foldl] in HQ. replace (k + length [])%nat with k in HQ by (cbn; lia). by destruct h. }
  apply Forall_cons in Hl as [Hs Hl]. cbn in Hs, Hb. apply not_elem_of_cons in Hb as [Hb1 Hb].
  assert (code r !! k = Some (LD rd off base)) as Hk by (rewrite <- (Nat.add_0_r k), <- lookup_drop, Hc; done).
  eapply run_step; [exact Hk|apply Hf; by eapply lookup_lt_Some|].
  hart_steps. eapply physical_ok; [exact Hm|exact Hs|]. wp_steps.
  rewrite (u64_small (ld64 _ _)) by apply ld64_range.
  set (h1 := set_regs (upd_reg (regs h) rd (ld64 (memory h) (pa + off))) h).
  assert (reg h1 base = reg h base) as Hrb by (unfold reg, h1, upd_reg; cbn; destruct (base =? 0); [done|]; by destruct (Z.eqb_spec base rd)).
  apply (IH (S k) h1 rest); [|done|done|by intros ? ?; apply Hf| |].
  - change (S k) with (1 + k)%nat. rewrite (Nat.add_comm 1 k), <- drop_drop, Hc. done.
  - rewrite Hrb. exact Hm.
  - replace (S k + length l)%nat with (k + length ((rd, off) :: l))%nat by (cbn; lia). exact HQ.
Qed.
End steps.

(** * Context switch and trap vectors *)

(** Registers hold 64-bit values. *)
Definition regs_ok (h : hart) : Prop := forall x, 0 <= regs h x < 2 ^ 64.

Lemma reg_pos h x : x <> 0 -> reg h x = regs h x.
Proof. intros. unfold reg. by destruct (Z.eqb_spec x 0). Qed.

(** The slots of the saved registers. *)
Definition ctx_slots : list (Z * Z) := zip context_regs [0; 8; 16; 24; 32; 40; 48; 56; 64; 72; 80; 88; 96; 104].
Definition kv_regs : list Z := [1; 3; 5; 6; 7; 8; 9; 10; 11; 12; 13; 14; 15; 16; 17; 18; 19; 20; 21; 22; 23; 24; 25; 26; 27; 28; 29; 30; 31].
Definition kv_slots : list (Z * Z) := zip kv_regs ((fun i => 8 * Z.of_nat i) <$> seq 0 29).
Definition tf_regs : list Z := [1; 2; 3; 4; 5; 6; 7; 8; 9; 11; 12; 13; 14; 15; 16; 17; 18; 19; 20; 21; 22; 23; 24; 25; 26; 27; 28; 29; 30; 31].
Definition tf_slots : list (Z * Z) := (fun r => (r, TF_reg r)) <$> tf_regs.

(** Facts on these lists are decided by computation. *)
Definition slotb (n off : Z) : bool := (0 <=? off) && (off mod 8 =? 0) && (off + 8 <=? n).
Lemma slots_ok n (l : list (Z * Z)) : forallb (fun p => slotb n p.2) l = true -> Forall (fun p => slot n p.2) l.
Proof.
  intros H. apply Forall_forall. intros p Hp. assert (slotb n p.2 = true) as Hs by (apply forallb_forall with (x := p) in H; [done|by apply list_elem_of_In]).
  unfold slotb in Hs. unfold slot. lia.
Qed.
Lemma slots_aligned n (l : list (Z * Z)) : forallb (fun p => slotb n p.2) l = true -> Forall (fun p => p.2 mod 8 = 0) l.
Proof. intros H%slots_ok. eapply Forall_impl; [exact H|]. by intros p (_ & ? & _). Qed.
Ltac nodup := apply (bool_decide_unpack _); vm_compute; exact I.

Lemma ctx_slot x off : (x, off) ∈ ctx_slots -> x <> 0 /\ slot 112 off.
Proof.
  intros Hx. split; [|exact (proj1 (Forall_forall _ _) (slots_ok 112 ctx_slots eq_refl) (x, off) Hx)].
  assert (forallb (fun p => negb (p.1 =? 0)) ctx_slots = true) as Hz by reflexivity. apply list_elem_of_In in Hx.
  apply (proj1 (forallb_forall _ _) Hz (x, off)) in Hx. cbn in Hx. lia.
Qed.

Section vectors.
Context (sym : string -> Z) (call : string -> M hart unit).

(** * swtch *)
Lemma swtch_spec r h po pn : code r = swtch -> fetchable r h -> regs_ok h ->
  maps Store h (reg h a0) po 112 -> maps Load h (reg h a1) pn 112 -> passive h po 112 -> po + 112 <= pn \/ pn + 112 <= po ->
  wp (run sym call 29 r 0) (fun l h' =>
    l = To (ld64 (memory h) pn) /\ csrs h' = csrs h /\ mode h' = mode h /\
    (forall x off, (x, off) ∈ ctx_slots -> regs h' x = ld64 (memory h) (pn + off) /\ ld64 (memory h') (po + off) = regs h x) /\
    (forall x, x ∉ context_regs -> regs h' x = regs h x) /\
    (forall x, ~ po <= x < po + 112 -> memory h' x = memory h x)) h.
Proof.
  intros Hc Hf Hr Hmo Hmn Hp Hd.
  assert (forallb (fun p => slotb 112 p.2) ctx_slots = true) as Hsl by reflexivity.
  apply (run_saves sym call r a0 po 112 15 _ ctx_slots 0 h (lds a1 ctx_slots ++ [RET])); [by rewrite Hc|by apply slots_ok|done..|].
  intros Hf1 Hv1. set (h1 := set_memory (saves (memory h) po (reg h) ctx_slots) h) in *.
  apply (run_loads sym call r a1 pn 112 1 _ ctx_slots 14 h1 [RET]); [by rewrite Hc|by apply slots_ok|by apply (bool_decide_unpack _); vm_compute|done|by eapply maps_view|].
  eapply run_step; [by rewrite Hc|apply Hf1; rewrite Hc; cbn; lia|].
  assert (forall off, slot 112 off -> ld64 (memory h1) (pn + off) = ld64 (memory h) (pn + off)) as Hn.
  { intros off (? & ? & ?). apply ld64_ext. intros x Hx. apply (saves_out 112); [by apply slots_ok|lia]. }
  hart_steps. split_and!; try done.
  - rewrite reg_pos by done. cbn [regs set_regs]. erewrite loads_at; [|nodup|by left]. f_equal. rewrite Hn; [by rewrite Z.add_0_r|by split_and!].
  - intros x off Hx. destruct (ctx_slot x off Hx) as [Hx0 Hs]. cbn [regs memory set_regs]. erewrite loads_at; [|nodup|done]. split; [by apply Hn|].
    unfold h1. cbn [memory set_memory]. erewrite saves_at; [by apply reg_pos|nodup|by apply (slots_aligned 112)|done|]. rewrite reg_pos by done. apply Hr.
  - intros x Hx. cbn [regs set_regs]. by rewrite loads_out.
  - intros x Hx. cbn [memory set_regs]. apply (saves_out 112); [by apply slots_ok|done].
Qed.

(** * kernel_vec

    What compiled C code keeps when it is called with stack pointer [spv]: the stack
    pointer, the thread pointer, the frames above it and the translation. *)
Definition abides (spv pa n : Z) (f : M hart unit) : Prop := forall h, reg h sp = spv ->
  wp f (fun _ h' => reg h' sp = reg h sp /\ reg h' tp = reg h tp /\ same_view h h' /\ forall x, pa <= x < pa + n -> memory h' x = memory h x) h.

Lemma kernel_vec_spec r h pa : code r = kernel_vec -> fetchable r h -> regs_ok h -> 256 <= reg h sp ->
  maps Store h (reg h sp - 256) pa 232 -> maps Load h (reg h sp - 256) pa 232 -> passive h pa 232 ->
  abides (reg h sp - 256) pa 232 (call "kernel_trap") -> abides (reg h sp - 256) pa 232 (call "kernel_trap_ret") ->
  wp (run sym call 63 r 0) (fun l h' => l = Return_to (mode h') (csrs h' SEPC) /\ forall x, 1 <= x <= 31 -> regs h' x = regs h x) h.
Proof.
  intros Hc Hf Hr Hsp Hms Hml Hp Hk1 Hk2.
  assert (forallb (fun p => slotb 232 p.2) kv_slots = true) as Hsl by reflexivity.
  eapply run_step; [by rewrite Hc|apply Hf; rewrite Hc; cbn; lia|]. hart_steps.
  set (h1 := set_regs _ h). assert (reg h1 sp = reg h sp - 256) as Hsp1.
  { unfold h1. rewrite (reg_pos _ sp) by done. cbn [regs set_regs]. unfold upd_reg. rewrite Z.eqb_refl. change (reg h sp + -256) with (reg h sp - 256).
    apply u64_small. rewrite reg_pos in * by done. pose proof (Hr sp). lia. }
  assert (forall x, x <> 0 -> x <> sp -> reg h1 x = regs h x) as Hreg1.
  { intros x Hx Hx2. unfold h1. rewrite reg_pos by done. cbn [regs set_regs]. unfold upd_reg. by destruct (Z.eqb_spec x sp). }
  apply (run_saves sym call r sp pa 232 33 _ kv_slots 1 h1 (CALL "kernel_trap" :: CALL "kernel_trap_ret" :: lds sp kv_slots ++ [ADDI sp sp 256; SRET]));
    [by rewrite Hc|by apply slots_ok|done|by rewrite Hsp1|by apply passive_regs|].
  intros Hf2 Hv2. set (h2 := set_memory _ h1) in *.
  assert (reg h2 sp = reg h sp - 256) as Hsp2 by exact Hsp1.
  eapply run_step; [by rewrite Hc|apply Hf2; rewrite Hc; cbn; lia|]. cbn [exec]. wp_steps.
  eapply wp_mono; [by apply Hk1|]. intros [] h3 (Hs3 & Ht3 & Hv3 & Hm3). wp_steps.
  eapply run_step; [by rewrite Hc|apply (fetchable_view _ _ _ Hv3 Hf2); rewrite Hc; cbn; lia|]. cbn [exec]. wp_steps.
  eapply wp_mono; [apply Hk2; by rewrite Hs3|]. intros [] h4 (Hs4 & Ht4 & Hv4 & Hm4). wp_steps.
  assert (fetchable r h4) as Hf4 by (eapply fetchable_view; [exact Hv4|by eapply fetchable_view]).
  assert (reg h4 sp = reg h sp - 256) as Hsp4 by (by rewrite Hs4, Hs3).
  apply (run_loads sym call r sp pa 232 2 _ kv_slots 32 h4 [ADDI sp sp 256; SRET]); [by rewrite Hc|by apply slots_ok|by apply (bool_decide_unpack _); vm_compute|done| |].
  { rewrite Hsp4. apply (maps_view _ h3); [done|]. apply (maps_view _ h2); [done|]. by apply (maps_view _ h1). }
  set (h5 := set_regs _ h4).
  eapply run_step; [by rewrite Hc|apply Hf4; rewrite Hc; cbn; lia|]. hart_steps.
  eapply run_step; [by rewrite Hc|apply Hf4; rewrite Hc; cbn; lia|]. cbn [exec]. unfold do_sret. hart_steps.
  split; [done|]. intros x Hx. cbn [regs set_mode set_csrs set_regs]. unfold upd_reg at 1.
  assert (sp ∉ kv_slots.*1) as Hns by (by apply (bool_decide_unpack _); vm_compute).
  assert (reg h5 sp = reg h sp - 256) as Hsp5 by (rewrite <- Hsp4, !reg_pos by done; unfold h5; cbn [regs set_regs]; by apply loads_out).
  destruct (Z.eqb_spec x sp) as [->|Hxs]; [|destruct (Z.eqb_spec x tp) as [->|Hxt]].
  - rewrite Hsp5. rewrite reg_pos by done. rewrite u64_small; [lia|]. pose proof (Hr sp). lia.
  - unfold h5. cbn [regs set_regs]. rewrite loads_out by (by apply (bool_decide_unpack _); vm_compute). rewrite <- reg_pos by done. rewrite Ht4, Ht3. by apply Hreg1.
  - assert (exists off, (x, off) ∈ kv_slots) as [off Hin].
    { assert (x ∈ kv_slots.*1) as Hin by (change (kv_slots.*1) with kv_regs; unfold sp, tp in *; apply list_elem_of_In; cbn; lia).
      apply list_elem_of_fmap in Hin as ([x' off] & -> & Hin). by exists off. }
    unfold h5. cbn [regs set_regs]. erewrite loads_at; [|nodup|done].
    assert (slot 232 off) as (Ho1 & Ho2 & Ho3) by (by apply (proj1 (Forall_forall _ _) (slots_ok 232 kv_slots Hsl) (x, off))).
    rewrite (ld64_ext (memory h2)); [|intros y Hy; rewrite Hm4, Hm3 by lia; done].
    unfold h2. cbn [memory set_memory]. erewrite saves_at; [apply Hreg1; lia|nodup|by apply (slots_aligned 232)|done|]. rewrite Hreg1 by lia. apply Hr.
Qed.

Lemma fetchable_regs r h f : fetchable r h -> fetchable r (set_regs f h).
Proof using Type. intros H k Hk. exact (H k Hk). Qed.

(** * The trampoline

    [after m'] is the hart once satp holds [satp], with memory [m']. *)
Definition after (h : hart) (satp : Z) (m' : mem) : hart := set_memory m' (set_csrs (upd_csr (csrs h) SATP satp) h).

Lemma tf_slot x : 1 <= x <= 31 -> x <> a0 -> (x, TF_reg x) ∈ tf_slots.
Proof using Type. intros Hx Hn. unfold tf_slots. apply (list_elem_of_fmap_2 (fun r => (r, TF_reg r))). unfold a0 in Hn. apply list_elem_of_In. cbn. lia. Qed.

Lemma tf_out pa f m x : ~ pa + 40 <= x < pa + 288 -> saves m pa f tf_slots x = m x.
Proof using Type.
  intros Hx. assert (saves m pa f tf_slots = saves m (pa + 40) f ((fun p => (p.1, p.2 - 40)) <$> tf_slots)) as ->.
  { unfold saves. cbn -[st64 Z.add]. by rewrite <- !Z.add_assoc. }
  apply (saves_out 248); [by apply slots_ok|lia].
Qed.

Lemma user_vec_spec r h pa : code r = user_vec -> regs_ok h -> 0 <= csrs h SSCRATCH < 2 ^ 64 ->
  fetchable r h -> maps Store h (csrs h SSCRATCH) pa 288 -> maps Load h (csrs h SSCRATCH) pa 288 -> passive h pa 288 ->
  (forall m', (forall x, ~ pa <= x < pa + 288 -> m' x = memory h x) -> fetchable r (after h (ld64 (memory h) pa) m')) ->
  wp (run sym call 40 r 0) (fun l h' =>
    l = To (ld64 (memory h) (pa + 16)) /\ mode h' = mode h /\
    csrs h' SATP = ld64 (memory h) pa /\ (forall c, c <> SATP -> c <> SSCRATCH -> csrs h' c = csrs h c) /\
    regs h' sp = ld64 (memory h) (pa + 8) /\ regs h' tp = ld64 (memory h) (pa + 24) /\
    (forall x, 1 <= x <= 31 -> ld64 (memory h') (pa + TF_reg x) = regs h x) /\
    (forall x, ~ pa + 40 <= x < pa + 288 -> memory h' x = memory h x)) h.
Proof.
  intros Hc Hr Hss Hf Hms Hml Hp Hk.
  assert (forallb (fun p => slotb 288 p.2) tf_slots = true) as Hsl by reflexivity.
  eapply run_step; [by rewrite Hc|apply Hf; rewrite Hc; cbn; lia|]. hart_steps. rewrite (u64_small (csrs h SSCRATCH)) by done.
  set (h1 := set_regs _ _). assert (reg h1 a0 = csrs h SSCRATCH) as Ha1 by reflexivity.
  assert (forall x, x <> 0 -> x <> a0 -> reg h1 x = regs h x) as Hreg1.
  { intros x Hx Hx2. rewrite reg_pos by done. cbn. unfold upd_reg. by destruct (Z.eqb_spec x a0). }
  assert (same_view h h1) as Hv1 by (intros ? ?; reflexivity).
  assert (passive h1 pa 288) as Hp1 by (intros m' Hm a va; exact (Hp m' Hm a va)).
  apply (run_saves sym call r a0 pa 288 9 _ tf_slots 1 h1 ([CSRR t0 SSCRATCH] ++ sds a0 [(t0, 112)] ++ lds a0 [(t0, 0); (sp, 8); (t1, 16); (tp, 24)] ++ [CSRW SATP t0; SFENCE_VMA; JR t1]));
    [by rewrite Hc|by apply slots_ok|by eapply fetchable_view|by rewrite Ha1|done|].
  intros Hf2 Hv2. set (m2 := saves (memory h1) pa (reg h1) tf_slots) in *.
  assert (forall x, ~ pa + 40 <= x < pa + 288 -> m2 x = memory h x) as Hm2 by (intros; by apply tf_out).
  eapply run_step; [by rewrite Hc|apply Hf2; rewrite Hc; cbn; lia|]. hart_steps.
  replace (u64 (csrs (set_memory m2 h1) SSCRATCH)) with (regs h a0) by (cbn; symmetry; apply u64_small, Hr).
  set (h3 := set_regs _ _). assert (passive h3 pa 288) as Hp3.
  { apply passive_regs, passive_step; [done|]. intros x Hx. apply Hm2. lia. }
  apply (run_saves sym call r a0 pa 288 7 _ [(t0, 112)] 32 h3 (lds a0 [(t0, 0); (sp, 8); (t1, 16); (tp, 24)] ++ [CSRW SATP t0; SFENCE_VMA; JR t1]));
    [by rewrite Hc|by apply slots_ok|done| |done|].
  { change (reg h3 a0) with (csrs h SSCRATCH). intros. by apply (maps_view _ h1). }
  intros Hf4 Hv4. change (saves (memory h3) pa (reg h3) [(t0, 112)]) with (st64 m2 (pa + 112) (regs h a0)) in *.
  set (m4 := st64 m2 (pa + 112) (regs h a0)) in *.
  assert (forall x, ~ pa + 40 <= x < pa + 288 -> m4 x = memory h x) as Hm4.
  { intros x Hx. unfold m4. rewrite st64_out by lia. by apply Hm2. }
  apply (run_loads sym call r a0 pa 288 3 _ [(t0, 0); (sp, 8); (t1, 16); (tp, 24)] 33 (set_memory m4 h3) [CSRW SATP t0; SFENCE_VMA; JR t1]);
    [by rewrite Hc|by apply slots_ok|by apply (bool_decide_unpack _); vm_compute|done| |].
  { change (reg (set_memory m4 h3) a0) with (csrs h SSCRATCH). apply (maps_view _ h3); [done|]. by apply (maps_view _ h1). }
  assert (forall off, 0 <= off < 32 -> ld64 m4 (pa + off) = ld64 (memory h) (pa + off)) as Hld by (intros off Hoff; apply ld64_ext; intros x Hx; apply Hm4; lia).
  cbn [memory set_memory]. cbn [loads foldl fst snd]. rewrite !Hld, Z.add_0_r by lia.
  assert (forall x, 1 <= x <= 31 -> ld64 m4 (pa + TF_reg x) = regs h x) as Hsv.
  { intros x Hx. unfold m4. destruct (Z.eq_dec x a0) as [->|Hxa]; [apply ld64_st64_eq, Hr|].
    rewrite ld64_st64_ne by (unfold TF_reg, a0 in *; lia). unfold m2. erewrite saves_at; [apply Hreg1; lia|nodup|by apply (slots_aligned 288)|by apply tf_slot|]. rewrite Hreg1 by lia. apply Hr. }
  clearbody m4. set (f4 := upd_reg _ tp _). apply (fetchable_regs _ _ f4) in Hf4. set (h4 := set_regs f4 _) in *.
  eapply run_step; [by rewrite Hc|apply Hf4; rewrite Hc; cbn; lia|]. hart_steps.
  change (reg h4 t0) with (ld64 (memory h) pa).
  set (h5 := set_csrs _ h4). assert (fetchable r h5) as Hf5.
  { apply (fetchable_view _ (after h (ld64 (memory h) pa) m4)); [intros ? ?; reflexivity|]. apply Hk. intros x Hx. apply Hm4. lia. }
  do 2 (eapply run_step; [by rewrite Hc|apply Hf5; rewrite Hc; cbn; lia|]; hart_steps).
  split_and!; try done.
  intros c Hc1 Hc2. cbn. unfold upd_csr. by rewrite !decide_False.
Qed.

Lemma user_ret_spec r h pa : code r = user_ret -> regs_ok h -> fetchable r h ->
  fetchable r (after h (reg h a1) (memory h)) -> maps Load (after h (reg h a1) (memory h)) (reg h a0) pa 288 ->
  wp (run sym call 35 r 0) (fun l h' =>
    l = Return_to (mode h') (csrs h SEPC) /\ mode h' = priv_of (bits 8 8 (csrs h MSTATUS)) /\
    csrs h' SATP = reg h a1 /\ csrs h' SSCRATCH = reg h a0 /\ memory h' = memory h /\
    forall x, 1 <= x <= 31 -> regs h' x = ld64 (memory h) (pa + TF_reg x)) h.
Proof.
  intros Hc Hr Hf Hfu Hm.
  eapply run_step; [by rewrite Hc|apply Hf; rewrite Hc; cbn; lia|]. hart_steps.
  set (h1 := set_csrs _ h). assert (fetchable r h1) as Hf1 by exact Hfu.
  do 2 (eapply run_step; [by rewrite Hc|apply Hf1; rewrite Hc; cbn; lia|]; hart_steps).
  set (h2 := set_csrs _ h1).
  apply (run_loads sym call r a0 pa 288 2 _ tf_slots 3 h2 (lds a0 [(a0, 112)] ++ [SRET])); [by rewrite Hc|by apply slots_ok|by apply (bool_decide_unpack _); vm_compute|exact Hfu|exact Hm|].
  set (h3 := set_regs _ h2). assert (reg h3 a0 = reg h a0) as Ha3.
  { rewrite !reg_pos by done. unfold h3. cbn [regs set_regs]. by rewrite loads_out by (by apply (bool_decide_unpack _); vm_compute). }
  eapply run_step; [by rewrite Hc|apply Hfu; rewrite Hc; cbn; lia|]. hart_steps. rewrite Ha3.
  eapply physical_ok; [exact Hm|by split_and!|]. wp_steps. rewrite (u64_small (ld64 _ _)) by apply ld64_range.
  eapply run_step; [by rewrite Hc|apply Hfu; rewrite Hc; cbn; lia|]. cbn [exec]. unfold do_sret. hart_steps.
  split_and!; try done. intros x Hx. cbn [regs set_mode set_csrs set_regs]. unfold upd_reg.
  destruct (Z.eqb_spec x 10) as [->|Hxa]; [done|]. unfold h3. cbn [regs set_regs]. rewrite (loads_at _ _ _ _ _ (TF_reg x)); [reflexivity|nodup|by apply tf_slot].
Qed.
End vectors.

(** * Machine mode *)

Lemma translate_machine a va h : mode h = Machine -> translate a va h = Some va.
Proof. intros Hm. unfold translate. by rewrite decide_True. Qed.

Lemma bits_2 w k : 0 <= k -> Z.testbit w k = true -> Z.testbit w (k + 1) = false -> bits (k + 1) k w = 1.
Proof.
  intros Hk H1 H2. pose proof (Z.testbit_spec' w k Hk) as E1. pose proof (Z.testbit_spec' w (k + 1) ltac:(lia)) as E2. rewrite H1 in E1. rewrite H2 in E2. cbn in E1, E2.
  unfold bits. replace (k + 1 - k + 1) with 2 by lia. change (2 ^ 2) with 4. rewrite Z.pow_add_r, <- Z.div_div in E2 by lia. change (2 ^ 1) with 2 in E2. mlia.
Qed.

Lemma u64_testbit x k : 0 <= k < 64 -> Z.testbit (u64 x) k = Z.testbit x k.
Proof. intros. unfold u64. by rewrite Z.mod_pow2_bits_low by lia. Qed.

Lemma mpp_supervisor v : bits 12 11 (u64 (Z.lor (u64 (Z.land v (u64 (Z.lnot MSTATUS_MPP_MASK)))) (u64 MSTATUS_MPP_S))) = 1.
Proof. apply (bits_2 _ 11); [lia|..]; rewrite u64_testbit, Z.lor_spec, !u64_testbit, Z.land_spec by lia; [apply orb_true_r|]. by rewrite andb_comm. Qed.

Section boot.
Context (sym : string -> Z) (call : string -> M hart unit).
Context (r : routine) (Hflat : r_va r = r_pa r).

Lemma mstep k n i (Q : leave -> hart -> Prop) h : code r !! k = Some i -> mode h = Machine ->
  wp (exec sym call k i) (fun d h' => match d with Next => wp (run sym call n r (S k)) Q h' | Jump l => wp (run sym call n r l) Q h' | Leave l => Q l h' end) h ->
  wp (run sym call (S n) r k) Q h.
Proof using Hflat. intros Hi Hm Hw. eapply run_step; [done|by rewrite translate_machine, Hflat by done|done]. Qed.

(** ** The BSS loop *)
Definition zeroed (m : mem) (b n : Z) : mem := fun x => if in_range x b n then 0 else m x.

Lemma zeroed_snoc m b i x : 0 <= i -> st64 (zeroed m b (8 * i)) (b + 8 * i) 0 x = zeroed m b (8 * (i + 1)) x.
Proof using Type. intros. unfold st64, st, zeroed. rewrite Z.shiftr_0_l. change (Z.of_nat 8) with 8. range_cases; (done || lia). Qed.

(** Register x[r] holds [v]. *)
Definition holds (x v : Z) (h : hart) : Prop := regs h x = v.

Lemma bss_loop b e fuel (Q : leave -> hart -> Prop) m0 c0 : code r = entry -> 0 <= b <= e -> e + 8 <= 2 ^ 64 -> b mod 8 = 0 -> forall n i h,
  e <= b + 8 * (i + Z.of_nat n) < e + 8 -> 0 <= i -> mode h = Machine -> csrs h = c0 -> holds t0 (b + 8 * i) h -> holds t1 e h ->
  (forall x, memory h x = zeroed m0 b (8 * i) x) ->
  (forall h', mode h' = Machine -> csrs h' = c0 -> (forall x, memory h' x = zeroed m0 b (8 * (i + Z.of_nat n)) x) -> wp (run sym call fuel r 8) Q h') ->
  wp (run sym call (4 * n + S fuel) r 4) Q h.
Proof using Hflat.
  intros Hc Hbe He Hb n. induction n as [|n IH]; intros i h Hn Hi Hm Hcs Ht0 Ht1 Hmem HQ.
  - apply (mstep 4 fuel (BGEU t0 t1 8)); [by rewrite Hc|done|]. hart_steps. rewrite !reg_pos by done. rewrite Ht0, Ht1.
    replace (e <=? b + 8 * i) with true by lia. apply (HQ h); try done. by replace (i + Z.of_nat 0) with i by lia.
  - replace (4 * S n + S fuel)%nat with (S (S (S (S (4 * n + S fuel)))))%nat by lia.
    apply (mstep 4 _ (BGEU t0 t1 8)); [by rewrite Hc|done|]. hart_steps. rewrite !reg_pos by done. rewrite Ht0, Ht1.
    replace (e <=? b + 8 * i) with false by lia.
    apply (mstep 5 _ (SD zero 0 t0)); [by rewrite Hc|done|]. hart_steps.
    apply (physical_ok Store (reg h t0) (reg h t0) 8 0); [|by split_and!|].
    { rewrite reg_pos, Ht0 by done. split_and!; [lia|lia|mlia|]. intros x _. by rewrite translate_machine. }
    wp_steps. rewrite reg_pos, Ht0, Z.add_0_r by done. change (reg h zero) with 0.
    apply (mstep 6 _ (ADDI t0 t0 8)); [by rewrite Hc|done|]. hart_steps.
    apply (mstep 7 _ (J 4)); [by rewrite Hc|done|]. hart_steps.
    apply (IH (i + 1)); try done; [lia|lia| | |].
    + unfold holds. cbn [regs set_regs]. unfold upd_reg. rewrite Z.eqb_refl, reg_pos by done. cbn [regs set_memory]. rewrite Ht0. rewrite u64_small; lia.
    + intros x. cbn [memory set_regs set_memory]. rewrite <- zeroed_snoc by done. unfold st64, st. by rewrite Hmem.
    + intros h' Hm' Hc' Hmm. apply HQ; [done|done|]. by replace (i + Z.of_nat (S n)) with (i + 1 + Z.of_nat n) by lia.
Qed.

(** Symbols are addresses. *)
Context (Hsym : forall s, 0 <= sym s < 2 ^ 64).

(** What the hart looks like when it enters kmain. *)
Record at_kmain (l : leave) (h : hart) : Prop := {
  ak_leave : l = Return_to Supervisor (sym "kmain");
  ak_mode : mode h = Supervisor;
  ak_stack : regs h sp = sym "stack_top";
  ak_hart : regs h tp = 0;
  ak_paging : csrs h SATP = 0;
  ak_interrupts : csrs h MIDELEG = 0xffff;
  ak_exceptions : csrs h MEDELEG = 0xfdff;
  ak_pmp : csrs h PMPADDR0 = PMP_NAPOT_ALL /\ csrs h PMPCFG0 = PMPCFG_TOR_RWX;
  ak_mvec : csrs h MTVEC = sym "m_vec";
  ak_timer : csrs h MENVCFG = 2 ^ 63 /\ csrs h MCOUNTEREN = MCOUNTEREN_TM
}.

Ltac name_state := lazymatch goal with |- wp (run _ _ _ _ _) _ ?x => let h' := fresh "h" in set (h' := x) | _ => idtac end.

Lemma setup_spec (Q : leave -> hart -> Prop) h : code r = entry -> mode h = Machine -> csrs h MHARTID = 0 ->
  (forall l h', at_kmain l h' -> memory h' = memory h -> Q l h') -> wp (run sym call 27 r 8) Q h.
Proof using Hflat Hsym.
  intros Hc Hm Hh HQ.
  do 27 (eapply mstep; [by rewrite Hc|done|]; hart_steps; try unfold do_mret; hart_steps; rewrite ?(u64_small (sym _)) by apply Hsym; name_state).
  assert (bits 12 11 (csrs h25 MSTATUS) = 1) as -> by exact (mpp_supervisor (u64 (csrs h MSTATUS))).
  apply HQ; [|reflexivity]. split; try reflexivity; [|by split..].
  change (regs (set_mode _ _) tp) with (u64 (csrs h MHARTID)). by rewrite Hh.
Qed.

(** The boot hart. *)
Lemma entry_spec h b e : code r = entry -> mode h = Machine -> csrs h MHARTID = 0 -> b = sym "_bss_start" -> e = sym "_bss_end" ->
  b <= e -> e + 8 <= 2 ^ 64 -> b mod 8 = 0 ->
  wp (run sym call (4 * Z.to_nat ((e - b + 7) / 8) + 32) r 0) (fun l h' => at_kmain l h' /\
    forall x, memory h' x = if in_range x b (8 * ((e - b + 7) / 8)) then 0 else memory h x) h.
Proof using Hflat Hsym.
  intros Hc Hm Hh Hb He Hbe He2 Hal. set (n := Z.to_nat ((e - b + 7) / 8)). assert (0 <= b) as Hb0 by (subst b; apply Hsym).
  assert (Z.of_nat n = (e - b + 7) / 8) as Hn by (unfold n; rewrite Z2Nat.id; mlia).
  replace (4 * n + 32)%nat with (S (S (S (S (4 * n + 28)))))%nat by lia.
  eapply mstep; [by rewrite Hc|done|]; hart_steps. eapply mstep; [by rewrite Hc|done|]; hart_steps.
  change (reg (set_regs _ h) t0) with (u64 (csrs h MHARTID)). rewrite Hh. cbn [Z.eqb u64].
  do 2 (eapply mstep; [by rewrite Hc|done|]; hart_steps; rewrite ?(u64_small (sym _)) by apply Hsym; name_state).
  apply (bss_loop b e 27 _ (memory h) (csrs h) Hc ltac:(lia) He2 Hal n 0); try done; [rewrite Hn; clear -Hbe; mlia|unfold holds; rewrite Z.add_0_r; exact (eq_sym Hb)| |].
  - intros x. unfold zeroed. by rewrite in_range_false by lia.
  - intros h' Hm' Hc' Hmem. apply setup_spec; [done|done|by rewrite Hc'|]. intros l h'' Hat Heq. split; [done|]. intros x. rewrite Heq, Hmem. unfold zeroed. by replace (8 * (0 + Z.of_nat n)) with (8 * ((e - b + 7) / 8)) by lia.
Qed.

(** Every other hart waits for ever: it comes to wfi, and from there back to it. *)
Lemma park_spec h : code r = entry -> mode h = Machine -> 0 < csrs h MHARTID < 2 ^ 64 ->
  wp (run sym call 3 r 0) (fun l h' => l = Waiting 36 /\ csrs h' = csrs h /\ memory h' = memory h /\ mode h' = mode h) h.
Proof using Hflat.
  intros Hc Hm Hh. do 2 (eapply mstep; [by rewrite Hc|done|]; hart_steps).
  change (reg (set_regs _ h) t0) with (u64 (csrs h MHARTID)). rewrite u64_small by lia. replace (csrs h MHARTID =? 0) with false by lia.
  eapply mstep; [by rewrite Hc|done|]; hart_steps. done.
Qed.

Lemma park_again h : code r = entry -> mode h = Machine -> run sym call 2 r 36 h = Ok (Waiting 36, h).
Proof using Hflat.
  intros Hc Hm. destruct (wp_elim (run sym call 2 r 36) (fun l h' => l = Waiting 36 /\ h' = h) h) as (l & h' & -> & -> & ->); [|done].
  do 2 (eapply mstep; [by rewrite Hc|done|]; hart_steps). done.
Qed.

(** ** m_vec *)
Lemma m_vec_spec h : code r = m_vec -> mode h = Machine -> 0 <= csrs h MCAUSE < 2 ^ 64 ->
  wp (run sym call 11 r 0) (fun l h' => l = To_symbol "park" /\ csrs h' = csrs h /\
    memory h' = if (csrs h MCAUSE <? 2 ^ 63) && (Z.land (csrs h MCAUSE) 0xff =? EXC_ECALL_S) && (regs h a7 =? SBI_SHUTDOWN)
      then st 4 (memory h) QEMU_SHUTDOWN QEMU_SHUTDOWN_PASS else memory h) h.
Proof using Hflat.
  intros Hc Hm Hmc.
  eapply mstep; [by rewrite Hc|done|]; hart_steps. rewrite (u64_small (csrs h MCAUSE)) by done. name_state.
  eapply mstep; [by rewrite Hc|done|]; hart_steps. change (reg h0 t0) with (csrs h MCAUSE).
  assert ((i64 (csrs h MCAUSE) <? 0) = negb (csrs h MCAUSE <? 2 ^ 63)) as ->.
  { unfold i64. rewrite Z.mod_small by done. destruct (Z.ltb_spec (csrs h MCAUSE) (2 ^ 63)); cbn [negb]; lia. }
  destruct (csrs h MCAUSE <? 2 ^ 63); cbn [negb andb]; [|done].
  eapply mstep; [by rewrite Hc|done|]; hart_steps. change (reg h0 t0) with (csrs h MCAUSE).
  assert (0 <= Z.land (csrs h MCAUSE) 0xff < 2 ^ 64) as Hand by (change 0xff with (Z.ones 8); rewrite Z.land_ones by lia; pose proof (Z.mod_pos_bound (csrs h MCAUSE) (2 ^ 8)); lia).
  rewrite (u64_small (Z.land _ _)) by done. name_state.
  eapply mstep; [by rewrite Hc|done|]; hart_steps. name_state.
  eapply mstep; [by rewrite Hc|done|]; hart_steps. change (reg h2 t0) with (Z.land (csrs h MCAUSE) 0xff). change (reg h2 t1) with EXC_ECALL_S.
  destruct (Z.land (csrs h MCAUSE) 0xff =? EXC_ECALL_S); cbn [andb]; [|done].
  eapply mstep; [by rewrite Hc|done|]; hart_steps. name_state.
  eapply mstep; [by rewrite Hc|done|]; hart_steps. change (reg h3 a7) with (regs h a7). change (reg h3 t0) with SBI_SHUTDOWN.
  destruct (regs h a7 =? SBI_SHUTDOWN); [|done].
  do 2 (eapply mstep; [by rewrite Hc|done|]; hart_steps; name_state).
  eapply mstep; [by rewrite Hc|done|]; hart_steps. unfold store_half. wp_steps.
  apply (wp_intro _ _ _ QEMU_SHUTDOWN h5); [unfold physical; by rewrite translate_machine|]. wp_steps.
  eapply mstep; [by rewrite Hc|done|]; hart_steps. done.
Qed.
End boot.
