(* ===== verification/AsmThm.v ===== *)
(** Theorems on the assembly: boot, context switch, trap vectors, and the trampoline over
    the page tables [proc_pagetable] and [vm_create_kernel_pt] build. *)
From S2P Require Import Prelude Mem Layout Kalloc Buddy KallocInv KallocSpec KallocThm Vm VmInv VmWalk VmMap VmThm VmaProof Trap.
From S2P Require Import Asm AsmProof.
Import Asm.

(** * A hart whose memory holds page tables *)
Section tables.
Context {inv : kmem -> Prop} {alloc release} `{PA : PageAllocator inv alloc release}.
Context (s : kmem) (root : Z) (Hi : inv s) (Hpt : pt_ok s root) (Hlv : leaves_ok (ram s) root).

(** Bytes of an allocated block that is no table do not matter to the tables. *)
Lemma write_tables a k m' : live s a k -> ~ table_of (ram s) root a -> (forall x, ~ a <= x < a + 4096 -> m' x = ram s x) ->
  forall t, table_of (ram s) root t -> is_table (set_ram m' s) t /\ forall x, t <= x < t + 4096 -> ram (set_ram m' s) x = ram s x.
Proof using PA Hi Hpt.
  intros Ha Hn Hm t (q & Hq & Ht). destruct (pt_table _ _ Hpt q t Hq Ht) as [Hl Hr]. split; [done|]. intros x Hx. apply Hm. intros Hx'.
  destruct (pal_block s a k Hi Ha) as (Hk & _). pose proof (bsz_ge k).
  destruct (pal_disj s t 0 a k x Hi Hl Ha) as [-> _]; [by unfold covers; change (bsz 0) with 4096|unfold covers; lia|]. apply Hn. by exists q.
Qed.

Lemma write_leaves a k m' : live s a k -> ~ table_of (ram s) root a -> (forall x, ~ a <= x < a + 4096 -> m' x = ram s x) ->
  pt_ok (set_ram m' s) root /\ leaves_ok m' root.
Proof using All.
  intros Ha Hn Hm. pose proof (write_tables a k m' Ha Hn Hm) as Hk. split; [by apply (keep_pt_ok s _ root Hpt Hk)|].
  intros va' e Hva' He. change m' with (ram (set_ram m' s)) in He. rewrite (keep_pte s _ root Hk) in He. by apply (Hlv va').
Qed.

Lemma translate_keep a k m' va : live s a k -> ~ table_of (ram s) root a -> (forall x, ~ a <= x < a + 4096 -> m' x = ram s x) ->
  Sv39.translate m' root va = Sv39.translate (ram s) root va.
Proof using All.
  intros Ha Hn Hm. destruct (decide (0 <= va < MAX_VA)) as [Hva|Hva].
  2: { unfold Sv39.translate. change (2 ^ 38) with MAX_VA. by replace ((0 <=? va) && (va <? MAX_VA)) with false by lia. }
  destruct (write_leaves a k m' Ha Hn Hm) as [Hpt' Hlv'].
  change m' with (ram (set_ram m' s)). rewrite !translate_pte; try done. by rewrite (keep_pte s _ root (write_tables a k m' Ha Hn Hm)).
Qed.

Lemma translate_table h acc va e : mode h = Supervisor -> csrs h SATP <> 0 -> root_of (csrs h SATP) = root -> memory h = ram s -> 0 <= va < MAX_VA ->
  pte_of (ram s) root va = Some e -> allows (pte_flags e) Supervisor acc = true -> translate acc va h = Some (pte_to_pa e + va mod 4096).
Proof using Hpt Hlv.
  intros Hm Hsa Hr Hme Hva He Hal. unfold translate. rewrite Hm, decide_False by done. replace (csrs h SATP =? 0) with false by lia.
  rewrite Hr, Hme, (translate_pte s root va Hpt Hlv Hva), He. by rewrite Hal.
Qed.
End tables.

Lemma make_satp_root root : 0 <= root < 2 ^ 56 -> root mod 4096 = 0 -> root_of (MAKE_SATP root) = root /\ MAKE_SATP root <> 0 /\ 0 <= MAKE_SATP root < 2 ^ 64.
Proof.
  intros Hr Ha. unfold MAKE_SATP, SATP_SV39, root_of. rewrite Z.shiftr_div_pow2 by lia. change (2 ^ 12) with 4096.
  assert (Z.lor (Z.shiftl 8 60) (root / 4096) = 2 ^ 63 + root / 4096) as ->.
  { change (Z.shiftl 8 60) with (2 ^ 63). rewrite <- Z.add_lor_land. rewrite (Z.bits_inj' (Z.land (2 ^ 63) (root / 4096)) 0); [lia|].
    intros k Hk. rewrite Z.land_spec, Z.bits_0, Z.pow2_bits_eqb by lia. destruct (Z.eqb_spec 63 k) as [<-|]; [|done]. cbn [andb].
    apply Z.bits_above_log2; [mlia|]. apply (Z.le_lt_trans _ (Z.log2 (2 ^ 44))); [apply Z.log2_le_mono; mlia|done]. }
  mlia.
Qed.

(** The mappings the trampoline relies on. *)
Record trampoline_space (s : kmem) (kroot uroot vec tf : Z) : Prop := {
  tsp_inv : kalloc_inv s;
  tsp_user : pt_ok s uroot /\ leaves_ok (ram s) uroot;
  tsp_kernel : pt_ok s kroot /\ leaves_ok (ram s) kroot;
  tsp_umap : forall va, TRAPFRAME <= va < MAX_VA -> user_maps (ram s) uroot vec tf va;
  tsp_kmap : forall va, TRAMPOLINE <= va < MAX_VA -> pte_of (ram s) kroot va = Some (leaf_pte vec (Z.lor PTE_R PTE_X));
  tsp_frame : (exists k, live s tf k) /\ ~ table_of (ram s) uroot tf /\ ~ table_of (ram s) kroot tf;
  tsp_vec : vec mod 4096 = 0 /\ 0 <= vec < PHYS_STOP
}.

Section space.
Context (s : kmem) (kroot uroot vec tf : Z) (Hs : trampoline_space s kroot uroot vec tf).

Lemma root_range root : pt_ok s root -> root_of (MAKE_SATP root) = root /\ MAKE_SATP root <> 0 /\ 0 <= MAKE_SATP root < 2 ^ 64.
Proof using Hs.
  intros Hpt. destruct (table_dram s root [] root (tsp_inv _ _ _ _ _ Hs) Hpt) as (H1 & H2 & H3 & H4); [by split; [cbn; lia|constructor]|done|].
  apply make_satp_root; [klia|done].
Qed.

Lemma frame_range : tf mod 4096 = 0 /\ 0 <= tf < PHYS_STOP.
Proof using Hs. destruct (tsp_frame _ _ _ _ _ Hs) as ((k & H1 & H2 & _) & _). destruct (tsp_inv _ _ _ _ _ Hs) as [fl [(H3 & _) _ _]]. split; [done|klia]. Qed.

(** The flags of a leaf of the kernel. *)
Lemma leaf_flags pa perm : 0 <= pa < PHYS_STOP -> pa mod 4096 = 0 -> 0 <= perm < 1024 -> pte_flags (leaf_pte pa perm) = Z.lor perm 0xC1 /\ pte_to_pa (leaf_pte pa perm) = pa.
Proof using Type.
  intros Hpa Hal Hp. rewrite leaf_pte_eq. assert (0 <= Z.lor perm 193 < 1024) by (apply (lor_range perm 193 10); lia).
  split; [apply pte_flags_lor; klia|apply pte_to_pa_lor; (klia || done)].
Qed.

Lemma tramp_user acc x h : mode h = Supervisor -> csrs h SATP = MAKE_SATP uroot -> memory h = ram s -> 0 <= x < 4096 ->
  translate Fetch (TRAMPOLINE + x) h = Some (vec + x) /\
  (acc <> Fetch -> translate acc (TRAPFRAME + x) h = Some (tf + x)).
Proof using Hs.
  intros Hm Hsa Hme Hx. pose proof (tsp_user _ _ _ _ _ Hs) as [Hpt Hlv]. destruct (root_range uroot Hpt) as (Hr1 & Hr2 & _). destruct frame_range as [Ht1 Ht2]. destruct (tsp_vec _ _ _ _ _ Hs) as [Hv1 Hv2].
  assert (TRAMPOLINE = 2 ^ 38 - 4096) as E1 by done. assert (TRAPFRAME = 2 ^ 38 - 8192) as E2 by done. assert (MAX_VA = 2 ^ 38) as E3 by done.
  pose proof (tsp_umap _ _ _ _ _ Hs) as Hum. unfold user_maps in Hum.
  split.
  - destruct (leaf_flags vec (Z.lor PTE_R PTE_X) Hv2 Hv1 ltac:(done)) as [Hf Hp].
    rewrite (translate_table s uroot Hpt Hlv h Fetch (TRAMPOLINE + x) (leaf_pte vec (Z.lor PTE_R PTE_X))); try first [done|lia|by rewrite Hsa|by rewrite Hf].
    + rewrite Hp. do 2 f_equal. rewrite E1. mlia.
    + rewrite (Hum (TRAMPOLINE + x)) by lia. rewrite decide_True; [done|]. rewrite E1. mlia.
  - intros Hacc. destruct (leaf_flags tf (Z.lor PTE_R PTE_W) Ht2 Ht1 ltac:(done)) as [Hf Hp].
    rewrite (translate_table s uroot Hpt Hlv h acc (TRAPFRAME + x) (leaf_pte tf (Z.lor PTE_R PTE_W))); try first [done|lia|by rewrite Hsa|by rewrite Hf; destruct acc].
    + rewrite Hp. do 2 f_equal. rewrite E2. mlia.
    + rewrite (Hum (TRAPFRAME + x)) by lia. rewrite decide_False, decide_True; [done|rewrite E2; mlia|rewrite E1, E2; mlia].
Qed.

Lemma tramp_kernel x h : mode h = Supervisor -> csrs h SATP = MAKE_SATP kroot -> memory h = ram s -> 0 <= x < 4096 -> translate Fetch (TRAMPOLINE + x) h = Some (vec + x).
Proof using Hs.
  intros Hm Hsa Hme Hx. pose proof (tsp_kernel _ _ _ _ _ Hs) as [Hpt Hlv]. destruct (root_range kroot Hpt) as (Hr1 & Hr2 & _). destruct (tsp_vec _ _ _ _ _ Hs) as [Hv1 Hv2].
  assert (TRAMPOLINE = 2 ^ 38 - 4096) as E1 by done. assert (MAX_VA = 2 ^ 38) as E3 by done.
  destruct (leaf_flags vec (Z.lor PTE_R PTE_X) Hv2 Hv1 ltac:(done)) as [Hf Hp].
  rewrite (translate_table s kroot Hpt Hlv h Fetch (TRAMPOLINE + x) (leaf_pte vec (Z.lor PTE_R PTE_X))); try first [done|lia|by rewrite Hsa|by rewrite Hf].
  - rewrite Hp. do 2 f_equal. rewrite E1. mlia.
  - apply (tsp_kmap _ _ _ _ _ Hs). lia.
Qed.

(** The trapframe is no part of either table. *)
Lemma tramp_passive root h m' : root = uroot \/ root = kroot -> mode h = Supervisor -> csrs h SATP = MAKE_SATP root -> memory h = ram s ->
  (forall x, ~ tf <= x < tf + 288 -> m' x = memory h x) -> same_view h (set_memory m' h).
Proof using Hs.
  intros Hroot Hm Hsa Hme Hm' a va. destruct (tsp_frame _ _ _ _ _ Hs) as ([k Hl] & Hnu & Hnk).
  assert (pt_ok s root /\ leaves_ok (ram s) root /\ ~ table_of (ram s) root tf) as (Hpt & Hlv & Hn).
  { pose proof (tsp_user _ _ _ _ _ Hs) as []. pose proof (tsp_kernel _ _ _ _ _ Hs) as []. by destruct Hroot as [-> | ->]. }
  destruct (root_range root Hpt) as (Hr1 & Hr2 & _). unfold translate. cbn [mode csrs memory set_memory]. rewrite Hsa, Hr1, Hme.
  rewrite (translate_keep s root (tsp_inv _ _ _ _ _ Hs) Hpt Hlv tf k m' va); [done|done|done|]. intros x Hx. rewrite <- Hme. apply Hm'. lia.
Qed.
End space.

(** * Theorems *)

(** A routine of straight-line code placed in one page. *)
Definition placed (r : routine) (va pa : Z) (c : list instr) : Prop :=
  code r = c /\ r_va r = va /\ r_pa r = pa /\ forall k, (k < length c)%nat -> 0 <= offset r k < 4096.

(** A context saved in memory. *)
Definition saved_context (m : mem) (pa : Z) (f : Z -> Z) : Prop := forall x off, (x, off) ∈ ctx_slots -> ld64 m (pa + off) = f x.

(** [swtch(old, new)] stores ra, sp and s0 to s11 in the fields of [old] and
    nothing else, loads them from [new], leaves every other register alone, and returns
    to the ra of [new].  Hence a thread that was switched away is resumed: whenever
    [swtch] is called later, on any stack, with the context it was saved in (and memory
    still holds that context), it returns to where the first call was made, with its
    stack pointer and all callee-saved registers. *)
Lemma swtch_correct sym call r h po pn : code r = swtch -> fetchable r h -> regs_ok h ->
  maps Store h (reg h a0) po 112 -> maps Load h (reg h a1) pn 112 -> passive h po 112 -> po + 112 <= pn \/ pn + 112 <= po ->
  exists h', run sym call 29 r 0 h = Ok (To (ld64 (memory h) pn), h') /\ csrs h' = csrs h /\ mode h' = mode h /\
    saved_context (memory h) pn (regs h') /\ saved_context (memory h') po (regs h) /\
    (forall x, x ∉ context_regs -> regs h' x = regs h x) /\ (forall x, ~ po <= x < po + 112 -> memory h' x = memory h x) /\
    forall h2 px, fetchable r h2 -> regs_ok h2 -> maps Store h2 (reg h2 a0) px 112 -> maps Load h2 (reg h2 a1) po 112 -> passive h2 px 112 ->
      px + 112 <= po \/ po + 112 <= px -> (forall x, po <= x < po + 112 -> memory h2 x = memory h' x) ->
      exists h3, run sym call 29 r 0 h2 = Ok (To (regs h ra), h3) /\ forall x, x ∈ context_regs -> regs h3 x = regs h x.
Proof.
  intros Hc Hf Hr Hmo Hmn Hp Hd. destruct (wp_elim _ _ _ (swtch_spec sym call r h po pn Hc Hf Hr Hmo Hmn Hp Hd)) as (l & h' & E & -> & Hcs & Hmd & Hin & Hout & Hmem).
  assert (saved_context (memory h') po (regs h)) as Hsv by (intros x off Hx; by apply Hin).
  exists h'. split_and!; try done; [intros x off Hx; symmetry; by apply Hin|].
  intros h2 px Hf2 Hr2 Hmo2 Hmn2 Hp2 Hd2 Heq.
  assert (saved_context (memory h2) po (regs h)) as Hsv2.
  { intros x off Hx. rewrite <- (Hsv x off Hx). apply ld64_ext. intros y Hy. apply Heq.
    destruct (ctx_slot x off Hx) as (_ & ? & ? & ?). lia. }
  destruct (wp_elim _ _ _ (swtch_spec sym call r h2 px po Hc Hf2 Hr2 Hmo2 Hmn2 Hp2 Hd2)) as (l & h3 & E3 & -> & _ & _ & Hin3 & _).
  exists h3. split; [rewrite E3; by rewrite <- (Hsv2 ra 0 ltac:(by left)), Z.add_0_r|].
  intros x Hx. apply (list_elem_of_fmap_1 fst ctx_slots) in Hx as ([x' off] & -> & Hx). cbn [fst]. rewrite (proj1 (Hin3 x' off Hx)). by apply Hsv2.
Qed.

(** A hart in S-mode without paging, to run the routines on. *)
Definition demo_hart (x0 x1 : Z) (m : mem) : hart := mk_hart (fun x => if x =? a0 then x0 else if x =? a1 then x1 else 4096 + 8 * (x mod 32)) (fun _ => 0) Supervisor m.
Definition demo_routine (c : list instr) (va pa : Z) : routine := mk_routine c va pa (fun k => 4 * Z.of_nat k).

Lemma bare_view h a va : csrs h SATP = 0 -> translate a va h = Some va.
Proof. intros Hs. unfold translate. case_decide; [done|]. by rewrite Hs. Qed.
Lemma bare_fetch h c va : csrs h SATP = 0 -> fetchable (demo_routine c va va) h.
Proof. intros Hs k _. by rewrite bare_view. Qed.
Lemma bare_maps h a va n : csrs h SATP = 0 -> 0 <= va -> va + n <= 2 ^ 64 -> va mod 8 = 0 -> maps a h va va n.
Proof. intros. split_and!; try done. intros. by apply bare_view. Qed.
Lemma bare_passive h pa n : csrs h SATP = 0 -> passive h pa n.
Proof. intros Hs m' _ a va. by rewrite !bare_view. Qed.
Lemma demo_regs x0 x1 m : 0 <= x0 < 2 ^ 64 -> 0 <= x1 < 2 ^ 64 -> regs_ok (demo_hart x0 x1 m).
Proof. intros H0 H1 x. cbn. destruct (x =? a0); [done|]. destruct (x =? a1); [done|]. pose proof (Z.mod_pos_bound x 32). lia. Qed.


(** [kernel_vec] saves x1, x3 and x5 to x31 on the kernel stack, calls kernel_trap and
    kernel_trap_ret, restores them and returns with [sret].  If the two C functions keep
    what the calling convention makes them keep (stack and thread pointer, the frames of
    their callers), the interrupted code goes on with every register as it was, at the
    address and in the mode the handlers left in sepc and sstatus, in whatever they did
    to the other registers, memory and control registers (another process may have run
    in between). *)
Lemma kernel_vec_correct sym call r h pa : code r = kernel_vec -> fetchable r h -> regs_ok h -> 256 <= reg h sp ->
  maps Store h (reg h sp - 256) pa 232 -> maps Load h (reg h sp - 256) pa 232 -> passive h pa 232 ->
  abides (reg h sp - 256) pa 232 (call "kernel_trap") -> abides (reg h sp - 256) pa 232 (call "kernel_trap_ret") ->
  exists h', run sym call 63 r 0 h = Ok (Return_to (mode h') (csrs h' SEPC), h') /\ forall x, 1 <= x <= 31 -> regs h' x = regs h x.
Proof. intros. destruct (wp_elim _ _ _ (kernel_vec_spec sym call r h pa ltac:(done) ltac:(done) ltac:(done) ltac:(done) ltac:(done) ltac:(done) ltac:(done) ltac:(done) ltac:(done))) as (l & h' & E & -> & Hr). by exists h'. Qed.

(** A C function that uses every register it may, and moves sepc. *)
Definition demo_callee : M hart unit := modify (fun h => set_csrs (upd_csr (csrs h) SEPC 0x80000104) (set_regs (fun x => if (x =? sp) || (x =? tp) then regs h x else 0xdead) h)).


(** C37: [swtch(old, new)] stores ra, sp and s0 to s11 in the fields of [old] and
    nothing else, loads them from [new], leaves every other register alone, and returns
    to the ra of [new].  Hence a thread that was switched away is resumed: whenever
    [swtch] is called later, on any stack, with the context it was saved in (and memory
    still holds that context), it returns to where the first call was made, with its
    stack pointer and all callee-saved registers.  [kernel_vec] saves x1, x3 and x5 to
    x31 on the kernel stack, calls kernel_trap and kernel_trap_ret, restores them and
    returns with [sret].  If the two C functions keep what the calling convention makes
    them keep (stack and thread pointer, the frames of their callers), the interrupted
    code goes on with every register as it was, at the address and in the mode the
    handlers left in sepc and sstatus, whatever they did to the other registers, memory
    and control registers (another process may have run in between). *)
Theorem switching_correct sym call :
  (forall r h po pn, code r = swtch -> fetchable r h -> regs_ok h ->
  maps Store h (reg h a0) po 112 -> maps Load h (reg h a1) pn 112 -> passive h po 112 -> po + 112 <= pn \/ pn + 112 <= po ->
  exists h', run sym call 29 r 0 h = Ok (To (ld64 (memory h) pn), h') /\ csrs h' = csrs h /\ mode h' = mode h /\
    saved_context (memory h) pn (regs h') /\ saved_context (memory h') po (regs h) /\
    (forall x, x ∉ context_regs -> regs h' x = regs h x) /\ (forall x, ~ po <= x < po + 112 -> memory h' x = memory h x) /\
    forall h2 px, fetchable r h2 -> regs_ok h2 -> maps Store h2 (reg h2 a0) px 112 -> maps Load h2 (reg h2 a1) po 112 -> passive h2 px 112 ->
      px + 112 <= po \/ po + 112 <= px -> (forall x, po <= x < po + 112 -> memory h2 x = memory h' x) ->
      exists h3, run sym call 29 r 0 h2 = Ok (To (regs h ra), h3) /\ forall x, x ∈ context_regs -> regs h3 x = regs h x) /\
  (forall r h pa, code r = kernel_vec -> fetchable r h -> regs_ok h -> 256 <= reg h sp ->
  maps Store h (reg h sp - 256) pa 232 -> maps Load h (reg h sp - 256) pa 232 -> passive h pa 232 ->
  abides (reg h sp - 256) pa 232 (call "kernel_trap") -> abides (reg h sp - 256) pa 232 (call "kernel_trap_ret") ->
  exists h', run sym call 63 r 0 h = Ok (Return_to (mode h') (csrs h' SEPC), h') /\ forall x, 1 <= x <= 31 -> regs h' x = regs h x).
Proof. split; intros *; [apply swtch_correct|apply kernel_vec_correct]. Qed.

Lemma switching_correct_witness : (let r := demo_routine swtch 0x80000000 0x80000000 in let h := demo_hart 0x80010000 0x80020000 (fun _ => 7) in let nocall := fun _ : string => mret tt in
  exists h', run (fun _ => 0) nocall 29 r 0 h = Ok (To 506381209866536711, h') /\
  exists h3, run (fun _ => 0) nocall 29 r 0 (demo_hart 0x80030000 0x80010000 (memory h')) = Ok (To 4104, h3) /\ regs h3 sp = 4112) /\
  (exists h', run (fun _ => 0) (fun _ => demo_callee) 63 (demo_routine kernel_vec 0x80000000 0x80000000) 0 (demo_hart 1 2 (fun _ => 0)) = Ok (Return_to (mode h') (csrs h' SEPC), h') /\
  regs h' a0 = 1 /\ regs h' 27 = 4312).
Proof.
  split.
  - intros r h nocall.
    destruct (proj1 (switching_correct (fun _ => 0) nocall) r h 0x80010000 0x80020000 eq_refl (bare_fetch h swtch 0x80000000 eq_refl) (demo_regs 0x80010000 0x80020000 (fun _ => 7) ltac:(lia) ltac:(lia))
    (bare_maps h Store 0x80010000 112 eq_refl ltac:(lia) ltac:(lia) eq_refl) (bare_maps h Load 0x80020000 112 eq_refl ltac:(lia) ltac:(lia) eq_refl) (bare_passive h _ _ eq_refl) ltac:(lia))
    as (h' & E & _ & _ & _ & _ & _ & _ & H2).
    exists h'. split; [exact E|]. clear E. set (h2 := demo_hart 0x80030000 0x80010000 (memory h')).
    destruct (H2 h2 0x80030000 (bare_fetch h2 swtch 0x80000000 eq_refl) (demo_regs 0x80030000 0x80010000 (memory h') ltac:(lia) ltac:(lia))
    (bare_maps h2 Store 0x80030000 112 eq_refl ltac:(lia) ltac:(lia) eq_refl) (bare_maps h2 Load 0x80010000 112 eq_refl ltac:(lia) ltac:(lia) eq_refl) (bare_passive h2 _ _ eq_refl) ltac:(lia) (fun x _ => eq_refl))
    as (h3 & E3 & Hr3).
    exists h3. split; [exact E3|]. exact (Hr3 sp ltac:(right; left)).
  - assert (forall spv pa, abides spv pa 232 demo_callee) as Hab.
    { intros spv pa h _. unfold demo_callee. apply wp_modify. split_and!; done. }
    set (h := demo_hart 1 2 (fun _ => 0)).
    destruct (proj2 (switching_correct (fun _ => 0) (fun _ => demo_callee)) (demo_routine kernel_vec 0x80000000 0x80000000) h 3856 eq_refl (bare_fetch h kernel_vec 0x80000000 eq_refl) (demo_regs 1 2 (fun _ => 0) ltac:(lia) ltac:(lia))
    ltac:(vm_compute; congruence) (bare_maps h Store 3856 232 eq_refl ltac:(lia) ltac:(lia) eq_refl) (bare_maps h Load 3856 232 eq_refl ltac:(lia) ltac:(lia) eq_refl) (bare_passive h _ _ eq_refl) (Hab _ _) (Hab _ _)) as (h' & E & Hr).
    exists h'. split; [exact E|]. split; [exact (Hr a0 ltac:(unfold a0; lia))|exact (Hr 27 ltac:(lia))].
Defined.

(** C36: the trampoline.  With the page tables of proc_pagetable and vm_create_kernel_pt
    (a kernel and a user root, the trampoline page at TRAMPOLINE in both, the trapframe
    page at TRAPFRAME in the user's), a trap from user mode enters [user_vec] with the user
    table active and TRAPFRAME in sscratch.  It stores all 31 registers in the user fields
    of the trapframe and changes no other byte of memory; then it is on the kernel's page
    table, with the stack, hart number and handler address the trapframe holds, and jumps
    to the handler: every instruction is fetched from the trampoline page under either
    table.  [user_ret], called as user_trap_ret calls it, loads all 31 registers from the
    trapframe, leaves sscratch ready for the next trap, and returns to sepc in the mode
    of sstatus.  So a process resumes with exactly the registers it trapped with, apart
    from those the kernel stored to in the trapframe in between. *)
Theorem trampoline_roundtrip sym call s s2 kroot uroot vec tf rv rr h :
  trampoline_space s kroot uroot vec tf -> trampoline_space s2 kroot uroot vec tf ->
  placed rv TRAMPOLINE vec user_vec -> placed rr TRAMPOLINE vec user_ret ->
  regs_ok h -> mode h = Supervisor -> memory h = ram s -> csrs h SATP = MAKE_SATP uroot -> csrs h SSCRATCH = TRAPFRAME ->
  ld64 (ram s) tf = MAKE_SATP kroot ->
  exists h', run sym call 40 rv 0 h = Ok (To (ld64 (ram s) (tf + 16)), h') /\ mode h' = Supervisor /\
    csrs h' SATP = MAKE_SATP kroot /\ regs h' sp = ld64 (ram s) (tf + 8) /\ regs h' tp = ld64 (ram s) (tf + 24) /\
    (forall x, 1 <= x <= 31 -> ld64 (memory h') (tf + TF_reg x) = regs h x) /\
    (forall x, ~ tf + 40 <= x < tf + 288 -> memory h' x = ram s x) /\
    forall h2, regs_ok h2 -> mode h2 = Supervisor -> memory h2 = ram s2 -> csrs h2 SATP = MAKE_SATP kroot -> reg h2 a0 = TRAPFRAME -> reg h2 a1 = MAKE_SATP uroot ->
      exists h3, run sym call 35 rr 0 h2 = Ok (Return_to (mode h3) (csrs h2 SEPC), h3) /\ mode h3 = priv_of (bits 8 8 (csrs h2 MSTATUS)) /\
        csrs h3 SATP = MAKE_SATP uroot /\ csrs h3 SSCRATCH = TRAPFRAME /\ memory h3 = ram s2 /\
        forall x, 1 <= x <= 31 -> regs h3 x = ld64 (ram s2) (tf + TF_reg x) /\
          (ld64 (ram s2) (tf + TF_reg x) = ld64 (memory h') (tf + TF_reg x) -> regs h3 x = regs h x).
Proof.
  intros Hs Hs2 (Hcv & Hvv & Hpv & Hov) (Hcr & Hvr & Hpr & Hor) Hr Hm Hme Hsa Hss Hks.
  assert (0 <= TRAPFRAME < 2 ^ 64) as Htf by done.
  assert (forall a, a <> Fetch -> maps a h TRAPFRAME tf 288) as Hmaps.
  { intros a Ha. split_and!; try done. intros x Hx. apply (tramp_user s kroot uroot vec tf Hs a x h); (done || lia). }
  assert (fetchable rv h) as Hfv.
  { intros k Hk. rewrite Hvv, Hpv. rewrite Hcv in Hk. apply (tramp_user s kroot uroot vec tf Hs Fetch (offset rv k) h); try done. by apply Hov. }
  assert (forall m', (forall x, ~ tf <= x < tf + 288 -> m' x = memory h x) -> fetchable rv (after h (ld64 (memory h) tf) m')) as Hfk.
  { intros m' Hm' k Hk. rewrite Hcv in Hk. rewrite Hme, Hks. set (hk := after h (MAKE_SATP kroot) (memory h)).
    change (after h (MAKE_SATP kroot) m') with (set_memory m' hk). rewrite (tramp_passive s kroot uroot vec tf Hs kroot hk m'); try done; [|by right].
    rewrite Hvv, Hpv. apply (tramp_kernel s kroot uroot vec tf Hs); try done. by apply Hov. }
  assert (passive h tf 288) as Hp by (intros m' Hm'; apply (tramp_passive s kroot uroot vec tf Hs uroot h m'); try done; by left).
  pose proof (user_vec_spec sym call rv h tf Hcv Hr) as Hw. rewrite Hss in Hw.
  destruct (wp_elim _ _ _ (Hw Htf Hfv (Hmaps Store ltac:(done)) (Hmaps Load ltac:(done)) Hp Hfk)) as (l & h' & E & -> & Hm1 & Hs1 & _ & Hsp & Htp & Hsv & Hout). clear Hw.
  rewrite Hme in *. exists h'. split_and!; try done; [by rewrite Hm1|by rewrite Hs1|].
  intros h2 Hr2 Hm2 Hme2 Hsa2 Ha0 Ha1. set (hu := after h2 (reg h2 a1) (memory h2)).
  assert (fetchable rr h2) as Hf2.
  { intros k Hk. rewrite Hvr, Hpr. rewrite Hcr in Hk. apply (tramp_kernel s2 kroot uroot vec tf Hs2); try done. by apply Hor. }
  assert (csrs hu SATP = MAKE_SATP uroot) as Hsu by exact Ha1.
  assert (fetchable rr hu) as Hfu.
  { intros k Hk. rewrite Hvr, Hpr. rewrite Hcr in Hk. apply (tramp_user s2 kroot uroot vec tf Hs2 Fetch (offset rr k) hu); try done. by apply Hor. }
  assert (maps Load hu (reg h2 a0) tf 288) as Hmu.
  { rewrite Ha0. split_and!; try done. intros x Hx. apply (tramp_user s2 kroot uroot vec tf Hs2 Load x hu); (done || lia). }
  destruct (wp_elim _ _ _ (user_ret_spec sym call rr h2 tf Hcr Hr2 Hf2 Hfu Hmu)) as (l & h3 & E3 & -> & Hm3 & Hs3 & Hss3 & Hme3 & Hr3).
  exists h3. rewrite Ha0, Ha1 in *. rewrite Hme2 in *. split_and!; try done. intros x Hx. split; [by apply Hr3|]. intros Heq. rewrite Hr3, Heq by done. by apply Hsv.
Qed.

(** ** Instances *)

(** Writing to the trapframe keeps the mappings. *)
Lemma trampoline_write s kroot uroot vec tf m' : trampoline_space s kroot uroot vec tf -> (forall x, ~ tf <= x < tf + 4096 -> m' x = ram s x) -> trampoline_space (set_ram m' s) kroot uroot vec tf.
Proof.
  intros Hs Hm. pose proof (tsp_inv _ _ _ _ _ Hs) as Hi. destruct (tsp_frame _ _ _ _ _ Hs) as ([k Hl] & Hnu & Hnk). destruct Hs as [_ [Hu1 Hu2] [Hk1 Hk2] Hum Hkm _ Hv].
  pose proof (write_tables s uroot Hi Hu1 tf k m' Hl Hnu Hm) as Ku. pose proof (write_tables s kroot Hi Hk1 tf k m' Hl Hnk Hm) as Kk.
  split; try done.
  - apply (pal_client s); [done|]. split_and!; try done; [intros p; split; [done|]; split; [exact (pal_u16 s p Hi)|done]|].
    intros x Hx. apply Hm. intros Hx'. apply (Hx tf k Hl). destruct (pal_block s tf k Hi Hl) as (Hk & _). pose proof (bsz_ge k). unfold covers. lia.
  - by apply (write_leaves s uroot Hi Hu1 Hu2 tf k).
  - by apply (write_leaves s kroot Hi Hk1 Hk2 tf k).
  - intros va Hva. unfold user_maps. rewrite (keep_pte s _ uroot Ku). by apply Hum.
  - intros va Hva. rewrite (keep_pte s _ kroot Kk). by apply Hkm.
  - split_and!; [by exists k|by rewrite (keep_table_of s _ uroot Ku)|by rewrite (keep_table_of s _ kroot Kk)].
Qed.

Lemma demo_tramp_space0 : trampoline_space pt_demo pt_root pt_root demo_vec demo_block.
Proof.
  destruct pt_demo_facts as (Hi & Hpt & Hlv & _). destruct demo1_spec as (_ & Hl & _).
  destruct pt_demo_spec as (_ & _ & [[Hn _]|(_ & _ & Hm & Hlive & Hnt)]); [by destruct pt_root_ne|].
  pose proof (Hnt _ _ Hl) as Hn. split; try done.
  - intros va Hva. apply Hm. assert (TRAPFRAME = 2 ^ 38 - 8192) as E by done. lia.
  - intros va Hva. assert (TRAMPOLINE = 2 ^ 38 - 4096) as E by done. assert (MAX_VA = 2 ^ 38) as E2 by done. rewrite Hm by lia. rewrite decide_True; [done|]. rewrite E. mlia.
  - split_and!; [exists 1; apply Hlive; by left|done|done].
Qed.

(** The trapframe of the demonstration process, with the kernel's page table in it. *)
Definition demo_frame : mem := st64 (ram pt_demo) demo_block (MAKE_SATP pt_root).
Lemma demo_tramp_space : trampoline_space (set_ram demo_frame pt_demo) pt_root pt_root demo_vec demo_block.
Proof. apply trampoline_write; [exact demo_tramp_space0|]. intros x Hx. apply st64_out. lia. Qed.

Lemma demo_frame_satp : ld64 demo_frame demo_block = MAKE_SATP pt_root.
Proof. apply ld64_st64_eq. destruct pt_demo_facts as (_ & Hpt & _). exact (proj2 (proj2 (root_range _ _ _ _ _ demo_tramp_space0 pt_root Hpt))). Qed.

Definition trap_hart : hart := mk_hart (fun x => x mod 32) (fun c => match c with SATP => MAKE_SATP pt_root | SSCRATCH => TRAPFRAME | SEPC => 0x1000 | _ => 0 end) Supervisor demo_frame.
Definition ret_hart : hart := mk_hart (fun x => if x =? a0 then TRAPFRAME else if x =? a1 then MAKE_SATP pt_root else 0) (csrs trap_hart) Supervisor demo_frame.
Lemma demo_placed c va pa : (length c <= 1000)%nat -> placed (demo_routine c va pa) va pa c.
Proof. intros Hl. split_and!; try done. intros k Hk. cbn. lia. Qed.

Lemma trampoline_roundtrip_witness : let rv := demo_routine user_vec TRAMPOLINE demo_vec in let rr := demo_routine user_ret TRAMPOLINE demo_vec in let nocall := fun _ : string => mret tt in
  exists h', run (fun _ => 0) nocall 40 rv 0 trap_hart = Ok (To (ld64 demo_frame (demo_block + 16)), h') /\ ld64 (memory h') (demo_block + TF_reg 31) = 31 /\
  exists h3, run (fun _ => 0) nocall 35 rr 0 ret_hart = Ok (Return_to (mode h3) 0x1000, h3) /\ csrs h3 SATP = MAKE_SATP pt_root.
Proof.
  intros rv rr nocall. pose proof (proj2 (proj2 (root_range _ _ _ _ _ demo_tramp_space0 pt_root (proj1 (proj2 pt_demo_facts))))) as Hsr.
  assert (regs_ok trap_hart) as Hr1 by (intros x; change (regs trap_hart x) with (x mod 32); pose proof (Z.mod_pos_bound x 32); lia).
  assert (regs_ok ret_hart) as Hr2 by (intros x; change (regs ret_hart x) with (if x =? a0 then TRAPFRAME else if x =? a1 then MAKE_SATP pt_root else 0); destruct (x =? a0); [split; vm_compute; congruence|]; destruct (x =? a1); [exact Hsr|lia]).
  destruct (trampoline_roundtrip (fun _ => 0) nocall _ _ pt_root pt_root demo_vec demo_block rv rr trap_hart demo_tramp_space demo_tramp_space
    (demo_placed user_vec TRAMPOLINE demo_vec ltac:(cbn; lia)) (demo_placed user_ret TRAMPOLINE demo_vec ltac:(cbn; lia)) Hr1 eq_refl eq_refl eq_refl eq_refl demo_frame_satp) as (h' & E & _ & _ & _ & _ & Hsv & _ & H2).
  exists h'. split; [exact E|]. split; [exact (Hsv 31 ltac:(lia))|].
  destruct (H2 ret_hart Hr2 eq_refl eq_refl eq_refl eq_refl eq_refl) as (h3 & E3 & _ & Hs3 & _). exists h3. split; [exact E3|exact Hs3].
Defined.

(** C38: machine mode.  Of all harts, hart 0 alone goes on at boot: it zeroes the BSS (whole
    words, up to seven bytes past a ragged end) and nothing else, and enters kmain in
    S-mode on the boot stack, without paging, with hart number 0 in tp, all interrupts
    and exceptions but the S-mode ecall delegated, all of memory opened to S-mode, the
    machine vector set and the S-mode timer enabled; the loop ends whatever the symbols
    are.  Every other hart changes nothing and waits for ever.  A trap to machine mode
    powers the machine off exactly when it is an ecall from S-mode with the shutdown
    number in a7, and parks the hart otherwise. *)
Theorem machine_mode_correct sym call r h : r_va r = r_pa r -> (forall s, 0 <= sym s < 2 ^ 64) -> mode h = Machine ->
  (forall c, 0 <= csrs h c < 2 ^ 64) -> sym "_bss_start" <= sym "_bss_end" <= 2 ^ 64 - 8 -> sym "_bss_start" mod 8 = 0 ->
  (code r = entry -> let b := sym "_bss_start" in let n := (sym "_bss_end" - b + 7) / 8 in
    if csrs h MHARTID =? 0
    then exists l h', run sym call (4 * Z.to_nat n + 32) r 0 h = Ok (l, h') /\ at_kmain sym l h' /\ forall x, memory h' x = if in_range x b (8 * n) then 0 else memory h x
    else exists h', run sym call 3 r 0 h = Ok (Waiting 36, h') /\ csrs h' = csrs h /\ memory h' = memory h /\ run sym call 2 r 36 h' = Ok (Waiting 36, h')) /\
  (code r = m_vec -> exists h', run sym call 11 r 0 h = Ok (To_symbol "park", h') /\ csrs h' = csrs h /\
    memory h' = if (csrs h MCAUSE <? 2 ^ 63) && (Z.land (csrs h MCAUSE) 0xff =? EXC_ECALL_S) && (regs h a7 =? SBI_SHUTDOWN)
      then st 4 (memory h) QEMU_SHUTDOWN QEMU_SHUTDOWN_PASS else memory h).
Proof.
  intros Hflat Hsym Hm Hcs Hbe Hal. split; intros Hc.
  - cbv zeta. destruct (Z.eqb_spec (csrs h MHARTID) 0) as [H0|H0].
    + exact (wp_elim _ _ _ (entry_spec sym call r Hflat Hsym h _ _ Hc Hm H0 eq_refl eq_refl ltac:(lia) ltac:(lia) Hal)).
    + pose proof (Hcs MHARTID). destruct (wp_elim _ _ _ (park_spec sym call r Hflat h Hc Hm ltac:(lia))) as (l & h' & E & -> & Hc' & Hm' & Hmo).
      exists h'. split_and!; try done. apply park_again; [done|done|by rewrite Hmo].
  - destruct (wp_elim _ _ _ (m_vec_spec sym call r Hflat h Hc Hm (Hcs MCAUSE))) as (l & h' & E & -> & Hc' & Hm'). by exists h'.
Qed.

Definition demo_sym (s : string) : Z := if decide (s = "_bss_start")%string then 0x80010000 else if decide (s = "_bss_end")%string then 0x80010023 else 0x80000000.
Definition boot_hart (id cause : Z) : hart := mk_hart (fun _ => 1) (fun c => match c with MHARTID => id | MCAUSE => cause | _ => 0 end) Machine (fun _ => 7).

Lemma machine_mode_correct_witness : let nocall := fun _ : string => mret tt in
  (exists l h', run demo_sym nocall 52 (demo_routine entry 0x80000000 0x80000000) 0 (boot_hart 0 0) = Ok (l, h') /\ at_kmain demo_sym l h' /\ memory h' 0x80010020 = 0 /\ memory h' 0x80010028 = 7) /\
  (exists h', run demo_sym nocall 3 (demo_routine entry 0x80000000 0x80000000) 0 (boot_hart 5 0) = Ok (Waiting 36, h') /\ csrs h' MHARTID = 5) /\
  (exists h', run demo_sym nocall 11 (demo_routine m_vec 0x80000000 0x80000000) 0 (boot_hart 0 9) = Ok (To_symbol "park", h') /\ ld 4 (memory h') QEMU_SHUTDOWN = 0x5555).
Proof.
  intros nocall.
  assert (forall s, 0 <= demo_sym s < 2 ^ 64) as Hsym by (intros s; unfold demo_sym; repeat case_decide; lia).
  assert (forall c id cause, 0 <= id < 2 ^ 64 -> 0 <= cause < 2 ^ 64 -> 0 <= csrs (boot_hart id cause) c < 2 ^ 64) as Hcs by (intros [] id cause ? ?; cbn; lia).
  assert (demo_sym "_bss_start" <= demo_sym "_bss_end" <= 2 ^ 64 - 8) as Hbe by (vm_compute; split; congruence).
  set (re := demo_routine entry 0x80000000 0x80000000). set (rm := demo_routine m_vec 0x80000000 0x80000000). split_and!.
  - destruct (machine_mode_correct demo_sym nocall re (boot_hart 0 0) eq_refl Hsym eq_refl (fun c => Hcs c 0 0 ltac:(lia) ltac:(lia)) Hbe eq_refl) as [H _].
    destruct (H eq_refl) as (l & h' & E & Hk & Hm). exists l, h'. split; [exact E|]. split; [exact Hk|]. split; [exact (Hm 0x80010020)|exact (Hm 0x80010028)].
  - destruct (machine_mode_correct demo_sym nocall re (boot_hart 5 0) eq_refl Hsym eq_refl (fun c => Hcs c 5 0 ltac:(lia) ltac:(lia)) Hbe eq_refl) as [H _].
    destruct (H eq_refl) as (h' & E & Hc & _). exists h'. split; [exact E|]. rewrite Hc. reflexivity.
  - destruct (machine_mode_correct demo_sym nocall rm (boot_hart 0 9) eq_refl Hsym eq_refl (fun c => Hcs c 0 9 ltac:(lia) ltac:(lia)) Hbe eq_refl) as [_ H].
    destruct (H eq_refl) as (h' & E & _ & Hm). exists h'. split; [exact E|]. rewrite Hm. reflexivity.
Defined.
