(* ===== verification/Boot.v ===== *)
(** [kernel/main.c]: kmain, over the state of all components.

    The kernel is the machine of Trap (processes, memory, console, interrupt controller,
    disk, control registers) with the buffer cache, the pointer to the kernel's page table
    and satp.  The console is the serial port itself.  The init functions of the components
    print what they have done; their models leave that out, so it is here ([kalloc_up] and
    so on).  As elsewhere the answers of the allocators come before the call that asks for
    them: this order cannot be observed.  The addresses of the linker script and of the
    assembly routines are parameters. *)
From stdpp Require Import gmap.
From S2P Require Import Prelude Mem Layout Hash Kalloc Kmalloc Proc Vm Bio Uart Kprintf Syscall Virtio Plic Trap.

(** Symbols of linker.ld. *)
Record symbols := mk_symbols { _kernel_start : Z; _text_end : Z; _kernel_end : Z }.

Definition SIE_STIE : Z := Z.shiftl 1 5.
Definition SIZEOF_PROC : Z := 360.
Definition line (fmt : string) : list Z := chars fmt ++ [10].

Section boot.
Context {D : Type} `{Uart16550 D} {P : Type} `{PlicPort P} {V : Type} `{!BlockDevice V}.

Record kernel := mk_kernel { mc : mach D P; cache : bcache V; kernel_root_pt : Z; satp : Z }.
Definition with_mc (v : mach D P) (k : kernel) : kernel := mk_kernel v (cache k) (kernel_root_pt k) (satp k).
Definition with_cache (v : bcache V) (k : kernel) : kernel := mk_kernel (mc k) v (kernel_root_pt k) (satp k).
Definition with_root (v : Z) (k : kernel) : kernel := mk_kernel (mc k) (cache k) v (satp k).
Definition with_satp (v : Z) (k : kernel) : kernel := mk_kernel (mc k) (cache k) (kernel_root_pt k) v.
Definition on_mach {A} : M (mach D P) A -> M kernel A := zoom mc with_mc.
Definition on_cache {A} : M (bcache V) A -> M kernel A := zoom cache with_cache.
Definition on_ram {A} (m : M kmem A) : M kernel A := on_mach (on_sys (on_mem m)).
Definition on_uart {A} (m : M D A) : M kernel A := on_mach (on_sys (on_con m)).
Definition say (fmt : list Z) (ap : list va) : M kernel unit := on_uart (kprintf fmt ap).

(** * Memory *)
Definition buddy_dump : M kernel unit :=
  for_range (Z.to_nat (MAX_ORDER + 1)) 0 (fun i =>
    a ← on_ram (get_area i);
    say (line "  order %d: %d blocks (%d KB each), head=%p")
      [VUint i; VInt (i32 (nr_free a)); VInt (i32 (Z.shiftl PG_SIZE i / 1024)); VPtr (free_list a)]).
Definition kalloc_up (l : symbols) : M kernel unit :=
  n ← on_ram (kalloc_init (_kernel_end l));
  say (line "kalloc_init: buddy allocator, orders 0-%d, %d free pages (%d KB)")
    [VInt MAX_ORDER; VInt (i32 n); VInt (i32 (n * (PG_SIZE / 1024)))];;
  buddy_dump.

Definition vm_create_up (l : symbols) (vec : vectors) : M kernel unit :=
  root ← on_ram (vm_create_kernel_pt (_kernel_start l) (_text_end l) (user_vec vec));
  modify (with_root root);;
  say (line "vm_create_kernel_pt: page table at %p") [VPtr root].

(** The fences order memory accesses that are ordered here. *)
Definition vm_enable_paging : M kernel unit :=
  root ← gets kernel_root_pt;
  modify (with_satp (MAKE_SATP root));;
  say (line "vm_enable_paging: Sv39 enabled") [].

Definition kmalloc_up : M kernel unit :=
  on_ram kmalloc_init;;
  say (line "kmalloc_init: 7 size classes (32..2048), big alloc > 2048") [].

(** * Devices *)

(** The three pages of the queue: the first failure is the last call. *)
Definition virtio_pages : M kmem (Z * Z * Z) :=
  d ← kalloc;
  if d =? VNULL then mret (d, VNULL, VNULL) else
  a ← kalloc;
  if a =? VNULL then mret (d, a, VNULL) else
  u ← kalloc;
  mret (d, a, u).
Definition virtio_up (rd : Z -> Z) : M kernel unit :=
  q ← on_ram virtio_pages;
  on_mach (on_blk (virtio_blk_init rd q.1.1 q.1.2 q.2));;
  say (line "virtio_blk: init done") [].

(** * The first processes *)

(** What proc_create allocates; it gives the object back when there is no stack. *)
Definition proc_memory : M kmem (Z * Z) :=
  o ← kmalloc SIZEOF_PROC;
  if o =? Kalloc.NULL then mret (Kalloc.NULL, Kalloc.NULL) else
  k ← kalloc;
  if k =? Kalloc.NULL then kmfree o;; mret (o, Kalloc.NULL) else
  mret (o, k).
Definition proc_up : M kernel unit :=
  m0 ← on_ram proc_memory;
  m1 ← on_ram proc_memory;
  on_mach (on_proc (proc_bootstrap m0.1 m0.2 m1.1 m1.2)).

(** * kmain, up to the call of the scheduler *)
Definition kmain (l : symbols) (vec : vectors) (rd : Z -> Z) : M kernel unit :=
  on_uart uart_init;;
  on_mach (csrw_stvec (kernel_vec vec));;
  v ← on_mach (gets (fun m => sie_reg (csr m)));
  on_mach (csrw_sie (Z.lor v SIE_STIE));;
  say (10 :: line "bobchouOS is booting...") [];;
  say (line "kernel: %p .. %p (%d bytes)") [VPtr (_kernel_start l); VPtr (_kernel_end l); VInt (i32 (_kernel_end l - _kernel_start l))];;
  kalloc_up l;;
  vm_create_up l vec;;
  vm_enable_paging;;
  kmalloc_up;;
  on_mach (on_proc proc_init);;
  on_mach plic_init;;
  virtio_up rd;;
  on_cache binit;;
  proc_up;;
  say (line "starting scheduler...") [].
End boot.
#[global] Arguments kernel D P V : clear implicits.
