(* ===== verification/BootThm.v ===== *)
(** kmain brings every component into the state its theorems start from. *)
From stdpp Require Import gmap.
From S2P Require Import Prelude Mem Layout Hash Kalloc Buddy KallocInv KallocAlloc KallocFree KallocSpec KallocThm.
From S2P Require Import Kmalloc KmallocInv KmallocProof KmallocSpec KmallocFree KmallocThm Vm VmInv VmWalk VmMap VmThm VmaProof MemBoot.
From S2P Require Import Vma Sbrk Proc ProcInv ProcMoves ProcOps ProcStep Virtio VirtioInv VirtioThm Bio BioInv BioThm Uart Kprintf ConsoleThm Syscall Plic Trap TrapProof Boot.

(** * What has been printed *)
Definition transcript (ls : list (list Z * list va)) (t : list Z) : Prop :=
  exists ts, t = concat ts /\ Forall2 (fun l t => renders l.1 l.2 t) ls ts.
Lemma transcript_app l1 l2 t1 t2 : transcript l1 t1 -> transcript l2 t2 -> transcript (l1 ++ l2) (t1 ++ t2).
Proof. intros (a & -> & Ha) (b & -> & Hb). exists (a ++ b). split; [by rewrite concat_app|by apply Forall2_app]. Qed.
Lemma transcript_det ls t1 t2 : transcript ls t1 -> transcript ls t2 -> t1 = t2.
Proof.
  intros (a & -> & Ha) (b & -> & Hb). f_equal. revert b Hb. induction Ha as [|l t ls ts Hl _ IH]; intros b Hb; inversion Hb; subst; [done|].
  f_equal; [by eapply renders_det|by apply IH].
Qed.

Section console.
Context {D : Type} `{Uart16550 D}.
Definition said (ls : list (list Z * list va)) (c c' : D) : Prop := con_ready c' /\ exists t, con_sent c' = con_sent c ++ t /\ transcript ls t.
Lemma said_nil c : con_ready c -> said [] c c.
Proof. intros Hc. split; [done|]. exists []. split; [by rewrite app_nil_r|by exists []; split; [|constructor]]. Qed.
Lemma said_trans l1 l2 a b c : said l1 a b -> said l2 b c -> said (l1 ++ l2) a c.
Proof.
  intros (_ & t1 & E1 & T1) (Hc & t2 & E2 & T2). split; [done|]. exists (t1 ++ t2). split; [by rewrite E2, E1, app_assoc|by apply transcript_app].
Qed.
End console.

(** A string literal without NULs. *)
Ltac is_text := unfold text; apply (bool_decide_unpack _); vm_compute; exact I.

Section boot.
Context {D : Type} `{Uart16550 D} {P : Type} `{PlicDevice P} {V : Type} `{!BlockDevice V}.

(** The kernel by its parts. *)
Definition parts (p : kst) (s : kmem) (sp : Z -> aspace) (c : D) (pl : P) (b : disk) (r : csrs) (ca : bcache V) (root sa : Z) : kernel D P V :=
  mk_kernel (mk_mach (mk_sysst p s sp c) pl b r) ca root sa.

Section lifts.
Context (p : kst) (s : kmem) (sp : Z -> aspace) (c : D) (pl : P) (b : disk) (r : csrs) (ca : bcache V) (root sa : Z).

Lemma wp_ram {A} (m : M kmem A) (Q : A -> kernel D P V -> Prop) : wp m (fun a s' => Q a (parts p s' sp c pl b r ca root sa)) s -> wp (on_ram m) Q (parts p s sp c pl b r ca root sa).
Proof using Type. intros Hw. by apply wp_zoom, wp_zoom, wp_zoom. Qed.
Lemma wp_uart {A} (m : M D A) (Q : A -> kernel D P V -> Prop) : wp m (fun a c' => Q a (parts p s sp c' pl b r ca root sa)) c -> wp (on_uart m) Q (parts p s sp c pl b r ca root sa).
Proof using Type. intros Hw. by apply wp_zoom, wp_zoom, wp_zoom. Qed.
Lemma wp_proc {A} (m : M kst A) (Q : A -> kernel D P V -> Prop) : wp m (fun a p' => Q a (parts p' s sp c pl b r ca root sa)) p -> wp (on_mach (on_proc m)) Q (parts p s sp c pl b r ca root sa).
Proof using Type. intros Hw. by apply wp_zoom, wp_on_proc. Qed.

Lemma wp_stvec v (Q : unit -> kernel D P V -> Prop) : Q tt (parts p s sp c pl b (mk_csrs (sepc r) (scause r) (stval r) (sstatus r) v (sie_reg r)) ca root sa) -> wp (on_mach (csrw_stvec v)) Q (parts p s sp c pl b r ca root sa).
Proof using Type. done. Qed.
Lemma wp_sie v (Q : unit -> kernel D P V -> Prop) : Q tt (parts p s sp c pl b (mk_csrs (sepc r) (scause r) (stval r) (sstatus r) (stvec r) v) ca root sa) -> wp (on_mach (csrw_sie v)) Q (parts p s sp c pl b r ca root sa).
Proof using Type. done. Qed.
Lemma plic_init_spec (Q : unit -> kernel D P V -> Prop) :
  (forall pl', plic_ready pl' -> Q tt (parts p s sp c pl' b (mk_csrs (sepc r) (scause r) (stval r) (sstatus r) (stvec r) (Z.lor (sie_reg r) SIE_SEIE)) ca root sa)) -> wp (on_mach plic_init) Q (parts p s sp c pl b r ca root sa).
Proof using Type.
  intros HQ. apply wp_zoom. unfold plic_init, csrw_sie. apply wp_bind, wp_zoom. eapply wp_mono; [apply plic_setup_spec|]. cbv beta. intros [] pl' (Hr & _). wp_steps. by apply HQ.
Qed.

Lemma say_spec fmt ap (Q : unit -> kernel D P V -> Prop) : con_ready c -> text fmt -> Forall va_ok ap -> fmt_typed fmt ap = true ->
  (forall c', said [(fmt, ap)] c c' -> Q tt (parts p s sp c' pl b r ca root sa)) -> wp (say fmt ap) Q (parts p s sp c pl b r ca root sa).
Proof using Type.
  intros Hc Ht Ha Hty HQ. apply wp_uart. pose proof (vprintfmt_spec (S := D) _ _ ap (le_n _) Ht Ha) as Hv. rewrite Hty in Hv. destruct Hv as (t & Hs & Hr).
  eapply wp_mono; [by apply Hs|]. cbv beta. intros [] c' (_ & Hc' & He). apply HQ. split; [done|]. exists t. split; [done|].
  exists [t]. split; [by cbn; rewrite app_nil_r|]. by repeat constructor.
Qed.
End lifts.

(** * Memory *)
Lemma free_list_range s k : kalloc_inv s -> 0 <= k <= MAX_ORDER -> 0 <= free_list (free_areas s k) < 2 ^ 64.
Proof using Type.
  intros [fl Hinv] Hk. pose proof (fl_chain _ _ (bi_lists _ _ _ Hinv) k Hk) as Hc. destruct (fl k) as [|a l] eqn:E; [by rewrite Hc|].
  destruct Hc as [Ea _]. rewrite Ea. destruct (Buddy.pt_ok (bi_part _ _ _ Hinv) a k) as (_ & ? & ? & ?); [left; rewrite E; left|].
  pose proof (bi_bounds _ _ _ Hinv) as (? & ? & _). pose proof (bsz_ge k ltac:(lia)). klia.
Qed.

Lemma dump_typed i n m h : 0 <= i < 11 -> fmt_typed (line "  order %d: %d blocks (%d KB each), head=%p") [VUint i; VInt n; VInt m; VPtr h] = true.
Proof using Type.
  intros Hi. assert (i ∈ seqZ 0 11) as Hin by (by apply elem_of_seqZ). clear Hi. vm_compute in Hin. repeat (apply elem_of_cons in Hin as [->|Hin]; [vm_compute; reflexivity|]). by apply elem_of_nil in Hin.
Qed.

Lemma table_root_range s root : kalloc_inv s -> VmInv.pt_ok s root -> 0 <= root < 2 ^ 64.
Proof using Type. intros Hi Hpt. destruct (table_dram s root [] root Hi Hpt) as (? & ? & ? & ?); [by split; cbn; [lia|constructor]|done|]. klia. Qed.

Definition dump_lines (s : kmem) : list (list Z * list va) :=
  (fun i => let a := free_areas s i in (line "  order %d: %d blocks (%d KB each), head=%p", [VUint i; VInt (i32 (nr_free a)); VInt (i32 (Z.shiftl PG_SIZE i / 1024)); VPtr (free_list a)])) <$> seqZ 0 (MAX_ORDER + 1).

Section dump.
Context (p : kst) (s : kmem) (sp : Z -> aspace) (pl : P) (b : disk) (r : csrs) (ca : bcache V) (root sa : Z).

Lemma buddy_dump_spec c (Q : unit -> kernel D P V -> Prop) : kalloc_inv s -> con_ready c ->
  (forall c', said (dump_lines s) c c' -> Q tt (parts p s sp c' pl b r ca root sa)) -> wp buddy_dump Q (parts p s sp c pl b r ca root sa).
Proof using Type.
  intros Hi Hc HQ. unfold buddy_dump, dump_lines in *. set (f := fun i => _) in HQ.
  apply (wp_for_range (fun i k => exists c', k = parts p s sp c' pl b r ca root sa /\ said (f <$> seqZ 0 i) c c')).
  - exists c. split; [done|by apply said_nil].
  - intros i k Hr (c1 & -> & Hs). assert (0 <= i <= MAX_ORDER) as Hi' by klia. wp_steps. apply wp_ram, wp_get_area; [done|].
    apply say_spec; [apply Hs|is_text| | |].
    + repeat (apply Forall_cons; split); [split; [lia|klia]|apply i32_range..|by apply free_list_range|constructor].
    + apply dump_typed. klia.
    + intros c2 Hc2. exists c2. split; [done|]. rewrite seqZ_app, fmap_app by lia. by eapply said_trans.
  - intros k (c' & -> & Hs). by apply HQ.
Qed.
End dump.

(** ** Pages and objects of the kernel *)
Definition zero_page (s : kmem) (a : Z) : Prop := forall x, a <= x < a + 4096 -> ram s x = 0.
Lemma zero_kept s s' a : heap_kept s s' -> live s a 0 -> zero_page s a -> zero_page s' a.
Proof using Type. intros [[_ Hk] _] Ha Hz x Hx. destruct (Hk a 0 Ha) as [_ Hr]. destruct (Hr x) as [-> _]; [by apply covers_page|by apply Hz]. Qed.
Lemma live_kept s s' a : heap_kept s s' -> live s a 0 -> live s' a 0.
Proof using Type. intros [[_ Hk] _] Ha. by apply Hk. Qed.

(** Pages held by the kernel: allocated, zero, all different. *)
Definition held_pages (s : kmem) (l : list Z) : Prop := NoDup l /\ forall a, a ∈ l -> a <> Kalloc.NULL /\ live s a 0 /\ zero_page s a.
Lemma held_pages_kept s s' l : heap_kept s s' -> held_pages s l -> held_pages s' l.
Proof using Type. intros Hk [Hn Hl]. split; [done|]. intros a Ha. destruct (Hl a Ha) as (? & ? & ?). split_and!; [done|by eapply live_kept|by eapply zero_kept]. Qed.
Lemma kalloc_held s l n : kheap_inv s -> held_pages s l -> spare_n s (S n) ->
  wp kalloc (fun r s' => kheap_inv s' /\ heap_kept s s' /\ spare_n s' n /\ held_pages s' (r :: l) /\ r <> Kalloc.NULL) s.
Proof using Type.
  intros Hh Hl Hn. eapply wp_mono; [by apply (kalloc_boot s n)|]. intros r s' (Hr & Hh' & Hk & Hn' & Hlr & Hnew & Hz). split_and!; try done. destruct (held_pages_kept s s' l Hk Hl) as [Hnd Hl']. split.
  - constructor; [|done]. intros Hin. destruct Hl as [_ Hl]. destruct (Hl r Hin) as (_ & Ha & _). by apply (Hnew 0).
  - intros a [->|Ha]%elem_of_cons; [done|by apply Hl'].
Qed.

Lemma virtio_pages_spec s l n : kheap_inv s -> held_pages s l -> spare_n s (3 + n) ->
  wp virtio_pages (fun q s' => kheap_inv s' /\ heap_kept s s' /\ spare_n s' n /\ held_pages s' (q.2 :: q.1.2 :: q.1.1 :: l)) s.
Proof using Type.
  intros Hh Hl Hn. unfold virtio_pages. change VNULL with Kalloc.NULL. wp_steps. eapply wp_mono; [by apply (kalloc_held s l (2 + n))|]. intros d s1 (Hh1 & Hk1 & Hn1 & Hl1 & Hd). rewrite (proj2 (Z.eqb_neq _ _) Hd).
  wp_steps. eapply wp_mono; [by apply (kalloc_held s1 (d :: l) (1 + n))|]. intros a s2 (Hh2 & Hk2 & Hn2 & Hl2 & Ha). rewrite (proj2 (Z.eqb_neq _ _) Ha).
  wp_steps. eapply wp_mono; [by apply (kalloc_held s2 (a :: d :: l) n)|]. intros u s3 (Hh3 & Hk3 & Hn3 & Hl3 & Hu). wp_steps. split_and!; try done.
  eapply heap_kept_trans; [done|by eapply heap_kept_trans].
Qed.

(** The memory of one process: an object for [struct proc] and a page for its stack. *)
Lemma proc_memory_spec s l n : kheap_inv s -> held_pages s l -> spare_n s (2 + n) ->
  wp proc_memory (fun q s' => kheap_inv s' /\ heap_kept s s' /\ spare_n s' n /\ held_pages s' (q.2 :: l) /\ q.1 <> Kalloc.NULL /\ (forall m, ~ obj s q.1 m) /\ exists m, SIZEOF_PROC <= m /\ obj s' q.1 m) s.
Proof using Type.
  intros Hh Hl Hn. unfold proc_memory. wp_steps. eapply wp_mono; [by apply (kmalloc_boot s (1 + n) SIZEOF_PROC)|]. intros o s1 (Ho & Hh1 & Hk1 & Hn1 & Hnew & m & Hm & Hobj). rewrite (proj2 (Z.eqb_neq _ _) Ho).
  wp_steps. eapply wp_mono; [apply (kalloc_held s1 l n); [done|by eapply held_pages_kept|done]|]. intros k s2 (Hh2 & Hk2 & Hn2 & Hl2 & Hk). rewrite (proj2 (Z.eqb_neq _ _) Hk).
  wp_steps. split_and!; try done; [by eapply heap_kept_trans|]. exists m. split; [done|]. by apply Hk2.
Qed.

(** * kmain *)
(** What the linker, the hardware and the zeroed memory provide. *)
Record boot_ok (l : symbols) (vec : vectors) (rd : Z -> Z) (k : kernel D P V) : Prop := {
  bo_uart : dlab (regs (con (sys (mc k)))) = false;
  bo_procs : ps (sys (mc k)) = kernel_zero;
  bo_areas : forall o, 0 <= o <= MAX_ORDER -> free_areas (km (sys (mc k))) o = mk_free_area Kalloc.NULL 0;
  bo_disk : device_present rd /\ quiet (bufs (blk (mc k))) /\ used_idx (blk (mc k)) = 0;
  bo_cache : zeroed (cache k);
  bo_start : _kernel_start l = KERN_BASE;
  bo_text : _text_end l mod PG_SIZE = 0 /\ KERN_BASE < _text_end l < PHYS_STOP;
  bo_vec : user_vec vec mod PG_SIZE = 0 /\ 0 <= user_vec vec < PHYS_STOP;
  bo_end : KERN_BASE <= _kernel_end l <= PHYS_STOP;
  bo_room : first_free (_kernel_end l) + PG_SIZE * 90 <= PHYS_STOP
}.

Definition boot_lines (l : symbols) (n : Z) (s : kmem) (root : Z) : list (list Z * list va) :=
  [(10 :: line "bobchouOS is booting...", []);
   (line "kernel: %p .. %p (%d bytes)", [VPtr (_kernel_start l); VPtr (_kernel_end l); VInt (i32 (_kernel_end l - _kernel_start l))]);
   (line "kalloc_init: buddy allocator, orders 0-%d, %d free pages (%d KB)", [VInt MAX_ORDER; VInt (i32 n); VInt (i32 (n * (PG_SIZE / 1024)))])] ++
  dump_lines s ++
  [(line "vm_create_kernel_pt: page table at %p", [VPtr root]);
   (line "vm_enable_paging: Sv39 enabled", []);
   (line "kmalloc_init: 7 size classes (32..2048), big alloc > 2048", []);
   (line "virtio_blk: init done", []);
   (line "starting scheduler...", [])].

(** The running kernel: the state in which kmain enters the scheduler. *)
Record running_kernel (l : symbols) (vec : vectors) (k k' : kernel D P V) (o0 k0 o1 k1 qd qa qu : Z) : Prop := {
  rk_heap : kheap_inv (km (sys (mc k')));
  rk_table : kernel_table (_text_end l) (user_vec vec) (km (sys (mc k'))) (kernel_root_pt k');
  rk_satp : satp k' = MAKE_SATP (kernel_root_pt k');
  rk_procs : ps (sys (mc k')) = booted o0 k0 o1 k1;
  rk_inv : proc_inv (ps (sys (mc k')));
  rk_objs : exists m0 m1, SIZEOF_PROC <= m0 /\ SIZEOF_PROC <= m1 /\ obj (km (sys (mc k'))) o0 m0 /\ obj (km (sys (mc k'))) o1 m1;
  rk_pages : held_pages (km (sys (mc k'))) [k1; k0; qu; qa; qd];
  rk_plic : plic_ready (plic (mc k'));
  rk_disk : vinv [] [] [] (mk_vdev 0 []) (blk (mc k')) /\ d_locked (blk (mc k')) = false /\ mmio (blk (mc k')) = mmio (blk (mc k)) ++ handshake qd qa qu;
  rk_cache : binv [] (cache k');
  rk_csr : stvec (csr (mc k')) = kernel_vec vec /\ sie_reg (csr (mc k')) = Z.lor (Z.lor (sie_reg (csr (mc k))) SIE_STIE) SIE_SEIE;
  rk_lines : exists n s, PG_SIZE * n = PHYS_STOP - first_free (_kernel_end l) /\ kalloc_init (_kernel_end l) (km (sys (mc k))) = Ok (n, s) /\
    said (boot_lines l n s (kernel_root_pt k')) (con (sys (mc k))) (con (sys (mc k')))
}.

Section steps.
Context (l : symbols) (vec : vectors) (p : kst) (s : kmem) (sp : Z -> aspace) (c : D) (pl : P) (b : disk) (r : csrs) (ca : bcache V) (root sa : Z).
Context (Hc : con_ready c).
Definition after (s' : kmem) (root' sa' : Z) (b' : disk) (ls : list (list Z * list va)) (Q : unit -> kernel D P V -> Prop) : Prop :=
  forall c', said ls c c' -> Q tt (parts p s' sp c' pl b' r ca root' sa').

Lemma kalloc_up_spec n s1 Q : kalloc_init (_kernel_end l) s = Ok (n, s1) -> kalloc_inv s1 ->
  after s1 root sa b ((line "kalloc_init: buddy allocator, orders 0-%d, %d free pages (%d KB)", [VInt MAX_ORDER; VInt (i32 n); VInt (i32 (n * (PG_SIZE / 1024)))]) :: dump_lines s1) Q ->
  wp (kalloc_up l) Q (parts p s sp c pl b r ca root sa).
Proof using Hc.
  intros E Hi HQ. unfold kalloc_up. wp_steps. apply wp_ram, (wp_intro _ _ _ _ _ E). wp_steps. apply say_spec; [done|is_text| |done|].
  { repeat (apply Forall_cons; split); try apply i32_range; [|constructor]. cbn. klia. }
  intros c1 H1'. apply buddy_dump_spec; [done|apply H1'|]. intros c2 H2'. apply HQ. by apply (said_trans [_] _ _ c1).
Qed.
Lemma vm_create_up_spec root' s1 Q : vm_create_kernel_pt (_kernel_start l) (_text_end l) (user_vec vec) s = Ok (root', s1) -> 0 <= root' < 2 ^ 64 ->
  after s1 root' sa b [(line "vm_create_kernel_pt: page table at %p", [VPtr root'])] Q -> wp (vm_create_up l vec) Q (parts p s sp c pl b r ca root sa).
Proof using Hc.
  intros E Hr HQ. unfold vm_create_up. wp_steps. apply wp_ram, (wp_intro _ _ _ _ _ E). wp_steps. apply (say_spec p s1 sp c pl b r ca root' sa); [done|is_text|by apply Forall_singleton|done|exact HQ].
Qed.
Lemma vm_enable_paging_spec Q : after s root (MAKE_SATP root) b [(line "vm_enable_paging: Sv39 enabled", [])] Q -> wp vm_enable_paging Q (parts p s sp c pl b r ca root sa).
Proof using Hc.
  intros HQ. unfold vm_enable_paging. wp_steps. apply (say_spec p s sp c pl b r ca root (MAKE_SATP root)); [done|is_text|by constructor|done|exact HQ].
Qed.
Lemma kmalloc_up_spec s1 Q : kmalloc_init s = Ok (tt, s1) -> after s1 root sa b [(line "kmalloc_init: 7 size classes (32..2048), big alloc > 2048", [])] Q ->
  wp kmalloc_up Q (parts p s sp c pl b r ca root sa).
Proof using Hc.
  intros E HQ. unfold kmalloc_up. wp_steps. apply wp_ram, (wp_intro _ _ _ _ _ E). apply say_spec; [done|is_text|by constructor|done|exact HQ].
Qed.
Lemma virtio_up_spec rd n Q : device_present rd -> quiet (bufs b) -> used_idx b = 0 -> kheap_inv s -> spare_n s (3 + n) ->
  (forall s' b' qd qa qu, kheap_inv s' -> heap_kept s s' -> spare_n s' n -> held_pages s' [qu; qa; qd] -> mmio b' = mmio b ++ handshake qd qa qu -> vinv [] [] [] (mk_vdev 0 []) b' -> d_locked b' = false ->
     after s' root sa b' [(line "virtio_blk: init done", [])] Q) -> wp (virtio_up rd) Q (parts p s sp c pl b r ca root sa).
Proof using Hc.
  intros Hd Hq Hu Hh Hn HQ. unfold virtio_up. wp_steps. apply wp_ram. eapply wp_mono; [apply (virtio_pages_spec s [] n); try done; split; [constructor|by intros a ?%elem_of_nil]|].
  intros [[qd qa] qu] s' (Hh' & Hk & Hn' & Hl). cbn [fst snd] in *. assert (forall a, a ∈ [qu; qa; qd] -> a <> Kalloc.NULL) as Hnz by (intros a Ha; by apply Hl).
  wp_steps. apply wp_zoom, wp_zoom. eapply wp_mono; [apply (virtio_init_spec rd qd qa qu b Hd); [apply Hnz; set_solver..|done|done]|]. cbv beta. intros [] b' (Hm & Hv & Hlk & _).
  apply (say_spec p s' sp c pl b' r ca root sa); [done|is_text|by constructor|done|]. exact (HQ s' b' qd qa qu Hh' Hk Hn' Hl Hm Hv Hlk).
Qed.
End steps.

Lemma proc_init_runs o0 k0 o1 k1 : boot_results o0 k0 o1 k1 -> exists p1, proc_init kernel_zero = Ok (tt, p1) /\ proc_bootstrap o0 k0 o1 k1 p1 = Ok (tt, booted o0 k0 o1 k1).
Proof using Type. intros Hr. pose proof (boot_runs o0 k0 o1 k1 Hr) as E. eexists. split; [reflexivity|exact E]. Qed.

Lemma proc_up_spec p p1 s sp c pl b r ca root sa lh Q : proc_init kernel_zero = Ok (tt, p1) -> p = p1 -> kheap_inv s -> held_pages s lh -> spare_n s 4 ->
  (forall s' o0 k0 o1 k1 m0 m1, boot_results o0 k0 o1 k1 -> kheap_inv s' -> heap_kept s s' -> held_pages s' (k1 :: k0 :: lh) -> SIZEOF_PROC <= m0 -> SIZEOF_PROC <= m1 -> obj s' o0 m0 -> obj s' o1 m1 ->
     Q tt (parts (booted o0 k0 o1 k1) s' sp c pl b r ca root sa)) -> wp proc_up Q (parts p s sp c pl b r ca root sa).
Proof using Type.
  intros Ep -> Hh Hl Hn HQ. unfold proc_up. wp_steps. apply wp_ram. eapply wp_mono; [by apply (proc_memory_spec s lh 2)|]. intros [o0 k0] s1 (Hh1 & Hk1 & Hn1 & Hl1 & Ho0 & _ & m0 & Hm0 & Hobj0). cbn [fst snd] in *.
  wp_steps. apply wp_ram. eapply wp_mono; [by apply (proc_memory_spec s1 (k0 :: lh) 0)|]. intros [o1 k1] s2 (Hh2 & Hk2 & _ & Hl2 & Ho1 & Hnew & m1 & Hm1 & Hobj1). cbn [fst snd] in *.
  assert (boot_results o0 k0 o1 k1) as Hr.
  { destruct Hl2 as [Hnd Hin]. split_and!; try done; [apply (Hin k0); set_solver|apply (Hin k1); set_solver| |].
    - intros ->. by apply (Hnew m0).
    - intros ->. apply NoDup_cons in Hnd as [Hnd _]. apply Hnd. left. }
  apply wp_proc. destruct (proc_init_runs o0 k0 o1 k1 Hr) as (p2 & E2 & E3). rewrite Ep in E2. injection E2 as <-.
  apply (wp_intro _ _ _ _ _ E3). apply (HQ s2 o0 k0 o1 k1 m0 m1); try done; [by eapply heap_kept_trans|]. by apply Hk2.
Qed.

Lemma kmain_spec l vec rd k : boot_ok l vec rd k -> wp (kmain l vec rd) (fun _ k' => exists o0 k0 o1 k1 qd qa qu, running_kernel l vec k k' o0 k0 o1 k1 qd qa qu) k.
Proof using Type.
  intros [Hu Hp Ha (Hd & Hq & Hui) Hz Hst [Ht Htr] [Hv Hvr] He Hroom]. destruct k as [[[p s sp c] pl b r] ca root sa]. cbn [mc sys ps km con plic blk csr cache kernel_root_pt satp] in *. subst p.
  change (mk_kernel (mk_mach (mk_sysst kernel_zero s sp c) pl b r) ca root sa) with (parts kernel_zero s sp c pl b r ca root sa).
  destruct (memory_init (_text_end l) (user_vec vec) Ht Htr Hv Hvr s (_kernel_end l) 7 Ha He Hroom) as (n & s1 & E1 & Hi1 & _ & _ & Hn & root' & s2 & E2 & Hkt2 & _ & s3 & E3 & Hh3 & _ & Hkt3 & Hsp3).
  rewrite <- Hst in E2. destruct (uart_init_spec c Hu) as (c0 & E0 & Er0 & Hc0).
  assert (0 <= root' < 2 ^ 64) as Hroot by (eapply table_root_range; [apply Hh3|apply Hkt3]).
  unfold kmain. wp_steps. apply wp_uart, (wp_intro _ _ _ _ _ E0). wp_steps. apply wp_stvec. wp_steps. apply wp_zoom, wp_gets. wp_steps. apply wp_sie.
  wp_steps. apply say_spec; [done|is_text|by constructor|done|]. intros c1 S1. wp_steps. apply say_spec; [apply S1|is_text| |done|].
  { repeat (apply Forall_cons; split); [..|apply i32_range|constructor]; cbn; rewrite ?Hst; klia. }
  intros c2 S2. wp_steps. apply (kalloc_up_spec l _ _ _ _ _ _ _ _ _ _ (proj1 S2) n s1 _ E1 Hi1). intros c3 S3.
  wp_steps. apply (vm_create_up_spec l vec _ _ _ _ _ _ _ _ _ _ (proj1 S3) root' s2 _ E2 Hroot). intros c4 S4.
  wp_steps. apply (vm_enable_paging_spec _ _ _ _ _ _ _ _ _ _ (proj1 S4)). intros c5 S5.
  wp_steps. apply (kmalloc_up_spec _ _ _ _ _ _ _ _ _ _ (proj1 S5) s3 _ E3). intros c6 S6.
  wp_steps. eapply wp_proc, wp_intro; [reflexivity|]. wp_steps. apply plic_init_spec. intros pl' Hpl.
  wp_steps. apply (virtio_up_spec _ _ _ _ _ _ _ _ _ _ (proj1 S6) rd 4 _ Hd Hq Hui Hh3 Hsp3). intros s4 b' qd qa qu Hh4 Hk4 Hsp4 Hl4 Hm Hvi Hlk c7 S7.
  wp_steps. apply wp_zoom. eapply wp_mono; [by apply (binit_spec ca)|]. cbv beta. intros [] ca' [Hbi _].
  wp_steps. eapply (proc_up_spec _ _ s4 sp c7 pl' b' _ ca' root' _ [qu; qa; qd]); [reflexivity|reflexivity|done..|]. intros s5 o0 k0 o1 k1 m0 m1 Hr Hh5 Hk5 Hl5 Hm0 Hm1 Ho0 Ho1.
  apply say_spec; [apply S7|is_text|by constructor|done|]. intros c8 S8. exists o0, k0, o1, k1, qd, qa, qu. split; cbn [parts mc sys ps km con plic blk csr cache kernel_root_pt satp stvec sie_reg]; try done.
  - eapply kernel_table_kept; [done..| |exact Hkt3]. eapply page_kept_trans; [apply Hk4|apply Hk5].
  - by apply booted_inv.
  - by exists m0, m1.
  - exists n, s1. split_and!; [done..|]. assert (said [] c c0) as S0 by (split; [done|]; exists []; split; [change (r_sent (regs c0) = r_sent (regs c) ++ []); by rewrite Er0, app_nil_r|by exists []; split; [|constructor]]).
    pose proof (said_trans _ _ _ _ _ S0 (said_trans _ _ _ _ _ S1 (said_trans _ _ _ _ _ S2 (said_trans _ _ _ _ _ S3 (said_trans _ _ _ _ _ S4 (said_trans _ _ _ _ _ S5 (said_trans _ _ _ _ _ S6 (said_trans _ _ _ _ _ S7 S8)))))))) as S9. exact S9.
Qed.
End boot.

(** C1: kmain, from the zeroed memory the assembly leaves, on a machine with a block device
    and at least 90 free pages, reaches its call of the scheduler without panic, with
    every component initialised: the heap's invariant holds over the buddy allocator's;
    the kernel page table maps exactly the device pages, the text read-only, the rest of
    memory and the trampoline, and is the one in satp; processes 0 and 1 exist, are the
    two runnable ones and occupy objects and zeroed stack pages of their own; the process
    invariant, the disk driver's and the buffer cache's hold; the disk has had its
    handshake, with three more pages; the interrupt controller delivers the disk's
    interrupt; timer and external interrupts are enabled, traps go to kernel_vec; and the
    console shows the boot messages, with the true page counts, and nothing else. *)
Theorem kmain_correct {D} `{Uart16550 D} {P} `{PlicDevice P} {V} `{!BlockDevice V} (l : symbols) (vec : vectors) (rd : Z -> Z) (k : kernel D P V) : boot_ok l vec rd k ->
  exists k' o0 k0 o1 k1 qd qa qu, kmain l vec rd k = Ok (tt, k') /\ running_kernel l vec k k' o0 k0 o1 k1 qd qa qu.
Proof.
  intros Hb. destruct (wp_elim _ _ _ (kmain_spec l vec rd k Hb)) as ([] & k' & E & o0 & k0 & o1 & k1 & qd & qa & qu & Hr). by exists k', o0, k0, o1, k1, qd, qa, qu.
Qed.

(** A machine at power-on. *)
Definition boot_syms : symbols := mk_symbols KERN_BASE (KERN_BASE + 0x8000) (KERN_BASE + 0x200000).
Definition boot_vecs : vectors := mk_vectors (KERN_BASE + 0x200) (KERN_BASE + 0x7000) (KERN_BASE + 0x7100).
Definition boot_machine : kernel sim_uart sim_plic (gmap (Z * Z) block) :=
  mk_kernel (mk_mach (mk_sysst kernel_zero demo_bss (fun _ => mk_aspace 0 []) (mk_sim (mk_uart_regs 0 0 0 0 0 [] []) 1)) (mk_sim_plic (mk_plic (fun _ => 0) (fun _ => 0) (fun _ => 0) [] [])) demo0 (mk_csrs 0 0 0 0 0 0)) zero0 0 0.
Lemma boot_machine_ok : boot_ok boot_syms boot_vecs demo_rd boot_machine.
Proof.
  split.
  - reflexivity.
  - reflexivity.
  - intros o _. reflexivity.
  - exact (conj demo_present (conj demo_quiet eq_refl)).
  - exact zero0_zeroed.
  - reflexivity.
  - unfold boot_syms. cbn [_text_end]. rewrite KERN_BASE_val, PHYS_STOP_val. by vm_compute.
  - unfold boot_vecs. cbn [user_vec]. rewrite KERN_BASE_val, PHYS_STOP_val. by vm_compute.
  - unfold boot_syms. cbn [_kernel_end]. rewrite KERN_BASE_val, PHYS_STOP_val. by vm_compute.
  - unfold boot_syms. cbn [_kernel_end]. rewrite KERN_BASE_val, PHYS_STOP_val. by vm_compute.
Qed.
Lemma kmain_correct_witness : exists k', kmain boot_syms boot_vecs demo_rd boot_machine = Ok (tt, k') /\ kheap_inv (km (sys (mc k'))) /\ satp k' = MAKE_SATP (kernel_root_pt k').
Proof.
  destruct (kmain_correct boot_syms boot_vecs demo_rd boot_machine boot_machine_ok) as (k' & o0 & k0 & o1 & k1 & qd & qa & qu & E & Hr). exists k'.
  exact (conj E (conj (rk_heap _ _ _ _ _ _ _ _ _ _ _ Hr) (rk_satp _ _ _ _ _ _ _ _ _ _ _ Hr))).
Defined.
