(* ===== verification/UserProg.v ===== *)
(** The programs under [user/]: init.c, utest.c, the stubs of usys.S and start.S.

    A program is a tree of requests ([prog]): each node is a system call or an access to
    memory, with the program that goes on from its answer.  [Forever] is [for (;;)].
    String literals are their characters with the NUL.  The address of a local array is
    the answer to [Local].  The stubs and start.S are routines of Asm. *)
From S2P Require Import Prelude Mem Layout Kalloc Kprintf Syscall Asm.

(** * Requests *)
Inductive userE : Type -> Type :=
| Write (fd : Z) (buf : list Z) (len : Z) : userE Z
| Exit (status : Z) : userE Empty_set
| Fork : userE Z
| Exec (path : list Z) (argv : list (list Z)) : userE Z
| Wait : userE (Z * Z)            (* the result and *status *)
| Sleep (ms : Z) : userE Z
| Sbrk (n : Z) : userE Z
| Load (n : nat) (a : Z) : userE Z
| Store (n : nat) (a v : Z) : userE unit
| Local (size : Z) : userE Z.

Inductive prog (A : Type) : Type :=
| Ret (a : A)
| Vis (X : Type) (e : userE X) (k : X -> prog A)
| Forever (body : prog unit).
Arguments Ret {A} a.
Arguments Vis {A X} e k.
Arguments Forever {A} body.

Fixpoint bind {A B} (t : prog A) (f : A -> prog B) : prog B :=
  match t with
  | Ret a => f a
  | Vis e k => Vis e (fun x => bind (k x) f)
  | Forever body => Forever body
  end.
#[export] Instance prog_ret : MRet prog := fun A a => Ret a.
#[export] Instance prog_bind : MBind prog := fun A B f t => bind t f.

Definition call {X} (e : userE X) : prog X := Vis e Ret.
Definition exit {A} (status : Z) : prog A := Vis (Exit status) (fun x : Empty_set => match x with end).
Definition literal (s : string) : list Z := chars s ++ [0].

(** [(long)p == -1] *)
Definition is_error (p : Z) : bool := i64 p =? -1.
Definition ch (s : string) : Z := match chars s with c :: _ => c | [] => 0 end.
(** [p[i]] and [p[i] = c] for a [char *], [*p] and [*p = v] for an [int *]. *)
Definition get_char (p i : Z) : prog Z := call (Load 1 (p + i)).
Definition put_char (p i c : Z) : prog unit := call (Store 1 (p + i) c).
Definition get_int (p : Z) : prog Z := v ← call (Load 4 p); mret (i32 v).
Definition put_int (p v : Z) : prog unit := call (Store 4 p v).

(** * init.c *)
Definition init_main : prog Z :=
  pid ← call Fork;
  (if pid =? 0 then call (Exec (literal "utest") [literal "utest"]);; exit 1 else mret tt);;
  Forever (call Wait;; mret tt).

(** * utest.c *)

(** [while (s[len]) len++;] *)
Fixpoint length_of (s : list Z) : Z :=
  match s with
  | [] => 0
  | c :: s' => if c =? 0 then 0 else 1 + length_of s'
  end.
Definition print (s : list Z) : prog unit := let len := length_of s in call (Write 1 s len);; mret tt.
Definition pass (name : list Z) : prog unit := print (literal "[utest] ");; print name;; print (chars ": PASS" ++ [10; 0]).
Definition fail (name : list Z) : prog unit := print (literal "[utest] ");; print name;; print (chars ": FAIL" ++ [10; 0]);; exit 1.
Definition check (bad : bool) (name : string) : prog unit := if bad then fail (literal name) else mret tt.

Definition test_hello : prog unit := print (chars "hello, bobchouOS!" ++ [10; 0]);; pass (literal "hello").
Definition test_sleep : prog unit := call (Sleep 100);; pass (literal "sleep").

(** In [p[0] != 'H' || p[1] != 'i'] the second character is read only when the first
    is right. *)
Definition test_sbrk_grow_shrink : prog unit :=
  p ← call (Sbrk 4096);
  check (is_error p) "sbrk_grow_shrink: grow";;
  put_char p 0 (ch "H");;
  put_char p 1 (ch "i");;
  x ← get_char p 0;
  bad ← (if negb (x =? ch "H") then mret true else y ← get_char p 1; mret (negb (y =? ch "i")));
  check bad "sbrk_grow_shrink: read back";;
  q ← call (Sbrk (-4096));
  check (is_error q) "sbrk_grow_shrink: shrink";;
  pass (literal "sbrk_grow_shrink").

Definition test_lazy_alloc : prog unit :=
  base ← call (Sbrk (16 * 4096));
  check (is_error base) "lazy_alloc: sbrk";;
  put_char base (3 * 4096) (ch "A");;
  put_char base (7 * 4096) (ch "B");;
  x ← get_char base (3 * 4096);
  bad ← (if negb (x =? ch "A") then mret true else y ← get_char base (7 * 4096); mret (negb (y =? ch "B")));
  check bad "lazy_alloc: read back";;
  call (Sbrk (-16 * 4096));;
  pass (literal "lazy_alloc").

Definition test_elastic_stack : prog unit :=
  big ← call (Local 8192);
  put_char big 0 (ch "S");;
  put_char big 8191 (ch "E");;
  x ← get_char big 0;
  bad ← (if negb (x =? ch "S") then mret true else y ← get_char big 8191; mret (negb (y =? ch "E")));
  check bad "elastic_stack";;
  pass (literal "elastic_stack").

Definition test_cow_fork : prog unit :=
  p ← call (Sbrk 4096);
  check (is_error p) "cow_fork: sbrk";;
  put_int p 42;;
  pid ← call Fork;
  check (pid <? 0) "cow_fork: fork";;
  (if pid =? 0 then
    x ← get_int p;
    check (negb (x =? 42)) "cow_fork: child read";;
    call (Sleep 100);;
    x ← get_int p;
    check (negb (x =? 42)) "cow_fork: child post-cow";;
    print (chars "[utest] cow_fork child: PASS" ++ [10; 0]);;
    exit 0
  else mret tt);;
  call (Sleep 50);;
  put_int p 99;;
  call Wait;;
  x ← get_int p;
  check (negb (x =? 99)) "cow_fork: parent read";;
  call (Sbrk (-4096));;
  pass (literal "cow_fork").

Definition test_fork_exec : prog unit :=
  p ← call (Sbrk 4096);
  check (is_error p) "fork_exec: sbrk";;
  put_int p 77;;
  pid ← call Fork;
  check (pid <? 0) "fork_exec: fork";;
  (if pid =? 0 then
    call (Exec (literal "utest") [literal "utest"; literal "exec_child"]);;
    fail (literal "fork_exec: exec failed")
  else mret tt);;
  call Wait;;
  put_int p 88;;
  x ← get_int p;
  check (negb (x =? 88)) "fork_exec: parent write";;
  call (Sbrk (-4096));;
  pass (literal "fork_exec").

(** [argv] has [argc] elements; the characters of [argv[1]] are those of the list. *)
Definition utest_main (argv : list (list Z)) : prog Z :=
  (if match argv with _ :: (c :: _) :: _ => c =? ch "e" | _ => false end then exit 0 else mret tt);;
  test_hello;;
  test_sleep;;
  test_sbrk_grow_shrink;;
  test_lazy_alloc;;
  test_elastic_stack;;
  test_cow_fork;;
  test_fork_exec;;
  print (chars "[utest] all tests passed" ++ [10; 0]);;
  exit 0.

(** * usys.S and start.S *)
Module Usys.
Import Asm.
Definition stub (num : Z) : list instr := [LI a7 num; ECALL; RET].
Definition write : list instr := stub SYS_write.
Definition exit : list instr := [LI a7 SYS_exit; ECALL].
Definition fork : list instr := stub SYS_fork.
Definition exec : list instr := stub SYS_exec.
Definition wait : list instr := stub SYS_wait.
Definition getpid : list instr := stub SYS_getpid.
Definition kill : list instr := stub SYS_kill.
Definition sleep : list instr := stub SYS_sleep.
Definition sbrk : list instr := stub SYS_sbrk.
Definition _start : list instr := [CALL "main"; LI a7 SYS_exit; ECALL].
End Usys.
