(* ===== verification/UserOs.v ===== *)
(** What the system calls promise to programs, as a transition system of processes, and
    how a program is followed through it.

    Each process has its own memory: the heap between [u_heap] and [u_brk] and the stack
    between [u_low] and [u_high].  [local_step] is a request that concerns one process;
    [Fork], [Wait] and the end of a process concern others.  Any process that can move may
    move: the scheduler, the time a [Sleep] takes and the moment pages are copied or
    allocated are not fixed.  Memory is assumed not to run out.

    The rules follow one process beside init, and a process beside its child. *)
From S2P Require Import Prelude Mem Kprintf Syscall UserProg.

Record uproc := mk_uproc {
  u_code : prog Z; u_pid : Z; u_parent : Z; u_mem : mem;
  u_heap : Z; u_brk : Z; u_low : Z; u_high : Z; u_status : option Z }.
Definition at_code (c : prog Z) (p : uproc) : uproc := mk_uproc c (u_pid p) (u_parent p) (u_mem p) (u_heap p) (u_brk p) (u_low p) (u_high p) (u_status p).
Definition at_mem (m : mem) (p : uproc) : uproc := mk_uproc (u_code p) (u_pid p) (u_parent p) m (u_heap p) (u_brk p) (u_low p) (u_high p) (u_status p).
Definition at_brk (b : Z) (p : uproc) : uproc := mk_uproc (u_code p) (u_pid p) (u_parent p) (u_mem p) (u_heap p) b (u_low p) (u_high p) (u_status p).
Definition at_parent (q : Z) (p : uproc) : uproc := mk_uproc (u_code p) (u_pid p) q (u_mem p) (u_heap p) (u_brk p) (u_low p) (u_high p) (u_status p).
Definition dead (st : Z) (p : uproc) : uproc := mk_uproc (u_code p) (u_pid p) (u_parent p) (u_mem p) (u_heap p) (u_brk p) (u_low p) (u_high p) (Some st).

(** A program file: its main, the end of its data and its stack. *)
Record binary := mk_binary { i_main : list (list Z) -> prog Z; i_heap : Z; i_low : Z; i_high : Z }.
Definition loaded (i : binary) (argv : list (list Z)) (p : uproc) : uproc :=
  mk_uproc (i_main i argv) (u_pid p) (u_parent p) (fun _ => 0) (i_heap i) (i_heap i) (i_low i) (i_high i) None.

Definition readable (p : uproc) (a n : Z) : bool :=
  ((u_heap p <=? a) && (a + n <=? u_brk p)) || ((u_low p <=? a) && (a + n <=? u_high p)).
(** The bytes between the old and the new break are zero when they are there again. *)
Definition moved (b : Z) (p : uproc) : uproc :=
  let lo := Z.min b (u_brk p) in at_brk b (at_mem (memset (u_mem p) lo 0 (Z.max b (u_brk p) - lo)) p).

Section os.
Context (files : list Z -> option binary).

Definition local_call {X} (e : userE X) (p : uproc) : (X -> prog Z) -> option (uproc * list Z) :=
  match e in userE X return (X -> prog Z) -> option (uproc * list Z) with
  | Write fd buf len => fun k =>
      if (fd =? 1) && (0 <=? len) && (len <=? WRITE_MAX) then Some (at_code (k len) p, take (Z.to_nat len) buf)
      else Some (at_code (k (if fd =? 1 then - EINVAL else - EBADF)) p, [])
  | Exit st => fun _ => Some (dead st p, [])
  | Fork => fun _ => None
  | Exec path argv => fun k => match files path with Some i => Some (loaded i argv p, []) | None => Some (at_code (k (-1)) p, []) end
  | Wait => fun _ => None
  | Sleep _ => fun k => Some (at_code (k 0) p, [])
  | Sbrk n => fun k =>
      let b := u_brk p + n in
      if (u_heap p <=? b) && (b <=? u_low p) then Some (at_code (k (u_brk p)) (moved b p), []) else Some (at_code (k (2 ^ 64 - 1)) p, [])
  | Load n a => fun k => if readable p a (Z.of_nat n) then Some (at_code (k (ld n (u_mem p) a)) p, []) else Some (dead (-1) p, [])
  | Store n a v => fun k => if readable p a (Z.of_nat n) then Some (at_code (k tt) (at_mem (st n (u_mem p) a v) p), []) else Some (dead (-1) p, [])
  | Local size => fun k => if u_low p <=? u_high p - size then Some (at_code (k (u_high p - size)) p, []) else Some (dead (-1) p, [])
  end.

(** One step of a process by itself, with what it prints; main's result is its status. *)
Definition local_step (p : uproc) : option (uproc * list Z) :=
  match u_status p with
  | Some _ => None
  | None =>
      match u_code p with
      | Ret r => Some (dead r p, [])
      | Vis e k => local_call e p k
      | Forever body => Some (at_code (bind body (fun _ => Forever body)) p, [])
      end
  end.

(** * All processes *)
Record os := mk_os { u_procs : list uproc; u_out : list Z; u_next : Z }.
Definition INIT : Z := 1.

(** When a process ends its children are init's. *)
Definition orphans (p : uproc) (l : list uproc) : list uproc :=
  match u_status p with None => l | Some _ => (fun q => if u_parent q =? u_pid p then at_parent INIT q else q) <$> l end.

Definition child_of (p q : uproc) : bool := u_parent q =? u_pid p.
Definition finished (q : uproc) : bool := match u_status q with Some _ => true | None => false end.
(** The first child that has ended. *)
Definition zombie_of (p : uproc) (l : list uproc) : option (nat * uproc) :=
  list_find (fun q => child_of p q && finished q = true) l.

Definition global_call {X} (e : userE X) (i : nat) (p : uproc) (s : os) : (X -> prog Z) -> option os :=
  match e in userE X return (X -> prog Z) -> option os with
  | Fork => fun k =>
      Some (mk_os (<[i := at_code (k (u_next s)) p]> (u_procs s) ++ [mk_uproc (k 0) (u_next s) (u_pid p) (u_mem p) (u_heap p) (u_brk p) (u_low p) (u_high p) None]) (u_out s) (u_next s + 1))
  | Wait => fun k =>
      match zombie_of p (u_procs s) with
      | Some (j, q) => Some (mk_os (delete j (<[i := at_code (k (u_pid q, default 0 (u_status q))) p]> (u_procs s))) (u_out s) (u_next s))
      | None => if existsb (child_of p) (u_procs s) then None else Some (mk_os (<[i := at_code (k (-1, 0)) p]> (u_procs s)) (u_out s) (u_next s))
      end
  | _ => fun _ => None
  end.

Definition step_at (i : nat) (s : os) : option os :=
  p ← u_procs s !! i;
  match local_step p with
  | Some (p', o) => Some (mk_os (orphans p' (<[i := p']> (u_procs s))) (u_out s ++ o) (u_next s))
  | None => match u_status p, u_code p with None, Vis e k => global_call e i p s k | _, _ => None end
  end.
Definition step (s s' : os) : Prop := exists i, step_at i s = Some s'.

(** * What happens in the end, whatever the scheduler does *)
Inductive inevitable (Q : os -> Prop) (s : os) : Prop :=
| now : Q s -> inevitable Q s
| later : (exists s', step s s') -> (forall s', step s s' -> inevitable Q s') -> inevitable Q s.
End os.

(** * Rules to follow programs *)

Definition wait_body : prog unit := call Wait;; mret tt.
(** init in its loop, in front of the call of wait or in it. *)
Record in_loop (i : uproc) : Prop := {
  il_pid : u_pid i = INIT;
  il_parent : u_parent i = 0;
  il_status : u_status i = None;
  il_code : u_code i = Forever wait_body \/ u_code i = Vis Wait (fun _ => Forever wait_body)
}.

Section rules.
Context (files : list Z -> option binary) (Q : os -> Prop).
Implicit Types p c i : uproc.

(** ** Steps of a process by itself *)
Inductive runs : nat -> uproc -> list Z -> uproc -> Prop :=
| runs_refl p : runs 0 p [] p
| runs_step n p o p1 o' p' : local_step files p = Some (p1, o) -> runs n p1 o' p' -> runs (S n) p (o ++ o') p'.

Lemma local_step_alive p p' o : local_step files p = Some (p', o) -> u_status p = None.
Proof using Type. unfold local_step. by destruct (u_status p). Qed.
Lemma local_call_ids {X} (e : userE X) k p p' o : local_call files e p k = Some (p', o) -> u_pid p' = u_pid p /\ u_parent p' = u_parent p.
Proof using Type. destruct e; cbn; intros E; repeat case_match; simplify_eq; done. Qed.
Lemma local_step_ids p p' o : local_step files p = Some (p', o) -> u_pid p' = u_pid p /\ u_parent p' = u_parent p.
Proof using Type. unfold local_step. destruct (u_status p); [done|]. destruct (u_code p) as [r|X e k|b]; intros E; [by simplify_eq|by eapply local_call_ids|by simplify_eq]. Qed.
Lemma runs_ids n p o p' : runs n p o p' -> u_pid p' = u_pid p /\ u_parent p' = u_parent p.
Proof using Type. induction 1 as [|n p o p1 o' p' Hs _ [-> ->]]; [done|by apply local_step_ids in Hs]. Qed.
Lemma runs_alive n p o p' : runs n p o p' -> u_status p' = None -> u_status p = None.
Proof using Type. destruct 1; [done|]. intros _. by eapply local_step_alive. Qed.
Lemma runs_trans n m p o p1 o' p' : runs n p o p1 -> runs m p1 o' p' -> runs (n + m) p (o ++ o') p'.
Proof using Type. induction 1; intros Hm; [done|]. rewrite <- app_assoc. econstructor; eauto. Qed.

Lemma orphans_alive p l : u_status p = None -> orphans p l = l.
Proof using Type. unfold orphans. by intros ->. Qed.
Lemma orphans_none p l : (forall q, q ∈ l -> u_parent q <> u_pid p) -> orphans p l = l.
Proof using Type.
  intros Hl. unfold orphans. destruct (u_status p); [|done]. induction l as [|q l IH]; [done|]. cbn. rewrite IH by (intros; apply Hl; by right).
  destruct (Z.eqb_spec (u_parent q) (u_pid p)) as [E|_]; [by destruct (Hl q ltac:(left))|done].
Qed.

(** ** init beside other processes *)
Definition busy (l : list uproc) : Prop :=
  (exists p, p ∈ l /\ u_parent p = INIT) /\ forall p, p ∈ l -> u_parent p = INIT -> u_status p = None.

Lemma zombie_cons p q l : zombie_of p (q :: l) = if child_of p q && finished q then Some (0%nat, q) else prod_map S id <$> zombie_of p l.
Proof using Type. unfold zombie_of. cbn [list_find]. by destruct (child_of p q && finished q). Qed.
Lemma no_zombie p l : (forall q, q ∈ l -> u_parent q = u_pid p -> u_status q = None) -> zombie_of p l = None.
Proof using Type.
  intros Hl. apply list_find_None, Forall_forall. intros q Hq [Hc Hf]%andb_true_iff. unfold child_of in Hc. apply Z.eqb_eq in Hc. unfold finished in Hf. by rewrite (Hl q Hq Hc) in Hf.
Qed.

Lemma init_blocked i k l out nx : in_loop i -> u_code i = Vis Wait k -> busy l -> step_at files 0 (mk_os (i :: l) out nx) = None.
Proof using Type.
  intros [Hp Hpar Hs _] Hc [(p & Hin & Hpp) Hl]. unfold step_at. cbn [u_procs lookup list_lookup option_bind mbind]. unfold local_step. rewrite Hs, Hc. cbn [local_call global_call u_procs].
  rewrite no_zombie; [|intros q [->|Hq]%elem_of_cons; [done|rewrite Hp; by apply Hl]].
  replace (existsb (child_of i) (i :: l)) with true; [done|]. symmetry. apply existsb_exists. exists p. split; [right; by apply list_elem_of_In|]. unfold child_of. rewrite Hp, Hpp. done.
Qed.
Lemma init_enters i l out nx : in_loop i -> u_code i = Forever wait_body ->
  exists i', in_loop i' /\ u_code i' = Vis Wait (fun _ => Forever wait_body) /\ step_at files 0 (mk_os (i :: l) out nx) = Some (mk_os (i' :: l) out nx).
Proof using Type.
  intros [Hp Hpar Hs _] Hc. exists (at_code (Vis Wait (fun _ => Forever wait_body)) i). split; [|split; [reflexivity|]]; cycle 1.
  - unfold step_at. cbn [u_procs lookup list_lookup option_bind mbind]. unfold local_step. rewrite Hs, Hc. cbn [u_out u_next insert list_insert]. rewrite orphans_alive by done. by rewrite app_nil_r.
  - split; try done. by right.
Qed.

(** The others move, whatever init does meanwhile. *)
Lemma others l out nx : busy l -> (forall i, in_loop i -> exists j s', step_at files (S j) (mk_os (i :: l) out nx) = Some s') ->
  (forall i j s', in_loop i -> step_at files (S j) (mk_os (i :: l) out nx) = Some s' -> inevitable files Q s') ->
  forall i, in_loop i -> inevitable files Q (mk_os (i :: l) out nx).
Proof using Type.
  intros Hb Hex Hall. assert (forall i k, in_loop i -> u_code i = Vis Wait k -> inevitable files Q (mk_os (i :: l) out nx)) as Hw.
  { intros i k Hi Hc. apply later; [destruct (Hex i Hi) as (j & s' & E); by exists s', (S j)|]. intros s' [[|j] E]; [by rewrite (init_blocked i k) in E|by apply (Hall i j)]. }
  intros i Hi. destruct (il_code i Hi) as [Hc|Hc]; [|by eapply Hw].
  destruct (init_enters i l out nx Hi Hc) as (i' & Hi' & Hc' & E0). apply later; [by exists (mk_os (i' :: l) out nx), 0%nat|].
  intros s' [[|j] E]; [rewrite E0 in E; simplify_eq; by eapply Hw|by apply (Hall i j)].
Qed.

(** ** One process *)
Definition solo p out nx : Prop := forall i, in_loop i -> inevitable files Q (mk_os [i; p] out nx).
(** A child of init. *)
Definition stands p : Prop := u_parent p = INIT /\ INIT < u_pid p.

Lemma alive_busy p l : stands p -> u_status p = None -> (forall q, q ∈ l -> u_parent q <> INIT) -> busy (p :: l).
Proof using Type. intros [Hp _] Hs Hl. split; [exists p; split; [left|done]|]. intros q [->|Hq]%elem_of_cons; [done|]. intros E. by destruct (Hl q Hq). Qed.

Lemma solo_step p p' o out nx : stands p -> local_step files p = Some (p', o) -> u_status p' = None -> solo p' (out ++ o) nx -> solo p out nx.
Proof using Type.
  intros Hst Hl Hs' Hk. pose proof (local_step_alive _ _ _ Hl) as Hs.
  assert (forall i, step_at files 1 (mk_os [i; p] out nx) = Some (mk_os [i; p'] (out ++ o) nx)) as E.
  { intros i. unfold step_at. cbn [u_procs lookup list_lookup option_bind mbind]. rewrite Hl. cbn [u_procs u_out u_next insert list_insert]. by rewrite orphans_alive. }
  refine (others [p] out nx _ _ _); [apply alive_busy; try done; by intros q ?%elem_of_nil|intros i _; by exists 0%nat, (mk_os [i; p'] (out ++ o) nx)|].
  intros i [|j] s' Hi Hj; [rewrite E in Hj; simplify_eq; by apply Hk|by destruct j].
Qed.
Lemma solo_runs n p o p' : runs n p o p' -> forall out nx, stands p -> u_status p' = None -> solo p' (out ++ o) nx -> solo p out nx.
Proof using Type.
  induction 1 as [p|n p o p1 o' p' Hl Hr IH]; intros out nx Hst Hs Hk; [by rewrite app_nil_r in Hk|].
  eapply solo_step; [done|exact Hl|by eapply runs_alive|]. apply IH; [|done|by rewrite <- app_assoc]. destruct (local_step_ids _ _ _ Hl) as [Ep Eq]. destruct Hst. split; congruence.
Qed.

(** Its end: init collects it. *)
Lemma solo_end p p' o st out nx : stands p -> local_step files p = Some (p', o) -> u_status p' = Some st -> (forall i, in_loop i -> Q (mk_os [i] (out ++ o) nx)) -> solo p out nx.
Proof using Type.
  intros Hst Hl Hs' Hk. pose proof (local_step_alive _ _ _ Hl) as Hs. destruct (local_step_ids _ _ _ Hl) as [Ep Eq]. destruct Hst as [Hpp Hpid]. unfold INIT in *.
  assert (forall i, in_loop i -> step_at files 1 (mk_os [i; p] out nx) = Some (mk_os [i; p'] (out ++ o) nx)) as E.
  { intros i [Hi1 Hi2 _ _]. unfold step_at. cbn [u_procs lookup list_lookup option_bind mbind]. rewrite Hl. cbn [u_procs u_out u_next insert list_insert]. rewrite orphans_none; [done|].
    intros q [->|[->|[]%elem_of_nil]%elem_of_cons]%elem_of_cons; rewrite ?Hi2, ?Eq, ?Hpp, Ep; lia. }
  assert (forall i k, in_loop i -> u_code i = Vis Wait k -> (forall r, k r = Forever wait_body) -> inevitable files Q (mk_os [i; p'] (out ++ o) nx)) as Hw.
  { intros i k [Hi1 Hi2 Hi3 Hi4] Hc Hkr.
    assert (step_at files 0 (mk_os [i; p'] (out ++ o) nx) = Some (mk_os [at_code (k (u_pid p', st)) i] (out ++ o) nx)) as E0.
    { unfold step_at. cbn [u_procs lookup list_lookup option_bind mbind]. unfold local_step. rewrite Hi3, Hc. cbn [local_call global_call u_procs].
      rewrite !zombie_cons. unfold child_of, finished. rewrite Hi1, Hi2, Hs', Eq, Hpp. cbn. by rewrite Hs'. }
    apply later; [by eexists _, 0%nat|]. intros s' [[|[|j]] Ej]; [|unfold step_at in Ej; cbn [u_procs lookup list_lookup option_bind mbind] in Ej; unfold local_step in Ej; by rewrite Hs' in Ej|by destruct j].
    rewrite E0 in Ej. simplify_eq. apply now, Hk. split; try done. left. cbn. apply Hkr. }
  assert (forall i, in_loop i -> inevitable files Q (mk_os [i; p'] (out ++ o) nx)) as Hz.
  { intros i Hi. destruct (il_code i Hi) as [Hc|Hc]; [|by eapply Hw]. destruct (init_enters i [p'] (out ++ o) nx Hi Hc) as (i' & Hi' & Hc' & E0).
    apply later; [by eexists _, 0%nat|]. intros s' [[|[|j]] Ej]; [rewrite E0 in Ej; simplify_eq; by eapply Hw| |by destruct j].
    unfold step_at in Ej. cbn [u_procs lookup list_lookup option_bind mbind] in Ej. unfold local_step in Ej. by rewrite Hs' in Ej. }
  refine (others [p] out nx _ _ _); [apply alive_busy; try done; by intros q ?%elem_of_nil|intros i Hi; exists 0%nat; eauto|].
  intros i [|j] s' Hi Hj; [rewrite E in Hj by done; simplify_eq; by apply Hz|by destruct j].
Qed.

(** ** A process and its child *)
Definition duo p c out nx : Prop := forall i, in_loop i -> inevitable files Q (mk_os [i; p; c] out nx).

Lemma solo_fork p k out nx : stands p -> INIT < nx -> u_status p = None -> u_code p = Vis Fork k ->
  duo (at_code (k nx) p) (mk_uproc (k 0) nx (u_pid p) (u_mem p) (u_heap p) (u_brk p) (u_low p) (u_high p) None) out (nx + 1) -> solo p out nx.
Proof using Type.
  intros Hst Hnx Hs Hc Hk. assert (local_step files p = None) as Hl by (unfold local_step; by rewrite Hs, Hc).
  refine (others [p] out nx _ _ _); [apply alive_busy; try done; by intros q ?%elem_of_nil|..].
  - intros i _. exists 0%nat. eexists. unfold step_at. cbn [u_procs lookup list_lookup option_bind mbind]. rewrite Hl, Hs, Hc. reflexivity.
  - intros i [|j] s' Hi Hj; [|by destruct j]. unfold step_at in Hj. cbn [u_procs lookup list_lookup option_bind mbind] in Hj. rewrite Hl, Hs, Hc in Hj. cbn in Hj. simplify_eq. by apply Hk.
Qed.

(** The parent comes to its wait without printing, the child to its end with output [o]:
    in every order of their steps the parent then goes on with the child's status. *)
Lemma duo_join n m p p' c c' o st k out nx : runs n p [] p' -> u_status p' = None -> u_code p' = Vis Wait k -> runs m c o c' -> u_status c' = Some st ->
  stands p -> u_parent c = u_pid p -> INIT < u_pid c -> u_pid c <> u_pid p -> solo (at_code (k (u_pid c, st)) p') (out ++ o) nx -> duo p c out nx.
Proof using Type.
  remember (n + m)%nat as w eqn:Hw. revert n m p c o out Hw. induction w as [w IH] using lt_wf_ind. intros n m p c o out Hw Hp Hps Hpc Hcr Hcs Hst Hcp Hc1 Hne Hk.
  pose proof (runs_alive _ _ _ _ Hp Hps) as Hs. pose proof Hst as [Hpp Hpid]. unfold INIT in *.
  assert (busy [p; c]) as Hb by (apply alive_busy; try done; intros q ->%list_elem_of_singleton; unfold INIT; lia).
  (* a step of the parent *)
  assert (forall i s', in_loop i -> step_at files 1 (mk_os [i; p; c] out nx) = Some s' -> inevitable files Q s') as H1.
  { intros i s' Hi Hj. unfold step_at in Hj. cbn [u_procs lookup list_lookup option_bind mbind] in Hj. inversion Hp as [|n' ? o1 p1 o2 ? Hl Hr E1 E2 E3]; subst.
    - unfold local_step in Hj. rewrite Hps, Hpc in Hj. cbn [local_call global_call u_procs] in Hj. destruct Hi as [Hi1 Hi2 Hi3 Hi4].
      rewrite !zombie_cons in Hj. unfold child_of, finished in Hj. rewrite Hi2, Hpp, Hcp, Z.eqb_refl in Hj.
      rewrite (proj2 (Z.eqb_neq 0 _)), (proj2 (Z.eqb_neq 1 _)) in Hj by lia. cbn [andb] in Hj.
      inversion Hcr as [|m' ? o1 c1 o2 ? Hl Hr E1 E2 E3]; subst.
      + rewrite Hcs in Hj. cbn in Hj. rewrite Hcs in Hj. simplify_eq. rewrite app_nil_r in Hk. apply Hk. by split.
      + rewrite (local_step_alive _ _ _ Hl) in Hj. cbn in Hj. unfold child_of in Hj. rewrite Hcp, Z.eqb_refl in Hj. rewrite !orb_true_r in Hj. done.
    - destruct o1; [|done]. cbn [app] in *. subst. rewrite Hl in Hj. cbn [u_procs u_out u_next insert list_insert] in Hj. rewrite orphans_alive, app_nil_r in Hj by (by eapply runs_alive). simplify_eq.
      destruct (local_step_ids _ _ _ Hl) as [Ep Eq]. eapply (IH (n' + m)%nat ltac:(lia) n' m); try done; try congruence. split; unfold INIT; lia. }
  (* a step of the child *)
  assert (forall i s', in_loop i -> step_at files 2 (mk_os [i; p; c] out nx) = Some s' -> inevitable files Q s') as H2.
  { intros i s' Hi Hj. unfold step_at in Hj. cbn [u_procs lookup list_lookup option_bind mbind] in Hj. inversion Hcr as [|m' ? o1 c1 o2 ? Hl Hr E1 E2 E3]; subst.
    - unfold local_step in Hj. by rewrite Hcs in Hj.
    - rewrite Hl in Hj. cbn [u_procs u_out u_next insert list_insert] in Hj. destruct (local_step_ids _ _ _ Hl) as [Ep Eq]. rewrite orphans_none in Hj.
      + simplify_eq. eapply (IH (n + m')%nat ltac:(lia) n m'); try done; try congruence. by rewrite Ep, <- app_assoc.
      + intros q Hq. repeat (apply elem_of_cons in Hq as [->|Hq]); [| | |by apply elem_of_nil in Hq]; rewrite ?(il_parent _ Hi), ?Eq, ?Hpp, ?Hcp, Ep; lia. }
  refine (others [p; c] out nx Hb _ _); [|intros i [|[|j]] s' Hi Hj; [by eapply H1|by eapply H2|by destruct j]].
  intros i Hi. inversion Hp as [|n' ? o1 p1 o2 ? Hl Hr E1 E2 E3]; subst; [|exists 0%nat; eexists; unfold step_at; cbn [u_procs lookup list_lookup option_bind mbind]; by rewrite Hl].
  inversion Hcr as [|m' ? o1 c1 o2 ? Hl Hr E1 E2 E3]; subst; [exists 0%nat|exists 1%nat]; eexists; unfold step_at; cbn [u_procs lookup list_lookup option_bind mbind]; [|by rewrite Hl].
  unfold local_step. rewrite Hps, Hpc. cbn [local_call global_call u_procs]. rewrite !zombie_cons. unfold child_of, finished. rewrite (il_parent _ Hi), Hpp, Hcp, Z.eqb_refl, Hcs.
  rewrite (proj2 (Z.eqb_neq 0 _)), (proj2 (Z.eqb_neq 1 _)) by lia. done.
Qed.
End rules.
