(* ===== verification/UserTest.v ===== *)
(** utest.c passes: the tests, followed through any interleaving. *)
From S2P Require Import Prelude Mem Kprintf Syscall UserProg UserOs.

Definition shown (s : list Z) : list Z := take (Z.to_nat (length_of s)) s.
Definition passed (name : string) : list Z := chars "[utest] " ++ chars name ++ chars ": PASS" ++ [10].

Section process.
Context (files : list Z -> option binary) (pid par heap low high : Z).
Definition at_point (c : prog Z) (m : mem) (b : Z) : uproc := mk_uproc c pid par m heap b low high None.

(** By itself the process prints [o] and comes to a state in [R]. *)
Definition till (p : uproc) (o : list Z) (R : uproc -> Prop) : Prop := exists n p', runs files n p o p' /\ R p'.

Lemma till_step p o p1 o' R : local_step files p = Some (p1, o) -> till p1 o' R -> till p (o ++ o') R.
Proof using Type. intros Hs (n & p' & Hr & HR). exists (S n), p'. split; [by econstructor|done]. Qed.
Lemma till_now p (R : uproc -> Prop) : R p -> till p [] R.
Proof using Type. intros HR. exists 0%nat, p. split; [constructor|done]. Qed.

(** ** The calls *)
Definition owns (b a n : Z) : Prop := heap <= a /\ a + n <= b \/ low <= a /\ a + n <= high.
Lemma owns_readable c m b a n : owns b a n -> readable (at_point c m b) a n = true.
Proof using Type. intros Ha. unfold readable, owns in *. cbn [u_heap u_brk u_low u_high at_point]. rewrite orb_true_iff, !andb_true_iff, !Z.leb_le. lia. Qed.

Lemma do_write s len k m b o R : 0 <= len <= WRITE_MAX -> till (at_point (k len) m b) o R -> till (at_point (Vis (Write 1 s len) k) m b) (take (Z.to_nat len) s ++ o) R.
Proof using Type.
  intros Hl. apply till_step. unfold local_step. cbn [u_status at_point u_code local_call]. rewrite Z.eqb_refl, (proj2 (Z.leb_le _ _)), (proj2 (Z.leb_le _ _)) by lia. done.
Qed.
Lemma do_print s t k m b o R : shown s = t -> 0 <= length_of s <= WRITE_MAX -> till (at_point (k (length_of s)) m b) o R -> till (at_point (Vis (Write 1 s (length_of s)) k) m b) (t ++ o) R.
Proof using Type. intros <-. apply do_write. Qed.
Lemma do_load n a k m b o R : owns b a (Z.of_nat n) -> till (at_point (k (ld n m a)) m b) o R -> till (at_point (Vis (Load n a) k) m b) o R.
Proof using Type. intros Ha. apply (till_step _ []). unfold local_step. cbn [u_status u_code local_call at_point]. by rewrite (owns_readable _ _ _ _ _ Ha). Qed.
Lemma do_store n a v k m b o R : owns b a (Z.of_nat n) -> till (at_point (k tt) (st n m a v) b) o R -> till (at_point (Vis (Store n a v) k) m b) o R.
Proof using Type. intros Ha. apply (till_step _ []). unfold local_step. cbn [u_status u_code local_call at_point]. by rewrite (owns_readable _ _ _ _ _ Ha). Qed.
Lemma do_sbrk x k m b o R : heap <= b + x <= low -> (forall m', till (at_point (k b) m' (b + x)) o R) -> till (at_point (Vis (Sbrk x) k) m b) o R.
Proof using Type.
  intros Hx Hk. eapply (till_step _ []); [|apply Hk]. unfold local_step. cbn [u_status at_point u_code local_call u_heap u_brk u_low]. by rewrite !(proj2 (Z.leb_le _ _)) by lia.
Qed.
Lemma do_sleep ms k m b o R : till (at_point (k 0) m b) o R -> till (at_point (Vis (Sleep ms) k) m b) o R.
Proof using Type. by apply (till_step _ []). Qed.
Lemma do_local size k m b o R : low <= high - size -> till (at_point (k (high - size)) m b) o R -> till (at_point (Vis (Local size) k) m b) o R.
Proof using Type. intros Hl. apply (till_step _ []). unfold local_step. cbn [u_status at_point u_code local_call u_low u_high]. by rewrite (proj2 (Z.leb_le _ _)) by lia. Qed.

Lemma do_exit st k m b : till (at_point (Vis (Exit st) k) m b) [] (fun p' => u_status p' = Some st).
Proof using Type. eapply (till_step _ [] _ []); [reflexivity|]. by apply till_now. Qed.
Lemma do_exec path argv i k m b o R : files path = Some i -> till (loaded i argv (at_point (Vis (Exec path argv) k) m b)) o R -> till (at_point (Vis (Exec path argv) k) m b) o R.
Proof using Type. intros E. apply (till_step _ []). unfold local_step. cbn [u_status at_point u_code local_call]. by rewrite E. Qed.

Lemma no_error a : 0 <= a < 2 ^ 38 -> is_error a = false.
Proof using Type. intros Ha. unfold is_error, i64. rewrite Z.mod_small by lia. destruct (Z.ltb_spec a (2 ^ 63)); [|lia]. apply Z.eqb_neq. lia. Qed.
Lemma ld_st_ne n n' m a a' v : a' + Z.of_nat n' <= a \/ a + Z.of_nat n <= a' -> ld n' (st n m a v) a' = ld n' m a'.
Proof using Type. intros Ha. apply ld_ext. intros x Hx. unfold st. by rewrite in_range_false by lia. Qed.

(** ** The tests *)
Context (Hh : 0 < heap) (Hroom : heap + 16 * 4096 <= low) (Hstack : low + 8192 <= high) (Hhigh : high < 2 ^ 38).
Ltac norm := cbn [bind mbind prog_bind mret prog_ret call get_char put_char get_int put_int check negb].
Ltac owned := unfold owns; cbn; lia.

Lemma pass_runs name k m b o R : 0 <= length_of name <= WRITE_MAX -> till (at_point (k tt) m b) o R ->
  till (at_point (bind (pass name) k) m b) ((chars "[utest] " ++ shown name ++ chars ": PASS" ++ [10]) ++ o) R.
Proof using Type.
  intros Hn Hk. unfold pass, print. norm. rewrite <- !app_assoc. apply do_print; [done|by vm_compute|]. apply do_print; [done|done|]. rewrite (app_assoc (chars ": PASS")). by apply do_print; [|by vm_compute|].
Qed.
Lemma test_hello_runs k m b o R : till (at_point (k tt) m b) o R -> till (at_point (bind test_hello k) m b) ((chars "hello, bobchouOS!" ++ [10]) ++ passed "hello" ++ o) R.
Proof using Type. intros Hk. unfold test_hello, print. norm. apply do_print; [done|by vm_compute|]. norm. by apply (pass_runs (literal "hello")); [by vm_compute|]. Qed.
Lemma test_sleep_runs k m b o R : till (at_point (k tt) m b) o R -> till (at_point (bind test_sleep k) m b) (passed "sleep" ++ o) R.
Proof using Type. intros Hk. unfold test_sleep. norm. apply do_sleep. norm. by apply (pass_runs (literal "sleep")); [by vm_compute|]. Qed.


(** Two characters are written and read back. *)
Lemma two_chars a1 a2 x1 x2 m : a1 <> a2 -> 0 <= x1 < 256 -> 0 <= x2 < 256 ->
  ld 1 (st 1 (st 1 m a1 x1) a2 x2) a1 = x1 /\ ld 1 (st 1 (st 1 m a1 x1) a2 x2) a2 = x2.
Proof using Type. intros Ha H1 H2. split; [rewrite ld_st_ne by (cbn; lia)|]; rewrite ld_st_eq; by apply Z.mod_small. Qed.
Ltac read_back := match goal with |- till (at_point (Vis (Load 1 ?a1) _) (st 1 (st 1 ?m ?a1 ?x1) ?a2 ?x2) _) _ _ =>
  let E1 := fresh in let E2 := fresh in destruct (two_chars a1 a2 x1 x2 m ltac:(lia) ltac:(by vm_compute) ltac:(by vm_compute)) as [E1 E2];
  apply do_load; [owned|]; rewrite E1, Z.eqb_refl; norm; apply do_load; [owned|]; rewrite E2; norm; rewrite Z.eqb_refl; norm end.

Lemma test_sbrk_runs k m o R : (forall m', till (at_point (k tt) m' heap) o R) -> till (at_point (bind test_sbrk_grow_shrink k) m heap) (passed "sbrk_grow_shrink" ++ o) R.
Proof using All.
  intros Hk. unfold test_sbrk_grow_shrink. norm. apply do_sbrk; [lia|]. intros m1. norm. rewrite no_error by lia. norm. apply do_store; [owned|]. norm. apply do_store; [owned|]. norm.
  read_back. apply do_sbrk; [lia|]. intros m2. norm. rewrite no_error by lia. norm. apply (pass_runs (literal "sbrk_grow_shrink")); [by vm_compute|]. replace (heap + 4096 + -4096) with heap by lia. apply Hk.
Qed.
Lemma test_lazy_runs k m o R : (forall m', till (at_point (k tt) m' heap) o R) -> till (at_point (bind test_lazy_alloc k) m heap) (passed "lazy_alloc" ++ o) R.
Proof using All.
  intros Hk. unfold test_lazy_alloc. norm. apply do_sbrk; [lia|]. intros m1. norm. rewrite no_error by lia. norm. apply do_store; [owned|]. norm. apply do_store; [owned|]. norm.
  read_back. apply do_sbrk; [lia|]. intros m2. norm. apply (pass_runs (literal "lazy_alloc")); [by vm_compute|]. replace (heap + 16 * 4096 + -16 * 4096) with heap by lia. apply Hk.
Qed.
Lemma test_stack_runs k m b o R : (forall m', till (at_point (k tt) m' b) o R) -> till (at_point (bind test_elastic_stack k) m b) (passed "elastic_stack" ++ o) R.
Proof using All.
  intros Hk. unfold test_elastic_stack. norm. apply do_local; [lia|]. norm. apply do_store; [owned|]. norm. apply do_store; [owned|]. norm.
  read_back. apply (pass_runs (literal "elastic_stack")); [by vm_compute|]. apply Hk.
Qed.
End process.

Ltac norm := cbn [bind mbind prog_bind mret prog_ret call get_char put_char get_int put_int check negb].
Ltac owned := unfold owns; cbn; lia.

Section whole.
Context (files : list Z -> option binary) (Q : os -> Prop) (heap low high : Z).
Context (Hh : 0 < heap) (Hroom : heap + 16 * 4096 <= low) (Hstack : low + 8192 <= high) (Hhigh : high < 2 ^ 38).
Context (Hfile : files (literal "utest") = Some (mk_binary utest_main heap low high)).

Lemma solo_till p o R out nx : till files p o R -> stands p -> (forall p', R p' -> u_status p' = None /\ solo files Q p' (out ++ o) nx) -> solo files Q p out nx.
Proof using Type. intros (n & p' & Hr & HR) Hst Hk. destruct (Hk p' HR). by eapply solo_runs. Qed.

(** The parent waits, the child ends with status [st]. *)
Lemma duo_till p c k R o st out nx : till files p [] (fun p' => u_status p' = None /\ u_code p' = Vis Wait k /\ R p') -> till files c o (fun c' => u_status c' = Some st) ->
  stands p -> u_parent c = u_pid p -> INIT < u_pid c -> u_pid c <> u_pid p ->
  (forall p', R p' -> solo files Q (at_code (k (u_pid c, st)) p') (out ++ o) nx) -> duo files Q p c out nx.
Proof using Type.
  intros (n & p' & Hr & Hs & Hc & HR) (m & c' & Hrc & Hcs) Hst Hcp Hc1 Hne Hk. eapply duo_join; try done. by apply Hk.
Qed.

Lemma int_back m a v : 0 <= v < 2 ^ 31 -> i32 (ld 4 (st 4 m a v) a) = v.
Proof using Type. intros Hv. rewrite ld_st_eq. unfold i32. rewrite Z.mod_mod, Z.mod_small by lia. destruct (Z.ltb_spec v (2 ^ 31)); lia. Qed.

Section test.
Context (pid : Z) (Hpid : INIT < pid).
Abbreviation here := (at_point pid INIT heap low high).

Lemma here_stands c m b : stands (here c m b).
Proof using Hpid. by split. Qed.

Lemma after_join c c' m b out nx : solo files Q (here c m b) out nx -> solo files Q (at_code c (here c' m b)) out nx.
Proof using Type. done. Qed.
Lemma fork_here c m b out nx : pid < nx -> duo files Q (here (c nx) m b) (at_point nx pid heap low high (c 0) m b) out (nx + 1) -> solo files Q (here (Vis Fork c) m b) out nx.
Proof using Hpid. intros Hnx Hk. eapply solo_fork; [apply here_stands|unfold INIT in *; lia|reflexivity|reflexivity|exact Hk]. Qed.

Lemma test_cow_solo k m out nx : pid < nx -> (forall m', solo files Q (here (k tt) m' heap) (out ++ (chars "[utest] cow_fork child: PASS" ++ [10]) ++ passed "cow_fork") (nx + 1)) ->
  solo files Q (here (bind test_cow_fork k) m heap) out nx.
Proof using All.
  intros Hnx Hk. unfold test_cow_fork. norm.
  eapply (solo_till _ [] (fun p' => exists m1, p' = here (Vis Fork _) (st 4 m1 heap 42) (heap + 4096))); [|apply here_stands|].
  { apply do_sbrk; [lia|]. intros m1. norm. rewrite no_error by lia. norm. apply do_store; [owned|]. apply till_now. exists m1. reflexivity. }
  intros p' (m1 & ->). split; [done|]. rewrite app_nil_r. apply fork_here; [lia|]. norm. rewrite (proj2 (Z.ltb_ge nx 0)), (proj2 (Z.eqb_neq nx 0)) by (unfold INIT in *; lia). norm.
  change (0 <? 0) with false. change (0 =? 0) with true. norm. set (m2 := st 4 m1 heap 42).
  eapply (duo_till _ _ _ (fun p' => exists m3, p' = here _ (st 4 m3 heap 99) (heap + 4096)) (chars "[utest] cow_fork child: PASS" ++ [10]) 0).
  - apply do_sleep. apply do_store; [owned|]. apply till_now. split; [done|]. split; [reflexivity|]. by exists m2.
  - apply do_load; [owned|]. unfold m2 at 1. rewrite int_back by lia. norm. change (negb (42 =? 42)) with false. norm. apply do_sleep. norm.
    apply do_load; [owned|]. unfold m2 at 1. rewrite int_back by lia. norm. change (negb (42 =? 42)) with false. norm.
    unfold print. norm. rewrite <- (app_nil_r (chars _ ++ [10])). apply do_print; [done|by vm_compute|]. norm. by apply do_exit.
  - apply here_stands.
  - done.
  - cbn. unfold INIT in *. lia.
  - cbn. unfold INIT in *. lia.
  - intros p' (m3 & ->). apply after_join. eapply (solo_till _ (passed "cow_fork") (fun p' => exists m', p' = here (k tt) m' heap)); [|apply here_stands|].
    + apply do_load; [owned|]. rewrite int_back by lia. norm. change (negb (99 =? 99)) with false. norm. apply do_sbrk; [lia|]. intros m4. norm.
      rewrite <- (app_nil_r (passed _)). apply (pass_runs _ _ _ _ _ _ (literal "cow_fork")); [by vm_compute|]. apply till_now. exists m4. f_equal. lia.
    + intros p' (m' & ->). split; [done|]. rewrite <- app_assoc. apply Hk.
Qed.

Lemma test_exec_solo k m out nx : pid < nx -> (forall m', solo files Q (here (k tt) m' heap) (out ++ passed "fork_exec") (nx + 1)) -> solo files Q (here (bind test_fork_exec k) m heap) out nx.
Proof using All.
  intros Hnx Hk. unfold test_fork_exec. norm.
  eapply (solo_till _ [] (fun p' => exists m1, p' = here (Vis Fork _) m1 (heap + 4096))); [|apply here_stands|].
  { apply do_sbrk; [lia|]. intros m1. norm. rewrite no_error by lia. norm. apply do_store; [owned|]. apply till_now. eexists. reflexivity. }
  intros p' (m1 & ->). split; [done|]. rewrite app_nil_r. apply fork_here; [lia|]. norm. rewrite (proj2 (Z.ltb_ge nx 0)), (proj2 (Z.eqb_neq nx 0)) by (unfold INIT in *; lia). norm.
  change (0 <? 0) with false. change (0 =? 0) with true. norm.
  eapply (duo_till _ _ _ (fun p' => p' = here _ m1 (heap + 4096)) [] 0).
  - apply till_now. split; [done|]. split; reflexivity.
  - eapply do_exec; [exact Hfile|]. by apply do_exit.
  - apply here_stands.
  - done.
  - cbn. unfold INIT in *. lia.
  - cbn. unfold INIT in *. lia.
  - intros p' ->. rewrite app_nil_r. apply after_join. eapply (solo_till _ (passed "fork_exec") (fun p' => exists m', p' = here (k tt) m' heap)); [|apply here_stands|].
    + apply do_store; [owned|]. norm. apply do_load; [owned|]. rewrite int_back by lia. norm. change (negb (88 =? 88)) with false. norm. apply do_sbrk; [lia|]. intros m4. norm.
      rewrite <- (app_nil_r (passed _)). apply (pass_runs _ _ _ _ _ _ (literal "fork_exec")); [by vm_compute|]. apply till_now. exists m4. f_equal. lia.
    + intros p' (m' & ->). split; [done|]. apply Hk.
Qed.

(** ** main *)
Definition utest_text : list Z :=
  (chars "hello, bobchouOS!" ++ [10]) ++ passed "hello" ++ passed "sleep" ++ passed "sbrk_grow_shrink" ++ passed "lazy_alloc" ++ passed "elastic_stack" ++
  (chars "[utest] cow_fork child: PASS" ++ [10]) ++ passed "cow_fork" ++ passed "fork_exec" ++ chars "[utest] all tests passed" ++ [10].

Lemma utest_solo m out nx : pid < nx -> (forall i, in_loop i -> Q (mk_os [i] (out ++ utest_text) (nx + 1 + 1))) -> solo files Q (here (utest_main [literal "utest"]) m heap) out nx.
Proof using All.
  intros Hnx HQ. unfold utest_main. norm.
  eapply (solo_till _ ((chars "hello, bobchouOS!" ++ [10]) ++ passed "hello" ++ passed "sleep" ++ passed "sbrk_grow_shrink" ++ passed "lazy_alloc" ++ passed "elastic_stack" ++ []) (fun p' => exists m', p' = here _ m' heap)); [|apply here_stands|].
  { apply test_hello_runs. apply test_sleep_runs. apply test_sbrk_runs; try done. intros m1. apply test_lazy_runs; try done. intros m2. apply test_stack_runs; try done. intros m3. apply till_now. by exists m3. }
  intros p' (m1 & ->). split; [done|]. apply test_cow_solo; [done|]. intros m2. apply test_exec_solo; [lia|]. intros m3. unfold print. norm.
  eapply (solo_till _ (chars "[utest] all tests passed" ++ [10]) (fun p' => p' = here (exit 0) m3 heap)); [|apply here_stands|].
  { rewrite <- (app_nil_r (chars _ ++ [10])). apply do_print; [done|by vm_compute|]. by apply till_now. }
  intros p' ->. split; [done|]. eapply (solo_end _ _ _ _ [] 0); [apply here_stands|reflexivity|reflexivity|]. intros i Hi. rewrite app_nil_r. unfold utest_text in HQ. rewrite app_nil_r, <- !app_assoc in *. by apply HQ.
Qed.
End test.

(** * From the first process on *)
Definition first_process : os := mk_os [mk_uproc init_main INIT 0 (fun _ => 0) heap heap low high None] [] 2.
Lemma boot_inevitable : (forall i, in_loop i -> Q (mk_os [i] utest_text 5)) -> inevitable files Q first_process.
Proof using All.
  intros HQ. apply later; [by eexists _, 0%nat|]. intros s' [[|j] Ej]; [|by destruct j]. cbn in Ej. simplify_eq.
  assert (in_loop (mk_uproc (Forever wait_body) INIT 0 (fun _ => 0) heap heap low high None)) as Hi by (split; try done; by left).
  assert (forall k, solo files Q (at_point 2 INIT heap low high (Vis (Exec (literal "utest") [literal "utest"]) k) (fun _ => 0) heap) [] 3) as Hs; [intros k|exact (Hs _ _ Hi)].
  apply (solo_step files Q _ (at_point 2 INIT heap low high (utest_main [literal "utest"]) (fun _ => 0) heap) []); [done| |reflexivity|by apply utest_solo]. unfold local_step. cbn [u_status at_point u_code local_call]. rewrite Hfile. reflexivity.
Qed.
End whole.
