(* ===== verification/UserProgThm.v ===== *)
(** The theorems on the user programs and on the way they call the kernel. *)
From S2P Require Import Prelude Mem Layout Hash Kalloc Kmalloc Proc Vm Vma Sbrk Uart Kprintf ConsoleThm Syscall Asm AsmProof UserProg UserOs UserTest.

(** ** The system at rest: init alone, in its loop, and the output of utest. *)
Definition at_rest (s : os) : Prop := exists i, in_loop i /\ s = mk_os [i] utest_text 5.
Lemma rest_steps files s : at_rest s -> (exists s', step files s s') /\ forall s', step files s s' -> at_rest s'.
Proof.
  intros (i & [Hp Hpar Hs Hc] & ->). assert (exists i', in_loop i' /\ step_at files 0 (mk_os [i] utest_text 5) = Some (mk_os [i'] utest_text 5)) as (i' & Hi' & E).
  { destruct Hc as [Hc|Hc].
    - destruct (init_enters files i [] utest_text 5) as (i' & Hi' & _ & E); [split; auto|done|by exists i'].
    - exists (at_code (Forever wait_body) i). split; [split; try done; by left|]. unfold step_at. cbn [u_procs lookup list_lookup option_bind mbind]. unfold local_step. rewrite Hs, Hc. cbn [local_call global_call u_procs].
      rewrite zombie_cons. cbn [existsb]. unfold child_of, finished. rewrite Hp, Hpar, Hs. done. }
  split; [by eexists _, 0%nat|]. intros s' [[|j] Ej]; [rewrite E in Ej; simplify_eq; by exists i'|by destruct j].
Qed.

Lemma fail_runs files pid par heap low high name k m b : 0 <= length_of name <= WRITE_MAX ->
  till files (at_point pid par heap low high (bind (fail name) k) m b) (chars "[utest] " ++ shown name ++ chars ": FAIL" ++ [10]) (fun p' => u_status p' = Some 1).
Proof.
  intros Hn. unfold fail, print. norm. rewrite <- (app_nil_r [10]), (app_assoc (chars ": FAIL")). apply do_print; [done|by vm_compute|]. apply do_print; [done|done|]. apply do_print; [done|by vm_compute|]. apply do_exit.
Qed.


Definition demo_files (path : list Z) : option binary := if decide (path = literal "utest") then Some (mk_binary utest_main 0x4000 0x100000 0x108000) else None.

(** * The stubs *)
Section stubs.
Import Asm.
Context {C : Type} `{Console C}.

(** Each stub of usys.S with its number and the kernel's handler. *)
Definition stub_table (e : call_env) : list (list instr * Z * M (sysst C) (option Z)) :=
  [(Usys.write, SYS_write, returns (sys_write e)); (Usys.exit, SYS_exit, (sys_exit;; mret None)); (Usys.fork, SYS_fork, returns (sys_fork e));
   (Usys.exec, SYS_exec, returns (sys_exec e)); (Usys.wait, SYS_wait, sys_wait e); (Usys.getpid, SYS_getpid, returns sys_getpid);
   (Usys.kill, SYS_kill, returns sys_kill); (Usys.sleep, SYS_sleep, (ms ← tf_reg TF_a0; on_ps (sys_sleep ms);; mret None)); (Usys.sbrk, SYS_sbrk, returns sys_sbrk)].

Lemma call_run sym (f : string -> M hart unit) r num h k : code r !! k = Some (LI a7 num) -> code r !! S k = Some ECALL -> (S k < length (code r))%nat -> fetchable r h -> 0 <= num < 2 ^ 64 ->
  run sym f 2 r k h = Ok (Ecall (S (S k)), set_regs (upd_reg (regs h) a7 num) h).
Proof using Type.
  intros H1 H2 Hl Hf Hn. enough (wp (run sym f 2 r k) (fun l h' => l = Ecall (S (S k)) /\ h' = set_regs (upd_reg (regs h) a7 num) h) h) as Hw by (apply wp_elim in Hw as (? & ? & E & -> & ->); done).
  apply (run_step sym f r k 1 _ _ h H1); [apply Hf; lia|]. hart_steps. apply (run_step sym f r (S k) 0 _ _ _ H2); [by apply (Hf (S k))|]. hart_steps. by rewrite u64_small.
Qed.

(** C40: The way into the kernel: a stub of usys.S puts the number of its call into a7 and
    leaves every other register, so the arguments, alone; it executes ecall and, when the
    kernel has returned behind it, returns to its caller (exit does not).  The number,
    saved in the trapframe where the dispatcher looks for it, selects the handler of that
    call.  start.S calls main and passes its result to exit; sbi_shutdown asks for the
    shutdown with the number the machine-mode handler tests. *)
Theorem stubs_correct (e : call_env) sym (f : string -> M hart unit) r num handler h : (code r, num, handler) ∈ stub_table e -> fetchable r h ->
  (exists h', run sym f 2 r 0 h = Ok (Ecall 2, h') /\ reg h' a7 = num /\ (forall x, x <> a7 -> reg h' x = reg h x) /\ memory h' = memory h /\ csrs h' = csrs h /\ mode h' = mode h) /\
  (num <> SYS_exit -> run sym f 1 r 2 h = Ok (To (reg h ra), h)) /\
  TF_reg a7 = TF_a7 /\ (forall s, tf_reg TF_a7 s = Ok (num, s) -> syscall e s = handler s) /\
  (forall r' h0 h1, code r' = Usys._start -> fetchable r' h0 -> fetchable r' h1 -> f "main" h0 = Ok (tt, h1) ->
    exists h', run sym f 3 r' 0 h0 = Ok (Ecall 3, h') /\ reg h' a7 = SYS_exit /\ reg h' a0 = reg h1 a0 /\ memory h' = memory h1) /\
  (forall r', code r' = sbi_shutdown -> fetchable r' h -> exists h', run sym f 2 r' 0 h = Ok (Ecall 2, h') /\ reg h' a7 = SBI_SHUTDOWN).
Proof using Type.
  intros Hin Hf. assert (code r !! 0%nat = Some (LI a7 num) /\ code r !! 1%nat = Some ECALL /\ (2 <= length (code r))%nat /\ 0 < num < NSYSCALL /\ (num <> SYS_exit -> code r !! 2%nat = Some RET) /\
    forall s, tf_reg TF_a7 s = Ok (num, s) -> syscall e s = handler s) as (H0 & H1 & Hl & Hn & H2 & Hd).
  { unfold stub_table in Hin. unfold syscall, mbind, M_bind. repeat (apply elem_of_cons in Hin as [[= E1 E2 E3]|Hin]; [rewrite E1; subst num handler; split_and!; [done|done|cbn; lia|done|done|done|by intros s ->]|]). by apply elem_of_nil in Hin. }
  unfold NSYSCALL in Hn. split_and!; try done.
  - eexists. split; [exact (call_run sym f r num h 0 H0 H1 ltac:(lia) Hf ltac:(lia))|]. split_and!; try done. intros x Hx. unfold reg. cbn [regs set_regs]. unfold upd_reg. by rewrite (proj2 (Z.eqb_neq x a7) Hx).
  - intros Hne. enough (wp (run sym f 1 r 2) (fun l h' => l = To (reg h ra) /\ h' = h) h) as Hw by (apply wp_elim in Hw as (? & ? & E & -> & ->); done).
    apply (run_step sym f r 2 0 _ _ h (H2 Hne)); [apply Hf; apply lookup_lt_is_Some_1; by rewrite (H2 Hne)|]. by hart_steps.
  - intros r' h0 h1 Hc Hf0 Hf1 Hm. assert (forall k, (k < 3)%nat -> (k < length (code r'))%nat) as Hk by (rewrite Hc; done).
    pose proof (call_run sym f r' SYS_exit h1 1 ltac:(by rewrite Hc) ltac:(by rewrite Hc) ltac:(apply Hk; lia) Hf1 ltac:(by vm_compute)) as E.
    enough (wp (run sym f 3 r' 0) (fun l h' => l = Ecall 3 /\ h' = set_regs (upd_reg (regs h1) a7 SYS_exit) h1) h0) as Hw by (apply wp_elim in Hw as (? & ? & E' & -> & ->); eexists; split; [exact E'|done]).
    apply (run_step sym f r' 0 2 (CALL "main") _ h0); [by rewrite Hc|apply Hf0, Hk; lia|]. hart_steps. eapply wp_intro; [exact Hm|]. wp_steps. eapply wp_intro; [exact E|done].
  - intros r' Hc Hf'. eexists. split; [apply call_run; [by rewrite Hc|by rewrite Hc|rewrite Hc; cbn; lia|done|by vm_compute]|done].
Qed.
End stubs.

Definition stub_env : call_env := mk_env 0 0 0 0 0 (mk_fork_env 0 0 0 0 false 0 0) (fun _ _ => mk_exec_env 0 false 0 false 0 0 0 EmptyString 0 0).
Definition stub_routine : Asm.routine := Asm.mk_routine Usys.write 0x1000 0x1000 (fun k => 4 * Z.of_nat k).
Definition stub_hart : Asm.hart := Asm.mk_hart (fun x => x) (fun _ => 0) Asm.User (fun _ => 0).
Lemma stubs_correct_witness : exists h', Asm.run (fun _ => 0) (fun _ => mret tt) 2 stub_routine 0 stub_hart = Ok (Asm.Ecall 2, h') /\ Asm.reg h' Asm.a7 = SYS_write /\ Asm.reg h' Asm.a0 = 10.
Proof.
  destruct (stubs_correct (C := sim_uart) stub_env (fun _ => 0) (fun _ => mret tt) stub_routine SYS_write (returns (sys_write stub_env)) stub_hart) as ((h' & E & H1 & H2 & _) & _); [left|intros k _; reflexivity|].
  exists h'. split; [exact E|]. split; [exact H1|]. exact (H2 Asm.a0 ltac:(discriminate)).
Defined.
